(* ===== verification/_CoqProject ===== *)
-Q . S2P
Prelude.v
PyText.v
Sha256.v
Txn.v
PyTime.v
AiContracts.v
AiTables.v
AiJobs.v
AiOrchestration.v
AiApi.v
AiProvider.v
AiWorker.v
AiLifecycle.v
AiRefinement.v
AiSystem.v
AiLedger.v
AiDemo.v
AiClaim.v
AiSafety.v
AiCommands.v
AiLeases.v
AiResults.v
AiWorkerSafety.v
AiWorkerRun.v
AiLimits.v
AiPolicy.v
Machines.v
Callbacks.v
Notifications.v
PolicyEngine.v
Delivery.v
Ledger.v
Ivr.v
Realtime.v
Appointments.v
Tts.v
TtsStream.v
PyUnicode.v
SalesContracts.v
SalesMatch.v
SalesService.v
SalesSafety.v
AiAuth.v
AiAuthSafety.v
LeadCallbackAuth.v
TelephonyContracts.v
TelephonyTables.v
TelephonyApi.v
TelephonyClient.v
TelephonyWorker.v
TelephonySafety.v
TelephonyLifecycle.v
TelephonyJournal.v
TelephonyDemo.v
CallPolicy.v
EdgeClient.v
Extensions.v
ExtensionSafety.v
Originate.v
OriginateSafety.v
PyParse.v
SocialTables.v
SocialRepo.v
SocialPublish.v
SocialService.v
SocialApi.v
SocialSystem.v
SocialSafety.v
SocialInvariant.v
SocialTheorems.v
SocialGates.v
SocialDemo.v
CallbackTables.v
CallbackApi.v
CallbackScheduler.v
CallbackSafety.v
CallbackTheorems.v
CallbackDemo.v
