(* ===== verification/Prelude.v ===== *)
(** * The Codestra middleware: a verification development

    The middleware is a FastAPI service between a CRM, telephony servers, AI
    workers and other systems.  This library models its core, the Python code
    under [src/app], as executable Rocq functions and proves what makes it
    correct.  It covers the AI job platform from the HTTP handlers down to the
    SQL statements, the authentication of the workers that drive it, its own
    worker that calls an inference provider, the telephony command pipeline from
    the API to the delivery of its results, the allocation of extensions and
    click-to-call origination, social publishing from the API to the providers,
    the management of customer callbacks with its scheduler and popups, the
    text-to-speech queue and its streaming endpoint, the sales-lead service, the
    authentication of lead callbacks, and the rule modules of callbacks,
    notifications, contact policy, delivery, IVR, real-time events,
    appointments, allocation and transcription.

    ** How the program is modelled

    - Text is the UTF-8 encoding of a Python [str] ([PyText]); [py_len] counts
      code points and [byte_len] bytes.  Time is a number of microseconds
      ([PyTime]), a [datetime] a wall-clock reading with an optional offset.
      Integers are unbounded, as in Python; columns of PostgreSQL keep the
      bounds their check constraints state.
    - A database session is the state of the small monad of [Txn]: committed
      and working tables, a clock whose head is [now()] of the transaction, and
      a supply of UUIDs; the errors are the values of [exn].  A repository
      function or a handler is a program [M db A], an SQL statement a function
      on tables, a table a [gmap] on its unique key.  Transactions run one
      after another: this is what the row and advisory locks of the code give
      them; the [SKIP LOCKED] of the job queues, which matters only to
      transactions that overlap, has no counterpart, except in the claims of
      telephony commands, which leave out any set of locked rows.  A system is a
      step relation, one request per step with any clock and any UUIDs, and
      [reachable] is its closure from empty tables.
    - Asynchronous code that awaits between its effects ([TtsStream],
      [SalesService]) is cut at the awaits; a step is one segment of one call,
      so theorems about reachable worlds hold for every interleaving.  The
      telephony workers ([TelephonySystem]) are phases of [dispatch_one] in a
      world of tables, deliveries and the log of the adapter's calls; each
      transaction and each call is a step, and a worker may crash between any
      two; the workers of social publishing ([SocialSystem]) likewise, with the
      log of the provider's operations.  Click-to-call ([Originate]) is cut at
      its awaits too: any number of requests may be in flight between the lookup
      of their key, the identity service and their commit.  The OpenAI worker
      ([AiWorker]) is one program whose waits carry what other sessions and its
      own lease task commit meanwhile.
    - Row-level security is part of the statements: those on the callback
      tables take the context of the transaction, see what the policies show
      and are refused what they do not ([CallbackTables]).
    - Code that is not in the repository is a type class with the functions
      the program calls: the validation library ([Pydantic] of [AiJobs],
      [WorkerModels] of [AiWorker], [CommandModels] of [TelephonyContracts],
      [CallbackModels] of [CallbackApi]), the text of a nested container
      ([PyRepr] of [SocialPublish]),
      time zones ([zone] arguments), files, names, certificates and URLs of the
      private edge ([Platform] of [Originate]), Unicode tables, URL splitting
      and IDNA ([TextLib] of [PyUnicode]), telephone numbers ([PhoneLib] of
      [SalesMatch]), addresses and certificates ([IpLib], [X509] of [AiAuth]).
      SHA-256, HMAC, JSON and [difflib] are defined in full.

    ** Files

    A file holds the Module of its name; five hold a second one: [TelephonyWorker]
    also [TelephonySystem], [OriginateSafety] also [OriginateDemo],
    [SocialSafety] also [SocialFence], [SocialDemo] also [SocialFindings],
    [CallbackScheduler] also [CallbackSystem].

    - [Prelude]: record update, three-valued SQL comparisons, tables and their
      updates, the hint database [mw] and the tactics [bool_to_prop] and
      [by_compute].
      [PyText], [PyTime], [PyParse], [PyUnicode], [Sha256]: what the program
      uses of the language's library.  [Txn]: sessions, programs, the weakest
      preconditions [wp] and the transformers [keeps] and [preserves].
    - [AiContracts] ([core/ai_contracts.py]), [AiTables] (migrations 0030 to
      0032 and the settings), [AiJobs] ([core/ai_jobs.py]), [AiOrchestration]
      ([core/ai_orchestration.py]), [AiApi] ([api/internal/ai_jobs.py],
      [api/v1/ai_console.py], [api/v1/ai_commands.py]): the platform, function
      by function.  [AiProvider] ([core/ai_provider.py]): the provider
      boundary, with the redaction of prompts.  [AiWorker]
      ([workers/openai_jobs.py]): the worker of the platform's own server.
    - [AiLifecycle]: the abstract machine of a single job, its row, approval
      and dead letter, with its invariants.  [AiRefinement]: every program
      moves every job along this machine (the property [sound], closed under
      the monad's operations).  [AiSystem]: the transition system, whose
      requests are the handlers and the transactions of the OpenAI worker.
      [AiLedger]: invariants that relate tables.  [AiDemo]: a concrete run,
      which the witnesses use.
    - [AiClaim], [AiSafety], [AiCommands], [AiLeases], [AiResults],
      [AiLimits], [AiPolicy], [AiWorkerSafety], [AiWorkerRun]: the theorems,
      described below.
    - [AiAuth], [AiAuthSafety]: [authenticate_worker] of
      [api/internal/ai_jobs.py] and [qwen_auth_verifier.py].
    - [Machines]: state machines given as tables and a bounded search that
      decides reachability in them.  [Callbacks], [Notifications],
      [PolicyEngine], [Delivery] (delivery, reliability, provider breaker and
      call life cycle), [Ledger] (the three in-memory idempotency ledgers),
      [Ivr], [Realtime], [Appointments] (with campaign allocation and
      transcription): the modules of the same names under [core/].
    - [Tts] ([core/tts_jobs.py], migration 0033), [TtsStream]
      ([api/v1/tts.py]).
    - [SalesContracts] ([sales/contracts.py], [sales/compliance.py]),
      [SalesMatch] ([sales/normalization.py], [sales/identity.py]),
      [SalesService] ([sales/service.py]), [SalesSafety]: their theorems.
    - [LeadCallbackAuth] ([core/lead_callback_auth.py]): signer and verifier
      of lead callbacks, with their theorems.
    - [TelephonyContracts] ([core/telephony_commands.py]), [TelephonyTables]
      (the journals of [db/models.py]), [TelephonyApi] ([api/v1/commands.py],
      [adapters/odoo/telephony_results.py]), [TelephonyClient]
      ([adapters/telephony/client.py]), [TelephonyWorker]
      ([workers/telephony_commands.py]), [TelephonySystem]: the command
      pipeline; [TelephonySafety], [TelephonyLifecycle], [TelephonyJournal]:
      its theorems; [TelephonyDemo]: concrete runs.
    - [CallPolicy] ([core/webrtc_production_policy.py]), [EdgeClient]
      ([adapters/vicidial/mtls_client.py]), [Extensions] ([core/telephony.py]
      and the allocation half of [api/v1/telephony.py]), [ExtensionSafety],
      [Originate] (the origination half), [OriginateSafety], [OriginateDemo].
    - [SocialTables] ([social/domain.py], migrations 0036 to 0038),
      [SocialRepo] ([social/sql_repository.py]), [SocialPublish]
      ([social/production.py], [providers.py], [adapters.py], [queue.py],
      [security.py], [integrations/postiz/client.py], [workers/social.py]),
      [SocialService] ([social/service.py]), [SocialApi]
      ([api/v1/social.py]), [SocialSystem]: social publishing; [SocialSafety],
      [SocialFence], [SocialInvariant]: its invariant; [SocialTheorems],
      [SocialGates]: its theorems; [SocialDemo]: concrete runs;
      [SocialFindings]: where code and documents part.
    - [CallbackTables] (migrations 0051 and 0052, [core/callback_rls.py]),
      [CallbackApi] ([api/v1/callbacks.py]), [CallbackScheduler]
      ([callback_scheduler.py], [entrypoints/scheduler.py],
      [workers/callback_realtime.py]), [CallbackSystem]: callback management
      over the rules of [Callbacks]; [CallbackSafety]: its invariant;
      [CallbackTheorems], [CallbackDemo].

    ** What the theorems show

    - Claims: a worker gets the most urgent, oldest claimable job, within its
      concurrency and runtime class within the scope of the claim, and a claim
      always ends in a documented way ([AiClaim]).
    - Runs of the platform ([AiSafety]): rows stay well formed, states follow
      the diagram, final states are final, a claim fences out every earlier
      lease holder, the attempt ledger has no gap, output bytes are exact, the
      audit trail only grows.
    - Operations on every branch: decisions, replayed submissions and quotas
      ([AiCommands]); recovery, expiry, chunks and completion of leases
      ([AiLeases]); a stored result is answered the same way for ever
      ([AiResults]); validation and sanitising at the edge ([AiPolicy]).
    - The OpenAI worker: its runs are runs of the platform
      ([worker_follows_platform]), the provider sees only guarded and redacted
      requests, a job that nothing disturbs is delivered piece by piece, beside
      the chunks an earlier attempt left; and a lost lease that stops the worker ([AiWorkerSafety], [AiWorkerRun]).
    - Limits of the code that its readers may not expect ([AiLimits],
      and the corresponding theorems of the other files).
    - Authentication: what an accepted request proves, that its signed string
      is unambiguous, and exactly when a captured one can be replayed.
    - Speech: the provider is asked at most once per job, finished jobs are
      immutable, recovery is complete, rate limits hold over every minute, one
      stream at a time; and a lost admission lock.
    - Sales leads: who may be contacted, matches stay within the tenant,
      replays, the account of verification jobs; and a job left running.
    - Telephony commands: nothing is dispatched without a valid decision, nor
      more often than it was claimed; a journaled operation is final, a worker
      that lost its lease is harmless, a command completes only on an answer of
      the adapter that reports the desired state; retries end, creation is
      idempotent until the command expires and is refused from then on,
      transitions have no gap ([TelephonySafety], [TelephonyLifecycle], [TelephonyJournal]); and
      an expired command that is claimed for ever, a denied one that is
      reconciled.
    - Calls: the policy decides exactly its declarative rule ([CallPolicy]);
      nothing dials past a closed gate, a recorded call is replayed for ever and
      dials only for requests that had looked it up before, at most ten calls a
      minute; and a key that dials twice, a reused correlation id that dials
      unrecorded ([OriginateSafety]).  Extensions: what the audit admits, the least
      eligible extension is granted; and reservations that never expire
      ([ExtensionSafety]).
    - Social publishing: the provider calls of a job are bounded, an unknown
      result is never sent again, nothing is published past a closed gate,
      finished jobs stay, creation is idempotent, webhooks are signed and
      counted once, due work is taken ([SocialTheorems], [SocialGates]); and
      the lapsed lease that sends again ([SocialFindings]).
    - Customer callbacks: runs follow the diagram of [Callbacks], every version
      has exactly one event, requests stay within the row-level policies, a
      change is accepted once, a blocked callback is never called, popups are
      current, due callbacks are taken ([CallbackTheorems]); and a key that
      stops the scheduler, a reminder that is never posted ([CallbackDemo]).
    - Lead callbacks: accepted exactly when the signer would have produced
      them, and once per nonce ([LeadCallbackAuth]).
    - Rule modules: exactly when a contact is allowed, the provider's breaker,
      the campaign lock of a call, the state tables.

    ** Bounds and fuel

    [Machines.explore] searches with as much fuel as the table has states, and
    [closed_spec] turns a search that found nothing new into a proof about all
    runs.  [PyUnicode.matches] recurses on fuel one larger than the text;
    [matches_enough_fuel] shows that more changes nothing.  [Sha256] runs one
    round per word and block.  Everything else is structural.

    ** Not modelled

    The event streams and read-only pages of the consoles; redaction by regular
    expressions in [reliability] and [transcription]; the HTTP client of the
    provider ([providers/openai_responses.py]) and the remote polling worker,
    whose effects reach the platform through the modelled handlers; the reader
    of the call policy's file; the durable copy of the sales service
    ([sales/repository.py]); the resolution of bearer tokens of the callback
    API and its dashboards; lead automation, orders, recording and e-mail, which
    are further components of the same kind as the modelled ones; transports,
    metrics, entry points and the tables of those parts.  Columns of type
    [bigint] and [integer] are not bounded, except the versions of telephony
    commands; overflow of another counter would be an error of the statement. *)

From stdpp Require Export base option list strings gmap sorting relations.
From Stdlib Require Export ZArith Lia.

#[global] Set Default Proof Using "Type".

(** ** Record update

    [r <| p := v |>] is the record [r] with the field read by [p] replaced by
    [v], and [r <| p ::= f |>] the one with the field transformed by [f]: the
    column list of an SQL [UPDATE].  A record type declares one [Eta]
    instance, its own eta expansion; the setter of each field is read off it. *)

Class Eta (R : Type) := eta : R -> R.

Class Setter {R E : Type} (proj : R -> E) := upd : (E -> E) -> R -> R.
Arguments upd {R E} proj {_} f r : assert.

Ltac derive_setter :=
  lazymatch goal with
  | |- @Setter ?R ?E ?proj =>
      let f := fresh "f" in
      let r := fresh "r" in
      refine (fun (f : E -> E) (r : R) => _);
      let inst := constr:(_ : Eta R) in
      let h := match inst with ?c => c end in
      let body := eval cbv beta delta [h eta] in (@eta R inst r) in
      let pat := eval pattern (proj r) in body in
      lazymatch pat with
      | ?g _ => let t := eval cbv beta in (g (f (proj r))) in exact t
      end
  end.

#[export] Hint Extern 0 (Setter _) => derive_setter : typeclass_instances.

Declare Scope row_scope.
Delimit Scope row_scope with row.
Notation "r <| p := v |>" := (upd p (fun _ => v) r)
  (at level 1, left associativity, p at level 9, format "r  <| p  :=  v |>") : row_scope.
Notation "r <| p ::= f |>" := (upd p f r)
  (at level 1, left associativity, p at level 9, format "r  <| p  ::=  f |>") : row_scope.
#[global] Open Scope row_scope.
#[global] Open Scope Z_scope.


(** ** SQL comparisons on nullable columns

    A comparison with a [NULL] operand is unknown, and a [WHERE] clause keeps
    only the rows whose condition is true: the tests below are [false] there. *)

Definition null_gt (column : option Z) (bound : Z) : bool :=
  match column with Some v => bound <? v | None => false end.

Definition null_le (column : option Z) (bound : Z) : bool :=
  match column with Some v => v <=? bound | None => false end.

Definition null_eq {A} `{EqDecision A} (column : option A) (value : A) : bool :=
  bool_decide (column = Some value).

(** [(CAST(:p AS uuid) IS NULL OR column = :p)], the optional filter. *)
Definition filter_eq {A} `{EqDecision A} (param : option A) (column : A) : bool :=
  match param with Some p => bool_decide (column = p) | None => true end.

Definition is_null {A} (column : option A) : bool :=
  match column with Some _ => false | None => true end.

Definition coalesce {A} (column : option A) (default : A) : A :=
  match column with Some v => v | None => default end.

(** A Python [x or y] on an optional string: [None] and the empty string are
    both falsy. *)
Definition py_or (x : option string) (y : string) : string :=
  match x with
  | Some s => if bool_decide (s = "") then y else s
  | None => y
  end.

(** ** Finite tables

    An [UPDATE t SET ... WHERE p] rewrites the rows that satisfy [p]; its
    [RETURNING] list holds the rewritten rows. *)
Section table.
Context {K V : Type} `{Countable K}.
Implicit Types (m : gmap K V) (p : V -> bool) (f : V -> V).

Definition update_where p f m : gmap K V :=
  (fun v => if p v then f v else v) <$> m.

Definition rows m : list V := snd <$> map_to_list m.

Definition select_where p m : list V := List.filter p (rows m).

Definition count_where p m : Z := Z.of_nat (length (select_where p m)).

Definition returning p f m : list V := f <$> select_where p m.

Lemma lookup_update_where p f m k :
  update_where p f m !! k = (fun v => if p v then f v else v) <$> m !! k.
Proof. apply lookup_fmap. Qed.

Lemma lookup_update_where_Some p f m k v' :
  update_where p f m !! k = Some v' <->
  exists v, m !! k = Some v /\ v' = if p v then f v else v.
Proof.
  rewrite lookup_update_where, fmap_Some. naive_solver.
Qed.

Lemma elem_of_rows m v : v ∈ rows m <-> exists k, m !! k = Some v.
Proof.
  unfold rows. rewrite list_elem_of_fmap. split.
  - intros ([k v'] & -> & Hin). exists k. by apply elem_of_map_to_list.
  - intros [k Hk]. exists (k, v). split; [done|]. by apply elem_of_map_to_list.
Qed.

Lemma elem_of_select_where p m v :
  v ∈ select_where p m <-> p v = true /\ exists k, m !! k = Some v.
Proof.
  unfold select_where. rewrite list_elem_of_In, filter_In, <- list_elem_of_In, elem_of_rows.
  naive_solver.
Qed.

(** An [UPDATE] by key of a row that is there. *)
Lemma alter_present f m k v : m !! k = Some v -> alter f k m = <[k := f v]> m.
Proof.
  intros Hk. apply map_eq. intros k'. rewrite lookup_alter, lookup_insert.
  case_decide; [subst; by rewrite Hk|done].
Qed.

Lemma update_where_nothing p f m :
  (forall k v, m !! k = Some v -> p v = false) -> update_where p f m = m.
Proof.
  intros Hp. apply map_eq. intros k. rewrite lookup_update_where.
  destruct (m !! k) as [v|] eqn:E; [|done]. cbn. by rewrite (Hp k v E).
Qed.
End table.
#[global] Arguments update_where : simpl never.

(** Selections do not depend on the order in which a table is listed. *)
#[export] Instance list_filter_perm {A} (p : A -> bool) :
  Proper ((≡ₚ) ==> (≡ₚ)) (List.filter p).
Proof.
  induction 1 as [|x l l' _ IH|x y l|]; cbn; [done| | |by etrans]; repeat case_match; eauto.
  constructor.
Qed.

(** ** Proof automation *)

Create HintDb mw discriminated.
#[export] Hint Rewrite @lookup_update_where : mw.

Lemma null_gt_spec o b : null_gt o b = true <-> exists v, o = Some v /\ b < v.
Proof. destruct o; cbn; rewrite ?Z.ltb_lt; naive_solver. Qed.

Lemma null_le_spec o b : null_le o b = true <-> exists v, o = Some v /\ v <= b.
Proof. destruct o; cbn; rewrite ?Z.leb_le; naive_solver. Qed.

Lemma null_gt_le_false o b : null_gt o b = true -> null_le o b = false.
Proof. destruct o; cbn; rewrite ?Z.ltb_lt, ?Z.leb_gt; naive_solver lia. Qed.

Lemma null_eq_spec {A} `{EqDecision A} (o : option A) v : null_eq o v = true <-> o = Some v.
Proof. unfold null_eq. by rewrite bool_decide_eq_true. Qed.

Lemma filter_eq_spec {A} `{EqDecision A} (o : option A) v :
  filter_eq o v = true <-> forall p, o = Some p -> v = p.
Proof. destruct o; cbn; rewrite ?bool_decide_eq_true; naive_solver. Qed.

Lemma is_null_true {A} (o : option A) : is_null o = true <-> o = None.
Proof. by destruct o. Qed.

Lemma is_null_false {A} (o : option A) : is_null o = false <-> is_Some o.
Proof. destruct o; cbn; split; [eauto|done|done|by intros []]. Qed.

(** A decidable statement without variables, by evaluation. *)
Ltac by_compute := apply (bool_decide_unpack _); vm_compute; exact I.

(** Turns the boolean tests of the code into the propositions they decide. *)
Ltac bool_to_prop :=
  repeat match goal with
  | H : (_ && _)%bool = true |- _ => apply andb_true_iff in H; destruct H
  | H : (_ || _)%bool = false |- _ => apply orb_false_iff in H; destruct H
  | H : negb _ = true |- _ => apply negb_true_iff in H
  | H : negb _ = false |- _ => apply negb_false_iff in H
  | H : (_ <? _) = true |- _ => apply Z.ltb_lt in H
  | H : (_ <? _) = false |- _ => apply Z.ltb_ge in H
  | H : (_ <=? _) = true |- _ => apply Z.leb_le in H
  | H : (_ <=? _) = false |- _ => apply Z.leb_gt in H
  | H : (_ =? _) = true |- _ => apply Z.eqb_eq in H
  | H : (_ =? _) = false |- _ => apply Z.eqb_neq in H
  | H : bool_decide _ = true |- _ => apply bool_decide_eq_true in H
  | H : bool_decide _ = false |- _ => apply bool_decide_eq_false in H
  | H : is_null _ = true |- _ => apply is_null_true in H
  | H : is_null _ = false |- _ => apply is_null_false in H
  | H : null_eq _ _ = true |- _ => apply null_eq_spec in H
  | H : null_gt _ _ = true |- _ => apply null_gt_spec in H
  | H : null_le _ _ = true |- _ => apply null_le_spec in H
  end.

#[export] Hint Rewrite null_gt_spec null_le_spec @null_eq_spec @filter_eq_spec : mw.
