(* ===== verification/PyText.v ===== *)
(** * Text: the Python strings, UUIDs and JSON the middleware uses

    A Python [str] is held as the Rocq [string] of its UTF-8 bytes, so
    [len(s.encode())] is [String.length s] and [len(s)] counts code points.
    [json_dumps] is [json.dumps] with [ensure_ascii] at its default, in the two
    settings the code uses: the default separators, and
    [sort_keys=True, separators=(",", ":")]. *)

From Stdlib Require Import Ascii DecimalString.
From S2P Require Import Prelude.
Local Open Scope string_scope.
Local Open Scope Z_scope.

(** ** Characters and code points *)

Definition chr (n : N) : string := String (ascii_of_N n) EmptyString.
Definition nul : string := chr 0.
Definition dquote : string := chr 34.

Definition in_range (c : ascii) (lo hi : N) : bool :=
  ((lo <=? N_of_ascii c) && (N_of_ascii c <=? hi))%N%bool.
Definition is_digit (c : ascii) : bool := in_range c 48 57.
Definition is_upper (c : ascii) : bool := in_range c 65 90.
Definition is_lower (c : ascii) : bool := in_range c 97 122.
Definition is_alnum (c : ascii) : bool := (is_digit c || is_upper c || is_lower c)%bool.
Definition is_lower_hex (c : ascii) : bool := (is_digit c || in_range c 97 102)%bool.

Fixpoint char_in (c : ascii) (s : string) : bool :=
  match s with
  | EmptyString => false
  | String d s' => (Ascii.eqb c d || char_in c s')%bool
  end.

Fixpoint str_forall (p : ascii -> bool) (s : string) : bool :=
  match s with
  | EmptyString => true
  | String c s' => (p c && str_forall p s')%bool
  end.

(** [re.fullmatch(r"[class]{lo,hi}", s)] for an ASCII character class. *)
Definition fullmatch_class (p : ascii -> bool) (lo hi : nat) (s : string) : bool :=
  ((lo <=? String.length s)%nat && (String.length s <=? hi)%nat && str_forall p s)%bool.

(** [str.lower] on ASCII letters and on the Kelvin sign (U+212A, bytes E2 84
    AA), the one other character whose lower case is an ASCII letter.  Other
    characters are left as they are: no text with such a character has an ASCII
    lower case, and the code only compares lower-cased texts with ASCII ones. *)
Definition lower_char (c : ascii) : ascii :=
  if is_upper c then ascii_of_N (N_of_ascii c + 32) else c.
Definition is_kelvin (c0 c1 c2 : ascii) : bool :=
  ((N_of_ascii c0 =? 226) && (N_of_ascii c1 =? 132) && (N_of_ascii c2 =? 170))%N%bool.
Fixpoint str_lower (s : string) : string :=
  match s with
  | EmptyString => EmptyString
  | String c s' =>
      match s' with
      | String c1 (String c2 s2) =>
          if is_kelvin c c1 c2 then String "k" (str_lower s2)
          else String (lower_char c) (str_lower s')
      | _ => String (lower_char c) (str_lower s')
      end
  end.

(** Code points of a UTF-8 string; a byte that starts no well-formed sequence
    stands for itself. *)
Fixpoint utf8_points (s : string) : list N :=
  let tail (c : ascii) := (N_of_ascii c - 128)%N in
  match s with
  | EmptyString => []
  | String c0 s0 =>
      let n := N_of_ascii c0 in
      if (n <? 194)%N then n :: utf8_points s0
      else if (n <? 224)%N then
        match s0 with
        | String c1 s1 => ((n - 192) * 64 + tail c1)%N :: utf8_points s1
        | _ => n :: utf8_points s0
        end
      else if (n <? 240)%N then
        match s0 with
        | String c1 (String c2 s2) =>
            ((n - 224) * 4096 + tail c1 * 64 + tail c2)%N :: utf8_points s2
        | _ => n :: utf8_points s0
        end
      else
        match s0 with
        | String c1 (String c2 (String c3 s3)) =>
            ((n - 240) * 262144 + tail c1 * 4096 + tail c2 * 64 + tail c3)%N :: utf8_points s3
        | _ => n :: utf8_points s0
        end
  end.

(** Python's [len] of a [str], and of [s.encode()]. *)
Definition py_len (s : string) : Z := Z.of_nat (length (utf8_points s)).
Definition byte_len (s : string) : Z := Z.of_nat (String.length s).

(** [s[:n]] on a text: the cut falls before the [n+1]st byte that starts a
    character. *)
Fixpoint text_prefix (n : nat) (s : string) : string :=
  match s with
  | EmptyString => EmptyString
  | String c s' =>
      if in_range c 128 191 then String c (text_prefix n s')
      else match n with O => EmptyString | S m => String c (text_prefix m s') end
  end.

(** ** Numbers and UUIDs as text *)

(** [str] of a Python [int]. *)
Definition str_of_Z (z : Z) : string := NilZero.string_of_int (Z.to_int z).

Definition hex_digit (n : N) : string :=
  if (n <? 10)%N then chr (48 + n) else chr (87 + n).

(** The [width] low hexadecimal digits of [n]. *)
Fixpoint hex (width : nat) (n : N) : string :=
  match width with
  | O => ""
  | S w => hex w (n / 16) +:+ hex_digit (n mod 16)
  end.

(** A UUID is its 128-bit integer; [uuid_str] is its hyphenated form. *)
Definition uuid := N.

Definition uuid_str (u : uuid) : string :=
  hex 8 (u / 2 ^ 96) +:+ "-" +:+ hex 4 (u / 2 ^ 80) +:+ "-" +:+ hex 4 (u / 2 ^ 64)
    +:+ "-" +:+ hex 4 (u / 2 ^ 48) +:+ "-" +:+ hex 12 u.

(** ** Ordered lists of strings ([sorted]) *)

Fixpoint insert_by {A} (le : A -> A -> bool) (x : A) (l : list A) : list A :=
  match l with
  | [] => [x]
  | y :: l' => if le x y then x :: l else y :: insert_by le x l'
  end.

Definition sort_by {A} (le : A -> A -> bool) (l : list A) : list A :=
  foldr (insert_by le) [] l.

Definition sorted_strings : list string -> list string := sort_by String.leb.

Fixpoint join (sep : string) (l : list string) : string :=
  match l with
  | [] => ""
  | [x] => x
  | x :: l' => x +:+ sep +:+ join sep l'
  end.

(** ** JSON *)

(** A float is carried by its [repr]. *)
Inductive json :=
  | JNull
  | JBool (b : bool)
  | JInt (z : Z)
  | JFloat (repr : string)
  | JStr (s : string)
  | JList (items : list json)
  | JObj (members : list (string * json)).

(** One code point inside a JSON string literal. *)
Definition json_escape (n : N) : string :=
  if (n =? 34)%N then "\" +:+ dquote
  else if (n =? 92)%N then "\\"
  else if (n =? 8)%N then "\b"
  else if (n =? 9)%N then "\t"
  else if (n =? 10)%N then "\n"
  else if (n =? 12)%N then "\f"
  else if (n =? 13)%N then "\r"
  else if ((32 <=? n) && (n <=? 126))%N%bool then chr n
  else if (n <? 65536)%N then "\u" +:+ hex 4 n
  else "\u" +:+ hex 4 (55296 + (n - 65536) / 1024) +:+ "\u" +:+ hex 4 (56320 + (n - 65536) mod 1024).

Definition json_string (s : string) : string :=
  dquote +:+ String.concat "" (json_escape <$> utf8_points s) +:+ dquote.

Record json_style := JsonStyle { sort_keys : bool; item_sep : string; key_sep : string }.
Definition json_default : json_style := JsonStyle false ", " ": ".
Definition json_canonical : json_style := JsonStyle true "," ":".

Fixpoint json_dumps (st : json_style) (v : json) : string :=
  match v with
  | JNull => "null"
  | JBool b => if b then "true" else "false"
  | JInt z => str_of_Z z
  | JFloat r => r
  | JStr s => json_string s
  | JList items => "[" +:+ join (item_sep st) (json_dumps st <$> items) +:+ "]"
  | JObj members =>
      let rendered := (fun kv => (kv.1, json_dumps st kv.2)) <$> members in
      let ordered :=
        if sort_keys st then sort_by (fun a b => String.leb a.1 b.1) rendered else rendered in
      "{" +:+ join (item_sep st)
                 ((fun kv => json_string kv.1 +:+ key_sep st +:+ kv.2) <$> ordered) +:+ "}"
  end.

(** [d.get(key)] on a decoded object. *)
Definition json_get (key : string) (v : json) : option json :=
  match v with
  | JObj members => snd <$> List.find (fun kv => bool_decide (kv.1 = key)) members
  | _ => None
  end.

(** Python truthiness of a decoded value. *)
Definition json_truthy (v : json) : bool :=
  match v with
  | JNull => false
  | JBool b => b
  | JInt z => negb (z =? 0)
  | JFloat r => negb (bool_decide (r = "0.0") || bool_decide (r = "-0.0"))
  | JStr s => negb (bool_decide (s = ""))
  | JList items => match items with [] => false | _ => true end
  | JObj members => match members with [] => false | _ => true end
  end.

(** ** Membership, dict literals, splitting and stripping *)

Definition str_in (s : string) (l : list string) : bool := bool_decide (s ∈ l).

(** [d.get(key)] on a dict literal. *)
Definition dict_get {A} (d : list (string * A)) (key : string) : option A :=
  snd <$> List.find (fun kv => bool_decide (kv.1 = key)) d.

(** [s.split(",")], and [item.strip()] for the ASCII white space. *)
Fixpoint split_comma (s : string) : list string :=
  match s with
  | EmptyString => [""]
  | String c s' =>
      if Ascii.eqb c "," then "" :: split_comma s'
      else match split_comma s' with
           | x :: l => String c x :: l
           | [] => [String c ""]
           end
  end.
Definition is_space (c : ascii) : bool := in_range c 9 13 || Ascii.eqb c " ".
Fixpoint lstrip (s : string) : string :=
  match s with
  | String c s' => if is_space c then lstrip s' else s
  | EmptyString => ""
  end.
Fixpoint rstrip (s : string) : string :=
  match s with
  | String c s' =>
      let t := rstrip s' in
      if (is_space c && bool_decide (t = ""))%bool then "" else String c t
  | EmptyString => ""
  end.
Definition strip (s : string) : string := rstrip (lstrip s).
(** ** Facts *)

Example uuid_str_example :
  uuid_str 0x00112233445566778899aabbccddeeff%N = "00112233-4455-6677-8899-aabbccddeeff".
Proof. vm_compute. reflexivity. Qed.

Example json_dumps_example :
  json_dumps json_canonical (JObj [("b", JInt 2); ("a", JList [JBool true; JNull; JStr "x\y"])])
  = String.concat dquote ["{"; "a"; ":[true,null,"; "x\\y"; "],"; "b"; ":2}"].
Proof. vm_compute. reflexivity. Qed.

Lemma string_length_app (a b : string) :
  String.length (a +:+ b) = (String.length a + String.length b)%nat.
Proof. induction a as [|c a IH]; cbn; [done|]. by rewrite <- IH. Qed.

Lemma byte_len_nonneg s : 0 <= byte_len s.
Proof. unfold byte_len. lia. Qed.

Lemma str_forall_impl (p q : ascii -> bool) s :
  (forall c, p c = true -> q c = true) -> str_forall p s = true -> str_forall q s = true.
Proof.
  intros Hpq. induction s; cbn; [done|]. rewrite !andb_true_iff. naive_solver.
Qed.

Lemma str_forall_app p (a b : string) : str_forall p (a +:+ b) = str_forall p a && str_forall p b.
Proof. induction a as [|c a IH]; [done|]. change (String c a +:+ b) with (String c (a +:+ b)). cbn. by rewrite IH, andb_assoc. Qed.

Lemma insert_by_perm {A} (le : A -> A -> bool) x l : insert_by le x l ≡ₚ x :: l.
Proof.
  induction l as [|y l IH]; cbn; [done|]. destruct (le x y); [done|].
  rewrite IH. constructor.
Qed.

Lemma sort_by_perm {A} (le : A -> A -> bool) l : sort_by le l ≡ₚ l.
Proof.
  induction l as [|x l IH]; cbn; [done|]. rewrite insert_by_perm. by f_equiv.
Qed.

(** The first element of a sorted list is a least one. *)
Lemma head_sort_by {A} (le : A -> A -> bool) l x :
  (forall a b, le a b = true \/ le b a = true) ->
  (forall a b c, le a b = true -> le b c = true -> le a c = true) ->
  head (sort_by le l) = Some x -> forall y, y ∈ l -> le x y = true.
Proof.
  intros Htot Htr. revert x. induction l as [|z l IH]; intros x Hx y Hy; [done|].
  assert (Hrefl : forall a, le a a = true) by (intros a; destruct (Htot a a); done).
  change (sort_by le (z :: l)) with (insert_by le z (sort_by le l)) in Hx.
  destruct (sort_by le l) as [|h t] eqn:E; cbn in Hx.
  - pose proof (sort_by_perm le l) as Hp. rewrite E in Hp. apply Permutation_nil in Hp as ->.
    apply list_elem_of_singleton in Hy. by simplify_eq/=.
  - specialize (IH h eq_refl). destruct (le z h) eqn:Ez; simplify_eq/=;
      apply elem_of_cons in Hy as [->|Hy]; eauto.
    match goal with |- le ?a ?b = true => destruct (Htot a b); [done|congruence] end.
Qed.

Lemma elem_of_sorted_strings x l : x ∈ sorted_strings l <-> x ∈ l.
Proof. unfold sorted_strings. by rewrite sort_by_perm. Qed.

(** Lookups in dict literals; the keys of a dict are distinct. *)
Lemma dict_get_elem {A} (l : list (string * A)) k v :
  dict_get l k = Some v -> (k, v) ∈ l.
Proof.
  unfold dict_get. intros ([k' v'] & Hf & [= ->])%fmap_Some.
  apply find_some in Hf as [Hin Hk]. bool_to_prop. cbn in Hk. subst. by apply list_elem_of_In.
Qed.

Lemma dict_get_iff {A} (d : list (string * A)) k v : NoDup (d.*1) -> dict_get d k = Some v <-> (k, v) ∈ d.
Proof.
  unfold dict_get. induction d as [|[k' v'] d IH]; cbn; intros Hnd.
  - split; [done|]. intros H. by apply not_elem_of_nil in H.
  - apply NoDup_cons in Hnd as [Hni Hnd]. rewrite elem_of_cons. case_bool_decide as E; cbn.
    + subst k'. split; [intros [= <-]; by left|]. intros [[= <-]|Hin]; [done|].
      exfalso. apply Hni. by apply (list_elem_of_fmap_2 fst) in Hin.
    + rewrite (IH Hnd). split; [by right|]. intros [[= <- <-]|?]; done.
Qed.
