(* ===== verification/Sha256.v ===== *)
(** * SHA-256 and HMAC-SHA-256 ([hashlib.sha256(...).hexdigest()], [hmac.new])

    The digest of a byte string as [hashlib] returns it, in lowercase
    hexadecimal.  The round constants are computed from their definition, the
    fractional parts of the square and cube roots of the first primes. *)

From Stdlib Require Import Ascii.
From S2P Require Import Prelude PyText.
Local Open Scope N_scope.

Definition word_add (x y : N) : N := (x + y) mod 2 ^ 32.
Definition word_not (x : N) : N := 2 ^ 32 - 1 - x.
Definition rotr (x n : N) : N :=
  N.lor (N.shiftr x n) (N.shiftl x (32 - n) mod 2 ^ 32).

Definition xor3 (x y z : N) : N := N.lxor (N.lxor x y) z.
Definition choose (x y z : N) : N := N.lxor (N.land x y) (N.land (word_not x) z).
Definition majority (x y z : N) : N := xor3 (N.land x y) (N.land x z) (N.land y z).
Definition big_sigma0 (x : N) : N := xor3 (rotr x 2) (rotr x 13) (rotr x 22).
Definition big_sigma1 (x : N) : N := xor3 (rotr x 6) (rotr x 11) (rotr x 25).
Definition small_sigma0 (x : N) : N := xor3 (rotr x 7) (rotr x 18) (N.shiftr x 3).
Definition small_sigma1 (x : N) : N := xor3 (rotr x 17) (rotr x 19) (N.shiftr x 10).

(** The first [n] primes at or above [from], by trial division. *)
Definition prime_test (n : N) : bool :=
  forallb (fun d => negb (n mod (N.of_nat d) =? 0))
    (List.seq 2 (N.to_nat (N.sqrt n) - 1)).
Fixpoint primes_from (fuel : nat) (from : N) : list N :=
  match fuel with
  | O => []
  | S f => if prime_test from then from :: primes_from f (from + 1)
           else primes_from f (from + 1)
  end.
(** The cube root of [n], rounded down, one bit at a time. *)
Fixpoint cube_root (bits : nat) (acc n : N) : N :=
  match bits with
  | O => acc
  | S b => let t := acc + 2 ^ N.of_nat b in
           cube_root b (if t * t * t <=? n then t else acc) n
  end.

Definition round_constants : list N := Eval vm_compute in
  (fun p => cube_root 36 0 (p * 2 ^ 96) mod 2 ^ 32) <$> take 64 (primes_from 320 2).
Definition initial_hash : list N := Eval vm_compute in
  (fun p => N.sqrt (p * 2 ^ 64) mod 2 ^ 32) <$> take 8 (primes_from 320 2).

Fixpoint bytes_of (s : string) : list N :=
  match s with
  | EmptyString => []
  | String c s' => N_of_ascii c :: bytes_of s'
  end.

Fixpoint big_endian (width : nat) (n : N) : list N :=
  match width with
  | O => []
  | S w => (n / 256 ^ N.of_nat w) mod 256 :: big_endian w n
  end.

(** The message, a 1 bit, zeros up to 56 bytes modulo 64, the length in bits. *)
Definition padded (msg : list N) : list N :=
  let len := length msg in
  msg ++ [128] ++ replicate ((119 - len mod 64) mod 64)%nat 0
    ++ big_endian 8 (8 * N.of_nat len).

Fixpoint words (l : list N) : list N :=
  match l with
  | a :: b :: c :: d :: l' =>
      (a * 16777216 + b * 65536 + c * 256 + d) :: words l'
  | _ => []
  end.

(** The schedule, kept newest first, so that the last sixteen words are the
    first sixteen of the list. *)
Fixpoint extend_schedule (n : nat) (w : list N) : list N :=
  match n with
  | O => w
  | S n' =>
      let at_ k := nth k w 0 in
      extend_schedule n'
        (word_add (word_add (small_sigma1 (at_ 1%nat)) (at_ 6%nat))
           (word_add (small_sigma0 (at_ 14%nat)) (at_ 15%nat)) :: w)
  end.
Definition schedule (block : list N) : list N :=
  reverse (extend_schedule 48 (reverse block)).

Definition compress_round (h : list N) (kw : N * N) : list N :=
  match h with
  | [a; b; c; d; e; f; g; x] =>
      let t1 := word_add (word_add x (big_sigma1 e))
                  (word_add (choose e f g) (word_add kw.1 kw.2)) in
      let t2 := word_add (big_sigma0 a) (majority a b c) in
      [word_add t1 t2; a; b; c; word_add d t1; e; f; g]
  | _ => h
  end.

Definition compress (h block : list N) : list N :=
  zip_with word_add h
    (fold_left compress_round (zip round_constants (schedule block)) h).

Fixpoint process (blocks : nat) (h w : list N) : list N :=
  match blocks with
  | O => h
  | S b => process b (compress h (take 16 w)) (drop 16 w)
  end.

Definition sha256_words (msg : list N) : list N :=
  let w := words (padded msg) in
  process (length w / 16)%nat initial_hash w.

Definition sha256_bytes (msg : list N) : list N :=
  List.flat_map (big_endian 4) (sha256_words msg).

Definition hexdigest (bytes : list N) : string :=
  String.concat "" (hex 2 <$> bytes).

(** [hashlib.sha256(s.encode()).hexdigest()] *)
Definition sha256_hex (s : string) : string := hexdigest (sha256_bytes (bytes_of s)).

(** [hmac.new(key, msg, hashlib.sha256).hexdigest()] *)
Definition hmac_key (key : list N) : list N :=
  let k := if (64 <? length key)%nat then sha256_bytes key else key in
  k ++ replicate (64 - length k) 0.
Definition hmac_hex (key : list N) (msg : string) : string :=
  let k := hmac_key key in
  hexdigest (sha256_bytes ((N.lxor 92 <$> k)
                             ++ sha256_bytes ((N.lxor 54 <$> k) ++ bytes_of msg))).

(** ** Known answers *)

Example sha256_abc :
  sha256_hex "abc" = "ba7816bf8f01cfea414140de5dae2223b00361a396177a9cb410ff61f20015ad"%string.
Proof. vm_compute. reflexivity. Qed.

Example sha256_empty :
  sha256_hex "" = "e3b0c44298fc1c149afbf4c8996fb92427ae41e4649b934ca495991b7852b855"%string.
Proof. vm_compute. reflexivity. Qed.

Example hmac_quick_fox :
  hmac_hex (bytes_of "key") "The quick brown fox jumps over the lazy dog"
  = "f7bc83f430538424b13298e6aa6fb143ef4d59a14946175997479dbc2d1a3cd8"%string.
Proof. vm_compute. reflexivity. Qed.

(** ** The format of a digest: 64 lowercase hexadecimal digits *)

Definition hex_text (n : nat) (s : string) : Prop :=
  String.length s = n /\ str_forall is_lower_hex s = true.

Lemma hex_text_app n m a b : hex_text n a -> hex_text m b -> hex_text (n + m) (a +:+ b).
Proof.
  intros [<- Ha] [<- Hb]. split; [apply string_length_app|].
  by rewrite str_forall_app, Ha, Hb.
Qed.

Lemma hex_digit_text n : n < 16 -> hex_text 1 (hex_digit n).
Proof.
  intros Hn. assert (Hall : forallb (fun k => str_forall is_lower_hex (hex_digit (N.of_nat k))
    && (String.length (hex_digit (N.of_nat k)) =? 1)%nat) (List.seq 0 16) = true) by reflexivity.
  rewrite forallb_forall in Hall. specialize (Hall (N.to_nat n)).
  rewrite N2Nat.id in Hall. apply andb_true_iff in Hall as [? ?%Nat.eqb_eq]; [done|].
  apply in_seq. lia.
Qed.

Lemma hex_format w n : hex_text w (hex w n).
Proof.
  revert n. induction w as [|w IH]; intros n; cbn; [done|].
  replace (S w) with (w + 1)%nat by lia. apply hex_text_app; [done|].
  apply hex_digit_text, N.mod_lt. lia.
Qed.

Lemma hexdigest_format bytes : hex_text (2 * length bytes) (hexdigest bytes).
Proof.
  unfold hexdigest. induction bytes as [|b [|b' bytes] IH]; [done|apply (hex_format 2)|].
  replace (2 * length (b :: b' :: bytes))%nat with (2 + 2 * length (b' :: bytes))%nat by (cbn; lia).
  exact (hex_text_app _ _ _ _ (hex_format 2 b) IH).
Qed.

Lemma compress_length h block : length h = 8%nat -> length (compress h block) = 8%nat.
Proof.
  intros Hh. unfold compress. rewrite length_zip_with, Hh.
  enough (length (fold_left compress_round (zip round_constants (schedule block)) h) = 8%nat) by lia.
  generalize (zip round_constants (schedule block)). intros l. revert h Hh.
  induction l as [|kw l IH]; intros h Hh; cbn; [done|]. apply IH.
  by do 9 (destruct h as [|? h]; try done).
Qed.

Lemma process_length n h w : length h = 8%nat -> length (process n h w) = 8%nat.
Proof. revert h w. induction n; intros h w Hh; cbn; auto using compress_length. Qed.

Lemma big_endian_length k n : length (big_endian k n) = k.
Proof. induction k; cbn; auto. Qed.

Lemma sha256_bytes_length msg : length (sha256_bytes msg) = 32%nat.
Proof.
  unfold sha256_bytes, sha256_words. set (h := process _ _ _).
  assert (Hh : length h = 8%nat) by by apply process_length.
  clearbody h. do 9 (destruct h as [|? h]; try done).
Qed.

Lemma digest_format msg : hex_text 64 (hexdigest (sha256_bytes msg)).
Proof. replace 64%nat with (2 * length (sha256_bytes msg))%nat; [apply hexdigest_format|]. by rewrite sha256_bytes_length. Qed.

Lemma sha256_hex_format s : hex_text 64 (sha256_hex s).
Proof. apply digest_format. Qed.

Lemma hmac_hex_format key s : hex_text 64 (hmac_hex key s).
Proof. apply digest_format. Qed.

#[global] Opaque sha256_hex hmac_hex.
