(* ===== verification/Txn.v ===== *)
(** * Database sessions: transactions, exceptions, clocks and UUIDs

    The handlers run against one [AsyncSession] ([app/db/session.py]): they
    read and write the transaction's view of the tables, [commit] it, and may
    raise.  A session holds the last committed tables and the working view.
    An exception leaves both as they are, as in Python, so that an [except]
    clause goes on in the same transaction; closing the session drops what was
    not committed.  Every transaction runs alone, which is what its row locks
    ([FOR UPDATE]) and advisory locks give it on the rows it touches.

    [now()] is the transaction's start time in microseconds, the head of the
    session's clock, which moves on when a transaction ends.  [uuid4()] draws
    from the session's supply. *)

From S2P Require Import Prelude PyText.

(** ** Exceptions *)

Inductive exn :=
  | ValueError (msg : string)
  | LookupError (msg : string)
  | PermissionError (msg : string)
  | OverflowError (msg : string)
  | RuntimeError (msg : string)
  | TypeError (msg : string)
  | IntegrityError (constraint : string)
  | HTTPException (status : Z) (detail : string)
  | AIProviderError (code : string) (retryable : bool) (http_status : option Z)
      (provider_error_code request_id : option string)
  | AttributeError (msg : string)
  | PostizError (code : string) (retryable : bool) (status : option Z) (unknown_result : bool)
  | SocialError (code message : string) (retryable : bool) (status_code : Z) (unknown_result : bool)
  (** an exception of [httpx] that no handler maps *)
  | TransportError (name : string).

#[export] Instance exn_eq_dec : EqDecision exn.
Proof. solve_decision. Defined.

(** Pure code that may raise: the error monad [sum exn]. *)
#[export] Instance exn_ret : MRet (sum exn) := fun _ a => inr a.
#[export] Instance exn_bind : MBind (sum exn) := fun _ _ k m =>
  match m with inl e => inl e | inr a => k a end.

(** [if not b: raise e] *)
Definition check (b : bool) (e : exn) : exn + unit := if b then inr tt else inl e.

Lemma check_ok b e : check b e = inr tt <-> b = true.
Proof. by destruct b. Qed.

Lemma exn_bind_ok {A B} (m : exn + A) (k : A -> exn + B) b :
  (m ≫= k) = inr b <-> exists a, m = inr a /\ k a = inr b.
Proof. destruct m; cbn; naive_solver. Qed.

Lemma check_bind_ok {B} b e (k : exn + B) r : (check b e ;; k) = inr r <-> b = true /\ k = inr r.
Proof. destruct b; cbn; naive_solver. Qed.

(** ** Sessions and programs *)

Record session (D : Type) := Session {
  committed : D;
  working : D;
  clock : nat -> Z;
  supply : nat -> uuid;
}.
Arguments Session {D} _ _ _ _.
Arguments committed {D} _.
Arguments working {D} _.
Arguments clock {D} _.
Arguments supply {D} _.

Definition M (D A : Type) : Type := session D -> session D * (exn + A).

Section programs.
Context {D : Type}.

#[global] Instance M_ret : MRet (M D) := fun _ a s => (s, inr a).
#[global] Instance M_bind : MBind (M D) := fun _ _ k m s =>
  match m s with
  | (s', inr a) => k a s'
  | (s', inl e) => (s', inl e)
  end.

Definition raise {A} (e : exn) : M D A := fun s => (s, inl e).

Definition query {A} (f : D -> A) : M D A := fun s => (s, inr (f (working s))).

Definition execute (f : D -> D) : M D unit := fun s =>
  (Session (committed s) (f (working s)) (clock s) (supply s), inr tt).

(** An [INSERT] that a key or check constraint may refuse. *)
Definition insert_or (constraint : string) (f : D -> option D) : M D unit := fun s =>
  match f (working s) with
  | Some d => (Session (committed s) d (clock s) (supply s), inr tt)
  | None => (s, inl (IntegrityError constraint))
  end.

Definition commit : M D unit := fun s =>
  (Session (working s) (working s) (fun n => clock s (S n)) (supply s), inr tt).

Definition rollback : M D unit := fun s =>
  (Session (committed s) (committed s) (fun n => clock s (S n)) (supply s), inr tt).

Definition now : M D Z := fun s => (s, inr (clock s O)).

Definition uuid4 : M D uuid := fun s =>
  (Session (committed s) (working s) (clock s) (fun n => supply s (S n)), inr (supply s O)).

(** [try: m except ...: h]; a handler that does not catch raises again. *)
Definition try_except {A} (m : M D A) (h : exn -> M D A) : M D A := fun s =>
  match m s with
  | (s', inl e) => h e s'
  | r => r
  end.

(** Checks: [if not b: raise e], and [row = ...; if row is None: raise e]. *)
Definition guard_or (b : bool) (e : exn) : M D unit :=
  if b then mret tt else raise e.
Definition some_or {A} (o : option A) (e : exn) : M D A :=
  match o with Some a => mret a | None => raise e end.

(** One request: open a session on the tables, run, close it. *)
Definition with_session {A} (clk : nat -> Z) (ids : nat -> uuid) (m : M D A) (d : D) :
    D * (exn + A) :=
  let r := m (Session d d clk ids) in (committed r.1, r.2).
End programs.

(** [for x in l: body(x)] *)
Fixpoint for_each {D X : Type} (l : list X) (body : X -> M D unit) : M D unit :=
  match l with
  | [] => mret tt
  | x :: l' => body x ;; for_each l' body
  end.

(** A program on one part of the tables. *)
Definition zoom {D E A : Type} (get : D -> E) (put : E -> D -> D) (m : M E A) : M D A := fun s =>
  let r := m (Session (get (committed s)) (get (working s)) (clock s) (supply s)) in
  (Session (put (committed r.1) (committed s)) (put (working r.1) (working s))
     (clock r.1) (supply r.1), r.2).

(** ** Reasoning: weakest preconditions

    [wp m Q s]: running [m] from [s] ends in a session and an outcome that
    satisfy [Q]. *)

Definition wp {D A} (m : M D A) (Q : session D -> exn + A -> Prop) (s : session D) : Prop :=
  Q (m s).1 (m s).2.

Section wp_rules.
Context {D : Type}.
Implicit Types s : session D.

Lemma wp_ret {A} (a : A) (Q : session D -> exn + A -> Prop) s : Q s (inr a) -> wp (mret a) Q s.
Proof. done. Qed.

Lemma wp_bind {A B} (m : M D A) (k : A -> M D B) (Q : session D -> exn + B -> Prop) s :
  wp m (fun s' r => match r with inr a => wp (k a) Q s' | inl e => Q s' (inl e) end) s ->
  wp (m ≫= k) Q s.
Proof. unfold wp, mbind, M_bind. destruct (m s) as [s' [e|a]]; done. Qed.

Lemma wp_raise {A} e (Q : session D -> exn + A -> Prop) s : Q s (inl e) -> wp (raise e) Q s.
Proof. done. Qed.

Lemma wp_try {A} (m : M D A) h (Q : session D -> exn + A -> Prop) s :
  wp m (fun s' r => match r with inl e => wp (h e) Q s' | inr a => Q s' (inr a) end) s ->
  wp (try_except m h) Q s.
Proof. unfold wp, try_except. destruct (m s) as [s' [e|a]]; done. Qed.

Lemma wp_query {A} (f : D -> A) (Q : session D -> exn + A -> Prop) s :
  Q s (inr (f (working s))) -> wp (query f) Q s.
Proof. done. Qed.

Lemma wp_execute (f : D -> D) (Q : session D -> exn + unit -> Prop) s :
  Q (Session (committed s) (f (working s)) (clock s) (supply s)) (inr tt) ->
  wp (execute f) Q s.
Proof. done. Qed.

Lemma wp_insert_or c (f : D -> option D) (Q : session D -> exn + unit -> Prop) s :
  (forall d, f (working s) = Some d ->
     Q (Session (committed s) d (clock s) (supply s)) (inr tt)) ->
  (f (working s) = None -> Q s (inl (IntegrityError c))) ->
  wp (insert_or c f) Q s.
Proof. unfold wp, insert_or. destruct (f (working s)); eauto. Qed.

Lemma wp_commit (Q : session D -> exn + unit -> Prop) s :
  Q (Session (working s) (working s) (fun n => clock s (S n)) (supply s)) (inr tt) ->
  wp commit Q s.
Proof. done. Qed.

Lemma wp_rollback (Q : session D -> exn + unit -> Prop) s :
  Q (Session (committed s) (committed s) (fun n => clock s (S n)) (supply s)) (inr tt) ->
  wp rollback Q s.
Proof. done. Qed.

Lemma wp_now (Q : session D -> exn + Z -> Prop) s : Q s (inr (clock s O)) -> wp now Q s.
Proof. done. Qed.

Lemma wp_uuid4 (Q : session D -> exn + uuid -> Prop) s :
  Q (Session (committed s) (working s) (clock s) (fun n => supply s (S n)))
    (inr (supply s O)) -> wp uuid4 Q s.
Proof. done. Qed.

Lemma wp_guard_or b e (Q : session D -> exn + unit -> Prop) s :
  (b = true -> Q s (inr tt)) -> (b = false -> Q s (inl e)) -> wp (guard_or b e) Q s.
Proof. destruct b; intros H1 H2; [by apply H1|by apply H2]. Qed.

Lemma wp_some_or {A} (o : option A) e (Q : session D -> exn + A -> Prop) s :
  (forall a, o = Some a -> Q s (inr a)) -> (o = None -> Q s (inl e)) -> wp (some_or o e) Q s.
Proof. destruct o; intros H1 H2; [by apply H1|by apply H2]. Qed.

Lemma wp_mono {A} (m : M D A) (Q R : session D -> exn + A -> Prop) s :
  (forall s' r, Q s' r -> R s' r) -> wp m Q s -> wp m R s.
Proof. unfold wp. auto. Qed.

(** A loop: [I] speaks of the elements done so far. *)
Lemma wp_for_each {X} (I : list X -> session D -> Prop) (l : list X) body
    (Q : session D -> exn + unit -> Prop) s :
  (forall pre x post s', l = app pre (x :: post) -> I pre s' ->
     wp (body x) (fun s'' r => match r with
                               | inr _ => I (app pre [x]) s''
                               | inl e => Q s'' (inl e)
                               end) s') ->
  I [] s -> (forall s', I l s' -> Q s' (inr tt)) -> wp (for_each l body) Q s.
Proof.
  intros Hb. enough (H : forall pre post s', l = app pre post -> I pre s' ->
    (forall s', I l s' -> Q s' (inr tt)) -> wp (for_each post body) Q s') by by apply (H []).
  intros pre post. revert pre. induction post as [|x post IH]; intros pre s' -> Hpre Hl; cbn.
  - apply wp_ret, Hl. by rewrite app_nil_r.
  - apply wp_bind. eapply wp_mono; [|by eapply Hb]. intros s'' [e|[]]; [done|].
    intros Hx. eapply IH; [|exact Hx|done]. by rewrite <- app_assoc.
Qed.
End wp_rules.

(** One step of symbolic execution: a primitive, or a test of the program,
    which splits the goal and records what was tested. *)
Ltac wp_simpl := cbn [committed working clock supply]; cbv beta.
Ltac wp_step :=
  lazymatch goal with
  | |- wp (mbind _ _) _ _ => apply wp_bind
  | |- wp (mret _) _ _ => apply wp_ret; wp_simpl
  | |- wp (raise _) _ _ => apply wp_raise; wp_simpl
  | |- wp (query _) _ _ => apply wp_query; wp_simpl
  | |- wp (execute _) _ _ => apply wp_execute; wp_simpl
  | |- wp commit _ _ => apply wp_commit; wp_simpl
  | |- wp rollback _ _ => apply wp_rollback; wp_simpl
  | |- wp now _ _ => apply wp_now; wp_simpl
  | |- wp uuid4 _ _ => apply wp_uuid4; wp_simpl
  | |- wp (insert_or _ _) _ _ => apply wp_insert_or; wp_simpl; [intros ? ?|intros ?]
  | |- wp (guard_or _ _) _ _ => apply wp_guard_or; wp_simpl; intros ?
  | |- wp (some_or _ _) _ _ => apply wp_some_or; wp_simpl; [intros ? ?|intros ?]
  | |- wp (try_except _ _) _ _ => apply wp_try
  | |- wp (match ?x with _ => _ end) _ _ => destruct x eqn:?
  | |- wp (let _ := _ in _) _ _ => cbv zeta
  end.
Ltac wp_run := repeat wp_step.

(** ** Invariants of a program

    [keeps I m]: whatever [m] does and however it ends, a property [I] that
    both views of the session satisfy holds of both at the end. *)
Section keeps.
Context {D : Type} (I : D -> Prop).

Definition both (s : session D) : Prop := I (committed s) /\ I (working s).
Definition keeps {A} (m : M D A) : Prop := forall s, both s -> both (m s).1.

Lemma keeps_ret {A} (a : A) : keeps (mret a).
Proof. by intros s. Qed.
Lemma keeps_raise {A} e : keeps (A:=A) (raise e).
Proof. by intros s. Qed.
Lemma keeps_query {A} (f : D -> A) : keeps (query f).
Proof. by intros s. Qed.
Lemma keeps_now : keeps now.
Proof. by intros s. Qed.
Lemma keeps_uuid4 : keeps uuid4.
Proof. by intros s. Qed.
Lemma keeps_commit : keeps commit.
Proof. by intros s []. Qed.
Lemma keeps_rollback : keeps rollback.
Proof. by intros s []. Qed.
Lemma keeps_execute (f : D -> D) : (forall d, I d -> I (f d)) -> keeps (execute f).
Proof. intros Hf s [? ?]. split; cbn; auto. Qed.
Lemma keeps_insert_or c (f : D -> option D) :
  (forall d d', I d -> f d = Some d' -> I d') -> keeps (insert_or c f).
Proof.
  intros Hf s [? ?]. unfold insert_or. destruct (f (working s)) eqn:E; split; cbn; eauto.
Qed.
Lemma keeps_bind {A B} (m : M D A) (k : A -> M D B) :
  keeps m -> (forall a, keeps (k a)) -> keeps (m ≫= k).
Proof.
  intros Hm Hk s Hs. unfold mbind, M_bind. specialize (Hm s Hs).
  destruct (m s) as [s' [e|a]]; [done|]. by apply Hk.
Qed.
Lemma keeps_try {A} (m : M D A) h :
  keeps m -> (forall e, keeps (h e)) -> keeps (try_except m h).
Proof.
  intros Hm Hh s Hs. unfold try_except. specialize (Hm s Hs).
  destruct (m s) as [s' [e|a]]; [|done]. by apply Hh.
Qed.
Lemma keeps_guard_or b e : keeps (guard_or b e).
Proof. by destruct b; intros s. Qed.
Lemma keeps_some_or {A} (o : option A) e : keeps (some_or o e).
Proof. by destruct o; intros s. Qed.
Lemma keeps_for_each {X} (l : list X) body :
  (forall x, keeps (body x)) -> keeps (for_each l body).
Proof.
  intros Hb. induction l; cbn; [apply keeps_ret|]. apply keeps_bind; [apply Hb|]. by intros _.
Qed.

Lemma keeps_with_session {A} clk ids (m : M D A) d :
  keeps m -> I d -> I (with_session clk ids m d).1.
Proof. intros Hm Hd. apply Hm. by split. Qed.
End keeps.

#[export] Hint Resolve keeps_ret keeps_raise keeps_query keeps_now keeps_uuid4 keeps_commit
  keeps_rollback keeps_guard_or keeps_some_or : mw.

(** Walks through a program, leaving the [execute] and [insert_or] statements
    whose effect on the invariant has to be argued. *)
Ltac keeps_step :=
  match goal with
  | |- keeps _ (mbind _ _) => apply keeps_bind; [|intros ?]
  | |- keeps _ (try_except _ _) => apply keeps_try; [|intros ?]
  | |- keeps _ (for_each _ _) => apply keeps_for_each; intros ?
  | |- keeps _ (execute _) => apply keeps_execute
  | |- keeps _ (insert_or _ _) => apply keeps_insert_or
  | |- keeps _ (match ?x with _ => _ end) => destruct x eqn:?
  | |- keeps _ _ => solve [auto with mw]
  | |- keeps _ ((fun _ => _) _) => cbv beta
  | |- keeps _ (let _ := _ in _) => cbv zeta
  end.
Ltac keeps_walk := repeat keeps_step.

(** ** Programs that keep a property of the stored tables

    [preserves I m]: started in a fresh transaction on tables that satisfy
    [I], the program leaves committed tables that satisfy [I], and a normal
    return leaves no uncommitted change.  Unlike [keeps] it says nothing of
    the working view, which may pass through states that break [I]. *)
Definition clean {D} (s : session D) : Prop := working s = committed s.

Section preserves.
Context {D : Type} (I : D -> Prop).

Definition preserves {A} (m : M D A) : Prop :=
  forall s, clean s -> I (committed s) ->
  wp m (fun s' r => I (committed s') /\ (forall a, r = inr a -> clean s')) s.

Lemma preserves_ret {A} (a : A) : preserves (mret a).
Proof. intros s Hc HI. split; [done|]. by intros ? _. Qed.
Lemma preserves_raise {A} e : preserves (A:=A) (raise e).
Proof. intros s Hc HI. done. Qed.
Lemma preserves_query {A} (f : D -> A) : preserves (query f).
Proof. intros s Hc HI. split; [done|]. by intros ? _. Qed.
Lemma preserves_now : preserves now.
Proof. intros s Hc HI. split; [done|]. by intros ? _. Qed.
Lemma preserves_guard_or b e : preserves (guard_or b e).
Proof. destruct b; [apply preserves_ret|apply preserves_raise]. Qed.
Lemma preserves_some_or {A} (o : option A) e : preserves (some_or o e).
Proof. destruct o; [apply preserves_ret|apply preserves_raise]. Qed.
Lemma preserves_bind {A B} (m : M D A) (k : A -> M D B) :
  preserves m -> (forall a, preserves (k a)) -> preserves (m ≫= k).
Proof.
  intros Hm Hk s Hc HI. apply wp_bind. eapply wp_mono; [|by apply Hm].
  intros s' [e|a] [HI' Hcl]; [done|]. apply Hk; [by eapply Hcl|done].
Qed.
(** The rest of a run, after a part that keeps [I]. *)
Lemma wp_bind_preserves {A B} (m : M D A) (k : A -> M D B) Q s :
  preserves m -> clean s -> I (committed s) -> (forall e s', Q s' (inl e)) ->
  (forall a s', clean s' -> I (committed s') -> wp (k a) Q s') -> wp (m ≫= k) Q s.
Proof.
  intros Hm Hc HI Herr Hk. apply wp_bind. eapply wp_mono; [|by apply Hm].
  intros s' [e|a] [HI' Hcl]; [apply Herr|]. apply Hk; [by eapply Hcl|done].
Qed.
(** An [except] clause that maps an exception to another one. *)
Lemma preserves_try_raise {A} (m : M D A) h :
  preserves m -> (forall e, exists e', h e = raise e') -> preserves (try_except m h).
Proof.
  intros Hm Hh s Hc HI. apply wp_try. eapply wp_mono; [|by apply Hm].
  intros s' [e|a] [HI' Hcl]; [|done]. destruct (Hh e) as [e' ->]. by apply wp_raise.
Qed.
End preserves.
#[export] Hint Resolve preserves_ret preserves_raise preserves_query preserves_now
  preserves_guard_or preserves_some_or : mw.

(** Walks through the control flow of a handler. *)
Ltac preserves_step :=
  match goal with
  | |- preserves _ (mbind _ _) => apply preserves_bind; [|intros ?]
  | |- preserves _ (try_except _ _) =>
      apply preserves_try_raise; [|intros []; repeat case_match; eexists; reflexivity]
  | |- preserves _ (match ?x with _ => _ end) => destruct x eqn:?
  | |- preserves _ ((fun _ => _) _) => cbv beta
  | |- preserves _ (let _ := _ in _) => cbv zeta
  | |- preserves _ _ => solve [auto with mw]
  end.
Ltac preserves_walk := repeat preserves_step.
