(* ===== verification/PyTime.v ===== *)
(** * Instants, datetimes and times of day

    A [datetime] is its wall-clock reading in microseconds since the epoch
    with its UTC offset, [None] for a naive one; an aware [datetime] denotes
    the instant [wall - offset].  A [time] is the microsecond of the day, a
    [timedelta] a number of microseconds. *)

From S2P Require Import Prelude.

Definition seconds (n : Z) : Z := n * 1000000.
Definition minutes (n : Z) : Z := seconds (60 * n).
Definition hours (n : Z) : Z := minutes (60 * n).
Definition day : Z := hours 24.

Record datetime := Datetime { wall : Z; utcoffset : option Z }.

#[export] Instance datetime_eq_dec : EqDecision datetime.
Proof. solve_decision. Defined.

Definition aware (t : datetime) : bool := negb (is_null (utcoffset t)).

(** The instant of an aware datetime; a naive one is read as UTC. *)
Definition instant (t : datetime) : Z := wall t - coalesce (utcoffset t) 0.

Definition utc (i : Z) : datetime := Datetime i (Some 0).

(** [t.astimezone(timezone.utc)] *)
Definition astimezone_utc (t : datetime) : datetime := utc (instant t).

(** [t + timedelta(...)]: the wall clock moves, the offset stays. *)
Definition add_delta (t : datetime) (delta : Z) : datetime :=
  Datetime (wall t + delta) (utcoffset t).

(** What [ZoneInfo(key)] does: the offsets of the zone, [ZoneInfoNotFoundError],
    or the [ValueError] of a malformed key.  The zone database is a parameter of
    the definitions that use it. *)
Inductive zone := zone_found (offset_at : Z -> Z) | zone_not_found | zone_bad_key.

(** [t.astimezone(zone)] of an aware datetime. *)
Definition in_zone (offset_at : Z -> Z) (t : datetime) : datetime :=
  Datetime (instant t + offset_at (instant t)) (Some (offset_at (instant t))).

Lemma instant_in_zone offset_at t : instant (in_zone offset_at t) = instant t.
Proof. unfold in_zone, instant. cbn. lia. Qed.

(** The time of day of the wall clock, [t.timetz().replace(tzinfo=None)]. *)
Definition time_of_day (t : datetime) : Z := wall t mod day.

Lemma instant_utc i : instant (utc i) = i.
Proof. unfold instant, utc. cbn. lia. Qed.

Lemma instant_astimezone_utc t : instant (astimezone_utc t) = instant t.
Proof. apply instant_utc. Qed.

Lemma instant_add_delta t delta : instant (add_delta t delta) = instant t + delta.
Proof. unfold instant, add_delta. cbn. lia. Qed.

Lemma time_of_day_range t : 0 <= time_of_day t < day.
Proof. apply Z.mod_pos_bound. reflexivity. Qed.

#[export] Hint Rewrite instant_utc instant_astimezone_utc instant_add_delta : mw.

(** ** Daily windows

    The cyclic interval [[start, end)] of the day: the reference for the two
    window tests of the service, which both compare times of day directly. *)
Definition in_cycle (current start end_ : Z) : bool :=
  (current - start) mod day <? (end_ - start) mod day.

Definition is_time (t : Z) : Prop := 0 <= t < day.

Lemma in_cycle_direct current start end_ :
  is_time current -> is_time start -> is_time end_ -> start <> end_ ->
  in_cycle current start end_
  = if start <? end_ then (start <=? current) && (current <? end_)
    else (start <=? current) || (current <? end_).
Proof.
  unfold in_cycle, is_time. intros Hc Hs He Hne.
  assert (Hd : 0 < day) by reflexivity.
  assert (Hm : forall a b, 0 <= a < day -> 0 <= b < day ->
    (a - b) mod day = if b <=? a then a - b else a - b + day).
  { intros a b Ha Hb. destruct (Z.leb_spec b a).
    - apply Z.mod_small. lia.
    - rewrite <- (Z.mod_add _ 1) by lia. apply Z.mod_small. lia. }
  rewrite !Hm by done.
  destruct (Z.ltb_spec start end_), (Z.leb_spec start current), (Z.leb_spec start end_),
    (Z.ltb_spec current end_); try lia; cbn; try (apply Z.ltb_lt; lia); apply Z.ltb_ge; lia.
Qed.
