(* ===== verification/AiContracts.v ===== *)
(** * Versioned AI contracts ([src/app/core/ai_contracts.py])

    The command and result models with their field constraints and
    validators, and the job states with their public names.  [model_dump_json],
    the serialiser of the validation library, is a parameter: the validators
    only use the length of what it returns. *)

From Stdlib Require Import Ascii QArith.
From S2P Require Import Prelude PyText PyTime Txn.
Local Open Scope string_scope.
Local Open Scope Z_scope.

(** ** Job states *)

(** The values of [ai_generation_jobs.state] (its check constraint admits no
    other) and, below, their text and the name the API publishes. *)
Inductive job_state :=
  | queued | available | leased | running | retry_wait | completed | failed
  | cancel_requested | cancelled | expired | dead_letter
  | approval_required | approved | rejected.

#[export] Instance job_state_eq_dec : EqDecision job_state.
Proof. solve_decision. Defined.

Definition state_text (s : job_state) : string :=
  match s with
  | queued => "queued" | available => "available" | leased => "leased"
  | running => "running" | retry_wait => "retry_wait" | completed => "completed"
  | failed => "failed" | cancel_requested => "cancel_requested"
  | cancelled => "cancelled" | expired => "expired" | dead_letter => "dead_letter"
  | approval_required => "approval_required" | approved => "approved"
  | rejected => "rejected"
  end.

Definition PUBLIC_STATES (s : job_state) : string :=
  match s with
  | queued => "PENDING" | available => "AVAILABLE" | leased => "LEASED"
  | running => "RUNNING" | retry_wait => "FAILED_RETRYABLE"
  | completed => "SUCCEEDED" | failed => "FAILED_FINAL"
  | cancel_requested => "CANCEL_REQUESTED" | cancelled => "CANCELLED"
  | expired => "EXPIRED" | dead_letter => "DEAD_LETTERED"
  | approval_required => "APPROVAL_REQUIRED" | approved => "APPROVED"
  | rejected => "REJECTED"
  end.

(** [state IN (...)] *)
Definition state_in (l : list job_state) (s : job_state) : bool := bool_decide (s ∈ l).

(** ** Commands *)

Inductive CommandType := CHAT | CODING | CRM | VOICE | EMBEDDINGS.

#[export] Instance CommandType_eq_dec : EqDecision CommandType.
Proof. solve_decision. Defined.

Definition command_type_value (t : CommandType) : string :=
  match t with
  | CHAT => "ai.chat.v1" | CODING => "ai.coding.v1" | CRM => "ai.crm.v1"
  | VOICE => "ai.voice.v1" | EMBEDDINGS => "ai.embeddings.v1"
  end.

Record ModelPolicy := mkModelPolicy {
  profile : string;
  temperature : Q;
  max_tokens : Z;
}.

Record ResourceLimits := mkResourceLimits {
  runtime_seconds : Z;
  output_bytes_limit : Z;
  retry_count : Z;
  token_budget : Z;
}.

Record ApprovalPolicy := mkApprovalPolicy {
  approval_is_required : bool;
  action_types : list string;
}.

Inductive CallbackPolicy := callback_poll | callback_none.

Record AICommand := mkAICommand {
  command_id : uuid;
  command_type : CommandType;
  schema_version : string;
  tenant_id : uuid;
  actor_id : string;
  actor_type : string;
  correlation_id : string;
  idempotency_key : string;
  priority : Z;
  requested_at : datetime;
  deadline_at : datetime;
  input : list (string * json);
  model_policy : ModelPolicy;
  resource_limits : ResourceLimits;
  data_classification : string;
  approval_policy : ApprovalPolicy;
  callback_policy : CallbackPolicy;
  metadata : list (string * string);
}.
#[export] Instance AICommand_eta : Eta AICommand := fun c =>
  mkAICommand (command_id c) (command_type c) (schema_version c) (tenant_id c) (actor_id c)
    (actor_type c) (correlation_id c) (idempotency_key c) (priority c) (requested_at c)
    (deadline_at c) (input c) (model_policy c) (resource_limits c) (data_classification c)
    (approval_policy c) (callback_policy c) (metadata c).

(** ** Field constraints *)

Definition between (lo x hi : Z) : bool := ((lo <=? x) && (x <=? hi))%bool.
Definition len_between (lo : Z) (s : string) (hi : Z) : bool := between lo (py_len s) hi.

Definition model_profiles : list string :=
  ["fast-chat"; "quality-chat"; "coding-default"; "coding-large";
   "crm-analysis"; "voice-summary"; "embedding-default"].

Definition model_policy_ok (p : ModelPolicy) : bool :=
  str_in (profile p) model_profiles
  && Qle_bool 0 (temperature p) && Qle_bool (temperature p) 1
  && between 1 (max_tokens p) 8192.

Definition resource_limits_ok (r : ResourceLimits) : bool :=
  between 1 (runtime_seconds r) 600
  && between 1 (output_bytes_limit r) 1048576
  && between 0 (retry_count r) 5
  && between 1 (token_budget r) 32768.

Definition approval_policy_ok (p : ApprovalPolicy) : bool :=
  (length (action_types p) <=? 16)%nat.

(** [^[A-Za-z0-9._:-]{8,128}$] *)
Definition correlation_char (c : ascii) : bool := (is_alnum c || char_in c "._:-")%bool.

Definition command_fields_ok (c : AICommand) : bool :=
  str_in (schema_version c) ["1.0"]
  && len_between 1 (actor_id c) 128
  && str_in (actor_type c) ["user"; "service"; "workflow"]
  && fullmatch_class correlation_char 8 128 (correlation_id c)
  && len_between 16 (idempotency_key c) 255
  && between 0 (priority c) 9
  && model_policy_ok (model_policy c)
  && resource_limits_ok (resource_limits c)
  && str_in (data_classification c) ["public"; "internal"; "confidential"; "synthetic"]
  && approval_policy_ok (approval_policy c).

(** ** Validators *)

Definition timezone_required (value : datetime) : exn + datetime :=
  if aware value then inr (astimezone_utc value) else inl (ValueError "timezone is required").

Definition allowed_profiles (t : CommandType) : list string :=
  match t with
  | CHAT => ["fast-chat"; "quality-chat"]
  | CODING => ["coding-default"; "coding-large"]
  | CRM => ["crm-analysis"]
  | VOICE => ["voice-summary"]
  | EMBEDDINGS => ["embedding-default"]
  end.

Definition forbidden_input_keys : list string :=
  ["shell"; "command"; "provider_url"; "endpoint"; "credentials"; "password"; "token"].

Definition is_business (t : CommandType) : bool := bool_decide (t ∈ [CRM; VOICE]).

Section command_validation.
Context (model_dump_json : AICommand -> string).

Definition policy_consistency (self : AICommand) : exn + AICommand :=
  let requested := instant (requested_at self) in
  let deadline := instant (deadline_at self) in
  if deadline <=? requested then inl (ValueError "deadline must follow requested_at")
  else if seconds 3600 <? deadline - requested then
    inl (ValueError "deadline exceeds one-hour policy")
  else if negb (str_in (profile (model_policy self)) (allowed_profiles (command_type self))) then
    inl (ValueError "unsupported model policy")
  else if 131072 <? byte_len (model_dump_json self) then
    inl (ValueError "command payload exceeds policy")
  else if existsb (fun kv => str_in (str_lower kv.1) forbidden_input_keys) (input self) then
    inl (ValueError "privileged input field is forbidden")
  else if (is_business (command_type self)
           && negb (approval_is_required (approval_policy self)))%bool then
    inl (ValueError "business command proposals require approval")
  else inr self.

(** Construction of an [AICommand]: the fields, then the model validator. *)
Definition validate_command (c : AICommand) : exn + AICommand :=
  match timezone_required (requested_at c), timezone_required (deadline_at c) with
  | inr requested, inr deadline =>
      if command_fields_ok c then
        policy_consistency (c <| requested_at := requested |> <| deadline_at := deadline |>)
      else inl (ValueError "validation_error")
  | inl e, _ | _, inl e => inl e
  end.
End command_validation.

(** ** Results *)

Record AIResult := mkAIResult {
  res_command_id : uuid;
  res_job_id : uuid;
  res_status : string;
  result_schema_version : string;
  model_used : string;
  provider_used : string;
  started_at : datetime;
  completed_at : datetime;
  latency_ms : Z;
  token_usage : list (string * Z);
  resource_usage : list (string * json);
  output : list (string * json);
  structured_artifacts : list json;
  warnings : list string;
  policy_decisions : list string;
  error : option (list (string * string));
  retryability : string;
  audit_reference : string;
}.

Definition result_fields_ok (r : AIResult) : bool :=
  str_in (res_status r) ["SUCCEEDED"; "FAILED_RETRYABLE"; "FAILED_FINAL"; "CANCELLED"]
  && str_in (result_schema_version r) ["1.0"]
  && len_between 1 (model_used r) 128
  && str_in (provider_used r) ["litellm"; "ollama"; "openai"; "mock"]
  && (0 <=? latency_ms r)
  && str_in (retryability r) ["none"; "retryable"; "final"]
  && len_between 8 (audit_reference r) 128.

Definition valid_timing_and_size (model_dump_json : AIResult -> string) (self : AIResult) :
    exn + AIResult :=
  if negb (Bool.eqb (aware (completed_at self)) (aware (started_at self))) then
    inl (TypeError "can't compare offset-naive and offset-aware datetimes")
  else if instant (completed_at self) <? instant (started_at self) then
    inl (ValueError "completion precedes start")
  else if 1048576 <? byte_len (model_dump_json self) then
    inl (ValueError "result exceeds policy")
  else inr self.

Definition validate_result (model_dump_json : AIResult -> string) (r : AIResult) :
    exn + AIResult :=
  if result_fields_ok r then valid_timing_and_size model_dump_json r
  else inl (ValueError "validation_error").
