(* ===== verification/AiTables.v ===== *)
(** * The AI job tables

    The rows of the AI job platform as the migrations declare them
    ([src/migrations/versions/0030_ai_job_platform.py], [0031_ai_orchestration_v1.py],
    [0032_ai_worker_queue_runtime.py]) and the database that holds them.
    A table with a natural unique key is a finite map on that key; the
    surrogate [id] columns that no statement reads are left out.  Timestamps
    are microseconds, nullable columns are options. *)

From S2P Require Import Prelude PyText PyTime AiContracts.
Local Open Scope string_scope.
Local Open Scope Z_scope.

(** ** [ai_generation_jobs] *)

Record job := mkJob {
  j_id : uuid;
  j_conversation_id : option uuid;
  j_request_message_id : option uuid;
  j_organization_id : uuid;
  j_workspace_id : uuid;
  j_requested_by : string;
  j_task_type : string;
  j_project_key : option string;
  j_state : job_state;
  j_idempotency_key : string;
  j_request_sha256 : string;
  j_attempt_count : Z;
  j_max_attempts : Z;
  j_fencing_token : Z;
  j_lease_owner : option string;
  j_lease_expires_at : option Z;
  j_next_attempt_at : Z;
  j_cancel_requested_at : option Z;
  j_completed_at : option Z;
  j_failure_code : option string;
  j_output_bytes : Z;
  j_created_at : Z;
  j_updated_at : Z;
  j_command_type : option string;
  j_schema_version : string;
  j_actor_id : option string;
  j_actor_type : option string;
  j_correlation_id : option string;
  j_priority : Z;
  j_deadline_at : option Z;
  j_command_payload : option json;
  j_model_profile : option string;
  j_resource_limits : json;
  j_data_classification : string;
  j_approval_policy : json;
  j_callback_policy : json;
  j_command_metadata : json;
  j_version : Z;
}.
#[export] Instance job_eta : Eta job := fun j =>
  mkJob (j_id j) (j_conversation_id j) (j_request_message_id j) (j_organization_id j)
    (j_workspace_id j) (j_requested_by j) (j_task_type j) (j_project_key j) (j_state j)
    (j_idempotency_key j) (j_request_sha256 j) (j_attempt_count j) (j_max_attempts j)
    (j_fencing_token j) (j_lease_owner j) (j_lease_expires_at j) (j_next_attempt_at j)
    (j_cancel_requested_at j) (j_completed_at j) (j_failure_code j) (j_output_bytes j)
    (j_created_at j) (j_updated_at j) (j_command_type j) (j_schema_version j) (j_actor_id j)
    (j_actor_type j) (j_correlation_id j) (j_priority j) (j_deadline_at j)
    (j_command_payload j) (j_model_profile j) (j_resource_limits j)
    (j_data_classification j) (j_approval_policy j) (j_callback_policy j)
    (j_command_metadata j) (j_version j).

(** ** The other tables *)

(** [ai_conversations], by id. *)
Record conversation := mkConversation {
  cv_organization_id : uuid;
  cv_workspace_id : uuid;
  cv_created_by : string;
  cv_title : string;
  cv_status : string;
}.

(** [ai_messages], by id. *)
Record message := mkMessage {
  ms_conversation_id : uuid;
  ms_organization_id : uuid;
  ms_workspace_id : uuid;
  ms_role : string;
  ms_content : string;
  ms_content_sha256 : string;
}.

(** [ai_job_chunks], unique on (job, sequence). *)
Record chunk := mkChunk {
  ck_organization_id : uuid;
  ck_workspace_id : uuid;
  ck_fencing_token : Z;
  ck_content : string;
  ck_content_sha256 : string;
}.

(** [ai_job_attempts], unique on (job, attempt number). *)
Record attempt := mkAttempt {
  at_fencing_token : Z;
  at_worker_id : string;
  at_state : job_state;
  at_safe_error_code : option string;
  at_started_at : Z;
  at_finished_at : option Z;
}.
#[export] Instance attempt_eta : Eta attempt := fun a =>
  mkAttempt (at_fencing_token a) (at_worker_id a) (at_state a) (at_safe_error_code a)
    (at_started_at a) (at_finished_at a).

(** [ai_worker_heartbeats], by worker. *)
Record worker_heartbeat := mkHeartbeat {
  hb_service_id : string;
  hb_certificate_serial : string;
  hb_spiffe_id : string;
  hb_last_seen_at : Z;
  hb_current_job_id : option uuid;
}.

(** [ai_worker_registrations], by worker. *)
Record registration := mkRegistration {
  rg_service_id : string;
  rg_capability_digest : string;
  rg_capabilities : json;
  rg_max_concurrency : Z;
  rg_enabled : bool;
  rg_updated_at : Z;
  rg_version : Z;
}.
#[export] Instance registration_eta : Eta registration := fun r =>
  mkRegistration (rg_service_id r) (rg_capability_digest r) (rg_capabilities r)
    (rg_max_concurrency r) (rg_enabled r) (rg_updated_at r) (rg_version r).

(** [ai_job_dead_letters], by job. *)
Record dead_letter_row := mkDeadLetter {
  dl_organization_id : uuid;
  dl_workspace_id : uuid;
  dl_safe_error_code : string;
  dl_attempt_count : Z;
  dl_payload_sha256 : string;
  dl_recovery_status : string;
  dl_updated_at : Z;
  dl_final_error_code : string;
  dl_max_attempts : Z;
  dl_safe_error_details : json;
  dl_failed_at : Z;
  dl_task_id : uuid;
  dl_tenant_id : uuid;
  dl_correlation_id : string;
  dl_evidence_hash : string;
  dl_manual_retry_requires_new_approval : bool;
}.
#[export] Instance dead_letter_row_eta : Eta dead_letter_row := fun d =>
  mkDeadLetter (dl_organization_id d) (dl_workspace_id d) (dl_safe_error_code d)
    (dl_attempt_count d) (dl_payload_sha256 d) (dl_recovery_status d) (dl_updated_at d)
    (dl_final_error_code d) (dl_max_attempts d) (dl_safe_error_details d) (dl_failed_at d)
    (dl_task_id d) (dl_tenant_id d) (dl_correlation_id d) (dl_evidence_hash d)
    (dl_manual_retry_requires_new_approval d).

(** [ai_job_results], by job. *)
Record result_row := mkResultRow {
  rs_organization_id : uuid;
  rs_workspace_id : uuid;
  rs_result : AIResult;
  rs_output_sha256 : string;
}.

(** [ai_job_approvals], unique on the job. *)
Inductive approval_state := ap_pending | ap_approved | ap_rejected.

#[export] Instance approval_state_eq_dec : EqDecision approval_state.
Proof. solve_decision. Defined.

Record approval := mkApproval {
  ap_id : uuid;
  ap_organization_id : uuid;
  ap_workspace_id : uuid;
  ap_action_type : string;
  ap_proposal : json;
  ap_proposal_sha256 : string;
  ap_state : approval_state;
  ap_requested_by : string;
  ap_decided_by_fingerprint : option string;
  ap_decision_reason : option string;
  ap_updated_at : Z;
  ap_decided_at : option Z;
}.
#[export] Instance approval_eta : Eta approval := fun a =>
  mkApproval (ap_id a) (ap_organization_id a) (ap_workspace_id a) (ap_action_type a)
    (ap_proposal a) (ap_proposal_sha256 a) (ap_state a) (ap_requested_by a)
    (ap_decided_by_fingerprint a) (ap_decision_reason a) (ap_updated_at a) (ap_decided_at a).

(** [ai_usage_ledger], unique on the job. *)
Record usage_row := mkUsage {
  us_organization_id : uuid;
  us_workspace_id : uuid;
  us_usage_date : Z;
  us_tokens : Z;
  us_compute_units : Z;
  us_model_profile : string;
  us_created_at : Z;
}.

(** [ai_tenant_quotas], by (organization, workspace). *)
Record quota := mkQuota {
  qt_max_queued : Z;
  qt_max_running : Z;
  qt_daily_tokens : Z;
  qt_max_payload_bytes : Z;
}.

(** [ai_job_events], unique on (job, sequence). *)
Record job_event := mkEvent {
  ev_organization_id : uuid;
  ev_workspace_id : uuid;
  ev_event_type : string;
  ev_state : job_state;
  ev_safe_details : json;
  ev_correlation_id : string;
}.

(** [ai_audit_events], append-only, oldest first. *)
Record audit_event := mkAudit {
  au_organization_id : option uuid;
  au_workspace_id : option uuid;
  au_job_id : option uuid;
  au_actor_fingerprint : string;
  au_event_type : string;
  au_correlation_id : string;
  au_safe_details : json;
}.

(** ** The database *)

Record db := mkDb {
  jobs : gmap uuid job;
  conversations : gmap uuid conversation;
  messages : gmap uuid message;
  chunks : gmap (uuid * Z) chunk;
  attempts : gmap (uuid * Z) attempt;
  heartbeats : gmap string worker_heartbeat;
  registrations : gmap string registration;
  dead_letters : gmap uuid dead_letter_row;
  results : gmap uuid result_row;
  approvals : gmap uuid approval;
  usage : gmap uuid usage_row;
  quotas : gmap (uuid * uuid) quota;
  events : gmap (uuid * Z) job_event;
  audits : list audit_event;
  nonces : gmap (string * string) Z;
}.
#[export] Instance db_eta : Eta db := fun d =>
  mkDb (jobs d) (conversations d) (messages d) (chunks d) (attempts d) (heartbeats d)
    (registrations d) (dead_letters d) (results d) (approvals d) (usage d) (quotas d)
    (events d) (audits d) (nonces d).

Definition empty_db : db := mkDb ∅ ∅ ∅ ∅ ∅ ∅ ∅ ∅ ∅ ∅ ∅ ∅ ∅ [] ∅.

(** [INSERT] into a keyed table: refused when the key is taken. *)
Definition insert_new {K V} `{Countable K} (k : K) (v : V) (m : gmap K V) : option (gmap K V) :=
  match m !! k with Some _ => None | None => Some (<[k := v]> m) end.

(** [INSERT ... ON CONFLICT (key) DO NOTHING]. *)
Definition insert_if_absent {K V} `{Countable K} (k : K) (v : V) (m : gmap K V) : gmap K V :=
  match m !! k with Some _ => m | None => <[k := v]> m end.

(** ** Service settings ([src/app/core/config.py], the fields the AI code reads) *)

Record settings := mkSettings {
  ai_submissions_enabled : bool;
  ai_orchestration_enabled : bool;
  ai_worker_claims_enabled : bool;
  ai_job_lease_seconds : Z;
  ai_job_max_attempts : Z;
  ai_job_max_context_bytes : Z;
  ai_job_max_output_bytes : Z;
  ai_job_project_allowlist : string;
  ai_default_max_queued_per_tenant : Z;
  ai_daily_token_quota : Z;
  ai_global_emergency_limit : Z;
  ai_worker_certificate_serial : string;
  ai_worker_spiffe_id : string;
}.
