(* ===== verification/AiJobs.v ===== *)
(** * The AI job repository ([src/app/core/ai_jobs.py])

    Every function of the module as a program over a database session: the
    browser contract, job creation, the leased claim with its fencing token,
    the operations of a lease holder, and the recovery sweeps.  The SQL
    statements are the small functions on rows and tables that the programs
    execute. *)

From Stdlib Require Import Ascii QArith.
From S2P Require Import Prelude PyText PyTime Sha256 Txn AiContracts AiTables.
Local Open Scope string_scope.
Local Open Scope Z_scope.

(** The serialiser of the validation library, as far as the code uses it: the
    JSON form of each model, and the one documented fact that is relied on,
    that a dumped approval policy carries its [required] field. *)
Class Pydantic := {
  model_dump : AICommand -> json;
  model_dump_json : AICommand -> string;
  dump_resource_limits : ResourceLimits -> json;
  dump_approval_policy : ApprovalPolicy -> json;
  dump_callback_policy : CallbackPolicy -> json;
  dump_approval_policy_required (p : ApprovalPolicy) :
    json_get "required" (dump_approval_policy p) = Some (JBool (approval_is_required p));
}.

(** ** Policy tables *)

Definition SAFE_ERROR_DETAIL_FIELDS : list string :=
  ["category"; "component"; "http_status"; "model_profile"; "operation"; "provider";
   "timeout_seconds"].

Definition WORKER_HARD_SAFETY_CAP : Z := 2.

Definition MODEL_RUNTIME_CLASSES : list (string * string) :=
  [("fast-chat", "chat-light"); ("crm-analysis", "chat-light");
   ("coding-default", "coding-fallback"); ("quality-chat", "single-admission");
   ("coding-large", "single-admission"); ("voice-summary", "single-admission");
   ("embedding-default", "unavailable")].

Definition BROWSER_CAPABILITY_PROFILES : list (string * string) :=
  [("chat", "fast-chat"); ("coding", "coding-default")].
Definition BROWSER_CAPABILITY_COMMAND_TYPES : list (string * CommandType) :=
  [("chat", CHAT); ("coding", CODING)].
Definition BROWSER_CAPABILITY_MAX_TOKENS : list (string * Z) :=
  [("chat", 2048); ("coding", 4096)].

Definition resolve_browser_model_profile (task_type : string) : exn + string :=
  match dict_get BROWSER_CAPABILITY_PROFILES task_type with
  | Some p =>
      if is_null (dict_get MODEL_RUNTIME_CLASSES p)
      then inl (ValueError "unsupported_browser_capability") else inr p
  | None => inl (ValueError "unsupported_browser_capability")
  end.

Definition build_browser_worker_contract `{Pydantic}
    (job_id conversation_id organization_id : uuid) (user_id content task_type : string)
    (project_key : option string) (idempotency_key correlation_id : string)
    (max_attempts : Z) (now_utc : Z) : exn + AICommand :=
  match resolve_browser_model_profile task_type with
  | inl e => inl e
  | inr model_profile =>
      match dict_get BROWSER_CAPABILITY_COMMAND_TYPES task_type,
            dict_get BROWSER_CAPABILITY_MAX_TOKENS task_type with
      | Some command_type, Some max_tokens =>
          validate_command model_dump_json
            {| command_id := job_id;
               command_type := command_type;
               schema_version := "1.0";
               tenant_id := organization_id;
               actor_id := user_id;
               actor_type := "user";
               correlation_id := correlation_id;
               idempotency_key := idempotency_key;
               priority := 5;
               requested_at := utc now_utc;
               deadline_at := add_delta (utc now_utc) (minutes 10);
               input := ("text", JStr content) ::
                          match project_key with
                          | Some k => [("project_key", JStr k)]
                          | None => []
                          end;
               model_policy := mkModelPolicy model_profile (1 # 5) max_tokens;
               resource_limits := mkResourceLimits 300 262144 (max_attempts - 1) (max_tokens * 2);
               data_classification := "internal";
               approval_policy := mkApprovalPolicy false [];
               callback_policy := callback_poll;
               metadata := [("source", "ai-console");
                            ("conversation_id", uuid_str conversation_id);
                            ("capability", task_type)] |}
      | _, _ => inl (ValueError "unsupported_browser_capability")
      end
  end.

Definition RUNTIME_CLASS_COMPATIBILITY : list (string * list string) :=
  [("chat-light", ["chat-light"]); ("coding-fallback", ["coding-fallback"]);
   ("single-admission", []); ("unavailable", [])].

Definition compatible_profiles (active_profiles : list (option string)) : gset string :=
  match active_profiles with
  | [] => list_to_set (MODEL_RUNTIME_CLASSES.*1)
  | _ =>
      let active_classes : gset (option string) :=
        list_to_set ((fun profile => dict_get MODEL_RUNTIME_CLASSES (py_or profile ""))
                       <$> active_profiles) in
      if (bool_decide (None ∈ active_classes) || negb (size active_classes =? 1)%nat)%bool then ∅
      else
        match elements active_classes with
        | Some active_class :: _ =>
            let compatible_classes :=
              coalesce (dict_get RUNTIME_CLASS_COMPATIBILITY active_class) [] in
            list_to_set
              (List.filter (fun kv => str_in kv.2 compatible_classes) MODEL_RUNTIME_CLASSES).*1
        | _ => ∅
        end
  end.

Definition effective_compatible_profiles (active_profiles : list (option string))
    (requested_profiles : option (list string)) : gset string :=
  let server_allowed := compatible_profiles active_profiles in
  match requested_profiles with
  | None => server_allowed
  | Some requested => server_allowed ∩ list_to_set requested
  end.

Definition fingerprint (value : string) : string := sha256_hex value.

Definition sanitize_value (value : json) : option json :=
  match value with
  | JStr s =>
      if fullmatch_class (fun c => (is_alnum c || char_in c "._:/ -")%bool) 1 128 s
      then Some value else None
  | JInt _ | JBool _ => Some value
  | _ => None
  end.

(** [safe[key] = value]: in place when the key is there, else at the end. *)
Fixpoint dict_set {A} (d : list (string * A)) (key : string) (value : A) : list (string * A) :=
  match d with
  | [] => [(key, value)]
  | kv :: d' =>
      if bool_decide (kv.1 = key) then (key, value) :: d' else kv :: dict_set d' key value
  end.

Definition sanitize_error_details (details : list (string * json)) : list (string * json) :=
  fold_left
    (fun safe kv =>
       let normalized := str_lower kv.1 in
       if negb (str_in normalized SAFE_ERROR_DETAIL_FIELDS) then safe
       else
         match sanitize_value kv.2 with
         | Some value => dict_set safe normalized value
         | None => safe
         end)
    details [].

(** ** Audit trail *)

Definition audit (event_type correlation_id actor : string)
    (organization_id workspace_id job_id : option uuid) (details : list (string * json)) :
    M db unit :=
  _ ← uuid4;
  execute (fun d => d <| audits ::= fun l => app l
    [mkAudit organization_id workspace_id job_id (fingerprint actor) event_type correlation_id
       (JObj details)] |>).

(** ** Creating conversations and jobs *)

Definition create_conversation (organization_id workspace_id : uuid)
    (user_id title correlation_id : string) : M db (uuid * string) :=
  conversation_id ← uuid4;
  insert_or "ai_conversations_pkey" (fun d =>
    m ← insert_new conversation_id
          (mkConversation organization_id workspace_id user_id title "active") (conversations d);
    Some (d <| conversations := m |>)) ;;
  audit "conversation.created" correlation_id user_id (Some organization_id) (Some workspace_id)
    None [("conversation_id", JStr (uuid_str conversation_id))] ;;
  commit ;;
  mret (conversation_id, "active").

(** The check and unique constraints of [ai_generation_jobs]. *)
Definition job_checks (j : job) : bool :=
  (0 <=? j_attempt_count j) && between 1 (j_max_attempts j) 10 && between 0 (j_priority j) 9
  && str_in (j_data_classification j) ["public"; "internal"; "confidential"; "synthetic"].

Definition same_key (organization_id workspace_id : uuid) (key : string) (j : job) : bool :=
  bool_decide (j_organization_id j = organization_id)
  && bool_decide (j_workspace_id j = workspace_id)
  && bool_decide (j_idempotency_key j = key).

Definition find_by_key (organization_id workspace_id : uuid) (key : string) (d : db) : option job :=
  head (select_where (same_key organization_id workspace_id key) (jobs d)).

Definition insert_job (j : job) (d : db) : option db :=
  if (job_checks j
      && is_null (find_by_key (j_organization_id j) (j_workspace_id j) (j_idempotency_key j) d))%bool
  then m ← insert_new (j_id j) j (jobs d); Some (d <| jobs := m |>)
  else None.

Definition request_hash (conversation_id : uuid) (task_type : string)
    (project_key : option string) (content : string) : string :=
  sha256_hex (uuid_str conversation_id +:+ nul +:+ task_type +:+ nul +:+ py_or project_key ""
              +:+ nul +:+ content).

(** The row of [INSERT INTO ai_generation_jobs] in [create_message_job]; the
    columns it does not name take their defaults. *)
Definition browser_job `{Pydantic} (command : AICommand) (job_id conversation_id message_id
    organization_id workspace_id : uuid) (user_id task_type model_profile : string)
    (project_key : option string) (key hash : string) (max_attempts now_ : Z) : job :=
  {| j_id := job_id;
     j_conversation_id := Some conversation_id;
     j_request_message_id := Some message_id;
     j_organization_id := organization_id;
     j_workspace_id := workspace_id;
     j_requested_by := user_id;
     j_task_type := task_type;
     j_project_key := project_key;
     j_state := queued;
     j_idempotency_key := key;
     j_request_sha256 := hash;
     j_attempt_count := 0;
     j_max_attempts := max_attempts;
     j_fencing_token := 0;
     j_lease_owner := None;
     j_lease_expires_at := None;
     j_next_attempt_at := now_;
     j_cancel_requested_at := None;
     j_completed_at := None;
     j_failure_code := None;
     j_output_bytes := 0;
     j_created_at := now_;
     j_updated_at := now_;
     j_command_type := Some (command_type_value (command_type command));
     j_schema_version := schema_version command;
     j_actor_id := Some (actor_id command);
     j_actor_type := Some (actor_type command);
     j_correlation_id := Some (correlation_id command);
     j_priority := priority command;
     j_deadline_at := Some (instant (deadline_at command));
     j_command_payload := Some (model_dump command);
     j_model_profile := Some model_profile;
     j_resource_limits := dump_resource_limits (resource_limits command);
     j_data_classification := data_classification command;
     j_approval_policy := dump_approval_policy (approval_policy command);
     j_callback_policy := dump_callback_policy (callback_policy command);
     j_command_metadata := JObj ((fun kv => (kv.1, JStr kv.2)) <$> metadata command);
     j_version := 1 |}.

Record message_job := mkMessageJob {
  mj_job_id : uuid;
  mj_message_id : option uuid;
  mj_state : job_state;
  mj_idempotent_replay : bool;
}.

Definition lift_exn {D A} (r : exn + A) : M D A :=
  match r with inl e => raise e | inr a => mret a end.

Definition conversation_open (organization_id workspace_id : uuid) (c : conversation) : bool :=
  bool_decide (cv_organization_id c = organization_id)
  && bool_decide (cv_workspace_id c = workspace_id) && bool_decide (cv_status c = "active").

(** [now_utc] is the reading of [datetime.now(timezone.utc)]. *)
Definition create_message_job `{Pydantic} (conversation_id organization_id workspace_id : uuid)
    (user_id content task_type : string) (project_key : option string)
    (idempotency_key correlation_id : string) (max_attempts now_utc : Z) : M db message_job :=
  model_profile ← lift_exn (resolve_browser_model_profile task_type);
  let hash := request_hash conversation_id task_type project_key content in
  existing ← query (find_by_key organization_id workspace_id idempotency_key);
  match existing with
  | Some row =>
      guard_or (bool_decide (j_request_sha256 row = hash)) (ValueError "idempotency_conflict") ;;
      mret (mkMessageJob (j_id row) (j_request_message_id row) (j_state row) true)
  | None =>
      owner ← query (fun d => conversations d !! conversation_id);
      guard_or (from_option (conversation_open organization_id workspace_id) false owner)
        (LookupError "conversation_not_found") ;;
      message_id ← uuid4;
      job_id ← uuid4;
      command ← lift_exn (build_browser_worker_contract job_id conversation_id organization_id
                            user_id content task_type project_key idempotency_key correlation_id
                            max_attempts now_utc);
      insert_or "ai_messages_pkey" (fun d =>
        m ← insert_new message_id
              (mkMessage conversation_id organization_id workspace_id "user" content
                 (sha256_hex content)) (messages d);
        Some (d <| messages := m |>)) ;;
      t ← now;
      insert_or "ai_generation_jobs"
        (insert_job (browser_job command job_id conversation_id message_id organization_id
                       workspace_id user_id task_type model_profile project_key idempotency_key
                       hash max_attempts t)) ;;
      audit "job.queued" correlation_id user_id (Some organization_id) (Some workspace_id)
        (Some job_id) [("task_type", JStr task_type); ("model_profile", JStr model_profile)] ;;
      commit ;;
      mret (mkMessageJob job_id (Some message_id) queued false)
  end.

(** ** Claiming a job *)

Definition in_scope (organization_id workspace_id : option uuid) (j : job) : bool :=
  filter_eq organization_id (j_organization_id j) && filter_eq workspace_id (j_workspace_id j).

(** The live leases of a worker. *)
Definition holds_lease (worker_id : string) (t : Z) (j : job) : bool :=
  state_in [leased; cancel_requested] (j_state j)
  && null_eq (j_lease_owner j) worker_id && null_gt (j_lease_expires_at j) t.

Definition active_leases (worker_id : string) (organization_id workspace_id : option uuid) (t : Z)
    (d : db) : list job :=
  sort_by (fun a b => (j_created_at a <? j_created_at b)
                      || ((j_created_at a =? j_created_at b) && (j_id a <=? j_id b)%N))%bool
    (select_where (fun j => holds_lease worker_id t j && in_scope organization_id workspace_id j)
       (jobs d)).

(** The [WHERE] clause of the candidate query; [profiles] is the bound list. *)
Definition claimable (t : Z) (profiles : option (list string))
    (organization_id workspace_id : option uuid) (j : job) : bool :=
  state_in [queued; retry_wait] (j_state j)
  && (j_next_attempt_at j <=? t)
  && (is_null (j_model_profile j) || str_in (coalesce (j_model_profile j) "") model_profiles)
  && match profiles with
     | None => true
     | Some l => match j_model_profile j with Some p => str_in p l | None => false end
     end
  && in_scope organization_id workspace_id j
  && is_null (j_cancel_requested_at j)
  && (is_null (j_deadline_at j) || null_gt (j_deadline_at j) t).

(** [ORDER BY priority, created_at]: lexicographic, smaller first. *)
Definition claim_before (a b : job) : bool :=
  (j_priority a <? j_priority b)
  || ((j_priority a =? j_priority b) && (j_created_at a <=? j_created_at b)).

Definition claim_candidate (t : Z) (profiles : option (list string))
    (organization_id workspace_id : option uuid) (d : db) : option job :=
  head (sort_by claim_before
          (select_where (claimable t profiles organization_id workspace_id) (jobs d))).

(** The [SET] list of the claim. *)
Definition lease_to (worker_id : string) (t lease_seconds : Z) (j : job) : job :=
  j <| j_state := leased |>
    <| j_lease_owner := Some worker_id |>
    <| j_lease_expires_at := Some (t + seconds lease_seconds) |>
    <| j_fencing_token ::= Z.succ |>
    <| j_attempt_count ::= Z.succ |>
    <| j_updated_at := t |>.

(** [UPDATE ai_generation_jobs SET f WHERE id=:job] *)
Definition update_job (job_id : uuid) (f : job -> job) (d : db) : db :=
  d <| jobs ::= alter f job_id |>.

Definition profile_or_unknown (profile : option string) : string := py_or profile "unknown".

(** The columns a claim returns. *)
Record claim_view := mkClaimView {
  cl_id : uuid;
  cl_conversation_id : option uuid;
  cl_organization_id : uuid;
  cl_workspace_id : uuid;
  cl_task_type : string;
  cl_command_type : option string;
  cl_schema_version : string;
  cl_project_key : option string;
  cl_attempt_count : Z;
  cl_fencing_token : Z;
  cl_lease_expires_at : option Z;
  cl_deadline_at : option Z;
  cl_command_payload : option json;
  cl_model_profile : option string;
  cl_resource_limits : json;
  cl_data_classification : string;
  cl_approval_policy : json;
}.
Definition claim_view_of (row : job) : claim_view :=
  mkClaimView (j_id row) (j_conversation_id row) (j_organization_id row) (j_workspace_id row)
    (j_task_type row) (j_command_type row) (j_schema_version row) (j_project_key row)
    (j_attempt_count row) (j_fencing_token row) (j_lease_expires_at row) (j_deadline_at row)
    (j_command_payload row) (j_model_profile row) (j_resource_limits row)
    (j_data_classification row) (j_approval_policy row).

Definition valid_profile_filter (allowed : option (list string)) : bool :=
  match allowed with
  | None => true
  | Some l =>
      negb (bool_decide (l = []))
      && forallb (fun p => negb (is_null (dict_get MODEL_RUNTIME_CLASSES p))) l
  end.

(** Admission: the profiles of the worker's live leases, or the refusal. *)
Definition admission (worker_id : string) (organization_id workspace_id : option uuid)
    (service_id : option string) : M db (list (option string)) :=
  match service_id with
  | None => mret []
  | Some service =>
      registration ← query (fun d => registrations d !! worker_id);
      match registration with
      | Some r =>
          guard_or (bool_decide (rg_service_id r = service) && rg_enabled r)
            (PermissionError "worker_not_enabled") ;;
          t ← now;
          active ← query (active_leases worker_id organization_id workspace_id t);
          let effective_limit := Z.min (rg_max_concurrency r) WORKER_HARD_SAFETY_CAP in
          guard_or (Z.of_nat (length active) <? effective_limit)
            (OverflowError "worker_concurrency_limit") ;;
          mret (j_model_profile <$> active)
      | None => raise (PermissionError "worker_not_enabled")
      end
  end.

Definition claimed_details (row : job) (active_profiles : list (option string))
    (filter_applied : bool) (allowed_count : nat) (worker_id : string) : list (string * json) :=
  [("attempt", JInt (j_attempt_count row));
   ("fencing_token", JInt (j_fencing_token row));
   ("claimed_model_profile", match j_model_profile row with Some p => JStr p | None => JNull end);
   ("active_model_profiles",
      JList (JStr <$> sorted_strings (profile_or_unknown <$> active_profiles)));
   ("effective_compatibility_class",
      JStr (match j_model_profile row with
            | Some p => coalesce (dict_get MODEL_RUNTIME_CLASSES p) "unknown"
            | None => "unknown"
            end));
   ("profile_filter_applied", JBool filter_applied);
   ("effective_allowed_profile_count", JInt (Z.of_nat allowed_count));
   ("concurrency_slot", JInt (Z.of_nat (length active_profiles) + 1));
   ("worker_id", JStr worker_id)].

Definition admission_rejected_details (active_profiles : list (option string))
    (filter_applied : bool) (worker_id : string) : list (string * json) :=
  [("active_model_profiles",
      JList (JStr <$> sorted_strings (profile_or_unknown <$> active_profiles)));
   ("effective_allowed_profile_count", JInt 0);
   ("profile_filter_applied", JBool filter_applied);
   ("concurrency_slot", JInt (Z.of_nat (length active_profiles) + 1));
   ("worker_id", JStr worker_id)].

Definition claim (worker_id : string) (lease_seconds : Z) (correlation_id : string)
    (organization_id workspace_id : option uuid) (service_id : option string)
    (allowed_model_profiles : option (list string)) : M db (option claim_view) :=
  guard_or (valid_profile_filter allowed_model_profiles)
    (ValueError "invalid_model_profile_filter") ;;
  active_profiles ← admission worker_id organization_id workspace_id service_id;
  let effective := effective_compatible_profiles active_profiles allowed_model_profiles in
  let filter_applied := negb (is_null allowed_model_profiles) in
  if bool_decide (effective = ∅) then
    audit "job.claim.admission_rejected" correlation_id worker_id organization_id workspace_id
      None (admission_rejected_details active_profiles filter_applied worker_id) ;;
    commit ;;
    mret None
  else
    let profile_filter :=
      if (negb (is_null service_id) || filter_applied)%bool
      then Some (sorted_strings (elements effective)) else None in
    t ← now;
    candidate ← query (claim_candidate t profile_filter organization_id workspace_id);
    match candidate with
    | None => commit ;; mret None
    | Some j =>
        let row := lease_to worker_id t lease_seconds j in
        execute (update_job (j_id j) (lease_to worker_id t lease_seconds)) ;;
        _ ← uuid4;
        insert_or "ai_job_attempts_job_id_attempt_number_key" (fun d =>
          m ← insert_new (j_id row, j_attempt_count row)
                (mkAttempt (j_fencing_token row) worker_id leased None t None) (attempts d);
          Some (d <| attempts := m |>)) ;;
        audit "job.claimed" correlation_id worker_id (Some (j_organization_id row))
          (Some (j_workspace_id row)) (Some (j_id row))
          (claimed_details row active_profiles filter_applied (size effective) worker_id) ;;
        commit ;;
        mret (Some (claim_view_of row))
    end.

(** ** Operations of a lease holder *)

(** The [WHERE] clause of [assert_lease]. *)
Definition lease_matches (worker_id : string) (fencing_token : Z)
    (organization_id workspace_id : option uuid) (allow_cancel_requested : bool) (t : Z)
    (j : job) : bool :=
  (bool_decide (j_state j = leased)
   || (allow_cancel_requested && bool_decide (j_state j = cancel_requested)))
  && null_eq (j_lease_owner j) worker_id
  && (j_fencing_token j =? fencing_token)
  && null_gt (j_lease_expires_at j) t
  && in_scope organization_id workspace_id j.

Definition select_lease (job_id : uuid) (worker_id : string) (fencing_token : Z)
    (organization_id workspace_id : option uuid) (allow_cancel_requested : bool) (t : Z)
    (d : db) : option job :=
  j ← jobs d !! job_id;
  if lease_matches worker_id fencing_token organization_id workspace_id
       allow_cancel_requested t j
  then Some j else None.

Definition assert_lease (job_id : uuid) (worker_id : string) (fencing_token : Z)
    (organization_id workspace_id : option uuid) (allow_cancel_requested : bool) : M db job :=
  t ← now;
  row ← query (select_lease job_id worker_id fencing_token organization_id workspace_id
                 allow_cancel_requested t);
  some_or row (PermissionError "stale_or_invalid_lease").

Definition renew_lease (t lease_seconds : Z) (j : job) : job :=
  j <| j_lease_expires_at := Some (t + seconds lease_seconds) |> <| j_updated_at := t |>.

Definition upsert_heartbeat (worker_id service_id certificate_serial spiffe_id : string) (t : Z)
    (current_job_id : option uuid) (d : db) : db :=
  d <| heartbeats ::= <[worker_id :=
         mkHeartbeat service_id certificate_serial spiffe_id t current_job_id]> |>.

Definition heartbeat (job_id : uuid) (worker_id : string) (fencing_token lease_seconds : Z)
    (service_id certificate_serial spiffe_id : string)
    (organization_id workspace_id : option uuid) : M db Z :=
  _ ← assert_lease job_id worker_id fencing_token organization_id workspace_id true;
  t ← now;
  execute (update_job job_id (renew_lease t lease_seconds)) ;;
  execute (upsert_heartbeat worker_id service_id certificate_serial spiffe_id t (Some job_id)) ;;
  commit ;;
  mret (t + seconds lease_seconds).

Definition add_output (size t : Z) (j : job) : job :=
  j <| j_output_bytes ::= Z.add size |> <| j_updated_at := t |>.

Definition append_chunk (job_id : uuid) (worker_id : string) (fencing_token sequence : Z)
    (content : string) (max_output_bytes : Z) (organization_id workspace_id : option uuid) :
    M db bool :=
  row ← assert_lease job_id worker_id fencing_token organization_id workspace_id false;
  let size := byte_len content in
  guard_or (j_output_bytes row + size <=? max_output_bytes)
    (OverflowError "output_limit_exceeded") ;;
  _ ← uuid4;
  taken ← query (fun d => chunks d !! (job_id, sequence));
  execute (fun d => d <| chunks ::= insert_if_absent (job_id, sequence)
    (mkChunk (j_organization_id row) (j_workspace_id row) fencing_token content
       (sha256_hex content)) |>) ;;
  let inserted := is_null taken in
  t ← now;
  (if inserted then execute (update_job job_id (add_output size t)) else mret tt) ;;
  commit ;;
  mret inserted.

(** The state [finish] moves the job to. *)
Definition finish_state (row : job) (is_failed retryable : bool) (completion_state : job_state) :
    job_state :=
  if negb (is_null (j_cancel_requested_at row)) then cancelled
  else if negb is_failed then completion_state
  else if (retryable && (j_attempt_count row <? j_max_attempts row))%bool then retry_wait
  else if is_failed then dead_letter
  else failed.

Definition retry_delay (attempt_count : Z) : Z := Z.min 300 (2 ^ Z.min attempt_count 8).

Definition finish_job (state : job_state) (delay : Z) (error_code : option string) (t : Z)
    (j : job) : job :=
  j <| j_state := state |>
    <| j_lease_owner := None |>
    <| j_lease_expires_at := None |>
    <| j_next_attempt_at ::= fun n => if bool_decide (state = retry_wait) then t + seconds delay
                                      else n |>
    <| j_failure_code := error_code |>
    <| j_completed_at :=
         if state_in [completed; approval_required; cancelled; dead_letter; failed] state
         then Some t else None |>
    <| j_updated_at := t |>.

(** [UPDATE ai_job_attempts SET f WHERE job_id=:job AND fencing_token=:token
    [AND worker_id=:worker]] *)
Definition update_attempts (job_id : uuid) (fencing_token : Z) (worker_id : option string)
    (f : attempt -> attempt) (d : db) : db :=
  d <| attempts ::= map_imap (fun k a => Some
         (if (bool_decide (k.1 = job_id) && (at_fencing_token a =? fencing_token)
              && filter_eq worker_id (at_worker_id a))%bool
          then f a else a)) |>.

Definition finish_attempt (state : job_state) (error_code : option string) (t : Z) (a : attempt) :
    attempt :=
  a <| at_state := state |> <| at_safe_error_code := error_code |> <| at_finished_at := Some t |>.

Definition cancel_attempt (t : Z) (a : attempt) : attempt :=
  a <| at_state := cancelled |> <| at_finished_at := Some t |>.

(** [INSERT INTO ai_job_dead_letters ... ON CONFLICT(job_id) DO UPDATE]; the
    table's check constraint wants positive counts. *)
Definition dead_letter_checks (attempt_count max_attempts : Z) : bool :=
  (0 <? attempt_count) && (0 <? max_attempts).

Definition new_dead_letter (row : job) (error correlation_id evidence : string) (details : json)
    (t : Z) : dead_letter_row :=
  {| dl_organization_id := j_organization_id row;
     dl_workspace_id := j_workspace_id row;
     dl_safe_error_code := error;
     dl_attempt_count := j_attempt_count row;
     dl_payload_sha256 := j_request_sha256 row;
     dl_recovery_status := "pending";
     dl_updated_at := t;
     dl_final_error_code := error;
     dl_max_attempts := j_max_attempts row;
     dl_safe_error_details := details;
     dl_failed_at := t;
     dl_task_id := j_id row;
     dl_tenant_id := j_organization_id row;
     dl_correlation_id := correlation_id;
     dl_evidence_hash := evidence;
     dl_manual_retry_requires_new_approval := true |}.

Definition refresh_dead_letter (row : job) (error correlation_id evidence : string)
    (details : json) (t : Z) (d : dead_letter_row) : dead_letter_row :=
  d <| dl_safe_error_code := error |>
    <| dl_final_error_code := error |>
    <| dl_attempt_count := j_attempt_count row |>
    <| dl_max_attempts := j_max_attempts row |>
    <| dl_safe_error_details := details |>
    <| dl_failed_at := t |>
    <| dl_correlation_id := correlation_id |>
    <| dl_evidence_hash := evidence |>
    <| dl_manual_retry_requires_new_approval := true |>
    <| dl_updated_at := t |>.

Definition upsert_dead_letter (row : job) (error correlation_id evidence : string)
    (details : json) (t : Z) (d : db) : option db :=
  if dead_letter_checks (j_attempt_count row) (j_max_attempts row) then
    Some (d <| dead_letters ::= fun m =>
      <[j_id row := match m !! j_id row with
                    | Some old => refresh_dead_letter row error correlation_id evidence details t old
                    | None => new_dead_letter row error correlation_id evidence details t
                    end]> m |>)
  else None.

Definition finish (job_id : uuid) (worker_id : string) (fencing_token : Z) (is_failed : bool)
    (error_code : option string) (retryable : bool) (correlation_id : string)
    (completion_state : job_state) (safe_error_details : list (string * json))
    (organization_id workspace_id : option uuid) : M db job_state :=
  row ← assert_lease job_id worker_id fencing_token organization_id workspace_id true;
  let state := finish_state row is_failed retryable completion_state in
  let delay := retry_delay (j_attempt_count row) in
  t ← now;
  execute (update_job job_id (finish_job state delay error_code t)) ;;
  execute (update_attempts job_id fencing_token None (finish_attempt state error_code t)) ;;
  (if bool_decide (state = dead_letter) then
     let details := JObj (sanitize_error_details safe_error_details) in
     let error := py_or error_code "attempts_exhausted" in
     let evidence := sha256_hex
       (uuid_str job_id +:+ nul +:+ error +:+ nul +:+ str_of_Z (j_attempt_count row) +:+ nul
        +:+ json_dumps json_default details) in
     insert_or "ck_ai_dead_letter_attempts"
       (upsert_dead_letter row error correlation_id evidence details t)
   else mret tt) ;;
  audit ("job." +:+ state_text state) correlation_id worker_id (Some (j_organization_id row))
    (Some (j_workspace_id row)) (Some job_id)
    [("safe_error_code", JStr (py_or error_code ""))] ;;
  commit ;;
  mret state.

(** ** Results, cancellation by the worker *)

Definition hmac_compare (left_ right_ : string) : bool := bool_decide (left_ = right_).

(** [json.dumps(output, sort_keys=True, separators=(",", ":"))], hashed. *)
Definition output_digest (r : AIResult) : string :=
  sha256_hex (json_dumps json_canonical (JObj (output r))).

Definition owned_job (job_id organization_id workspace_id : uuid) (d : db) : option job :=
  j ← jobs d !! job_id;
  if in_scope (Some organization_id) (Some workspace_id) j then Some j else None.

(** [Some state] is the answer to a repeated submission of the stored result. *)
Definition completed_result_status (job_id organization_id workspace_id : uuid)
    (result : option AIResult) : M db (option job_state) :=
  row ← query (fun d =>
    j ← owned_job job_id organization_id workspace_id d;
    Some (j_state j, rs_output_sha256 <$> results d !! job_id));
  match row with
  | Some (state, stored) =>
      if negb (state_in [completed; approval_required] state) then mret None
      else
        match result, stored with
        | Some r, Some digest =>
            guard_or (hmac_compare digest (output_digest r))
              (PermissionError "duplicate_result_rejected") ;;
            mret (Some state)
        | _, _ => raise (PermissionError "duplicate_result_rejected")
        end
  | None => mret None
  end.

Definition get_worker_job (job_id organization_id workspace_id : uuid) : M db job :=
  row ← query (owned_job job_id organization_id workspace_id);
  some_or row (LookupError "job_not_found").

Definition already_cancelled (job_id : uuid) (worker_id : string) (fencing_token : Z)
    (organization_id workspace_id : uuid) (d : db) : bool :=
  match owned_job job_id organization_id workspace_id d with
  | Some j =>
      bool_decide (j_state j = cancelled) && (j_fencing_token j =? fencing_token)
      && existsb (fun ka => bool_decide (ka.1.1 = job_id)
                            && (at_fencing_token ka.2 =? fencing_token)
                            && bool_decide (at_worker_id ka.2 = worker_id))
           (map_to_list (attempts d))
  | None => false
  end.

Definition cancel_job_row (t : Z) (j : job) : job :=
  j <| j_state := cancelled |> <| j_lease_owner := None |> <| j_lease_expires_at := None |>
    <| j_completed_at := Some t |> <| j_updated_at := t |>.

(** The two fields of the answer: [cancel_requested] and [state]. *)
Definition worker_cancel (job_id : uuid) (worker_id : string) (fencing_token : Z)
    (organization_id workspace_id : uuid) (correlation_id : string) : M db (bool * job_state) :=
  leased_row ← try_except
    (row ← assert_lease job_id worker_id fencing_token (Some organization_id)
             (Some workspace_id) true;
     mret (Some row))
    (fun e =>
       match e with
       | PermissionError _ =>
           done ← query (already_cancelled job_id worker_id fencing_token organization_id
                           workspace_id);
           if done : bool then mret None else raise e
       | _ => raise e
       end);
  match leased_row with
  | None => mret (true, cancelled)
  | Some row =>
      let requested := negb (is_null (j_cancel_requested_at row)) in
      (if requested then
         t ← now;
         execute (update_job job_id (cancel_job_row t)) ;;
         execute (update_attempts job_id fencing_token (Some worker_id) (cancel_attempt t)) ;;
         audit "job.cancelled" correlation_id worker_id (Some organization_id)
           (Some workspace_id) (Some job_id) [] ;;
         commit
       else mret tt) ;;
      mret (requested, if requested then cancelled else j_state row)
  end.

(** ** Dead letters *)

Definition list_dead_letters (organization_id workspace_id : uuid) : M db (list dead_letter_row) :=
  query (fun d =>
    take 100 (sort_by (fun a b => dl_failed_at b <=? dl_failed_at a)
      (select_where (fun r => bool_decide (dl_tenant_id r = organization_id)
                              && bool_decide (dl_workspace_id r = workspace_id))
         (dead_letters d)))).

(** The join of a dead letter with the approval that allows its retry. *)
Definition retry_authorized (job_id approval_id organization_id workspace_id : uuid) (d : db) :
    bool :=
  match dead_letters d !! job_id, approvals d !! job_id with
  | Some dl, Some a =>
      bool_decide (dl_tenant_id dl = organization_id)
      && bool_decide (dl_workspace_id dl = workspace_id)
      && dl_manual_retry_requires_new_approval dl
      && bool_decide (ap_id a = approval_id)
      && bool_decide (ap_state a = ap_approved)
      && null_gt (ap_decided_at a) (dl_failed_at dl)
  | _, _ => false
  end.

Definition retryable_dead_letter (j : job) : bool :=
  bool_decide (j_state j = dead_letter) && (j_max_attempts j <? 10).

Definition requeue_dead_letter (t : Z) (j : job) : job :=
  j <| j_state := retry_wait |>
    <| j_max_attempts ::= Z.succ |>
    <| j_next_attempt_at := t |>
    <| j_failure_code := None |>
    <| j_completed_at := None |>
    <| j_updated_at := t |>
    <| j_version ::= Z.succ |>.

Definition retry_dead_letter (job_id approval_id organization_id workspace_id : uuid)
    (actor correlation_id : string) : M db job_state :=
  authorized ← query (retry_authorized job_id approval_id organization_id workspace_id);
  guard_or authorized (PermissionError "new_approval_required") ;;
  t ← now;
  row ← query (fun d => jobs d !! job_id);
  guard_or (from_option retryable_dead_letter false row)
    (LookupError "dead_letter_not_retryable") ;;
  execute (update_job job_id (requeue_dead_letter t)) ;;
  execute (fun d => d <| dead_letters ::= alter (fun dl =>
    dl <| dl_recovery_status := "approved_retry" |>
       <| dl_manual_retry_requires_new_approval := false |>
       <| dl_updated_at := t |>) job_id |>) ;;
  audit "job.dead_letter.retry" correlation_id actor (Some organization_id) (Some workspace_id)
    (Some job_id) [("approval_id", JStr (uuid_str approval_id))] ;;
  commit ;;
  mret retry_wait.

(** ** Recovery sweeps *)

Definition deadline_open (t : Z) (j : job) : bool :=
  is_null (j_deadline_at j) || null_gt (j_deadline_at j) t.

Definition expired_cancel (t : Z) (organization_id workspace_id : option uuid) (j : job) : bool :=
  bool_decide (j_state j = cancel_requested) && null_le (j_lease_expires_at j) t
  && in_scope organization_id workspace_id j.

Definition expired_lease (t : Z) (organization_id workspace_id : option uuid) (j : job) : bool :=
  bool_decide (j_state j = leased) && null_le (j_lease_expires_at j) t && deadline_open t j
  && in_scope organization_id workspace_id j.

Definition expired_retryable t org ws (j : job) : bool :=
  expired_lease t org ws j && (j_attempt_count j <? j_max_attempts j).
Definition expired_exhausted t org ws (j : job) : bool :=
  expired_lease t org ws j && (j_max_attempts j <=? j_attempt_count j).

Definition retry_lease (t : Z) (j : job) : job :=
  j <| j_state := retry_wait |> <| j_lease_owner := None |> <| j_lease_expires_at := None |>
    <| j_next_attempt_at := t |> <| j_updated_at := t |>.

Definition bury_lease (t : Z) (j : job) : job :=
  j <| j_state := dead_letter |> <| j_lease_owner := None |> <| j_lease_expires_at := None |>
    <| j_failure_code := Some "lease_expired" |> <| j_completed_at := Some t |>
    <| j_updated_at := t |>.

(** [INSERT INTO ai_job_dead_letters ... ON CONFLICT(job_id) DO NOTHING] *)
Definition insert_lease_dead_letter (row : job) (t : Z) (d : db) : option db :=
  if dead_letter_checks (j_attempt_count row) (j_max_attempts row) then
    let evidence := sha256_hex
      (uuid_str (j_id row) +:+ ":lease_expired:" +:+ str_of_Z (j_attempt_count row)) in
    Some (d <| dead_letters ::= insert_if_absent (j_id row)
      (new_dead_letter row "lease_expired" (py_or (j_correlation_id row) "lease-recovery")
         evidence (JObj []) t) |>)
  else None.

Definition recover_cancelled (t : Z) (row : job) : M db unit :=
  execute (update_attempts (j_id row) (j_fencing_token row) None (cancel_attempt t)) ;;
  audit "job.cancelled" (py_or (j_correlation_id row) "lease-recovery") "lease-recovery"
    (Some (j_organization_id row)) (Some (j_workspace_id row)) (Some (j_id row))
    [("reason", JStr "cancel_lease_expired")].

Definition sweep_jobs (p : job -> bool) (f : job -> job) (d : db) : db :=
  d <| jobs ::= update_where p f |>.

Definition recover_expired (organization_id workspace_id : option uuid) : M db (Z * Z) :=
  t ← now;
  cancelled_rows ← query (fun d =>
    returning (expired_cancel t organization_id workspace_id) (cancel_job_row t) (jobs d));
  execute (sweep_jobs (expired_cancel t organization_id workspace_id) (cancel_job_row t)) ;;
  for_each cancelled_rows (recover_cancelled t) ;;
  retried ← query (fun d =>
    count_where (expired_retryable t organization_id workspace_id) (jobs d));
  execute (sweep_jobs (expired_retryable t organization_id workspace_id) (retry_lease t)) ;;
  dead_rows ← query (fun d =>
    returning (expired_exhausted t organization_id workspace_id) (bury_lease t) (jobs d));
  execute (sweep_jobs (expired_exhausted t organization_id workspace_id) (bury_lease t)) ;;
  for_each dead_rows (fun row =>
    insert_or "ck_ai_dead_letter_attempts" (insert_lease_dead_letter row t)) ;;
  commit ;;
  mret (retried, Z.of_nat (length dead_rows)).

Definition past_deadline (t : Z) (organization_id workspace_id : option uuid) (j : job) : bool :=
  state_in [queued; retry_wait; leased] (j_state j) && null_le (j_deadline_at j) t
  && in_scope organization_id workspace_id j.

Definition expire_job (t : Z) (j : job) : job :=
  j <| j_state := expired |> <| j_lease_owner := None |> <| j_lease_expires_at := None |>
    <| j_failure_code := Some "deadline_expired" |> <| j_completed_at := Some t |>
    <| j_updated_at := t |>.

Definition expire_deadlines (organization_id workspace_id : option uuid) : M db Z :=
  t ← now;
  expired_count ← query (fun d =>
    count_where (past_deadline t organization_id workspace_id) (jobs d));
  execute (sweep_jobs (past_deadline t organization_id workspace_id) (expire_job t)) ;;
  commit ;;
  mret expired_count.
