(* ===== verification/AiOrchestration.v ===== *)
(** * Command orchestration ([src/app/core/ai_orchestration.py])

    Submission with idempotency and quotas, status, results with approvals,
    cancellation and decisions, over the same tables as [AiJobs]. *)

From S2P Require Import Prelude PyText PyTime Sha256 Txn AiContracts AiTables AiJobs.
Local Open Scope string_scope.
Local Open Scope Z_scope.

(** [_json]: [json.dumps(value, sort_keys=True, separators=(",", ":"))] *)
Definition _json (value : json) : string := json_dumps json_canonical value.

(** ** Events *)

Definition next_sequence (job_id : uuid) (d : db) : Z :=
  foldr Z.max 0 ((fun ke => if bool_decide (ke.1.1 = job_id) then ke.1.2 else 0)
                   <$> map_to_list (events d)) + 1.

Definition _event (job_id tenant_id workspace_id : uuid) (event_type : string) (state : job_state)
    (correlation_id : string) (details : list (string * json)) : M db unit :=
  sequence ← query (next_sequence job_id);
  _ ← uuid4;
  insert_or "ai_job_events_job_id_sequence_key" (fun d =>
    m ← insert_new (job_id, sequence)
          (mkEvent tenant_id workspace_id event_type state (JObj details) correlation_id)
          (events d);
    Some (d <| events := m |>)).

(** ** Submission *)

Definition in_tenant (tenant_id workspace_id : uuid) (j : job) : bool :=
  bool_decide (j_organization_id j = tenant_id) && bool_decide (j_workspace_id j = workspace_id).

Definition queued_count (tenant_id workspace_id : uuid) (d : db) : Z :=
  count_where (fun j => in_tenant tenant_id workspace_id j
                        && state_in [queued; available; retry_wait; approval_required] (j_state j))
    (jobs d).

Definition active_count (d : db) : Z :=
  count_where (fun j => state_in [queued; available; leased; running; retry_wait] (j_state j))
    (jobs d).

Definition sum_Z (l : list Z) : Z := foldr Z.add 0 l.

Definition used_tokens (tenant_id workspace_id : uuid) (today : Z) (d : db) : Z :=
  sum_Z (us_tokens <$> select_where (fun u => bool_decide (us_organization_id u = tenant_id)
                                   && bool_decide (us_workspace_id u = workspace_id)
                                   && (us_usage_date u =? today)) (usage d)).

(** The row of [INSERT INTO ai_generation_jobs] in [submit]. *)
Definition command_job `{Pydantic} (command : AICommand) (workspace_id : uuid) (hash : string)
    (t : Z) : job :=
  {| j_id := command_id command;
     j_conversation_id := None;
     j_request_message_id := None;
     j_organization_id := tenant_id command;
     j_workspace_id := workspace_id;
     j_requested_by := actor_id command;
     j_task_type := command_type_value (command_type command);
     j_project_key := None;
     j_state := queued;
     j_idempotency_key := idempotency_key command;
     j_request_sha256 := hash;
     j_attempt_count := 0;
     j_max_attempts := retry_count (resource_limits command) + 1;
     j_fencing_token := 0;
     j_lease_owner := None;
     j_lease_expires_at := None;
     j_next_attempt_at := t;
     j_cancel_requested_at := None;
     j_completed_at := None;
     j_failure_code := None;
     j_output_bytes := 0;
     j_created_at := t;
     j_updated_at := t;
     j_command_type := Some (command_type_value (command_type command));
     j_schema_version := schema_version command;
     j_actor_id := Some (actor_id command);
     j_actor_type := Some (actor_type command);
     j_correlation_id := Some (correlation_id command);
     j_priority := priority command;
     j_deadline_at := Some (instant (deadline_at command));
     j_command_payload := Some (model_dump command);
     j_model_profile := Some (profile (model_policy command));
     j_resource_limits := dump_resource_limits (resource_limits command);
     j_data_classification := data_classification command;
     j_approval_policy := dump_approval_policy (approval_policy command);
     j_callback_policy := dump_callback_policy (callback_policy command);
     j_command_metadata := JObj ((fun kv => (kv.1, JStr kv.2)) <$> metadata command);
     j_version := 1 |}.

Record submission := mkSubmission {
  sb_command_id : uuid;
  sb_status : string;
  sb_idempotent_replay : bool;
}.

(** The quota gates, in the order of the code. *)
Definition quota_gates `{Pydantic} (cfg : settings) (command : AICommand) (workspace_id : uuid)
    (today : Z) : M db unit :=
  let tenant := tenant_id command in
  tenant_quota ← query (fun d => quotas d !! (tenant, workspace_id));
  let max_queued := from_option qt_max_queued (ai_default_max_queued_per_tenant cfg) tenant_quota in
  waiting ← query (queued_count tenant workspace_id);
  guard_or (waiting <? max_queued) (OverflowError "tenant_queue_quota_exceeded") ;;
  guard_or (from_option (fun q => byte_len (_json (model_dump command)) <=? qt_max_payload_bytes q)
              true tenant_quota) (OverflowError "tenant_payload_quota_exceeded") ;;
  used ← query (used_tokens tenant workspace_id today);
  let daily := from_option qt_daily_tokens (ai_daily_token_quota cfg) tenant_quota in
  guard_or (used + token_budget (resource_limits command) <=? daily)
    (OverflowError "daily_token_quota_exceeded") ;;
  if 0 <? ai_global_emergency_limit cfg then
    active ← query active_count;
    guard_or (active <? ai_global_emergency_limit cfg) (OverflowError "global_emergency_limit")
  else mret tt.

(** [today] is the reading of [date.today()], a day number. *)
Definition submit `{Pydantic} (cfg : settings) (command : AICommand) (workspace_id : uuid)
    (today : Z) : M db submission :=
  let hash := sha256_hex (_json (model_dump command)) in
  existing ← query (find_by_key (tenant_id command) workspace_id (idempotency_key command));
  match existing with
  | Some row =>
      guard_or (bool_decide (j_request_sha256 row = hash)) (ValueError "idempotency_conflict") ;;
      mret (mkSubmission (j_id row) (PUBLIC_STATES (j_state row)) true)
  | None =>
      taken ← query (fun d => jobs d !! command_id command);
      guard_or (is_null taken) (ValueError "command_id_conflict") ;;
      quota_gates cfg command workspace_id today ;;
      t ← now;
      insert_or "ai_generation_jobs" (insert_job (command_job command workspace_id hash t)) ;;
      _event (command_id command) (tenant_id command) workspace_id "command.submitted" queued
        (correlation_id command) [] ;;
      commit ;;
      mret (mkSubmission (command_id command) "PENDING" false)
  end.

(** ** Reading *)

Definition get (job_id tenant_id workspace_id : uuid) : M db (job * string) :=
  row ← query (owned_job job_id tenant_id workspace_id);
  match row with
  | Some j => mret (j, PUBLIC_STATES (j_state j))
  | None => raise (LookupError "command_not_found")
  end.

Definition result (job_id tenant_id workspace_id : uuid) : M db result_row :=
  row ← query (fun d =>
    r ← results d !! job_id;
    if (bool_decide (rs_organization_id r = tenant_id)
        && bool_decide (rs_workspace_id r = workspace_id))%bool then Some r else None);
  match row with
  | Some r => mret r
  | None => get job_id tenant_id workspace_id ;; raise (LookupError "result_not_ready")
  end.

(** ** Cancellation and decisions *)

Definition waiting_states : list job_state := [queued; available; retry_wait; approval_required].
Definition closed_states : list job_state :=
  [completed; failed; cancelled; expired; dead_letter; rejected].

Definition request_cancel (t : Z) (j : job) : job :=
  let waiting := state_in waiting_states (j_state j) in
  j <| j_cancel_requested_at ::= fun c => Some (coalesce c t) |>
    <| j_state := if waiting then cancelled else cancel_requested |>
    <| j_completed_at ::= fun c => if waiting then Some t else c |>
    <| j_updated_at := t |>
    <| j_version ::= Z.succ |>.

Definition cancel (job_id tenant_id workspace_id : uuid) (actor_id correlation_id : string) :
    M db string :=
  t ← now;
  row ← query (owned_job job_id tenant_id workspace_id);
  match row with
  | Some j =>
      guard_or (negb (state_in closed_states (j_state j)))
        (LookupError "active_command_not_found") ;;
      execute (update_job job_id (request_cancel t)) ;;
      let state := j_state (request_cancel t j) in
      _event job_id tenant_id workspace_id "command.cancellation_requested" state
        correlation_id [] ;;
      commit ;;
      mret (PUBLIC_STATES state)
  | None => raise (LookupError "active_command_not_found")
  end.

Definition decide_approval (verdict : approval_state) (actor reason : string) (t : Z)
    (a : approval) : approval :=
  a <| ap_state := verdict |>
    <| ap_decided_by_fingerprint := Some actor |>
    <| ap_decision_reason := Some reason |>
    <| ap_decided_at := Some t |>
    <| ap_updated_at := t |>.

Definition pending_approval (tenant_id workspace_id : uuid) (a : approval) : bool :=
  bool_decide (ap_organization_id a = tenant_id)
  && bool_decide (ap_workspace_id a = workspace_id)
  && bool_decide (ap_state a = ap_pending).

Definition set_decided (state : job_state) (t : Z) (j : job) : job :=
  j <| j_state := state |> <| j_updated_at := t |> <| j_version ::= Z.succ |>.

Definition decide_command (job_id tenant_id workspace_id : uuid) (actor_id correlation_id : string)
    (is_approved : bool) (reason : string) : M db string :=
  let state := if is_approved then approved else rejected in
  let verdict := if is_approved then ap_approved else ap_rejected in
  t ← now;
  row ← query (fun d => approvals d !! job_id);
  guard_or (from_option (pending_approval tenant_id workspace_id) false row)
    (LookupError "pending_approval_not_found") ;;
  execute (fun d => d <| approvals ::=
    alter (decide_approval verdict (sha256_hex actor_id) reason t) job_id |>) ;;
  execute (update_job job_id (set_decided state t)) ;;
  _event job_id tenant_id workspace_id ("approval." +:+ state_text state) state correlation_id
    [("reason_present", JBool (negb (bool_decide (reason = ""))))] ;;
  commit ;;
  mret (PUBLIC_STATES state).

(** ** Storing a result *)

(** What [store_result] reads of its [job] argument, a row or a claim view. *)
Record result_job := mkResultJob {
  rj_id : uuid;
  rj_organization_id : uuid;
  rj_workspace_id : uuid;
  rj_model_profile : option string;
  rj_approval_policy : json;
  rj_command_type : option string;
  rj_actor_id : option string;
}.
Definition result_job_of_row (j : job) : result_job :=
  mkResultJob (j_id j) (j_organization_id j) (j_workspace_id j) (j_model_profile j)
    (j_approval_policy j) (j_command_type j) (j_actor_id j).
Definition result_job_of_claim (c : claim_view) : result_job :=
  mkResultJob (cl_id c) (cl_organization_id c) (cl_workspace_id c) (cl_model_profile c)
    (cl_approval_policy c) (cl_command_type c) None.

Definition requires_approval (j : result_job) : bool :=
  match json_get "required" (rj_approval_policy j) with
  | Some v => json_truthy v
  | None => false
  end.

Definition proposal_of (r : AIResult) : json :=
  JObj [("output", JObj (output r)); ("structured_artifacts", JList (structured_artifacts r))].

Definition store_result (j : result_job) (r : AIResult) : M db job_state :=
  let output_hash := sha256_hex (_json (JObj (output r))) in
  execute (fun d => d <| results ::= insert_if_absent (rj_id j)
    (mkResultRow (rj_organization_id j) (rj_workspace_id j) r output_hash) |>) ;;
  let total_tokens := sum_Z ((token_usage r).*2) in
  _ ← uuid4;
  t ← now;
  insert_or "ai_usage_ledger.model_profile" (fun d =>
    p ← rj_model_profile j;
    Some (d <| usage ::= insert_if_absent (rj_id j)
      (mkUsage (rj_organization_id j) (rj_workspace_id j) (t / day) total_tokens
         (Z.max 1 (latency_ms r / 1000)) p t) |>)) ;;
  if requires_approval j then
    let proposal := proposal_of r in
    approval_id ← uuid4;
    insert_or "ai_job_approvals.action_type" (fun d =>
      action ← rj_command_type j;
      Some (d <| approvals ::= insert_if_absent (rj_id j)
        (mkApproval approval_id (rj_organization_id j) (rj_workspace_id j) action proposal
           (sha256_hex (_json proposal)) ap_pending (py_or (rj_actor_id j) "system") None None
           t None) |>)) ;;
    mret approval_required
  else mret completed.
