(* ===== verification/AiApi.v ===== *)
(** * The HTTP surfaces of the AI job platform

    [src/app/api/internal/ai_jobs.py] (the worker's polling contract, after
    authentication), [src/app/api/v1/ai_console.py] (browser) and
    [src/app/api/v1/ai_commands.py] (commands).  A handler runs in the session
    of its request; what it raises is the response. *)

From Stdlib Require Import Ascii.
From S2P Require Import Prelude PyText PyTime Sha256 Txn AiContracts AiTables AiJobs AiOrchestration.
Local Open Scope string_scope.
Local Open Scope Z_scope.

(** ** The worker API *)

Record WorkerPrincipal := mkPrincipal {
  wp_service_id : string;
  wp_worker_id : string;
  wp_tenant_id : uuid;
  wp_workspace_id : uuid;
  wp_correlation_id : string;
}.

Definition authentication_denied : exn := HTTPException 401 "authentication denied".

Definition same_worker (body_worker_id : string) (principal : WorkerPrincipal) : M db unit :=
  guard_or (bool_decide (body_worker_id = wp_worker_id principal)) authentication_denied.

(** [except PermissionError as exc: raise HTTPException(409, str(exc))] *)
Definition permission_409 {A} (m : M db A) : M db A :=
  try_except m (fun e =>
    match e with PermissionError msg => raise (HTTPException 409 msg) | _ => raise e end).

Definition claim_job (cfg : settings) (principal : WorkerPrincipal) (body_worker_id : string)
    (allowed_model_profiles : option (list string)) : M db (option claim_view) :=
  guard_or (ai_worker_claims_enabled cfg) (HTTPException 503 "AI worker claims are disabled") ;;
  expire_deadlines (Some (wp_tenant_id principal)) (Some (wp_workspace_id principal)) ;;
  recover_expired (Some (wp_tenant_id principal)) (Some (wp_workspace_id principal)) ;;
  same_worker body_worker_id principal ;;
  try_except
    (claim (wp_worker_id principal) (ai_job_lease_seconds cfg) (wp_correlation_id principal)
       (Some (wp_tenant_id principal)) (Some (wp_workspace_id principal))
       (Some (wp_service_id principal)) allowed_model_profiles)
    (fun e =>
       match e with
       | PermissionError msg => raise (HTTPException 403 msg)
       | OverflowError msg => raise (HTTPException 409 msg)
       | ValueError msg => raise (HTTPException 400 msg)
       | _ => raise e
       end).

Definition job_heartbeat (cfg : settings) (principal : WorkerPrincipal) (job_id : uuid)
    (body_worker_id : string) (fencing_token : Z) : M db Z :=
  permission_409
    (same_worker body_worker_id principal ;;
     heartbeat job_id body_worker_id fencing_token (ai_job_lease_seconds cfg)
       (wp_service_id principal) (ai_worker_certificate_serial cfg) (ai_worker_spiffe_id cfg)
       (Some (wp_tenant_id principal)) (Some (wp_workspace_id principal))).

(** The answer is the [duplicate] field. *)
Definition job_chunk (cfg : settings) (principal : WorkerPrincipal) (job_id : uuid)
    (body_worker_id : string) (fencing_token sequence : Z) (content : string) : M db bool :=
  inserted ← try_except
    (same_worker body_worker_id principal ;;
     append_chunk job_id body_worker_id fencing_token sequence content
       (ai_job_max_output_bytes cfg) (Some (wp_tenant_id principal))
       (Some (wp_workspace_id principal)))
    (fun e =>
       match e with
       | PermissionError msg => raise (HTTPException 409 msg)
       | OverflowError msg => raise (HTTPException 413 msg)
       | _ => raise e
       end);
  mret (negb inserted).

Definition _finish (principal : WorkerPrincipal) (job_id : uuid) (body_worker_id : string)
    (fencing_token : Z) (is_failed : bool) (error_code : option string) (retryable : bool)
    (request_id : string) (safe_error_details : list (string * json)) : M db job_state :=
  permission_409
    (same_worker body_worker_id principal ;;
     finish job_id body_worker_id fencing_token is_failed error_code retryable request_id
       completed safe_error_details (Some (wp_tenant_id principal))
       (Some (wp_workspace_id principal))).

Definition fail_job (principal : WorkerPrincipal) (job_id : uuid) (body_worker_id : string)
    (fencing_token : Z) (error_code : string) (retryable : bool)
    (safe_error_details : list (string * json)) : M db job_state :=
  _finish principal job_id body_worker_id fencing_token true (Some error_code) retryable
    (wp_correlation_id principal) safe_error_details.

Definition release_job (principal : WorkerPrincipal) (job_id : uuid) (body_worker_id : string)
    (fencing_token : Z) : M db job_state :=
  _finish principal job_id body_worker_id fencing_token true (Some "worker_released") true
    (wp_correlation_id principal) [].

(** The answer is the state and the [duplicate] field. *)
Definition complete_job (principal : WorkerPrincipal) (job_id : uuid) (body_worker_id : string)
    (fencing_token : Z) (body_result : option AIResult) : M db (job_state * bool) :=
  same_worker body_worker_id principal ;;
  duplicate ← permission_409
    (completed_result_status job_id (wp_tenant_id principal) (wp_workspace_id principal)
       body_result);
  match duplicate with
  | Some state => mret (state, true)
  | None =>
      completion_state ←
        match body_result with
        | None => mret completed
        | Some r =>
            guard_or (bool_decide (res_job_id r = job_id) && bool_decide (res_command_id r = job_id))
              (HTTPException 409 "result reference mismatch") ;;
            row ← permission_409
              (assert_lease job_id body_worker_id fencing_token (Some (wp_tenant_id principal))
                 (Some (wp_workspace_id principal)) false);
            store_result (result_job_of_row row) r
        end;
      state ← permission_409
        (finish job_id body_worker_id fencing_token false None false
           (wp_correlation_id principal) completion_state []
           (Some (wp_tenant_id principal)) (Some (wp_workspace_id principal)));
      mret (state, false)
  end.

Definition get_job (principal : WorkerPrincipal) (job_id : uuid) : M db job :=
  try_except (get_worker_job job_id (wp_tenant_id principal) (wp_workspace_id principal))
    (fun e => match e with
              | LookupError _ => raise (HTTPException 404 "job not found")
              | _ => raise e
              end).

Definition cancel_job (principal : WorkerPrincipal) (job_id : uuid) (body_worker_id : string)
    (fencing_token : Z) : M db (bool * job_state) :=
  same_worker body_worker_id principal ;;
  permission_409
    (worker_cancel job_id (wp_worker_id principal) fencing_token (wp_tenant_id principal)
       (wp_workspace_id principal) (wp_correlation_id principal)).

Definition dead_letters_page (principal : WorkerPrincipal) : M db (list dead_letter_row) :=
  list_dead_letters (wp_tenant_id principal) (wp_workspace_id principal).

Definition retry_dead_letter_job (principal : WorkerPrincipal) (job_id approval_id : uuid) :
    M db job_state :=
  try_except
    (retry_dead_letter job_id approval_id (wp_tenant_id principal) (wp_workspace_id principal)
       (wp_worker_id principal) (wp_correlation_id principal))
    (fun e => match e with
              | LookupError msg | PermissionError msg => raise (HTTPException 409 msg)
              | _ => raise e
              end).

Definition cancellation_check (principal : WorkerPrincipal) (job_id : uuid)
    (body_worker_id : string) (fencing_token : Z) : M db bool :=
  permission_409
    (same_worker body_worker_id principal ;;
     row ← assert_lease job_id body_worker_id fencing_token (Some (wp_tenant_id principal))
             (Some (wp_workspace_id principal)) true;
     mret (negb (is_null (j_cancel_requested_at row)))).

Definition recover (principal : WorkerPrincipal) : M db (Z * Z) :=
  recover_expired (Some (wp_tenant_id principal)) (Some (wp_workspace_id principal)).

(** A registration is created disabled and a repeated one keeps its flag. *)
Definition register_worker (principal : WorkerPrincipal) (body_worker_id : string)
    (capabilities : json) (max_concurrency : Z) : M db string :=
  same_worker body_worker_id principal ;;
  let digest := sha256_hex (json_dumps json_canonical capabilities) in
  t ← now;
  execute (fun d => d <| registrations ::= fun m =>
    <[body_worker_id :=
        match m !! body_worker_id with
        | Some old =>
            old <| rg_service_id := wp_service_id principal |>
                <| rg_capability_digest := digest |>
                <| rg_capabilities := capabilities |>
                <| rg_max_concurrency := max_concurrency |>
                <| rg_updated_at := t |>
                <| rg_version ::= Z.succ |>
        | None =>
            mkRegistration (wp_service_id principal) digest capabilities max_concurrency false t 1
        end]> m |>) ;;
  commit ;;
  mret digest.

Definition worker_heartbeat_api (cfg : settings) (principal : WorkerPrincipal)
    (body_worker_id : string) (current_job_id : option uuid) : M db bool :=
  same_worker body_worker_id principal ;;
  t ← now;
  execute (upsert_heartbeat body_worker_id (wp_service_id principal)
             (ai_worker_certificate_serial cfg) (ai_worker_spiffe_id cfg) t current_job_id) ;;
  commit ;;
  mret (ai_worker_claims_enabled cfg).

(** ** The browser console *)

Record Tenant := mkTenant {
  tn_organization_id : uuid;
  tn_workspace_id : uuid;
  tn_user_id : string;
  tn_roles : list string;
}.

Definition has_role (subject : Tenant) (roles : list string) : bool :=
  existsb (fun r => str_in r roles) (tn_roles subject).

Definition require_ai_submissions_available (cfg : settings) : M db unit :=
  guard_or (ai_submissions_enabled cfg) (HTTPException 503 "AI_TEMPORARILY_UNAVAILABLE").

Definition console_create_conversation (cfg : settings) (subject : Tenant)
    (title correlation_id : string) : M db (uuid * string) :=
  require_ai_submissions_available cfg ;;
  create_conversation (tn_organization_id subject) (tn_workspace_id subject)
    (tn_user_id subject) title correlation_id.

Definition project_allowlist (cfg : settings) : list string :=
  List.filter (fun s => negb (bool_decide (s = "")))
    (strip <$> split_comma (ai_job_project_allowlist cfg)).

Definition project_approved (cfg : settings) (project_key : option string) : bool :=
  match project_key with
  | Some k => negb (bool_decide (k = "")) && str_in k (project_allowlist cfg)
  | None => false
  end.

Definition create_message `{Pydantic} (cfg : settings) (subject : Tenant) (conversation_id : uuid)
    (content task_type : string) (project_key : option string)
    (idempotency_key correlation_id : string) (now_utc : Z) : M db message_job :=
  require_ai_submissions_available cfg ;;
  guard_or (byte_len content <=? ai_job_max_context_bytes cfg)
    (HTTPException 413 "context limit exceeded") ;;
  guard_or (negb (bool_decide (task_type = "coding"))
            || has_role subject ["codestra_ai_developer"; "codestra_admin"])
    (HTTPException 403 "coding role required") ;;
  guard_or (negb (bool_decide (task_type = "coding")) || project_approved cfg project_key)
    (HTTPException 403 "project is not approved") ;;
  try_except
    (create_message_job conversation_id (tn_organization_id subject) (tn_workspace_id subject)
       (tn_user_id subject) content task_type project_key idempotency_key correlation_id
       (ai_job_max_attempts cfg) now_utc)
    (fun e =>
       match e with
       | LookupError _ => raise (HTTPException 404 "conversation not found")
       | ValueError msg =>
           if bool_decide (msg = "unsupported_browser_capability")
           then raise (HTTPException 422 "unsupported AI capability")
           else raise (HTTPException 409 "idempotency conflict")
       | _ => raise e
       end).

Definition browser_cancel (t : Z) (j : job) : job :=
  let waiting := state_in [queued; retry_wait] (j_state j) in
  j <| j_cancel_requested_at ::= fun c => Some (coalesce c t) |>
    <| j_state ::= fun s => if waiting then cancelled else s |>
    <| j_completed_at ::= fun c => if waiting then Some t else c |>
    <| j_updated_at := t |>.

Definition console_cancel (subject : Tenant) (job_id : uuid) (correlation_id : string) :
    M db job_state :=
  t ← now;
  row ← query (owned_job job_id (tn_organization_id subject) (tn_workspace_id subject));
  match row with
  | Some j =>
      guard_or (negb (state_in [completed; failed; cancelled; dead_letter] (j_state j)))
        (HTTPException 404 "active job not found") ;;
      execute (update_job job_id (browser_cancel t)) ;;
      audit "job.cancellation_requested" correlation_id (tn_user_id subject)
        (Some (tn_organization_id subject)) (Some (tn_workspace_id subject)) (Some job_id) [] ;;
      commit ;;
      mret (j_state (browser_cancel t j))
  | None => raise (HTTPException 404 "active job not found")
  end.

(** ** The command API *)

Definition submit_command `{Pydantic} (cfg : settings) (subject : Tenant) (command : AICommand)
    (today : Z) : M db submission :=
  guard_or (ai_submissions_enabled cfg && ai_orchestration_enabled cfg)
    (HTTPException 503 "AI_TEMPORARILY_UNAVAILABLE") ;;
  guard_or (bool_decide (tenant_id command = tn_organization_id subject)
            && bool_decide (actor_id command = tn_user_id subject))
    (HTTPException 403 "tenant or actor mismatch") ;;
  try_except (submit cfg command (tn_workspace_id subject) today)
    (fun e =>
       match e with
       | ValueError msg => raise (HTTPException 409 msg)
       | OverflowError msg => raise (HTTPException 429 msg)
       | _ => raise e
       end).

Definition lookup_404 {A} (detail : string) (m : M db A) : M db A :=
  try_except m (fun e =>
    match e with LookupError _ => raise (HTTPException 404 detail) | _ => raise e end).

Definition get_command (subject : Tenant) (command_id : uuid) : M db (job * string) :=
  lookup_404 "command not found"
    (get command_id (tn_organization_id subject) (tn_workspace_id subject)).

Definition cancel_command (subject : Tenant) (command_id : uuid) (correlation_id : string) :
    M db string :=
  lookup_404 "active command not found"
    (cancel command_id (tn_organization_id subject) (tn_workspace_id subject)
       (tn_user_id subject) correlation_id).

Definition get_result (subject : Tenant) (command_id : uuid) : M db result_row :=
  try_except (result command_id (tn_organization_id subject) (tn_workspace_id subject))
    (fun e =>
       match e with
       | LookupError msg =>
           if bool_decide (msg = "result_not_ready")
           then raise (HTTPException 409 "result not ready")
           else raise (HTTPException 404 "command not found")
       | _ => raise e
       end).

Definition _decision (subject : Tenant) (command_id : uuid) (correlation_id : string)
    (is_approved : bool) (reason : string) : M db string :=
  guard_or (has_role subject ["codestra_ai_approver"; "codestra_admin"])
    (HTTPException 403 "approver role required") ;;
  lookup_404 "pending approval not found"
    (decide_command command_id (tn_organization_id subject) (tn_workspace_id subject)
       (tn_user_id subject) correlation_id is_approved reason).
