(* ===== verification/AiProvider.v ===== *)
(** * The provider boundary ([src/app/core/ai_provider.py])

    What leaves the platform towards an inference provider, and what comes
    back: the redaction of the prompt, the caller's pseudonym, the request and
    event types, and the metadata of a provider error that may be stored.  The
    circuit breaker of the module is in [Delivery].

    The three patterns of [REDACTIONS] are matchers: given the character
    before a position and the text from there on, a matcher gives the length
    that [re] would match, by the pattern's own greedy search with its
    backtracking.  The text is the output of [json.dumps], which is ASCII;
    [\w], [\s] and the letter case are those of ASCII. *)

From Stdlib Require Import Ascii.
From S2P Require Import Prelude PyText Sha256 Txn.
Local Open Scope string_scope.
Local Open Scope nat_scope.

(** ** Pieces of a regular expression *)

Definition is_word (c : ascii) : bool := (is_alnum c || Ascii.eqb c "_")%bool.
Definition re_space (c : ascii) : bool := (is_space c || in_range c 28 31)%bool.

Definition starts_with_word (s : string) : bool :=
  match s with String c _ => is_word c | EmptyString => false end.

(** [\b] between the character before and the text that follows. *)
Definition boundary (prev : option ascii) (s : string) : bool :=
  xorb (from_option is_word false prev) (starts_with_word s).

Fixpoint str_drop (n : nat) (s : string) : string :=
  match n, s with
  | S m, String _ s' => str_drop m s'
  | _, _ => s
  end.

(** The character before position [n]. *)
Fixpoint before (n : nat) (prev : option ascii) (s : string) : option ascii :=
  match n, s with
  | S m, String c s' => before m (Some c) s'
  | _, _ => prev
  end.

(** The length of the longest run of a class. *)
Fixpoint run_length (p : ascii -> bool) (s : string) : nat :=
  match s with
  | String c s' => if p c then S (run_length p s') else O
  | EmptyString => O
  end.

(** Backtracking: the longest of the lengths [lo .. lo + extra] that lets the
    rest of the pattern match. *)
Fixpoint longest (p : nat -> bool) (lo extra : nat) : option nat :=
  if p (lo + extra) then Some (lo + extra)
  else match extra with S e => longest p lo e | O => None end.

(** A literal, also in any letter case. *)
Fixpoint literal (lit s : string) : bool :=
  match lit, s with
  | EmptyString, _ => true
  | String a lit', String c s' => (Ascii.eqb a c && literal lit' s')%bool
  | _, EmptyString => false
  end.
Fixpoint literal_any_case (lit s : string) : bool :=
  match lit, s with
  | EmptyString, _ => true
  | String a lit', String c s' => (Ascii.eqb a (lower_char c) && literal_any_case lit' s')%bool
  | _, EmptyString => false
  end.

(** ** [REDACTIONS] *)

Definition matcher := option ascii -> string -> option nat.

(** [\bsk-[A-Za-z0-9_-]{12,}\b] *)
Definition key_char (c : ascii) : bool := (is_word c || Ascii.eqb c "-")%bool.
Definition api_key : matcher := fun prev s =>
  if (boundary prev s && literal "sk-" s)%bool then
    let n := run_length key_char (str_drop 3 s) in
    if 12 <=? n then
      longest (fun k => boundary (before k prev s) (str_drop k s)) 15 (n - 12)
    else None
  else None.

(** [(?i)\b(bearer|password|api[_-]?key|token)\s*[:=]\s*\S+] *)
Definition secret_labels : list string :=
  ["bearer"; "password"; "api_key"; "api-key"; "apikey"; "token"].
Definition label_length (s : string) : option nat :=
  String.length <$> List.find (fun w => literal_any_case w s) secret_labels.
Definition labelled_secret : matcher := fun prev s =>
  if boundary prev s then
    match label_length s with
    | Some k =>
        let s1 := str_drop k s in
        let a := run_length re_space s1 in
        match str_drop a s1 with
        | String c s2 =>
            if char_in c ":=" then
              let b := run_length re_space s2 in
              let v := run_length (fun c => negb (re_space c)) (str_drop b s2) in
              if 1 <=? v then Some (k + a + 1 + b + v) else None
            else None
        | EmptyString => None
        end
    | None => None
    end
  else None.

(** [-----BEGIN [A-Z ]*PRIVATE KEY-----] *)
Definition pem_char (c : ascii) : bool := (is_upper c || Ascii.eqb c " ")%bool.
Definition private_key : matcher := fun _ s =>
  if literal "-----BEGIN " s then
    let s1 := str_drop 11 s in
    (fun k => 11 + k + 16)
      <$> longest (fun k => literal "PRIVATE KEY-----" (str_drop k s1)) 0 (run_length pem_char s1)
  else None.

(** [pattern.sub("[REDACTED]", s)]: left to right, without overlaps.  [skip]
    counts the characters of a match that are still to be dropped. *)
Definition REDACTED : string := "[REDACTED]".
Fixpoint re_sub (m : matcher) (skip : nat) (prev : option ascii) (s : string) : string :=
  match s with
  | EmptyString => EmptyString
  | String c s' =>
      match skip with
      | S k => re_sub m k (Some c) s'
      | O =>
          match m prev s with
          | Some (S n) => REDACTED +:+ re_sub m n (Some c) s'
          | _ => String c (re_sub m 0 (Some c) s')
          end
      end
  end.

Definition REDACTIONS : list matcher := [api_key; labelled_secret; private_key].

Definition redact_provider_input (value : string) : string :=
  fold_left (fun redacted pattern => re_sub pattern 0 None redacted) REDACTIONS value.

(** ** Requests, events and errors *)

(** The salt is a byte string. *)
Definition safety_identifier (actor_id : string) (salt : list N) : exn + string :=
  if length salt <? 32 then inl (ValueError "safety identifier salt is too short")
  else inr (hmac_hex salt actor_id).

Record ProviderRequest := mkProviderRequest {
  pr_model : string;
  pr_reasoning_effort : string;
  pr_input_text : string;
  pr_safety_identifier : string;
  pr_max_output_tokens : Z;
}.

Inductive event_kind := ev_delta | ev_completed.
Record ProviderEvent := mkProviderEvent {
  pe_kind : event_kind;
  pe_delta : string;
  pe_input_tokens : Z;
  pe_output_tokens : Z;
}.

(** [AIProviderError(code)] with the defaults of its constructor. *)
Definition provider_error (code : string) : exn := AIProviderError code false None None None.

(** [AIProviderError.safe_details] *)
Definition safe_details (http_status : option Z) (provider_error_code request_id : option string) :
    list (string * json) :=
  app [("component", JStr "openai-responses")]
    (app match http_status with Some n => [("http_status", JInt n)] | None => [] end
      (app match provider_error_code with
           | Some c => [("provider_error_code", JStr c)] | None => [] end
         match request_id with Some i => [("provider_request_id", JStr i)] | None => [] end)).

(** ** What redaction guarantees *)

(** Some position of the text matches. *)
Fixpoint found (m : matcher) (prev : option ascii) (s : string) : bool :=
  match s with
  | EmptyString => false
  | String c s' => (negb (is_null (m prev s)) || found m (Some c) s')%bool
  end.

(** What [re_sub] copies: a stretch of its output without an opening bracket
    is a stretch of its input. *)
Definition no_bracket : string -> bool := str_forall (fun c => negb (Ascii.eqb c "[")).

Lemma re_sub_copied m w : forall t prev s,
  re_sub m 0 prev s = w +:+ t -> no_bracket w = true ->
  exists t', s = w +:+ t' /\ t = re_sub m 0 (before (String.length w) prev s) t'.
Proof.
  induction w as [|c w IH]; intros t prev s E Hw; [by exists s|].
  destruct s as [|c' s]; [done|]. cbn in E, Hw. apply andb_true_iff in Hw as [Hc Hw].
  destruct (m prev (String c' s)) as [[|n]|] eqn:Em; injection E as Ec E.
  2:{ subst c. done. }
  all: subst c'; destruct (IH _ _ _ E Hw) as (t' & -> & ->); by exists t'.
Qed.

Lemma append_cons c a b : String c a +:+ b = String c (a +:+ b).
Proof. done. Qed.

Lemma str_app_assoc a b c : a +:+ b +:+ c = (a +:+ b) +:+ c.
Proof. induction a as [|d a IH]; [done|]. rewrite !append_cons. by rewrite IH. Qed.

Lemma str_drop_app a t : str_drop (String.length a) (a +:+ t) = t.
Proof. induction a as [|c a IH]; [by destruct t|]. exact IH. Qed.

Lemma run_length_app p a t :
  str_forall p a = true -> String.length a <= run_length p (a +:+ t).
Proof.
  induction a as [|c a IH]; rewrite ?append_cons; cbn; [lia|]. intros [-> Ha]%andb_true_iff.
  specialize (IH Ha). lia.
Qed.

(** A text splits at the end of a run. *)
Lemma split_run p s n :
  n <= run_length p s ->
  exists a t, s = a +:+ t /\ String.length a = n /\ str_forall p a = true.
Proof.
  revert n. induction s as [|c s IH]; intros n Hn; cbn in Hn.
  - exists "", "". by destruct n; [|lia].
  - destruct n as [|n]; [by exists "", (String c s)|].
    destruct (p c) eqn:Hp; [|lia]. destruct (IH n ltac:(lia)) as (a & t & -> & <- & Ha).
    exists (String c a), t. cbn. by rewrite Hp, Ha.
Qed.

Lemma longest_some p lo extra k :
  longest p lo extra = Some k -> p k = true /\ lo <= k <= lo + extra.
Proof.
  induction extra as [|e IH]; cbn; case_match eqn:E; intros H; simplify_eq; [split; [done|lia]..|].
  destruct (IH H). split; [done|lia].
Qed.

Lemma longest_found p lo extra k :
  p k = true -> lo <= k <= lo + extra -> is_Some (longest p lo extra).
Proof.
  induction extra as [|e IH]; cbn; intros Hp Hk; case_match eqn:E; [done| |done|].
  - replace k with (lo + 0) in Hp by lia. congruence.
  - apply IH; [done|]. enough (k <> lo + S e) by lia. intros ->. congruence.
Qed.

Lemma literal_app lit s : literal lit s = true <-> exists t, s = lit +:+ t.
Proof.
  revert s. induction lit as [|a lit IH]; intros s; cbn; [split; eauto|].
  destruct s as [|c s]; [split; [done|by intros []]|]. rewrite andb_true_iff, IH, Ascii.eqb_eq.
  split; [intros [-> [t ->]]; eauto|]. intros [t [= -> ->]]. eauto.
Qed.

Lemma before_app a prev t t' :
  before (String.length a) prev (a +:+ t) = before (String.length a) prev (a +:+ t').
Proof. revert prev. induction a as [|c a IH]; intros prev; [by destruct t, t'|]. apply IH. Qed.

(** ** API keys *)

(** The shape of a match: [sk-], twelve more characters or more, and an end. *)
Record key_at (prev : option ascii) (w t : string) : Prop := KeyAt {
  ka_start : from_option is_word false prev = false;
  ka_head : literal "sk-" w = true;
  ka_length : 15 <= String.length w;
  ka_chars : str_forall key_char w = true;
  ka_end : boundary (before (String.length w) prev (w +:+ t)) t = true;
}.

Lemma api_key_shape prev s : is_Some (api_key prev s) <-> exists w t, s = w +:+ t /\ key_at prev w t.
Proof.
  unfold api_key. split.
  - intros [k Hk]. case_match eqn:E; [|done]. case_match eqn:E12; [|done].
    apply andb_true_iff in E as [Hb [t0 ->]%literal_app].
    apply longest_some in Hk as [Hend Hk]. apply Nat.leb_le in E12.
    change (str_drop 3 ("sk-" +:+ t0)) with t0 in *.
    destruct (split_run key_char t0 (k - 3)) as (a & t & -> & Hl & Ha); [lia|].
    exists ("sk-" +:+ a), t. split; [done|].
    assert (Hlen : String.length ("sk-" +:+ a) = k) by (rewrite string_length_app; cbn; lia).
    split; [| done | lia | done |].
    + unfold boundary in Hb. by destruct (from_option is_word false prev).
    + rewrite Hlen. change ("sk-" +:+ a +:+ t) with (("sk-" +:+ a) +:+ t) in Hend.
      rewrite <- Hlen, str_drop_app in Hend. by rewrite Hlen in Hend.
  - intros (w & t & -> & [Hs Hh Hl Hc He]). apply literal_app in Hh as [a ->].
    change (literal "sk-" (("sk-" +:+ a) +:+ t)) with true.
    change (str_drop 3 (("sk-" +:+ a) +:+ t)) with (a +:+ t).
    assert (boundary prev (("sk-" +:+ a) +:+ t) = true) as ->
      by (unfold boundary; by rewrite Hs). cbn [andb].
    change (str_forall key_char ("sk-" +:+ a)) with (str_forall key_char a) in Hc.
    pose proof (run_length_app key_char a t Hc) as Hr. rewrite string_length_app in Hl. cbn in Hl.
    rewrite (proj2 (Nat.leb_le _ _)) by lia.
    apply (longest_found _ _ _ (String.length ("sk-" +:+ a))); [|rewrite string_length_app; cbn; lia].
    by rewrite str_drop_app.
Qed.

Lemma key_char_no_bracket w : str_forall key_char w = true -> no_bracket w = true.
Proof.
  apply str_forall_impl. intros c Hc. destruct (Ascii.eqb_spec c "["); [by subst|done].
Qed.

(** A pattern that neither cuts a word in front of it nor one behind it. *)
Record gentle (m : matcher) : Prop := Gentle {
  ge_front : forall p t n, m p t = Some (S n) ->
    starts_with_word t = true -> from_option is_word false p = false;
  ge_back : forall p t n, m p t = Some (S n) ->
    from_option is_word false (before (S n) p t) = true ->
    starts_with_word (str_drop (S n) t) = false;
}.

(** Every key of the text is a match of [m]. *)
Fixpoint covers (m : matcher) (prev : option ascii) (s : string) : Prop :=
  match s with
  | EmptyString => True
  | String c s' =>
      (is_Some (api_key prev s) -> exists n, m prev s = Some (S n)) /\ covers m (Some c) s'
  end.

(** A pattern that starts with a literal other than the first character. *)
Lemma found_redacted m p s :
  (forall p c s', char_in c REDACTED = true -> m p (String c s') = None) ->
  found m p (REDACTED +:+ s) = found m (Some "]"%char) s.
Proof.
  intros Hm.
  assert (H : forall w p, str_forall (fun c => char_in c REDACTED) w = true ->
    found m p (w +:+ s) = found m (before (String.length w) p w) s).
  { induction w as [|c w IH]; intros q Hw; [done|]. apply andb_true_iff in Hw as [Hc Hw].
    rewrite append_cons. cbn [found]. rewrite Hm by done. by rewrite (IH _ Hw). }
  by rewrite H.
Qed.

Lemma redacted_no_key p c s : char_in c REDACTED = true -> api_key p (String c s) = None.
Proof.
  intros Hc. unfold api_key. destruct (literal "sk-" (String c s)) eqn:E; [|by rewrite andb_false_r].
  apply literal_app in E as [t [= -> _]]. done.
Qed.

(** The text at a copied character has no key, if the input has none there
    and the characters before agree on being part of a word. *)
Lemma copied_key m p prev s :
  gentle m -> (is_Some (api_key prev s) -> False) ->
  (from_option is_word false p = false -> starts_with_word s = true ->
   from_option is_word false prev = false) ->
  api_key p (re_sub m 0 prev s) = None.
Proof.
  intros [Hf _] Hno Hp. apply eq_None_not_Some. intros Hs.
  apply api_key_shape in Hs as (w & t & E & [Hs Hh Hl Hc He]).
  destruct (re_sub_copied _ _ _ _ _ E (key_char_no_bracket _ Hc)) as (t' & -> & ->).
  apply Hno, api_key_shape. exists w, t'. split; [done|].
  assert (Hstart : starts_with_word (w +:+ t') = true).
  { apply literal_app in Hh as [a ->]. done. }
  split; [by apply Hp|done..|].
  assert (Hw : exists c w', w = String c w').
  { destruct w; [done|eauto]. }
  destruct Hw as (c & w' & ->).
  change (before (String.length (String c w')) p (String c w' +:+ ?x))
    with (before (String.length (String c w')) prev (String c w' +:+ x)) in He.
  rewrite (before_app _ _ _ t') in He.
  set (l := before (String.length (String c w')) prev (String c w' +:+ t')) in *.
  destruct t' as [|d t']; [done|]. cbn [re_sub] in He.
  destruct (m l (String d t')) as [[|n]|] eqn:Em; [done| |done].
  pose proof (Hf _ _ _ Em) as Hl'. unfold boundary in *. cbn in He, Hl' |- *.
  destruct (is_word d); [|by destruct (from_option is_word false l)].
  rewrite Hl' in He by done. done.
Qed.

Lemma re_sub_no_key m s : gentle m -> forall skip prev p,
  covers m prev s ->
  (skip = 0 /\ p = prev)
  \/ (p = Some "]"%char /\ (from_option is_word false (before skip prev s) = true ->
                            starts_with_word (str_drop skip s) = false)) ->
  found api_key p (re_sub m skip prev s) = false.
Proof.
  intros Hg. induction s as [|c s IH]; intros skip prev p Hcov Hp; [done|].
  destruct Hcov as [Hhere Hcov]. destruct skip as [|k].
  2:{ destruct Hp as [[? _]|[-> Hp]]; [done|]. apply IH; [done|]. by right. }
  cbn [re_sub]. destruct (m prev (String c s)) as [[|n]|] eqn:Em.
  2:{ rewrite (found_redacted _ _ _ redacted_no_key). apply IH; [done|]. right. split; [done|].
      exact (ge_back _ Hg _ _ _ Em). }
  all: assert (E : re_sub m 0 prev (String c s) = String c (re_sub m 0 (Some c) s))
    by (cbn [re_sub]; by rewrite Em); rewrite <- E.
  all: assert (Hk : api_key p (re_sub m 0 prev (String c s)) = None)
    by (apply copied_key; [done|intros Hs; by destruct (Hhere Hs)|];
        destruct Hp as [[_ ->]|[-> Hp]]; [done|]; cbn in Hp |- *;
        destruct (from_option is_word false prev); [|done]; intros _ ?; by rewrite Hp in *).
  all: rewrite E in Hk |- *; cbn [found]; rewrite Hk; cbn; apply IH; [done|by left].
Qed.

Lemma str_drop_nil n : str_drop n EmptyString = EmptyString.
Proof. by destruct n. Qed.

Lemma str_drop_add i j s : str_drop (i + j) s = str_drop j (str_drop i s).
Proof.
  revert s. induction i as [|i IH]; intros s; [done|].
  destruct s; cbn; [by rewrite !str_drop_nil|apply IH].
Qed.

Lemma before_nil n p : before n p EmptyString = p.
Proof. by destruct n. Qed.

Lemma before_add i j p s : before (i + j) p s = before j (before i p s) (str_drop i s).
Proof.
  revert p s. induction i as [|i IH]; intros p s; [done|].
  destruct s; cbn; [by rewrite !before_nil|apply IH].
Qed.

(** A greedy run of characters that are no white space ends no word early. *)
Lemma run_stops s :
  starts_with_word (str_drop (run_length (fun c => negb (re_space c)) s) s) = false.
Proof.
  induction s as [|c s IH]; cbn; [done|]. destruct (re_space c) eqn:E; cbn; [|exact IH].
  destruct c as [[] [] [] [] [] [] [] []]; first [reflexivity|discriminate E].
Qed.

Lemma boundary_front p t :
  boundary p t = true -> starts_with_word t = true -> from_option is_word false p = false.
Proof. unfold boundary. intros Hb Ht. rewrite Ht in Hb. by destruct (from_option is_word false p). Qed.

Lemma boundary_back p t :
  boundary p t = true -> from_option is_word false p = true -> starts_with_word t = false.
Proof. unfold boundary. intros Hb Hp. rewrite Hp in Hb. by destruct (starts_with_word t). Qed.

Lemma api_key_gentle : gentle api_key.
Proof.
  split; intros p t n; unfold api_key; repeat (case_match; [|done]); intros E.
  - bool_to_prop. by apply boundary_front.
  - apply longest_some in E as [E _]. by apply boundary_back.
Qed.

Lemma labelled_secret_gentle : gentle labelled_secret.
Proof.
  split; intros p t n; unfold labelled_secret; destruct (boundary p t) eqn:Eb; try done.
  - intros _. by apply boundary_front.
  - case_match; [|done]. case_match eqn:Ec; [done|]. do 2 (case_match; [|done]).
    intros [= <-] _. rewrite <- !Nat.add_assoc, !str_drop_add, Ec. apply run_stops.
Qed.

(** ** Private keys *)

Lemma private_key_shape p s n :
  private_key p s = Some n ->
  exists u t, s = ("-----BEGIN " +:+ u +:+ "PRIVATE KEY-----") +:+ t
    /\ str_forall pem_char u = true /\ n = String.length ("-----BEGIN " +:+ u +:+ "PRIVATE KEY-----").
Proof.
  unfold private_key. case_match eqn:E; [|done]. apply literal_app in E as [s1 ->].
  change (str_drop 11 ("-----BEGIN " +:+ s1)) with s1. intros (k & Hk & ->)%fmap_Some.
  apply longest_some in Hk as [Hk Hn]. destruct (split_run pem_char s1 k) as (u & t0 & -> & <- & Hu); [lia|].
  rewrite str_drop_app in Hk. apply literal_app in Hk as [t ->]. exists u, t. split_and!; [|done|].
  - by rewrite <- !str_app_assoc.
  - rewrite !string_length_app. cbn. lia.
Qed.

Lemma private_key_found p u t :
  str_forall pem_char u = true ->
  is_Some (private_key p (("-----BEGIN " +:+ u +:+ "PRIVATE KEY-----") +:+ t)).
Proof.
  intros Hu. rewrite <- !str_app_assoc. unfold private_key.
  rewrite (proj2 (literal_app _ _)) by eauto. apply fmap_is_Some.
  change (str_drop 11 ("-----BEGIN " +:+ ?x)) with x.
  apply (longest_found _ _ _ (String.length u)).
  - rewrite str_drop_app. apply literal_app. eauto.
  - pose proof (run_length_app pem_char u ("PRIVATE KEY-----" +:+ t) Hu). lia.
Qed.

Lemma private_key_gentle : gentle private_key.
Proof.
  split; intros p t n (u & t' & -> & _ & Hn)%private_key_shape; [done|].
  rewrite Hn. rewrite string_length_app, before_add, <- str_app_assoc, str_drop_app.
  rewrite string_length_app, before_add, <- str_app_assoc, str_drop_app. done.
Qed.

Lemma covers_self prev s : covers api_key prev s.
Proof.
  revert prev. induction s as [|c s IH]; intros prev; [done|]. split; [|apply IH].
  intros Hs. pose proof Hs as (w & t & E & [])%api_key_shape. destruct Hs as [k Hk]. rewrite Hk.
  unfold api_key in Hk. repeat (case_match; [|done]).
  apply longest_some in Hk as [_ Hk]. exists (k - 1). f_equal. lia.
Qed.

Lemma covers_none m prev s : found api_key prev s = false -> covers m prev s.
Proof.
  revert prev. induction s as [|c s IH]; intros prev; [done|]. cbn. intros [Hk Hs]%orb_false_iff.
  split; [|by apply IH]. intros [k E]. by rewrite E in Hk.
Qed.

Lemma no_key_left value : found api_key None (redact_provider_input value) = false.
Proof.
  unfold redact_provider_input. cbn [fold_left REDACTIONS].
  do 2 (apply re_sub_no_key; [|apply covers_none|by left];
        [first [apply private_key_gentle|apply labelled_secret_gentle]|]).
  apply re_sub_no_key; [apply api_key_gentle|apply covers_self|by left].
Qed.

Lemma no_private_key_left p s skip prev : found private_key p (re_sub private_key skip prev s) = false.
Proof.
  revert skip prev p. induction s as [|c s IH]; intros skip prev p; [done|].
  destruct skip as [|k]; [|apply IH]. cbn [re_sub].
  destruct (private_key prev (String c s)) as [[|n]|] eqn:Em.
  - by apply private_key_shape in Em as (u & t & _ & _ & Hn).
  - rewrite found_redacted; [apply IH|]. intros q d s' Hd. unfold private_key.
    destruct (literal "-----BEGIN " (String d s')) eqn:E; [|done].
    apply literal_app in E as [t [= -> _]]. done.
  - cbn [found]. rewrite (IH 0 (Some c)).
    destruct (private_key p _) as [k|] eqn:Ek; [exfalso|done].
    apply private_key_shape in Ek as (u & t & E & Hu & _).
    assert (E' : re_sub private_key 0 prev (String c s) = String c (re_sub private_key 0 (Some c) s))
      by (cbn [re_sub]; by rewrite Em). rewrite <- E' in E.
    apply re_sub_copied in E as (t' & Ht & _).
    + rewrite Ht in Em. destruct (private_key_found prev u t' Hu) as [? E]. congruence.
    + unfold no_bracket. rewrite !str_forall_app. cbn. rewrite andb_true_r.
      revert Hu. apply str_forall_impl. intros d Hd. destruct (Ascii.eqb_spec d "["); [by subst|done].
Qed.

(** Nothing that looks like an API key and no private-key header leaves the
    platform: in the text that [redact_provider_input] returns, the patterns
    for API keys and for PEM private-key headers match at no position,
    whatever the input was (the replacements create no new match). *)
Theorem redaction_complete value :
  found api_key None (redact_provider_input value) = false
  /\ found private_key None (redact_provider_input value) = false.
Proof. split; [apply no_key_left|apply no_private_key_left]. Qed.

(** The labelled-secret pattern wants the separator right after the label, so
    it never sees a label that is a key of a JSON object, where a quote comes
    between the two: the text the worker redacts is the JSON of the input. *)
Lemma json_members_not_redacted :
  let input := json_dumps json_canonical
    (JObj [("account", JObj [("api_key", JStr "d2a84f4b8b650937"); ("password", JStr "hunter2")])]) in
  redact_provider_input input = input.
Proof. vm_compute. reflexivity. Qed.
