(* ===== verification/AiWorker.v ===== *)
(** * The OpenAI worker ([src/app/workers/openai_jobs.py])

    The worker of the platform's own server: it claims a job, streams it
    through an inference provider, keeps its lease alive from a second task,
    and finishes or fails the job.

    The provider is a parameter: what it answers to a request is a list of
    events and an end.  While the worker waits for the next event, other
    sessions commit and the lease task may renew the lease, so every wait
    carries what happens meanwhile.  At those points the worker's session has
    read but not written, so it goes on from the newly committed tables; its
    [now()] stays that of the transaction its reads have opened. *)

From S2P Require Import Prelude PyText PyTime Sha256 Txn AiContracts AiTables AiJobs AiOrchestration AiApi AiProvider.
Local Open Scope string_scope.
Local Open Scope Z_scope.

(** ** Settings and policy tables *)

Record openai_settings := mkOpenAi {
  openai_provider_enabled : bool;
  openai_worker_service_id : string;
  openai_worker_id : string;
  openai_worker_max_concurrency : Z;
  openai_chat_model : string;
  openai_coding_model : string;
  openai_chat_reasoning_effort : string;
  openai_coding_reasoning_effort : string;
  openai_daily_user_token_limit : Z;
  openai_daily_project_token_limit : Z;
  openai_max_estimated_cost_micro_usd : Z;
  openai_safety_salt : list N;
}.

Definition OPENAI_PROFILES : list string :=
  ["fast-chat"; "quality-chat"; "coding-default"; "coding-large"].

Definition PRICE_MICRO_USD_PER_TOKEN : list (string * (Z * Z)) :=
  [("gpt-5.6-terra", (2, 12)); ("gpt-5.6-sol", (5, 30))].

(** The validation library, as far as the worker uses it: reading a stored
    command back, and the JSON of a result, whose size is checked. *)
Class WorkerModels := {
  model_validate : option json -> exn + AICommand;
  result_dump_json : AIResult -> string;
}.

(** ** Steps of the worker *)

Definition validated_worker_concurrency (o : openai_settings) : exn + Z :=
  if openai_worker_max_concurrency o =? 1 then inr (openai_worker_max_concurrency o)
  else inl (RuntimeError "openai_worker_concurrency_invalid").

Definition validate_worker_registration (o : openai_settings) : M db unit :=
  expected ← lift_exn (validated_worker_concurrency o);
  row ← query (fun d =>
    r ← registrations d !! openai_worker_id o;
    if bool_decide (rg_service_id r = openai_worker_service_id o) then Some r else None);
  guard_or (from_option (fun r => rg_enabled r && (rg_max_concurrency r =? expected))%bool false row)
    (RuntimeError "openai_worker_registration_invalid").

(** The tokens of the last day of a user, and of a project. *)
Definition recent_usage (organization_id workspace_id : uuid) (t : Z) (p : job -> bool) (d : db) : Z :=
  sum_Z (omap (fun ku =>
    j ← jobs d !! ku.1;
    if ((t - day <=? us_created_at ku.2)
        && in_scope (Some organization_id) (Some workspace_id) j && p j)%bool
    then Some (us_tokens ku.2) else None) (map_to_list (usage d))).

Definition _usage_in_last_day (organization_id workspace_id : uuid) (requested_by : string)
    (project_key : option string) : M db (Z * Z) :=
  t ← now;
  user_tokens ← query (recent_usage organization_id workspace_id t
    (fun j => bool_decide (j_requested_by j = requested_by)));
  project_tokens ← query (recent_usage organization_id workspace_id t
    (fun j => match project_key with Some k => null_eq (j_project_key j) k | None => false end));
  mret (user_tokens, project_tokens).

Definition _cancel_requested (job_id : uuid) : M db bool :=
  row ← query (fun d => jobs d !! job_id);
  j ← some_or row (LookupError "no row was found");
  mret (negb (is_null (j_cancel_requested_at j))).

Definition lease_lost : exn := provider_error "provider_lease_lost".

(** One round of [_maintain_lease], in a session of its own. *)
Definition _maintain_lease (cfg : settings) (o : openai_settings) (job_id : uuid)
    (fencing_token : Z) : M db unit :=
  t ← now;
  renewed ← query (select_lease job_id (openai_worker_id o) fencing_token None None true t);
  (if is_null renewed then mret tt
   else execute (update_job job_id (renew_lease t (ai_job_lease_seconds cfg)))) ;;
  commit ;;
  guard_or (negb (is_null renewed)) lease_lost.

Definition _routing (o : openai_settings) (command : AICommand) : exn + (string * string) :=
  match command_type command with
  | CHAT => inr (openai_chat_model o, openai_chat_reasoning_effort o)
  | CODING => inr (openai_coding_model o, openai_coding_reasoning_effort o)
  | _ => inl (provider_error "provider_capability_denied")
  end.

Definition _estimated_cost (model : string) (input_tokens output_tokens : Z) : exn + Z :=
  match dict_get PRICE_MICRO_USD_PER_TOKEN model with
  | None => inl (provider_error "provider_price_policy_missing")
  | Some rates => inr (input_tokens * rates.1 + output_tokens * rates.2)
  end.

(** ** Waiting *)

Inductive meanwhile :=
  | OtherSessions (f : db -> db)
  | LeaseRenewal (clk : nat -> Z).

(** Other sessions take the stored tables from [d] to [f d]. *)
Definition interfere (f : db -> db) : M db unit := fun s =>
  (Session (f (committed s)) (f (committed s)) (clock s) (supply s), inr tt).

Definition other_session {A} (clk : nat -> Z) (m : M db A) : M db (exn + A) := fun s =>
  let r := with_session clk (supply s) m (committed s) in
  (Session r.1 r.1 (clock s) (supply s), inr r.2).

(** The answer says whether the lease task has ended with [lease_lost]; it
    ends with its first failed renewal. *)
Fixpoint while_waiting (cfg : settings) (o : openai_settings) (job_id : uuid) (fencing_token : Z)
    (l : list meanwhile) (lost : bool) : M db bool :=
  match l with
  | [] => mret lost
  | OtherSessions f :: l' =>
      interfere f ;; while_waiting cfg o job_id fencing_token l' lost
  | LeaseRenewal clk :: l' =>
      if lost then while_waiting cfg o job_id fencing_token l' true
      else
        r ← other_session clk (_maintain_lease cfg o job_id fencing_token);
        while_waiting cfg o job_id fencing_token l' (match r with inl _ => true | inr _ => false end)
  end.

(** What the provider does with a request: events, each after a wait, and then
    the end of the stream, which may be an exception. *)
Record streaming := mkStreaming {
  sg_events : list (list meanwhile * ProviderEvent);
  sg_end : list meanwhile * option exn;
}.

(** The surroundings of one run: the provider, what happens while the lease
    task is stopped, and the readings of the clocks. *)
Record surroundings := mkSurroundings {
  sr_provider : ProviderRequest -> streaming;
  sr_closing : list meanwhile;
  sr_started_at : Z;
  sr_completed_at : Z;
  sr_elapsed_ms : Z;
}.

(** ** Processing a job *)

(** The local variables of the loop over the events. *)
Record progress := mkProgress {
  pg_pieces : list string;
  pg_sequence : Z;
  pg_input_tokens : Z;
  pg_output_tokens : Z;
}.

Definition catch {A} (m : M db A) : M db (exn + A) :=
  try_except (a ← m; mret (inr a)) (fun e => mret (inl e)).

Section worker.
Context `{WorkerModels} (cfg : settings) (o : openai_settings).

(** The body of the loop; [Some state] is a [return]. *)
Definition on_event (c : claim_view) (corr : string) (lost : bool) (p : progress)
  (event : ProviderEvent) : M db (option job_state * progress) :=
guard_or (negb lost) lease_lost ;;
cancel_requested ← _cancel_requested (cl_id c);
if cancel_requested : bool then
  state ← finish (cl_id c) (openai_worker_id o) (cl_fencing_token c) false None false corr
            completed [] None None;
  mret (Some state, p)
else
  match pe_kind event with
  | ev_delta =>
      if bool_decide (pe_delta event = "") then mret (None, p)
      else
        append_chunk (cl_id c) (openai_worker_id o) (cl_fencing_token c) (pg_sequence p)
          (pe_delta event) (ai_job_max_output_bytes cfg) None None ;;
        mret (None, mkProgress (app (pg_pieces p) [pe_delta event]) (pg_sequence p + 1)
                      (pg_input_tokens p) (pg_output_tokens p))
  | ev_completed =>
      mret (None, mkProgress (pg_pieces p) (pg_sequence p)
                    (pe_input_tokens event) (pe_output_tokens event))
  end.

(** The loop: where it stopped, whether the lease task has failed by then, and
    how it stopped. *)
Fixpoint consume (c : claim_view) (corr : string) (events : list (list meanwhile * ProviderEvent))
  (last : list meanwhile * option exn) (lost : bool) (p : progress) :
  M db (progress * bool * (exn + option job_state)) :=
match events with
| [] =>
    lost' ← while_waiting cfg o (cl_id c) (cl_fencing_token c) last.1 lost;
    mret (p, lost', match last.2 with Some e => inl e | None => inr None end)
| (waiting, event) :: events' =>
    lost' ← while_waiting cfg o (cl_id c) (cl_fencing_token c) waiting lost;
    r ← catch (on_event c corr lost' p event);
    match r with
    | inl e => mret (p, lost', inl e)
    | inr (Some state, p') => mret (p', lost', inr (Some state))
    | inr (None, p') => consume c corr events' last lost' p'
    end
end.

(** [except AIProviderError as exc] around the loop: once output was stored, a
    failure is not retried. *)
Definition no_retry_after_output (pieces : list string) (e : exn) : exn :=
match e with
| AIProviderError code retryable _ _ _ =>
    if (negb (bool_decide (pieces = [])) && retryable)%bool then provider_error code else e
| _ => e
end.

(** The gates before the provider is called, and the request to it. *)
Definition prepare (c : claim_view) (command : AICommand) : M db ProviderRequest :=
route ← lift_exn (_routing o command);
let model := route.1 in
let effort := route.2 in
guard_or (str_in effort ["low"; "medium"]) (provider_error "provider_reasoning_policy_invalid") ;;
used ← _usage_in_last_day (cl_organization_id c) (cl_workspace_id c) (actor_id command)
         (cl_project_key c);
guard_or (used.1 <? openai_daily_user_token_limit o)
  (provider_error "user_token_limit_exceeded") ;;
guard_or (bool_decide (py_or (cl_project_key c) "" = "")
          || (used.2 <? openai_daily_project_token_limit o))
  (provider_error "project_token_limit_exceeded") ;;
identifier ← lift_exn (safety_identifier (actor_id command) (openai_safety_salt o));
let request := mkProviderRequest model effort
  (redact_provider_input (json_dumps json_canonical (JObj (input command)))) identifier
  (Z.min (max_tokens (model_policy command)) 8192) in
rates ← some_or (dict_get PRICE_MICRO_USD_PER_TOKEN model)
          (provider_error "provider_price_policy_missing");
let estimated_input_tokens := Z.max 1 (byte_len (pr_input_text request) / 3) in
let projected_cost := estimated_input_tokens * rates.1 + pr_max_output_tokens request * rates.2 in
guard_or (projected_cost <=? openai_max_estimated_cost_micro_usd o)
  (provider_error "job_cost_limit_exceeded") ;;
mret request.

Definition worker_result (env : surroundings) (c : claim_view) (command : AICommand)
  (model : string) (p : progress) (cost : Z) : AIResult :=
mkAIResult (command_id command) (cl_id c) "SUCCEEDED" "1.0" model "openai"
  (utc (sr_started_at env)) (utc (sr_completed_at env)) (sr_elapsed_ms env)
  [("input_tokens", pg_input_tokens p); ("output_tokens", pg_output_tokens p)]
  [("estimated_cost_micro_usd", JInt cost); ("chunk_count", JInt (pg_sequence p))]
  [("proposal", JStr (String.concat "" (pg_pieces p)))] [] []
  ["server-authorized"; "store-false"; "no-provider-tools"] None "none"
  ("openai-" +:+ uuid_str (cl_id c)).

(** The result and the end of the job, in one transaction. *)
Definition deliver (c : claim_view) (w corr : string) (r : AIResult) : M db job_state :=
completion_state ← store_result (result_job_of_claim c) r;
finish (cl_id c) w (cl_fencing_token c) false None false corr completion_state [] None None.

Definition process_job (env : surroundings) (c : claim_view) : M db job_state :=
command ← lift_exn (model_validate (cl_command_payload c));
request ← prepare c command;
let stream := sr_provider env request in
stopped ← consume c (correlation_id command) (sg_events stream) (sg_end stream) false
            (mkProgress [] 0 0 0);
let p := stopped.1.1 in
lost ← while_waiting cfg o (cl_id c) (cl_fencing_token c) (sr_closing env) stopped.1.2;
guard_or (negb lost) lease_lost ;;
match stopped.2 with
| inl e => raise (no_retry_after_output (pg_pieces p) e)
| inr (Some state) => mret state
| inr None =>
    guard_or (negb (bool_decide (pg_pieces p = []))) (provider_error "provider_empty_result") ;;
    cost ← lift_exn (_estimated_cost (pr_model request) (pg_input_tokens p) (pg_output_tokens p));
    guard_or (cost <=? openai_max_estimated_cost_micro_usd o)
      (provider_error "job_cost_limit_exceeded") ;;
    result ← lift_exn (validate_result result_dump_json
               (worker_result env c command (pr_model request) p cost));
    deliver c (openai_worker_id o) (correlation_id command) result
end.

(** ** One cycle *)

Definition worker_claim : M db (option claim_view) :=
validate_worker_registration o ;;
claim (openai_worker_id o) (ai_job_lease_seconds cfg) "openai-provider-cycle" None None
  (Some (openai_worker_service_id o)) (Some OPENAI_PROFILES).

Definition fail_with (c : claim_view) (code : string) (retryable : bool)
  (details : list (string * json)) : M db job_state :=
finish (cl_id c) (openai_worker_id o) (cl_fencing_token c) true (Some code) retryable
  "openai-provider-cycle" completed details None None.

(** The [except] clauses.  After a violated constraint the database refuses
    every statement of the transaction. *)
Definition on_exception (c : claim_view) (e : exn) : M db string :=
match e with
| AIProviderError code retryable http_status provider_error_code request_id =>
    state ← fail_with c code retryable (safe_details http_status provider_error_code request_id);
    mret (state_text state)
| IntegrityError _ => raise (RuntimeError "current transaction is aborted")
| _ =>
    try_except
      (state ← fail_with c "provider_worker_error" false [("component", JStr "openai-responses")];
       mret (state_text state))
      (fun e' =>
         match e' with
         | PermissionError _ =>
             rollback ;;
             recover_expired (Some (cl_organization_id c)) (Some (cl_workspace_id c)) ;;
             mret "lease_lost"
         | _ => raise e'
         end)
end.

Definition cycle (env : surroundings) : M db string :=
guard_or (openai_provider_enabled o) (RuntimeError "OPENAI_PROVIDER_ENABLED is false") ;;
claimed ← worker_claim;
match claimed with
| None => mret "empty"
| Some c =>
    try_except (state ← process_job env c; mret (state_text state)) (on_exception c)
end.

(** ** The loop of the worker *)

(** [except OverflowError]: the one exception the loop goes on after. *)
Definition survives (r : exn + string) : bool :=
match r with
| inr _ => true
| inl (OverflowError msg) => bool_decide (msg = "worker_concurrency_limit")
| inl _ => false
end.

(** The surroundings of each cycle, and what other sessions do while the
    worker sleeps before it.  An exception ends the worker. *)
Record turn := mkTurn {
  tn_others : db -> db;
  tn_clock : nat -> Z;
  tn_supply : nat -> uuid;
  tn_env : surroundings;
}.

Fixpoint turns (l : list turn) (d : db) : db * option exn :=
match l with
| [] => (d, None)
| tn :: l' =>
    let r := with_session (tn_clock tn) (tn_supply tn) (cycle (tn_env tn)) (tn_others tn d) in
    if survives r.2 then turns l' r.1
    else (r.1, match r.2 with inl e => Some e | inr _ => None end)
end.

Definition run_forever (l : list turn) (d : db) : db * option exn :=
match validated_worker_concurrency o with
| inl e => (d, Some e)
| inr _ => turns l d
end.
End worker.
