(* ===== verification/AiLifecycle.v ===== *)
(** * The life of one job: an abstract machine and its invariants

    What a single job can go through, whatever the service does: its row, its
    approval and its dead letter form a [slice] of the database, and
    [slice_step] lists the changes a slice can undergo, each with the guard
    under which the code makes it.  [AiRefinement] shows that every request
    moves every slice along this relation; the invariants below are proved of
    the relation alone. *)

From S2P Require Import Prelude PyText PyTime Txn AiContracts AiTables AiJobs AiOrchestration AiApi.
Local Open Scope string_scope.
Local Open Scope Z_scope.

Record slice := Slice {
  sl_job : option job;
  sl_approval : option approval;
  sl_dead : option dead_letter_row;
}.

Definition slice_of (d : db) (id : uuid) : slice :=
  Slice (jobs d !! id) (approvals d !! id) (dead_letters d !! id).

(** A row as the two [INSERT] statements write it. *)
Definition fresh_job (j : job) : Prop :=
  j_state j = queued /\ j_attempt_count j = 0 /\ j_fencing_token j = 0 /\
  j_lease_owner j = None /\ j_lease_expires_at j = None /\ j_cancel_requested_at j = None /\
  j_output_bytes j = 0 /\ 1 <= j_max_attempts j <= 10.

(** What a completing worker leaves beside the row: nothing new, or a pending
    approval when the command's policy asks for one. *)
Definition completion (completion_state : job_state) (is_failed : bool)
    (ap ap' : option approval) : Prop :=
  (completion_state = completed /\ ap' = ap)
  \/ (completion_state = approval_required /\ is_failed = false
      /\ exists a, ap_state a = ap_pending /\ ap' = Some (default a ap)).

Inductive slice_step (id : uuid) : slice -> slice -> Prop :=
  | ss_create j ap dl :
      fresh_job j -> j_id j = id ->
      slice_step id (Slice None ap dl) (Slice (Some j) ap dl)
  | ss_lease j ap dl t profiles org ws worker secs :
      claimable t profiles org ws j = true ->
      slice_step id (Slice (Some j) ap dl) (Slice (Some (lease_to worker t secs j)) ap dl)
  | ss_renew j ap dl worker token org ws t secs :
      lease_matches worker token org ws true t j = true ->
      slice_step id (Slice (Some j) ap dl) (Slice (Some (renew_lease t secs j)) ap dl)
  | ss_output j ap dl worker token org ws t n :
      lease_matches worker token org ws false t j = true ->
      slice_step id (Slice (Some j) ap dl) (Slice (Some (add_output n t j)) ap dl)
  | ss_finish j ap ap' dl worker token org ws t is_failed retryable cs delay error dead :
      lease_matches worker token org ws true t j = true ->
      completion cs is_failed ap ap' ->
      let state := finish_state j is_failed retryable cs in
      slice_step id (Slice (Some j) ap dl)
        (Slice (Some (finish_job state delay error t j)) ap'
           (if bool_decide (state = dead_letter) then Some dead else dl))
  | ss_worker_cancel j ap dl worker token org ws t :
      lease_matches worker token org ws true t j = true ->
      is_null (j_cancel_requested_at j) = false ->
      slice_step id (Slice (Some j) ap dl) (Slice (Some (cancel_job_row t j)) ap dl)
  | ss_retry j a dl dl' approval_id org ws t :
      dl_tenant_id dl = org -> dl_workspace_id dl = ws ->
      dl_manual_retry_requires_new_approval dl = true ->
      ap_id a = approval_id -> ap_state a = ap_approved ->
      null_gt (ap_decided_at a) (dl_failed_at dl) = true ->
      retryable_dead_letter j = true ->
      slice_step id (Slice (Some j) (Some a) (Some dl))
        (Slice (Some (requeue_dead_letter t j)) (Some a) (Some dl'))
  | ss_recover_cancel j ap dl t org ws :
      expired_cancel t org ws j = true ->
      slice_step id (Slice (Some j) ap dl) (Slice (Some (cancel_job_row t j)) ap dl)
  | ss_recover_retry j ap dl t org ws :
      expired_retryable t org ws j = true ->
      slice_step id (Slice (Some j) ap dl) (Slice (Some (retry_lease t j)) ap dl)
  | ss_recover_dead j ap dl t org ws dead :
      expired_exhausted t org ws j = true ->
      slice_step id (Slice (Some j) ap dl)
        (Slice (Some (bury_lease t j)) ap (Some (default dead dl)))
  | ss_expire j ap dl t org ws :
      past_deadline t org ws j = true ->
      slice_step id (Slice (Some j) ap dl) (Slice (Some (expire_job t j)) ap dl)
  | ss_cancel j ap dl t :
      state_in closed_states (j_state j) = false ->
      slice_step id (Slice (Some j) ap dl) (Slice (Some (request_cancel t j)) ap dl)
  | ss_browser_cancel j ap dl t :
      state_in [completed; failed; cancelled; dead_letter] (j_state j) = false ->
      slice_step id (Slice (Some j) ap dl) (Slice (Some (browser_cancel t j)) ap dl)
  | ss_decide oj a dl t actor reason (verdict : bool) :
      ap_state a = ap_pending ->
      slice_step id (Slice oj (Some a) dl)
        (Slice (set_decided (if verdict then approved else rejected) t <$> oj)
           (Some (decide_approval (if verdict then ap_approved else ap_rejected) actor reason t a))
           dl).

(** ** The invariant of a slice *)

Definition has_lease (j : job) : bool := negb (is_null (j_lease_owner j)).

Record row_ok (j : job) : Prop := RowOk {
  ok_attempts : 0 <= j_attempt_count j <= j_max_attempts j;
  ok_max : 1 <= j_max_attempts j <= 10;
  ok_token : j_fencing_token j = j_attempt_count j;
  ok_waiting : j_state j = queued \/ j_state j = retry_wait ->
               j_attempt_count j < j_max_attempts j;
  ok_lease : has_lease j = negb (is_null (j_lease_expires_at j));
  ok_holder : has_lease j = true ->
              (j_state j = leased \/ j_state j = cancel_requested) /\ 0 < j_attempt_count j;
  ok_leased : j_state j = leased -> has_lease j = true;
  ok_cancel : j_state j = cancel_requested -> is_null (j_cancel_requested_at j) = false;
  ok_used : j_state j <> available /\ j_state j <> running /\ j_state j <> failed;
}.

Definition approval_ok (ap : option approval) (j : job) : Prop :=
  match ap with
  | Some a =>
      has_lease j = false /\
      match ap_state a with
      | ap_pending => j_state j = approval_required \/ j_state j = cancelled
      | ap_approved => j_state j = approved \/ j_state j = cancel_requested
      | ap_rejected => j_state j = rejected
      end
  | None => j_state j <> approval_required /\ j_state j <> approved /\ j_state j <> rejected
            /\ (j_state j = cancel_requested -> has_lease j = true)
  end.

Definition dead_ok (dl : option dead_letter_row) (j : job) : Prop :=
  is_Some dl <-> j_state j = dead_letter.

Definition slice_ok (id : uuid) (sl : slice) : Prop :=
  match sl_job sl with
  | None => sl_approval sl = None /\ sl_dead sl = None
  | Some j => j_id j = id /\ row_ok j /\ approval_ok (sl_approval sl) j /\ dead_ok (sl_dead sl) j
  end.

(** Case analysis on which states a row can be in. *)
Ltac by_states :=
  repeat match goal with
  | H : _ ∈ _ :: _ |- _ => rewrite !elem_of_cons, elem_of_nil in H
  | H : _ ∉ _ :: _ |- _ => rewrite !not_elem_of_cons in H
  | |- _ ∈ _ :: _ => rewrite !elem_of_cons, elem_of_nil
  | |- _ ∉ _ :: _ => rewrite !not_elem_of_cons; split_and!; [..|apply not_elem_of_nil]
  end;
  solve [intuition (congruence || eauto)].

(** ** Guards, read as facts about the row *)

Lemma state_in_spec l s : state_in l s = true <-> s ∈ l.
Proof. unfold state_in. by rewrite bool_decide_eq_true. Qed.

Lemma lease_matches_holds w tok org ws allow t j :
  lease_matches w tok org ws allow t j = true ->
  (j_state j = leased \/ (allow = true /\ j_state j = cancel_requested))
  /\ j_lease_owner j = Some w /\ j_fencing_token j = tok
  /\ (exists e, j_lease_expires_at j = Some e /\ t < e)
  /\ in_scope org ws j = true.
Proof.
  unfold lease_matches. intros H. bool_to_prop.
  match goal with H : (_ || _)%bool = true |- _ => apply orb_true_iff in H end.
  split_and!; [|done..]. destruct_or!; bool_to_prop; eauto.
Qed.

Lemma lease_matches_owner w tok org ws allow t j :
  lease_matches w tok org ws allow t j = true -> has_lease j = true.
Proof.
  intros H%lease_matches_holds. destruct H as (_ & Ho & _). unfold has_lease. by rewrite Ho.
Qed.

Lemma claimable_holds t profiles org ws j :
  claimable t profiles org ws j = true ->
  (j_state j = queued \/ j_state j = retry_wait) /\ j_next_attempt_at j <= t
  /\ j_cancel_requested_at j = None /\ deadline_open t j = true /\ in_scope org ws j = true.
Proof.
  unfold claimable, deadline_open. intros H. bool_to_prop.
  match goal with H : state_in _ _ = true |- _ => apply state_in_spec in H end.
  by_states.
Qed.

Lemma expired_cancel_holds t org ws j :
  expired_cancel t org ws j = true ->
  j_state j = cancel_requested /\ exists e, j_lease_expires_at j = Some e /\ e <= t.
Proof.
  unfold expired_cancel. intros H. by bool_to_prop.
Qed.

Lemma expired_lease_holds t org ws j :
  expired_lease t org ws j = true ->
  j_state j = leased /\ (exists e, j_lease_expires_at j = Some e /\ e <= t)
  /\ deadline_open t j = true /\ in_scope org ws j = true.
Proof.
  unfold expired_lease. intros H. by bool_to_prop.
Qed.

Lemma past_deadline_holds t org ws j :
  past_deadline t org ws j = true ->
  (j_state j = queued \/ j_state j = retry_wait \/ j_state j = leased)
  /\ (exists e, j_deadline_at j = Some e /\ e <= t) /\ in_scope org ws j = true.
Proof.
  unfold past_deadline. intros H. bool_to_prop.
  match goal with H : state_in _ _ = true |- _ => apply state_in_spec in H end.
  by_states.
Qed.

Lemma finish_state_cases j is_failed retryable cs :
  finish_state j is_failed retryable cs = cancelled
  \/ (finish_state j is_failed retryable cs = cs /\ is_failed = false)
  \/ (finish_state j is_failed retryable cs = retry_wait /\ is_failed = true
      /\ j_attempt_count j < j_max_attempts j)
  \/ (finish_state j is_failed retryable cs = dead_letter /\ is_failed = true).
Proof.
  unfold finish_state. repeat case_match; bool_to_prop; naive_solver lia.
Qed.

Lemma completion_pending cs is_failed ap ap' :
  completion cs is_failed ap ap' -> ap = None ->
  (cs = completed /\ ap' = None)
  \/ (cs = approval_required /\ is_failed = false
      /\ exists a, ap_state a = ap_pending /\ ap' = Some a).
Proof. unfold completion. intros H ->. cbn in H. naive_solver. Qed.

(** ** Preservation *)

Lemma approval_of_holder ap j : approval_ok ap j -> has_lease j = true -> ap = None.
Proof. destruct ap; cbn; [intros [] ?; congruence|done]. Qed.

Lemma approval_of_waiting ap j :
  approval_ok ap j -> j_state j = queued \/ j_state j = retry_wait -> ap = None.
Proof.
  destruct ap as [a|]; cbn; [|done]. intros [_ H] Hw.
  destruct (ap_state a); destruct_or?; congruence.
Qed.

Lemma dead_ok_other dl j j' :
  dead_ok dl j -> j_state j <> dead_letter -> j_state j' <> dead_letter -> dead_ok dl j'.
Proof. unfold dead_ok. by_states. Qed.

Lemma dead_ok_buried dl j : j_state j = dead_letter -> dead_ok (Some dl) j.
Proof. unfold dead_ok. by_states. Qed.

(** The row after its lease was given up. *)
Lemma row_ok_release j j' :
  row_ok j ->
  j_attempt_count j' = j_attempt_count j -> j_max_attempts j' = j_max_attempts j ->
  j_fencing_token j' = j_fencing_token j ->
  j_lease_owner j' = None -> j_lease_expires_at j' = None ->
  j_state j' ∉ [leased; available; running; failed; cancel_requested] ->
  (j_state j' = queued \/ j_state j' = retry_wait -> j_attempt_count j < j_max_attempts j) ->
  row_ok j'.
Proof.
  intros [] Ha Hm Ht Ho He Hs Hw. split; unfold has_lease in *;
    rewrite ?Ha, ?Hm, ?Ht, ?Ho, ?He; cbn; by_states.
Qed.

(** The row after a change that keeps its lease and counters. *)
Lemma row_ok_keep j j' :
  row_ok j ->
  j_attempt_count j' = j_attempt_count j -> j_max_attempts j' = j_max_attempts j ->
  j_fencing_token j' = j_fencing_token j ->
  j_lease_owner j' = j_lease_owner j ->
  is_null (j_lease_expires_at j') = is_null (j_lease_expires_at j) ->
  (j_state j' = j_state j
   \/ (has_lease j = false /\ j_state j' ∉ [leased; available; running; failed; queued; retry_wait])
   \/ (has_lease j = true /\ j_state j' = cancel_requested)) ->
  (j_state j' = cancel_requested -> is_null (j_cancel_requested_at j') = false) ->
  row_ok j'.
Proof.
  intros [] Ha Hm Ht Ho He Hs Hcn.
  assert (Hl : has_lease j' = has_lease j) by (unfold has_lease; by rewrite Ho).
  split; rewrite ?Hl, ?Ha, ?Hm, ?Ht, ?He; [done|done|done| |done| | |done|];
    (destruct Hs as [E|[[Hf Hs]|[Hf E]]];
     [by rewrite ?E|..]; by_states).
Qed.

Lemma slice_ok_holder_released id j j' ap dl dl' :
  slice_ok id (Slice (Some j) ap dl) -> has_lease j = true ->
  j_id j' = j_id j ->
  j_attempt_count j' = j_attempt_count j -> j_max_attempts j' = j_max_attempts j ->
  j_fencing_token j' = j_fencing_token j ->
  j_lease_owner j' = None -> j_lease_expires_at j' = None ->
  j_state j' ∈ [completed; cancelled; expired; dead_letter; retry_wait] ->
  (j_state j' = retry_wait -> j_attempt_count j < j_max_attempts j) ->
  (if bool_decide (j_state j' = dead_letter) then is_Some dl' else dl' = dl) ->
  slice_ok id (Slice (Some j') ap dl').
Proof.
  intros (Hid & Hrow & Hap & Hdl) Hl Hid' Ha Hm Ht Ho He Hs Hw Hd. cbn in Hap, Hdl.
  pose proof (approval_of_holder _ _ Hap Hl) as ->.
  pose proof (ok_holder _ Hrow Hl) as [Hst _].
  split_and!; [congruence| | |].
  - eapply row_ok_release; [done..| |]; by_states.
  - cbn in *. by_states.
  - case_bool_decide as E.
    + destruct Hd as [x ->]. by apply dead_ok_buried.
    + cbn in *. subst dl'. eapply dead_ok_other; [done| |done]. by_states.
Qed.

Lemma slice_ok_create id j ap dl :
  fresh_job j -> j_id j = id -> slice_ok id (Slice None ap dl) ->
  slice_ok id (Slice (Some j) ap dl).
Proof.
  intros (Hs & Ha & Ht & Ho & He & Hc & _ & Hm) Hid [Hap Hdl]. cbn in Hap, Hdl. subst ap dl.
  split_and!; [done| | |].
  - split; unfold has_lease; rewrite ?Hs, ?Ha, ?Ht, ?Ho, ?He; cbn; naive_solver (congruence || lia).
  - cbn. rewrite Hs. by_states.
  - split; [by intros []|]. cbn. congruence.
Qed.

Lemma slice_ok_lease id j ap dl t profiles org ws worker secs :
  claimable t profiles org ws j = true -> slice_ok id (Slice (Some j) ap dl) ->
  slice_ok id (Slice (Some (lease_to worker t secs j)) ap dl).
Proof.
  intros (Hs & _)%claimable_holds (Hid & Hrow & Hap & Hdl). cbn in Hap, Hdl.
  pose proof (approval_of_waiting _ _ Hap Hs) as ->.
  split_and!; [done| | |].
  - destruct Hrow. split; cbn; naive_solver (congruence || lia).
  - done.
  - eapply dead_ok_other; [done| |done]. by_states.
Qed.

Lemma slice_ok_finish id j ap ap' dl t is_failed retryable cs delay error dead :
  has_lease j = true -> completion cs is_failed ap ap' ->
  let state := finish_state j is_failed retryable cs in
  slice_ok id (Slice (Some j) ap dl) ->
  slice_ok id (Slice (Some (finish_job state delay error t j)) ap'
                 (if bool_decide (state = dead_letter) then Some dead else dl)).
Proof.
  intros Hl Hc state Hok. pose proof Hok as (Hid & Hrow & Hap & Hdl). cbn in Hap, Hdl.
  pose proof (approval_of_holder _ _ Hap Hl) as ->.
  pose proof (ok_holder _ Hrow Hl) as [Hst _].
  pose proof (finish_state_cases j is_failed retryable cs) as Hf. fold state in Hf.
  apply completion_pending in Hc as [[-> ->]|(-> & -> & a & Ha & ->)]; [| |done].
  - eapply slice_ok_holder_released; [done..| | |].
    + cbn. by_states.
    + cbn. by_states.
    + cbn. by case_bool_decide.
  - assert (state = cancelled \/ state = approval_required) as Hs by by_states.
    split_and!; [done| | |].
    + eapply row_ok_release; [done..| |]; cbn; by_states.
    + cbn. rewrite Ha. by_states.
    + rewrite bool_decide_eq_false_2 by by_states.
      eapply dead_ok_other; [done| |cbn]; by_states.
Qed.

(** The two cancellation requests. *)
Lemma slice_ok_request_cancel id j ap dl t :
  state_in closed_states (j_state j) = false -> slice_ok id (Slice (Some j) ap dl) ->
  slice_ok id (Slice (Some (request_cancel t j)) ap dl).
Proof.
  intros Hc (Hid & Hrow & Hap & Hdl). cbn in Hap, Hdl.
  pose proof Hrow as [_ _ _ _ _ Hh Hle _ [Hu1 [Hu2 _]]].
  assert (Hst : j_state (request_cancel t j)
                = if state_in waiting_states (j_state j) then cancelled else cancel_requested) by done.
  assert (Hd : j_state j <> dead_letter) by (intros E; by rewrite E in Hc).
  split_and!; [done| | |].
  - eapply row_ok_keep; [done..| |done]. rewrite Hst.
    destruct (has_lease j) eqn:Hl.
    + destruct (Hh eq_refl) as [[E|E] _]; rewrite E; auto.
    + right; left. split; [done|].
      destruct (state_in waiting_states (j_state j)); by_compute.
  - unfold approval_ok. rewrite Hst. destruct ap as [a|]; cbn in Hap |- *.
    + split; [apply Hap|]. destruct Hap as [_ Hap].
      destruct (ap_state a); destruct_or?; rewrite Hap in *; naive_solver.
    + change (has_lease (request_cancel t j)) with (has_lease j).
      destruct (j_state j) eqn:E; try discriminate Hc; cbn; naive_solver.
  - eapply dead_ok_other; [done|done|]. rewrite Hst.
    by destruct (state_in waiting_states (j_state j)).
Qed.

Lemma slice_ok_browser_cancel id j ap dl t :
  state_in [completed; failed; cancelled; dead_letter] (j_state j) = false ->
  slice_ok id (Slice (Some j) ap dl) ->
  slice_ok id (Slice (Some (browser_cancel t j)) ap dl).
Proof.
  intros Hc (Hid & Hrow & Hap & Hdl). cbn in Hap, Hdl.
  pose proof (ok_holder _ Hrow) as Hh.
  assert (Hst : j_state (browser_cancel t j)
                = if state_in [queued; retry_wait] (j_state j) then cancelled else j_state j) by done.
  assert (Hd : j_state j <> dead_letter) by (intros E; by rewrite E in Hc).
  destruct (state_in [queued; retry_wait] (j_state j)) eqn:Hw.
  - apply state_in_spec in Hw.
    assert (Hq : j_state j = queued \/ j_state j = retry_wait) by by_states.
    pose proof (approval_of_waiting _ _ Hap Hq) as ->.
    split_and!; [done| | |].
    + eapply row_ok_keep; [done..| |done]. rewrite Hst.
      destruct (has_lease j) eqn:Hl; [destruct (Hh eq_refl) as [[E|E] _]; by_states|].
      right; left. split; [done|by_compute].
    + unfold approval_ok. cbn [sl_approval]. by rewrite Hst.
    + eapply dead_ok_other; [done|done|]. by rewrite Hst.
  - split_and!; [done| | |].
    + eapply row_ok_keep; [done..|by left|done].
    + unfold approval_ok in *. change (has_lease (browser_cancel t j)) with (has_lease j).
      by rewrite Hst.
    + unfold dead_ok. by rewrite Hst.
Qed.

Lemma slice_ok_decide id oj a dl t actor reason (verdict : bool) :
  ap_state a = ap_pending ->
  slice_ok id (Slice oj (Some a) dl) ->
  slice_ok id
    (Slice (set_decided (if verdict then approved else rejected) t <$> oj)
       (Some (decide_approval (if verdict then ap_approved else ap_rejected) actor reason t a)) dl).
Proof.
  intros Ha. destruct oj as [j|]; [|by intros [? _]].
  intros (Hid & Hrow & [Hl Hap] & Hdl). cbn in Hap, Hdl. rewrite Ha in Hap.
  split_and!; [done| | |].
  - eapply row_ok_keep; [done..| |by destruct verdict]. right; left. split; [done|].
    destruct verdict; by_compute.
  - split; [done|]. destruct verdict; [by left|done].
  - eapply dead_ok_other; [done|by_states|by destruct verdict].
Qed.

Lemma slice_ok_retry id j a dl dl' t :
  ap_state a = ap_approved -> retryable_dead_letter j = true ->
  slice_ok id (Slice (Some j) (Some a) (Some dl)) ->
  slice_ok id (Slice (Some (requeue_dead_letter t j)) (Some a) (Some dl')).
Proof.
  unfold retryable_dead_letter. intros Ha Hr (Hid & Hrow & [Hl Hap] & Hdl). bool_to_prop.
  cbn in Hap. rewrite Ha in Hap. by_states.
Qed.

Lemma recovered_has_lease j : row_ok j -> is_Some (j_lease_expires_at j) -> has_lease j = true.
Proof. intros Hrow [e He]. by rewrite (ok_lease _ Hrow), He. Qed.

(** Every step keeps a well-formed slice well-formed. *)
Lemma slice_step_ok id a b : slice_step id a b -> slice_ok id a -> slice_ok id b.
Proof.
  destruct 1 as
    [j ap dl Hf Hid|j ap dl t profiles org ws w secs Hc|j ap dl w tok org ws t secs Hm
    |j ap dl w tok org ws t n Hm|j ap ap' dl w tok org ws t fl rt cs dly err dd Hm Hc
    |j ap dl w tok org ws t Hm Hc|j a dl dl' aid org ws t _ _ _ _ Ha _ Hr
    |j ap dl t org ws Hc|j ap dl t org ws Hc|j ap dl t org ws dd Hc|j ap dl t org ws Hc
    |j ap dl t Hc|j ap dl t Hc|oj a dl t actor reason verdict Ha]; intros Hok.
  - by apply slice_ok_create.
  - by eapply slice_ok_lease.
  - destruct Hok as (Hid & Hrow & Hap & Hdl). split_and!; [done| |done|done].
    apply lease_matches_holds in Hm as (_ & _ & _ & (e & He & _) & _).
    eapply row_ok_keep; [done..| |by left|apply Hrow]. cbn. by rewrite He.
  - destruct Hok as (Hid & Hrow & Hap & Hdl). split_and!; [done| |done|done].
    eapply row_ok_keep; [done..|by left|apply Hrow].
  - apply lease_matches_owner in Hm. by eapply slice_ok_finish.
  - apply lease_matches_owner in Hm. by eapply slice_ok_holder_released; [..|by_compute| |].
  - by eapply slice_ok_retry.
  - apply expired_cancel_holds in Hc as (_ & e & He & _).
    assert (has_lease j = true) by (apply recovered_has_lease; [apply Hok|eauto]).
    by eapply slice_ok_holder_released; [..|by_compute| |].
  - unfold expired_retryable in Hc. bool_to_prop.
    apply expired_lease_holds in H as (_ & (e & He & _) & _).
    assert (has_lease j = true) by (apply recovered_has_lease; [apply Hok|eauto]).
    by eapply slice_ok_holder_released; [..|by_compute| |].
  - unfold expired_exhausted in Hc. bool_to_prop.
    apply expired_lease_holds in H as (_ & (e & He & _) & _).
    assert (has_lease j = true) by (apply recovered_has_lease; [apply Hok|eauto]).
    by eapply slice_ok_holder_released; [..|by_compute| |by eexists].
  - destruct (has_lease j) eqn:Hl; [by eapply slice_ok_holder_released; [..|by_compute| |]|].
    apply past_deadline_holds in Hc as (Hs & _).
    destruct Hok as (Hid & Hrow & Hap & Hdl). cbn in Hap, Hdl.
    assert (Hq : j_state j = queued \/ j_state j = retry_wait).
    { pose proof (ok_leased _ Hrow). by_states. }
    pose proof (approval_of_waiting _ _ Hap Hq) as ->.
    split_and!; [done| |done|eapply dead_ok_other; [done|by_states|done]].
    eapply row_ok_release; [done..|by_compute|]. intros [E|E]; discriminate E.
  - by apply slice_ok_request_cancel.
  - by apply slice_ok_browser_cancel.
  - by apply slice_ok_decide.
Qed.

(** ** The state diagram

    The abstract specification of a job's state: the edges it can follow. *)
Inductive edge : job_state -> job_state -> Prop :=
  | e_queued s : s ∈ [leased; cancelled; expired] -> edge queued s
  | e_retry_wait s : s ∈ [leased; cancelled; expired] -> edge retry_wait s
  | e_leased s :
      s ∈ [completed; approval_required; cancelled; retry_wait; dead_letter; expired;
           cancel_requested] -> edge leased s
  | e_cancel_requested : edge cancel_requested cancelled
  | e_approval_required s : s ∈ [approved; rejected; cancelled] -> edge approval_required s
  | e_cancelled s : s ∈ [approved; rejected] -> edge cancelled s
  | e_approved : edge approved cancel_requested.
#[export] Hint Constructors edge : mw.

Definition moves (s s' : job_state) : Prop := s' = s \/ edge s s'.

(** The states no edge leaves. *)
Definition final_states : list job_state := [completed; expired; dead_letter; rejected].

Lemma edge_not_final s s' : edge s s' -> s ∉ final_states.
Proof. destruct 1; by_compute. Qed.

Lemma moves_final s s' : moves s s' -> s ∈ final_states -> s' = s.
Proof. intros [->|H%edge_not_final]; done. Qed.

Lemma holder_state id j ap dl w tok org ws allow t :
  slice_ok id (Slice (Some j) ap dl) -> lease_matches w tok org ws allow t j = true ->
  j_state j = leased \/ (j_state j = cancel_requested /\ is_null (j_cancel_requested_at j) = false).
Proof.
  intros (_ & Hrow & _) ([Hs|[_ Hs]] & _)%lease_matches_holds; [by left|].
  right. split; [done|]. by apply (ok_cancel _ Hrow).
Qed.

Lemma finish_moves id j ap ap' dl w tok org ws t is_failed retryable cs :
  slice_ok id (Slice (Some j) ap dl) -> lease_matches w tok org ws true t j = true ->
  completion cs is_failed ap ap' ->
  moves (j_state j) (finish_state j is_failed retryable cs).
Proof.
  intros Hok Hm Hc. destruct (holder_state _ _ _ _ _ _ _ _ _ _ Hok Hm) as [Hs|[Hs Hr]].
  - rewrite Hs. right. constructor.
    pose proof (finish_state_cases j is_failed retryable cs) as Hf.
    destruct Hc as [[-> _]|[-> _]]; by_states.
  - rewrite Hs. right. unfold finish_state. rewrite Hr. constructor.
Qed.

Lemma slice_step_moves id a b j :
  slice_step id a b -> slice_ok id a -> sl_job a = Some j ->
  exists j', sl_job b = Some j' /\ moves (j_state j) (j_state j').
Proof.
  destruct 1 as
    [j0 ap dl Hf Hid|j0 ap dl t profiles org ws w secs Hc|j0 ap dl w tok org ws t secs Hm
    |j0 ap dl w tok org ws t n Hm|j0 ap ap' dl w tok org ws t fl rt cs dly err dd Hm Hc
    |j0 ap dl w tok org ws t Hm Hc|j0 a dl dl' aid org ws t _ _ _ _ Ha _ Hr
    |j0 ap dl t org ws Hc|j0 ap dl t org ws Hc|j0 ap dl t org ws dd Hc|j0 ap dl t org ws Hc
    |j0 ap dl t Hc|j0 ap dl t Hc|oj a dl t actor reason verdict Ha];
    intros Hok Hj; cbn in Hj; simplify_eq; cbn;
    try (eexists; split; [reflexivity|]; cbn).
  - apply claimable_holds in Hc as ([->| ->] & _); right; constructor; by_compute.
  - by left.
  - by left.
  - by eapply finish_moves.
  - destruct (holder_state _ _ _ _ _ _ _ _ _ _ Hok Hm) as [->|[-> _]];
      right; constructor; by_compute.
  - destruct Hok as (_ & _ & [_ Hap] & _). cbn in Hap. rewrite Ha in Hap.
    unfold retryable_dead_letter in Hr. bool_to_prop. by_states.
  - apply expired_cancel_holds in Hc as [-> _]. right; constructor.
  - unfold expired_retryable in Hc. bool_to_prop.
    apply expired_lease_holds in H as [-> _]. right; constructor; by_compute.
  - unfold expired_exhausted in Hc. bool_to_prop.
    apply expired_lease_holds in H as [-> _]. right; constructor; by_compute.
  - apply past_deadline_holds in Hc as ([->|[->| ->]] & _); right; constructor; by_compute.
  - destruct Hok as (_ & Hrow & _). destruct (ok_used _ Hrow) as (Hu1 & Hu2 & Hu3).
    destruct (j_state j) eqn:E; try discriminate Hc; try congruence; cbn;
      first [by left|right; constructor; by_compute].
  - destruct (j_state j) eqn:E; try discriminate Hc; cbn;
      first [by left|right; constructor; by_compute].
  - destruct Hok as (_ & _ & [_ Hap] & _). cbn in Hap. rewrite Ha in Hap.
    destruct Hap as [->| ->], verdict; right; constructor; by_compute.
Qed.

(** ** Columns that never change, and the fencing token that never goes back *)

Record same_identity (j j' : job) : Prop := SameIdentity {
  si_id : j_id j' = j_id j;
  si_organization : j_organization_id j' = j_organization_id j;
  si_workspace : j_workspace_id j' = j_workspace_id j;
  si_key : j_idempotency_key j' = j_idempotency_key j;
  si_hash : j_request_sha256 j' = j_request_sha256 j;
  si_deadline : j_deadline_at j' = j_deadline_at j;
  si_payload : j_command_payload j' = j_command_payload j;
  si_token : j_fencing_token j <= j_fencing_token j';
}.

#[export] Instance same_identity_preorder : PreOrder same_identity.
Proof.
  split.
  - intros j. by split.
  - intros j1 j2 j3 [] []. split; congruence || lia.
Qed.

Lemma slice_step_identity id a b j :
  slice_step id a b -> sl_job a = Some j ->
  exists j', sl_job b = Some j' /\ same_identity j j'.
Proof.
  destruct 1; intros Hj; cbn in Hj; simplify_eq; cbn;
    try (eexists; split; [reflexivity|split; cbn; done || lia]).
Qed.

(** ** Whole runs *)

Definition slice_steps (id : uuid) : slice -> slice -> Prop := rtc (slice_step id).

Lemma slice_steps_ok id a b : slice_steps id a b -> slice_ok id a -> slice_ok id b.
Proof. induction 1; eauto using slice_step_ok. Qed.

Lemma slice_steps_identity id a b j :
  slice_steps id a b -> sl_job a = Some j ->
  exists j', sl_job b = Some j' /\ same_identity j j'.
Proof.
  intros Hs. revert j. induction Hs as [a|a b c Hab Hbc IH]; intros j Hj.
  - exists j. by split.
  - destruct (slice_step_identity _ _ _ _ Hab Hj) as (j1 & Hj1 & H1).
    destruct (IH _ Hj1) as (j2 & Hj2 & H2). exists j2. split; [done|]. by etrans.
Qed.

Lemma slice_steps_moves id a b j :
  slice_steps id a b -> slice_ok id a -> sl_job a = Some j ->
  exists j', sl_job b = Some j' /\ rtc edge (j_state j) (j_state j').
Proof.
  intros Hs. revert j. induction Hs as [a|a b c Hab Hbc IH]; intros j Hok Hj.
  - eauto using rtc_refl.
  - destruct (slice_step_moves _ _ _ _ Hab Hok Hj) as (j1 & Hj1 & H1).
    destruct (IH _ (slice_step_ok _ _ _ Hab Hok) Hj1) as (j2 & Hj2 & H2).
    exists j2. split; [done|]. destruct H1 as [<-|H1]; [done|]. by eapply rtc_l.
Qed.
