(* ===== verification/AiRefinement.v ===== *)
(** * Every request moves every job along its abstract machine

    [sound m]: run in a fresh transaction on tables keyed by job id, the
    program [m] commits only changes that are, job by job, runs of
    [slice_step], and a normal return leaves no uncommitted change.  Each
    repository function and each handler is shown sound; the system's step
    relation and its reachable databases follow. *)

From S2P Require Import Prelude PyText PyTime Sha256 Txn AiContracts AiTables AiJobs AiOrchestration AiApi AiProvider AiWorker AiLifecycle.
Local Open Scope string_scope.
Local Open Scope Z_scope.

Definition keyed (d : db) : Prop := forall id j, jobs d !! id = Some j -> j_id j = id.

Definition advances (d d' : db) : Prop :=
  forall id, slice_steps id (slice_of d id) (slice_of d' id).

#[export] Instance advances_preorder : PreOrder advances.
Proof.
  split.
  - intros d id. apply rtc_refl.
  - intros d1 d2 d3 H12 H23 id. etrans; [apply H12|apply H23].
Qed.

Definition sound {A} (m : M db A) : Prop :=
  forall d, preserves (fun d' => keyed d' /\ advances d d') m.

(** ** Rules *)

Lemma slice_step_keyed id a b :
  slice_step id a b -> (forall j, sl_job a = Some j -> j_id j = id) ->
  forall j, sl_job b = Some j -> j_id j = id.
Proof.
  destruct 1; intros Ha j' Hj'; cbn in *; simplify_eq; eauto;
    match goal with
    | _ => exact (Ha _ eq_refl)
    | H : _ <$> ?o = Some _ |- _ => destruct o; cbn in H; simplify_eq; exact (Ha _ eq_refl)
    end.
Qed.

Lemma advances_keyed d d' : advances d d' -> keyed d -> keyed d'.
Proof.
  intros Hadv Hk id. specialize (Hadv id).
  assert (Ha : forall j, sl_job (slice_of d id) = Some j -> j_id j = id) by apply Hk.
  revert Ha. change (jobs d' !! id) with (sl_job (slice_of d' id)).
  induction Hadv; eauto using slice_step_keyed.
Qed.

(** It is enough to look at the change since the transaction began. *)
Lemma sound_intro {A} (m : M db A) :
  (forall s, clean s -> keyed (committed s) ->
   wp m (fun s' r => advances (committed s) (committed s') /\ (forall a, r = inr a -> clean s')) s) ->
  sound m.
Proof.
  intros Hm d s Hc [Hk Ha]. eapply wp_mono; [|by apply Hm].
  intros s' r [Ha' Hcl]. split_and!; [by eapply advances_keyed|by etrans|done].
Qed.

Lemma sound_elim {A} (m : M db A) s :
  sound m -> clean s -> keyed (committed s) ->
  wp m (fun s' r => advances (committed s) (committed s') /\ (forall a, r = inr a -> clean s')) s.
Proof.
  intros Hm Hc Hk. eapply wp_mono; [|apply (Hm (committed s)); done].
  intros s' r [[_ Ha] Hcl]. by split.
Qed.

Lemma sound_bind {A B} (m : M db A) (k : A -> M db B) :
  sound m -> (forall a, sound (k a)) -> sound (m ≫= k).
Proof. intros Hm Hk d. apply preserves_bind; [apply Hm|]. intros a. apply Hk. Qed.
Lemma sound_lift {A} (m : M db A) : (forall I, preserves I m) -> sound m.
Proof. intros Hm d. apply Hm. Qed.
#[export] Hint Resolve sound_lift : mw.

(** Walks through the control flow of a handler. *)
Ltac sound_walk :=
  let d := fresh "d" in intros d;
  repeat first
    [ preserves_step
    | match goal with
      | |- preserves (fun d' => keyed d' /\ advances d d') ?m =>
          refine ((_ : sound m) d); solve [auto with mw]
      end ].

(** ** Running a repository function symbolically *)

Ltac start_sound :=
  let v := fresh "view" in
  apply sound_intro;
  intros [d v clk ids] Hclean Hkeyed; unfold clean in Hclean; cbn in Hclean, Hkeyed; subst v.

(** The two obligations at the end of a run: nothing was committed, or the
    final tables are the initial ones changed at one job. *)
Ltac stop_unchanged := solve [split; [reflexivity|done]].

(** A change that is confined to one job. *)
Lemma advances_at (k : uuid) d d' :
  (forall id, id <> k -> slice_of d' id = slice_of d id) ->
  slice_steps k (slice_of d k) (slice_of d' k) -> advances d d'.
Proof.
  intros Hother Hk id. destruct (decide (id = k)) as [->|Hne]; [done|].
  rewrite (Hother id Hne). apply rtc_refl.
Qed.

Lemma assert_lease_sound job_id w tok org ws allow : sound (assert_lease job_id w tok org ws allow).
Proof. unfold assert_lease. sound_walk. Qed.

Lemma select_lease_spec job_id w tok org ws allow t d j :
  select_lease job_id w tok org ws allow t d = Some j ->
  jobs d !! job_id = Some j /\ lease_matches w tok org ws allow t j = true.
Proof.
  unfold select_lease. destruct (jobs d !! job_id) as [j'|]; cbn; [|done].
  case_match; naive_solver.
Qed.

Lemma owned_job_spec job_id org ws d j :
  owned_job job_id org ws d = Some j ->
  jobs d !! job_id = Some j /\ j_organization_id j = org /\ j_workspace_id j = ws.
Proof.
  unfold owned_job, in_scope. destruct (jobs d !! job_id) as [j'|]; cbn; [|done].
  case_match; [|done]. intros [= ->]. bool_to_prop. naive_solver.
Qed.

(** Ends a run that changed one job: [tac] proves the step of its slice. *)
Ltac stop_at k tac :=
  split; [|done]; apply (advances_at k);
  [ intros ? ?; unfold slice_of; cbn; by rewrite ?lookup_alter_ne, ?lookup_insert_ne by done
  | apply rtc_once; unfold slice_of; cbn; rewrite ?lookup_alter_eq; tac ].

Lemma heartbeat_sound job_id w tok secs svc serial spiffe org ws :
  sound (heartbeat job_id w tok secs svc serial spiffe org ws).
Proof.
  start_sound. unfold heartbeat, assert_lease. wp_run; try stop_unchanged.
  apply select_lease_spec in H as [Hj Hm].
  stop_at job_id ltac:(rewrite Hj; by eapply ss_renew).
Qed.

Lemma append_chunk_sound job_id w tok sequence content cap org ws :
  sound (append_chunk job_id w tok sequence content cap org ws).
Proof.
  start_sound. unfold append_chunk, assert_lease. wp_run; try stop_unchanged;
    apply select_lease_spec in H as [Hj Hm].
  - stop_at job_id ltac:(rewrite Hj; by eapply ss_output).
  - split; [|done]. intros id. apply rtc_refl.
Qed.

(** [finish] after a possible [store_result] in the same transaction. *)
Lemma finish_slice job_id w tok org ws t d d' j is_failed retryable cs delay error dead_change :
  jobs d !! job_id = Some j -> j_id j = job_id ->
  lease_matches w tok org ws true t j = true ->
  completion cs is_failed (approvals d !! job_id) (approvals d' !! job_id) ->
  jobs d' = jobs d -> dead_letters d' = dead_letters d ->
  (forall id, id <> job_id -> approvals d' !! id = approvals d !! id) ->
  let state := finish_state j is_failed retryable cs in
  forall d'', jobs d'' = alter (finish_job state delay error t) job_id (jobs d') ->
  approvals d'' = approvals d' ->
  (if bool_decide (state = dead_letter)
   then dead_letters d'' = <[job_id := dead_change]> (dead_letters d')
   else dead_letters d'' = dead_letters d') ->
  advances d d''.
Proof.
  intros Hj Hid Hm Hc Hjobs Hdead Happ state d'' Hj'' Ha'' Hd''.
  apply (advances_at job_id).
  - intros id Hne. unfold slice_of. rewrite Hj'', Ha'', Hjobs, lookup_alter_ne, Happ by done.
    case_bool_decide; rewrite Hd'', Hdead; [by rewrite lookup_insert_ne|done].
  - apply rtc_once. unfold slice_of. rewrite Hj'', Ha'', Hjobs, lookup_alter_eq, Hj.
    replace (dead_letters d'' !! job_id)
      with (if bool_decide (state = dead_letter) then Some dead_change
            else dead_letters d !! job_id); [by eapply ss_finish|].
    case_bool_decide; rewrite Hd''; [by rewrite lookup_insert_eq|by rewrite Hdead].
Qed.

(** The tables a worker may have written, uncommitted, before it finishes. *)
Record result_stored (job_id : uuid) (cs : job_state) (is_failed : bool) (d d' : db) : Prop :=
  ResultStored {
    st_jobs : jobs d' = jobs d;
    st_dead : dead_letters d' = dead_letters d;
    st_other : forall id, id <> job_id -> approvals d' !! id = approvals d !! id;
    st_completion : completion cs is_failed (approvals d !! job_id) (approvals d' !! job_id);
  }.

Lemma finish_wp job_id w tok is_failed error retryable corr cs details org ws s :
  keyed (committed s) -> result_stored job_id cs is_failed (committed s) (working s) ->
  wp (finish job_id w tok is_failed error retryable corr cs details org ws)
    (fun s' r => advances (committed s) (committed s') /\ (forall a, r = inr a -> clean s')) s.
Proof.
  destruct s as [d d' clk ids]. cbn. intros Hkeyed [Hjobs Hdead Hother Hc].
  unfold finish, assert_lease, audit. wp_run; try stop_unchanged;
    apply select_lease_spec in H as [Hj Hm]; rewrite Hjobs in Hj.
  - split; [|done]. unfold upsert_dead_letter in *. case_match; simplify_eq.
    eapply (finish_slice job_id w tok org ws (clk O) d d' a is_failed retryable cs);
      eauto; cbn.
    rewrite bool_decide_eq_true_2 by by bool_to_prop. by rewrite (Hkeyed _ _ Hj).
  - split; [|done].
    eapply (finish_slice job_id w tok org ws (clk O) d d' a is_failed retryable cs _ _
              (new_dead_letter a "" "" "" JNull 0)); eauto; cbn.
    rewrite bool_decide_eq_false_2 by by bool_to_prop. done.
Qed.

Lemma finish_sound job_id w tok is_failed error retryable corr details org ws :
  sound (finish job_id w tok is_failed error retryable corr completed details org ws).
Proof.
  start_sound. apply finish_wp; [done|]. by split; [..|left].
Qed.

Lemma expire_deadlines_sound org ws : sound (expire_deadlines org ws).
Proof.
  start_sound. unfold expire_deadlines. wp_run. split; [|done].
  intros id. unfold slice_of. cbn. rewrite lookup_update_where.
  destruct (jobs d !! id) as [j|] eqn:E; cbn; [|apply rtc_refl].
  destruct (past_deadline _ _ _ j) eqn:Hp; [|apply rtc_refl].
  apply rtc_once. by eapply ss_expire.
Qed.

Lemma worker_cancel_sound job_id w tok org ws corr :
  sound (worker_cancel job_id w tok org ws corr).
Proof.
  start_sound. unfold worker_cancel, assert_lease, audit.
  wp_run; simplify_eq; try stop_unchanged.
  apply select_lease_spec in H as [Hj Hm].
  stop_at job_id ltac:(rewrite Hj; eapply ss_worker_cancel; [done|by apply negb_true_iff]).
Qed.

Lemma retry_dead_letter_sound job_id aid org ws actor corr :
  sound (retry_dead_letter job_id aid org ws actor corr).
Proof.
  start_sound. unfold retry_dead_letter, audit. wp_run; try stop_unchanged.
  unfold retry_authorized in H.
  destruct (dead_letters d !! job_id) as [dl|] eqn:Hdl; [|done].
  destruct (approvals d !! job_id) as [ap|] eqn:Hap; [|done].
  destruct (jobs d !! job_id) as [j|] eqn:Hj; [|done]. cbn in *.
  bool_to_prop. split; [|done]. apply (advances_at job_id).
  - intros ? ?. unfold slice_of; cbn. by rewrite !lookup_alter_ne.
  - apply rtc_once. unfold slice_of; cbn. rewrite !lookup_alter_eq, Hj, Hap, Hdl.
    eapply ss_retry; eauto. apply null_gt_spec; eauto.
Qed.

(** ** Sweeps over every job *)

(** [recover_expired] as one function on rows: the first two sweeps, then the
    third. *)
Definition resumed (t : Z) (org ws : option uuid) (j : job) : job :=
  let j := if expired_cancel t org ws j then cancel_job_row t j else j in
  if expired_retryable t org ws j then retry_lease t j else j.

Definition recovered (t : Z) (org ws : option uuid) (j : job) : job :=
  let j := resumed t org ws j in
  if expired_exhausted t org ws j then bury_lease t j else j.

Lemma resumed_cases t org ws j :
  (expired_cancel t org ws j = true /\ resumed t org ws j = cancel_job_row t j
   /\ expired_exhausted t org ws j = false)
  \/ (expired_retryable t org ws j = true /\ resumed t org ws j = retry_lease t j
      /\ expired_exhausted t org ws j = false)
  \/ (expired_cancel t org ws j = false /\ expired_retryable t org ws j = false
      /\ resumed t org ws j = j).
Proof.
  unfold resumed, expired_retryable, expired_exhausted.
  destruct (expired_cancel t org ws j) eqn:Ec.
  - left. apply expired_cancel_holds in Ec as [Hs _]. unfold expired_lease. cbn. by rewrite Hs.
  - right. destruct (expired_lease t org ws j) eqn:El; cbn; [|by right].
    destruct (j_attempt_count j <? j_max_attempts j) eqn:Ea; [left|by right].
    split_and!; [done..|]. bool_to_prop. by apply Z.leb_gt.
Qed.

Lemma resumed_exhausted t org ws j :
  expired_exhausted t org ws (resumed t org ws j) = expired_exhausted t org ws j
  /\ (expired_exhausted t org ws j = true -> resumed t org ws j = j).
Proof.
  destruct (resumed_cases t org ws j) as [(_ & -> & ->)|[(_ & -> & ->)|(_ & _ & ->)]];
    split; done.
Qed.

Lemma recovered_cases t org ws j :
  (expired_cancel t org ws j = true /\ recovered t org ws j = cancel_job_row t j
   /\ expired_exhausted t org ws j = false)
  \/ (expired_retryable t org ws j = true /\ recovered t org ws j = retry_lease t j
      /\ expired_exhausted t org ws j = false)
  \/ (expired_exhausted t org ws j = true /\ recovered t org ws j = bury_lease t j)
  \/ (expired_cancel t org ws j = false /\ expired_lease t org ws j = false
      /\ recovered t org ws j = j /\ expired_exhausted t org ws j = false).
Proof.
  unfold recovered. destruct (resumed_exhausted t org ws j) as [-> _].
  destruct (resumed_cases t org ws j) as [(H1 & -> & ->)|[(H1 & -> & ->)|(H1 & H2 & ->)]];
    [by left|by right; left|]. right; right.
  destruct (expired_exhausted t org ws j) eqn:E; [by left|right]. split_and!; [done| |done..].
  unfold expired_retryable, expired_exhausted in *.
  destruct (expired_lease t org ws j); [|done]. cbn in *. bool_to_prop. lia.
Qed.

(** The dead letters of [ids] were filled in, the others are as they were. *)
Definition filled (ids : list uuid) (m m' : gmap uuid dead_letter_row) : Prop :=
  forall id, (id ∈ ids -> exists x, m' !! id = Some (default x (m !! id)))
             /\ (id ∉ ids -> m' !! id = m !! id).

Lemma filled_nil m : filled [] m m.
Proof. intros id. split; [by intros ?%elem_of_nil|done]. Qed.

Lemma filled_snoc ids id x m m' :
  filled ids m m' -> filled (app ids [id]) m (insert_if_absent id x m').
Proof.
  intros H id'. destruct (H id') as [Hin Hout]. unfold insert_if_absent.
  rewrite elem_of_app, list_elem_of_singleton.
  destruct (decide (id' ∈ ids)) as [E|E].
  - destruct (Hin E) as [y Hy]. split; [|naive_solver]. intros _. exists y.
    destruct (m' !! id) eqn:Em; [done|]. rewrite lookup_insert_ne; [done|congruence].
  - specialize (Hout E). destruct (decide (id' = id)) as [->|Hne].
    + split; [|naive_solver]. intros _. rewrite <- Hout. exists x.
      destruct (m' !! id) eqn:Em; [done|]. by rewrite lookup_insert_eq.
    + split; [naive_solver|]. intros _. destruct (m' !! id); [done|]. by rewrite lookup_insert_ne.
Qed.

(** The three tables of the slices, and the committed view, are as in [s]. *)
Record same_slices (s s' : session db) : Prop := SameSlices {
  ss_committed : committed s' = committed s;
  ss_jobs : jobs (working s') = jobs (working s);
  ss_approvals : approvals (working s') = approvals (working s);
  ss_dead : dead_letters (working s') = dead_letters (working s);
  ss_clock : clock s' = clock s;
}.

Lemma recover_cancelled_loop t rows (Q : session db -> exn + unit -> Prop) s :
  (forall s', same_slices s s' -> Q s' (inr tt)) ->
  wp (for_each rows (recover_cancelled t)) Q s.
Proof.
  intros HQ. apply (wp_for_each (fun _ => same_slices s)); [|by split|done].
  intros pre x post s' _ []. unfold recover_cancelled, audit. wp_run. by split.
Qed.

Lemma bury_loop t rows (Q : session db -> exn + unit -> Prop) s :
  (forall e s', committed s' = committed s ->
     Exists (fun j => dead_letter_checks (j_attempt_count j) (j_max_attempts j) = false) rows ->
     Q s' (inl e)) ->
  (forall s', committed s' = committed s -> jobs (working s') = jobs (working s) ->
     approvals (working s') = approvals (working s) -> clock s' = clock s ->
     filled (j_id <$> rows) (dead_letters (working s)) (dead_letters (working s')) ->
     Q s' (inr tt)) ->
  wp (for_each rows (fun row =>
    insert_or "ck_ai_dead_letter_attempts" (insert_lease_dead_letter row t))) Q s.
Proof.
  intros Herr HQ.
  apply (wp_for_each (fun pre s' =>
    committed s' = committed s /\ jobs (working s') = jobs (working s)
    /\ approvals (working s') = approvals (working s) /\ clock s' = clock s
    /\ filled (j_id <$> pre) (dead_letters (working s)) (dead_letters (working s')))).
  - intros pre x post s' -> (Hc & Hj & Ha & Hk & Hf).
    unfold insert_lease_dead_letter. wp_run; case_match; simplify_eq; cbn.
    + split_and!; [done..|]. rewrite fmap_app. by apply filled_snoc.
    + apply Herr; [done|]. rewrite Exists_app, Exists_cons. auto.
  - split_and!; [done..|apply filled_nil].
  - naive_solver.
Qed.

Lemma keyed_update_where p f d :
  (forall j, j_id (f j) = j_id j) -> keyed d -> keyed (sweep_jobs p f d).
Proof.
  intros Hf Hk id j. cbn. rewrite lookup_update_where_Some. intros (v & Hv & ->).
  case_match; rewrite ?Hf; eauto.
Qed.

(** The ids of the rows a sweep returns. *)
Lemma elem_of_returned p f d id :
  (forall j, j_id (f j) = j_id j) -> keyed d ->
  id ∈ j_id <$> returning p f (jobs d) <-> exists j, jobs d !! id = Some j /\ p j = true.
Proof.
  intros Hf Hk. unfold returning. rewrite <- list_fmap_compose, list_elem_of_fmap. split.
  - intros (j & -> & (Hp & k & Hj)%elem_of_select_where). exists j. cbn. rewrite Hf.
    by rewrite (Hk _ _ Hj).
  - intros (j & Hj & Hp). exists j. cbn. rewrite Hf, (Hk _ _ Hj). split; [done|].
    apply elem_of_select_where. eauto.
Qed.

(** What [recover_expired] leaves, and that it fails only on a row that the
    dead-letter table refuses. *)
Lemma recover_expired_wp org ws (Q : session db -> exn + (Z * Z) -> Prop) s :
  keyed (working s) ->
  let t := clock s O in
  (forall e s' id j, committed s' = committed s -> jobs (working s) !! id = Some j ->
     expired_exhausted t org ws j = true ->
     dead_letter_checks (j_attempt_count j) (j_max_attempts j) = false -> Q s' (inl e)) ->
  (forall s' r, committed s' = working s' -> 
     (forall id, jobs (committed s') !! id = recovered t org ws <$> jobs (working s) !! id) ->
     approvals (committed s') = approvals (working s) ->
     (forall id, match jobs (working s) !! id with
                 | Some j =>
                     if expired_exhausted t org ws j
                     then exists x, dead_letters (committed s') !! id
                                    = Some (default x (dead_letters (working s) !! id))
                     else dead_letters (committed s') !! id = dead_letters (working s) !! id
                 | None => dead_letters (committed s') !! id = dead_letters (working s) !! id
                 end) ->
     Q s' (inr r)) ->
  wp (recover_expired org ws) Q s.
Proof.
  intros Hk t Herr HQ. unfold recover_expired. wp_run.
  apply recover_cancelled_loop. intros [d1 w1 c1 i1] [Hc Hj Ha Hd Hcl]. cbn in *.
  subst d1 c1. wp_run. cbn.
  set (w2 := sweep_jobs (expired_retryable t org ws) (retry_lease t) w1).
  assert (Hk2 : keyed w2).
  { apply keyed_update_where; [done|]. intros id j. rewrite Hj.
    by apply (keyed_update_where _ (cancel_job_row t) _ ltac:(done) Hk). }
  assert (Hw2 : forall id, jobs w2 !! id = resumed t org ws <$> jobs (working s) !! id).
  { intros id. cbn. rewrite lookup_update_where, Hj, lookup_update_where.
    by destruct (jobs (working s) !! id). }
  apply bury_loop; cbn.
  - intros e s' Hc Hbad. apply Exists_exists in Hbad as (r & Hr & Hbad).
    unfold returning in Hr. apply list_elem_of_fmap in Hr as (j2 & -> & Hr).
    apply elem_of_select_where in Hr as (Hp & id & Hid).
    fold t w2 in Hid, Hp. rewrite Hw2 in Hid. apply fmap_Some in Hid as (j & Hjj & ->).
    destruct (resumed_exhausted t org ws j) as [E Er]. rewrite E in Hp. specialize (Er Hp).
    rewrite Er in Hbad. by eapply (Herr e s' id j).
  - intros [d3 w3 c3 i3] Hc3 Hj3 Ha3 Hk3 Hf. cbn in *. wp_run. apply HQ; cbn; [done| | |].
    + intros id. rewrite Hj3, lookup_update_where. fold t w2. rewrite Hw2.
      by destruct (jobs (working s) !! id).
    + by rewrite Ha3, Ha.
    + intros id. destruct (Hf id) as [Hin Hout]. fold t in Hin, Hout.
      change (update_where (expired_retryable t org ws) (retry_lease t) (jobs w1))
        with (jobs w2) in Hin, Hout.
      rewrite elem_of_returned, Hw2 in Hin, Hout by done.
      rewrite Hd in Hin, Hout. destruct (jobs (working s) !! id) as [j|]; cbn in Hin, Hout.
      * destruct (resumed_exhausted t org ws j) as [E _].
        destruct (expired_exhausted t org ws j) eqn:Ee; [apply Hin; eauto|apply Hout].
        intros (j' & [= <-] & Hp). congruence.
      * apply Hout. by intros (? & ? & _).
Qed.

Lemma recover_expired_sound org ws : sound (recover_expired org ws).
Proof.
  start_sound. apply recover_expired_wp; cbn; [done| |].
  - intros e s' id j -> _ _ _. split; [reflexivity|done].
  - intros s' r Hc Hj Ha Hd. split; [|done]. intros id. unfold slice_of. rewrite Hj, Ha.
    specialize (Hd id). destruct (jobs d !! id) as [j|]; cbn; [|rewrite Hd; apply rtc_refl].
    destruct (recovered_cases (clk O) org ws j) as
      [(H1 & -> & E)|[(H1 & -> & E)|[(E & ->)|(_ & _ & -> & E)]]]; rewrite E in Hd.
    + rewrite Hd. apply rtc_once. by eapply ss_recover_cancel.
    + rewrite Hd. apply rtc_once. by eapply ss_recover_retry.
    + destruct Hd as [x ->]. apply rtc_once. by eapply ss_recover_dead.
    + rewrite Hd. apply rtc_refl.
Qed.

(** ** Statements beside the slices *)

(** A program that commits nothing and leaves the slices alone, such as the
    audit trail and the event log. *)
Definition beside {A} (m : M db A) : Prop :=
  forall s, wp m (fun s' _ => same_slices s s') s.

Lemma beside_bind {A B} (m : M db A) (k : A -> M db B) :
  beside m -> (forall a, beside (k a)) -> beside (m ≫= k).
Proof.
  intros Hm Hk s. apply wp_bind. eapply wp_mono; [|apply Hm].
  intros s' [e|a] Hs; [done|]. eapply wp_mono; [|apply Hk]. intros s'' r Hs'.
  destruct Hs, Hs'. split; congruence.
Qed.

Lemma wp_beside {A} (m : M db A) (Q : session db -> exn + A -> Prop) s :
  beside m -> (forall s' r, same_slices s s' -> Q s' r) -> wp m Q s.
Proof. intros Hm HQ. eapply wp_mono; [|apply Hm]. eauto. Qed.

Lemma event_beside job_id org ws ty st corr details :
  beside (_event job_id org ws ty st corr details).
Proof.
  intros s. unfold _event. wp_run; [|by split].
  match goal with H : _ = Some _ |- _ => apply bind_Some in H as (m & _ & [= <-]) end. by split.
Qed.

Lemma admit_sound w org ws service : sound (admission w org ws service).
Proof. unfold admission. sound_walk. Qed.

Lemma claim_candidate_spec t profiles org ws d j :
  claim_candidate t profiles org ws d = Some j ->
  claimable t profiles org ws j = true /\ exists k, jobs d !! k = Some j.
Proof.
  unfold claim_candidate. intros [l Hl]%head_Some. apply elem_of_select_where.
  rewrite <- (sort_by_perm claim_before), Hl. apply list_elem_of_here.
Qed.

Lemma claim_sound w secs corr org ws service allowed :
  sound (claim w secs corr org ws service allowed).
Proof.
  unfold claim. apply sound_bind; [auto with mw|intros _].
  apply sound_bind; [apply admit_sound|intros active]. start_sound. unfold audit. wp_run;
    try (split; [intros id; apply rtc_refl|done]).
  match goal with H : claim_candidate _ _ _ _ _ = Some _ |- _ =>
    apply claim_candidate_spec in H as [Hc [k Hk]] end.
  match goal with H : _ = Some _ |- _ => apply bind_Some in H as (m & _ & [= <-]) end.
  pose proof (Hkeyed _ _ Hk) as <-.
  stop_at (j_id j) ltac:(rewrite Hk; by eapply ss_lease).
Qed.

Lemma create_conversation_sound org ws user title corr :
  sound (create_conversation org ws user title corr).
Proof.
  start_sound. unfold create_conversation, audit. wp_run; try stop_unchanged.
  match goal with H : _ = Some _ |- _ => apply bind_Some in H as (m & _ & [= <-]) end.
  split; [intros id; apply rtc_refl|done].
Qed.

(** A new row of [ai_generation_jobs]. *)
Lemma insert_job_spec j d d' :
  insert_job j d = Some d' ->
  jobs d !! j_id j = None /\ d' = d <| jobs := <[j_id j := j]> (jobs d) |>
  /\ 1 <= j_max_attempts j <= 10
  /\ find_by_key (j_organization_id j) (j_workspace_id j) (j_idempotency_key j) d = None.
Proof.
  unfold insert_job, insert_new, job_checks. case_match eqn:E; [|done].
  destruct (jobs d !! j_id j) eqn:Hj; cbn; [done|]. intros [= <-].
  bool_to_prop. unfold between in *. bool_to_prop. naive_solver lia.
Qed.

Lemma advances_insert_job d j d' :
  insert_job j d = Some d' -> fresh_job j -> forall d'',
  jobs d'' = jobs d' -> approvals d'' = approvals d' -> dead_letters d'' = dead_letters d' ->
  advances d d''.
Proof.
  intros (Hnone & -> & _)%insert_job_spec Hf d'' Hj Ha Hd. cbn in Hj, Ha, Hd.
  apply (advances_at (j_id j)); intros; unfold slice_of; rewrite Hj, Ha, Hd.
  - by rewrite lookup_insert_ne.
  - rewrite Hnone, lookup_insert_eq. apply rtc_once. by eapply ss_create.
Qed.

Section with_serialiser.
Context `{Pydantic}.

Lemma create_message_job_sound conv org ws user content task proj key corr maxa t0 :
sound (create_message_job conv org ws user content task proj key corr maxa t0).
Proof.
start_sound. unfold create_message_job, audit, lift_exn. wp_run; try stop_unchanged.
match goal with H1 : insert_job _ ?w = Some _, H2 : _ = Some ?w |- _ =>
  apply bind_Some in H2 as (m & _ & [= <-]);
  pose proof (insert_job_spec _ _ _ H1) as (_ & _ & Hm & _);
  split; [|done]; apply (advances_insert_job _ _ _ H1) end; done.
Qed.

Lemma submit_sound cfg command ws today : sound (submit cfg command ws today).
Proof.
start_sound. unfold submit, quota_gates. wp_run; try stop_unchanged; cbn in *.
all: apply wp_beside; [apply event_beside|].
all: intros s' [e|[]] [Hc Hj Ha Hd _]; cbn in *;
  [rewrite Hc; split; [reflexivity|done]|].
all: wp_run; split; [|done].
all: match goal with H : insert_job _ _ = Some _ |- _ =>
  pose proof (insert_job_spec _ _ _ H) as (_ & _ & Hm & _);
  eapply (advances_insert_job _ _ _ H) end; done.
Qed.
End with_serialiser.

Lemma cancel_sound job_id org ws actor corr : sound (cancel job_id org ws actor corr).
Proof.
  start_sound. unfold cancel. wp_run; try stop_unchanged.
  apply owned_job_spec in Heqo as (Hj & _).
  apply wp_beside; [apply event_beside|].
  intros s' [e|[]] [Hc Hj' Ha Hd _]; cbn in *; [rewrite Hc; split; [reflexivity|done]|].
  wp_run. split; [|done]. apply (advances_at job_id).
  - intros id Hne. unfold slice_of; cbn. by rewrite Hj', Ha, Hd, lookup_alter_ne.
  - apply rtc_once. unfold slice_of; cbn. rewrite Hj', Ha, Hd, lookup_alter_eq, Hj.
    eapply ss_cancel. by apply negb_true_iff.
Qed.

Lemma decide_command_sound job_id org ws actor corr ok reason :
  sound (decide_command job_id org ws actor corr ok reason).
Proof.
  start_sound. unfold decide_command. wp_run; try stop_unchanged.
  destruct (approvals d !! job_id) as [a|] eqn:Hap; [|done]. cbn in H.
  unfold pending_approval in H. bool_to_prop.
  apply wp_beside; [apply event_beside|].
  intros s' [e|[]] [Hc Hj' Ha Hd _]; cbn in *; [rewrite Hc; split; [reflexivity|done]|].
  wp_run. split; [|done]. apply (advances_at job_id).
  - intros id Hne. unfold slice_of; cbn. by rewrite Hj', Ha, Hd, !lookup_alter_ne.
  - apply rtc_once. unfold slice_of; cbn. rewrite Hj', Ha, Hd, !lookup_alter_eq, Hap.
    destruct ok; [by eapply (ss_decide _ _ _ _ _ _ _ true)|by eapply (ss_decide _ _ _ _ _ _ _ false)].
Qed.

(** ** Handlers *)

Lemma store_result_wp j r (Q : session db -> exn + job_state -> Prop) s :
  (forall e s', committed s' = committed s -> Q s' (inl e)) ->
  (forall cs s', committed s' = committed s -> 
     result_stored (rj_id j) cs false (working s) (working s') -> Q s' (inr cs)) ->
  wp (store_result j r) Q s.
Proof.
  intros Herr HQ. unfold store_result. wp_run; try by apply Herr.
  all: repeat match goal with H : _ = Some _ |- _ =>
    apply bind_Some in H as (? & _ & [= <-]) end.
  - apply HQ; [done|]. split; [done..| |].
    + intros id Hne. cbn. unfold insert_if_absent. case_match; [done|]. by rewrite lookup_insert_ne.
    + right. split_and!; [done..|]. cbn. unfold insert_if_absent.
      destruct (approvals (working s) !! rj_id j) as [a|] eqn:E.
      * exists (a <| ap_state := ap_pending |>). split; [done|]. by rewrite E.
      * rewrite lookup_insert_eq. eexists. split; [|reflexivity]. done.
  - apply HQ; [done|]. split; [done..|]. by left.
Qed.

Lemma completed_result_status_sound job_id org ws r :
  sound (completed_result_status job_id org ws r).
Proof. unfold completed_result_status. sound_walk. Qed.

#[local] Hint Resolve assert_lease_sound heartbeat_sound append_chunk_sound finish_sound
  expire_deadlines_sound worker_cancel_sound retry_dead_letter_sound recover_expired_sound
  claim_sound create_conversation_sound @create_message_job_sound @submit_sound cancel_sound
  decide_command_sound completed_result_status_sound : mw.

Lemma permission_409_sound {A} (m : M db A) : sound m -> sound (permission_409 m).
Proof. intros Hm. unfold permission_409. sound_walk. Qed.

Lemma lookup_404_sound {A} detail (m : M db A) : sound m -> sound (lookup_404 detail m).
Proof. intros Hm. unfold lookup_404. sound_walk. Qed.

Lemma complete_job_sound p job_id w tok r : sound (complete_job p job_id w tok r).
Proof.
  unfold complete_job, same_worker. apply sound_bind; [auto with mw|intros _].
  apply sound_bind; [apply permission_409_sound; auto with mw|intros [st|]]; [auto with mw|].
  start_sound. unfold permission_409, assert_lease. destruct r as [r|].
  - wp_run; try stop_unchanged; try (repeat case_match; stop_unchanged).
    match goal with H : select_lease _ _ _ _ _ _ _ _ = Some _ |- _ =>
      apply select_lease_spec in H as [Hj Hm] end.
    apply store_result_wp; cbn.
    + intros e s' ->. split; [reflexivity|done].
    + rewrite (Hkeyed _ _ Hj). intros cs [d1 w1 c1 i1] Hc Hst. cbn in Hc, Hst. subst d1.
      apply wp_bind, wp_try. eapply wp_mono; [|by apply finish_wp].
      intros s' [e|st] [Ha Hcl]; [|wp_run; split; [done|]; intros; by eapply Hcl].
      destruct e; wp_run; by split.
  - wp_run. eapply wp_mono; [|by apply finish_wp; [done|split; [..|left]]].
    intros s' [e|st] [Ha Hcl]; [|wp_run; split; [done|]; intros; by eapply Hcl].
    destruct e; wp_run; by split.
Qed.

#[local] Hint Resolve complete_job_sound permission_409_sound lookup_404_sound : mw.

Lemma claim_job_sound cfg p w allowed : sound (claim_job cfg p w allowed).
Proof. unfold claim_job, same_worker. sound_walk. Qed.

Lemma job_heartbeat_sound cfg p job_id w tok : sound (job_heartbeat cfg p job_id w tok).
Proof. unfold job_heartbeat, same_worker. apply permission_409_sound. sound_walk. Qed.

Lemma job_chunk_sound cfg p job_id w tok seq content :
  sound (job_chunk cfg p job_id w tok seq content).
Proof. unfold job_chunk, same_worker. sound_walk. Qed.

Lemma fail_job_sound p job_id w tok code retryable details :
  sound (fail_job p job_id w tok code retryable details).
Proof. unfold fail_job, _finish, same_worker. apply permission_409_sound. sound_walk. Qed.

Lemma release_job_sound p job_id w tok : sound (release_job p job_id w tok).
Proof. unfold release_job, _finish, same_worker. apply permission_409_sound. sound_walk. Qed.

Lemma get_job_sound p job_id : sound (get_job p job_id).
Proof. unfold get_job, get_worker_job. sound_walk. Qed.

Lemma cancel_job_sound p job_id w tok : sound (cancel_job p job_id w tok).
Proof. unfold cancel_job, same_worker. sound_walk. Qed.

Lemma dead_letters_page_sound p : sound (dead_letters_page p).
Proof. unfold dead_letters_page, list_dead_letters. sound_walk. Qed.

Lemma retry_dead_letter_job_sound p job_id aid : sound (retry_dead_letter_job p job_id aid).
Proof. unfold retry_dead_letter_job. sound_walk. Qed.

Lemma cancellation_check_sound p job_id w tok : sound (cancellation_check p job_id w tok).
Proof. unfold cancellation_check, same_worker. apply permission_409_sound. sound_walk. Qed.

Lemma recover_sound p : sound (recover p).
Proof. unfold recover. apply recover_expired_sound. Qed.

(** A handler that writes only tables beside the slices. *)
Lemma register_worker_sound p w caps n : sound (register_worker p w caps n).
Proof.
  start_sound. unfold register_worker, same_worker. wp_run; [|stop_unchanged].
  split; [intros id; apply rtc_refl|done].
Qed.

Lemma worker_heartbeat_api_sound cfg p w cur : sound (worker_heartbeat_api cfg p w cur).
Proof.
  start_sound. unfold worker_heartbeat_api, same_worker. wp_run; [|stop_unchanged].
  split; [intros id; apply rtc_refl|done].
Qed.

Lemma console_create_conversation_sound cfg who title corr :
  sound (console_create_conversation cfg who title corr).
Proof. unfold console_create_conversation, require_ai_submissions_available. sound_walk. Qed.

Lemma create_message_sound `{Pydantic} cfg who conv content task proj key corr t0 :
  sound (create_message cfg who conv content task proj key corr t0).
Proof. unfold create_message, require_ai_submissions_available. sound_walk. Qed.

Lemma console_cancel_sound who job_id corr : sound (console_cancel who job_id corr).
Proof.
  start_sound. unfold console_cancel, audit. wp_run; try stop_unchanged.
  apply owned_job_spec in Heqo as (Hj & _).
  stop_at job_id ltac:(rewrite Hj; eapply ss_browser_cancel; by apply negb_true_iff).
Qed.

Lemma submit_command_sound `{Pydantic} cfg who command today :
  sound (submit_command cfg who command today).
Proof. unfold submit_command. sound_walk. Qed.

Lemma get_command_sound who id : sound (get_command who id).
Proof. unfold get_command, get. apply lookup_404_sound. sound_walk. Qed.

Lemma cancel_command_sound who id corr : sound (cancel_command who id corr).
Proof. unfold cancel_command. apply lookup_404_sound. auto with mw. Qed.

Lemma get_result_sound who id : sound (get_result who id).
Proof. unfold get_result, result, get. sound_walk. Qed.

Lemma _decision_sound who id corr ok reason : sound (_decision who id corr ok reason).
Proof. unfold _decision. sound_walk. Qed.

(** ** Transactions of the OpenAI worker *)

Lemma worker_claim_sound cfg o : sound (worker_claim cfg o).
Proof. unfold worker_claim, validate_worker_registration, lift_exn. sound_walk. Qed.

Lemma _maintain_lease_sound cfg o job_id tok : sound (_maintain_lease cfg o job_id tok).
Proof.
  start_sound. unfold _maintain_lease. wp_run; try stop_unchanged; try done.
  all: split; [|done].
  destruct (select_lease _ _ _ _ _ _ _ _) as [j|] eqn:E; [|done].
  apply select_lease_spec in E as [Hj Hm].
  apply (advances_at job_id).
  - intros id Hne. unfold slice_of; cbn. by rewrite lookup_alter_ne.
  - apply rtc_once. unfold slice_of; cbn. rewrite lookup_alter_eq, Hj. by eapply ss_renew.
Qed.

Lemma deliver_sound c w corr r : sound (deliver c w corr r).
Proof.
  start_sound. unfold deliver. apply wp_bind, store_result_wp; cbn.
  - intros e s' ->. split; [reflexivity|done].
  - intros cs [d1 w1 c1 i1] Hc Hst. cbn in Hc, Hst. subst d1.
    eapply wp_mono; [|by apply finish_wp]. done.
Qed.
