(* ===== verification/AiSystem.v ===== *)
(** * The AI job platform as a transition system

    A request is a call of one of the handlers, or a transaction of the OpenAI
    worker, with the clock readings and the UUIDs it draws; serving it takes the stored tables to the tables it
    commits.  A database is reachable when a sequence of requests, served one
    transaction after another, produces it from empty tables; administrators
    write quotas and enable registrations outside the service, as steps of
    their own. *)

From S2P Require Import Prelude PyText PyTime Sha256 Txn AiContracts AiTables AiJobs AiOrchestration AiApi AiProvider AiWorker AiLifecycle AiRefinement.
Local Open Scope string_scope.
Local Open Scope Z_scope.

Inductive request :=
  | RqClaim (p : WorkerPrincipal) (worker : string) (profiles : option (list string))
  | RqJobHeartbeat (p : WorkerPrincipal) (job_id : uuid) (worker : string) (token : Z)
  | RqChunk (p : WorkerPrincipal) (job_id : uuid) (worker : string) (token sequence : Z)
      (content : string)
  | RqComplete (p : WorkerPrincipal) (job_id : uuid) (worker : string) (token : Z)
      (r : option AIResult)
  | RqFail (p : WorkerPrincipal) (job_id : uuid) (worker : string) (token : Z) (code : string)
      (retryable : bool) (details : list (string * json))
  | RqRelease (p : WorkerPrincipal) (job_id : uuid) (worker : string) (token : Z)
  | RqGetJob (p : WorkerPrincipal) (job_id : uuid)
  | RqWorkerCancel (p : WorkerPrincipal) (job_id : uuid) (worker : string) (token : Z)
  | RqDeadLetters (p : WorkerPrincipal)
  | RqRetryDeadLetter (p : WorkerPrincipal) (job_id approval_id : uuid)
  | RqCancellationCheck (p : WorkerPrincipal) (job_id : uuid) (worker : string) (token : Z)
  | RqRecover (p : WorkerPrincipal)
  | RqRegister (p : WorkerPrincipal) (worker : string) (capabilities : json) (n : Z)
  | RqWorkerHeartbeat (p : WorkerPrincipal) (worker : string) (current : option uuid)
  | RqConversation (who : Tenant) (title corr : string)
  | RqMessage (who : Tenant) (conversation : uuid) (content task : string)
      (project : option string) (key corr : string) (now_utc : Z)
  | RqConsoleCancel (who : Tenant) (job_id : uuid) (corr : string)
  | RqSubmit (who : Tenant) (command : AICommand) (today : Z)
  | RqGet (who : Tenant) (id : uuid)
  | RqResult (who : Tenant) (id : uuid)
  | RqCancel (who : Tenant) (id : uuid) (corr : string)
  | RqDecide (who : Tenant) (id : uuid) (corr : string) (is_approved : bool) (reason : string)
  | RqOpenAiClaim (o : openai_settings)
  | RqOpenAiRenew (o : openai_settings) (job_id : uuid) (token : Z)
  | RqOpenAiChunk (job_id : uuid) (worker : string) (token sequence : Z) (content : string)
  | RqOpenAiFinish (job_id : uuid) (worker : string) (token : Z) (is_failed : bool)
      (error : option string) (retryable : bool) (corr : string) (details : list (string * json))
  | RqOpenAiDeliver (c : claim_view) (worker corr : string) (r : AIResult)
  | RqOpenAiRecover (organization workspace : uuid).

(** Drops the body of the response. *)
Definition ignore {A} (m : M db A) : M db unit := m ;; mret tt.

Section system.
Context `{Pydantic} (cfg : settings).

Definition handle (r : request) : M db unit :=
match r with
| RqClaim p w profiles => ignore (claim_job cfg p w profiles)
| RqJobHeartbeat p j w tok => ignore (job_heartbeat cfg p j w tok)
| RqChunk p j w tok seq content => ignore (job_chunk cfg p j w tok seq content)
| RqComplete p j w tok r => ignore (complete_job p j w tok r)
| RqFail p j w tok code retryable details =>
    ignore (fail_job p j w tok code retryable details)
| RqRelease p j w tok => ignore (release_job p j w tok)
| RqGetJob p j => ignore (get_job p j)
| RqWorkerCancel p j w tok => ignore (cancel_job p j w tok)
| RqDeadLetters p => ignore (dead_letters_page p)
| RqRetryDeadLetter p j a => ignore (retry_dead_letter_job p j a)
| RqCancellationCheck p j w tok => ignore (cancellation_check p j w tok)
| RqRecover p => ignore (recover p)
| RqRegister p w caps n => ignore (register_worker p w caps n)
| RqWorkerHeartbeat p w cur => ignore (worker_heartbeat_api cfg p w cur)
| RqConversation who title corr => ignore (console_create_conversation cfg who title corr)
| RqMessage who conv content task proj key corr t =>
    ignore (create_message cfg who conv content task proj key corr t)
| RqConsoleCancel who j corr => ignore (console_cancel who j corr)
| RqSubmit who command today => ignore (submit_command cfg who command today)
| RqGet who id => ignore (get_command who id)
| RqResult who id => ignore (get_result who id)
| RqCancel who id corr => ignore (cancel_command who id corr)
| RqDecide who id corr ok reason => ignore (_decision who id corr ok reason)
| RqOpenAiClaim o => ignore (worker_claim cfg o)
| RqOpenAiRenew o j tok => ignore (_maintain_lease cfg o j tok)
| RqOpenAiChunk j w tok seq content =>
    ignore (append_chunk j w tok seq content (ai_job_max_output_bytes cfg) None None)
| RqOpenAiFinish j w tok is_failed err retryable corr details =>
    ignore (finish j w tok is_failed err retryable corr completed details None None)
| RqOpenAiDeliver c w corr r => ignore (deliver c w corr r)
| RqOpenAiRecover org ws => ignore (recover_expired (Some org) (Some ws))
end.

(** The tables after a request, and its response. *)
Definition serve (clk : nat -> Z) (ids : nat -> uuid) (r : request) (d : db) : db * (exn + unit) :=
with_session clk ids (handle r) d.

Inductive step : db -> db -> Prop :=
| step_request clk ids r d : step d (serve clk ids r d).1
| step_quota key q d : step d (d <| quotas ::= <[key := q]> |>)
| step_enable worker b d :
    step d (d <| registrations ::= alter (fun r => r <| rg_enabled := b |>) worker |>).

Definition reachable (d : db) : Prop := rtc step empty_db d.

(** ** Every step moves every slice along the abstract machine *)

Lemma ignore_sound {A} (m : M db A) : sound m -> sound (ignore m).
Proof. intros Hm. apply sound_bind; [done|]. auto with mw. Qed.

Lemma handle_sound r : sound (handle r).
Proof.
destruct r; apply ignore_sound;
  auto using claim_job_sound, job_heartbeat_sound, job_chunk_sound, complete_job_sound,
    fail_job_sound, release_job_sound, get_job_sound, cancel_job_sound,
    dead_letters_page_sound, retry_dead_letter_job_sound, cancellation_check_sound,
    recover_sound, register_worker_sound, worker_heartbeat_api_sound,
    console_create_conversation_sound, create_message_sound, console_cancel_sound,
    submit_command_sound, get_command_sound, get_result_sound, cancel_command_sound,
    _decision_sound, worker_claim_sound, _maintain_lease_sound, append_chunk_sound, finish_sound,
    deliver_sound, recover_expired_sound.
Qed.

Lemma serve_advances clk ids r d : keyed d -> advances d (serve clk ids r d).1.
Proof. intros Hk. by destruct (sound_elim _ (Session d d clk ids) (handle_sound r) eq_refl Hk). Qed.

Lemma step_advances d d' : step d d' -> keyed d -> advances d d'.
Proof.
destruct 1; intros Hk; [by apply serve_advances|intros id; apply rtc_refl..].
Qed.

Lemma steps_advance d d' : rtc step d d' -> keyed d -> advances d d'.
Proof.
induction 1 as [|d1 d2 d3 H12 H23 IH]; intros Hk; [done|].
assert (Ha : advances d1 d2) by by apply step_advances.
etrans; [done|]. apply IH. by eapply advances_keyed.
Qed.

Lemma keyed_empty : keyed empty_db.
Proof. intros id j. cbn. by rewrite lookup_empty. Qed.

Lemma reachable_keyed d : reachable d -> keyed d.
Proof. intros Hr. eapply advances_keyed, keyed_empty. by apply steps_advance, keyed_empty. Qed.

Lemma reachable_slice_ok d id : reachable d -> slice_ok id (slice_of d id).
Proof.
intros Hr. eapply slice_steps_ok.
- by apply steps_advance, keyed_empty.
- unfold slice_of. cbn. by rewrite !lookup_empty.
Qed.

Lemma reachable_row d id j :
reachable d -> jobs d !! id = Some j ->
j_id j = id /\ row_ok j /\ approval_ok (approvals d !! id) j /\ dead_ok (dead_letters d !! id) j.
Proof.
intros Hr Hj. pose proof (reachable_slice_ok d id Hr) as Hok.
unfold slice_ok, slice_of in Hok. cbn in Hok. by rewrite Hj in Hok.
Qed.
End system.
