(* ===== verification/AiLedger.v ===== *)
(** * The attempt ledger, the output account and the idempotency keys

    Three facts that relate the job rows to the tables beside them, kept by
    every request: the attempts of a job are numbered one to its attempt
    count, each under its own fencing token; its [output_bytes] is the size of
    the chunks it stored; and no two jobs of a workspace share an idempotency
    key. *)

From S2P Require Import Prelude PyText PyTime Sha256 Txn AiContracts AiTables AiJobs AiOrchestration AiApi AiProvider AiWorker AiLifecycle AiRefinement AiSystem.
Local Open Scope string_scope.
Local Open Scope Z_scope.

(** The bytes of the chunks stored for a job. *)
Definition chunk_bytes (id : uuid) (m : gmap (uuid * Z) chunk) : Z :=
  sum_Z ((fun kc => if bool_decide (kc.1.1 = id) then byte_len (ck_content kc.2) else 0)
           <$> map_to_list m).

Record ledger_ok (d : db) : Prop := LedgerOk {
  lg_keyed : keyed d;
  lg_token : forall id j, jobs d !! id = Some j ->
    j_fencing_token j = j_attempt_count j /\ 0 <= j_attempt_count j;
  lg_attempts : forall id n,
    is_Some (attempts d !! (id, n))
    <-> exists j, jobs d !! id = Some j /\ 1 <= n <= j_attempt_count j;
  lg_attempt_token : forall id n a, attempts d !! (id, n) = Some a -> at_fencing_token a = n;
  lg_output : forall id, from_option j_output_bytes 0 (jobs d !! id) = chunk_bytes id (chunks d);
  lg_unique : forall id id' j j',
    jobs d !! id = Some j -> jobs d !! id' = Some j' ->
    j_organization_id j = j_organization_id j' -> j_workspace_id j = j_workspace_id j' ->
    j_idempotency_key j = j_idempotency_key j' -> id = id';
}.

(** ** Statements that do not touch the ledger *)

Definition job_core (j : job) : uuid * Z * Z * Z * uuid * uuid * string :=
  (j_id j, j_attempt_count j, j_fencing_token j, j_output_bytes j, j_organization_id j,
   j_workspace_id j, j_idempotency_key j).

Record same_ledger (d d' : db) : Prop := SameLedger {
  sl_core : forall id, job_core <$> jobs d' !! id = job_core <$> jobs d !! id;
  sl_attempts : forall k, at_fencing_token <$> attempts d' !! k = at_fencing_token <$> attempts d !! k;
  sl_chunks : chunks d' = chunks d;
}.

#[export] Instance same_ledger_preorder : PreOrder same_ledger.
Proof.
  split; [by intros d|]. intros d1 d2 d3 [] []. split; intros; congruence.
Qed.

Lemma same_ledger_job d d' id j' :
  same_ledger d d' -> jobs d' !! id = Some j' ->
  exists j, jobs d !! id = Some j /\ job_core j' = job_core j.
Proof.
  intros [Hc _ _] Hj. specialize (Hc id). rewrite Hj in Hc.
  destruct (jobs d !! id) as [j|]; [|done]. apply Some_inj in Hc. eauto.
Qed.

Lemma same_ledger_sym d d' : same_ledger d d' -> same_ledger d' d.
Proof. intros []. split; congruence. Qed.

Lemma same_ledger_ok d d' : same_ledger d d' -> ledger_ok d -> ledger_ok d'.
Proof.
  intros Hs [Hk Ht Ha Hat Ho Hu]. pose proof Hs as [Hc Hatt Hch].
  split.
  - intros id j' (j & Hj & [= -> _])%(same_ledger_job _ _ _ _ Hs). eauto.
  - intros id j' (j & Hj & [=])%(same_ledger_job _ _ _ _ Hs). specialize (Ht id j Hj). lia.
  - intros id n. specialize (Hatt (id, n)).
    assert (is_Some (attempts d' !! (id, n)) <-> is_Some (attempts d !! (id, n))) as ->.
    { rewrite <- (fmap_is_Some at_fencing_token), Hatt. by rewrite fmap_is_Some. }
    rewrite Ha. split; intros (j & Hj & Hn).
    + apply same_ledger_sym in Hs.
      destruct (same_ledger_job _ _ _ _ Hs Hj) as (j' & Hj' & [=]). exists j'. split; [done|lia].
    + destruct (same_ledger_job _ _ _ _ Hs Hj) as (j' & Hj' & [=]). exists j'. split; [done|lia].
  - intros id n a' Ha'. specialize (Hatt (id, n)). rewrite Ha' in Hatt.
    destruct (attempts d !! (id, n)) as [a|] eqn:E; [|done]. cbn in Hatt.
    specialize (Hat _ _ _ E). congruence.
  - intros id. rewrite Hch, <- Ho. specialize (Hc id).
    destruct (jobs d' !! id), (jobs d !! id); try done. by apply Some_inj in Hc as [=].
  - intros id id' j1 j2 (k1 & Hk1 & E1)%(same_ledger_job _ _ _ _ Hs)
      (k2 & Hk2 & E2)%(same_ledger_job _ _ _ _ Hs) Ho1 Hw1 Hkey.
    injection E1 as _ _ _ _ Eo1 Ew1 Ek1. injection E2 as _ _ _ _ Eo2 Ew2 Ek2.
    apply (Hu id id' k1 k2); congruence.
Qed.

(** [calm m]: no statement of [m] touches the ledger. *)
Definition calm {A} (m : M db A) : Prop := forall d, keeps (same_ledger d) m.

Lemma calm_update_job id f d :
  (forall j, job_core (f j) = job_core j) -> same_ledger d (update_job id f d).
Proof.
  intros Hf. split; [|done..]. intros id'. cbn. rewrite lookup_alter.
  case_decide as E; [subst|done]. by destruct (jobs d !! id'); cbn; rewrite ?Hf.
Qed.
Lemma calm_sweep p f d :
  (forall j, job_core (f j) = job_core j) -> same_ledger d (sweep_jobs p f d).
Proof.
  intros Hf. split; [|done..]. intros id. cbn. rewrite lookup_update_where.
  destruct (jobs d !! id) as [j|]; cbn; [|done]. case_match; by rewrite ?Hf.
Qed.
Lemma calm_update_attempts id tok w f d :
  (forall a, at_fencing_token (f a) = at_fencing_token a) ->
  same_ledger d (update_attempts id tok w f d).
Proof.
  intros Hf. split; [done| |done]. intros k. cbn. rewrite map_lookup_imap.
  destruct (attempts d !! k) as [a|]; cbn; [|done]. case_match; by rewrite ?Hf.
Qed.
Lemma calm_beside d d' :
  jobs d' = jobs d -> attempts d' = attempts d -> chunks d' = chunks d -> same_ledger d d'.
Proof. intros Hj Ha Hc. split; intros; by rewrite ?Hj, ?Ha. Qed.

Ltac calm_statement :=
  let Hd := fresh in
  intros ? Hd; etrans; [exact Hd|];
  first [ apply calm_update_job; done | apply calm_sweep; done
        | apply calm_update_attempts; done | apply calm_beside; done ].
Ltac calm_insertion :=
  let Hd := fresh in let Hs := fresh in
  intros ? ? Hd Hs; etrans; [exact Hd|];
  repeat (apply bind_Some in Hs as (? & _ & Hs)); repeat case_match; simplify_eq;
  apply calm_beside; done.
Ltac calm_walk :=
  intros ?;
  repeat first
    [ keeps_step
    | match goal with
      | |- keeps (same_ledger ?d) ?m => refine ((_ : calm m) d); solve [auto with mw]
      end ];
  solve [calm_statement|calm_insertion].

Lemma calm_assert_lease id w tok org ws b : calm (assert_lease id w tok org ws b).
Proof. unfold assert_lease. calm_walk. Qed.
Lemma calm_audit ev corr actor org ws id details : calm (audit ev corr actor org ws id details).
Proof. unfold audit. calm_walk. Qed.
Lemma calm_event id org ws ev st corr details : calm (_event id org ws ev st corr details).
Proof. unfold _event. calm_walk. Qed.

#[local] Hint Resolve calm_assert_lease calm_audit calm_event : mw.

Lemma calm_heartbeat id w tok secs svc serial spiffe org ws :
  calm (heartbeat id w tok secs svc serial spiffe org ws).
Proof. unfold heartbeat. calm_walk. Qed.
Lemma calm_finish id w tok fl err rt corr cs details org ws :
  calm (finish id w tok fl err rt corr cs details org ws).
Proof. unfold finish, upsert_dead_letter. calm_walk. Qed.
Lemma calm_worker_cancel id w tok org ws corr : calm (worker_cancel id w tok org ws corr).
Proof. unfold worker_cancel. calm_walk. Qed.
Lemma calm_retry_dead_letter id aid org ws actor corr :
  calm (retry_dead_letter id aid org ws actor corr).
Proof. unfold retry_dead_letter. calm_walk. Qed.
Lemma calm_recover_expired org ws : calm (recover_expired org ws).
Proof. unfold recover_expired, recover_cancelled, insert_lease_dead_letter. calm_walk. Qed.
Lemma calm_expire_deadlines org ws : calm (expire_deadlines org ws).
Proof. unfold expire_deadlines. calm_walk. Qed.
Lemma calm_create_conversation org ws user title corr :
  calm (create_conversation org ws user title corr).
Proof. unfold create_conversation. calm_walk. Qed.
Lemma calm_cancel id org ws actor corr : calm (cancel id org ws actor corr).
Proof. unfold cancel. calm_walk. Qed.
Lemma calm_decide_command id org ws actor corr ok reason :
  calm (decide_command id org ws actor corr ok reason).
Proof. unfold decide_command. calm_walk. Qed.
Lemma calm_store_result j r : calm (store_result j r).
Proof. unfold store_result. calm_walk. Qed.

(** ** The statements that do *)

Lemma calm_preserves {A} (I : db -> Prop) (m : M db A) :
  (forall d d', same_ledger d d' -> I d -> I d') -> (forall d, I d -> keyed d) ->
  sound m -> calm m -> preserves I m.
Proof.
  intros Isame Ikeyed Hs Hc s Hcl HI.
  pose proof (sound_elim m s Hs Hcl (Ikeyed _ HI)) as [_ Hret]. split; [|exact Hret].
  eapply Isame; [|exact HI]. apply (Hc (committed s)). split; [done|]. by rewrite Hcl.
Qed.

Lemma calm_ledger {A} (m : M db A) : sound m -> calm m -> preserves ledger_ok m.
Proof. apply calm_preserves; [apply same_ledger_ok|apply lg_keyed]. Qed.

Lemma sum_Z_perm l l' : l ≡ₚ l' -> sum_Z l = sum_Z l'.
Proof. unfold sum_Z. induction 1; cbn; lia. Qed.

Lemma chunk_bytes_insert id id' seq c m :
  m !! (id', seq) = None ->
  chunk_bytes id (<[(id', seq) := c]> m)
  = (if bool_decide (id' = id) then byte_len (ck_content c) else 0) + chunk_bytes id m.
Proof.
  intros Hm. unfold chunk_bytes.
  erewrite sum_Z_perm; [|apply fmap_Permutation, map_to_list_insert, Hm]. done.
Qed.

Lemma ledger_claim d id j w t secs a :
  ledger_ok d -> jobs d !! id = Some j ->
  at_fencing_token a = j_fencing_token j + 1 ->
  forall d', jobs d' = alter (lease_to w t secs) id (jobs d) ->
  attempts d' = <[(id, j_attempt_count j + 1) := a]> (attempts d) -> chunks d' = chunks d -> ledger_ok d'.
Proof.
  intros [Hk Ht Ha Hat Ho Hu] Hj Htok d' Hj' Ha' Hc'.
  destruct (Ht _ _ Hj) as [Hjt Hpos].
  assert (Hl : forall id', jobs d' !! id'
     = if bool_decide (id' = id) then Some (lease_to w t secs j) else jobs d !! id').
  { intros id'. rewrite Hj', lookup_alter. case_bool_decide; case_decide; subst; try done.
    by rewrite Hj. }
  split.
  - intros id' j'. rewrite Hl. case_bool_decide; [|by apply Hk]. intros [= <-]. subst.
    exact (Hk _ _ Hj).
  - intros id' j'. rewrite Hl. case_bool_decide; [|by apply Ht]. intros [= <-]. cbn. lia.
  - intros id' n. rewrite Ha', Hl, lookup_insert_is_Some, Ha.
    case_bool_decide as E; [subst id'|].
    + split.
      * intros [[= <-]|[_ (j0 & Hj0 & Hn)]]; eexists; (split; [reflexivity|]); cbn; simplify_eq; lia.
      * intros (j0 & [= <-] & Hn). cbn in Hn.
        destruct (decide (n = j_attempt_count j + 1)) as [->|Hne]; [by left|right].
        split; [naive_solver|]. exists j. split; [done|lia].
    + split; [intros [[= <- _]|[_ ?]]; [done|done]|]. intros Hex. right. split; [naive_solver|done].
  - intros id' n a'. rewrite Ha'. rewrite lookup_insert_Some.
    intros [[[= <- <-] <-]|[_ ?]]; [|by eapply Hat]. by rewrite Htok, Hjt.
  - intros id'. rewrite Hl, Hc', <- Ho. case_bool_decide; [subst; by rewrite Hj|done].
  - intros i1 i2 j1 j2. rewrite !Hl.
    assert (Hcore : forall i k, (if bool_decide (i = id) then Some (lease_to w t secs j)
                       else jobs d !! i) = Some k ->
        exists k0, jobs d !! i = Some k0 /\ j_organization_id k = j_organization_id k0
          /\ j_workspace_id k = j_workspace_id k0 /\ j_idempotency_key k = j_idempotency_key k0).
    { intros i k. case_bool_decide; intros Hi; [apply Some_inj in Hi; subst; by exists j|by exists k]. }
    intros H1 H2 Eo Ew Ek.
    apply Hcore in H1 as (k1 & ? & ? & ? & ?). apply Hcore in H2 as (k2 & ? & ? & ? & ?).
    apply (Hu i1 i2 k1 k2); congruence.
Qed.

Ltac start_preserves :=
  let v := fresh "view" in
  intros [d v clk ids] Hclean Hok; unfold clean in Hclean; cbn in Hclean, Hok; subst v.

Lemma claim_ledger w secs corr org ws service allowed :
  preserves ledger_ok (claim w secs corr org ws service allowed).
Proof.
  unfold claim, admission. apply preserves_bind; [auto with mw|intros _].
  apply preserves_bind; [preserves_walk|intros active].
  start_preserves. unfold audit. wp_run; try done.
  - split; [|done]. by eapply same_ledger_ok, Hok; apply calm_beside.
  - match goal with H : claim_candidate _ _ _ _ _ = Some _ |- _ =>
      apply claim_candidate_spec in H as [Hc [k Hk]] end.
    match goal with H : _ = Some _ |- _ => apply bind_Some in H as (m & Hm & [= <-]) end.
    pose proof (lg_keyed _ Hok _ _ Hk) as <-. split; [|done].
    unfold insert_new in Hm. cbn in Hm. case_match; simplify_eq.
    eapply (ledger_claim d (j_id j) j _ _ _ _ Hok Hk); [|reflexivity..]. done.
Qed.

Lemma ledger_output d id j n c seq t :
  ledger_ok d -> jobs d !! id = Some j -> chunks d !! (id, seq) = None ->
  n = byte_len (ck_content c) ->
  forall d', jobs d' = alter (add_output n t) id (jobs d) -> attempts d' = attempts d ->
  chunks d' = <[(id, seq) := c]> (chunks d) -> ledger_ok d'.
Proof.
  intros Hok Hj Hn -> d' Hj' Ha' Hc'.
  (* the counters and keys are those of [d]; only the two sums move *)
  assert (Hs : same_ledger d (update_job id (fun j => j <| j_updated_at := t |>) d)).
  { by apply calm_update_job. }
  apply same_ledger_ok in Hs as [Hk Ht Ha Hat _ Hu]; [|done]. cbn in *.
  assert (Hrow : forall i k, jobs d' !! i = Some k ->
     exists k0, alter (fun j => j <| j_updated_at := t |>) id (jobs d) !! i = Some k0
       /\ k = k0 <| j_output_bytes := j_output_bytes k |>).
  { intros i k. rewrite Hj', !lookup_alter. case_decide; [|destruct k; eauto].
    intros (j0 & Hj0 & ->)%fmap_Some. rewrite Hj0. by eexists. }
  split.
  - intros i k (k0 & Hk0 & ->)%Hrow. exact (Hk _ _ Hk0).
  - intros i k (k0 & Hk0 & ->)%Hrow. exact (Ht _ _ Hk0).
  - intros i m. rewrite Ha', (lg_attempts _ Hok), Hj', lookup_alter.
    case_decide; [subst|done]. rewrite Hj. cbn.
    split; intros (k & Hk' & Hm); apply Some_inj in Hk'; subst k; by eexists.
  - intros i m a. rewrite Ha'. apply Hat.
  - intros i. rewrite Hc', chunk_bytes_insert, Hj', lookup_alter, <- (lg_output _ Hok i) by done.
    case_decide; case_bool_decide; subst; try done. rewrite Hj. reflexivity.
  - intros i1 i2 k1 k2 (l1 & Hl1 & ->)%Hrow (l2 & Hl2 & ->)%Hrow. exact (Hu _ _ _ _ Hl1 Hl2).
Qed.

Lemma append_chunk_ledger id w tok seq content cap org ws :
  preserves ledger_ok (append_chunk id w tok seq content cap org ws).
Proof.
  start_preserves. unfold append_chunk, assert_lease. wp_run; try done; split; try done.
  all: match goal with H : select_lease _ _ _ _ _ _ _ _ = Some _ |- _ =>
    apply select_lease_spec in H as [Hj _] end; unfold insert_if_absent.
  - match goal with H : is_null _ = true |- _ => apply is_null_true in H; rename H into Hn end.
    eapply (ledger_output d id a _ (mkChunk _ _ _ content _) seq); [done..|]. cbn. by rewrite Hn.
  - match goal with H : is_null _ = false |- _ => apply is_null_false in H as [c Hc] end.
    eapply same_ledger_ok, Hok. apply calm_beside; [done..|]. cbn. by rewrite Hc.
Qed.

Lemma find_by_key_none org ws key d id j :
  find_by_key org ws key d = None -> jobs d !! id = Some j ->
  ~ (j_organization_id j = org /\ j_workspace_id j = ws /\ j_idempotency_key j = key).
Proof.
  unfold find_by_key. intros Hn%head_None Hj (<- & <- & <-).
  assert (Hin : j ∈ select_where
    (same_key (j_organization_id j) (j_workspace_id j) (j_idempotency_key j)) (jobs d)).
  { apply elem_of_select_where. split; [|eauto]. unfold same_key.
    by rewrite !bool_decide_eq_true_2. }
  rewrite Hn in Hin. by apply elem_of_nil in Hin.
Qed.

Lemma insert_job_ledger j d d' :
  insert_job j d = Some d' -> fresh_job j -> ledger_ok d -> ledger_ok d'.
Proof.
  intros (Hnone & -> & _ & Hkey)%insert_job_spec Hf [Hk Ht Ha Hat Ho Hu].
  destruct Hf as (_ & Hc0 & Ht0 & _ & _ & _ & Ho0 & _). split; cbn.
  - intros id k. cbn. rewrite lookup_insert_Some. intros [[<- <-]|[_ ?]]; [done|by apply Hk].
  - intros id k. rewrite lookup_insert_Some. intros [[<- <-]|[_ ?]]; [lia|by eapply Ht].
  - intros id n. rewrite Ha. split; intros (k & Hkk & Hn); exists k; (split; [|done]).
    + rewrite lookup_insert_ne; [done|]. intros <-. congruence.
    + apply lookup_insert_Some in Hkk as [[_ <-]|[_ ?]]; [lia|done].
  - done.
  - intros id. rewrite <- Ho. destruct (decide (id = j_id j)) as [->|Hne].
    + by rewrite lookup_insert_eq, Hnone.
    + by rewrite lookup_insert_ne.
  - intros i1 i2 k1 k2. rewrite !lookup_insert_Some.
    intros [[<- <-]|[_ H1]] [[<- <-]|[_ H2]] Eo Ew Ek; [done| | |by eapply Hu].
    + by destruct (find_by_key_none _ _ _ _ _ _ Hkey H2).
    + by destruct (find_by_key_none _ _ _ _ _ _ Hkey H1).
Qed.

Lemma event_wp id org ws ev st corr details (Q : session db -> exn + unit -> Prop) s :
  (forall e s', committed s' = committed s -> Q s' (inl e)) ->
  (forall m ids, Q (Session (committed s) ((working s) <| events := m |>) (clock s) ids) (inr tt)) ->
  wp (_event id org ws ev st corr details) Q s.
Proof.
  intros Herr HQ. unfold _event. wp_run; [|by apply Herr].
  match goal with H : _ = Some _ |- _ => apply bind_Some in H as (m & _ & [= <-]) end. apply HQ.
Qed.

Section with_serialiser.
Context `{Pydantic}.

Lemma create_message_job_ledger conv org ws user content task proj key corr maxa t0 :
preserves ledger_ok
  (create_message_job conv org ws user content task proj key corr maxa t0).
Proof.
start_preserves. unfold create_message_job, audit, lift_exn. wp_run; try done.
match goal with H1 : insert_job _ ?w = Some _, H2 : _ = Some ?w |- _ =>
  apply bind_Some in H2 as (m & _ & [= <-]); rename H1 into Hins end.
pose proof (insert_job_spec _ _ _ Hins) as (_ & _ & Hm & _). split; [|done].
eapply same_ledger_ok; [|eapply (insert_job_ledger _ _ _ Hins); [done|]].
- by apply calm_beside.
- eapply same_ledger_ok, Hok. by apply calm_beside.
Qed.

Lemma submit_ledger cfg command ws today : preserves ledger_ok (submit cfg command ws today).
Proof.
start_preserves. unfold submit, quota_gates. wp_run; try done; cbn in *.
all: match goal with H : insert_job _ _ = Some ?w |- _ =>
  pose proof (insert_job_spec _ _ _ H) as (_ & _ & Hm & _);
  assert (Hw : ledger_ok w) by (eapply (insert_job_ledger _ _ _ H); done) end.
all: apply event_wp; cbn; [by intros e s' ->|intros m ids'; wp_run].
all: split; [|done]; eapply same_ledger_ok, Hw; by apply calm_beside.
Qed.
End with_serialiser.

(** ** Every request keeps the ledger *)

Lemma calm_complete_job p id w tok r : calm (complete_job p id w tok r).
Proof.
  pose proof calm_store_result. pose proof calm_finish.
  unfold complete_job, same_worker, permission_409, completed_result_status. calm_walk.
Qed.
Lemma calm_register_worker p w caps n : calm (register_worker p w caps n).
Proof. unfold register_worker, same_worker. calm_walk. Qed.
Lemma calm_worker_heartbeat_api cfg p w cur : calm (worker_heartbeat_api cfg p w cur).
Proof. unfold worker_heartbeat_api, same_worker. calm_walk. Qed.
Lemma calm_console_cancel who id corr : calm (console_cancel who id corr).
Proof. unfold console_cancel. calm_walk. Qed.

Lemma calm_maintain_lease cfg o id tok : calm (_maintain_lease cfg o id tok).
Proof. unfold _maintain_lease. calm_walk. Qed.
Lemma calm_deliver c w corr r : calm (deliver c w corr r).
Proof. pose proof calm_store_result. pose proof calm_finish. unfold deliver. calm_walk. Qed.

(** An invariant of the ledger's tables is kept by every request when the four
    operations that write those tables keep it. *)
Section every_request.
Context `{Pydantic} (cfg : settings) (I : db -> Prop).
Hypothesis I_same : forall d d', same_ledger d d' -> I d -> I d'.
Hypothesis I_keyed : forall d, I d -> keyed d.
Hypothesis I_claim : forall w secs corr org ws service allowed,
preserves I (claim w secs corr org ws service allowed).
Hypothesis I_append_chunk : forall id w tok seq content org ws,
preserves I (append_chunk id w tok seq content (ai_job_max_output_bytes cfg) org ws).
Hypothesis I_create : forall conv org ws user content task proj key corr maxa t0,
preserves I (create_message_job conv org ws user content task proj key corr maxa t0).
Hypothesis I_submit : forall command ws today, preserves I (submit cfg command ws today).

#[local] Hint Resolve calm_heartbeat calm_finish calm_worker_cancel calm_retry_dead_letter
calm_recover_expired calm_expire_deadlines calm_create_conversation calm_cancel
calm_decide_command calm_complete_job calm_register_worker calm_worker_heartbeat_api
calm_console_cancel calm_maintain_lease calm_deliver : mw.
#[local] Hint Resolve heartbeat_sound finish_sound worker_cancel_sound
  retry_dead_letter_sound recover_expired_sound expire_deadlines_sound
  create_conversation_sound cancel_sound decide_command_sound complete_job_sound
  register_worker_sound worker_heartbeat_api_sound console_cancel_sound _maintain_lease_sound
  deliver_sound : mw.
#[local] Hint Extern 2 (preserves I _) =>
apply calm_preserves; [exact I_same|exact I_keyed|solve [auto with mw]..] : mw.

Lemma handle_preserves r : preserves I (handle cfg r).
Proof using All.
destruct r; unfold handle, ignore, claim_job, job_heartbeat, job_chunk, fail_job, release_job,
  _finish, get_job, get_worker_job, cancel_job, dead_letters_page, list_dead_letters,
  retry_dead_letter_job, cancellation_check, assert_lease, recover,
  console_create_conversation, create_message, require_ai_submissions_available,
  submit_command, get_command, get_result, result, get, cancel_command, _decision,
  permission_409, lookup_404, same_worker, worker_claim, validate_worker_registration, lift_exn;
  preserves_walk.
Qed.

Lemma step_preserves d d' : step cfg d d' -> I d -> I d'.
Proof using All.
intros [clk ids r d0| |] HI.
- by destruct (handle_preserves r (Session d0 d0 clk ids) eq_refl HI).
- eapply I_same, HI. by apply calm_beside.
- eapply I_same, HI. by apply calm_beside.
Qed.

Lemma reachable_preserves d : I empty_db -> reachable cfg d -> I d.
Proof using All.
intros H0 Hr. unfold reachable in Hr. induction Hr as [|d1 d2 d3 Hs _ IH]; eauto using step_preserves.
Qed.
End every_request.

Lemma empty_ledger : ledger_ok empty_db.
Proof.
  split; cbn; intros *; rewrite ?lookup_empty; try done; try (by intros ?%lookup_empty_Some).
  split; [by intros []|]. by intros (? & ? & _).
Qed.

Lemma reachable_ledger `{Pydantic} cfg d : reachable cfg d -> ledger_ok d.
Proof.
  apply reachable_preserves; intros;
    eauto using same_ledger_ok, lg_keyed, claim_ledger, append_chunk_ledger,
      create_message_job_ledger, submit_ledger, empty_ledger.
Qed.
