(* ===== verification/AiDemo.v ===== *)
(** * A run of the platform

    Concrete settings, callers and requests, and the tables they lead to: the
    inputs at which the theorems about the AI job platform are applied. *)

From Stdlib Require Import QArith.
From S2P Require Import Prelude PyText PyTime Sha256 Txn AiContracts AiTables AiJobs AiOrchestration AiApi AiProvider AiWorker AiLifecycle AiRefinement AiSystem.
Local Open Scope string_scope.
Local Open Scope Z_scope.

(** A serialiser that keeps the fields the run looks at. *)
#[export] Instance demo_pydantic : Pydantic := {|
  model_dump := fun c => JObj [("command_id", JStr (uuid_str (command_id c)));
                               ("idempotency_key", JStr (idempotency_key c));
                               ("input", JObj (input c))];
  model_dump_json := fun c => json_dumps json_default (JObj (input c));
  dump_resource_limits := fun r => JObj [("retry_count", JInt (retry_count r))];
  dump_approval_policy := fun p => JObj [("required", JBool (approval_is_required p))];
  dump_callback_policy := fun _ => JObj [("mode", JStr "poll")];
  dump_approval_policy_required := fun p => eq_refl;
|}.

Definition demo_cfg : settings :=
  mkSettings true true true 60 3 65536 262144 "codestra" 20 200000 0 "42" "spiffe://codestra/worker".

Definition demo_principal : WorkerPrincipal := mkPrincipal "qwen" "worker-a" 1%N 2%N "corr-0001".
Definition demo_user : Tenant := mkTenant 1%N 2%N "alice" ["codestra_ai_approver"].

(** A command with three attempts; [approval] asks for a human decision. *)
Definition demo_command (id : uuid) (key : string) (approval : bool) : AICommand :=
  mkAICommand id CHAT "1.0" 1%N "alice" "user" "corr-0001" key 5 (utc 0)
    (utc (seconds 1800)) [("text", JStr "hello")] (mkModelPolicy "fast-chat" (1 # 5) 512)
    (mkResourceLimits 300 4096 2 1024) "internal" (mkApprovalPolicy approval []) callback_poll [].

Definition demo_result (id : uuid) : AIResult :=
  mkAIResult id id "SUCCEEDED" "1.0" "qwen" "ollama" (utc 1) (utc 2) 1200
    [("input_tokens", 10); ("output_tokens", 20)] [] [("text", JStr "hi")] [] [] [] None "none"
    "audit-0001".

(** The [n]th transaction of a request starts at [s] seconds. *)
Definition demo_clock (s : Z) : nat -> Z := fun _ => seconds s.
Definition demo_ids (first : N) : nat -> uuid := fun n => (first + N.of_nat n)%N.

Definition demo_serve (s : Z) (first : N) (r : request) (d : db) : db :=
  (serve demo_cfg (demo_clock s) (demo_ids first) r d).1.

(** A registered and enabled worker, and a job. *)
Definition demo_registered : db :=
  demo_serve 0 1000 (RqRegister demo_principal "worker-a" (JObj []) 4) empty_db.
Definition demo_enabled : db :=
  demo_registered <| registrations ::= alter (fun r => r <| rg_enabled := true |>) "worker-a" |>.
Definition demo_queued : db :=
  demo_serve 1 1100 (RqSubmit demo_user (demo_command 7%N "key-0000000000000007" false) 0) demo_enabled.
Definition demo_leased : db :=
  demo_serve 2 1200 (RqClaim demo_principal "worker-a" None) demo_queued.
Definition demo_chunked : db :=
  demo_serve 3 1300 (RqChunk demo_principal 7%N "worker-a" 1 0 "hi") demo_leased.
Definition demo_completed : db :=
  demo_serve 4 1400 (RqComplete demo_principal 7%N "worker-a" 1 (Some (demo_result 7%N))) demo_chunked.

(** The same with a job whose result needs an approval. *)
Definition demo_proposal : db :=
  demo_serve 4 1400 (RqComplete demo_principal 8%N "worker-a" 1 (Some (demo_result 8%N)))
    (demo_serve 2 1200 (RqClaim demo_principal "worker-a" None)
       (demo_serve 1 1100 (RqSubmit demo_user (demo_command 8%N "key-0000000000000008" true) 0)
          demo_enabled)).
Definition demo_approved : db :=
  demo_serve 5 1500 (RqDecide demo_user 8%N "corr-0002" true "fine") demo_proposal.
Definition demo_approved_cancelled : db :=
  demo_serve 6 1600 (RqCancel demo_user 8%N "corr-0003") demo_approved.

(** ** These tables are reachable *)

Lemma reachable_serve d s first r :
  reachable demo_cfg d -> reachable demo_cfg (demo_serve s first r d).
Proof. intros H. eapply rtc_r; [exact H|]. apply step_request. Defined.

Lemma demo_enabled_reachable : reachable demo_cfg demo_enabled.
Proof. eapply rtc_r; [apply reachable_serve, rtc_refl|]. apply step_enable. Defined.

Ltac demo_reach := repeat (apply reachable_serve); exact demo_enabled_reachable.

Lemma demo_queued_reachable : reachable demo_cfg demo_queued.
Proof. demo_reach. Defined.
Lemma demo_leased_reachable : reachable demo_cfg demo_leased.
Proof. demo_reach. Defined.
Lemma demo_chunked_reachable : reachable demo_cfg demo_chunked.
Proof. demo_reach. Defined.
Lemma demo_completed_reachable : reachable demo_cfg demo_completed.
Proof. demo_reach. Defined.
Lemma demo_proposal_reachable : reachable demo_cfg demo_proposal.
Proof. demo_reach. Defined.
Lemma demo_approved_cancelled_reachable : reachable demo_cfg demo_approved_cancelled.
Proof. demo_reach. Defined.

(** Reads a column of a job of the run. *)
Definition demo_state (d : db) (id : uuid) : option job_state := j_state <$> jobs d !! id.

(** Names the outcome of a run that a test on the response recognises. *)
Definition responds {A} (test : A -> bool) (x : db * (exn + A)) : bool :=
  match x.2 with inr a => test a | inl _ => false end.

Lemma responds_inr {A} (test : A -> bool) (x : db * (exn + A)) :
  responds test x = true -> exists d a, x = (d, inr a) /\ test a = true.
Proof. destruct x as [d [e|a]]; cbn; [done|]. eauto. Defined.

Lemma responds_Some {A} (x : db * (exn + option A)) :
  responds (fun o => negb (is_null o)) x = true -> exists d a, x = (d, inr (Some a)).
Proof. destruct x as [d [e|[a|]]]; cbn; [done|eauto|done]. Defined.

Lemma demo_job d id st :
  demo_state d id = Some st -> exists j, jobs d !! id = Some j /\ j_state j = st.
Proof.
  unfold demo_state. destruct (jobs d !! id) as [j|]; cbn; [|done]. intros E. exists j.
  split; [done|]. by injection E.
Defined.
