(* ===== verification/AiClaim.v ===== *)
(** * Claiming: which job a worker gets, and what the claim writes

    The functional specification of [claim] ([src/app/core/ai_jobs.py]) and of
    the admission rules it enforces. *)

From S2P Require Import Prelude PyText PyTime Sha256 Txn AiContracts AiTables AiJobs AiOrchestration AiApi AiProvider AiWorker AiLifecycle AiRefinement AiSystem AiLedger AiDemo.
Local Open Scope string_scope.
Local Open Scope Z_scope.

(** ** The order of the queue *)

Lemma claim_before_total a b : claim_before a b = true \/ claim_before b a = true.
Proof.
  unfold claim_before.
  destruct (Z.lt_trichotomy (j_priority a) (j_priority b)) as [Hp|[Hp|Hp]].
  - left. by rewrite (proj2 (Z.ltb_lt _ _) Hp).
  - rewrite Hp, Z.ltb_irrefl, Z.eqb_refl. cbn.
    destruct (Z.le_ge_cases (j_created_at a) (j_created_at b)) as [Hc|Hc];
      [left|right]; by apply Z.leb_le.
  - right. by rewrite (proj2 (Z.ltb_lt _ _) Hp).
Qed.

Lemma claim_before_spec a b :
  claim_before a b = true <->
  j_priority a < j_priority b
  \/ (j_priority a = j_priority b /\ j_created_at a <= j_created_at b).
Proof.
  unfold claim_before. rewrite orb_true_iff, andb_true_iff, Z.ltb_lt, Z.eqb_eq, Z.leb_le. done.
Qed.

Lemma claim_before_trans a b c :
  claim_before a b = true -> claim_before b c = true -> claim_before a c = true.
Proof. rewrite !claim_before_spec. lia. Qed.

Lemma claim_candidate_first t profiles org ws d j :
  claim_candidate t profiles org ws d = Some j ->
  forall k j', jobs d !! k = Some j' -> claimable t profiles org ws j' = true ->
  j_priority j < j_priority j'
  \/ (j_priority j = j_priority j' /\ j_created_at j <= j_created_at j').
Proof.
  unfold claim_candidate. intros Hh k j' Hj' Hc. apply claim_before_spec.
  eapply head_sort_by; [apply claim_before_total|apply claim_before_trans|exact Hh|].
  apply elem_of_select_where. eauto.
Qed.

Lemma claim_candidate_none t profiles org ws d :
  claim_candidate t profiles org ws d = None ->
  forall k j, jobs d !! k = Some j -> claimable t profiles org ws j = false.
Proof.
  unfold claim_candidate. intros Hn%head_None k j Hj.
  pose proof (sort_by_perm claim_before
    (select_where (claimable t profiles org ws) (jobs d))) as Hp.
  rewrite Hn in Hp. apply Permutation_nil in Hp.
  destruct (claimable t profiles org ws j) eqn:Hc; [|done].
  assert (Hin : j ∈ select_where (claimable t profiles org ws) (jobs d)).
  { apply elem_of_select_where. eauto. }
  rewrite Hp in Hin. by apply elem_of_nil in Hin.
Qed.

(** ** Admission *)

(** The profiles a claim may serve, once the worker was admitted. *)
Definition admitted (w : string) (org ws : option uuid) (service : option string) (t : Z) (d : db)
    (active : list (option string)) : Prop :=
  match service with
  | None => active = []
  | Some sv =>
      exists r, registrations d !! w = Some r /\ rg_service_id r = sv /\ rg_enabled r = true
      /\ active = j_model_profile <$> active_leases w org ws t d
      /\ Z.of_nat (length active) < Z.min (rg_max_concurrency r) WORKER_HARD_SAFETY_CAP
  end.

Definition admission_refusals : list exn :=
  [PermissionError "worker_not_enabled"; OverflowError "worker_concurrency_limit"].

Lemma admit_wp w org ws service (Q : session db -> exn + list (option string) -> Prop) s :
  (forall active, admitted w org ws service (clock s O) (working s) active -> Q s (inr active)) ->
  (forall e, e ∈ admission_refusals -> Q s (inl e)) ->
  wp (admission w org ws service) Q s.
Proof.
  intros HQ Herr. unfold admission. destruct s as [d v clk ids]. wp_run; try (apply Herr; by_compute).
  - apply HQ. bool_to_prop. exists r. split_and!; try done. cbn. by rewrite length_fmap.
  - by apply HQ.
Qed.

Definition claim_filter (service : option string) (allowed : option (list string))
    (effective : gset string) : option (list string) :=
  if (negb (is_null service) || negb (is_null allowed))%bool
  then Some (sorted_strings (elements effective)) else None.

(** What a successful claim does. *)
Record claimed (w : string) (secs t : Z) (org ws : option uuid) (profiles : option (list string))
    (d d' : db) (c : claim_view) (j : job) : Prop := Claimed {
  cd_row : jobs d !! j_id j = Some j;
  cd_claimable : claimable t profiles org ws j = true;
  cd_first : forall k j', jobs d !! k = Some j' -> claimable t profiles org ws j' = true ->
               j_priority j < j_priority j'
               \/ (j_priority j = j_priority j' /\ j_created_at j <= j_created_at j');
  cd_jobs : jobs d' = <[j_id j := lease_to w t secs j]> (jobs d);
  cd_attempt : attempts d' = <[(j_id j, j_attempt_count j + 1) :=
                  mkAttempt (j_fencing_token j + 1) w leased None t None]> (attempts d);
  cd_view : c = claim_view_of (lease_to w t secs j);
}.

Lemma claim_wp w secs corr org ws service allowed
    (Q : session db -> exn + option claim_view -> Prop) d clk ids :
  ledger_ok d ->
  (forall s' e, committed s' = d ->
     e ∈ ValueError "invalid_model_profile_filter" :: admission_refusals -> Q s' (inl e)) ->
  (forall s' active, admitted w org ws service (clk O) d active ->
     let effective := effective_compatible_profiles active allowed in
     jobs (committed s') = jobs d -> attempts (committed s') = attempts d ->
     (effective <> ∅ -> forall k j, jobs d !! k = Some j ->
        claimable (clk O) (claim_filter service allowed effective) org ws j = false) ->
     Q s' (inr None)) ->
  (forall s' active c j, admitted w org ws service (clk O) d active ->
     let effective := effective_compatible_profiles active allowed in
     effective <> ∅ ->
     claimed w secs (clk O) org ws (claim_filter service allowed effective) d (committed s') c j ->
     Q s' (inr (Some c))) ->
  wp (claim w secs corr org ws service allowed) Q (Session d d clk ids).
Proof.
  intros Hok Herr Hnone Hsome. unfold claim. do 2 wp_step; [|apply Herr; [done|left]].
  wp_step. apply admit_wp; cbn [clock working]; [|intros e He; apply Herr; [done|by right]].
  intros active Hadm. unfold audit. wp_run; bool_to_prop.
  - by eapply Hnone; [..|].
  - match goal with H : claim_candidate _ _ _ _ _ = Some _ |- _ =>
      pose proof (claim_candidate_first _ _ _ _ _ _ H) as Hfirst;
      apply claim_candidate_spec in H as [Hc [k Hk]] end.
    match goal with H : _ = Some _ |- _ => apply bind_Some in H as (m & Hm & [= <-]) end.
    pose proof (lg_keyed _ Hok _ _ Hk) as <-.
    unfold insert_new in Hm. cbn in Hm. destruct (attempts d !! _) in Hm; [done|].
    injection Hm as <-. eapply Hsome; [done..|]. split; try done. cbn.
    by apply alter_present.
  - (* the attempt number is new *)
    exfalso.
    match goal with H : claim_candidate _ _ _ _ _ = Some _ |- _ =>
      apply claim_candidate_spec in H as [Hc [k Hk]] end.
    pose proof (lg_keyed _ Hok _ _ Hk) as <-.
    match goal with H : _ = None |- _ => rename H into Hn end.
    unfold insert_new in Hn. cbn in Hn. destruct (attempts d !! _) as [a|] eqn:Ha in Hn; [|done].
    assert (Hex : is_Some (attempts d !! (j_id j, Z.succ (j_attempt_count j)))) by (by rewrite Ha).
    apply (lg_attempts _ Hok) in Hex as (j' & Hj' & Hn'). simplify_eq. lia.
  - eapply Hnone; [done..|]. cbn. intros _. by apply claim_candidate_none.
Qed.

(** ** Running a program in a request's own session *)

Lemma with_session_wp {A} (P : db -> exn + A -> Prop) clk ids (m : M db A) d :
  wp m (fun s r => P (committed s) r) (Session d d clk ids) ->
  P (with_session clk ids m d).1 (with_session clk ids m d).2.
Proof. done. Qed.

(** ** Runtime classes *)

Lemma runtime_class_of p c :
  (p, c) ∈ MODEL_RUNTIME_CLASSES -> dict_get MODEL_RUNTIME_CLASSES p = Some c.
Proof.
  unfold MODEL_RUNTIME_CLASSES. intros Hin.
  repeat (apply elem_of_cons in Hin as [[= -> ->]|Hin]; [done|]). by apply elem_of_nil in Hin.
Qed.

(** A class is compatible with nothing but itself, and two of the four with
    nothing at all. *)
Lemma compatible_class_self cls c :
  c ∈ coalesce (dict_get RUNTIME_CLASS_COMPATIBILITY cls) [] ->
  c = cls /\ cls ∈ ["chat-light"; "coding-fallback"].
Proof.
  destruct (dict_get RUNTIME_CLASS_COMPATIBILITY cls) as [l|] eqn:E; cbn;
    [|by intros ?%elem_of_nil].
  apply dict_get_elem in E. unfold RUNTIME_CLASS_COMPATIBILITY in E.
  repeat (apply elem_of_cons in E as [[= -> ->]|E];
    [intros Hc; first [by apply elem_of_nil in Hc|apply list_elem_of_singleton in Hc; subst;
       split; [done|by_compute]]|]).
  by apply elem_of_nil in E.
Qed.

Lemma compatible_profiles_spec active p :
  active <> [] -> p ∈ compatible_profiles active ->
  exists cls, cls ∈ ["chat-light"; "coding-fallback"]
    /\ dict_get MODEL_RUNTIME_CLASSES p = Some cls
    /\ forall a, a ∈ active -> dict_get MODEL_RUNTIME_CLASSES (py_or a "") = Some cls.
Proof.
  unfold compatible_profiles. destruct active as [|a0 active]; [done|]. intros _.
  set (classes := (list_to_set _ : gset (option string))).
  destruct (_ || _)%bool eqn:Eb; [set_solver|]. bool_to_prop. 
  match goal with H : (size classes =? 1)%nat = true |- _ => apply Nat.eqb_eq in H; rename H into Hs end.
  apply size_1_elem_of in Hs as [x Hx]. 
  assert (Hcl : forall a, a ∈ a0 :: active ->
    dict_get MODEL_RUNTIME_CLASSES (py_or a "") = x).
  { intros a Ha. assert (Hin : dict_get MODEL_RUNTIME_CLASSES (py_or a "") ∈ classes).
    { apply elem_of_list_to_set, list_elem_of_fmap. eauto. }
    rewrite Hx in Hin. set_solver. }
  assert (He : elements classes = [x]).
  { apply leibniz_equiv in Hx. rewrite Hx. apply elements_singleton. }
  rewrite He. destruct x as [cls|]; [|set_solver].
  rewrite elem_of_list_to_set, list_elem_of_fmap. intros ([p' c] & -> & Hp').
  apply list_elem_of_In, filter_In in Hp' as [Hin Hc]. cbn in Hc.
  unfold str_in in Hc. bool_to_prop. apply compatible_class_self in Hc as [-> Hcls].
  apply list_elem_of_In, runtime_class_of in Hin. eauto.
Qed.

(** Rewriting one row adds at most one row to a selection. *)
Lemma select_where_insert_le (p : job -> bool) (m : gmap uuid job) k v v' :
  m !! k = Some v ->
  (length (select_where p (<[k := v']> m)) <= S (length (select_where p m)))%nat.
Proof.
  intros Hk. unfold select_where, rows.
  assert (H1 : (map_to_list (<[k := v']> m)).*2 ≡ₚ v' :: (map_to_list (delete k m)).*2).
  { rewrite <- insert_delete_eq, map_to_list_insert by apply lookup_delete_eq. done. }
  assert (H2 : (map_to_list m).*2 ≡ₚ v :: (map_to_list (delete k m)).*2).
  { rewrite <- (insert_delete_id m k v Hk) at 1.
    rewrite map_to_list_insert by apply lookup_delete_eq. done. }
  rewrite H1, H2. cbn. repeat case_match; cbn; lia.
Qed.

(** A claimed job serves one of the effective profiles. *)
Lemma claimed_profile w secs t org ws service allowed effective d d' c j :
  claimed w secs t org ws (claim_filter (Some service) allowed effective) d d' c j ->
  exists p, j_model_profile j = Some p /\ p ∈ effective.
Proof.
  intros [_ Hc _ _ _ _]. unfold claimable, claim_filter in Hc. cbn in Hc. bool_to_prop.
  destruct (j_model_profile j) as [p|]; [|done]. exists p. split; [done|].
  match goal with H : str_in _ (sorted_strings _) = true |- _ => unfold str_in in H end.
  bool_to_prop. by apply elem_of_elements, elem_of_sorted_strings.
Qed.

Lemma claim_outcome d clk ids w secs corr org ws service allowed d' c :
  ledger_ok d ->
  with_session clk ids (claim w secs corr org ws service allowed) d = (d', inr (Some c)) ->
  exists active j,
    admitted w org ws service (clk O) d active
    /\ claimed w secs (clk O) org ws
         (claim_filter service allowed (effective_compatible_profiles active allowed)) d d' c j.
Proof.
  intros Hok E.
  pose proof (with_session_wp (fun d' r => forall c, r = inr (Some c) -> exists active j,
    admitted w org ws service (clk O) d active
    /\ claimed w secs (clk O) org ws
         (claim_filter service allowed (effective_compatible_profiles active allowed)) d d' c j)
    clk ids (claim w secs corr org ws service allowed) d) as Hspec.
  rewrite E in Hspec. apply Hspec; [|done]. eapply claim_wp; naive_solver.
Qed.

(** ** Theorems *)

(** C1. The claim hands out the right job: on reachable tables a claim that
    returns a job returns one that was claimable at that instant (queued or
    waiting for a retry that is due, not cancelled, before its deadline, in
    the caller's tenant, of an admitted profile), no claimable job comes
    before it in the order of priority and age, and the claim rewrites this
    row alone: the lease, the next fencing token and the next attempt number,
    with a new row in the attempt ledger. *)
Theorem claim_best_job `{Pydantic} cfg d clk ids w secs corr org ws service allowed d' c :
  reachable cfg d ->
  with_session clk ids (claim w secs corr org ws service allowed) d = (d', inr (Some c)) ->
  exists active j,
    admitted w org ws service (clk O) d active
    /\ claimed w secs (clk O) org ws
         (claim_filter service allowed (effective_compatible_profiles active allowed)) d d' c j
    /\ j_state j ∈ [queued; retry_wait] /\ j_next_attempt_at j <= clk O
    /\ j_cancel_requested_at j = None /\ in_scope org ws j = true
    /\ (forall deadline, j_deadline_at j = Some deadline -> clk O < deadline)
    /\ cl_fencing_token c = j_fencing_token j + 1
    /\ 1 <= cl_attempt_count c <= j_max_attempts j
    /\ attempts d !! (j_id j, cl_attempt_count c) = None.
Proof.
  intros Hr E. pose proof (reachable_ledger _ _ Hr) as Hok.
  destruct (claim_outcome _ _ _ _ _ _ _ _ _ _ _ _ Hok E) as (active & j & Hadm & Hcl).
  pose proof Hcl as [Hrow Hclm _ _ _ Hview].
  destruct (reachable_row _ _ _ _ Hr Hrow) as (_ & Hok' & _).
  apply claimable_holds in Hclm as (Hst & Hdue & Hcan & Hopen & Hscope).
  exists active, j. split_and!; [done..| |done|done|done| | | | |].
  - destruct Hst as [->| ->]; by_compute.
  - intros deadline Ed. unfold deadline_open in Hopen. rewrite Ed in Hopen. cbn in Hopen.
    by apply Z.ltb_lt in Hopen.
  - by rewrite Hview.
  - pose proof (ok_attempts _ Hok'). rewrite Hview. cbn. lia.
  - rewrite Hview. cbn. pose proof (ok_waiting _ Hok' Hst). lia.
  - rewrite Hview. cbn. apply eq_None_not_Some. intros (j' & Hj' & Hn)%(lg_attempts _ Hok).
    simplify_eq. lia.
Qed.

Lemma claim_best_job_witness :
  reachable demo_cfg demo_queued
  /\ exists d' c active j,
    with_session (demo_clock 2) (demo_ids 1200)
      (claim "worker-a" 60 "corr-0001" (Some 1%N) (Some 2%N) (Some "qwen") None) demo_queued
    = (d', inr (Some c))
    /\ admitted "worker-a" (Some 1%N) (Some 2%N) (Some "qwen") (seconds 2) demo_queued active
    /\ cl_fencing_token c = j_fencing_token j + 1.
Proof.
  split; [exact demo_queued_reachable|].
  destruct (responds_Some (with_session (demo_clock 2) (demo_ids 1200)
    (claim "worker-a" 60 "corr-0001" (Some 1%N) (Some 2%N) (Some "qwen") None) demo_queued)
    ltac:(vm_compute; reflexivity)) as (d' & c & E).
  destruct (claim_best_job demo_cfg demo_queued (demo_clock 2) (demo_ids 1200) _ _ _ _ _ _ _ d' c
    demo_queued_reachable E) as (active & j & Hadm & _ & _ & _ & _ & _ & _ & Htok & _).
  exists d', c, active, j. split; [exact E|]. split; [exact Hadm|exact Htok].
Defined.

(** Distinct keys whose rows are selected do not outnumber the selection. *)
Lemma select_where_covers {V} (p : V -> bool) (m : gmap uuid V) (l : list uuid) :
  NoDup l -> (forall id, id ∈ l -> exists v, m !! id = Some v /\ p v = true) ->
  (length l <= length (select_where p m))%nat.
Proof.
  intros Hnd Hl. unfold select_where, rows.
  assert (Hf : forall kvs : list (uuid * V),
    length (List.filter p kvs.*2) = length (List.filter (fun kv => p kv.2) kvs).*1).
  { induction kvs as [|[k v] r IH]; [done|]. cbn. destruct (p v); cbn; by rewrite IH. }
  rewrite Hf. apply submseteq_length, NoDup_submseteq; [done|]. intros id Hid.
  destruct (Hl id Hid) as (v & Hv & Hp). apply list_elem_of_fmap. exists (id, v). split; [done|].
  apply list_elem_of_In, filter_In. split; [|done]. by apply list_elem_of_In, elem_of_map_to_list.
Qed.

(** The live leases that admission counts: those of the worker in the tenant and
    workspace that the claim names. *)
Lemma elem_of_active_leases w org ws t d j :
  j ∈ active_leases w org ws t d <->
  (exists id, jobs d !! id = Some j) /\ holds_lease w t j = true /\ in_scope org ws j = true.
Proof.
  unfold active_leases. rewrite sort_by_perm, elem_of_select_where, andb_true_iff. tauto.
Qed.

(** C2. Admission, in the scope of the claim, which is the tenant and the
    workspace it names, or every tenant when it names none: a claim by a
    registered worker succeeds only when it leaves the worker at most two live
    leases in this scope, and never more than it registered for; when the worker
    already held leases there, the claimed job runs in the same runtime class as
    every one of them, and that class is one of the two that allow company. *)
Theorem claim_admission `{Pydantic} cfg d clk ids w secs corr org ws service allowed d' c :
  reachable cfg d ->
  with_session clk ids (claim w secs corr org ws (Some service) allowed) d = (d', inr (Some c)) ->
  let scoped (j : job) := (org = None \/ org = Some (j_organization_id j))
                          /\ (ws = None \/ ws = Some (j_workspace_id j)) in
  exists r p,
    registrations d !! w = Some r /\ rg_enabled r = true /\ rg_service_id r = service
    /\ (forall l, NoDup l ->
          (forall id, id ∈ l -> exists j, jobs d' !! id = Some j /\ holds_lease w (clk O) j = true /\ scoped j) ->
          Z.of_nat (length l) <= Z.min (rg_max_concurrency r) 2)
    /\ cl_model_profile c = Some p
    /\ (forall l, allowed = Some l -> p ∈ l)
    /\ (forall id j, jobs d !! id = Some j -> holds_lease w (clk O) j = true -> scoped j ->
          exists cls, cls ∈ ["chat-light"; "coding-fallback"]
            /\ dict_get MODEL_RUNTIME_CLASSES p = Some cls
            /\ dict_get MODEL_RUNTIME_CLASSES (py_or (j_model_profile j) "") = Some cls).
Proof.
  intros Hr E scoped. pose proof (reachable_ledger _ _ Hr) as Hok.
  assert (Hsc : forall j, scoped j -> in_scope org ws j = true).
  { intros j Hj. unfold in_scope. rewrite andb_true_iff, !filter_eq_spec.
    destruct Hj as [[-> | ->] [-> | ->]]; split; naive_solver. }
  destruct (claim_outcome _ _ _ _ _ _ _ _ _ _ _ _ Hok E)
    as (active & j & (r & Hreg & Hsv & Hen & -> & Hlt) & Hcl).
  pose proof (claimed_profile _ _ _ _ _ _ _ _ _ _ _ _ Hcl) as (p & Hp & Hin).
  pose proof Hcl as [Hrow _ _ Hjobs _ ->].
  exists r, p. split_and!; [done..| |done| |].
  - intros l Hnd Hl. revert Hlt. rewrite length_fmap. unfold active_leases, WORKER_HARD_SAFETY_CAP.
    rewrite !sort_by_perm.
    pose proof (select_where_insert_le (fun j => holds_lease w (clk O) j && in_scope org ws j)
      (jobs d) (j_id j) j (lease_to w (clk O) secs j) Hrow) as Hle. rewrite <- Hjobs in Hle.
    enough (Hc : (length l <= length (select_where (fun j => holds_lease w (clk O) j && in_scope org ws j) (jobs d')))%nat)
      by lia.
    apply select_where_covers; [done|]. intros id Hid. destruct (Hl id Hid) as (x & Hx & Hh & Hs).
    exists x. by rewrite Hh, Hsc.
  - intros l ->. unfold effective_compatible_profiles in Hin. set_solver.
  - intros id j0 Hid Hh Hs.
    assert (Hj0 : j0 ∈ active_leases w org ws (clk O) d) by (apply elem_of_active_leases; eauto).
    assert (Hcp : p ∈ compatible_profiles (j_model_profile <$> active_leases w org ws (clk O) d)).
    { unfold effective_compatible_profiles in Hin. destruct allowed; set_solver. }
    apply compatible_profiles_spec in Hcp as (cls & Hc1 & Hc2 & Hall).
    + exists cls. split_and!; [done..|]. apply Hall, list_elem_of_fmap. eauto.
    + intros Hnil. by destruct (active_leases w org ws (clk O) d); [apply elem_of_nil in Hj0|].
Qed.

(** The worker holds one lease and claims a second job beside it. *)
Definition demo_second : db :=
  demo_serve 3 1300 (RqSubmit demo_user (demo_command 9%N "key-0000000000000009" false) 0) demo_leased.
Definition demo_second_claim :=
  with_session (demo_clock 4) (demo_ids 1400)
    (claim "worker-a" 60 "corr-0001" (Some 1%N) (Some 2%N) (Some "qwen") (Some ["fast-chat"])) demo_second.

Lemma claim_admission_witness :
  exists c r, demo_second_claim.2 = inr (Some c)
    /\ registrations demo_second !! "worker-a" = Some r /\ rg_max_concurrency r = 4
    /\ Z.of_nat (length [7%N; 9%N]) <= Z.min (rg_max_concurrency r) 2
    /\ dict_get MODEL_RUNTIME_CLASSES "fast-chat" = Some "chat-light".
Proof.
  destruct (responds_Some demo_second_claim ltac:(vm_compute; reflexivity)) as (d' & c & E).
  assert (Hr : reachable demo_cfg demo_second) by (apply reachable_serve, demo_leased_reachable).
  destruct (claim_admission demo_cfg demo_second (demo_clock 4) (demo_ids 1400) "worker-a" 60 "corr-0001" (Some 1%N) (Some 2%N)
    "qwen" (Some ["fast-chat"]) d' c Hr E) as (r & p & Hreg & _ & _ & Hle & _ & Hl & Hcls).
  assert (Hd : d' = demo_second_claim.1) by (by rewrite E).
  exists c, r. split; [by rewrite E|]. split; [exact Hreg|]. split.
  { assert (Hn : rg_max_concurrency <$> registrations demo_second !! "worker-a" = Some 4) by (vm_compute; reflexivity).
    rewrite Hreg in Hn. by injection Hn. }
  split.
  - apply Hle; [apply (bool_decide_eq_true_1 _); vm_compute; reflexivity|]. intros id Hid. rewrite Hd.
    apply elem_of_cons in Hid as [->|Hid]; [|apply list_elem_of_singleton in Hid as ->];
      (eexists; split; [vm_compute; reflexivity|]; split; [vm_compute; reflexivity|]; split; right; reflexivity).
  - assert (p = "fast-chat") as -> by (by apply list_elem_of_singleton, Hl).
    destruct (jobs demo_second !! 7%N) as [j|] eqn:Ej; [|exfalso; revert Ej; vm_compute; discriminate].
    destruct (Hcls 7%N j Ej) as (cls & _ & Hc & _).
    + revert Ej. vm_compute. intros [= <-]. reflexivity.
    + revert Ej. vm_compute. intros [= <-]. split; right; reflexivity.
    + rewrite Hc. revert Hc. vm_compute. intros [= <-]. reflexivity.
Defined.

(** C3. A claim always ends in one of its documented ways: on reachable tables
    it never fails on the unique key of the attempt ledger, it refuses only an
    invalid profile filter, a worker that is not enabled or one at its limit,
    a refusal changes nothing, and it comes back empty-handed only when no
    profile is admitted or no job is claimable. *)
Theorem claim_total `{Pydantic} cfg d clk ids w secs corr org ws service allowed :
  reachable cfg d ->
  match with_session clk ids (claim w secs corr org ws service allowed) d with
  | (d', inl e) => d' = d /\ e ∈ [ValueError "invalid_model_profile_filter";
                     PermissionError "worker_not_enabled"; OverflowError "worker_concurrency_limit"]
  | (d', inr None) =>
      jobs d' = jobs d /\ exists active, admitted w org ws service (clk O) d active
      /\ let effective := effective_compatible_profiles active allowed in
         effective = ∅ \/ forall id j, jobs d !! id = Some j ->
           claimable (clk O) (claim_filter service allowed effective) org ws j = false
  | (d', inr (Some c)) => exists j, jobs d' !! cl_id c = Some j /\ c = claim_view_of j
  end.
Proof.
  intros Hr. pose proof (reachable_ledger _ _ Hr) as Hok. unfold with_session.
  destruct (claim w secs corr org ws service allowed (Session d d clk ids)) as [s' r] eqn:E.
  assert (Hw : forall Q, wp (claim w secs corr org ws service allowed) Q (Session d d clk ids)
                         -> Q s' r) by (unfold wp; by rewrite E).
  cbn. apply Hw, claim_wp; [done| | |].
  - intros s'' e <- He. by split.
  - intros s'' active Hadm effective Hj _ Hno. split; [done|]. exists active. split; [done|].
    cbn. fold effective. destruct (decide (effective = ∅)); [by left|right]. by apply Hno.
  - intros s'' active c j _ effective _ [Hrow _ _ Hjobs _ ->]. eexists. split; [|done].
    rewrite Hjobs. cbn. apply lookup_insert_eq.
Qed.

Lemma claim_total_witness :
  match with_session (demo_clock 2) (demo_ids 1200)
          (claim "worker-b" 60 "corr-0001" (Some 1%N) (Some 2%N) (Some "qwen") None) demo_queued with
  | (d', inl e) => d' = demo_queued
  | _ => False
  end.
Proof.
  pose proof (claim_total demo_cfg demo_queued (demo_clock 2) (demo_ids 1200) "worker-b" 60
    "corr-0001" (Some 1%N) (Some 2%N) (Some "qwen") None demo_queued_reachable) as Hc.
  assert (Hb : (with_session (demo_clock 2) (demo_ids 1200)
    (claim "worker-b" 60 "corr-0001" (Some 1%N) (Some 2%N) (Some "qwen") None) demo_queued).2
    = inl (PermissionError "worker_not_enabled")) by (vm_compute; reflexivity).
  destruct (with_session _ _ _ _) as [d' r]. cbn in Hb. subst r. exact (proj1 Hc).
Defined.
