(* ===== verification/AiSafety.v ===== *)
(** * Safety of the AI job platform over whole runs

    Theorems about every reachable database and every later one: rows stay
    well formed, states follow the diagram, fencing tokens shut out former
    lease holders, the ledger and the output account are exact. *)

From S2P Require Import Prelude PyText PyTime Sha256 Txn AiContracts AiTables AiJobs AiOrchestration AiApi AiProvider AiWorker AiLifecycle AiRefinement AiSystem AiLedger AiDemo AiClaim.
Local Open Scope string_scope.
Local Open Scope Z_scope.

Section runs.
Context `{Pydantic} (cfg : settings).
Implicit Types (d : db) (j : job).

Lemma later_reachable d d' : reachable cfg d -> rtc (step cfg) d d' -> reachable cfg d'.
Proof. unfold reachable. intros. by etrans. Qed.

Lemma later_advances d d' : reachable cfg d -> rtc (step cfg) d d' -> advances d d'.
Proof. intros Hr Hs. eapply steps_advance; [done|]. by eapply reachable_keyed. Qed.

Lemma later_row d d' id j :
reachable cfg d -> rtc (step cfg) d d' -> jobs d !! id = Some j ->
exists j', jobs d' !! id = Some j' /\ same_identity j j' /\ rtc edge (j_state j) (j_state j').
Proof.
intros Hr Hs Hj. pose proof (later_advances _ _ Hr Hs id) as Ha.
pose proof (reachable_slice_ok _ _ id Hr) as Hok.
destruct (slice_steps_identity _ _ _ _ Ha Hj) as (j1 & Hj1 & Hid).
destruct (slice_steps_moves _ _ _ _ Ha Hok Hj) as (j2 & Hj2 & He).
cbn in *. simplify_eq. eauto.
Qed.

Lemma final_edges s s' : rtc edge s s' -> s ∈ final_states -> s' = s.
Proof. destruct 1 as [|s s1 s' He]; [done|]. by intros ?%(edge_not_final _ _ He). Qed.

(** A request leaves the tables its handler commits. *)
Lemma ignore_tables {A} clk ids (m : M db A) d :
(with_session clk ids (ignore m) d).1 = (with_session clk ids m d).1.
Proof. unfold with_session, ignore, mbind, M_bind. by destruct (m _) as [s [e|a]]. Qed.

Lemma claim_request_tables clk ids p w profiles d :
(serve cfg clk ids (RqClaim p w profiles) d).1
= (with_session clk ids (claim_job cfg p w profiles) d).1.
Proof. apply ignore_tables. Qed.

(** ** Fencing *)

Lemma select_lease_stale id w tok org ws allow t d j :
jobs d !! id = Some j -> tok <> j_fencing_token j ->
select_lease id w tok org ws allow t d = None.
Proof.
intros Hj Hne. unfold select_lease. rewrite Hj. cbn. case_match eqn:E; [|done].
apply lease_matches_holds in E as (_ & _ & ? & _). congruence.
Qed.

Lemma assert_lease_stale {A} id w tok org ws allow (k : job -> M db A) d clk ids j :
jobs d !! id = Some j -> tok <> j_fencing_token j ->
with_session clk ids (assert_lease id w tok org ws allow ≫= k) d
= (d, inl (PermissionError "stale_or_invalid_lease")).
Proof.
intros Hj Hne. unfold with_session, assert_lease, mbind, M_bind, now, query, some_or. cbn.
by rewrite (select_lease_stale _ _ _ _ _ _ _ _ _ Hj Hne).
Qed.
(** The view a worker receives is that of the stored row. *)
Lemma claim_view_stored w secs corr org ws service allowed s :
clean s -> ledger_ok (committed s) ->
wp (claim w secs corr org ws service allowed) (fun s' r => forall c, r = inr (Some c) ->
   exists j, jobs (committed s') !! cl_id c = Some j /\ c = claim_view_of j) s.
Proof.
destruct s as [d v clk ids]. unfold clean. cbn. intros -> Hok.
apply claim_wp; [done|done|done|]. intros s' active c j _ effective _ [_ _ _ Hjobs _ ->] c' [= <-].
eexists. split; [|done]. rewrite Hjobs. apply lookup_insert_eq.
Qed.

Lemma claim_job_view p w profiles d clk ids d1 c :
ledger_ok d -> with_session clk ids (claim_job cfg p w profiles) d = (d1, inr (Some c)) ->
exists j, jobs d1 !! cl_id c = Some j /\ c = claim_view_of j.
Proof.
intros Hok E.
pose proof (with_session_wp (fun d1 r => forall c, r = inr (Some c) ->
  exists j, jobs d1 !! cl_id c = Some j /\ c = claim_view_of j)
  clk ids (claim_job cfg p w profiles) d) as Hspec.
rewrite E in Hspec. apply Hspec; [|done]. clear - Hok. unfold claim_job, same_worker.
wp_step. wp_step; [|done].
eapply (wp_bind_preserves ledger_ok);
  [exact (calm_ledger _ (expire_deadlines_sound _ _) (calm_expire_deadlines _ _))|done..|].
intros _ s1 Hc1 Hok1. eapply (wp_bind_preserves ledger_ok);
  [exact (calm_ledger _ (recover_expired_sound _ _) (calm_recover_expired _ _))|done..|].
intros _ s2 Hc2 Hok2. wp_step. wp_step; [|done]. wp_step.
eapply wp_mono; [|by apply claim_view_stored]. intros s' [e|o] Hv; [|done].
destruct e; by wp_run.
Qed.
End runs.

(** C4. Every job of every reachable database is well formed: at most
    [max_attempts <= 10] attempts, a fencing token equal to the attempt count,
    a lease (owner and expiry together) only while it is leased or being
    cancelled, attempts left whenever it waits, a pending approval only while
    approval is required (or after a cancellation), a dead letter exactly when
    it is dead, and no job in the states [available], [running] or [failed]. *)
Theorem every_job_well_formed `{Pydantic} cfg d id :
  reachable cfg d -> slice_ok id (slice_of d id).
Proof. apply reachable_slice_ok. Qed.

Lemma every_job_well_formed_witness :
  demo_state demo_leased 7%N = Some leased /\ slice_ok 7%N (slice_of demo_leased 7%N).
Proof.
  split; [vm_compute; reflexivity|].
  exact (every_job_well_formed demo_cfg demo_leased 7%N demo_leased_reachable).
Defined.

(** C5. Refinement of the state diagram: whatever requests are served, a job
    keeps its identity (tenant, idempotency key, request hash, deadline,
    payload), its fencing token never goes back, and its state moves only
    along the edges of the diagram. *)
Theorem runs_follow_diagram `{Pydantic} cfg d d' id j :
  reachable cfg d -> rtc (step cfg) d d' -> jobs d !! id = Some j ->
  exists j', jobs d' !! id = Some j' /\ same_identity j j' /\ rtc edge (j_state j) (j_state j').
Proof. apply later_row. Qed.

(** The last two requests of the run. *)
Lemma demo_later : rtc (step demo_cfg) demo_leased demo_completed.
Proof.
  eapply rtc_l; [exact (step_request demo_cfg (demo_clock 3) (demo_ids 1300)
    (RqChunk demo_principal 7%N "worker-a" 1 0 "hi") demo_leased)|].
  eapply rtc_l; [exact (step_request demo_cfg (demo_clock 4) (demo_ids 1400)
    (RqComplete demo_principal 7%N "worker-a" 1 (Some (demo_result 7%N))) demo_chunked)|].
  apply rtc_refl.
Defined.

Lemma runs_follow_diagram_witness :
  exists j j', jobs demo_leased !! 7%N = Some j /\ jobs demo_completed !! 7%N = Some j'
    /\ rtc edge (j_state j) (j_state j').
Proof.
  destruct (demo_job demo_leased 7%N leased ltac:(vm_compute; reflexivity)) as (j & E & _).
  destruct (runs_follow_diagram demo_cfg demo_leased demo_completed 7%N j demo_leased_reachable
    demo_later E) as (j' & Hj' & _ & He).
  exists j, j'. split; [exact E|]. split; [exact Hj'|exact He].
Defined.

(** Completed, expired, dead and rejected jobs are final: no sequence of
    requests changes their state. *)
Theorem final_states_absorbing `{Pydantic} cfg d d' id j :
  reachable cfg d -> rtc (step cfg) d d' -> jobs d !! id = Some j ->
  j_state j ∈ [completed; expired; dead_letter; rejected] ->
  exists j', jobs d' !! id = Some j' /\ j_state j' = j_state j.
Proof.
  intros Hr Hs Hj Hf. destruct (later_row _ _ _ _ _ Hr Hs Hj) as (j' & Hj' & _ & He).
  exists j'. split; [done|]. by apply final_edges.
Qed.

(** A cancellation that comes too late. *)
Definition demo_late_cancel : db := demo_serve 9 1900 (RqCancel demo_user 7%N "corr-0009") demo_completed.

Lemma final_states_absorbing_witness :
  exists j, jobs demo_late_cancel !! 7%N = Some j /\ j_state j = completed.
Proof.
  destruct (demo_job demo_completed 7%N completed ltac:(vm_compute; reflexivity)) as (j & E & Hst).
  destruct (final_states_absorbing demo_cfg demo_completed demo_late_cancel 7%N j
    demo_completed_reachable) as (j' & Hj' & Hs').
  - eapply rtc_once. exact (step_request demo_cfg (demo_clock 9) (demo_ids 1900)
      (RqCancel demo_user 7%N "corr-0009") demo_completed).
  - exact E.
  - rewrite Hst. by_compute.
  - exists j'. split; [exact Hj'|]. by rewrite Hs'.
Defined.

(** C6. Fencing: once a worker's claim has returned, whoever presents an older
    token of that job is refused by every operation of a lease holder, at any
    later time, and the refusal changes nothing. *)
Theorem claim_fences_out `{Pydantic} cfg d clk ids p w profiles d1 c d2 clk' ids' w' tok org ws :
  reachable cfg d ->
  with_session clk ids (claim_job cfg p w profiles) d = (d1, inr (Some c)) ->
  rtc (step cfg) d1 d2 ->
  tok < cl_fencing_token c ->
  let refused {A} (m : M db A) :=
    with_session clk' ids' m d2 = (d2, inl (PermissionError "stale_or_invalid_lease")) in
  (forall secs svc serial spiffe,
     refused (heartbeat (cl_id c) w' tok secs svc serial spiffe org ws))
  /\ (forall seq content cap, refused (append_chunk (cl_id c) w' tok seq content cap org ws))
  /\ (forall is_failed err retryable corr cs details,
        refused (finish (cl_id c) w' tok is_failed err retryable corr cs details org ws)).
Proof.
  intros Hr Hclaim Hs Htok refused.
  assert (Hr1 : reachable cfg d1).
  { eapply (later_reachable cfg d); [done|]. apply rtc_once.
    pose proof (step_request cfg clk ids (RqClaim p w profiles) d) as Hstep.
    by rewrite claim_request_tables, Hclaim in Hstep. }
  destruct (claim_job_view cfg p w profiles d clk ids d1 c (reachable_ledger _ _ Hr) Hclaim)
    as (j & Hj & Hc).
  destruct (later_row _ _ _ _ _ Hr1 Hs Hj) as (j' & Hj' & Hid & _).
  assert (Hne : tok <> j_fencing_token j').
  { pose proof (si_token _ _ Hid). rewrite Hc in Htok. cbn in Htok. lia. }
  unfold refused, heartbeat, append_chunk, finish.
  split_and!; intros; by eapply assert_lease_stale.
Qed.

(** The lease runs out, the job is claimed again, and its first holder comes
    back with token 1. *)
Lemma claim_fences_out_witness :
  exists d1 c,
    with_session (demo_clock 100) (demo_ids 2000) (claim_job demo_cfg demo_principal "worker-a" None)
      demo_leased = (d1, inr (Some c))
    /\ with_session (demo_clock 101) (demo_ids 2100)
         (append_chunk (cl_id c) "worker-a" 1 0 "late" 4096 None None) d1
       = (d1, inl (PermissionError "stale_or_invalid_lease")).
Proof.
  destruct (responds_inr (fun o => from_option (fun c => 1 <? cl_fencing_token c) false o)
    (with_session (demo_clock 100) (demo_ids 2000) (claim_job demo_cfg demo_principal "worker-a" None)
      demo_leased) ltac:(vm_compute; reflexivity)) as (d1 & [c|] & E & Ht); [|discriminate Ht].
  exists d1, c. split; [exact E|].
  apply (claim_fences_out demo_cfg demo_leased (demo_clock 100) (demo_ids 2000) demo_principal
    "worker-a" None d1 c d1 (demo_clock 101) (demo_ids 2100) "worker-a" 1 None None
    demo_leased_reachable E (rtc_refl _ _)).
  apply Z.ltb_lt. exact Ht.
Defined.

(** C7. The attempt ledger is exact: the attempts recorded for a job are
    numbered from one to its attempt count without a gap, each carries the
    fencing token it ran under, that is its own number, and there are at most
    [max_attempts], ten at the most. *)
Theorem attempt_ledger_exact `{Pydantic} cfg d id j :
  reachable cfg d -> jobs d !! id = Some j ->
  (forall n, is_Some (attempts d !! (id, n)) <-> 1 <= n <= j_attempt_count j)
  /\ (forall n a, attempts d !! (id, n) = Some a -> at_fencing_token a = n)
  /\ j_fencing_token j = j_attempt_count j
  /\ j_attempt_count j <= j_max_attempts j <= 10.
Proof.
  intros Hr Hj. pose proof (reachable_ledger _ _ Hr) as Hok.
  destruct (reachable_row _ _ _ _ Hr Hj) as (_ & [] & _).
  split_and!; try lia.
  - intros n. rewrite (lg_attempts _ Hok). split; [intros (j' & Hj' & ?); by simplify_eq|eauto].
  - by apply (lg_attempt_token _ Hok).
Qed.

Lemma attempt_ledger_exact_witness :
  exists j, jobs demo_leased !! 7%N = Some j /\ j_attempt_count j <= j_max_attempts j <= 10.
Proof.
  destruct (demo_job demo_leased 7%N leased ltac:(vm_compute; reflexivity)) as (j & E & _).
  exists j. split; [exact E|].
  apply (attempt_ledger_exact demo_cfg demo_leased 7%N j demo_leased_reachable E).
Defined.

(** ** The output account *)

Definition capped (cap : Z) (d : db) : Prop :=
  ledger_ok d /\ forall id j, jobs d !! id = Some j -> j_output_bytes j <= Z.max 0 cap.

Lemma capped_same cap d d' : same_ledger d d' -> capped cap d -> capped cap d'.
Proof.
  intros Hs [Hok Hcap]. split; [by eapply same_ledger_ok|]. intros id j' Hj'.
  destruct (same_ledger_job _ _ _ _ Hs Hj') as (j & Hj & Hcore). injection Hcore. intros.
  specialize (Hcap id j Hj). lia.
Qed.

Lemma capped_claim cap w secs corr org ws service allowed :
  preserves (capped cap) (claim w secs corr org ws service allowed).
Proof.
  intros [d v clk ids] Hcl [Hok Hcap]. unfold clean in Hcl. cbn in *. subst v.
  destruct (claim_ledger w secs corr org ws service allowed (Session d d clk ids) eq_refl Hok)
    as [Hok' Hret].
  split; [split; [exact Hok'|]|exact Hret].
  change (wp (claim w secs corr org ws service allowed) (fun s' _ =>
    forall id j, jobs (committed s') !! id = Some j -> j_output_bytes j <= Z.max 0 cap)
    (Session d d clk ids)).
  apply claim_wp; [done| | |].
  - by intros s' e ->.
  - by intros s' active _ ? -> _ _.
  - intros s' active c j _ ? _ [Hrow _ _ -> _ _] id j'. rewrite lookup_insert_Some.
    intros [[_ <-]|[_ ?]]; [exact (Hcap _ _ Hrow)|eauto].
Qed.

Lemma capped_append_chunk cap id w tok seq content org ws :
  preserves (capped cap) (append_chunk id w tok seq content cap org ws).
Proof.
  intros [d v clk ids] Hcl [Hok Hcap]. unfold clean in Hcl. cbn in *. subst v.
  destruct (append_chunk_ledger id w tok seq content cap org ws (Session d d clk ids) eq_refl Hok)
    as [Hok' Hret].
  split; [split; [exact Hok'|]|exact Hret].
  change (wp (append_chunk id w tok seq content cap org ws) (fun s' _ =>
    forall id j, jobs (committed s') !! id = Some j -> j_output_bytes j <= Z.max 0 cap)
    (Session d d clk ids)).
  unfold append_chunk, assert_lease. wp_run; try done.
  match goal with H : select_lease _ _ _ _ _ _ _ _ = Some _ |- _ =>
    apply select_lease_spec in H as [Hj _] end. bool_to_prop.
  intros id' j'. cbn. rewrite lookup_alter_Some.
  intros [(-> & j0 & Hj0 & ->)|[_ ?]]; [|eauto]. simplify_eq. cbn. lia.
Qed.

(** A handler that inserts a fresh row, or none. *)
Lemma insert_job_capped cap j d d' :
  insert_job j d = Some d' -> fresh_job j -> capped cap d -> capped cap d'.
Proof.
  intros Hins Hf [Hok Hcap]. split; [by eapply insert_job_ledger|].
  apply insert_job_spec in Hins as (_ & -> & _). intros id j'. cbn. rewrite lookup_insert_Some.
  destruct Hf as (_ & _ & _ & _ & _ & _ & Ho & _). intros [[_ <-]|[_ ?]]; [lia|eauto].
Qed.

Section caps.
Context `{Pydantic}.

Lemma capped_create cap conv org ws user content task proj key corr maxa t0 :
preserves (capped cap) (create_message_job conv org ws user content task proj key corr maxa t0).
Proof.
start_preserves. unfold create_message_job, audit, lift_exn. wp_run; try done.
match goal with H1 : insert_job _ ?w = Some _, H2 : _ = Some ?w |- _ =>
  apply bind_Some in H2 as (m & _ & [= <-]); rename H1 into Hins end.
pose proof (insert_job_spec _ _ _ Hins) as (_ & _ & Hm & _). split; [|done].
eapply capped_same; [|eapply (insert_job_capped cap _ _ _ Hins); [done|]].
- by apply calm_beside.
- eapply capped_same, Hok. by apply calm_beside.
Qed.

Lemma capped_submit cap cfg command ws today : preserves (capped cap) (submit cfg command ws today).
Proof.
start_preserves. unfold submit, quota_gates. wp_run; try done; cbn in *.
all: match goal with H : insert_job _ _ = Some ?w |- _ =>
  pose proof (insert_job_spec _ _ _ H) as (_ & _ & Hm & _);
  assert (Hw : capped cap w) by (eapply (insert_job_capped cap _ _ _ H); done) end.
all: apply event_wp; cbn; [by intros e s' ->|intros m ids'; wp_run].
all: split; [|done]; eapply capped_same, Hw; by apply calm_beside.
Qed.

Lemma reachable_capped cfg d : reachable cfg d -> capped (ai_job_max_output_bytes cfg) d.
Proof.
apply reachable_preserves; intros;
  eauto using capped_same, capped_claim, capped_append_chunk, capped_create, capped_submit.
- by apply lg_keyed, H0.
- split; [apply empty_ledger|]. intros id j. cbn. by rewrite lookup_empty.
Qed.
End caps.

(** The output account: the [output_bytes] of a job is the exact number of
    bytes of the chunks stored for it, and no job ever exceeds the configured
    output limit, whatever its workers send. *)
Theorem output_account `{Pydantic} cfg d id j :
  reachable cfg d -> jobs d !! id = Some j ->
  j_output_bytes j = chunk_bytes id (chunks d)
  /\ 0 <= j_output_bytes j <= Z.max 0 (ai_job_max_output_bytes cfg).
Proof.
  intros Hr Hj. destruct (reachable_capped _ _ Hr) as [Hok Hcap].
  pose proof (lg_output _ Hok id) as Ho. rewrite Hj in Ho. cbn in Ho. rewrite <- Ho.
  split; [done|]. split; [|eauto]. rewrite Ho. unfold chunk_bytes.
  generalize (map_to_list (chunks d)). induction l as [|x l IH]; cbn; [done|].
  fold (sum_Z ((fun kc : uuid * Z * chunk => if bool_decide (kc.1.1 = id)
     then byte_len (ck_content kc.2) else 0) <$> l)).
  pose proof (byte_len_nonneg (ck_content x.2)). case_bool_decide; lia.
Qed.

Lemma output_account_witness :
  exists j, jobs demo_chunked !! 7%N = Some j /\ j_output_bytes j = chunk_bytes 7%N (chunks demo_chunked)
  /\ chunk_bytes 7%N (chunks demo_chunked) = 2.
Proof.
  destruct (demo_job demo_chunked 7%N leased ltac:(vm_compute; reflexivity)) as (j & E & _).
  exists j. split; [exact E|]. split; [|vm_compute; reflexivity].
  apply (output_account demo_cfg demo_chunked 7%N j demo_chunked_reachable E).
Defined.

(** ** The audit trail *)

Definition logged (l : list audit_event) (d : db) : Prop := l `prefix_of` audits d.

Ltac logged_statement :=
  first
    [ let Hd := fresh in intros ? Hd; unfold logged in *; cbn; apply prefix_app_r; exact Hd
    | let Hd := fresh in intros ? Hd; exact Hd
    | let Hd := fresh in let Hs := fresh in
      intros ? ? Hd Hs; unfold insert_job, upsert_dead_letter, insert_lease_dead_letter in Hs;
      repeat case_match; try discriminate Hs;
      repeat (apply bind_Some in Hs as (? & _ & Hs)); injection Hs as <-; exact Hd ].

Lemma handle_logged `{Pydantic} cfg l r : keeps (logged l) (handle cfg r).
Proof.
  destruct r; unfold handle, ignore, worker_claim, validate_worker_registration, _maintain_lease,
    deliver, claim_job, job_heartbeat, job_chunk, complete_job, fail_job,
    release_job, _finish, get_job, get_worker_job, cancel_job, worker_cancel, dead_letters_page,
    list_dead_letters, retry_dead_letter_job, retry_dead_letter, cancellation_check, recover,
    expire_deadlines, recover_expired, recover_cancelled, claim, admission, append_chunk, heartbeat,
    store_result, completed_result_status, finish, assert_lease, register_worker,
    worker_heartbeat_api, console_create_conversation, create_conversation, create_message,
    create_message_job, lift_exn, console_cancel, require_ai_submissions_available,
    submit_command, submit, quota_gates, get_command, get_result, result, get, cancel_command,
    cancel, _decision, decide_command, _event, permission_409, lookup_404, same_worker, audit;
    keeps_walk; logged_statement.
Qed.

(** The audit trail is append-only: every later state of the tables
    extends the trail of an earlier one, whatever is served in between and
    whether or not a request fails. *)
Theorem audit_append_only `{Pydantic} cfg d d' :
  rtc (step cfg) d d' -> audits d `prefix_of` audits d'.
Proof.
  induction 1 as [|d1 d2 d3 Hs _ IH]; [done|]. etrans; [|exact IH].
  destruct Hs as [clk ids r d1| |]; [|done..].
  apply (keeps_with_session (logged (audits d1))); [apply handle_logged|].
  unfold logged. done.
Qed.

Lemma audit_append_only_witness : audits demo_leased `prefix_of` audits demo_completed.
Proof. exact (audit_append_only demo_cfg demo_leased demo_completed demo_later). Defined.
