(* ===== verification/AiCommands.v ===== *)
(** * Commands: submission, replay, quotas, cancellation and decisions

    The functional behaviour of [src/app/core/ai_orchestration.py] on every
    branch, and what a client may rely on over time. *)

From S2P Require Import Prelude PyText PyTime Sha256 Txn AiContracts AiTables AiJobs AiOrchestration AiApi AiProvider AiWorker AiLifecycle AiRefinement AiSystem AiLedger AiDemo AiClaim AiSafety.
Local Open Scope string_scope.
Local Open Scope Z_scope.

(** ** The event log never collides *)

Lemma next_sequence_above id seq d e :
  events d !! (id, seq) = Some e -> seq < next_sequence id d.
Proof.
  intros He. apply elem_of_map_to_list in He. unfold next_sequence.
  induction (map_to_list (events d)) as [|x l IH]; [by apply elem_of_nil in He|]. cbn.
  apply elem_of_cons in He as [<-|He].
  - rewrite bool_decide_eq_true_2 by done. cbn. lia.
  - specialize (IH He). lia.
Qed.

Lemma next_sequence_free id d : events d !! (id, next_sequence id d) = None.
Proof.
  destruct (events d !! _) as [e|] eqn:E; [|done]. apply next_sequence_above in E. lia.
Qed.

(** [_event] writes the next event of the job, and cannot fail. *)
Lemma event_total id org ws ev st corr details (Q : session db -> exn + unit -> Prop) s :
  Q (Session (committed s)
       ((working s) <| events ::= <[(id, next_sequence id (working s)) :=
          mkEvent org ws ev st (JObj details) corr]> |>) (clock s) (fun n => supply s (S n)))
    (inr tt) ->
  wp (_event id org ws ev st corr details) Q s.
Proof.
  intros HQ. unfold _event. wp_run; cbn in *;
    match goal with H : _ = _ |- _ => unfold insert_new in H; rewrite next_sequence_free in H end;
    cbn in *; simplify_eq; done.
Qed.

(** ** Decisions *)

(** A decision on a pending approval of the tenant always succeeds; it
    records the verdict, its author and reason on the approval, moves the job
    to the decided state whatever state it was in, and touches no other
    job. *)
Theorem decision_spec d clk ids id org ws actor corr ok reason a :
  approvals d !! id = Some a -> pending_approval org ws a = true ->
  let st := if ok : bool then approved else rejected in
  let verdict := if ok then ap_approved else ap_rejected in
  let t := clk O in
  exists d',
    with_session clk ids (decide_command id org ws actor corr ok reason) d
    = (d', inr (PUBLIC_STATES st))
    /\ approvals d' = <[id := decide_approval verdict (sha256_hex actor) reason t a]> (approvals d)
    /\ jobs d' = alter (set_decided st t) id (jobs d)
    /\ events d' !! (id, next_sequence id d)
       = Some (mkEvent org ws ("approval." +:+ state_text st) st
                 (JObj [("reason_present", JBool (negb (bool_decide (reason = ""))))]) corr).
Proof.
  intros Ha Hp st verdict t.
  pose proof (with_session_wp (fun d' r => r = inr (PUBLIC_STATES st)
    /\ approvals d' = <[id := decide_approval verdict (sha256_hex actor) reason t a]> (approvals d)
    /\ jobs d' = alter (set_decided st t) id (jobs d)
    /\ events d' !! (id, next_sequence id d)
       = Some (mkEvent org ws ("approval." +:+ state_text st) st
                 (JObj [("reason_present", JBool (negb (bool_decide (reason = ""))))]) corr))
    clk ids (decide_command id org ws actor corr ok reason) d) as Hw.
  destruct (with_session _ _ _ d) as [d' r]. cbn in Hw.
  destruct Hw as (-> & Hap & Hj & He); [|eauto].
  unfold decide_command. wp_run.
  - apply event_total. wp_run. cbn. split_and!; [done|by apply alter_present|done|apply lookup_insert_eq].
  - exfalso. rewrite Ha in *. cbn in *. congruence.
Qed.

Lemma decision_spec_witness :
  exists d', with_session (demo_clock 5) (demo_ids 1500)
    (decide_command 8%N 1%N 2%N "alice" "corr-0002" true "fine") demo_proposal
    = (d', inr "APPROVED").
Proof.
  assert (Hp : from_option (pending_approval 1%N 2%N) false (approvals demo_proposal !! 8%N) = true)
    by (vm_compute; reflexivity).
  destruct (approvals demo_proposal !! 8%N) as [a|] eqn:Ea; [|discriminate Hp].
  destruct (decision_spec demo_proposal (demo_clock 5) (demo_ids 1500) 8%N 1%N 2%N "alice"
    "corr-0002" true "fine" a Ea Hp) as (d' & E & _).
  exists d'. exact E.
Defined.

(** ** Submission *)

Lemma find_by_key_Some org ws key d j :
  find_by_key org ws key d = Some j ->
  (exists id, jobs d !! id = Some j) /\ j_organization_id j = org /\ j_workspace_id j = ws
  /\ j_idempotency_key j = key.
Proof.
  unfold find_by_key. intros [l Hl]%head_Some.
  assert (Hin : j ∈ select_where (same_key org ws key) (jobs d)) by (rewrite Hl; left).
  apply elem_of_select_where in Hin as [Hk Hex]. unfold same_key in Hk. bool_to_prop. done.
Qed.

(** A key designates one job. *)
Lemma find_by_key_unique d id j :
  ledger_ok d -> jobs d !! id = Some j ->
  find_by_key (j_organization_id j) (j_workspace_id j) (j_idempotency_key j) d = Some j.
Proof.
  intros Hok Hj. destruct (find_by_key _ _ _ d) as [j'|] eqn:E.
  - apply find_by_key_Some in E as ((id' & Hj') & Ho & Hw & Hk).
    assert (id' = id) as -> by by eapply (lg_unique _ Hok). congruence.
  - by destruct (find_by_key_none _ _ _ _ _ _ E Hj).
Qed.

Section submission.
Context `{Pydantic}.

Definition command_hash (command : AICommand) : string :=
sha256_hex (_json (model_dump command)).

Definition max_queued_of (cfg : settings) (command : AICommand) (ws : uuid) (d : db) : Z :=
from_option qt_max_queued (ai_default_max_queued_per_tenant cfg)
  (quotas d !! (tenant_id command, ws)).
Definition daily_tokens_of (cfg : settings) (command : AICommand) (ws : uuid) (d : db) : Z :=
from_option qt_daily_tokens (ai_daily_token_quota cfg) (quotas d !! (tenant_id command, ws)).

(** The four gates a new command passes. *)
Record within_quotas (cfg : settings) (command : AICommand) (ws : uuid) (today : Z) (d : db) : Prop :=
WithinQuotas {
wq_queue : queued_count (tenant_id command) ws d < max_queued_of cfg command ws d;
wq_payload : forall q, quotas d !! (tenant_id command, ws) = Some q ->
               byte_len (_json (model_dump command)) <= qt_max_payload_bytes q;
wq_tokens : used_tokens (tenant_id command) ws today d + token_budget (resource_limits command)
            <= daily_tokens_of cfg command ws d;
wq_emergency : 0 < ai_global_emergency_limit cfg -> active_count d < ai_global_emergency_limit cfg;
}.

Definition quota_refusals : list exn :=
OverflowError <$> ["tenant_queue_quota_exceeded"; "tenant_payload_quota_exceeded";
                   "daily_token_quota_exceeded"; "global_emergency_limit"].

Lemma quota_gates_wp cfg command ws today (Q : session db -> exn + unit -> Prop) s :
(within_quotas cfg command ws today (working s) -> Q s (inr tt)) ->
(forall e, e ∈ quota_refusals -> ~ within_quotas cfg command ws today (working s) -> Q s (inl e)) ->
wp (quota_gates cfg command ws today) Q s.
Proof.
intros HQ Herr. unfold quota_gates. wp_run.
all: try (apply HQ; bool_to_prop; split; try done; try lia;
  intros q Hq; rewrite Hq in *; cbn in *; by bool_to_prop).
all: apply Herr; [by_compute|]; intros [Hq Hp Ht He]; bool_to_prop;
  unfold max_queued_of, daily_tokens_of in *; try lia.
destruct (quotas (working s) !! _) as [q|] eqn:E in *; cbn in *; [|done]. 
bool_to_prop. specialize (Hp q eq_refl). lia.
Qed.

(** A validated command satisfies the checks of the table. *)
Lemma validated_checks c0 c :
validate_command model_dump_json c0 = inr c -> command_fields_ok c = true.
Proof.
unfold validate_command, policy_consistency. repeat case_match; intros; simplify_eq; done.
Qed.

Lemma command_job_checks command ws hash t :
command_fields_ok command = true -> job_checks (command_job command ws hash t) = true.
Proof.
unfold command_fields_ok, job_checks, resource_limits_ok, between. intros Hc. bool_to_prop.
rewrite !andb_true_iff. cbn. repeat split; try done; apply Z.leb_le; lia.
Qed.

(** Every way [submit] can end. *)
Lemma submit_wp cfg command ws today (Q : session db -> exn + submission -> Prop) d clk ids :
command_fields_ok command = true ->
let found := find_by_key (tenant_id command) ws (idempotency_key command) d in
let hash := command_hash command in
let row := command_job command ws hash (clk O) in
(forall j s, committed s = d -> clean s -> found = Some j -> j_request_sha256 j = hash ->
   Q s (inr (mkSubmission (j_id j) (PUBLIC_STATES (j_state j)) true))) ->
(forall j s, committed s = d -> found = Some j -> j_request_sha256 j <> hash ->
   Q s (inl (ValueError "idempotency_conflict"))) ->
(forall j s, committed s = d -> found = None -> jobs d !! command_id command = Some j ->
   Q s (inl (ValueError "command_id_conflict"))) ->
(forall e s, committed s = d -> found = None -> e ∈ quota_refusals ->
   ~ within_quotas cfg command ws today d -> Q s (inl e)) ->
(forall s, found = None -> jobs d !! command_id command = None ->
   within_quotas cfg command ws today d -> clean s ->
   jobs (committed s) = <[command_id command := row]> (jobs d) ->
   usage (committed s) = usage d -> quotas (committed s) = quotas d ->
   Q s (inr (mkSubmission (command_id command) "PENDING" false))) ->
wp (submit cfg command ws today) Q (Session d d clk ids).
Proof.
intros Hf found hash row Hreplay Hconf Htaken Hquota Hnew. unfold submit.
fold (command_hash command) hash. do 2 wp_step. fold found.
destruct found as [j|] eqn:Efound.
- wp_run; bool_to_prop; [by eapply Hreplay|by eapply Hconf].
- wp_step. wp_step. wp_step. wp_step; [|destruct (jobs d !! _) eqn:E; [eauto|done]].
  bool_to_prop. wp_step. apply quota_gates_wp; [intros Hin|by eauto]. cbn in Hin.
  wp_step. wp_step. wp_step. fold row. wp_step; cbn.
  + match goal with Hi : insert_job _ _ = Some _ |- _ =>
      apply insert_job_spec in Hi as (_ & -> & _) end.
    wp_step. apply event_total. wp_run. by apply Hnew.
  + exfalso. match goal with Hi : insert_job _ _ = None |- _ => revert Hi end.
    unfold insert_job, insert_new. unfold row at 1. rewrite command_job_checks by done.
    cbn. fold found. rewrite Efound. cbn.
    match goal with Hi : jobs d !! _ = None |- _ => by rewrite Hi end.
Qed.

(** The stored job that answers for a command. *)
Definition answers_for (command : AICommand) (ws : uuid) (id : uuid) (d : db) : Prop :=
exists j, jobs d !! id = Some j /\ j_id j = id /\ j_organization_id j = tenant_id command
  /\ j_workspace_id j = ws /\ j_idempotency_key j = idempotency_key command
  /\ j_request_sha256 j = command_hash command.

Lemma submit_answers cfg command ws today d clk ids sub d1 :
ledger_ok d -> command_fields_ok command = true ->
with_session clk ids (submit cfg command ws today) d = (d1, inr sub) ->
answers_for command ws (sb_command_id sub) d1.
Proof.
intros Hok Hf E.
pose proof (with_session_wp (fun d1 r => forall sub, r = inr sub ->
  answers_for command ws (sb_command_id sub) d1) clk ids (submit cfg command ws today) d) as Hw.
rewrite E in Hw. apply Hw; [|done]. apply submit_wp; [done|..]; try by intros.
- intros j s -> _ Hfound Hh sub' [= <-]. cbn.
  apply find_by_key_Some in Hfound as ((id & Hj) & Ho & Hws & Hk).
  exists j. rewrite (lg_keyed _ Hok _ _ Hj) in *. done.
- intros s _ _ _ _ Hj _ _ sub' [= <-]. cbn. eexists. rewrite Hj, lookup_insert_eq. done.
Qed.

(** Where a job answers for its key, [submit] only reads. *)
Lemma submit_replays cfg command ws today d clk ids id other :
ledger_ok d -> answers_for command ws id d ->
tenant_id other = tenant_id command -> idempotency_key other = idempotency_key command ->
exists status,
with_session clk ids (submit cfg other ws today) d
= (d, if bool_decide (command_hash command = command_hash other)
      then inr (mkSubmission id status true) else inl (ValueError "idempotency_conflict")).
Proof.
intros Hok (j & Hj & Hid & Ho & Hw & Hk & Hh) Ht Hkey.
pose proof (find_by_key_unique _ _ _ Hok Hj) as Hfind. rewrite Ho, Hw, Hk, <- Ht, <- Hkey in Hfind.
exists (PUBLIC_STATES (j_state j)).
unfold with_session, submit, mbind, M_bind, query. cbn. rewrite Hfind.
fold (command_hash other). rewrite Hh, Hid. by case_bool_decide.
Qed.
End submission.

(** The guards of [submit_command]. *)
Definition may_submit (cfg : settings) (who : Tenant) (command : AICommand) : bool :=
  (ai_submissions_enabled cfg && ai_orchestration_enabled cfg)
  && (bool_decide (tenant_id command = tn_organization_id who)
      && bool_decide (actor_id command = tn_user_id who)).

Lemma submit_command_run `{Pydantic} cfg who command today d clk ids :
  may_submit cfg who command = true ->
  let r := with_session clk ids (submit cfg command (tn_workspace_id who) today) d in
  with_session clk ids (submit_command cfg who command today) d
  = (r.1, match r.2 with
          | inl (ValueError msg) => inl (HTTPException 409 msg)
          | inl (OverflowError msg) => inl (HTTPException 429 msg)
          | o => o
          end).
Proof.
  unfold may_submit. intros [H1 H2]%andb_true_iff. cbv zeta.
  unfold with_session, submit_command, guard_or, mbind, M_bind. rewrite H1, H2. cbn.
  unfold try_except. destruct (submit _ _ _ _ _) as [s [[]|a]]; done.
Qed.

Lemma submit_command_accepts `{Pydantic} cfg who command today d clk ids d1 sub :
  with_session clk ids (submit_command cfg who command today) d = (d1, inr sub) ->
  may_submit cfg who command = true
  /\ with_session clk ids (submit cfg command (tn_workspace_id who) today) d = (d1, inr sub).
Proof.
  intros E. destruct (may_submit cfg who command) eqn:Hm.
  - split; [done|]. rewrite submit_command_run in E by done.
    destruct (with_session _ _ (submit _ _ _ _) d) as [d' [[]|a]]; cbn in E; by simplify_eq.
  - unfold may_submit in Hm. revert E. unfold with_session, submit_command, guard_or, mbind, M_bind.
    apply andb_false_iff in Hm as [-> | ->]; cbn; [done|]. destruct (ai_submissions_enabled cfg && ai_orchestration_enabled cfg); cbn; done.
Qed.

(** Submission is idempotent for ever: once a command was accepted, the
    same command submitted again at any later time, whatever happened in
    between, is answered with the same command id as a replay, and another
    command under the same key of the same tenant is refused as a conflict;
    neither changes anything. *)
Theorem submission_replay_forever `{Pydantic} cfg d clk ids who c0 command today sub d1 d2 :
  reachable cfg d ->
  validate_command model_dump_json c0 = inr command ->
  with_session clk ids (submit_command cfg who command today) d = (d1, inr sub) ->
  rtc (step cfg) d1 d2 ->
  forall clk' ids' today' other,
    tenant_id other = tenant_id command -> actor_id other = actor_id command ->
    idempotency_key other = idempotency_key command ->
    exists status,
    with_session clk' ids' (submit_command cfg who other today') d2
    = (d2, if bool_decide (command_hash command = command_hash other)
           then inr (mkSubmission (sb_command_id sub) status true)
           else inl (HTTPException 409 "idempotency_conflict")).
Proof.
  intros Hr Hv E Hs clk' ids' today' other Ht Hact Hkey.
  pose proof (step_request cfg clk ids (RqSubmit who command today) d) as Hstep.
  unfold serve, handle in Hstep. rewrite ignore_tables, E in Hstep. cbn in Hstep.
  assert (Hr1 : reachable cfg d1) by (eapply later_reachable; [done|by apply rtc_once]).
  apply submit_command_accepts in E as [Hm E].
  destruct (submit_answers _ _ _ _ _ _ _ _ _ (reachable_ledger _ _ Hr) (validated_checks _ _ Hv) E)
    as (j & Hj & Hid & Ho & Hw & Hk & Hh).
  destruct (later_row _ _ _ _ _ Hr1 Hs Hj) as (j2 & Hj2 & [] & _).
  assert (Hans : answers_for command (tn_workspace_id who) (sb_command_id sub) d2).
  { exists j2. split_and!; congruence. }
  destruct (submit_replays cfg command (tn_workspace_id who) today' d2 clk' ids' _ other
    (reachable_ledger _ _ (later_reachable _ _ _ Hr1 Hs)) Hans Ht Hkey) as [status Hrun].
  exists status. rewrite submit_command_run, Hrun by (unfold may_submit in *; by rewrite Ht, Hact).
  by case_bool_decide.
Qed.

(** The command is cancelled in between, and answered all the same. *)
Lemma submission_replay_forever_witness :
  exists d1 sub d2 status,
    with_session (demo_clock 1) (demo_ids 1100)
      (submit_command demo_cfg demo_user (demo_command 7%N "key-0000000000000007" false) 0)
      demo_enabled = (d1, inr sub)
    /\ d2 = (serve demo_cfg (demo_clock 2) (demo_ids 1200) (RqCancel demo_user 7%N "corr-0002") d1).1
    /\ with_session (demo_clock 3) (demo_ids 1300)
         (submit_command demo_cfg demo_user (demo_command 7%N "key-0000000000000007" false) 0) d2
       = (d2, inr (mkSubmission (sb_command_id sub) status true)).
Proof.
  destruct (responds_inr (fun _ => true) (with_session (demo_clock 1) (demo_ids 1100)
    (submit_command demo_cfg demo_user (demo_command 7%N "key-0000000000000007" false) 0)
    demo_enabled) ltac:(vm_compute; reflexivity)) as (d1 & sub & E & _).
  set (d2 := (serve demo_cfg (demo_clock 2) (demo_ids 1200) (RqCancel demo_user 7%N "corr-0002") d1).1).
  destruct (submission_replay_forever demo_cfg demo_enabled (demo_clock 1) (demo_ids 1100) demo_user
    (demo_command 7%N "key-0000000000000007" false) (demo_command 7%N "key-0000000000000007" false) 0
    sub d1 d2 demo_enabled_reachable ltac:(vm_compute; reflexivity) E
    (rtc_once _ _ (step_request demo_cfg (demo_clock 2) (demo_ids 1200) _ d1))
    (demo_clock 3) (demo_ids 1300) 0 (demo_command 7%N "key-0000000000000007" false)
    eq_refl eq_refl eq_refl) as [status Hs].
  exists d1, sub, d2, status. split; [exact E|]. split; [reflexivity|].
  rewrite bool_decide_eq_true_2 in Hs by reflexivity. exact Hs.
Defined.

(** ** Quotas *)

Lemma select_where_insert_new (p : job -> bool) (m : gmap uuid job) k v :
  m !! k = None ->
  (length (select_where p (<[k := v]> m)) <= S (length (select_where p m)))%nat.
Proof.
  intros Hk. unfold select_where, rows.
  rewrite (fmap_Permutation snd _ _ (map_to_list_insert m k v Hk)). cbn. case_match; cbn; lia.
Qed.

(** Quotas: a command accepted as new found room under every quota, and
    leaves the queue of its tenant, the token budget of the day and, when it is
    set, the global limit on active jobs within bounds; a refusal names a quota
    and only happens when one of them would be exceeded; the insertion itself
    never fails. *)
Theorem submission_quotas `{Pydantic} cfg d clk ids c0 command ws today :
  reachable cfg d -> validate_command model_dump_json c0 = inr command ->
  match with_session clk ids (submit cfg command ws today) d with
  | (d', inr sub) =>
      sb_idempotent_replay sub = false ->
      queued_count (tenant_id command) ws d' <= max_queued_of cfg command ws d'
      /\ used_tokens (tenant_id command) ws today d' + token_budget (resource_limits command)
         <= daily_tokens_of cfg command ws d'
      /\ (0 < ai_global_emergency_limit cfg -> active_count d' <= ai_global_emergency_limit cfg)
      /\ exists t, jobs d' = <[command_id command := command_job command ws (command_hash command) t]>
                               (jobs d)
  | (d', inl e) =>
      d' = d /\ (e = ValueError "idempotency_conflict" \/ e = ValueError "command_id_conflict"
                 \/ (e ∈ quota_refusals /\ ~ within_quotas cfg command ws today d))
  end.
Proof.
  intros Hr Hv.
  pose proof (with_session_wp (fun d' r => match r with
    | inr sub => sb_idempotent_replay sub = false ->
      queued_count (tenant_id command) ws d' <= max_queued_of cfg command ws d'
      /\ used_tokens (tenant_id command) ws today d' + token_budget (resource_limits command)
         <= daily_tokens_of cfg command ws d'
      /\ (0 < ai_global_emergency_limit cfg -> active_count d' <= ai_global_emergency_limit cfg)
      /\ exists t, jobs d' = <[command_id command := command_job command ws (command_hash command) t]>
                               (jobs d)
    | inl e => d' = d /\ (e = ValueError "idempotency_conflict" \/ e = ValueError "command_id_conflict"
                 \/ (e ∈ quota_refusals /\ ~ within_quotas cfg command ws today d))
    end) clk ids (submit cfg command ws today) d) as Hw.
  destruct (with_session clk ids (submit cfg command ws today) d) as [d' [e|sub]]; apply Hw; clear Hw.
  all: apply submit_wp; [by eapply validated_checks|done| | | |].
  all: try (intros; split; [done|by auto]).
  all: intros s _ Hnone [Hq _ Ht Hem] _ Hj Hu Hqu _; cbn.
  all: unfold queued_count, active_count, max_queued_of, daily_tokens_of, used_tokens, count_where
         in *; rewrite Hj, Hu, Hqu.
  all: split_and!; [| |intros Hlim; specialize (Hem Hlim)|eauto].
  all: try lia.
  all: match goal with |- Z.of_nat (length (select_where ?p (<[?k := ?v]> _))) <= _ =>
         pose proof (select_where_insert_new p (jobs d) k v Hnone); lia end.
Qed.

Lemma submission_quotas_witness :
  match with_session (demo_clock 1) (demo_ids 1100)
          (submit demo_cfg (demo_command 7%N "key-0000000000000007" false) 2%N 0) demo_enabled with
  | (d', inr sub) => queued_count 1%N 2%N d' <= 20
  | _ => False
  end.
Proof.
  pose proof (submission_quotas demo_cfg demo_enabled (demo_clock 1) (demo_ids 1100)
    (demo_command 7%N "key-0000000000000007" false) (demo_command 7%N "key-0000000000000007" false)
    2%N 0 demo_enabled_reachable ltac:(vm_compute; reflexivity)) as Hq.
  destruct (responds_inr (fun s => negb (sb_idempotent_replay s)) (with_session (demo_clock 1) (demo_ids 1100)
    (submit demo_cfg (demo_command 7%N "key-0000000000000007" false) 2%N 0) demo_enabled)
    ltac:(vm_compute; reflexivity)) as (d' & sub & E & Ht).
  assert (Hm : quotas d' = ∅).
  { pose proof (f_equal (fun x => quotas x.1) E) as Eq. cbn [fst] in Eq. rewrite <- Eq.
    vm_compute. reflexivity. }
  rewrite E in *. destruct (Hq (proj1 (negb_true_iff _) Ht)) as [Hb _].
  unfold max_queued_of in Hb. rewrite Hm in Hb. exact Hb.
Defined.
