(* ===== verification/AiLeases.v ===== *)
(** * Lease holders and sweeps

    The functional behaviour of the operations of a lease holder and of the
    two recovery sweeps ([src/app/core/ai_jobs.py]). *)

From S2P Require Import Prelude PyText PyTime Sha256 Txn AiContracts AiTables AiJobs AiOrchestration AiApi AiProvider AiWorker AiLifecycle AiRefinement AiSystem AiLedger AiDemo AiClaim AiSafety.
Local Open Scope string_scope.
Local Open Scope Z_scope.

(** ** Sweeps *)

Lemma recovered_settled t org ws j :
  expired_cancel t org ws (recovered t org ws j) = false
  /\ expired_lease t org ws (recovered t org ws j) = false.
Proof.
  destruct (recovered_cases t org ws j) as
    [(_ & -> & _)|[(_ & -> & _)|[(_ & ->)|(H1 & H2 & -> & _)]]]; done.
Qed.

(** The sweep succeeds on reachable tables, whose buried jobs meet the check
    constraint of the dead letters. *)
Lemma recover_runs `{Pydantic} cfg d clk ids org ws :
  reachable cfg d ->
  exists d' counts,
    with_session clk ids (recover_expired org ws) d = (d', inr counts)
    /\ (forall id, jobs d' !! id = recovered (clk O) org ws <$> jobs d !! id)
    /\ (forall id j, jobs d !! id = Some j -> expired_exhausted (clk O) org ws j = true ->
          is_Some (dead_letters d' !! id)).
Proof.
  intros Hr. set (t := clk O).
  pose proof (with_session_wp (fun d' r => (exists counts, r = inr counts)
    /\ (forall id, jobs d' !! id = recovered t org ws <$> jobs d !! id)
    /\ (forall id j, jobs d !! id = Some j -> expired_exhausted t org ws j = true ->
          is_Some (dead_letters d' !! id))) clk ids (recover_expired org ws) d) as Hw.
  destruct (with_session clk ids (recover_expired org ws) d) as [d' r]. cbn in Hw.
  destruct Hw as ((counts & ->) & Hj & Hd); [|by exists d', counts].
  apply recover_expired_wp; [by eapply reachable_keyed| |].
  - intros e s' id j _ Hj He Hbad. exfalso. cbn in Hj, He.
    destruct (reachable_row _ _ _ _ Hr Hj) as (_ & Hrow & _).
    unfold expired_exhausted in He. bool_to_prop. apply expired_lease_holds in H0 as (Hs & _).
    pose proof (ok_leased _ Hrow Hs) as Hl. pose proof (ok_holder _ Hrow Hl) as [_ Hpos].
    pose proof (ok_max _ Hrow). unfold dead_letter_checks in Hbad.
    rewrite !(proj2 (Z.ltb_lt _ _)) in Hbad by lia. done.
  - intros s' r' _ Hj _ Hd. split_and!; [eauto|done|].
    intros id j Hjj He. specialize (Hd id). cbn in Hd, Hjj. rewrite Hjj in Hd.
    change (clk O) with t in Hd. rewrite He in Hd. destruct Hd as [x ->]. eauto.
Qed.

(** Recovery is complete: on reachable tables [recover_expired] always
    succeeds, applies to each job of its scope the one transition its expired
    lease calls for, gives every job it buries a dead letter, and leaves no
    job of the scope behind with an expired lease that it should have
    handled. *)
Theorem recovery_complete `{Pydantic} cfg d clk ids org ws :
  reachable cfg d ->
  let t := clk O in
  exists d' counts,
    with_session clk ids (recover_expired org ws) d = (d', inr counts)
    /\ (forall id, jobs d' !! id = recovered t org ws <$> jobs d !! id)
    /\ (forall id j, jobs d !! id = Some j -> expired_exhausted t org ws j = true ->
          is_Some (dead_letters d' !! id))
    /\ (forall id j, jobs d' !! id = Some j -> in_scope org ws j = true ->
          j_state j = leased \/ j_state j = cancel_requested ->
          null_le (j_lease_expires_at j) t = true ->
          j_state j = leased /\ deadline_open t j = false).
Proof.
  intros Hr t. destruct (recover_runs cfg d clk ids org ws Hr) as (d' & counts & E & Hj & Hd).
  fold t in Hj, Hd.
  exists d', counts. split_and!; [done..|]. intros id j. rewrite Hj.
  intros (j0 & _ & ->)%fmap_Some Hsc Hst Hexp.
  destruct (recovered_settled t org ws j0) as [H1 H2].
  unfold expired_cancel, expired_lease in H1, H2. rewrite Hexp, Hsc in H1, H2.
  destruct Hst as [Hst|Hst]; rewrite Hst in *.
  + split; [done|]. by destruct (deadline_open t (recovered t org ws j0)).
  + done.
Qed.

(** A lease of the run, long expired. *)
Lemma recovery_complete_witness :
  exists d' counts,
    with_session (demo_clock 100) (demo_ids 2000) (recover_expired None None) demo_leased
    = (d', inr counts)
    /\ demo_state d' 7%N = Some retry_wait.
Proof.
  destruct (recovery_complete demo_cfg demo_leased (demo_clock 100) (demo_ids 2000) None None
    demo_leased_reachable) as (d' & counts & E & Hj & _).
  exists d', counts. split; [exact E|]. unfold demo_state. rewrite Hj. vm_compute. reflexivity.
Defined.

(** Expiry is complete: [expire_deadlines] reports the number of jobs it
    expires, those are exactly the waiting or leased jobs of its scope whose
    deadline has passed, every other job is untouched, and afterwards no such
    job is left. *)
Theorem expiry_complete d clk ids org ws :
  let t := clk O in
  exists d',
    with_session clk ids (expire_deadlines org ws) d
    = (d', inr (Z.of_nat (length (select_where (past_deadline t org ws) (jobs d)))))
    /\ (forall id, jobs d' !! id
          = (fun j => if past_deadline t org ws j then expire_job t j else j) <$> jobs d !! id)
    /\ select_where (past_deadline t org ws) (jobs d') = [].
Proof.
  intros t. eexists. split_and!; [reflexivity| |].
  - intros id. cbn. apply lookup_update_where.
  - change (select_where (past_deadline t org ws)
      (update_where (past_deadline t org ws) (expire_job t) (jobs d)) = []).
    destruct (select_where _ _) as [|j l] eqn:E; [done|]. exfalso.
    assert (Hin : j ∈ j :: l) by left. rewrite <- E in Hin.
    apply elem_of_select_where in Hin as (Hp & id & Hid).
    apply lookup_update_where_Some in Hid as (j0 & _ & ->).
    by destruct (past_deadline t org ws j0) eqn:E0; [|congruence].
Qed.

(** ** Output *)

(** Reading the lease under which a row is held. *)
Lemma select_lease_intro id w tok org ws allow t d j :
  jobs d !! id = Some j -> lease_matches w tok org ws allow t j = true ->
  select_lease id w tok org ws allow t d = Some j.
Proof. intros Hj Hm. unfold select_lease. rewrite Hj. cbn. by rewrite Hm. Qed.

Lemma chunk_stored d clk ids id w tok seq content cap org ws d1 :
  with_session clk ids (append_chunk id w tok seq content cap org ws) d = (d1, inr true) ->
  is_Some (jobs d1 !! id) /\ is_Some (chunks d1 !! (id, seq)).
Proof.
  intros E.
  pose proof (with_session_wp (fun d1 r => r = inr true ->
    is_Some (jobs d1 !! id) /\ is_Some (chunks d1 !! (id, seq)))
    clk ids (append_chunk id w tok seq content cap org ws) d) as Hw.
  rewrite E in Hw. apply Hw; [|done]. unfold append_chunk, assert_lease. wp_run; try done.
  match goal with H : select_lease _ _ _ _ _ _ _ _ = Some _ |- _ =>
    apply select_lease_spec in H as [Hj _] end.
  bool_to_prop. intros _. cbn. rewrite lookup_alter_eq, Hj. split; [by eexists|].
  unfold insert_if_absent. match goal with H : chunks d !! _ = None |- _ => rewrite H end.
  rewrite lookup_insert_eq. by eexists.
Qed.

(** Streaming is idempotent: after a chunk was accepted, sending the same
    sequence number again under the same lease, as long as the content still
    fits under the limit, is reported as a duplicate and leaves every table as
    it is, whatever its content. *)
Theorem chunk_idempotent d d1 clk ids clk' ids' id w tok seq content content' cap org ws :
  with_session clk ids (append_chunk id w tok seq content cap org ws) d = (d1, inr true) ->
  (forall j, jobs d1 !! id = Some j ->
     lease_matches w tok org ws false (clk' O) j = true
     /\ j_output_bytes j + byte_len content' <= cap) ->
  with_session clk' ids' (append_chunk id w tok seq content' cap org ws) d1 = (d1, inr false).
Proof.
  intros E Hstill.
  destruct (chunk_stored _ _ _ _ _ _ _ _ _ _ _ _ E) as [[j Hj] [c Hc]].
  destruct (Hstill j Hj) as [Hm Hfit].
  pose proof (with_session_wp (fun d' r => d' = d1 /\ r = inr false) clk' ids'
    (append_chunk id w tok seq content' cap org ws) d1) as Hw.
  destruct (with_session clk' ids' _ d1) as [d' r]. destruct Hw as [? ?]; [|by simplify_eq/=].
  pose proof (select_lease_intro _ _ _ _ _ _ _ _ _ Hj Hm) as Hsel.
  unfold append_chunk, assert_lease. wp_run; cbn in *; try congruence;
    rewrite Hsel in *; simplify_eq; rewrite ?Hc in *; bool_to_prop; try done; try lia.
  split; [|done]. unfold insert_if_absent. destruct d1; cbn in *. unfold upd. cbn. by rewrite Hc.
Qed.

Lemma chunk_idempotent_witness :
  exists d1, with_session (demo_clock 3) (demo_ids 1300)
      (append_chunk 7%N "worker-a" 1 0 "hi" 4096 None None) demo_leased = (d1, inr true)
    /\ with_session (demo_clock 4) (demo_ids 1400)
         (append_chunk 7%N "worker-a" 1 0 "other" 4096 None None) d1 = (d1, inr false).
Proof.
  destruct (responds_inr (fun b => b) (with_session (demo_clock 3) (demo_ids 1300)
    (append_chunk 7%N "worker-a" 1 0 "hi" 4096 None None) demo_leased)
    ltac:(vm_compute; reflexivity)) as (d1 & b & E & Hb). cbn in Hb. subst b.
  exists d1. split; [exact E|].
  apply (chunk_idempotent demo_leased d1 (demo_clock 3) (demo_ids 1300) (demo_clock 4)
    (demo_ids 1400) 7%N "worker-a" 1 0 "hi" "other" 4096 None None E).
  assert (Hd : from_option (fun j => lease_matches "worker-a" 1 None None false (seconds 4) j
                 && (j_output_bytes j + byte_len "other" <=? 4096)) false (jobs d1 !! 7%N) = true).
  { pose proof (f_equal (fun x => jobs x.1 !! 7%N) E) as Ej. cbn [fst] in Ej. rewrite <- Ej.
    vm_compute. reflexivity. }
  intros j Hj. rewrite (Hj : jobs d1 !! 7%N = Some j) in Hd. cbn [from_option] in Hd. apply andb_true_iff in Hd as [H1 H2].
  split; [exact H1|]. apply Z.leb_le. exact H2.
Defined.

(** ** Finishing *)

Lemma retry_delay_range n : 1 <= n -> 2 <= retry_delay n <= 256 /\ retry_delay n = 2 ^ Z.min n 8.
Proof.
  intros Hn. unfold retry_delay.
  assert (H1 : 2 ^ 1 <= 2 ^ Z.min n 8) by (apply Z.pow_le_mono_r; lia).
  assert (H2 : 2 ^ Z.min n 8 <= 2 ^ 8) by (apply Z.pow_le_mono_r; lia).
  change (2 ^ 1) with 2 in H1. change (2 ^ 8) with 256 in H2. lia.
Qed.

(** What a finished lease leaves behind. *)
Record finished (id : uuid) (tok t : Z) (st : job_state) (err : option string) (j : job)
    (d d' : db) : Prop := Finished {
  fn_row : jobs d' = <[id := finish_job st (retry_delay (j_attempt_count j)) err t j]> (jobs d);
  fn_attempt : forall a, attempts d !! (id, tok) = Some a ->
                 attempts d' !! (id, tok) = Some (finish_attempt st err t a);
  fn_dead : st = dead_letter ->
            exists l, dead_letters d' !! id = Some l
              /\ dl_final_error_code l = py_or err "attempts_exhausted"
              /\ dl_attempt_count l = j_attempt_count j /\ dl_failed_at l = t
              /\ dl_manual_retry_requires_new_approval l = true;
  fn_alive : st <> dead_letter -> dead_letters d' = dead_letters d;
  fn_approvals : approvals d' = approvals d;
}.

Lemma finish_runs id w tok is_failed err retryable corr cs details org ws d clk ids j :
  ledger_ok d -> row_ok j ->
  select_lease id w tok org ws true (clk O) d = Some j ->
  let st := finish_state j is_failed retryable cs in
  exists d', with_session clk ids
      (finish id w tok is_failed err retryable corr cs details org ws) d = (d', inr st)
    /\ finished id tok (clk O) st err j d d'.
Proof.
  intros Hok Hrow Hsel st.
  pose proof (with_session_wp (fun d' r => r = inr st /\ finished id tok (clk O) st err j d d')
    clk ids (finish id w tok is_failed err retryable corr cs details org ws) d) as Hw.
  destruct (with_session clk ids _ d) as [d' r]. cbn in Hw.
  destruct Hw as [-> Hf]; [|by exists d'].
  apply select_lease_spec in Hsel as [Hj Hm]. pose proof (lg_keyed _ Hok _ _ Hj) as Hid.
  assert (Hpos : dead_letter_checks (j_attempt_count j) (j_max_attempts j) = true).
  { apply lease_matches_owner in Hm. pose proof (ok_holder _ Hrow Hm) as [_ ?].
    pose proof (ok_max _ Hrow). unfold dead_letter_checks.
    rewrite !(proj2 (Z.ltb_lt _ _)) by lia. done. }
  pose proof (select_lease_intro _ _ _ _ _ _ _ _ _ Hj Hm) as Hsel.
  assert (Hat : forall a, attempts d !! (id, tok) = Some a -> at_fencing_token a = tok).
  { apply (lg_attempt_token _ Hok). }
  unfold finish, audit, assert_lease, upsert_dead_letter. wp_run; cbn in *;
    rewrite ?Hsel in *; simplify_eq; rewrite ?Hpos in *; simplify_eq; bool_to_prop.
  all: split; [done|]; split; cbn;
    [by apply alter_present
    |intros a' Ha'; rewrite map_lookup_imap, Ha'; cbn;
     by rewrite bool_decide_eq_true_2, (Hat _ Ha'), Z.eqb_refl by done
    |intros E|intros E|done]; try done.
  rewrite lookup_insert_eq. eexists. split; [reflexivity|]. by destruct (dead_letters d !! _).
Qed.

(** Finishing under a live lease always succeeds and does what the
    outcome calls for: a job whose cancellation was requested ends cancelled; a
    success ends in its completion state; a retryable failure with attempts
    left waits for [2 ^ attempt] seconds, between 2 and 256, so that the
    300-second cap of the code never applies; any other failure is dead-lettered
    with the error and attempt count on record.  The lease is given up, the
    attempt is closed, and the job never ends in the state [failed]. *)
Theorem finish_spec `{Pydantic} cfg d clk ids id w tok is_failed err retryable corr cs details org ws j :
  reachable cfg d ->
  select_lease id w tok org ws true (clk O) d = Some j ->
  let st := finish_state j is_failed retryable cs in
  let n := j_attempt_count j in
  (exists d', with_session clk ids
      (finish id w tok is_failed err retryable corr cs details org ws) d = (d', inr st)
    /\ finished id tok (clk O) st err j d d'
    /\ exists j', jobs d' !! id = Some j' /\ has_lease j' = false
       /\ (st = retry_wait -> j_next_attempt_at j' = clk O + seconds (2 ^ Z.min n 8)
                              /\ 2 <= 2 ^ Z.min n 8 <= 256))
  /\ st = (if is_null (j_cancel_requested_at j) then
             if is_failed then
               if retryable && (n <? j_max_attempts j) then retry_wait else dead_letter
             else cs
           else cancelled).
Proof.
  intros Hr Hsel st n. pose proof (reachable_ledger _ _ Hr) as Hok.
  pose proof (select_lease_spec _ _ _ _ _ _ _ _ _ Hsel) as [Hj Hm].
  destruct (reachable_row _ _ _ _ Hr Hj) as (_ & Hrow & _). split.
  - destruct (finish_runs id w tok is_failed err retryable corr cs details org ws d clk ids j Hok
      Hrow Hsel) as (d' & E & Hf).
    exists d'. split_and!; [done..|]. eexists. rewrite (fn_row _ _ _ _ _ _ _ _ Hf), lookup_insert_eq.
    split_and!; [done..|]. fold st. intros ->.
    apply lease_matches_owner in Hm. destruct (ok_holder _ Hrow Hm) as [_ Hpos].
    destruct (retry_delay_range n) as [Hd Heq]; [unfold n; lia|].
    rewrite <- Heq. by split.
  - unfold st, finish_state. destruct (j_cancel_requested_at j); [done|]. cbn.
    by destruct is_failed.
Qed.

(** The worker of the run fails its first attempt. *)
Lemma finish_spec_witness :
  exists d', with_session (demo_clock 4) (demo_ids 1400)
    (finish 7%N "worker-a" 1 true (Some "timeout") true "corr-0001" completed [] None None)
    demo_leased = (d', inr retry_wait).
Proof.
  assert (Hs : from_option (fun j => is_null (j_cancel_requested_at j)
      && (j_attempt_count j <? j_max_attempts j)) false
      (select_lease 7%N "worker-a" 1 None None true (demo_clock 4 O) demo_leased) = true)
    by (vm_compute; reflexivity).
  destruct (select_lease 7%N "worker-a" 1 None None true (demo_clock 4 O) demo_leased) as [j|] eqn:E;
    [|discriminate Hs].
  destruct (finish_spec demo_cfg demo_leased (demo_clock 4) (demo_ids 1400) 7%N "worker-a" 1 true
    (Some "timeout") true "corr-0001" completed [] None None j demo_leased_reachable E)
    as [(d' & Hrun & _) Hst].
  exists d'. rewrite Hrun, Hst. apply andb_true_iff in Hs as [Hc Hn]. cbn [from_option] in *.
  by rewrite Hc, Hn.
Defined.
