(* ===== verification/AiResults.v ===== *)
(** * Results: stored once, answered again and again

    The contract of [complete_job] ([src/app/api/internal/ai_jobs.py]) with a
    worker that resends its result. *)

From S2P Require Import Prelude PyText PyTime Sha256 Txn AiContracts AiTables AiJobs AiOrchestration AiApi AiProvider AiWorker AiLifecycle AiRefinement AiSystem AiLedger AiDemo AiClaim AiSafety AiLeases.
Local Open Scope string_scope.
Local Open Scope Z_scope.

(** ** A job that stored a result is settled *)

Definition settled (j : job) : Prop := has_lease j = false /\ j_state j ∉ [queued; retry_wait].

Lemma slice_step_settled id a b j :
  slice_step id a b -> slice_ok id a -> sl_job a = Some j -> settled j ->
  exists j', sl_job b = Some j' /\ settled j'.
Proof.
  destruct 1 as
    [j0 ap dl Hf Hid|j0 ap dl t profiles org ws w secs Hc|j0 ap dl w tok org ws t secs Hm
    |j0 ap dl w tok org ws t n Hm|j0 ap ap' dl w tok org ws t fl rt cs dly err dd Hm Hc
    |j0 ap dl w tok org ws t Hm Hc|j0 a dl dl' aid org ws t _ _ _ _ Ha _ Hr
    |j0 ap dl t org ws Hc|j0 ap dl t org ws Hc|j0 ap dl t org ws dd Hc|j0 ap dl t org ws Hc
    |j0 ap dl t Hc|j0 ap dl t Hc|oj a dl t actor reason verdict Ha];
    intros Hok Hj [Hl Hs]; cbn in Hj; simplify_eq; cbn.
  - apply claimable_holds in Hc as (Hst & _). exfalso. by_states.
  - apply lease_matches_owner in Hm. congruence.
  - apply lease_matches_owner in Hm. congruence.
  - apply lease_matches_owner in Hm. congruence.
  - apply lease_matches_owner in Hm. congruence.
  - exfalso. destruct Hok as (_ & _ & [_ Hap] & _). cbn in Hap. rewrite Ha in Hap.
    unfold retryable_dead_letter in Hr. bool_to_prop. by_states.
  - exfalso. apply expired_cancel_holds in Hc as (_ & e & He & _). destruct Hok as (_ & Hrow & _).
    rewrite (ok_lease _ Hrow), He in Hl. done.
  - exfalso. unfold expired_retryable in Hc. bool_to_prop.
    apply expired_lease_holds in H as (_ & (e & He & _) & _). destruct Hok as (_ & Hrow & _).
    rewrite (ok_lease _ Hrow), He in Hl. done.
  - exfalso. unfold expired_exhausted in Hc. bool_to_prop.
    apply expired_lease_holds in H as (_ & (e & He & _) & _). destruct Hok as (_ & Hrow & _).
    rewrite (ok_lease _ Hrow), He in Hl. done.
  - eexists. split; [done|]. split; [done|]. cbn. by_compute.
  - eexists. split; [done|]. split; [done|]. cbn. case_match; by_compute.
  - eexists. split; [done|]. split; [done|]. cbn. case_match; [by_compute|done].
  - eexists. split; [done|]. split; [done|]. cbn. destruct verdict; by_compute.
Qed.

Lemma slice_steps_settled id a b j :
  slice_steps id a b -> slice_ok id a -> sl_job a = Some j -> settled j ->
  exists j', sl_job b = Some j' /\ settled j'.
Proof.
  intros Hs. revert j. induction Hs as [a|a b c Hab Hbc IH]; intros j Hok Hj Hset; [eauto|].
  destruct (slice_step_settled _ _ _ _ Hab Hok Hj Hset) as (j1 & Hj1 & H1).
  eapply IH; eauto using slice_step_ok.
Qed.

(** ** The invariant: a result belongs to a settled job *)

Record results_ok (d : db) : Prop := ResultsOk {
  ro_keyed : keyed d;
  ro_slices : forall id, slice_ok id (slice_of d id);
  ro_settled : forall id r, results d !! id = Some r ->
                 exists j, jobs d !! id = Some j /\ settled j;
}.

Lemma results_ok_advance d d' :
  advances d d' -> results d' = results d -> results_ok d -> results_ok d'.
Proof.
  intros Ha Hr [Hk Hs Hset]. split.
  - by eapply advances_keyed.
  - intros id. eapply slice_steps_ok; [apply Ha|apply Hs].
  - intros id r Hid. rewrite Hr in Hid. destruct (Hset id r Hid) as (j & Hj & Hj').
    exact (slice_steps_settled _ _ _ _ (Ha id) (Hs id) Hj Hj').
Qed.

(** Programs that never write the results. *)
Definition reads_results {A} (m : M db A) : Prop :=
  forall R, keeps (fun d => results d = R) m.

Lemma reads_results_preserves {A} (m : M db A) :
  sound m -> reads_results m -> preserves results_ok m.
Proof.
  intros Hs Hr s Hcl Hok.
  pose proof (sound_elim m s Hs Hcl (ro_keyed _ Hok)) as [Ha Hret]. split; [|exact Hret].
  eapply results_ok_advance; [exact Ha| |exact Hok].
  apply (Hr (results (committed s))). split; [done|]. by rewrite Hcl.
Qed.

Ltac results_statement :=
  first
    [ let Hd := fresh in intros ? Hd; exact Hd
    | let Hd := fresh in let Hs := fresh in
      intros ? ? Hd Hs; unfold insert_job, upsert_dead_letter, insert_lease_dead_letter in Hs;
      repeat case_match; try discriminate Hs;
      repeat (apply bind_Some in Hs as (? & _ & Hs)); injection Hs as <-; exact Hd ].

Definition writes_results (r : request) : bool :=
  match r with RqComplete _ _ _ _ _ | RqOpenAiDeliver _ _ _ _ => true | _ => false end.

Lemma handle_reads_results `{Pydantic} cfg r :
  writes_results r = false -> reads_results (handle cfg r).
Proof.
  destruct r; intros E R; try discriminate E;
    unfold handle, ignore, worker_claim, validate_worker_registration, _maintain_lease, claim_job,
    job_heartbeat, job_chunk, fail_job, release_job, _finish, get_job, get_worker_job, cancel_job, worker_cancel, dead_letters_page,
    list_dead_letters, retry_dead_letter_job, retry_dead_letter, cancellation_check, recover,
    expire_deadlines, recover_expired, recover_cancelled, claim, admission, append_chunk, heartbeat,
    finish, assert_lease, register_worker,
    worker_heartbeat_api, console_create_conversation, create_conversation, create_message,
    create_message_job, lift_exn, console_cancel, require_ai_submissions_available,
    submit_command, submit, quota_gates, get_command, get_result, result, get, cancel_command,
    cancel, _decision, decide_command, _event, permission_409, lookup_404, same_worker, audit;
    keeps_walk; results_statement.
Qed.

(** ** What [complete_job] does *)

Definition with_result (id : uuid) (j : job) (r : option AIResult) (m : gmap uuid result_row) :
    gmap uuid result_row :=
  match r with
  | Some r => insert_if_absent id
      (mkResultRow (j_organization_id j) (j_workspace_id j) r (output_digest r)) m
  | None => m
  end.

Lemma store_result_results j r (Q : session db -> exn + job_state -> Prop) s :
  (forall e s', committed s' = committed s -> Q s' (inl e)) ->
  (forall cs s', committed s' = committed s -> clock s' = clock s ->
     cs ∈ [completed; approval_required] -> jobs (working s') = jobs (working s) ->
     results (working s') = insert_if_absent (rj_id j)
       (mkResultRow (rj_organization_id j) (rj_workspace_id j) r (output_digest r))
       (results (working s)) -> Q s' (inr cs)) ->
  wp (store_result j r) Q s.
Proof.
  intros Herr HQ. unfold store_result. wp_run; try by apply Herr.
  all: repeat match goal with H : _ = Some _ |- _ =>
    apply bind_Some in H as (? & _ & [= <-]) end.
  all: apply HQ; [done|done|by_compute|done|done].
Qed.

Lemma finish_results id w tok corr cs details org ws (Q : session db -> exn + job_state -> Prop) s :
  (forall e s', committed s' = committed s -> Q s' (inl e)) ->
  (forall j s', clean s' ->
     select_lease id w tok org ws true (clock s O) (working s) = Some j ->
     let st := finish_state j false false cs in
     jobs (committed s') = alter (finish_job st (retry_delay (j_attempt_count j)) None (clock s O)) id
                             (jobs (working s)) ->
     results (committed s') = results (working s) -> Q s' (inr st)) ->
  wp (finish id w tok false None false corr cs details org ws) Q s.
Proof.
  intros Herr HQ. unfold finish, assert_lease, audit, upsert_dead_letter. wp_run; try by apply Herr.
  - destruct (dead_letter_checks _ _); simplify_eq.
    eapply HQ; [reflexivity|eassumption|reflexivity..].
  - eapply HQ; [reflexivity|eassumption|reflexivity..].
Qed.

(** A first completion. *)
Record completes (p : WorkerPrincipal) (id : uuid) (w : string) (tok t : Z) (r : option AIResult)
    (j : job) (st : job_state) (d d' : db) : Prop := Completes {
  cp_worker : w = wp_worker_id p;
  cp_lease : select_lease id w tok (Some (wp_tenant_id p)) (Some (wp_workspace_id p)) true t d = Some j;
  cp_state : st ∈ [completed; approval_required; cancelled];
  cp_jobs : jobs d' = alter (finish_job st (retry_delay (j_attempt_count j)) None t) id (jobs d);
  cp_results : results d' = with_result id j r (results d);
}.

Lemma finish_state_success j cs :
  cs ∈ [completed; approval_required] ->
  finish_state j false false cs ∈ [completed; approval_required; cancelled].
Proof. intros Hcs. unfold finish_state. case_match; cbn; by_states. Qed.

Lemma wp_permission_409 {A} (m : M db A) (Q : session db -> exn + A -> Prop) s :
  wp m (fun s' r => match r with
                    | inl (PermissionError msg) => Q s' (inl (HTTPException 409 msg))
                    | _ => Q s' r
                    end) s -> wp (permission_409 m) Q s.
Proof.
  intros Hm. apply wp_try. eapply wp_mono; [|exact Hm]. intros s' [[]|a] HQ; by wp_run.
Qed.

Lemma complete_job_wp p id w tok r (Q : session db -> exn + (job_state * bool) -> Prop) d clk ids :
  keyed d ->
  (forall e s', committed s' = d -> Q s' (inl e)) ->
  (forall st r0 rr s', clean s' -> committed s' = d -> r = Some r0 -> results d !! id = Some rr ->
     rs_output_sha256 rr = output_digest r0 -> Q s' (inr (st, true))) ->
  (forall j st s', clean s' -> completes p id w tok (clk O) r j st d (committed s') ->
     Q s' (inr (st, false))) ->
  wp (complete_job p id w tok r) Q (Session d d clk ids).
Proof.
  intros Hk Herr Hdup Hnew.
  unfold complete_job, same_worker. do 2 wp_step; [|by apply Herr].
  apply bool_decide_eq_true in H as Hwk.
  assert (Htail : forall cs s, committed s = d -> clock s = clk ->
    cs ∈ [completed; approval_required] -> jobs (working s) = jobs d ->
    (forall j, jobs d !! id = Some j -> results (working s) = with_result id j r (results d)) ->
    wp (permission_409 (finish id w tok false None false (wp_correlation_id p) cs []
          (Some (wp_tenant_id p)) (Some (wp_workspace_id p))))
       (fun s' r => match r with inl e => Q s' (inl e) | inr st => wp (mret (st, false)) Q s' end) s).
  { intros cs s Hc Hclk Hcs Hj Hres. apply wp_permission_409, finish_results.
    - intros e s' Hc'. rewrite Hc in Hc'. destruct e; by apply Herr.
    - intros j s' Hcl Hsel st Hjobs Hr. wp_run. apply (Hnew j); [done|].
      rewrite Hclk in *. unfold select_lease in Hsel. rewrite Hj in Hsel.
      pose proof (select_lease_spec _ _ _ _ _ _ _ _ _ Hsel) as [Hjd _].
      split; [done|done|by apply finish_state_success|by rewrite Hjobs, Hj|by rewrite Hr, (Hres j Hjd)]. }
  assert (Hstore : forall r0, r = Some r0 ->
    wp (permission_409 (assert_lease id w tok (Some (wp_tenant_id p)) (Some (wp_workspace_id p)) false))
      (fun s' o => match o with
         | inl e => Q s' (inl e)
         | inr row => wp (store_result (result_job_of_row row) r0) (fun s' o => match o with
             | inl e => Q s' (inl e)
             | inr cs => wp (permission_409 (finish id w tok false None false (wp_correlation_id p) cs []
                               (Some (wp_tenant_id p)) (Some (wp_workspace_id p))) ≫= fun st =>
                             mret (st, false)) Q s'
             end) s'
         end) (Session d d clk ids)).
  { intros r0 ->. apply wp_permission_409. unfold assert_lease. wp_run; [|by apply Herr].
    match goal with H : select_lease _ _ _ _ _ _ _ _ = Some _ |- _ =>
      apply select_lease_spec in H as [Hj _] end.
    apply store_result_results.
    - intros e s' Hc. by apply Herr.
    - intros cs s' Hc Hclk Hcs Hjobs Hres. wp_step. apply (Htail cs); [done..|].
      intros j' Hj'. simplify_eq. cbn in Hres. by rewrite Hres, (Hk _ _ Hj). }
  wp_step. apply wp_permission_409. unfold completed_result_status.
  wp_run; try (by apply Herr); simplify_eq.
  all: try (apply (Htail completed); [done|done|by_compute|done|done]).
  all: try (by apply Hstore).
  (* the same result again *)
  match goal with E : _ = Some (_, Some _) |- _ => apply bind_Some in E as (j0 & _ & Ej) end.
  injection Ej as Est Eres. apply fmap_Some in Eres as (rr & Hrr & ->). unfold hmac_compare in *. bool_to_prop.
  by eapply Hdup.
Qed.

(** The same of a delivery by the OpenAI worker, which checks the lease only
    after it has written the result, in the same transaction. *)
Record delivers (c : claim_view) (w : string) (t : Z) (r : AIResult) (j : job) (st : job_state)
    (d d' : db) : Prop := Delivers {
  dv_lease : select_lease (cl_id c) w (cl_fencing_token c) None None true t d = Some j;
  dv_state : st ∈ [completed; approval_required; cancelled];
  dv_jobs : jobs d' = alter (finish_job st (retry_delay (j_attempt_count j)) None t) (cl_id c) (jobs d);
  dv_results : results d' = insert_if_absent (cl_id c)
    (mkResultRow (cl_organization_id c) (cl_workspace_id c) r (output_digest r)) (results d);
}.

Lemma deliver_wp c w corr r (Q : session db -> exn + job_state -> Prop) d clk ids :
  (forall e s', committed s' = d -> Q s' (inl e)) ->
  (forall j st s', clean s' -> delivers c w (clk O) r j st d (committed s') -> Q s' (inr st)) ->
  wp (deliver c w corr r) Q (Session d d clk ids).
Proof.
  intros Herr Hnew. unfold deliver. apply wp_bind, store_result_results; cbn; [done|].
  intros cs [d1 w1 c1 i1] Hc Hclk Hcs Hjobs Hres. cbn in Hc, Hclk, Hjobs, Hres. subst d1 c1.
  apply (finish_results _ _ _ _ _ _ _ _ Q); [done|]. intros j s' Hcl Hsel st Hj Hr. cbn in Hsel, Hj, Hr.
  apply (Hnew j); [done|]. unfold select_lease in Hsel. rewrite Hjobs in Hsel.
  split; [done|by apply finish_state_success|by rewrite Hj, Hjobs|by rewrite Hr, Hres].
Qed.

(** ** The invariant holds *)

Lemma results_ok_finish id j st delay err t d d' :
  advances d d' -> results_ok d -> jobs d !! id = Some j ->
  st ∈ [completed; approval_required; cancelled] ->
  jobs d' = alter (finish_job st delay err t) id (jobs d) ->
  (forall i, i <> id -> results d' !! i = results d !! i) -> results_ok d'.
Proof.
  intros Ha [Hk Hs Hset] Hj Hst Hjobs Hres. split.
  - by eapply advances_keyed.
  - intros i. eapply slice_steps_ok; [apply Ha|apply Hs].
  - intros i rr. destruct (decide (i = id)) as [->|Hne].
    + intros _. rewrite Hjobs, lookup_alter_eq, Hj. eexists. split; [done|]. split; [done|].
      cbn. by_states.
    + rewrite Hres by done. intros Hi. destruct (Hset i rr Hi) as (j' & Hj' & Hset').
      exact (slice_steps_settled _ _ _ _ (Ha i) (Hs i) Hj' Hset').
Qed.

Lemma complete_job_results p id w tok r : preserves results_ok (complete_job p id w tok r).
Proof.
  intros s Hcl Hok.
  pose proof (sound_elim _ s (complete_job_sound p id w tok r) Hcl (ro_keyed _ Hok)) as [Ha Hret].
  split; [|exact Hret]. clear Hret. destruct s as [d v clk ids]. unfold clean in Hcl. cbn in Hcl.
  subst v. cbn in Ha, Hok.
  assert (Hw : wp (complete_job p id w tok r) (fun s' _ => results (committed s') = results d
     \/ exists j st, completes p id w tok (clk O) r j st d (committed s')) (Session d d clk ids)).
  { apply complete_job_wp; [apply Hok|intros e s' ->; by left|intros st r0 rr s' _ ->; by left|].
    intros j st s' _ Hcp. right. eauto. }
  destruct Hw as [Hr|(j & st & [_ Hsel Hst Hjobs Hres])]; [by eapply results_ok_advance|].
  apply select_lease_spec in Hsel as [Hj _]. eapply results_ok_finish; [done..|].
  intros i Hne. rewrite Hres. unfold with_result, insert_if_absent. destruct r; [|done].
  case_match; [done|]. by rewrite lookup_insert_ne.
Qed.

Lemma deliver_results c w corr r : preserves results_ok (deliver c w corr r).
Proof.
  intros s Hcl Hok.
  pose proof (sound_elim _ s (deliver_sound c w corr r) Hcl (ro_keyed _ Hok)) as [Ha Hret].
  split; [|exact Hret]. clear Hret. destruct s as [d v clk ids]. unfold clean in Hcl. cbn in Hcl.
  subst v. cbn in Ha, Hok.
  assert (Hw : wp (deliver c w corr r) (fun s' _ => committed s' = d
     \/ exists j st, delivers c w (clk O) r j st d (committed s')) (Session d d clk ids)).
  { apply deliver_wp; [intros e s' ->; by left|]. intros j st s' _ Hd. right. eauto. }
  destruct Hw as [Hr|(j & st & [Hsel Hst Hjobs Hres])].
  - eapply results_ok_advance; [done| |done]. by f_equal.
  - apply select_lease_spec in Hsel as [Hj _]. eapply results_ok_finish; [done..|].
    intros i Hne. rewrite Hres. unfold insert_if_absent. case_match; [done|].
    by rewrite lookup_insert_ne.
Qed.

Lemma reachable_results `{Pydantic} cfg d : reachable cfg d -> results_ok d.
Proof.
  intros Hr. unfold reachable in Hr. revert Hr.
  assert (H0 : results_ok empty_db).
  { split; [apply keyed_empty| |].
    - intros id. unfold slice_of. cbn. by rewrite !lookup_empty.
    - intros id r. cbn. by rewrite lookup_empty. }
  revert H0. generalize empty_db. intros d0 H0 Hr.
  induction Hr as [|d1 d2 d3 Hs _ IH]; [done|]. apply IH. clear IH.
  destruct Hs as [clk ids r d1| |].
  - assert (Hp : preserves results_ok (handle cfg r)).
    { destruct (writes_results r) eqn:E.
      - destruct r; try discriminate E;
          (apply preserves_bind; [apply complete_job_results || apply deliver_results|auto with mw]).
      - apply reads_results_preserves; [apply handle_sound|by apply handle_reads_results]. }
    by destruct (Hp (Session d1 d1 clk ids) eq_refl H0).
  - refine (results_ok_advance _ _ _ _ H0); [intros id; apply rtc_refl|done].
  - refine (results_ok_advance _ _ _ _ H0); [intros id; apply rtc_refl|done].
Qed.

(** ** Stored results stay *)

Lemma complete_tables p id w tok r d clk ids :
  keyed d ->
  ((with_session clk ids (complete_job p id w tok r) d).1 = d
   /\ forall st, (with_session clk ids (complete_job p id w tok r) d).2 <> inr (st, false))
  \/ exists j st, completes p id w tok (clk O) r j st d (with_session clk ids (complete_job p id w tok r) d).1
       /\ (with_session clk ids (complete_job p id w tok r) d).2 = inr (st, false).
Proof.
  intros Hk.
  apply (with_session_wp (fun d' o => (d' = d /\ forall st, o <> inr (st, false))
    \/ exists j st, completes p id w tok (clk O) r j st d d'
    /\ o = inr (st, false))).
  apply complete_job_wp; [done|by left|intros st r0 rr s' _ ->; by left|]. intros j st s' _ Hcp. right. eauto.
Qed.

Lemma insert_if_absent_keeps {A} k (v : A) (m : gmap uuid A) i x :
  m !! i = Some x -> insert_if_absent k v m !! i = Some x.
Proof.
  intros Hi. unfold insert_if_absent. case_match; [done|].
  rewrite lookup_insert_ne; [done|]. intros ->. congruence.
Qed.

Lemma with_result_keeps id j r m i rr : m !! i = Some rr -> with_result id j r m !! i = Some rr.
Proof. destruct r as [r|]; [|done]. apply insert_if_absent_keeps. Qed.

Lemma step_keeps_result `{Pydantic} cfg d d' id rr :
  step cfg d d' -> keyed d -> results d !! id = Some rr -> results d' !! id = Some rr.
Proof.
  intros [clk ids r d0| |] Hk Hr; [|done..]. unfold serve.
  destruct (writes_results r) eqn:E.
  - destruct r; try discriminate E; cbn [handle]; rewrite ignore_tables.
    + match goal with |- context [complete_job ?p ?i ?w ?tok ?r] =>
        destruct (complete_tables p i w tok r d0 clk ids Hk) as [[-> _]|(j & st & [_ _ _ _ ->] & _)] end;
        [done|]. by apply with_result_keeps.
    + apply (with_session_wp (fun d' _ => results d' !! id = Some rr)), deliver_wp;
        [by intros e s' ->|]. intros j st s' _ [_ _ _ ->]. by apply insert_if_absent_keeps.
  - assert (Hres : results (with_session clk ids (handle cfg r) d0).1 = results d0).
    { apply (keeps_with_session (fun d => results d = results d0)); [|done].
      by apply handle_reads_results. }
    by rewrite Hres.
Qed.

Lemma steps_keep_result `{Pydantic} cfg d d' id rr :
  rtc (step cfg) d d' -> keyed d -> results d !! id = Some rr -> results d' !! id = Some rr.
Proof.
  induction 1 as [|d1 d2 d3 Hs _ IH]; intros Hk Hr; [done|].
  apply IH; [|by eapply step_keeps_result]. eapply advances_keyed; [by eapply step_advances|done].
Qed.

(** ** Theorems *)

(** A result can be sent again for ever: once [complete_job] accepted a
    result and the job ended completed, the same tenant's worker that sends the
    result again at any later time is answered [completed] as a duplicate, and
    one that sends a different output, or none, is refused; neither changes
    anything. *)
Theorem completion_idempotent_forever `{Pydantic} cfg d clk ids p id w tok r d1 d2 :
  reachable cfg d ->
  with_session clk ids (complete_job p id w tok (Some r)) d = (d1, inr (completed, false)) ->
  rtc (step cfg) d1 d2 ->
  forall clk' ids' tok' r',
    with_session clk' ids' (complete_job p id w tok' r') d2
    = (d2, if bool_decide (Some (output_digest r) = output_digest <$> r')
           then inr (completed, true)
           else inl (HTTPException 409 "duplicate_result_rejected")).
Proof.
  intros Hr E Hs clk' ids' tok' r'.
  pose proof (step_request cfg clk ids (RqComplete p id w tok (Some r)) d) as Hstep.
  unfold serve, handle in Hstep. rewrite ignore_tables, E in Hstep. cbn in Hstep.
  assert (Hr1 : reachable cfg d1) by (eapply later_reachable; [done|by apply rtc_once]).
  destruct (complete_tables p id w tok (Some r) d clk ids (reachable_keyed _ _ Hr)) as [[_ Hno]|Hcp];
    [by destruct (Hno completed); rewrite E|].
  rewrite E in Hcp. destruct Hcp as (j & st & [Hwk Hsel _ Hjobs Hres] & [= <-]). cbn in Hjobs, Hres.
  apply select_lease_spec in Hsel as [Hj Hm].
  assert (Hnone : results d !! id = None).
  { apply eq_None_not_Some. intros [rr Hrr].
    destruct (ro_settled _ (reachable_results _ _ Hr) _ _ Hrr) as (j' & Hj' & Hl & _). simplify_eq.
    apply lease_matches_owner in Hm. congruence. }
  unfold insert_if_absent in Hres. rewrite Hnone in Hres.
  assert (Hrow1 : jobs d1 !! id = Some (finish_job completed (retry_delay (j_attempt_count j)) None
      (clk O) j)) by (by rewrite Hjobs, lookup_alter_eq, Hj).
  destruct (later_row _ _ _ _ _ Hr1 Hs Hrow1) as (j2 & Hj2 & Hid & Hedge).
  apply final_edges in Hedge; [|cbn; by_compute]. cbn in Hedge.
  pose proof (steps_keep_result _ _ _ id _ Hs (reachable_keyed _ _ Hr1)
    ltac:(rewrite Hres; apply lookup_insert_eq)) as Hres2.
  assert (Hown : owned_job id (wp_tenant_id p) (wp_workspace_id p) d2 = Some j2).
  { apply lease_matches_holds in Hm as (_ & _ & _ & _ & Hsc).
    unfold owned_job. rewrite Hj2. cbn. destruct Hid as [_ Ho Hw' _ _ _ _ _]. cbn in Ho, Hw'.
    unfold in_scope in *. cbn in *. by rewrite Ho, Hw', Hsc. }
  unfold with_session, complete_job, same_worker, guard_or, permission_409, try_except,
    completed_result_status, mbind, M_bind, query. rewrite bool_decide_eq_true_2 by done. cbn.
  rewrite Hown. cbn. rewrite Hres2, Hedge. cbn. destruct r' as [r'|]; cbn; [|done].
  change (negb (state_in [completed; approval_required] completed)) with false.
  unfold hmac_compare. destruct (decide (output_digest r = output_digest r')) as [->|Hne].
  - rewrite (bool_decide_eq_true_2 (Some _ = Some _)) by done.
    by rewrite (bool_decide_eq_true_2 (output_digest r' = output_digest r')) by done.
  - rewrite (bool_decide_eq_false_2 (Some _ = Some _)) by congruence.
    by rewrite (bool_decide_eq_false_2 (output_digest r = output_digest r')) by done.
Qed.

Lemma completion_idempotent_forever_witness :
  exists d1, with_session (demo_clock 4) (demo_ids 1400)
      (complete_job demo_principal 7%N "worker-a" 1 (Some (demo_result 7%N))) demo_chunked
      = (d1, inr (completed, false))
    /\ with_session (demo_clock 900) (demo_ids 9000)
         (complete_job demo_principal 7%N "worker-a" 1 (Some (demo_result 7%N))) d1
       = (d1, inr (completed, true)).
Proof.
  destruct (responds_inr (fun x => match x with (completed, false) => true | _ => false end)
    (with_session (demo_clock 4) (demo_ids 1400)
      (complete_job demo_principal 7%N "worker-a" 1 (Some (demo_result 7%N))) demo_chunked)
    ltac:(vm_compute; reflexivity)) as (d1 & [[] []] & E & Ho); try discriminate Ho. exists d1. split; [exact E|].
  rewrite (completion_idempotent_forever demo_cfg demo_chunked (demo_clock 4) (demo_ids 1400)
    demo_principal 7%N "worker-a" 1 (demo_result 7%N) d1 d1 demo_chunked_reachable E (rtc_refl _ _)).
  by rewrite bool_decide_eq_true_2.
Defined.
