(* ===== verification/AiWorkerSafety.v ===== *)
(** * The OpenAI worker as a client of the platform

    A run of the worker is a sequence of the platform's transactions, so every
    theorem about reachable tables holds while it runs; what it sends to the
    provider has passed its gates; and what becomes of a job whose lease is
    lost on the way. *)

From S2P Require Import Prelude PyText PyTime Sha256 Txn AiContracts AiTables AiJobs AiOrchestration AiApi AiProvider AiWorker AiLifecycle AiRefinement AiSystem AiLedger AiDemo AiClaim AiSafety AiLeases AiResults.
Local Open Scope string_scope.
Local Open Scope Z_scope.

(** ** Runs of the worker are runs of the platform *)

Section follows.
Context `{Pydantic} `{WorkerModels} (cfg : settings) (o : openai_settings).

(** What the other sessions do is what the platform's requests do. *)
Definition waits_follow (l : list meanwhile) : Prop :=
forall f, OtherSessions f ∈ l -> forall d, rtc (step cfg) d (f d).

Record env_follows (env : surroundings) : Prop := EnvFollows {
ef_events : forall request w e, (w, e) ∈ sg_events (sr_provider env request) -> waits_follow w;
ef_end : forall request, waits_follow (sg_end (sr_provider env request)).1;
ef_closing : waits_follow (sr_closing env);
}.

(** The tables a run starting at [d0] may have reached. *)
Variable d0 : db.
Definition onward (d : db) : Prop := keyed d /\ rtc (step cfg) d0 d.

Lemma onward_steps d d' : onward d -> rtc (step cfg) d d' -> onward d'.
Proof.
intros [Hk Hr] Hs. split; [|by etrans]. eapply advances_keyed; [|done]. by apply (steps_advance cfg).
Qed.

(** A transaction that is a request. *)
Lemma transaction_onward {A} (m : M db A) r :
handle cfg r = ignore m -> sound m -> preserves onward m.
Proof.
intros Hr Hm [d v clk ids] Hc Ho. unfold clean in Hc. cbn in Hc, Ho. subst v.
pose proof (sound_elim m (Session d d clk ids) Hm eq_refl (proj1 Ho)) as [_ Hret]. split; [|exact Hret].
apply (onward_steps d); [done|]. apply rtc_once.
pose proof (step_request cfg clk ids r d) as Hs. unfold serve in Hs. rewrite Hr, ignore_tables in Hs.
exact Hs.
Qed.

Lemma worker_claim_onward : preserves onward (worker_claim cfg o).
Proof. apply (transaction_onward _ (RqOpenAiClaim o)); [done|apply worker_claim_sound]. Qed.
Lemma append_chunk_onward id w tok seq content :
preserves onward (append_chunk id w tok seq content (ai_job_max_output_bytes cfg) None None).
Proof. apply (transaction_onward _ (RqOpenAiChunk id w tok seq content)); [done|apply append_chunk_sound]. Qed.
Lemma finish_onward id w tok fl err rt corr details :
preserves onward (finish id w tok fl err rt corr completed details None None).
Proof. apply (transaction_onward _ (RqOpenAiFinish id w tok fl err rt corr details)); [done|apply finish_sound]. Qed.
Lemma deliver_onward c w corr r : preserves onward (deliver c w corr r).
Proof. apply (transaction_onward _ (RqOpenAiDeliver c w corr r)); [done|apply deliver_sound]. Qed.
Lemma recover_onward org ws : preserves onward (recover_expired (Some org) (Some ws)).
Proof. apply (transaction_onward _ (RqOpenAiRecover org ws)); [done|apply recover_expired_sound]. Qed.

(** ** Programs that leave no uncommitted change, however they end *)

Definition tidy {A} (m : M db A) : Prop := forall s, clean s -> clean (m s).1.
Definition goes_on {A} (m : M db A) : Prop := preserves onward m /\ tidy m.

Lemma tidy_bind {A B} (m : M db A) (k : A -> M db B) : tidy m -> (forall a, tidy (k a)) -> tidy (m ≫= k).
Proof.
intros Hm Hk s Hs. unfold mbind, M_bind. specialize (Hm s Hs).
destruct (m s) as [s' [e|a]]; [done|]. by apply Hk.
Qed.

Lemma goes_on_bind {A B} (m : M db A) (k : A -> M db B) :
goes_on m -> (forall a, goes_on (k a)) -> goes_on (m ≫= k).
Proof.
intros [H1 H2] Hk. split; [apply preserves_bind|apply tidy_bind]; auto; intros a; apply Hk.
Qed.

Lemma goes_on_ret {A} (a : A) : goes_on (mret a).
Proof. split; [apply preserves_ret|by intros s]. Qed.
Lemma goes_on_guard b e : goes_on (guard_or b e).
Proof. split; [apply preserves_guard_or|by destruct b; intros s]. Qed.
Lemma goes_on_some_or {A} (x : option A) e : goes_on (some_or x e).
Proof. split; [apply preserves_some_or|by destruct x; intros s]. Qed.
Lemma goes_on_query {A} (f : db -> A) : goes_on (query f).
Proof. split; [apply preserves_query|by intros s]. Qed.
Lemma goes_on_now : goes_on now.
Proof. split; [apply preserves_now|by intros s]. Qed.
Lemma goes_on_raise {A} e : goes_on (A:=A) (raise e).
Proof. split; [apply preserves_raise|by intros s]. Qed.
Lemma goes_on_lift {A} (x : exn + A) : goes_on (lift_exn x).
Proof. destruct x; [apply goes_on_raise|apply goes_on_ret]. Qed.

Lemma goes_on_catch {A} (m : M db A) : goes_on m -> goes_on (catch m).
Proof.
intros [H1 H2]. split; intros s Hc.
- intros HI. specialize (H1 s Hc HI). specialize (H2 s Hc). unfold wp, catch, try_except, mbind, M_bind in *.
  destruct (m s) as [s' [e|a]]; cbn in *; (split; [apply H1|by intros ? _]).
- specialize (H2 s Hc). unfold catch, try_except, mbind, M_bind. by destruct (m s) as [s' [e|a]].
Qed.

Lemma append_chunk_goes_on id w tok seq content :
goes_on (append_chunk id w tok seq content (ai_job_max_output_bytes cfg) None None).
Proof.
split; [apply append_chunk_onward|]. intros s Hc.
change (wp (append_chunk id w tok seq content (ai_job_max_output_bytes cfg) None None)
          (fun s' _ => clean s') s).
unfold append_chunk, assert_lease. by wp_run.
Qed.

Lemma finish_goes_on id w tok corr details :
goes_on (finish id w tok false None false corr completed details None None).
Proof.
split; [apply finish_onward|]. intros s Hc.
change (wp (finish id w tok false None false corr completed details None None) (fun s' _ => clean s') s).
unfold finish, assert_lease, audit. wp_run; try done. exfalso. bool_to_prop.
unfold finish_state in *. by destruct (j_cancel_requested_at _).
Qed.

#[local] Hint Resolve goes_on_ret goes_on_guard goes_on_some_or goes_on_query goes_on_now goes_on_raise
goes_on_lift goes_on_catch append_chunk_goes_on finish_goes_on : mw.
Ltac goes_walk :=
repeat match goal with
| |- goes_on (mbind _ _) => apply goes_on_bind; [|intros ?]
| |- goes_on (match ?x with _ => _ end) => destruct x eqn:?
| |- goes_on _ => solve [auto with mw]
| |- goes_on (let _ := _ in _) => cbv zeta
end.

Lemma interfere_goes_on f : (forall d, rtc (step cfg) d (f d)) -> goes_on (interfere f).
Proof.
intros Hf. split; intros s Hc; [|done]. intros HI. split; [|by intros ? _].
by eapply onward_steps.
Qed.

Lemma renewal_goes_on clk id tok : goes_on (other_session clk (_maintain_lease cfg o id tok)).
Proof.
split; intros s Hc; [|done]. intros HI. split; [|by intros ? _]. cbn.
apply (onward_steps (committed s)); [done|]. apply rtc_once.
pose proof (step_request cfg clk (supply s) (RqOpenAiRenew o id tok) (committed s)) as Hs.
unfold serve, handle in Hs. by rewrite ignore_tables in Hs.
Qed.

Lemma while_waiting_goes_on id tok l lost : waits_follow l -> goes_on (while_waiting cfg o id tok l lost).
Proof.
revert lost. induction l as [|x l IH]; intros lost Hl; [apply goes_on_ret|].
assert (Hl' : waits_follow l) by (intros f Hf; apply Hl; by right).
destruct x as [f|clk]; cbn.
- apply goes_on_bind; [apply interfere_goes_on, Hl; by left|]. intros _. by apply IH.
- destruct lost; [by apply IH|]. apply goes_on_bind; [apply renewal_goes_on|]. intros r. by apply IH.
Qed.

Lemma on_event_goes_on c corr lost p e : goes_on (on_event cfg o c corr lost p e).
Proof. unfold on_event, _cancel_requested. goes_walk. Qed.

Lemma consume_goes_on c corr events last lost p :
(forall w e, (w, e) ∈ events -> waits_follow w) -> waits_follow last.1 ->
goes_on (consume cfg o c corr events last lost p).
Proof.
revert lost p. induction events as [|[w e] events IH]; intros lost p He Hl; cbn.
- apply goes_on_bind; [by apply while_waiting_goes_on|]. auto with mw.
- apply goes_on_bind; [apply while_waiting_goes_on, (He w e); by left|]. intros lost'.
  apply goes_on_bind; [apply goes_on_catch, on_event_goes_on|]. intros [x|[[st|] p']]; [auto with mw..|].
  apply IH; [|done]. intros w' e' Hin. apply (He w' e'). by right.
Qed.

Lemma prepare_goes_on c command : goes_on (prepare o c command).
Proof. unfold prepare, _usage_in_last_day. goes_walk. Qed.

(** ** A whole cycle *)

Lemma wp_goes_on {A B} (m : M db A) (k : A -> M db B) Q s :
goes_on m -> clean s -> onward (committed s) ->
(forall s' e, clean s' -> onward (committed s') -> Q s' (inl e)) ->
(forall s' a, clean s' -> onward (committed s') -> wp (k a) Q s') -> wp (m ≫= k) Q s.
Proof.
intros [H1 H2] Hc Ho He Hk. apply wp_bind. specialize (H1 s Hc Ho). specialize (H2 s Hc).
unfold wp in *. destruct (m s) as [s' [e|a]]; cbn in *; [apply He|apply Hk]; tauto.
Qed.

Definition lease_gone (c : claim_view) (s : session db) : Prop :=
select_lease (cl_id c) (openai_worker_id o) (cl_fencing_token c) None None true (clock s O) (working s)
= None.

(** What an exception of [process_job] leaves to the [except] clauses. *)
Definition left_over (c : claim_view) (s : session db) (e : exn) : Prop :=
clean s \/ (exists k, e = IntegrityError k) \/ ((exists msg, e = PermissionError msg) /\ lease_gone c s).

Lemma deliver_left_over c corr r s :
wp (deliver c (openai_worker_id o) corr r)
  (fun s' x => forall e, x = inl e -> left_over c s' e) s.
Proof.
unfold deliver, store_result, finish, assert_lease, audit.
wp_run; intros e' [= <-]; right; solve [left; eauto|right; split; [eauto|done]].
Qed.

Definition cycle_safe (c : claim_view) (s : session db) (x : exn + job_state) : Prop :=
onward (committed s) /\ match x with inl e => left_over c s e | inr _ => clean s end.

Lemma process_job_safe env c s :
env_follows env -> clean s -> onward (committed s) ->
wp (process_job cfg o env c) (cycle_safe c) s.
Proof.
intros [He Hl Hcl] Hc Ho.
assert (Herr : forall s' e, clean s' -> onward (committed s') -> cycle_safe c s' (inl e)).
{ intros s' e Hc' Ho'. split; [done|by left]. }
unfold process_job.
apply wp_goes_on; [auto with mw|done..|]. clear s Hc Ho. intros s command Hc Ho.
apply wp_goes_on; [apply prepare_goes_on|done..|]. clear s Hc Ho. intros s request Hc Ho. cbv zeta.
apply wp_goes_on; [apply consume_goes_on; eauto|done..|]. clear s Hc Ho. intros s [[p lost] r] Hc Ho.
cbn [fst snd].
apply wp_goes_on; [by apply while_waiting_goes_on|done..|]. clear s Hc Ho. intros s lost' Hc Ho.
apply wp_goes_on; [auto with mw|done..|]. clear s Hc Ho. intros s _ Hc Ho.
destruct r as [e|[st|]]; [by apply wp_raise, Herr|by apply wp_ret|].
do 4 (apply wp_goes_on; [auto with mw|done..|]; clear s Hc Ho; intros s ? Hc Ho).
destruct (deliver_onward c (openai_worker_id o) (correlation_id command) a2 s Hc Ho) as [Hd1 Hd2].
split; [exact Hd1|].
pose proof (deliver_left_over c (correlation_id command) a2 s) as Hd3. unfold wp in Hd3.
destruct (deliver _ _ _ _ s) as [s' [e|st]]; cbn in *; [by apply Hd3|by eapply Hd2].
Qed.

(** Failing a job whose lease is gone. *)
Lemma fail_with_gone c code retryable details s :
lease_gone c s ->
fail_with o c code retryable details s = (s, inl (PermissionError "stale_or_invalid_lease")).
Proof.
intros Hg. unfold fail_with, finish, assert_lease, mbind, M_bind, now, query, some_or. cbn.
by rewrite Hg.
Qed.

Lemma fail_with_onward c code retryable details : preserves onward (fail_with o c code retryable details).
Proof. apply finish_onward. Qed.

Lemma rollback_recover c s :
onward (committed s) ->
wp (rollback ;; recover_expired (Some (cl_organization_id c)) (Some (cl_workspace_id c)) ;;
    mret "lease_lost") (fun s' _ => onward (committed s')) s.
Proof.
intros Ho. apply wp_bind. unfold wp at 1. cbn. apply wp_bind.
eapply wp_mono; [|by apply recover_onward]. by intros s' [e|a] [? _].
Qed.

Lemma on_exception_onward c e s :
onward (committed s) -> left_over c s e ->
wp (on_exception o c e) (fun s' _ => onward (committed s')) s.
Proof.
intros Ho Hl. destruct Hl as [Hc|[[k ->]|[[msg ->] Hg]]].
- unfold on_exception.
  destruct e; try (by apply wp_raise); try (apply wp_try); apply wp_bind;
    (eapply wp_mono; [|by apply fail_with_onward]); intros s' [e'|st] [Ho' _]; try done;
    destruct e'; try (by apply wp_raise); by apply rollback_recover.
- by apply wp_raise.
- unfold on_exception. apply wp_try, wp_bind. unfold wp at 1. rewrite fail_with_gone by done. cbn.
  by apply rollback_recover.
Qed.

Lemma cycle_onward env clk ids d :
env_follows env -> onward d -> onward (with_session clk ids (cycle cfg o env) d).1.
Proof.
intros He Ho.
change (wp (cycle cfg o env) (fun s' _ => onward (committed s')) (Session d d clk ids)).
unfold cycle. apply wp_goes_on; [auto with mw|done..|]. intros s _ Hc Ho1.
apply wp_bind. eapply wp_mono; [|by apply worker_claim_onward].
intros s' [e|[c|]] [Ho' Hcl]; [done| |done]. apply wp_try, wp_bind.
eapply wp_mono; [|apply process_job_safe; [done|by eapply Hcl|done]].
intros s'' [e|st] [Ho'' Hx]; [by apply on_exception_onward|done].
Qed.

Lemma turns_onward l d :
(forall tn, tn ∈ l -> env_follows (tn_env tn) /\ forall d, rtc (step cfg) d (tn_others tn d)) ->
onward d -> onward (turns cfg o l d).1.
Proof.
revert d. induction l as [|tn l IH]; intros d Hl Ho; [done|]. cbn.
destruct (Hl tn) as [He Hot]; [by left|].
assert (Ho' : onward (with_session (tn_clock tn) (tn_supply tn) (cycle cfg o (tn_env tn)) (tn_others tn d)).1)
  by (apply cycle_onward; [done|by eapply onward_steps]).
case_match; [|done]. apply IH; [|done]. intros tn' Hin. apply Hl. by right.
Qed.
End follows.

(** C29. The worker is a client of the platform like any other: whatever the
    provider streams, however the waits interleave with other sessions and
    with lease renewals, and however the cycles end, the tables that a run of
    the worker leaves are reached by the platform's own requests.  So every
    property of reachable tables holds while the worker runs: fencing, the
    state diagram, the attempt ledger, the output limit. *)
Theorem worker_follows_platform `{Pydantic} `{WorkerModels} cfg o l d :
  reachable cfg d ->
  (forall tn, tn ∈ l -> env_follows cfg (tn_env tn) /\ forall d, rtc (step cfg) d (tn_others tn d)) ->
  rtc (step cfg) d (run_forever cfg o l d).1.
Proof.
  intros Hr Hl. unfold run_forever. case_match; [done|].
  apply (turns_onward cfg o d l d Hl). split; [by eapply reachable_keyed|done].
Qed.

(** A worker of the platform's own server, registered for one job at a time. *)
Definition demo_openai : openai_settings :=
  mkOpenAi true "openai-responses-provider" "codestra-openai-01" 1 "gpt-5.6-terra" "gpt-5.6-sol"
    "low" "medium" 100000 250000 300000 (repeat 97%N 32).
Definition demo_openai_principal : WorkerPrincipal :=
  mkPrincipal "openai-responses-provider" "codestra-openai-01" 1%N 2%N "corr-0001".

#[export] Instance demo_models : WorkerModels := {|
  model_validate := fun payload =>
    match payload with
    | Some _ => inr (demo_command 7%N "key-0000000000000007" false)
    | None => inl (ValueError "validation_error")
    end;
  result_dump_json := fun r => json_dumps json_default (JObj (output r));
|}.

Definition demo_openai_registered : db :=
  demo_serve 0 1000 (RqRegister demo_openai_principal "codestra-openai-01" (JObj []) 1) empty_db.
Definition demo_openai_enabled : db :=
  demo_openai_registered
    <| registrations ::= alter (fun r => r <| rg_enabled := true |>) "codestra-openai-01" |>.
Definition demo_ready : db :=
  demo_serve 1 1100 (RqSubmit demo_user (demo_command 7%N "key-0000000000000007" false) 0)
    demo_openai_enabled.

Lemma demo_ready_reachable : reachable demo_cfg demo_ready.
Proof.
  apply reachable_serve. eapply rtc_r; [|apply step_enable]. apply reachable_serve, rtc_refl.
Defined.

Definition demo_delta (s : string) : ProviderEvent := mkProviderEvent ev_delta s 0 0.
Definition demo_done : ProviderEvent := mkProviderEvent ev_completed "" 10 20.

(** Two pieces, a renewal of the lease between them, and the end. *)
Definition demo_env : surroundings :=
  mkSurroundings
    (fun _ => mkStreaming
       [([], demo_delta "hi"); ([LeaseRenewal (demo_clock 22)], demo_delta " there"); ([], demo_done)]
       ([], None)) [] (seconds 2) (seconds 3) 1000.

(** The user cancels between the pieces. *)
Definition demo_cancel (d : db) : db := demo_serve 3 1300 (RqCancel demo_user 7%N "corr-0003") d.
Definition demo_cancel_env : surroundings :=
  mkSurroundings
    (fun _ => mkStreaming
       [([], demo_delta "hi"); ([OtherSessions demo_cancel], demo_delta " there"); ([], demo_done)]
       ([], None)) [] (seconds 2) (seconds 3) 1000.

Definition demo_turn (s : Z) (first : N) (env : surroundings) : turn :=
  mkTurn id (demo_clock s) (demo_ids first) env.

Example demo_worker_completes :
  (fun x => (demo_state x.1 7%N, x.2))
    (run_forever demo_cfg demo_openai [demo_turn 2 1200 demo_env] demo_ready)
  = (Some completed, None).
Proof. vm_compute. reflexivity. Qed.

Lemma worker_follows_platform_witness :
  rtc (step demo_cfg) demo_ready
    (run_forever demo_cfg demo_openai [demo_turn 2 1200 demo_cancel_env] demo_ready).1
  /\ demo_state (run_forever demo_cfg demo_openai [demo_turn 2 1200 demo_cancel_env] demo_ready).1 7%N
     = Some cancelled.
Proof.
  split; [|vm_compute; reflexivity].
  apply (worker_follows_platform demo_cfg demo_openai [demo_turn 2 1200 demo_cancel_env] demo_ready
    demo_ready_reachable).
  intros tn Htn. apply list_elem_of_singleton in Htn as ->.
  assert (Hc : forall d, rtc (step demo_cfg) d (demo_cancel d)).
  { intros d. apply rtc_once. apply step_request. }
  split; [|intros d; apply rtc_refl]. split.
  - intros rq w e Hin f Hf. cbn in Hin.
    repeat (apply elem_of_cons in Hin as [[= -> ->]|Hin]; [set_unfold in Hf|]); try done.
    + destruct Hf as [[= ->]|[]]. exact Hc.
    + by apply elem_of_nil in Hin.
  - intros rq f Hf. by apply elem_of_nil in Hf.
  - intros f Hf. by apply elem_of_nil in Hf.
Defined.

(** ** What reaches the provider *)

(** The conditions under which a request is sent. *)
Record guarded (o : openai_settings) (c : claim_view) (command : AICommand) (t : Z) (d : db)
    (request : ProviderRequest) : Prop := Guarded {
  gd_type : command_type command = CHAT \/ command_type command = CODING;
  gd_effort : pr_reasoning_effort request ∈ ["low"; "medium"];
  gd_user : recent_usage (cl_organization_id c) (cl_workspace_id c) t
              (fun j => bool_decide (j_requested_by j = actor_id command)) d
            < openai_daily_user_token_limit o;
  gd_project : forall k, cl_project_key c = Some k -> k <> "" ->
    recent_usage (cl_organization_id c) (cl_workspace_id c) t
      (fun j => null_eq (j_project_key j) k) d < openai_daily_project_token_limit o;
  gd_cost : exists rates, dict_get PRICE_MICRO_USD_PER_TOKEN (pr_model request) = Some rates
    /\ Z.max 1 (byte_len (pr_input_text request) / 3) * rates.1
       + pr_max_output_tokens request * rates.2 <= openai_max_estimated_cost_micro_usd o;
  gd_length : pr_max_output_tokens request <= 8192;
  gd_caller : pr_safety_identifier request = hmac_hex (openai_safety_salt o) (actor_id command);
  gd_keys : found api_key None (pr_input_text request) = false;
  gd_pem : found private_key None (pr_input_text request) = false;
}.

Lemma routing_type o command route :
  _routing o command = inr route -> command_type command = CHAT \/ command_type command = CODING.
Proof. unfold _routing. destruct (command_type command); auto; discriminate. Qed.

Lemma safety_identifier_hmac actor salt i : safety_identifier actor salt = inr i -> i = hmac_hex salt actor.
Proof. unfold safety_identifier. case_match; [done|]. by intros [=]. Qed.

Lemma prepare_guarded o c command s :
  wp (prepare o c command) (fun s' r => s' = s /\
    forall request, r = inr request -> guarded o c command (clock s O) (working s) request) s.
Proof.
  unfold prepare, _usage_in_last_day, lift_exn.
  generalize (json_dumps json_canonical (JObj (input command))). intros text.
  wp_run; (split; [done|]); intros req [= <-]; bool_to_prop.
  split; cbn [pr_model pr_reasoning_effort pr_input_text pr_safety_identifier pr_max_output_tokens].
  - by eapply routing_type.
  - by apply bool_decide_eq_true in H.
  - done.
  - intros k Hk Hne. rewrite Hk in H1. cbn in H1. apply orb_true_iff in H1 as [H1|H1].
    + apply bool_decide_eq_true in H1. unfold py_or in H1. by case_bool_decide.
    + by apply Z.ltb_lt.
  - eauto.
  - lia.
  - by eapply safety_identifier_hmac.
  - apply no_key_left.
  - apply no_private_key_left.
Qed.

(** C31. The provider is called only with guarded requests: a chat or coding
    command, a model that has a price and a reasoning effort of the policy, the
    user (and the project, if the job has one) below the token limit of the
    last day, a projected cost within the limit, a prompt without an API key or
    a private-key header, and the caller named only by a keyed hash.  Two
    providers that answer those requests alike lead to the same run: nothing
    else is ever asked. *)
Theorem provider_called_only_when_guarded `{WorkerModels} cfg o env env' c s :
  (forall command request, model_validate (cl_command_payload c) = inr command ->
     guarded o c command (clock s O) (working s) request ->
     sr_provider env request = sr_provider env' request) ->
  sr_closing env = sr_closing env' -> sr_started_at env = sr_started_at env' ->
  sr_completed_at env = sr_completed_at env' -> sr_elapsed_ms env = sr_elapsed_ms env' ->
  process_job cfg o env c s = process_job cfg o env' c s.
Proof.
  intros Hp Hcl Hs He Hm. unfold process_job, worker_result. rewrite Hcl, Hs, He, Hm.
  destruct (model_validate (cl_command_payload c)) as [e|command] eqn:Ec; [done|].
  pose proof (prepare_guarded o c command s) as [Hst Hg].
  unfold mbind, M_bind, lift_exn. cbn [mret M_ret].
  destruct (prepare o c command s) as [s1 [e|request]]; [done|]. cbn in Hst, Hg. subst s1.
  by rewrite (Hp command request eq_refl (Hg request eq_refl)).
Qed.

(** The demo provider, and one that would answer nothing else. *)
Definition demo_claimed : db * (exn + option claim_view) :=
  with_session (demo_clock 2) (demo_ids 1200) (worker_claim demo_cfg demo_openai) demo_ready.
Definition demo_claim : claim_view :=
  match demo_claimed.2 with
  | inr (Some c) => c
  | _ => mkClaimView 0%N None 0%N 0%N "" None "" None 0 0 None None None None JNull "" JNull
  end.
Definition demo_session : session db :=
  Session demo_claimed.1 demo_claimed.1 (demo_clock 2) (demo_ids 1300).

(** Answers only prompts with an API key or a private key in them. *)
Definition demo_leak_env : surroundings :=
  mkSurroundings
    (fun request =>
       if (found api_key None (pr_input_text request)
           || found private_key None (pr_input_text request))%bool
       then mkStreaming [([], demo_delta "leaked")] ([], None)
       else sr_provider demo_env request)
    (sr_closing demo_env) (sr_started_at demo_env) (sr_completed_at demo_env) (sr_elapsed_ms demo_env).

Lemma provider_called_only_when_guarded_witness :
  process_job demo_cfg demo_openai demo_leak_env demo_claim demo_session
  = process_job demo_cfg demo_openai demo_env demo_claim demo_session.
Proof.
  apply (provider_called_only_when_guarded demo_cfg demo_openai demo_leak_env demo_env demo_claim
    demo_session); [|reflexivity..].
  intros command request _ [_ _ _ _ _ _ _ Hk Hp]. cbn [demo_leak_env sr_provider].
  by rewrite Hk, Hp.
Defined.

Example demo_claim_id : (cl_id demo_claim, cl_fencing_token demo_claim) = (7%N, 1).
Proof. vm_compute. reflexivity. Qed.

(** ** A lost lease *)

Definition provider_failure (e : exn) : bool :=
  match e with AIProviderError _ _ _ _ _ => true | _ => false end.
Definition constraint_violation (e : exn) : bool :=
  match e with IntegrityError _ => true | _ => false end.

Lemma lease_lost_answer `{Pydantic} cfg o c e s :
  reachable cfg (committed s) -> lease_gone o c s ->
  provider_failure e = false -> constraint_violation e = false ->
  (on_exception o c e s).2 = inr "lease_lost".
Proof.
  intros Hr Hg He Hi.
  assert (Hrec : forall s1 : session db, reachable cfg (committed s1) ->
    ((rollback ;; recover_expired (Some (cl_organization_id c)) (Some (cl_workspace_id c)) ;;
      mret "lease_lost") s1).2 = inr "lease_lost").
  { intros s1 Hr1. unfold mbind, M_bind, rollback.
    destruct (recover_runs cfg (committed s1) (fun n => clock s1 (S n)) (supply s1)
      (Some (cl_organization_id c)) (Some (cl_workspace_id c)) Hr1) as (d' & counts & E & _).
    unfold with_session in E.
    destruct (recover_expired _ _ _) as [s2 [e2|x]]; cbn in E; by simplify_eq. }
  destruct e; try discriminate; cbn [on_exception]; unfold try_except, mbind, M_bind at 1;
    rewrite fail_with_gone by done; by apply Hrec.
Qed.

(** Losing the lease stops the worker: when the job has been taken away, by
    the recovery sweep or another claim, a failure of the provider, the lost
    lease itself included, makes the [except] clause call [finish], which raises
    a [PermissionError] that neither [cycle] nor [run_forever] catches; any other
    failure in the same situation is answered ["lease_lost"] and the worker goes
    on. *)
Theorem lost_lease_stops_worker `{Pydantic} cfg o c s :
  reachable cfg (committed s) -> lease_gone o c s ->
  (forall e, provider_failure e = true ->
     on_exception o c e s = (s, inl (PermissionError "stale_or_invalid_lease"))
     /\ survives (on_exception o c e s).2 = false)
  /\ (forall e, provider_failure e = false -> constraint_violation e = false ->
       (on_exception o c e s).2 = inr "lease_lost"
       /\ survives (on_exception o c e s).2 = true).
Proof.
  intros Hr Hg. split.
  - intros e He. assert (E : on_exception o c e s = (s, inl (PermissionError "stale_or_invalid_lease"))).
    { destruct e; try discriminate. cbn [on_exception]. unfold mbind, M_bind.
      by rewrite fail_with_gone. }
    by rewrite E.
  - intros e He Hi. by rewrite (lease_lost_answer cfg o c e s Hr Hg He Hi).
Qed.

(** The provider is silent for a minute and a half, a recovery sweep hands the
    job back, and the next renewal fails. *)
Definition demo_recover (d : db) : db := demo_serve 100 1500 (RqRecover demo_principal) d.
Definition demo_silent_env : surroundings :=
  mkSurroundings
    (fun _ => mkStreaming
       [([OtherSessions demo_recover; LeaseRenewal (demo_clock 101)], demo_delta "hi")] ([], None))
    [] (seconds 2) (seconds 3) 1000.

(** The second cycle, which would complete the job, never comes. *)
Example demo_worker_stops :
  (fun x => (demo_state x.1 7%N, x.2))
    (run_forever demo_cfg demo_openai
       [demo_turn 2 1200 demo_silent_env; demo_turn 110 1600 demo_env] demo_ready)
  = (Some retry_wait, Some (PermissionError "stale_or_invalid_lease")).
Proof. vm_compute. reflexivity. Qed.

Definition demo_recovered : db := demo_recover (demo_serve 2 1200 (RqOpenAiClaim demo_openai) demo_ready).
Definition demo_recovered_session : session db :=
  Session demo_recovered demo_recovered (demo_clock 2) (demo_ids 1600).

Lemma lost_lease_stops_worker_witness :
  survives (on_exception demo_openai demo_claim lease_lost demo_recovered_session).2 = false.
Proof.
  destruct (lost_lease_stops_worker demo_cfg demo_openai demo_claim demo_recovered_session) as [H _].
  - apply reachable_serve, reachable_serve, demo_ready_reachable.
  - vm_compute. reflexivity.
  - by apply H.
Defined.
