(* ===== verification/AiWorkerRun.v ===== *)
(** * A job that the OpenAI worker carries through

    The functional behaviour of [process_job]
    ([src/app/workers/openai_jobs.py]) when nothing interferes: the provider's
    pieces are stored as chunks in their order, and the result that is
    delivered holds exactly their concatenation. *)

From S2P Require Import Prelude PyText PyTime Sha256 Txn AiContracts AiTables AiJobs AiOrchestration AiApi AiProvider AiWorker AiLifecycle AiRefinement AiSystem AiLedger AiDemo AiClaim AiSafety AiLeases AiResults AiWorkerSafety.
Local Open Scope string_scope.
Local Open Scope Z_scope.

(** ** The reference: what the events amount to *)

Definition pieces_of (events : list ProviderEvent) : list string :=
  omap (fun e => match pe_kind e with
                 | ev_delta => if bool_decide (pe_delta e = "") then None else Some (pe_delta e)
                 | ev_completed => None
                 end) events.

(** The token counts of the last [completed] event, if there is one. *)
Definition tokens_of (events : list ProviderEvent) (start : Z * Z) : Z * Z :=
  fold_left (fun acc e => match pe_kind e with
                          | ev_completed => (pe_input_tokens e, pe_output_tokens e)
                          | ev_delta => acc
                          end) events start.

Definition progress_of (l : list string) (tokens : Z * Z) : progress :=
  mkProgress l (Z.of_nat (length l)) tokens.1 tokens.2.

Lemma pieces_of_cons e l : pieces_of (e :: l) = app (pieces_of [e]) (pieces_of l).
Proof. unfold pieces_of. cbn. by case_match. Qed.

Lemma pieces_of_one e :
  pieces_of [e] = match pe_kind e with
                  | ev_delta => if bool_decide (pe_delta e = "") then [] else [pe_delta e]
                  | ev_completed => []
                  end.
Proof. unfold pieces_of. cbn. destruct (pe_kind e); [|done]. by case_bool_decide. Qed.

Definition bytes_of_pieces (l : list string) : Z := sum_Z (byte_len <$> l).

Lemma bytes_of_pieces_app l l' : bytes_of_pieces (app l l') = bytes_of_pieces l + bytes_of_pieces l'.
Proof. unfold bytes_of_pieces, sum_Z. induction l; cbn; lia. Qed.
Lemma bytes_of_pieces_nonneg l : 0 <= bytes_of_pieces l.
Proof.
  unfold bytes_of_pieces, sum_Z. induction l as [|x l IH]; cbn; [lia|]. pose proof (byte_len_nonneg x). lia.
Qed.

(** The bytes of the pieces whose numbers are free in the table of chunks. *)
Definition new_bytes (stored_chunks : gmap (uuid * Z) chunk) (id : uuid) (l : list string) : Z :=
  sum_Z (imap (fun k x => if is_null (stored_chunks !! (id, Z.of_nat k)) then byte_len x else 0) l).

Lemma new_bytes_snoc m id l x :
  new_bytes m id (app l [x])
  = new_bytes m id l + if is_null (m !! (id, Z.of_nat (length l))) then byte_len x else 0.
Proof.
  unfold new_bytes. rewrite imap_app. cbn. rewrite Nat.add_0_r. unfold sum_Z.
  induction (imap _ l) as [|y r IH]; cbn; lia.
Qed.

Lemma new_bytes_bound m id l : new_bytes m id l <= bytes_of_pieces l.
Proof.
  induction l as [|x l IH] using rev_ind; [done|]. rewrite new_bytes_snoc, bytes_of_pieces_app.
  change (bytes_of_pieces [x]) with (byte_len x + 0). pose proof (byte_len_nonneg x). case_match; lia.
Qed.

Lemma new_bytes_all m id l : (forall seq, m !! (id, seq) = None) -> new_bytes m id l = bytes_of_pieces l.
Proof.
  intros Hm. induction l as [|x l IH] using rev_ind; [done|].
  rewrite new_bytes_snoc, bytes_of_pieces_app, Hm, IH.
  change (bytes_of_pieces [x]) with (byte_len x + 0). cbn. lia.
Qed.

(** ** Delivering succeeds *)

Lemma store_result_runs rj r (Q : session db -> exn + job_state -> Prop) s :
  is_Some (rj_model_profile rj) -> is_Some (rj_command_type rj) ->
  (forall s', committed s' = committed s -> clock s' = clock s ->
     jobs (working s') = jobs (working s) -> chunks (working s') = chunks (working s) ->
     results (working s') = insert_if_absent (rj_id rj)
       (mkResultRow (rj_organization_id rj) (rj_workspace_id rj) r (output_digest r))
       (results (working s)) ->
     Q s' (inr (if requires_approval rj then approval_required else completed))) ->
  wp (store_result rj r) Q s.
Proof.
  intros [prof Hp] [ct Hct] HQ. unfold store_result. wp_run; rewrite ?Hp, ?Hct in *; simplify_eq/=.
  all: by apply HQ.
Qed.

Lemma finish_success id w tok corr cs row (Q : session db -> exn + job_state -> Prop) s :
  select_lease id w tok None None true (clock s O) (working s) = Some row ->
  j_cancel_requested_at row = None -> cs <> dead_letter ->
  (forall s', clean s' ->
     jobs (committed s') = alter (finish_job cs (retry_delay (j_attempt_count row)) None (clock s O)) id
                             (jobs (working s)) ->
     chunks (committed s') = chunks (working s) -> results (committed s') = results (working s) ->
     Q s' (inr cs)) ->
  wp (finish id w tok false None false corr cs [] None None) Q s.
Proof.
  intros Hsel Hcan Hcs HQ.
  assert (Hst : finish_state row false false cs = cs) by (unfold finish_state; by rewrite Hcan).
  unfold finish, assert_lease, audit. wp_run; rewrite ?Hsel in *; simplify_eq; rewrite ?Hst in *;
    bool_to_prop; try done. by apply HQ.
Qed.

(** ** A lease that stays in force *)

Section run.
Context `{Pydantic} `{WorkerModels} (cfg : settings) (o : openai_settings) (c : claim_view) (j : job)
  (d0 : db) (expiry : Z).

(** The row of the job, up to the output account. *)
Definition row_at (n u : Z) : job := j <| j_output_bytes := n |> <| j_updated_at := u |>.

Record held : Prop := Held {
hd_claim : c = claim_view_of j;
hd_row : jobs d0 !! j_id j = Some j;
hd_state : j_state j = leased;
hd_owner : j_lease_owner j = Some (openai_worker_id o);
hd_expiry : j_lease_expires_at j = Some expiry;
hd_cancel : j_cancel_requested_at j = None;
hd_profile : is_Some (j_model_profile j);
hd_type : is_Some (j_command_type j);
}.

(** What the chunk of a number holds once the pieces [l] were offered: a chunk of
    an earlier attempt stays as it is. *)
Definition chunk_after (l : list string) (k : nat) : option string :=
match chunks d0 !! (j_id j, Z.of_nat k) with Some ch => Some (ck_content ch) | None => l !! k end.

(** After the pieces [l] were offered. *)
Record stored (l : list string) (s : session db) : Prop := Stored {
st_clean : clean s;
st_clock : forall n, clock s n < expiry;
st_row : exists u, jobs (committed s) !! j_id j = Some (row_at (j_output_bytes j + new_bytes (chunks d0) (j_id j) l) u);
st_chunks : forall k, ck_content <$> chunks (committed s) !! (j_id j, Z.of_nat k) = chunk_after l k;
st_results : results (committed s) = results d0;
}.

Hypothesis Hheld : held.

Lemma lease_in_force allow n u t :
t < expiry ->
lease_matches (openai_worker_id o) (cl_fencing_token c) None None allow t (row_at n u) = true.
Proof using Hheld.
destruct Hheld as [-> _ Hs Ho He _ _ _]. intros Ht. unfold lease_matches.
rewrite !andb_true_iff. split_and!.
- apply orb_true_iff. left. by apply bool_decide_eq_true.
- by apply null_eq_spec.
- apply Z.eqb_refl.
- apply null_gt_spec. eauto.
- done.
Qed.

Lemma select_in_force l allow s :
stored l s ->
exists u, select_lease (cl_id c) (openai_worker_id o) (cl_fencing_token c) None None allow (clock s O)
  (working s) = Some (row_at (j_output_bytes j + new_bytes (chunks d0) (j_id j) l) u).
Proof using Hheld.
intros [Hc Hk [u Hr] _ _]. exists u. rewrite Hc. apply select_lease_intro; [|by apply lease_in_force].
by rewrite (hd_claim Hheld).
Qed.

Lemma append_runs l x s :
stored l s -> j_output_bytes j + bytes_of_pieces (app l [x]) <= ai_job_max_output_bytes cfg ->
wp (append_chunk (cl_id c) (openai_worker_id o) (cl_fencing_token c) (Z.of_nat (length l)) x
      (ai_job_max_output_bytes cfg) None None)
   (fun s' r => (exists b, r = inr b) /\ stored (app l [x]) s') s.
Proof using Hheld.
intros Hst Hfit. destruct (select_in_force l false s Hst) as [u Hsel].
destruct Hst as [Hc Hk [u' Hr] Hch Hres]. rewrite bytes_of_pieces_app in Hfit.
change (bytes_of_pieces [x]) with (byte_len x + 0) in Hfit.
pose proof (new_bytes_bound (chunks d0) (j_id j) l) as Hle.
assert (Hid : cl_id c = j_id j) by (by rewrite (hd_claim Hheld)).
assert (Hl : chunks (committed s) !! (j_id j, Z.of_nat (length l)) = None
             <-> chunks d0 !! (j_id j, Z.of_nat (length l)) = None).
{ rewrite <- fmap_None with (f := ck_content), Hch. unfold chunk_after. rewrite lookup_ge_None_2 by lia.
  by destruct (chunks d0 !! (j_id j, Z.of_nat (length l))). }
assert (Hother : forall k, k <> length l -> chunk_after (app l [x]) k = chunk_after l k).
{ intros k Hne. unfold chunk_after. destruct (chunks d0 !! (j_id j, Z.of_nat k)); [done|].
  destruct (decide (k < length l)%nat); [by rewrite lookup_app_l by lia|].
  rewrite (lookup_ge_None_2 l) by lia. apply lookup_ge_None_2. rewrite length_app. cbn. lia. }
destruct s as [d v clk ids]. unfold clean in Hc. cbn in *. subst v.
unfold append_chunk, assert_lease.
wp_run; cbn in *; rewrite ?Hsel in *; simplify_eq; rewrite ?Hid in *; bool_to_prop; try done;
  cbn in *; try lia.
- (* the number is free *)
  split; [by eexists|]. unfold insert_if_absent.
  assert (Hnone : chunks d0 !! (j_id j, Z.of_nat (length l)) = None) by (by apply Hl).
  split; cbn; [done|intros n; apply Hk| | |done].
  + eexists. rewrite lookup_alter_eq, Hr. cbn. f_equal. unfold row_at, add_output. cbn.
    rewrite new_bytes_snoc, Hnone. unfold upd; cbn. f_equal. lia.
  + intros k. match goal with E : chunks d !! _ = None |- _ => rewrite E end.
    destruct (decide (k = length l)) as [->|Hne].
    * rewrite lookup_insert_eq. unfold chunk_after. rewrite Hnone. cbn.
      by rewrite lookup_app_r, Nat.sub_diag by done.
    * rewrite lookup_insert_ne by (intros [=]; lia). rewrite Hother by done. apply Hch.
- (* a chunk of an earlier attempt has it *)
  split; [by eexists|]. unfold insert_if_absent.
  destruct (chunks d !! (j_id j, Z.of_nat (length l))) as [ch|] eqn:E; [|done].
  destruct (chunks d0 !! (j_id j, Z.of_nat (length l))) as [ch0|] eqn:E0; [|by discriminate (proj2 Hl eq_refl)].
  split; cbn; [done|intros n; apply Hk| | |done].
  + exists u'. rewrite new_bytes_snoc, E0. cbn. rewrite Z.add_0_r. exact Hr.
  + intros k. rewrite E. destruct (decide (k = length l)) as [->|Hne]; [|rewrite Hother by done; apply Hch].
    rewrite Hch. unfold chunk_after. by rewrite E0.
Qed.

Lemma cancel_not_requested l s :
stored l s -> _cancel_requested (cl_id c) s = (s, inr false).
Proof using Hheld.
intros [Hc _ [u Hr] _ _]. unfold _cancel_requested, mbind, M_bind, query.
rewrite Hc, (hd_claim Hheld). cbn. rewrite Hr. cbn. by rewrite (hd_cancel Hheld).
Qed.

Lemma on_event_runs l tokens e corr s :
stored l s -> j_output_bytes j + bytes_of_pieces (app l (pieces_of [e])) <= ai_job_max_output_bytes cfg ->
wp (on_event cfg o c corr false (progress_of l tokens) e)
   (fun s' r => r = inr (None, progress_of (app l (pieces_of [e])) (tokens_of [e] tokens))
                /\ stored (app l (pieces_of [e])) s') s.
Proof using Hheld.
intros Hst Hfit. unfold on_event. cbn [negb guard_or]. wp_step. wp_step.
apply wp_bind. unfold wp at 1. rewrite (cancel_not_requested l) by done. cbn [fst snd].
rewrite pieces_of_one in *. unfold tokens_of. cbn [fold_left]. destruct (pe_kind e).
- destruct (bool_decide (pe_delta e = "")).
  + wp_step. by rewrite app_nil_r.
  + wp_step. cbn [pg_sequence progress_of]. eapply wp_mono; [|by apply append_runs].
    intros s' r [[b ->] Hst']. wp_step. split; [|done]. unfold progress_of. cbn.
    rewrite length_app. cbn. do 3 f_equal. lia.
- wp_step. by rewrite app_nil_r.
Qed.

Lemma consume_runs corr events : forall l tokens s,
stored l s ->
j_output_bytes j + bytes_of_pieces (app l (pieces_of events)) <= ai_job_max_output_bytes cfg ->
wp (consume cfg o c corr ((fun e => ([], e)) <$> events) ([], None) false (progress_of l tokens))
   (fun s' r => r = inr (progress_of (app l (pieces_of events)) (tokens_of events tokens), false, inr None)
                /\ stored (app l (pieces_of events)) s') s.
Proof using Hheld.
induction events as [|e events IH]; intros l tokens s Hst Hfit; cbn [fmap list_fmap consume].
- cbn [while_waiting fst snd]. do 2 wp_step. wp_step. by rewrite app_nil_r.
- rewrite pieces_of_cons, app_assoc in *. cbn [while_waiting]. do 2 wp_step.
  assert (Hfit1 : j_output_bytes j + bytes_of_pieces (app l (pieces_of [e])) <= ai_job_max_output_bytes cfg).
  { rewrite bytes_of_pieces_app in Hfit. pose proof (bytes_of_pieces_nonneg (pieces_of events)). lia. }
  pose proof (on_event_runs l tokens e corr s Hst Hfit1) as Hev.
  apply wp_bind. unfold wp, catch, try_except, mbind, M_bind in Hev |- * .
  destruct (on_event cfg o c corr false (progress_of l tokens) e s) as [s1 r1]. cbn [fst snd] in Hev.
  destruct Hev as [-> Hst1]. cbn [fst snd]. apply (IH _ (tokens_of [e] tokens) s1 Hst1 Hfit).
Qed.

Definition final_state : job_state :=
if requires_approval (result_job_of_claim c) then approval_required else completed.

Lemma deliver_runs l corr r s :
stored l s -> results d0 !! j_id j = None ->
wp (deliver c (openai_worker_id o) corr r) (fun s' x => x = inr final_state /\ clean s'
  /\ results (committed s') !! j_id j
     = Some (mkResultRow (j_organization_id j) (j_workspace_id j) r (output_digest r))
  /\ chunks (committed s') = chunks (committed s)
  /\ exists j', jobs (committed s') !! j_id j = Some j' /\ j_state j' = final_state
       /\ has_lease j' = false /\ j_output_bytes j' = j_output_bytes j + new_bytes (chunks d0) (j_id j) l) s.
Proof using Hheld.
intros Hst Hnone. destruct (select_in_force l true s Hst) as [u Hsel].
destruct Hst as [Hc Hk [u' Hr] Hch Hres]. rewrite <- Hres in Hnone.
unfold final_state, deliver. destruct Hheld as [-> _ _ _ _ Hcan Hprof Hct].
apply wp_bind, store_result_runs; [done..|]. intros s1 Hc1 Hclk1 Hj1 Hch1 Hr1.
assert (Hsel1 : select_lease (cl_id (claim_view_of j)) (openai_worker_id o)
  (cl_fencing_token (claim_view_of j)) None None true (clock s1 O) (working s1)
  = Some (row_at (j_output_bytes j + new_bytes (chunks d0) (j_id j) l) u)).
{ rewrite <- Hsel, Hclk1. unfold select_lease. by rewrite Hj1. }
eapply finish_success; [exact Hsel1|done|by case_match|].
intros s2 Hc2 Hj2 Hch2 Hr2. split; [done|]. split; [done|].
rewrite Hr2, Hr1, Hch2, Hch1, Hj2, Hj1, Hc. cbn. unfold insert_if_absent. rewrite Hnone.
split; [by rewrite lookup_insert_eq|]. split; [done|].
rewrite lookup_alter_eq, (Hc : working s = committed s), Hr. by eexists.
Qed.
End run.

(** ** The whole job *)

(** The worker holds the lease, the gates let the job through, nothing happens
    while it waits, the pieces fit, and the cost and the result pass. *)
Record undisturbed `{Pydantic} `{WorkerModels} (cfg : settings) (o : openai_settings)
    (env : surroundings) (c : claim_view) (j : job) (command : AICommand)
    (events : list ProviderEvent) (r : AIResult) (s : session db) : Prop := Undisturbed {
  ud_reachable : reachable cfg (committed s);
  ud_clean : clean s;
  ud_held : exists expiry, held o c j (committed s) expiry /\ forall n, clock s n < expiry;
  ud_command : model_validate (cl_command_payload c) = inr command;
  ud_request : exists request, prepare o c command s = (s, inr request)
    /\ sr_provider env request = mkStreaming ((fun e => ([], e)) <$> events) ([], None)
    /\ exists cost,
         let p := progress_of (pieces_of events) (tokens_of events (0, 0)) in
         _estimated_cost (pr_model request) (pg_input_tokens p) (pg_output_tokens p) = inr cost
         /\ cost <= openai_max_estimated_cost_micro_usd o
         /\ validate_result result_dump_json (worker_result env c command (pr_model request) p cost)
            = inr r;
  ud_closing : sr_closing env = [];
  ud_pieces : pieces_of events <> [];
  ud_fits : j_output_bytes j + bytes_of_pieces (pieces_of events) <= ai_job_max_output_bytes cfg;
}.

Lemma validate_result_same f r r' : validate_result f r = inr r' -> r' = r.
Proof.
  unfold validate_result, valid_timing_and_size. repeat (case_match; try done). by intros [= ->].
Qed.

(** C30. A job that nothing disturbs is carried through: [process_job] ends it
    [completed], or [approval_required] when its policy asks for an approval,
    gives up the lease, and stores a result of the job's tenant whose proposal is
    the concatenation of the provider's non-empty pieces and whose token counts
    are those of the provider's last report.  The pieces are offered as the
    chunks 0, 1, 2, ... in their order: a number that an earlier attempt stored
    keeps that attempt's chunk, the others hold the pieces, and the output bytes
    grow by the stored ones; when no chunk of the job was there, the chunks are
    exactly the pieces. *)
Theorem undisturbed_job_delivered `{Pydantic} `{WorkerModels} cfg o env c j command events r s :
  undisturbed cfg o env c j command events r s ->
  exists s' j',
    process_job cfg o env c s = (s', inr (final_state c)) /\ clean s'
    /\ jobs (committed s') !! j_id j = Some j' /\ j_state j' = final_state c /\ has_lease j' = false
    /\ j_output_bytes j' = j_output_bytes j + new_bytes (chunks (committed s)) (j_id j) (pieces_of events)
    /\ (forall k, ck_content <$> chunks (committed s') !! (j_id j, Z.of_nat k)
          = chunk_after j (committed s) (pieces_of events) k)
    /\ ((forall seq, chunks (committed s) !! (j_id j, seq) = None) ->
          j_output_bytes j' = j_output_bytes j + bytes_of_pieces (pieces_of events)
          /\ forall k, ck_content <$> chunks (committed s') !! (j_id j, Z.of_nat k) = pieces_of events !! k)
    /\ results (committed s') !! j_id j
       = Some (mkResultRow (j_organization_id j) (j_workspace_id j) r (output_digest r))
    /\ output r = [("proposal", JStr (String.concat "" (pieces_of events)))]
    /\ token_usage r = [("input_tokens", (tokens_of events (0, 0)).1);
                        ("output_tokens", (tokens_of events (0, 0)).2)].
Proof.
  intros [Hr Hc (expiry & Hh & Hclk) Hcmd (request & Hreq & Hpr & cost & Hcost & Hmax & Hval) Hcl Hne Hfit].
  assert (Hst : stored j (committed s) expiry [] s).
  { split; [done|done| | |done].
    - exists (j_updated_at j). rewrite (hd_row _ _ _ _ _ Hh). f_equal. unfold row_at, new_bytes. cbn.
      rewrite Z.add_0_r. by destruct j.
    - intros k. unfold chunk_after. by destruct (chunks (committed s) !! _). }
  assert (Hnone : results (committed s) !! j_id j = None).
  { apply eq_None_not_Some. intros [rr Hrr].
    destruct (ro_settled _ (reachable_results _ _ Hr) _ _ Hrr) as (j' & Hj' & Hl & _).
    rewrite (hd_row _ _ _ _ _ Hh) in Hj'. simplify_eq. unfold has_lease in Hl.
    by rewrite (hd_owner _ _ _ _ _ Hh) in Hl. }
  pose proof (validate_result_same _ _ _ Hval) as Er.
  enough (Hw : wp (process_job cfg o env c) (fun s' x => x = inr (final_state c) /\ clean s'
    /\ results (committed s') !! j_id j
       = Some (mkResultRow (j_organization_id j) (j_workspace_id j) r (output_digest r))
    /\ (forall k, ck_content <$> chunks (committed s') !! (j_id j, Z.of_nat k)
          = chunk_after j (committed s) (pieces_of events) k)
    /\ exists j', jobs (committed s') !! j_id j = Some j' /\ j_state j' = final_state c
         /\ has_lease j' = false
         /\ j_output_bytes j' = j_output_bytes j + new_bytes (chunks (committed s)) (j_id j) (pieces_of events)) s).
  { unfold wp in Hw. destruct (process_job cfg o env c s) as [s' x]. cbn in Hw.
    destruct Hw as (-> & Hc' & Hres & Hch & j' & Hj' & Hst' & Hl & Hb).
    exists s', j'. rewrite Er in *. split_and!; try done. intros Hfree. rewrite Hb, new_bytes_all by done.
    split; [done|]. intros k. rewrite Hch. unfold chunk_after. by rewrite Hfree. }
  unfold process_job. rewrite Hcmd. cbn [lift_exn]. do 2 wp_step. apply wp_bind. unfold wp at 1. rewrite Hreq.
  cbn [fst snd]. rewrite Hpr, Hcl. cbn [sg_events sg_end]. apply wp_bind.
  eapply wp_mono; [|exact (consume_runs cfg o c j (committed s) expiry Hh (correlation_id command) events
    [] (0, 0) s Hst Hfit)].
  intros s1 x [-> Hst1]. rewrite app_nil_l in *. cbn [fst snd while_waiting]. do 2 wp_step.
  cbn [guard_or negb]. do 2 wp_step.
  change (pg_pieces (progress_of ?l ?t)) with l. rewrite (bool_decide_eq_false_2 _ Hne).
  cbn [guard_or negb]. do 2 wp_step. unfold lift_exn. rewrite Hcost. do 2 wp_step.
  rewrite (proj2 (Z.leb_le _ _) Hmax). cbn [guard_or]. do 2 wp_step. rewrite Hval. do 2 wp_step.
  eapply wp_mono; [|exact (deliver_runs o c j (committed s) expiry Hh (pieces_of events)
    (correlation_id command) r s1 Hst1 Hnone)].
  intros s2 x (-> & Hc2 & Hres & Hch & Hj'). split_and!; [done..| |done].
  intros k. rewrite Hch. apply (st_chunks _ _ _ _ _ Hst1 k).
Qed.

(** The demo provider without the renewal. *)
Definition demo_quiet_events : list ProviderEvent := [demo_delta "hi"; demo_delta ""; demo_delta " there"; demo_done].
Definition demo_quiet_env : surroundings :=
  mkSurroundings (fun _ => mkStreaming ((fun e => ([], e)) <$> demo_quiet_events) ([], None))
    [] (seconds 2) (seconds 3) 1000.
Definition demo_claimed_job : job :=
  default (command_job (demo_command 7%N "key-0000000000000007" false) 2%N "" 0)
    (jobs demo_claimed.1 !! 7%N).
Definition demo_delivered : AIResult :=
  worker_result demo_quiet_env demo_claim (demo_command 7%N "key-0000000000000007" false) "gpt-5.6-terra"
    (progress_of (pieces_of demo_quiet_events) (tokens_of demo_quiet_events (0, 0))) 260.

Lemma demo_undisturbed :
  undisturbed demo_cfg demo_openai demo_quiet_env demo_claim demo_claimed_job
    (demo_command 7%N "key-0000000000000007" false) demo_quiet_events demo_delivered demo_session.
Proof.
  split.
  - pose proof (reachable_serve _ 2 1200 (RqOpenAiClaim demo_openai) demo_ready_reachable) as Hr.
    unfold demo_serve, serve, handle in Hr. rewrite ignore_tables in Hr. exact Hr.
  - unfold clean, demo_session. cbn [working committed]. reflexivity.
  - exists (seconds 62). split; [|intros n; vm_compute; reflexivity].
    split; try (vm_compute; reflexivity); try (vm_compute; eexists; reflexivity).
  - vm_compute. reflexivity.
  - eexists. split; [vm_compute; reflexivity|]. split; [reflexivity|]. exists 260.
    split; [vm_compute; reflexivity|]. split; [vm_compute; discriminate|]. vm_compute. reflexivity.
  - reflexivity.
  - vm_compute. discriminate.
  - vm_compute. discriminate.
Qed.

Lemma undisturbed_job_delivered_witness :
  exists s', process_job demo_cfg demo_openai demo_quiet_env demo_claim demo_session
             = (s', inr completed)
    /\ ck_content <$> chunks (committed s') !! (7%N, 1) = Some " there".
Proof.
  destruct (undisturbed_job_delivered demo_cfg demo_openai demo_quiet_env demo_claim demo_claimed_job
    (demo_command 7%N "key-0000000000000007" false) demo_quiet_events demo_delivered demo_session
    demo_undisturbed) as (s' & j' & E & _ & _ & _ & _ & _ & Hch & _).
  exists s'. split.
  - rewrite E. vm_compute. reflexivity.
  - etrans; [exact (Hch 1%nat)|]. vm_compute. reflexivity.
Defined.

(** ** Chunks of an earlier attempt

    Chunks are never deleted and a number that is taken is kept, so when an
    attempt that stored output is followed by another one, the stored chunks are
    not the text of the result: the first attempt below stores one piece and
    lets its lease lapse, the second is not disturbed at all. *)

Definition lapsed_attempt : db :=
  demo_serve 100 1500 (RqOpenAiRecover 1%N 2%N)
    (demo_serve 3 1400 (RqOpenAiChunk 7%N "codestra-openai-01" 1 0 "old") demo_claimed.1).
Definition second_claim := with_session (demo_clock 300) (demo_ids 1600) (worker_claim demo_cfg demo_openai) lapsed_attempt.
Definition second_session : session db := Session second_claim.1 second_claim.1 (demo_clock 301) (demo_ids 1700).

Theorem stale_chunk_differs_from_result :
  exists c s', second_claim.2 = inr (Some c)
    /\ process_job demo_cfg demo_openai demo_quiet_env c second_session = (s', inr completed)
    /\ ck_content <$> chunks (committed s') !! (7%N, 0) = Some "old"
    /\ (fun row => output (rs_result row)) <$> results (committed s') !! 7%N = Some [("proposal", JStr "hi there")].
Proof. eexists _, _. split; [vm_compute; reflexivity|]. split; [vm_compute; reflexivity|]. split; vm_compute; reflexivity. Qed.
