(* ===== verification/AiLimits.v ===== *)
(** * Where the platform stops short

    Consequences of the code that a reader of its comments may not expect:
    states that no request can leave, an operation that can never succeed, a
    decision that overrides a cancellation. *)

From S2P Require Import Prelude PyText PyTime Sha256 Txn AiContracts AiTables AiJobs AiOrchestration AiApi AiProvider AiWorker AiLifecycle AiRefinement AiSystem AiLedger AiDemo AiClaim AiSafety AiCommands AiLeases AiResults.
Local Open Scope string_scope.
Local Open Scope Z_scope.

(** A dead letter can never be retried: in every reachable database the
    manual retry is refused for want of an approval, because the only approval
    a job can have is the one on its result, and a job with one is never
    dead. *)
Theorem dead_letter_retry_never_granted `{Pydantic} cfg d clk ids id aid org ws actor corr :
  reachable cfg d ->
  with_session clk ids (retry_dead_letter id aid org ws actor corr) d
  = (d, inl (PermissionError "new_approval_required")).
Proof.
  intros Hr.
  assert (Hno : retry_authorized id aid org ws d = false).
  { unfold retry_authorized. pose proof (reachable_slice_ok _ _ id Hr) as Hok.
    unfold slice_ok, slice_of in Hok. cbn in Hok.
    destruct (dead_letters d !! id) as [l|] eqn:El, (approvals d !! id) as [a|] eqn:Ea; try done.
    destruct (jobs d !! id) as [j|]; [|naive_solver].
    destruct Hok as (_ & _ & [_ Hap] & Hdead). unfold dead_ok in Hdead.
    assert (Hs : j_state j = dead_letter) by (apply Hdead; eauto).
    destruct (ap_state a); exfalso; destruct_or?; congruence. }
  unfold with_session, retry_dead_letter, mbind, M_bind, query. cbn. by rewrite Hno.
Qed.

(** Every failed attempt of the run, until the job is dead. *)
Definition demo_fail (s : Z) (tok : Z) (d : db) : db :=
  demo_serve (s + 1) 3000 (RqFail demo_principal 7%N "worker-a" tok "bad_output" false [])
    (demo_serve s 3100 (RqClaim demo_principal "worker-a" None) d).
Definition demo_dead : db := demo_fail 10 1 demo_queued.

Lemma dead_letter_retry_never_granted_witness :
  demo_state demo_dead 7%N = Some dead_letter
  /\ with_session (demo_clock 20) (demo_ids 4000)
       (retry_dead_letter 7%N 55%N 1%N 2%N "worker-a" "corr-0001") demo_dead
     = (demo_dead, inl (PermissionError "new_approval_required")).
Proof.
  split; [vm_compute; reflexivity|].
  apply (dead_letter_retry_never_granted demo_cfg demo_dead). unfold demo_dead, demo_fail. demo_reach.
Defined.

(** ** Cancelling a job that waits for nobody *)

Definition abandoned (id : uuid) (sl : slice) : Prop :=
  slice_ok id sl /\ exists j a, sl_job sl = Some j /\ sl_approval sl = Some a
    /\ j_state j = cancel_requested.

Lemma abandoned_step id a b : slice_step id a b -> abandoned id a -> abandoned id b.
Proof.
  intros Hs (Hok & j & ap & Hj & Hap & Hst). split; [by eapply slice_step_ok|].
  pose proof Hok as Hok'. unfold slice_ok in Hok'. rewrite Hj, Hap in Hok'.
  destruct Hok' as (_ & Hrow & [Hl Hp] & _).
  destruct Hs as
    [j0 ap0 dl Hf Hid|j0 ap0 dl t profiles org ws w secs Hc|j0 ap0 dl w tok org ws t secs Hm
    |j0 ap0 dl w tok org ws t n Hm|j0 ap0 ap' dl w tok org ws t fl rt cs dly err dd Hm Hc
    |j0 ap0 dl w tok org ws t Hm Hc|j0 a dl dl' aid org ws t _ _ _ _ Ha _ Hr
    |j0 ap0 dl t org ws Hc|j0 ap0 dl t org ws Hc|j0 ap0 dl t org ws dd Hc|j0 ap0 dl t org ws Hc
    |j0 ap0 dl t Hc|j0 ap0 dl t Hc|oj a dl t actor reason verdict Ha];
    cbn in *; simplify_eq; try (apply lease_matches_owner in Hm; congruence).
  - apply claimable_holds in Hc as ([?|?] & _); congruence.
  - unfold retryable_dead_letter in Hr. bool_to_prop. congruence.
  - apply expired_cancel_holds in Hc as (_ & e & He & _).
    rewrite (ok_lease _ Hrow), He in Hl. done.
  - unfold expired_retryable in Hc. bool_to_prop. apply expired_lease_holds in H as (? & _). congruence.
  - unfold expired_exhausted in Hc. bool_to_prop. apply expired_lease_holds in H as (? & _). congruence.
  - apply past_deadline_holds in Hc as (? & _). by_states.
  - eexists _, _. split_and!; [done..|]. cbn. by rewrite Hst.
  - eexists _, _. split_and!; [done..|]. cbn. by rewrite Hst.
  - rewrite Ha in Hp. by_states.
Qed.

(** Cancelling an approved job strands it: a job with an approval whose
    state is [cancel_requested] stays there for ever, since no worker holds a
    lease that could acknowledge the cancellation and no sweep looks at it. *)
Theorem cancelled_approval_is_stranded `{Pydantic} cfg d d' id j a :
  reachable cfg d -> jobs d !! id = Some j -> approvals d !! id = Some a ->
  j_state j = cancel_requested -> rtc (step cfg) d d' ->
  exists j', jobs d' !! id = Some j' /\ j_state j' = cancel_requested.
Proof.
  intros Hr Hj Ha Hst Hs. pose proof (later_advances _ _ _ Hr Hs id) as Hadv.
  assert (Hab : abandoned id (slice_of d id)).
  { split; [by eapply reachable_slice_ok|]. eexists j, a. done. }
  enough (abandoned id (slice_of d' id)) as (_ & j' & _ & Hj' & _ & Hst') by eauto.
  revert Hab. induction Hadv; eauto using abandoned_step.
Qed.

Lemma cancelled_approval_is_stranded_witness :
  exists j, jobs (demo_serve 5000 5000 (RqRecover demo_principal) demo_approved_cancelled) !! 8%N = Some j
    /\ j_state j = cancel_requested.
Proof.
  destruct (demo_job demo_approved_cancelled 8%N cancel_requested ltac:(vm_compute; reflexivity))
    as (j & Ej & Hst).
  assert (Ha : is_null (approvals demo_approved_cancelled !! 8%N) = false) by (vm_compute; reflexivity).
  destruct (approvals demo_approved_cancelled !! 8%N) as [a|] eqn:Ea; [|discriminate Ha].
  apply (cancelled_approval_is_stranded demo_cfg demo_approved_cancelled _ 8%N j a
    demo_approved_cancelled_reachable Ej Ea Hst).
  apply rtc_once. exact (step_request demo_cfg (demo_clock 5000) (demo_ids 5000)
    (RqRecover demo_principal) demo_approved_cancelled).
Defined.

(** ** A decision after a cancellation *)

Definition demo_proposal_cancelled : db :=
  demo_serve 6 1600 (RqCancel demo_user 8%N "corr-0003") demo_proposal.

(** A decision overrides a cancellation: a client cancels a job whose
    result waits for approval, the job is cancelled, and an approver can still
    approve it, which takes it out of [cancelled] into [approved]. *)
Theorem decision_overrides_cancellation :
  exists d d', reachable demo_cfg d /\ step demo_cfg d d'
    /\ (j_state <$> jobs d !! 8%N) = Some cancelled
    /\ (j_state <$> jobs d' !! 8%N) = Some approved.
Proof.
  exists demo_proposal_cancelled,
    (serve demo_cfg (demo_clock 7) (demo_ids 1700) (RqDecide demo_user 8%N "corr-0004" true "late")
       demo_proposal_cancelled).1.
  split_and!; [unfold demo_proposal_cancelled; demo_reach|constructor|vm_compute; reflexivity..].
Qed.

(** ** Resending the last chunk *)

(** A full output refuses what it already holds: the size of a chunk is
    checked before its sequence number is looked up, so a chunk that brought the
    output close enough to the limit is refused with an overflow when a worker
    that missed the answer sends it again, not acknowledged as a duplicate. *)
Theorem full_output_refuses_resend d d1 clk ids clk' ids' id w tok seq content cap org ws :
  with_session clk ids (append_chunk id w tok seq content cap org ws) d = (d1, inr true) ->
  (forall j, jobs d1 !! id = Some j ->
     lease_matches w tok org ws false (clk' O) j = true
     /\ cap < j_output_bytes j + byte_len content) ->
  is_Some (chunks d1 !! (id, seq))
  /\ with_session clk' ids' (append_chunk id w tok seq content cap org ws) d1
     = (d1, inl (OverflowError "output_limit_exceeded")).
Proof.
  intros E Hfull. destruct (chunk_stored _ _ _ _ _ _ _ _ _ _ _ _ E) as [[j Hj] Hc].
  split; [done|]. destruct (Hfull j Hj) as [Hm Hover].
  unfold with_session, append_chunk, assert_lease, mbind, M_bind, now, query, some_or. cbn.
  rewrite (select_lease_intro _ _ _ _ _ _ _ _ _ Hj Hm). cbn.
  unfold guard_or. by rewrite (proj2 (Z.leb_gt _ _) Hover).
Qed.

Lemma full_output_refuses_resend_witness :
  exists d1, with_session (demo_clock 3) (demo_ids 1300)
      (append_chunk 7%N "worker-a" 1 0 "hi" 2 None None) demo_leased = (d1, inr true)
    /\ with_session (demo_clock 4) (demo_ids 1400)
         (append_chunk 7%N "worker-a" 1 0 "hi" 2 None None) d1
       = (d1, inl (OverflowError "output_limit_exceeded")).
Proof.
  destruct (responds_inr (fun b => b) (with_session (demo_clock 3) (demo_ids 1300)
    (append_chunk 7%N "worker-a" 1 0 "hi" 2 None None) demo_leased)
    ltac:(vm_compute; reflexivity)) as (d1 & b & E & Hb). cbn in Hb. subst b.
  exists d1. split; [exact E|].
  apply (full_output_refuses_resend demo_leased d1 (demo_clock 3) (demo_ids 1300) (demo_clock 4)
    (demo_ids 1400) 7%N "worker-a" 1 0 "hi" 2 None None E).
  assert (Hd : from_option (fun j => lease_matches "worker-a" 1 None None false (seconds 4) j
                 && (2 <? j_output_bytes j + byte_len "hi")) false (jobs d1 !! 7%N) = true).
  { pose proof (f_equal (fun x => jobs x.1 !! 7%N) E) as Ej. cbn [fst] in Ej. rewrite <- Ej.
    vm_compute. reflexivity. }
  intros j Hj. rewrite (Hj : jobs d1 !! 7%N = Some j) in Hd. cbn [from_option] in Hd.
  apply andb_true_iff in Hd as [H1 H2]. split; [exact H1|]. apply Z.ltb_lt. exact H2.
Defined.
