(* ===== verification/AiPolicy.v ===== *)
(** * What the contracts let through

    The two filters at the edge of the job platform: the validation of a
    command ([src/app/core/ai_contracts.py]) and the reduction of a worker's
    error report to the diagnostics the dead-letter record may keep
    ([sanitize_error_details] of [src/app/core/ai_jobs.py]). *)

From Stdlib Require Import Ascii.
From S2P Require Import Prelude PyText PyTime Txn AiContracts AiTables AiJobs AiDemo.
Local Open Scope string_scope.
Local Open Scope Z_scope.

(** ** Python dictionaries as ordered association lists *)

Section dict.
Context {A : Type}.
Implicit Types (d : list (string * A)) (k : string) (v : A).

Lemma dict_get_set d k v k' :
  dict_get (dict_set d k v) k' = if bool_decide (k = k') then Some v else dict_get d k'.
Proof.
  unfold dict_get. induction d as [|[k0 v0] d IH]; cbn; [by case_bool_decide|].
  destruct (bool_decide_reflect (k0 = k)) as [->|Hne]; cbn; [by case_bool_decide|].
  destruct (bool_decide_reflect (k0 = k')) as [->|]; cbn; [|done].
  by rewrite bool_decide_eq_false_2.
Qed.

Lemma dict_set_keys d k v : (dict_set d k v).*1 = if bool_decide (k ∈ d.*1) 
  then d.*1 else (d.*1 ++ [k])%list.
Proof.
  induction d as [|[k0 v0] d IH]; cbn; [done|].
  destruct (bool_decide_reflect (k0 = k)) as [->|Hne]; cbn.
  - by rewrite bool_decide_eq_true_2 by left.
  - rewrite IH. repeat case_bool_decide; set_solver.
Qed.

Lemma dict_set_NoDup d k v : NoDup d.*1 -> NoDup (dict_set d k v).*1.
Proof.
  rewrite dict_set_keys. case_bool_decide; [done|]. intros. apply NoDup_app.
  split_and!; [done|set_solver|apply NoDup_singleton].
Qed.

Lemma dict_get_unique d k v : NoDup d.*1 -> (k, v) ∈ d <-> dict_get d k = Some v.
Proof.
  unfold dict_get. induction d as [|[k0 v0] d IH]; cbn; intros Hd; [set_solver|].
  inversion Hd as [|? ? Hk Hd']; subst. rewrite elem_of_cons.
  destruct (bool_decide_reflect (k0 = k)) as [->|Hne]; cbn.
  - split; [intros [[= ->]|Hin]; [done|]|intros [= ->]; by left].
    destruct Hk. by apply (list_elem_of_fmap_2 fst) in Hin.
  - rewrite <- IH by done. naive_solver.
Qed.

(** Setting a key that is not there appends it. *)
Lemma dict_set_new d k v : k ∉ d.*1 -> dict_set d k v = (d ++ [(k, v)])%list.
Proof.
  induction d as [|[k0 v0] d IH]; cbn; intros Hk; [done|].
  rewrite bool_decide_eq_false_2 by set_solver. by rewrite IH by set_solver.
Qed.
End dict.

(** ** Error details *)

Local Arguments dict_get : simpl never.

(** What one member of the report contributes under [key]. *)
Definition contribution (key : string) (kv : string * json) : option json :=
  if bool_decide (str_lower kv.1 = key) then sanitize_value kv.2 else None.

(** A diagnostic value: a number, a boolean, or a short text of letters,
    digits and [._:/ -]. *)
Definition diagnostic (v : json) : bool := negb (is_null (sanitize_value v)).

Lemma sanitize_app details kv :
  sanitize_error_details (details ++ [kv])%list
  = if negb (str_in (str_lower kv.1) SAFE_ERROR_DETAIL_FIELDS) then sanitize_error_details details
    else match sanitize_value kv.2 with
         | Some value => dict_set (sanitize_error_details details) (str_lower kv.1) value
         | None => sanitize_error_details details
         end.
Proof. unfold sanitize_error_details. by rewrite fold_left_app. Qed.

Lemma sanitize_value_same v w : sanitize_value v = Some w -> w = v.
Proof. destruct v; cbn; try case_match; naive_solver. Qed.

Lemma sanitize_NoDup details : NoDup (sanitize_error_details details).*1.
Proof.
  induction details as [|kv d IH] using rev_ind; [constructor|].
  rewrite sanitize_app. repeat case_match; [done|by apply dict_set_NoDup|done].
Qed.

Lemma sanitize_get details key :
  dict_get (sanitize_error_details details) key
  = if str_in key SAFE_ERROR_DETAIL_FIELDS then last (omap (contribution key) details) else None.
Proof.
  induction details as [|kv d IH] using rev_ind; [by case_match|].
  rewrite sanitize_app, omap_app, last_app. cbn. unfold contribution at 1.
  destruct (bool_decide_reflect (str_lower kv.1 = key)) as [<-|Hne].
  - destruct (str_in _ _) eqn:E; cbn; [|by rewrite IH].
    destruct (sanitize_value kv.2) eqn:Ev; cbn; [|by rewrite IH].
    by rewrite dict_get_set, bool_decide_eq_true_2.
  - cbn. repeat case_match; rewrite ?dict_get_set, ?bool_decide_eq_false_2 by done; done.
Qed.

Lemma sanitize_members details key v :
  (key, v) ∈ sanitize_error_details details ->
  key ∈ SAFE_ERROR_DETAIL_FIELDS /\ sanitize_value v = Some v.
Proof.
  rewrite dict_get_unique by apply sanitize_NoDup. rewrite sanitize_get. unfold str_in.
  case_match; [|done]. bool_to_prop. intros (kv & _ & Hc)%last_Some_elem_of%list_elem_of_omap.
  split; [done|]. unfold contribution in Hc. case_bool_decide; [|done].
  by pose proof (sanitize_value_same _ _ Hc) as ->.
Qed.

Lemma safe_fields_lower key : key ∈ SAFE_ERROR_DETAIL_FIELDS -> str_lower key = key.
Proof.
  revert key. apply Forall_forall. apply (bool_decide_unpack _). vm_compute. exact I.
Qed.

(** A report of safe members under distinct safe keys passes unchanged. *)
Lemma sanitize_fixed details :
  NoDup details.*1 ->
  Forall (fun kv => kv.1 ∈ SAFE_ERROR_DETAIL_FIELDS /\ sanitize_value kv.2 = Some kv.2) details ->
  sanitize_error_details details = details.
Proof.
  induction details as [|[k v] d IH] using rev_ind; [done|].
  rewrite fmap_app, NoDup_app, Forall_app. cbn. intros (Hd & Hk & _) [Hall [[Hs Hv] _]%Forall_cons].
  rewrite sanitize_app. cbn in *. rewrite safe_fields_lower, Hv by done. unfold str_in.
  rewrite bool_decide_eq_true_2, IH by done. cbn. apply dict_set_new. set_solver.
Qed.

(** The diagnostics kept of an error report never carry free text: each
    has one of the seven safe field names, each at most once, and is an
    integer, a boolean or a text of 1 to 128 letters, digits, spaces and
    [._:/-].  Under each safe name the last acceptable value of the report is
    kept, whatever the case of its key, and nothing else; sanitising twice
    changes nothing more. *)
Theorem error_details_sanitised details :
  NoDup (sanitize_error_details details).*1
  /\ (forall key v, (key, v) ∈ sanitize_error_details details ->
        key ∈ SAFE_ERROR_DETAIL_FIELDS
        /\ match v with
           | JStr s => (1 <= String.length s <= 128)%nat
                       /\ str_forall (fun c => is_alnum c || char_in c "._:/ -") s = true
           | JInt _ | JBool _ => True
           | _ => False
           end)
  /\ (forall key, dict_get (sanitize_error_details details) key
        = if str_in key SAFE_ERROR_DETAIL_FIELDS then last (omap (contribution key) details)
          else None)
  /\ sanitize_error_details (sanitize_error_details details) = sanitize_error_details details.
Proof.
  split_and!.
  - apply sanitize_NoDup.
  - intros key v [Hk Hv]%sanitize_members. split; [done|].
    destruct v; cbn in Hv; try done. case_match; [|done].
    unfold fullmatch_class in *. bool_to_prop. rewrite <- !Nat.leb_le. done.
  - apply sanitize_get.
  - apply sanitize_fixed; [apply sanitize_NoDup|]. apply Forall_forall.
    intros [k v]. apply sanitize_members.
Qed.

(** ** Commands *)

Lemma timezone_required_ok t u :
  timezone_required t = inr u -> aware t = true /\ u = astimezone_utc t.
Proof. unfold timezone_required. case_match; naive_solver. Qed.

Lemma astimezone_utc_idem t : astimezone_utc (astimezone_utc t) = astimezone_utc t.
Proof. unfold astimezone_utc. by rewrite instant_utc. Qed.

Lemma policy_consistency_id dump c c' : policy_consistency dump c = inr c' -> c' = c.
Proof. unfold policy_consistency. repeat case_match; naive_solver. Qed.

Lemma command_fields_normalised c t u :
  command_fields_ok (c <| requested_at := t |> <| deadline_at := u |>) = command_fields_ok c.
Proof. done. Qed.

(** C34. A command the contract accepts is the one submitted with its two times
    brought to UTC, the instants kept.  Its deadline follows the request by at
    most an hour, its model profile belongs to its command type, its
    serialised form fits 128 KiB, no input field has a privileged name in any
    case, and a CRM or voice command asks for approval.  Validating the
    accepted command again accepts it unchanged. *)
Theorem command_policy dump c0 c :
  validate_command dump c0 = inr c ->
  c = c0 <| requested_at := utc (instant (requested_at c0)) |>
         <| deadline_at := utc (instant (deadline_at c0)) |>
  /\ aware (requested_at c0) = true /\ aware (deadline_at c0) = true
  /\ command_fields_ok c = true
  /\ 0 < instant (deadline_at c) - instant (requested_at c) <= seconds 3600
  /\ profile (model_policy c) ∈ allowed_profiles (command_type c)
  /\ byte_len (dump c) <= 131072
  /\ (forall k v, (k, v) ∈ input c -> str_lower k ∉ forbidden_input_keys)
  /\ (command_type c ∈ [CRM; VOICE] -> approval_is_required (approval_policy c) = true)
  /\ validate_command dump c = inr c.
Proof.
  unfold validate_command.
  destruct (timezone_required (requested_at c0)) as [|t] eqn:Et; [done|].
  destruct (timezone_required (deadline_at c0)) as [|u] eqn:Eu; [done|].
  apply timezone_required_ok in Et as [At ->], Eu as [Au ->].
  destruct (command_fields_ok c0) eqn:Ef; [|done]. intros Hp.
  pose proof (policy_consistency_id _ _ _ Hp) as Ec.
  assert (Hagain : validate_command dump c = inr c).
  { rewrite <- Hp, Ec. unfold validate_command. cbn -[policy_consistency command_fields_ok].
    rewrite command_fields_normalised, Ef, !astimezone_utc_idem. done. }
  rewrite <- Ec in Hp. unfold policy_consistency in Hp.
  repeat (case_match; [done|]). bool_to_prop. unfold str_in in *. bool_to_prop.
  split_and!; try done; try lia.
  - by rewrite Ec, command_fields_normalised.
  - intros k v Hin Hbad. assert (Hx : existsb (fun kv => bool_decide (str_lower kv.1 ∈ forbidden_input_keys)) (input c) = true).
    { apply existsb_exists. exists (k, v). split; [by apply list_elem_of_In|].
      by apply bool_decide_eq_true. }
    congruence.
  - intros Hb. unfold is_business in *. destruct (approval_is_required _); [done|].
    rewrite bool_decide_eq_true_2 in * by done. done.
Qed.

(** A submission stamped in a zone two hours ahead of UTC. *)
Lemma command_policy_witness :
  validate_command (fun _ => "")
    ((demo_command 100%N "idem-key-0000000001" false)
       <| requested_at := Datetime (hours 2) (Some (hours 2)) |>)
  = inr (demo_command 100%N "idem-key-0000000001" false)
  /\ profile (model_policy (demo_command 100%N "idem-key-0000000001" false))
     ∈ allowed_profiles (command_type (demo_command 100%N "idem-key-0000000001" false)).
Proof.
  assert (H : validate_command (fun _ => "")
    ((demo_command 100%N "idem-key-0000000001" false)
       <| requested_at := Datetime (hours 2) (Some (hours 2)) |>)
    = inr (demo_command 100%N "idem-key-0000000001" false)) by (vm_compute; reflexivity).
  split; [exact H|].
  apply (command_policy (fun _ => "") _ _ H).
Defined.
