(* ===== verification/Machines.v ===== *)
(** * State machines given as transition tables

    Several parts of the service hold a life cycle as a dict from a state to
    the set of its successors.  Here is what such tables share: lookup,
    reachability by bounded search, and the two facts that make the search a
    decision procedure, that what it finds is reachable and that a set closed
    under the table contains whatever is reachable from inside it. *)

From S2P Require Import Prelude.
Local Open Scope string_scope.

Definition table := list (string * list string).

(** [TABLE.get(current, set())] *)
Definition successors (tb : table) (current : string) : list string :=
  match List.find (fun kv => bool_decide (kv.1 = current)) tb with
  | Some kv => kv.2
  | None => []
  end.

Section machine.
Context (tb : table).
Implicit Types s t : string.

Definition can_move s t : Prop := t ∈ successors tb s.

(** The states at most [fuel] moves from [l]. *)
Fixpoint explore (fuel : nat) (l : list string) : list string :=
  match fuel with
  | O => l
  | S n => explore n (remove_dups (l ++ (l ≫= successors tb)))
  end.

(** Every successor of a listed state is listed. *)
Definition closed (l : list string) : bool :=
  forallb (fun s => forallb (fun t => bool_decide (t ∈ l)) (successors tb s)) l.

Lemma explore_sound fuel l s :
  s ∈ explore fuel l -> exists s0, s0 ∈ l /\ rtc can_move s0 s.
Proof.
  revert l. induction fuel as [|n IH]; intros l Hs; cbn in Hs; [eauto using rtc_refl|].
  apply IH in Hs as (s1 & Hs1 & Hr). rewrite elem_of_remove_dups, elem_of_app in Hs1.
  destruct Hs1 as [?|Hs1]; [eauto|]. apply list_elem_of_bind in Hs1 as (s0 & Hm & Hs0).
  exists s0. split; [done|]. by eapply rtc_l.
Qed.

Lemma closed_spec l s t : closed l = true -> s ∈ l -> rtc can_move s t -> t ∈ l.
Proof.
  unfold closed. rewrite forallb_forall. intros Hc Hs Hr.
  induction Hr as [|s t u Hm _ IH]; [done|]. apply IH.
  apply list_elem_of_In, Hc in Hs. rewrite forallb_forall in Hs.
  apply list_elem_of_In, Hs in Hm. by apply bool_decide_eq_true in Hm.
Qed.

(** [s] is one of [l] for every state reachable from [start], as soon as the
    search from [start] is closed and stays inside [l]. *)
Definition all_within (fuel : nat) (start : string) (p : string -> bool) : bool :=
  let l := explore fuel [start] in
  bool_decide (start ∈ l) && closed l && forallb p l.

Lemma all_within_spec fuel start p s :
  all_within fuel start p = true -> rtc can_move start s -> p s = true.
Proof.
  unfold all_within. intros H Hr. bool_to_prop.
  assert (Hin : s ∈ explore fuel [start]) by by eapply closed_spec.
  match goal with H : forallb _ _ = true |- _ => rewrite forallb_forall in H; apply H end.
  by apply list_elem_of_In.
Qed.

(** A target can be reached from [s]. *)
Definition can_reach (fuel : nat) (targets : list string) (s : string) : bool :=
  existsb (fun t => bool_decide (t ∈ targets)) (explore fuel [s]).

Lemma can_reach_spec fuel targets s :
  can_reach fuel targets s = true -> exists t, t ∈ targets /\ rtc can_move s t.
Proof.
  unfold can_reach. rewrite existsb_exists. intros (t & Ht%list_elem_of_In & Hin).
  apply explore_sound in Ht as (s0 & ->%list_elem_of_singleton & Hr).
  exists t. split; [by apply bool_decide_eq_true in Hin|done].
Qed.
End machine.

(** The machine that never enters the states of [bad]. *)
Definition avoiding (tb : table) (bad : list string) : table :=
  (fun kv => (kv.1, List.filter (fun t => negb (bool_decide (t ∈ bad))) kv.2)) <$> tb.

Lemma successors_avoiding tb bad s :
  successors (avoiding tb bad) s
  = List.filter (fun t => negb (bool_decide (t ∈ bad))) (successors tb s).
Proof.
  unfold successors, avoiding. induction tb as [|[k l] tb IH]; cbn; [done|]. by case_bool_decide.
Qed.

Lemma can_move_avoiding tb bad s t :
  can_move tb s t -> t ∉ bad -> can_move (avoiding tb bad) s t.
Proof.
  unfold can_move. intros Hm Hb. rewrite successors_avoiding.
  apply list_elem_of_In, filter_In. split; [by apply list_elem_of_In|].
  by rewrite (bool_decide_eq_false_2 _ Hb).
Qed.
