(* ===== verification/Callbacks.v ===== *)
(** * Callback life cycle ([src/app/core/callbacks.py])

    The transition table, phone normalisation, the canonical time of a
    callback and its reminders, and the compliance gate. *)

From Stdlib Require Import Ascii.
From S2P Require Import Prelude PyText PyTime Txn Machines.
Local Open Scope string_scope.
Local Open Scope Z_scope.

Module Callbacks.

Definition TERMINAL : list string := ["COMPLETED"; "CANCELLED"].

Definition TRANSITIONS : table :=
  [("DRAFT", ["SCHEDULED"; "CANCELLED"; "BLOCKED_COMPLIANCE"]);
   ("SCHEDULED", ["REMINDER_PENDING"; "READY"; "DUE"; "SNOOZED"; "RESCHEDULED"; "CANCELLED";
                  "BLOCKED_COMPLIANCE"]);
   ("REMINDER_PENDING", ["READY"; "DUE"; "SNOOZED"; "RESCHEDULED"; "CANCELLED"; "FAILED"]);
   ("READY", ["DUE"; "SNOOZED"; "RESCHEDULED"; "CANCELLED"]);
   ("DUE", ["IN_PROGRESS"; "SNOOZED"; "RESCHEDULED"; "MISSED"; "CANCELLED"]);
   ("IN_PROGRESS", ["COMPLETED"; "FAILED"; "RESCHEDULED"]);
   ("SNOOZED", ["REMINDER_PENDING"; "READY"; "DUE"; "RESCHEDULED"; "CANCELLED"]);
   ("RESCHEDULED", ["REMINDER_PENDING"; "READY"; "DUE"; "SNOOZED"; "CANCELLED"]);
   ("MISSED", ["ESCALATED"; "IN_PROGRESS"; "RESCHEDULED"; "CANCELLED"]);
   ("ESCALATED", ["IN_PROGRESS"; "RESCHEDULED"; "CANCELLED"; "FAILED"]);
   ("FAILED", ["SCHEDULED"; "CANCELLED"]);
   ("BLOCKED_COMPLIANCE", ["SCHEDULED"; "CANCELLED"]);
   ("COMPLETED", []);
   ("CANCELLED", [])].

Definition transition (current target : string) : exn + unit :=
  if bool_decide (target ∈ successors TRANSITIONS current) then inr tt
  else inl (ValueError ("invalid callback transition " +:+ current +:+ " -> " +:+ target)).

(** [re.sub(r"\D", "", value)] on ASCII text. *)
Fixpoint digits_of (s : string) : string :=
  match s with
  | EmptyString => ""
  | String c s' => if is_digit c then String c (digits_of s') else digits_of s'
  end.

Definition normalized_phone (value : string) : exn + string :=
  let result := "+" +:+ digits_of value in
  let n := Z.of_nat (String.length result) in
  if (8 <=? n) && (n <=? 16) then inr result else inl (ValueError "invalid phone number").

(** The time-zone database: the UTC offset of a zone at an instant. *)
Definition zone_database := string -> option (Z -> Z).

Section zones.
Context (ZoneInfo : zone_database).

Definition canonical_time (value : datetime) (timezone : string) : exn + datetime :=
  match ZoneInfo timezone with
  | None => inl (ValueError "unknown customer timezone")
  | Some offset_at =>
      match utcoffset value with
      | None => inl (ValueError "scheduled_at must include UTC offset")
      | Some off =>
          if bool_decide (offset_at (instant value) = off) then inr (astimezone_utc value)
          else inl (ValueError "scheduled_at offset does not match customer_timezone")
      end
  end.
End zones.

Definition reminders (scheduled_at : datetime) : datetime * datetime * datetime :=
  (add_delta scheduled_at (- hours 24), add_delta scheduled_at (- hours 1),
   add_delta scheduled_at (- minutes 15)).

Definition compliance_state (consent dnc suppressed within_calling_hours campaign_allowed : bool) :
    string * list (string * bool) :=
  let checks := [("consent", consent); ("dnc_clear", negb dnc);
                 ("suppression_clear", negb suppressed); ("calling_hours", within_calling_hours);
                 ("campaign_allowed", campaign_allowed)] in
  ((if forallb snd checks then "SCHEDULED" else "BLOCKED_COMPLIANCE"), checks).

(** ** Facts *)

(** A sequence of transitions the code accepts. *)
Fixpoint run (current : string) (targets : list string) : exn + string :=
  match targets with
  | [] => inr current
  | t :: rest => match transition current t with inr _ => run t rest | inl e => inl e end
  end.

Lemma callback_run_reaches current targets final :
  run current targets = inr final -> rtc (can_move TRANSITIONS) current final.
Proof.
  revert current. induction targets as [|t rest IH]; intros current; cbn.
  - intros [= ->]. apply rtc_refl.
  - unfold transition. case_bool_decide as E; [|done]. intros Hr. eapply rtc_l; [exact E|]. by apply IH.
Qed.

(** A terminal state without successors, or a state from which one is near. *)
Definition live (s : string) : bool :=
  if bool_decide (s ∈ TERMINAL) then bool_decide (successors TRANSITIONS s = [])
  else can_reach TRANSITIONS 4 TERMINAL s.

(** A callback never gets stuck: after any sequence of transitions the code
    accepts from a draft, the callback is completed or cancelled, and then no
    further transition is accepted, or one of these two is still within
    reach. *)
Theorem callback_never_stuck targets current :
  run "DRAFT" targets = inr current ->
  (current ∈ TERMINAL /\ forall target, exists msg, transition current target = inl (ValueError msg))
  \/ (current ∉ TERMINAL /\ exists t, t ∈ TERMINAL /\ rtc (can_move TRANSITIONS) current t).
Proof.
  intros Hr%callback_run_reaches.
  assert (Hall : live current = true).
  { eapply (all_within_spec TRANSITIONS 8 "DRAFT"); [vm_compute; reflexivity|done]. }
  unfold live in Hall.
  case_bool_decide as Ht.
  - left. split; [done|]. intros target. unfold transition. apply bool_decide_eq_true in Hall.
    rewrite Hall, bool_decide_eq_false_2 by apply not_elem_of_nil. eauto.
  - right. split; [done|]. by eapply can_reach_spec.
Qed.

Lemma callback_never_stuck_witness :
  run "DRAFT" ["SCHEDULED"; "DUE"; "MISSED"; "ESCALATED"] = inr "ESCALATED"
  /\ ("ESCALATED" ∉ TERMINAL ->
      exists t, t ∈ TERMINAL /\ rtc (can_move TRANSITIONS) "ESCALATED" t).
Proof.
  split; [vm_compute; reflexivity|]. intros Hn.
  destruct (callback_never_stuck ["SCHEDULED"; "DUE"; "MISSED"; "ESCALATED"] "ESCALATED"
    ltac:(vm_compute; reflexivity)) as [[Ht _]|[_ H]]; [destruct (Hn Ht)|exact H].
Defined.

(** The canonical time of a callback is the same instant in UTC, accepted
    only when the offset the client sent is the one its time zone has at that
    instant; the three reminders fall twenty-four hours, one hour and fifteen
    minutes before it, in this order. *)
Theorem canonical_time_spec ZoneInfo value timezone u :
  canonical_time ZoneInfo value timezone = inr u ->
  utcoffset u = Some 0 /\ instant u = instant value
  /\ (exists offset_at, ZoneInfo timezone = Some offset_at
        /\ utcoffset value = Some (offset_at (instant u)))
  /\ let '(r1, r2, r3) := reminders u in
     instant r1 = instant u - 86400000000 /\ instant r2 = instant u - 3600000000
     /\ instant r3 = instant u - 900000000
     /\ instant r1 < instant r2 < instant r3 /\ instant r3 < instant u.
Proof.
  unfold canonical_time. destruct (ZoneInfo timezone) as [offset_at|]; [|done].
  destruct (utcoffset value) as [off|] eqn:Eo; [|done]. case_bool_decide as E; [|done].
  intros [= <-]. autorewrite with mw. split_and!; [done|done|by exists offset_at; rewrite E|].
  cbn. rewrite !instant_add_delta, instant_astimezone_utc. unfold hours, minutes, seconds. lia.
Qed.

(** A zone five hours behind UTC. *)
Definition demo_zones : zone_database :=
  fun name => if bool_decide (name = "America/Bogota") then Some (fun _ => - hours 5) else None.

Lemma canonical_time_spec_witness :
  canonical_time demo_zones (Datetime 0 (Some (- hours 5))) "America/Bogota"
  = inr (utc (hours 5)) /\ instant (utc (hours 5)) = instant (Datetime 0 (Some (- hours 5))).
Proof.
  split; [vm_compute; reflexivity|].
  apply (canonical_time_spec demo_zones (Datetime 0 (Some (- hours 5))) "America/Bogota"
    (utc (hours 5)) ltac:(vm_compute; reflexivity)).
Defined.
End Callbacks.
