(* ===== verification/Notifications.v ===== *)
(** * Notification policy and life cycle ([src/app/core/notifications.py])

    Commands and their validation, the state machine of a command, and the
    fail-closed policy decision. *)

From S2P Require Import Prelude PyText PyTime Sha256 Txn Machines.
Local Open Scope string_scope.
Local Open Scope Z_scope.

Module Notifications.

Inductive Channel := EMAIL | SMS.

Inductive Decision :=
  | ALLOW | DENY | APPROVAL_REQUIRED | CONSENT_MISSING | SUPPRESSED_ | QUIET_HOURS
  | RATE_LIMITED_ | COST_LIMITED_ | POLICY_STALE | FEATURE_DISABLED | SCOPE_MISMATCH
  | DESTINATION_PROHIBITED.

#[export] Instance Decision_eq_dec : EqDecision Decision.
Proof. solve_decision. Defined.

(** [CommandState] by value, and the two tables of the life cycle. *)
Definition TERMINAL_STATES : list string :=
  ["SUPPRESSED"; "RATE_LIMITED"; "COST_LIMITED"; "DELIVERED"; "BOUNCED"; "COMPLAINED";
   "UNSUBSCRIBED"; "UNDELIVERED"; "DEAD_LETTER"; "CANCELLED"; "EXPIRED"].

Definition ALLOWED_TRANSITIONS : table :=
  [("REQUESTED", ["VALIDATING"; "CANCELLED"]);
   ("VALIDATING", ["VALIDATED"; "FAILED"; "EXPIRED"]);
   ("VALIDATED", ["AUTHORIZING"]);
   ("AUTHORIZING", ["AUTHORIZED"; "SUPPRESSED"; "RATE_LIMITED"; "COST_LIMITED"; "FAILED"]);
   ("AUTHORIZED", ["RESERVED"; "CANCELLED"]);
   ("RESERVED", ["QUEUED"; "FAILED"]);
   ("QUEUED", ["DISPATCHING"; "CANCELLED"]);
   ("DISPATCHING", ["PROVIDER_ACCEPTED"; "RETRY_SCHEDULED"; "DEAD_LETTER"; "FAILED"]);
   ("PROVIDER_ACCEPTED", ["DELIVERED"; "DEFERRED"; "BOUNCED"; "COMPLAINED"; "UNSUBSCRIBED";
                          "UNDELIVERED"; "RECONCILIATION_REQUIRED"; "FAILED"]);
   ("DEFERRED", ["RETRY_SCHEDULED"; "DEAD_LETTER"; "FAILED"]);
   ("RETRY_SCHEDULED", ["QUEUED"; "DEAD_LETTER"]);
   ("FAILED", ["DEAD_LETTER"; "REPLAY_APPROVAL_REQUIRED"]);
   ("REPLAY_APPROVAL_REQUIRED", ["QUEUED"; "CANCELLED"]);
   ("RECONCILIATION_REQUIRED", ["DELIVERED"; "FAILED"])].

Definition validate_transition (current target : string) : exn + unit :=
  if (bool_decide (current ∈ TERMINAL_STATES)
      || negb (bool_decide (target ∈ successors ALLOWED_TRANSITIONS current)))%bool
  then inl (ValueError (current +:+ "->" +:+ target))
  else inr tt.

(** ** Commands *)

Inductive CommandType :=
  | EMAIL_SEND
  | EMAIL_CANCEL
  | EMAIL_SUPPRESS
  | SMS_SEND
  | SMS_CANCEL
  | SMS_SUPPRESS
  | NOTIFICATION_AUTHORIZE
  | NOTIFICATION_REJECT
  | WORKFLOW_PUBLISH
  | WORKFLOW_ACTIVATE
  | WORKFLOW_DEACTIVATE
  | EXTERNAL_EVENT_DELIVER
  | DEAD_LETTER_REPLAY
  | RECONCILIATION_RUN.

Definition command_type_value (t : CommandType) : string :=
  match t with
  | EMAIL_SEND => "email.send"
  | EMAIL_CANCEL => "email.cancel"
  | EMAIL_SUPPRESS => "email.suppress"
  | SMS_SEND => "sms.send"
  | SMS_CANCEL => "sms.cancel"
  | SMS_SUPPRESS => "sms.suppress"
  | NOTIFICATION_AUTHORIZE => "notification.authorize"
  | NOTIFICATION_REJECT => "notification.reject"
  | WORKFLOW_PUBLISH => "workflow.publish"
  | WORKFLOW_ACTIVATE => "workflow.activate"
  | WORKFLOW_DEACTIVATE => "workflow.deactivate"
  | EXTERNAL_EVENT_DELIVER => "external_event.deliver"
  | DEAD_LETTER_REPLAY => "dead_letter.replay"
  | RECONCILIATION_RUN => "reconciliation.run"
  end.

Definition channel_value (c : Channel) : string := match c with EMAIL => "EMAIL" | SMS => "SMS" end.

Record NotificationCommand := mkNotificationCommand {
  nc_schema_version : string;
  nc_command_id : string;
  nc_command_type : CommandType;
  nc_idempotency_key : string;
  nc_correlation_id : string;
  nc_causation_id : string;
  nc_organization_id : string;
  nc_business_unit_id : string;
  nc_campaign_id : string;
  nc_lead_id : string;
  nc_customer_id : string;
  nc_channel : Channel;
  nc_template_id : string;
  nc_template_version : Z;
  nc_sender_profile_id : string;
  nc_destination_token : string;
  nc_destination_classification : string;
  nc_consent_evidence_id : string;
  nc_suppression_version : string;
  nc_policy_version : string;
  nc_policy_hash : string;
  nc_requested_by : string;
  nc_approved_by : string;
  nc_requested_at : datetime;
  nc_not_before : datetime;
  nc_expires_at : datetime;
  nc_timezone : string;
  nc_quiet_hours_policy : string;
  nc_rate_limit_bucket : string;
  nc_cost_limit_bucket : string;
  nc_pii_classification : string;
  nc_payload_hash : string;
  nc_template_variables : list (string * json);
}.

(** [{name: value for name, value in vars(self).items() if isinstance(value, str)}];
    the members of the two string enumerations are strings. *)
Definition required_text (c : NotificationCommand) : list (string * string) :=
  [("schema_version", nc_schema_version c);
   ("command_id", nc_command_id c);
   ("command_type", command_type_value (nc_command_type c));
   ("idempotency_key", nc_idempotency_key c);
   ("correlation_id", nc_correlation_id c);
   ("causation_id", nc_causation_id c);
   ("organization_id", nc_organization_id c);
   ("business_unit_id", nc_business_unit_id c);
   ("campaign_id", nc_campaign_id c);
   ("lead_id", nc_lead_id c);
   ("customer_id", nc_customer_id c);
   ("channel", channel_value (nc_channel c));
   ("template_id", nc_template_id c);
   ("sender_profile_id", nc_sender_profile_id c);
   ("destination_token", nc_destination_token c);
   ("destination_classification", nc_destination_classification c);
   ("consent_evidence_id", nc_consent_evidence_id c);
   ("suppression_version", nc_suppression_version c);
   ("policy_version", nc_policy_version c);
   ("policy_hash", nc_policy_hash c);
   ("requested_by", nc_requested_by c);
   ("approved_by", nc_approved_by c);
   ("timezone", nc_timezone c);
   ("quiet_hours_policy", nc_quiet_hours_policy c);
   ("rate_limit_bucket", nc_rate_limit_bucket c);
   ("cost_limit_bucket", nc_cost_limit_bucket c);
   ("pii_classification", nc_pii_classification c);
   ("payload_hash", nc_payload_hash c)].

(** [a < b] and [a <= b] on datetimes: a naive and an aware one do not
    compare. *)
Definition comparable (a b : datetime) : bool := Bool.eqb (aware a) (aware b).
Definition compare_error : exn := TypeError "can't compare offset-naive and offset-aware datetimes".

Definition validate (c : NotificationCommand) : exn + unit :=
  let missing := sorted_strings
    (List.filter (fun kv => bool_decide (kv.2 = "")) (required_text c)).*1 in
  match missing with
  | _ :: _ => inl (ValueError ("missing required fields: " +:+ String.concat "," missing))
  | [] =>
      if nc_template_version c <? 1 then inl (ValueError "template_version must be positive")
      else if (negb (py_len (nc_policy_hash c) =? 64) || negb (py_len (nc_payload_hash c) =? 64))%bool
      then inl (ValueError "policy and payload hashes must be SHA-256")
      else if negb (comparable (nc_not_before c) (nc_requested_at c)) then inl compare_error
      else if instant (nc_not_before c) <? instant (nc_requested_at c)
      then inl (ValueError "not_before precedes requested_at")
      else if negb (comparable (nc_expires_at c) (nc_not_before c)) then inl compare_error
      else if instant (nc_expires_at c) <=? instant (nc_not_before c)
      then inl (ValueError "command expiration is not future")
      else inr tt
  end.

(** ** The policy decision *)

Record PolicyInput := mkPolicyInput {
  channel : Channel;
  organization_id : string;
  business_unit_id : string;
  campaign_id : string;
  sender_profile_id : string;
  destination_classification : string;
  purpose : string;
  policy_hash : string;
  current_policy_hash : string;
  consent_granted : bool;
  suppression_active : bool;
  feature_enabled : bool;
  scope_allowed : bool;
  sender_approved : bool;
  destination_allowed : bool;
  approval_present : bool;
  rate_remaining : Z;
  estimated_cost_minor : Z;
  cost_remaining_minor : Z;
  requested_at : datetime;
  expires_at : datetime;
  quiet_hours_start : option Z;
  quiet_hours_end : option Z;
}.

Definition _inside_quiet_hours (current : Z) (start end_ : option Z) : bool :=
  match start, end_ with
  | Some s, Some e =>
      if s =? e then true
      else if s <? e then (s <=? current) && (current <? e)
      else (s <=? current) || (current <? e)
  | _, _ => false
  end.

(** [local] is the offset [astimezone] assumes for a naive datetime, that of
    the host. *)
Definition to_utc (local : Z) (t : datetime) : datetime :=
  utc (wall t - coalesce (utcoffset t) local).

Definition evaluate_policy (local : Z) (value : PolicyInput) : Decision :=
  let now := to_utc local (requested_at value) in
  if instant (to_utc local (expires_at value)) <=? instant now then DENY
  else if negb (feature_enabled value) then FEATURE_DISABLED
  else if negb (scope_allowed value) then SCOPE_MISMATCH
  else if negb (bool_decide (policy_hash value = current_policy_hash value)) then POLICY_STALE
  else if negb (approval_present value) then APPROVAL_REQUIRED
  else if negb (consent_granted value) then CONSENT_MISSING
  else if suppression_active value then SUPPRESSED_
  else if (negb (sender_approved value) || negb (destination_allowed value))%bool
       then DESTINATION_PROHIBITED
  else if rate_remaining value <? 1 then RATE_LIMITED_
  else if ((estimated_cost_minor value <? 0)
           || (cost_remaining_minor value <? estimated_cost_minor value))%bool then COST_LIMITED_
  else if _inside_quiet_hours (time_of_day now) (quiet_hours_start value) (quiet_hours_end value)
       then QUIET_HOURS
  else ALLOW.

Definition payload_digest (payload : string) : string := sha256_hex payload.

Definition can_dispatch (channel : Channel) (allow_live dispatcher_enabled : bool) : bool :=
  match channel with EMAIL | SMS => true end && allow_live && dispatcher_enabled.

(** ** Theorems *)

Lemma quiet_hours_cycle current s e :
  is_time current -> is_time s -> is_time e ->
  _inside_quiet_hours current (Some s) (Some e) = bool_decide (s = e) || in_cycle current s e.
Proof.
  intros Hc Hs He. cbn. destruct (Z.eqb_spec s e) as [->|Hne].
  - by rewrite bool_decide_eq_true_2.
  - rewrite bool_decide_eq_false_2 by done. cbn. by rewrite in_cycle_direct.
Qed.

(** The policy is fail-closed: a notification is allowed only when every
    condition holds at once: it has not expired, the feature is on, the scope,
    the policy version, the approval, the consent, the sender and the
    destination are all right, no suppression is active, rate and cost budgets
    suffice, and, when quiet hours are configured, the time of day in UTC is
    outside their cyclic interval, which is the whole day when both ends
    agree. *)
Theorem notification_allowed_iff local v :
  (forall t, quiet_hours_start v = Some t \/ quiet_hours_end v = Some t -> is_time t) ->
  evaluate_policy local v = ALLOW <->
  instant (to_utc local (requested_at v)) < instant (to_utc local (expires_at v))
  /\ feature_enabled v = true /\ scope_allowed v = true
  /\ policy_hash v = current_policy_hash v /\ approval_present v = true
  /\ consent_granted v = true /\ suppression_active v = false
  /\ sender_approved v = true /\ destination_allowed v = true
  /\ 1 <= rate_remaining v /\ 0 <= estimated_cost_minor v <= cost_remaining_minor v
  /\ (forall s e, quiet_hours_start v = Some s -> quiet_hours_end v = Some e ->
        s <> e /\ in_cycle (time_of_day (to_utc local (requested_at v))) s e = false).
Proof.
  intros Hq. unfold evaluate_policy. set (now := to_utc local (requested_at v)).
  assert (Hquiet : _inside_quiet_hours (time_of_day now) (quiet_hours_start v) (quiet_hours_end v)
      = false <->
      forall s e, quiet_hours_start v = Some s -> quiet_hours_end v = Some e ->
        s <> e /\ in_cycle (time_of_day now) s e = false).
  { destruct (quiet_hours_start v) as [s|], (quiet_hours_end v) as [e|]; try (split; [done|done]).
    rewrite quiet_hours_cycle; [|apply time_of_day_range|apply Hq; auto|apply Hq; auto].
    rewrite orb_false_iff, bool_decide_eq_false. naive_solver. }
  rewrite <- Hquiet. clear Hquiet Hq. split.
  - repeat case_match; intros; try discriminate; bool_to_prop. split_and!; done || lia.
  - intros (Hx & -> & -> & -> & -> & -> & -> & -> & -> & Hr & Hc & ->). cbn.
    rewrite (proj2 (Z.leb_gt _ _)), bool_decide_eq_true_2 by done. cbn.
    rewrite !(proj2 (Z.ltb_ge _ _)) by lia. done.
Qed.

(** Noon, with quiet hours from ten in the evening to seven. *)
Definition demo_input : PolicyInput :=
  mkPolicyInput SMS "org" "unit" "campaign" "sender" "customer" "service" "h1" "h1" true false true true true true true 1 5 10
    (utc (hours 12)) (utc (hours 13)) (Some (hours 22)) (Some (hours 7)).

Lemma notification_allowed_iff_witness :
  evaluate_policy 0 demo_input = ALLOW /\ 1 <= rate_remaining demo_input.
Proof.
  split; [vm_compute; reflexivity|].
  apply (notification_allowed_iff 0 demo_input); [|vm_compute; reflexivity].
  intros t [E|E]; cbn in E; injection E as <-; split; vm_compute; congruence.
Defined.

(** ** The life cycle *)

Fixpoint run (current : string) (targets : list string) : exn + string :=
  match targets with
  | [] => inr current
  | t :: rest => match validate_transition current t with inr _ => run t rest | inl e => inl e end
  end.

Lemma validate_transition_moves current target :
  validate_transition current target = inr tt <->
  current ∉ TERMINAL_STATES /\ can_move ALLOWED_TRANSITIONS current target.
Proof.
  unfold validate_transition, can_move. repeat case_bool_decide; cbn; naive_solver.
Qed.

Lemma notification_run_reaches current targets final :
  run current targets = inr final -> rtc (can_move ALLOWED_TRANSITIONS) current final.
Proof.
  revert current. induction targets as [|t rest IH]; intros current; cbn.
  - intros [= ->]. apply rtc_refl.
  - destruct (validate_transition current t) as [|[]] eqn:E; [done|].
    apply validate_transition_moves in E as [_ Hm]. intros Hr. eapply rtc_l; eauto.
Qed.

(** Terminal and without successors, or near a terminal state. *)
Definition live (s : string) : bool :=
  if bool_decide (s ∈ TERMINAL_STATES) then bool_decide (successors ALLOWED_TRANSITIONS s = [])
  else can_reach ALLOWED_TRANSITIONS 4 TERMINAL_STATES s.

(** A notification command always can be brought to an end: whatever
    transitions the code accepted since the request, the command is in a
    terminal state, which nothing leaves, or a terminal state is within
    reach. *)
Theorem notification_never_stuck targets current :
  run "REQUESTED" targets = inr current ->
  (current ∈ TERMINAL_STATES /\ forall t, validate_transition current t <> inr tt)
  \/ exists t, t ∈ TERMINAL_STATES /\ rtc (can_move ALLOWED_TRANSITIONS) current t.
Proof.
  intros Hr%notification_run_reaches.
  assert (Hl : live current = true).
  { eapply (all_within_spec ALLOWED_TRANSITIONS 12 "REQUESTED"); [vm_compute; reflexivity|done]. }
  unfold live in Hl. case_bool_decide as Ht.
  - left. split; [done|]. intros t [Hn _]%validate_transition_moves. done.
  - right. by eapply can_reach_spec.
Qed.

Lemma notification_never_stuck_witness :
  exists t, t ∈ TERMINAL_STATES /\ rtc (can_move ALLOWED_TRANSITIONS) "QUEUED" t.
Proof.
  destruct (notification_never_stuck
    ["VALIDATING"; "VALIDATED"; "AUTHORIZING"; "AUTHORIZED"; "RESERVED"; "QUEUED"] "QUEUED"
    ltac:(vm_compute; reflexivity)) as [[Ht _]|H]; [|exact H].
  exfalso. revert Ht. apply (bool_decide_unpack ("QUEUED" ∉ TERMINAL_STATES)). vm_compute. exact I.
Defined.

(** A run that enters no state of [bad] is a run of the machine without them. *)
Lemma run_avoiding bad current targets final :
  run current targets = inr final -> (forall t, t ∈ bad -> t ∉ targets) ->
  rtc (can_move (avoiding ALLOWED_TRANSITIONS bad)) current final.
Proof.
  revert current. induction targets as [|t rest IH]; intros current; cbn [run].
  - intros [= ->] _. apply rtc_refl.
  - destruct (validate_transition current t) as [|[]] eqn:E; [done|].
    apply validate_transition_moves in E as [_ Hm]. intros Hr Hb.
    apply rtc_l with t.
    + apply can_move_avoiding; [exact Hm|]. intros Hin. apply (Hb t Hin). by left.
    + apply IH; [exact Hr|]. intros u Hin Hu. apply (Hb u Hin). by right.
Qed.

(** Dispatching takes every one of [gates], unless the way through [other] is
    taken. *)
Lemma dispatch_gate gate other targets :
  run "REQUESTED" targets = inr "DISPATCHING" ->
  all_within (avoiding ALLOWED_TRANSITIONS [gate; other]) 14 "REQUESTED"
    (fun s => negb (bool_decide (s = "DISPATCHING"))) = true ->
  gate ∈ targets \/ other ∈ targets.
Proof.
  intros Hr Hw. pose proof (all_within_spec _ _ _ _ "DISPATCHING" Hw) as Hp. clear Hw.
  cbv beta in Hp. rewrite bool_decide_eq_true_2 in Hp by reflexivity.
  destruct (decide (gate ∈ targets)) as [|Hg]; [by left|].
  destruct (decide (other ∈ targets)) as [|Ho]; [by right|]. discriminate Hp.
  apply run_avoiding with targets; [exact Hr|].
  by intros t [->|[->|[]%elem_of_nil]%elem_of_cons]%elem_of_cons.
Qed.

(** Nothing is dispatched without permission: every sequence of accepted
    transitions that brings a command from its request to dispatching went
    through validation, authorisation and the reservation of its budget, or
    through the replay approval.  The replay approval alone suffices: a command
    that failed its validation can be dispatched through it without ever being
    authorised. *)
Theorem dispatch_needs_permission targets :
  run "REQUESTED" targets = inr "DISPATCHING" ->
  (("VALIDATED" ∈ targets /\ "AUTHORIZED" ∈ targets /\ "RESERVED" ∈ targets)
   \/ "REPLAY_APPROVAL_REQUIRED" ∈ targets)
  /\ run "REQUESTED" ["VALIDATING"; "FAILED"; "REPLAY_APPROVAL_REQUIRED"; "QUEUED"; "DISPATCHING"]
     = inr "DISPATCHING".
Proof.
  intros Hr. split; [|vm_compute; reflexivity].
  pose proof (fun g => dispatch_gate g "REPLAY_APPROVAL_REQUIRED" targets Hr) as Hg.
  destruct (Hg "VALIDATED") as [|]; [vm_compute; reflexivity| |by right].
  destruct (Hg "AUTHORIZED") as [|]; [vm_compute; reflexivity| |by right].
  destruct (Hg "RESERVED") as [|]; [vm_compute; reflexivity| |by right].
  by left.
Qed.

Lemma dispatch_needs_permission_witness :
  "AUTHORIZED" ∈ ["VALIDATING"; "VALIDATED"; "AUTHORIZING"; "AUTHORIZED"; "RESERVED"; "QUEUED";
                  "DISPATCHING"].
Proof.
  destruct (dispatch_needs_permission
    ["VALIDATING"; "VALIDATED"; "AUTHORIZING"; "AUTHORIZED"; "RESERVED"; "QUEUED"; "DISPATCHING"]
    ltac:(vm_compute; reflexivity)) as [[(_ & Ha & _)|Hbad] _]; [exact Ha|].
  exfalso. revert Hbad. apply (bool_decide_unpack (_ ∉ _)). vm_compute. exact I.
Defined.
End Notifications.
