(* ===== verification/PolicyEngine.v ===== *)
(** * The contact policy evaluator ([src/app/core/policy_engine.py])

    Every check of [evaluate], in its order, and what an [allow] guarantees. *)

From S2P Require Import Prelude PyText PyTime Txn.
Local Open Scope string_scope.
Local Open Scope Z_scope.

Module PolicyEngine.

Definition POLICY_VERSION : string := "2026-07-26.1".
Definition MAX_FRESHNESS : Z := hours 24.

Inductive DecisionAction := voice | sms | email | callback | transfer | recording | sync.

#[export] Instance DecisionAction_eq_dec : EqDecision DecisionAction.
Proof. solve_decision. Defined.

Definition action_text (a : DecisionAction) : string :=
  match a with
  | voice => "voice" | sms => "sms" | email => "email" | callback => "callback"
  | transfer => "transfer" | recording => "recording" | sync => "sync"
  end.

Record PolicyRequest := mkPolicyRequest {
  correlation_id : string;
  action : DecisionAction;
  subject : string;
  resource : string;
  environment : option string;
  evaluated_at : option datetime;
  consent_allowed : option bool;
  consent_observed_at : option datetime;
  dnc_suppressed : option bool;
  dnc_observed_at : option datetime;
  customer_timezone : option string;
  jurisdiction : option string;
  calling_window_start : option Z;
  calling_window_end : option Z;
  attempts : option Z;
  max_attempts : option Z;
  last_attempt_at : option datetime;
  minimum_spacing_seconds : option Z;
  channel_eligible : option bool;
  business_unit : option string;
  allowed_business_units : option (list string);
  campaign : option string;
  allowed_campaigns : option (list string);
  agent : option string;
  allowed_agents : option (list string);
  callback_allowed : option bool;
  transfer_allowed : option bool;
  recording_required : option bool;
  disclosure_present : option bool;
  emergency_kill_switch : option bool;
  shadow_mode : bool;
}.
#[export] Instance PolicyRequest_eta : Eta PolicyRequest := fun r =>
  mkPolicyRequest (correlation_id r) (action r) (subject r) (resource r) (environment r)
    (evaluated_at r) (consent_allowed r) (consent_observed_at r) (dnc_suppressed r)
    (dnc_observed_at r) (customer_timezone r) (jurisdiction r) (calling_window_start r)
    (calling_window_end r) (attempts r) (max_attempts r) (last_attempt_at r)
    (minimum_spacing_seconds r) (channel_eligible r) (business_unit r)
    (allowed_business_units r) (campaign r) (allowed_campaigns r) (agent r) (allowed_agents r)
    (callback_allowed r) (transfer_allowed r) (recording_required r) (disclosure_present r)
    (emergency_kill_switch r) (shadow_mode r).

(** An entry of [data_freshness]: an age in seconds, the word [missing], or
    the local time, whose ISO text is left to its printer. *)
Inductive freshness := age_seconds (n : Z) | missing | local_time (t : datetime).

Record PolicyResult := mkPolicyResult {
  decision_id : string;
  policy_version : string;
  r_correlation_id : string;
  r_action : DecisionAction;
  r_subject : string;
  r_resource : string;
  allow : bool;
  enforced : bool;
  reason_codes : list string;
  data_freshness : list (string * freshness);
  r_evaluated_at : datetime;
  expiration : datetime;
}.

Definition _aware (value : option datetime) : bool :=
  match value with Some t => aware t | None => false end.

Definition _in_window (current start end_ : Z) : bool :=
  if start =? end_ then false
  else if start <? end_ then (start <=? current) && (current <? end_)
  else (start <=? current) || (current <? end_).

Section evaluate.
Context (ZoneInfo : string -> zone).

Definition unless (ok : bool) (reason : string) : list string := if ok then [] else [reason].

(** A check on an optional flag: [x is True], [x is False], [x is not True]. *)
Definition is_true (x : option bool) : bool := bool_decide (x = Some true).
Definition is_false (x : option bool) : bool := bool_decide (x = Some false).

Definition present {A} (x : option A) : bool := negb (is_null x).

(** The [required] table. *)
Definition missing_reasons (request : PolicyRequest) : list string :=
  unless (present (consent_allowed request) && present (consent_observed_at request))
    "missing_consent_data"
  ++ unless (present (dnc_suppressed request) && present (dnc_observed_at request))
       "missing_dnc_data"
  ++ unless (present (customer_timezone request)) "missing_timezone_data"
  ++ unless (present (jurisdiction request)) "missing_jurisdiction_data"
  ++ unless (present (channel_eligible request)) "missing_channel_data"
  ++ unless (present (business_unit request) && present (allowed_business_units request))
       "missing_business_unit_data"
  ++ unless (present (campaign request) && present (allowed_campaigns request))
       "missing_campaign_data"
  ++ unless (present (agent request) && present (allowed_agents request)) "missing_agent_data"
  ++ unless (present (emergency_kill_switch request)) "missing_kill_switch_data".

(** One turn of the freshness loop: the entry and the reasons. *)
Definition freshness_of (now : datetime) (name : string) (observed : option datetime) :
    freshness * list string :=
  match observed with
  | Some o =>
      if aware o then
        let age := instant now - instant o in
        (age_seconds (Z.max 0 (age ÷ 1000000)),
         unless (negb ((age <? 0) || (MAX_FRESHNESS <? age))) ("stale_" +:+ name +:+ "_data"))
      else (missing, [])
  | None => (missing, [])
  end.

(** [x is not None and l is not None and x not in l] *)
Definition outside (x : option string) (l : option (list string)) : bool :=
  match x, l with Some v, Some l => negb (bool_decide (v ∈ l)) | _, _ => false end.

Definition denial_reasons (request : PolicyRequest) : list string :=
  unless (negb (is_true (emergency_kill_switch request))) "emergency_kill_switch"
  ++ unless (negb (is_false (consent_allowed request))) "consent_denied"
  ++ unless (negb (is_true (dnc_suppressed request))) "dnc_suppressed"
  ++ unless (negb (is_false (channel_eligible request)))
       (action_text (action request) +:+ "_ineligible")
  ++ unless (negb (outside (business_unit request) (allowed_business_units request)))
       "business_unit_denied"
  ++ unless (negb (outside (campaign request) (allowed_campaigns request))) "campaign_denied"
  ++ unless (negb (outside (agent request) (allowed_agents request))) "agent_denied"
  ++ unless (negb (bool_decide (action request = callback))
             || is_true (callback_allowed request)) "callback_denied"
  ++ unless (negb (bool_decide (action request = transfer))
             || is_true (transfer_allowed request)) "transfer_denied"
  ++ unless (negb (bool_decide (action request = recording)
                   && is_true (recording_required request)
                   && negb (is_true (disclosure_present request)))) "recording_disclosure_missing".

Definition attempt_reasons (now : datetime) (request : PolicyRequest) : list string :=
  match attempts request, max_attempts request with
  | Some n, Some m => unless (negb (m <=? n)) "attempt_limit_reached"
  | _, _ => ["missing_attempt_limit_data"]
  end
  ++ match minimum_spacing_seconds request, last_attempt_at request with
     | None, _ => ["missing_attempt_spacing_data"]
     | Some _, None => []
     | Some spacing, Some last =>
         if negb (aware last) then ["invalid_last_attempt_time"]
         else unless (negb (instant now - instant last <? seconds spacing))
                "minimum_attempt_spacing"
     end.

Definition calling_hours (now : datetime) (request : PolicyRequest) :
    exn + list (string * freshness) * list string :=
  let missing_window :=
    unless (present (calling_window_start request) && present (calling_window_end request))
      "missing_calling_hours_data" in
  match customer_timezone request with
  | None | Some "" => inr ([], missing_window)
  | Some tz =>
      match ZoneInfo tz with
      | zone_bad_key => inl (ValueError "ZoneInfo keys must be normalized relative paths")
      | zone_not_found => inr ([], app missing_window ["invalid_customer_timezone"])
      | zone_found offset_at =>
          let local := in_zone offset_at now in
          inr ([("local_time", local_time local)],
               app missing_window
               match calling_window_start request, calling_window_end request with
               | Some s, Some e =>
                   unless (_in_window (time_of_day local) s e) "outside_calling_hours"
               | _, _ => []
               end)
      end
  end.

(** [now_utc] is the reading of [datetime.now(timezone.utc)], [id] that of
    [uuid4()]. *)
Definition evaluate (now_utc : Z) (id : uuid) (request : PolicyRequest) : exn + PolicyResult :=
  let given := match evaluated_at request with Some t => t | None => utc now_utc end in
  let now := if _aware (Some given) then given else Datetime (wall given) (Some 0) in
  let consent := freshness_of now "consent" (consent_observed_at request) in
  let dnc := freshness_of now "dnc" (dnc_observed_at request) in
  match calling_hours now request with
  | inl e => inl e
  | inr (local_fresh, hours_reasons) =>
      let reasons := (missing_reasons request ++ consent.2 ++ dnc.2 ++ denial_reasons request
                      ++ attempt_reasons now request ++ hours_reasons)%list in
      inr {| decision_id := uuid_str id;
             policy_version := POLICY_VERSION;
             r_correlation_id := correlation_id request;
             r_action := action request;
             r_subject := subject request;
             r_resource := resource request;
             allow := bool_decide (reasons = []);
             enforced := negb (shadow_mode request);
             reason_codes := match reasons with [] => ["allowed"] | _ => reasons end;
             data_freshness := ([("consent", consent.1); ("dnc", dnc.1)] ++ local_fresh)%list;
             r_evaluated_at := now;
             expiration := add_delta now (minutes 5) |}
  end.

(** ** Facts *)

Lemma unless_nil b reason : unless b reason = [] <-> b = true.
Proof. by destruct b. Qed.

Definition evaluated_now (now_utc : Z) (request : PolicyRequest) : datetime :=
  let given := match evaluated_at request with Some t => t | None => utc now_utc end in
  if aware given then given else Datetime (wall given) (Some 0).

(** The verdict, as the emptiness of each group of reasons. *)
Definition allowed (now_utc : Z) (id : uuid) (request : PolicyRequest) : Prop :=
  exists res, evaluate now_utc id request = inr res /\ allow res = true.

Lemma allowed_iff now_utc id request :
  allowed now_utc id request <->
  let now := evaluated_now now_utc request in
  missing_reasons request = []
  /\ (freshness_of now "consent" (consent_observed_at request)).2 = []
  /\ (freshness_of now "dnc" (dnc_observed_at request)).2 = []
  /\ denial_reasons request = [] /\ attempt_reasons now request = []
  /\ exists fresh, calling_hours now request = inr (fresh, []).
Proof.
  unfold allowed, evaluate. fold (evaluated_now now_utc request).
  change (_aware (Some ?g)) with (aware g).
  fold (evaluated_now now_utc request). cbv zeta.
  destruct (calling_hours _ request) as [e|[fresh hrs]]; [naive_solver|].
  split.
  - intros (res & [= <-] & Ha). cbn in Ha. apply bool_decide_eq_true in Ha.
    rewrite !app_nil in Ha. destruct_and!. subst. eauto 10.
  - intros (H1 & H2 & H3 & H4 & H5 & f & [= -> ->]). eexists. split; [done|]. cbn.
    apply bool_decide_eq_true. rewrite !app_nil. done.
Qed.

Lemma in_window_cycle current s e :
  is_time current -> is_time s -> is_time e -> _in_window current s e = in_cycle current s e.
Proof.
  intros Hc Hs He. unfold _in_window. destruct (Z.eqb_spec s e) as [->|]; [|by rewrite in_cycle_direct].
  unfold in_cycle. rewrite Z.sub_diag, Zmod_0_l. symmetry. apply Z.ltb_ge, Z.mod_pos_bound. done.
Qed.

Lemma present_spec {A} (x : option A) : present x = true <-> is_Some x.
Proof. unfold present. rewrite negb_true_iff. apply is_null_false. Qed.

Lemma not_outside x l :
  is_Some x -> is_Some l -> negb (outside x l) = true <-> exists v l', x = Some v /\ l = Some l' /\ v ∈ l'.
Proof.
  intros [v ->] [l' ->]. cbn. rewrite negb_involutive, bool_decide_eq_true.
  split; [by exists v, l'|]. intros (? & ? & [= <-] & [= <-] & ?). done.
Qed.

(** An observation that the freshness test accepts: without a time zone it is
    not looked at. *)
Definition fresh_or_naive (now : datetime) (o : option datetime) : Prop :=
  forall t, o = Some t -> aware t = true -> 0 <= instant now - instant t <= hours 24.

Lemma fresh_iff now name o : (freshness_of now name o).2 = [] <-> fresh_or_naive now o.
Proof.
  unfold fresh_or_naive, freshness_of. destruct o as [t|]; [|by split].
  destruct (aware t) eqn:Ht; cbn; [|split; [|done]; intros _ ? [= <-]; congruence].
  rewrite unless_nil, negb_true_iff, orb_false_iff, Z.ltb_ge, Z.ltb_ge. unfold MAX_FRESHNESS.
  split; [intros [? ?] ? [= <-] _; lia|]. intros Hf. specialize (Hf t eq_refl Ht). lia.
Qed.

(** ** The declarative rule *)

Record switches_set (r : PolicyRequest) : Prop := mkSwitches {
  sw_kill : emergency_kill_switch r = Some false;
  sw_consent : consent_allowed r = Some true;
  sw_dnc : dnc_suppressed r = Some false;
  sw_channel : channel_eligible r = Some true;
  sw_callback : action r = callback -> callback_allowed r = Some true;
  sw_transfer : action r = transfer -> transfer_allowed r = Some true;
  sw_recording : action r = recording -> recording_required r = Some true -> disclosure_present r = Some true;
}.

(** A value of the request that is on the list the request carries. *)
Definition listed (x : option string) (l : option (list string)) : Prop :=
  exists v l', x = Some v /\ l = Some l' /\ v ∈ l'.

Record attempts_left (now : datetime) (r : PolicyRequest) : Prop := mkAttempts {
  al_count : exists n m, attempts r = Some n /\ max_attempts r = Some m /\ n < m;
  al_spacing : exists sp, minimum_spacing_seconds r = Some sp
    /\ forall last, last_attempt_at r = Some last -> aware last = true /\ seconds sp <= instant now - instant last;
}.

(** The window is given; in a time zone with a name the local time is in it. *)
Definition in_hours (now : datetime) (r : PolicyRequest) : Prop :=
  exists s e, calling_window_start r = Some s /\ calling_window_end r = Some e
  /\ forall tz, customer_timezone r = Some tz -> tz <> "" ->
       exists offset_at, ZoneInfo tz = zone_found offset_at
         /\ in_cycle (time_of_day (in_zone offset_at now)) s e = true.

Record contact_permitted (now : datetime) (r : PolicyRequest) : Prop := mkPermitted {
  cp_switches : switches_set r;
  cp_observed : is_Some (consent_observed_at r) /\ is_Some (dnc_observed_at r);
  cp_fresh : fresh_or_naive now (consent_observed_at r) /\ fresh_or_naive now (dnc_observed_at r);
  cp_place : is_Some (customer_timezone r) /\ is_Some (jurisdiction r);
  cp_unit : listed (business_unit r) (allowed_business_units r);
  cp_campaign : listed (campaign r) (allowed_campaigns r);
  cp_agent : listed (agent r) (allowed_agents r);
  cp_attempts : attempts_left now r;
  cp_hours : in_hours now r;
}.

Lemma attempts_left_iff now r : attempt_reasons now r = [] <-> attempts_left now r.
Proof.
  unfold attempt_reasons. rewrite app_nil. split.
  - intros [H1 H2]. split.
    + destruct (attempts r) as [n|], (max_attempts r) as [m|]; try done.
      rewrite unless_nil in H1. bool_to_prop. exists n, m. split_and!; [done..|lia].
    + destruct (minimum_spacing_seconds r) as [sp|]; [|done]. exists sp. split; [done|].
      intros last Hl. rewrite Hl in H2. destruct (aware last); [|done]. cbn in H2. rewrite unless_nil in H2.
      bool_to_prop. split; [done|lia].
  - intros [(n & m & -> & -> & Hlt) (sp & -> & Hsp)]. split.
    + apply unless_nil. by apply negb_true_iff, Z.leb_gt.
    + destruct (last_attempt_at r) as [last|]; [|done]. destruct (Hsp last eq_refl) as [-> Hle]. cbn.
      apply unless_nil. by apply negb_true_iff, Z.ltb_ge.
Qed.

Lemma hours_checked_iff now r :
  is_Some (customer_timezone r) ->
  (forall t, calling_window_start r = Some t \/ calling_window_end r = Some t -> is_time t) ->
  (exists fresh, calling_hours now r = inr (fresh, [])) <-> in_hours now r.
Proof.
  intros [tz Htz] Hw. unfold calling_hours, in_hours. rewrite Htz.
  assert (Hgiven : unless (present (calling_window_start r) && present (calling_window_end r))
      "missing_calling_hours_data" = [] <->
    exists s e, calling_window_start r = Some s /\ calling_window_end r = Some e).
  { rewrite unless_nil, andb_true_iff, !present_spec. unfold is_Some. split; [intros [[s Hs] [e He]]; eauto|].
    intros (s & e & Hs & He). eauto. }
  destruct tz as [|c tz'].
  - split; [intros (fresh & [= _ Hm])|intros (s & e & Hs & He & _)].
    + apply Hgiven in Hm as (s & e & Hs & He). exists s, e. split_and!; [done..|]. by intros ? [= <-].
    + exists []. do 2 f_equal. apply Hgiven. eauto.
  - destruct (ZoneInfo _) as [offset_at| |] eqn:Ez.
    + split; [intros (fresh & [= _ Hm])|intros (s & e & Hs & He & Hin)].
      * apply app_nil in Hm as [Hg Hm]. apply Hgiven in Hg as (s & e & Hs & He). exists s, e.
        split_and!; [done..|]. intros ? [= <-] _. exists offset_at. split; [done|].
        rewrite Hs, He, unless_nil in Hm. rewrite <- in_window_cycle; [done|apply time_of_day_range|auto..].
      * eexists. do 2 f_equal. apply app_nil. split; [apply Hgiven; eauto|]. rewrite Hs, He. apply unless_nil.
        rewrite in_window_cycle; [|apply time_of_day_range|auto..].
        destruct (Hin _ eq_refl ltac:(done)) as (off & E & ?). by rewrite Ez in E; injection E as ->.
    + split; [intros (fresh & [= _ Hm]); by apply app_nil in Hm as [_ ?]|].
      intros (s & e & _ & _ & Hin). destruct (Hin _ eq_refl ltac:(done)) as (off & E & _). congruence.
    + split; [by intros (? & ?)|].
      intros (s & e & _ & _ & Hin). destruct (Hin _ eq_refl ltac:(done)) as (off & E & _). congruence.
Qed.

Lemma not_true x : is_Some x -> is_true x = false <-> x = Some false.
Proof. intros [[] ->]; by split. Qed.
Lemma not_false x : is_Some x -> is_false x = false <-> x = Some true.
Proof. intros [[] ->]; by split. Qed.
Lemma switch_needed a b x :
  (negb (bool_decide (a = b)) || is_true x) = true <-> ((a : DecisionAction) = b -> x = Some true).
Proof. unfold is_true. case_bool_decide; cbn; [rewrite bool_decide_eq_true; tauto|by split]. Qed.
Lemma disclosure_needed a b x y :
  negb (bool_decide (a = b) && is_true x && negb (is_true y)) = true
  <-> ((a : DecisionAction) = b -> x = Some true -> y = Some true).
Proof.
  unfold is_true. do 3 case_bool_decide; cbn; (split; [intros; try done; tauto|intros; try done; exfalso; tauto]).
Qed.

Lemma switches_iff r :
  is_Some (consent_allowed r) -> is_Some (dnc_suppressed r) -> is_Some (channel_eligible r) ->
  is_Some (emergency_kill_switch r) ->
  switches_set r <->
  is_true (emergency_kill_switch r) = false /\ is_false (consent_allowed r) = false
  /\ is_true (dnc_suppressed r) = false /\ is_false (channel_eligible r) = false
  /\ (negb (bool_decide (action r = callback)) || is_true (callback_allowed r)) = true
  /\ (negb (bool_decide (action r = transfer)) || is_true (transfer_allowed r)) = true
  /\ negb (bool_decide (action r = recording) && is_true (recording_required r)
           && negb (is_true (disclosure_present r))) = true.
Proof.
  intros Hc Hd Hh Hk. rewrite !not_true, !not_false, !switch_needed, disclosure_needed by done.
  split; [by intros []|]. intros (? & ? & ? & ? & ? & ? & ?). by split.
Qed.
End evaluate.

(** C40. The engine decides exactly the rule: a contact is allowed if and only if
    the emergency switch is off, consent is given, the contact is not
    suppressed, the channel is eligible and, for a callback, a transfer or a
    recording that needs a disclosure, its own switch is on; consent and
    suppression were observed, at most a day ago when the observation carries a
    time zone; time zone and jurisdiction are given; unit, campaign and agent
    are on their lists; attempts are left and the last lies the minimum spacing
    back; and a calling window is given that, unless the time zone is the empty
    text, holds the local time of day in a zone that exists. *)
Theorem contact_allowed_iff ZoneInfo now_utc id r :
  (forall t, calling_window_start r = Some t \/ calling_window_end r = Some t -> is_time t) ->
  allowed ZoneInfo now_utc id r <-> contact_permitted ZoneInfo (evaluated_now now_utc r) r.
Proof.
  intros Hw. rewrite allowed_iff. cbv zeta. rewrite !fresh_iff, attempts_left_iff. unfold missing_reasons, denial_reasons.
  rewrite !app_nil, !unless_nil, !andb_true_iff, !present_spec, !negb_true_iff. split.
  - intros (Hm & Hf1 & Hf2 & Hd & Ha & Hh). destruct_and!.
    split; try done; try (apply not_outside; [done..|by apply negb_true_iff]).
    + apply switches_iff; [done..|]. split_and!; try done. by apply negb_true_iff.
    + by apply hours_checked_iff.
  - intros [S [? ?] [? ?] [? ?] (u & lu & Hu & Hlu & Hiu) (k & lk & Hk & Hlk & Hik) (a & la & Ha & Hla & Hia) ? Hh].
    assert (Hs : is_Some (consent_allowed r) /\ is_Some (dnc_suppressed r) /\ is_Some (channel_eligible r)
      /\ is_Some (emergency_kill_switch r)) by (destruct S; split_and!; by eexists).
    destruct Hs as (? & ? & ? & ?). apply switches_iff in S; [|done..]. destruct_and!.
    split_and!; try done; try (by rewrite Hu); try (by rewrite Hlu); try (by rewrite Hk); try (by rewrite Hlk);
      try (by rewrite Ha); try (by rewrite Hla); try (by apply negb_true_iff); try (by apply hours_checked_iff);
      rewrite ?Hu, ?Hlu, ?Hk, ?Hlk, ?Ha, ?Hla; cbn; by rewrite bool_decide_true.
Qed.

(** A request that passes every check at noon UTC, in a zone at UTC. *)
Definition demo_zone (key : string) : zone :=
  if bool_decide (key = "Etc/UTC") then zone_found (fun _ => 0) else zone_not_found.
Definition demo_request : PolicyRequest :=
  mkPolicyRequest "corr" voice "lead" "call" None (Some (utc (hours 12))) (Some true)
    (Some (utc (hours 11))) (Some false) (Some (utc (hours 11))) (Some "Etc/UTC") (Some "US")
    (Some (hours 9)) (Some (hours 18)) (Some 1) (Some 3) None (Some 60) (Some true) (Some "TL")
    (Some ["TL"]) (Some "C1") (Some ["C1"]) (Some "A1") (Some ["A1"]) None None None None
    (Some false) false.

Lemma demo_allowed : allowed demo_zone 0 1%N demo_request.
Proof. eexists. split; vm_compute; reflexivity. Defined.

Lemma contact_allowed_iff_witness :
  contact_permitted demo_zone (utc (hours 12)) demo_request.
Proof.
  apply (contact_allowed_iff demo_zone 0 1%N demo_request); [|exact demo_allowed].
  intros t [E|E]; cbn in E; injection E as <-; split; vm_compute; congruence.
Defined.

(** Naive observations are never stale: a request that is allowed stays
    allowed when its consent observation, or its do-not-call observation, is
    replaced by any timestamp without a time zone, however old: the freshness
    test looks only at aware timestamps and records the others as missing
    without a reason. *)
Theorem naive_observation_never_stale ZoneInfo now_utc id r t :
  allowed ZoneInfo now_utc id r -> utcoffset t = None ->
  allowed ZoneInfo now_utc id (r <| consent_observed_at := Some t |>)
  /\ allowed ZoneInfo now_utc id (r <| dnc_observed_at := Some t |>).
Proof.
  rewrite !allowed_iff. intros (Hm & Hf1 & Hf2 & Hd & Hat & fresh & Hh) Ht.
  assert (Hn : forall name, (freshness_of (evaluated_now now_utc r) name (Some t)).2 = []).
  { intros name. cbn. unfold aware. by rewrite Ht. }
  split; split_and!; try done; try (by apply Hn); try (by exists fresh);
    unfold missing_reasons in *; rewrite !app_nil, !unless_nil, !andb_true_iff, !present_spec in *;
    cbn; destruct_and!; split_and!; eauto.
Qed.

Lemma naive_observation_never_stale_witness :
  allowed demo_zone 0 1%N (demo_request <| consent_observed_at := Some (Datetime (- hours 100000) None) |>).
Proof.
  apply (naive_observation_never_stale demo_zone 0 1%N demo_request (Datetime (- hours 100000) None)
    demo_allowed eq_refl).
Defined.

(** An empty time zone switches the calling hours off: a request that is
    allowed stays allowed with an empty time zone and any calling window
    whatever, at any time of day. *)
Theorem empty_timezone_skips_hours ZoneInfo now_utc id r s e :
  allowed ZoneInfo now_utc id r ->
  allowed ZoneInfo now_utc id
    (r <| customer_timezone := Some "" |> <| calling_window_start := Some s |>
       <| calling_window_end := Some e |>).
Proof.
  rewrite !allowed_iff. intros (Hm & Hf1 & Hf2 & Hd & Hat & fresh & Hh).
  split_and!; try done; [|by eexists].
  unfold missing_reasons in *. rewrite !app_nil, !unless_nil, !andb_true_iff, !present_spec in *.
  cbn. destruct_and!. split_and!; eauto.
Qed.

Lemma empty_timezone_skips_hours_witness :
  allowed demo_zone 0 1%N (demo_request <| customer_timezone := Some "" |>
    <| calling_window_start := Some (hours 1) |> <| calling_window_end := Some (hours 2) |>).
Proof. exact (empty_timezone_skips_hours demo_zone 0 1%N demo_request (hours 1) (hours 2) demo_allowed). Defined.
End PolicyEngine.
