(* ===== verification/Delivery.v ===== *)
(** * Delivery primitives

    Failure classes, the retry schedule and the circuit breaker of
    [src/app/core/delivery.py]; the retry policy, the contact gate and the
    transfer gate of [src/app/core/reliability.py]; the provider's circuit
    breaker of [src/app/core/ai_provider.py]; the monotone call life cycle of
    [src/app/core/call_lifecycle.py]. *)

From Stdlib Require Import QArith.
From S2P Require Import Prelude PyText PyTime Txn.
Local Open Scope string_scope.
Local Open Scope Z_scope.

(** ** [delivery.py] *)
Module Delivery.

Inductive FailureCategory := TRANSIENT | PERMANENT | AMBIGUOUS.

Definition classify_failure (status_code : option Z)
    (network_before_response timeout_duplicate_safe temporary_db_lock
     ambiguous_after_transmission : bool) : FailureCategory :=
  if ambiguous_after_transmission then AMBIGUOUS
  else if (network_before_response || timeout_duplicate_safe || temporary_db_lock)%bool then TRANSIENT
  else if match status_code with Some c => bool_decide (c ∈ [429; 502; 503; 504]) | None => false end
  then TRANSIENT
  else PERMANENT.

Definition RETRY_SCHEDULE_SECONDS : list Z := [30; 120; 600; 1800].

(** [rng.uniform(0, b)] is [b * u] for a draw [u] of [random()], in [0, 1). *)
Definition retry_delay (attempt : Z) (u : Q) : exn + Q :=
  if ((attempt <? 1) || (Z.of_nat (length RETRY_SCHEDULE_SECONDS) <? attempt))%bool
  then inl (ValueError "retry attempt outside configured schedule")
  else
    match RETRY_SCHEDULE_SECONDS !! Z.to_nat (attempt - 1) with
    | Some b => inr (inject_Z b * u)%Q
    | None => inl (ValueError "list index out of range")
    end.

Record CircuitBreaker := mkBreaker {
  failure_threshold : Z;
  failures : Z;
  is_open : bool;
}.

Definition success (b : CircuitBreaker) : CircuitBreaker :=
  mkBreaker (failure_threshold b) 0 false.
Definition failure (b : CircuitBreaker) : CircuitBreaker :=
  let n := failures b + 1 in
  mkBreaker (failure_threshold b) n (failure_threshold b <=? n).

(** The outcome of each call, oldest first. *)
Definition observe (b : CircuitBreaker) (ok : bool) : CircuitBreaker :=
  if ok then success b else failure b.
Definition observe_all (b : CircuitBreaker) (outcomes : list bool) : CircuitBreaker :=
  fold_left observe outcomes b.

(** The number of failures since the last success. *)
Fixpoint trailing_failures (reversed : list bool) : Z :=
  match reversed with
  | false :: l => trailing_failures l + 1
  | _ => 0
  end.

Lemma trailing_failures_nonneg l : 0 <= trailing_failures l.
Proof. induction l as [|[] l IH]; cbn; lia. Qed.

(** The breaker counts consecutive failures: after any sequence of
    outcomes a breaker that started closed is open exactly when the calls since
    the last success all failed and there are at least as many of them as the
    threshold. *)
Theorem breaker_counts_trailing_failures threshold outcomes :
  0 < threshold ->
  let b := observe_all (mkBreaker threshold 0 false) outcomes in
  failures b = trailing_failures (rev outcomes)
  /\ is_open b = (threshold <=? trailing_failures (rev outcomes)).
Proof.
  intros Ht. cbv zeta.
  assert (H : failure_threshold (observe_all (mkBreaker threshold 0 false) outcomes) = threshold
    /\ failures (observe_all (mkBreaker threshold 0 false) outcomes) = trailing_failures (rev outcomes)
    /\ is_open (observe_all (mkBreaker threshold 0 false) outcomes)
       = (threshold <=? trailing_failures (rev outcomes))); [|tauto].
  unfold observe_all. induction outcomes as [|ok l IH] using rev_ind; cbn.
  - split_and!; [done..|]. symmetry. by apply Z.leb_gt.
  - rewrite fold_left_app, rev_app_distr. cbn. destruct IH as (H1 & H2 & H3).
    destruct ok; cbn.
    + split_and!; [done..|]. symmetry. by apply Z.leb_gt.
    + by rewrite H1, H2.
Qed.

Lemma breaker_counts_trailing_failures_witness :
  is_open (observe_all (mkBreaker 2 0 false) [true; false; true; false; false]) = true.
Proof.
  rewrite (proj2 (breaker_counts_trailing_failures 2 [true; false; true; false; false] eq_refl)).
  vm_compute. reflexivity.
Defined.
End Delivery.

(** ** The breaker of the inference provider ([ai_provider.py]) *)
Module ProviderBreaker.

(** [CircuitBreaker] of [ai_provider.py]; times are readings of [time.monotonic()]. *)
Record ProviderCircuitBreaker := mkBreaker {
  failure_threshold : Z;
  cooldown_seconds : Z;
  failures : Z;
  opened_at : option Z;
}.

(** [allow]: the answer and the breaker after it. *)
Definition allow (now : Z) (b : ProviderCircuitBreaker) : bool * ProviderCircuitBreaker :=
  match opened_at b with
  | None => (true, b)
  | Some t =>
      if cooldown_seconds b <=? now - t
      then (true, mkBreaker (failure_threshold b) (cooldown_seconds b) 0 None)
      else (false, b)
  end.
Definition succeeded (b : ProviderCircuitBreaker) : ProviderCircuitBreaker :=
  mkBreaker (failure_threshold b) (cooldown_seconds b) 0 None.
Definition failed (now : Z) (b : ProviderCircuitBreaker) : ProviderCircuitBreaker :=
  let n := failures b + 1 in
  mkBreaker (failure_threshold b) (cooldown_seconds b) n
    (if failure_threshold b <=? n then Some now else opened_at b).

Inductive event := Failed (at_ : Z) | Succeeded | Asked (at_ : Z).

Definition breaker_step (b : ProviderCircuitBreaker) (e : event) : ProviderCircuitBreaker :=
  match e with
  | Failed t => failed t b
  | Succeeded => succeeded b
  | Asked t => (allow t b).2
  end.

Definition after (threshold cooldown : Z) (history : list event) : ProviderCircuitBreaker :=
  fold_left breaker_step history (mkBreaker threshold cooldown 0 None).

Definition provider_refuses (threshold cooldown : Z) (history : list event) (now : Z) : bool :=
  negb (allow now (after threshold cooldown history)).1.

(** The failures since the last success. *)
Definition failures_since_success (history : list event) : Z :=
  fold_left (fun n e => match e with Failed _ => n + 1 | Succeeded => 0 | Asked _ => n end) history 0.

(** A call asked for within the cooldown that starts at [t]. *)
Definition asked_within (cooldown t : Z) (e : event) : Prop :=
  exists s, e = Asked s /\ s - t < cooldown.

(** What opened the breaker: a failure, with only refused calls after it. *)
Definition opened_by (cooldown : Z) (history : list event) (t : Z) : Prop :=
  exists pre post, history = (pre ++ Failed t :: post)%list /\ Forall (asked_within cooldown t) post.

Record explained (threshold cooldown : Z) (history : list event) (b : ProviderCircuitBreaker) : Prop := {
  ex_threshold : failure_threshold b = threshold;
  ex_cooldown : cooldown_seconds b = cooldown;
  ex_failures : 0 <= failures b <= failures_since_success history;
  ex_opened : forall t, opened_at b = Some t ->
    threshold <= failures b /\ opened_by cooldown history t;
}.

Lemma failures_since_success_app h e :
  failures_since_success (h ++ [e])%list
  = match e with Failed _ => failures_since_success h + 1 | Succeeded => 0 | Asked _ => failures_since_success h end.
Proof. unfold failures_since_success. by rewrite fold_left_app. Qed.

Lemma after_app threshold cooldown h e :
  after threshold cooldown (h ++ [e])%list = breaker_step (after threshold cooldown h) e.
Proof. unfold after. by rewrite fold_left_app. Qed.

Lemma opened_by_asked cooldown h t s :
  s - t < cooldown -> opened_by cooldown h t -> opened_by cooldown (h ++ [Asked s])%list t.
Proof.
  intros Hs (pre & post & -> & Hp). exists pre, (post ++ [Asked s])%list. rewrite <- app_assoc.
  split; [done|]. apply Forall_app. split; [done|]. repeat constructor. by exists s.
Qed.

Lemma after_explained threshold cooldown h :
  0 < threshold -> explained threshold cooldown h (after threshold cooldown h).
Proof.
  intros Ht. induction h as [|e h [Et Ec Ef Eo]] using rev_ind; [by constructor; cbn|].
  rewrite after_app. set (b := after threshold cooldown h) in *.
  destruct e as [t| |t]; cbn; [| |unfold allow; destruct (opened_at b) as [t0|] eqn:E0;
    [destruct (Z.leb_spec (cooldown_seconds b) (t - t0))|]];
    (constructor; cbn; rewrite ?failures_since_success_app, ?E0; try done; try lia).
  - intros t' E. destruct (Z.leb_spec (failure_threshold b) (failures b + 1)).
    + injection E as <-. split; [lia|]. exists h, []. done.
    + destruct (Eo _ E). lia.
  - intros t' [= <-]. destruct (Eo _ eq_refl). split; [done|]. apply opened_by_asked; [lia|done].
Qed.

(** Consecutive failures add up. *)
Lemma failures_add_up b ts :
  0 <= failures b ->
  let b' := fold_left breaker_step (Failed <$> ts) b in
  failures b' = failures b + Z.of_nat (length ts)
  /\ failure_threshold b' = failure_threshold b /\ cooldown_seconds b' = cooldown_seconds b.
Proof.
  revert b. induction ts as [|t ts IH]; intros b Hb; cbn; [lia|].
  destruct (IH (failed t b)) as (-> & -> & ->); cbn; lia.
Qed.

(** The provider breaker refuses calls only while it is cooling down, and
    then it does.  Whatever happened since it was built, a refusal at [now]
    means that at least the threshold of failures followed the last success,
    that the last of them lies less than the cooldown back, and that since then
    calls were only asked for and refused; and after that many failures in a
    row, a call within the cooldown of the last one is refused. *)
Theorem provider_breaker_refuses_iff threshold cooldown history now :
  0 < threshold ->
  (provider_refuses threshold cooldown history now = true ->
     threshold <= failures_since_success history
     /\ exists t, opened_by cooldown history t /\ now - t < cooldown)
  /\ (forall pre ts t, history = (pre ++ (Failed <$> ts) ++ [Failed t])%list ->
       threshold <= Z.of_nat (length ts) + 1 -> now - t < cooldown ->
       provider_refuses threshold cooldown history now = true).
Proof.
  intros Ht. unfold provider_refuses. split.
  - destruct (after_explained threshold cooldown history Ht) as [Et Ec Ef Eo].
    unfold allow. destruct (opened_at _) as [t|]; [|done].
    destruct (Z.leb_spec (cooldown_seconds (after threshold cooldown history)) (now - t)); [done|].
    intros _. destruct (Eo _ eq_refl). split; [lia|]. exists t. split; [done|lia].
  - intros pre ts t -> Hn Hnow. rewrite app_assoc, after_app. unfold after.
    rewrite fold_left_app. fold (after threshold cooldown pre).
    destruct (after_explained threshold cooldown pre Ht) as [Et Ec Ef _].
    destruct (failures_add_up (after threshold cooldown pre) ts) as (Hf & Hth & Hc); [lia|].
    unfold allow. cbn. rewrite Hf, Hth, Hc, Et, Ec.
    destruct (Z.leb_spec threshold (failures (after threshold cooldown pre) + Z.of_nat (length ts) + 1)); [|lia].
    destruct (Z.leb_spec cooldown (now - t)); [lia|done].
Qed.

Lemma provider_breaker_refuses_iff_witness :
  provider_refuses 3 30 [Succeeded; Failed 8; Failed 9; Failed 10] 12 = true.
Proof.
  apply (proj2 (provider_breaker_refuses_iff 3 30 [Succeeded; Failed 8; Failed 9; Failed 10] 12 eq_refl)
    [Succeeded] [8; 9] 10); [reflexivity|vm_compute; congruence|reflexivity].
Defined.
End ProviderBreaker.

(** ** [call_lifecycle.py] *)
Module CallLifecycle.

Definition RANK (state : string) : option Z :=
  if bool_decide (state = "STARTED") then Some 1
  else if bool_decide (state = "CONNECTED") then Some 2
  else if bool_decide (state = "ENDED") then Some 3
  else None.

(** Local channels come in halves, [;1] and [;2]. *)
Definition ends_with (s suffix : string) : bool :=
  let n := String.length s in
  let m := String.length suffix in
  (m <=? n)%nat && bool_decide (String.substring (n - m) m s = suffix).
Definition base_local (value : string) : string :=
  if (ends_with value ";1" || ends_with value ";2")%bool
  then String.substring 0 (String.length value - 2) value else value.

Definition correlation_id (linked_id : option string) (unique_id : string) : string :=
  "asterisk:" +:+ base_local (py_or linked_id unique_id).

(** [RANK[incoming] > RANK[current]]; a key that is not there raises. *)
Definition advances (current incoming : string) : exn + bool :=
  match RANK incoming, RANK current with
  | Some i, Some c => inr (c <? i)
  | None, _ => inl (LookupError incoming)
  | Some _, None => inl (LookupError current)
  end.

Record Transition := mkTransition {
  previous : option string;
  incoming : string;
  resulting : string;
  applied : bool;
}.

Definition transition (current : option string) (inc : string) : exn + Transition :=
  match current with
  | None => inr (mkTransition None inc inc true)
  | Some c =>
      match advances c inc with
      | inl e => inl e
      | inr true => inr (mkTransition current inc inc true)
      | inr false => inr (mkTransition current inc c false)
      end
  end.

(** The state after a sequence of events. *)
Fixpoint replay (current : option string) (events : list string) : exn + option string :=
  match events with
  | [] => inr current
  | e :: rest =>
      match transition current e with
      | inl err => inl err
      | inr t => replay (Some (resulting t)) rest
      end
  end.

Definition known (state : string) : Prop := is_Some (RANK state).
Definition rank (state : string) : Z := coalesce (RANK state) 0.

Lemma RANK_rank s : known s -> RANK s = Some (rank s).
Proof. intros [n Hn]. unfold rank. by rewrite Hn. Qed.

Lemma rank_inj s t : known s -> known t -> rank s = rank t -> s = t.
Proof.
  unfold known, rank, RANK.
  repeat case_bool_decide; cbn; intros [? ?] [? ?] E; simplify_eq; done.
Qed.

Lemma replay_max current events :
  known current -> Forall known events ->
  exists final, replay (Some current) events = inr (Some final)
    /\ known final /\ final ∈ current :: events
    /\ (forall e, e ∈ current :: events -> rank e <= rank final).
Proof.
  intros Hc Hall. revert current Hc. induction Hall as [|e l He _ IH]; intros current Hc; cbn.
  - exists current. split_and!; [done|done|left|]. by intros e ->%list_elem_of_singleton.
  - unfold advances. rewrite (RANK_rank _ He), (RANK_rank _ Hc).
    destruct (Z.ltb_spec (rank current) (rank e)) as [Hlt|Hge]; cbn.
    + destruct (IH e He) as (f & Hr & Hk & Hin & Hmax). exists f. split_and!; [done|done| |].
      * by right.
      * intros x [->|Hx]%elem_of_cons; [|by apply Hmax].
        specialize (Hmax e (list_elem_of_here _ _)). lia.
    + destruct (IH current Hc) as (f & Hr & Hk & Hin & Hmax). exists f. split_and!; [done|done| |].
      * apply elem_of_cons in Hin as [->|Hin]; [left|by do 2 right].
      * intros x [->|[->|Hx]%elem_of_cons]%elem_of_cons.
        -- apply Hmax. left.
        -- specialize (Hmax current (list_elem_of_here _ _)). lia.
        -- apply Hmax. by right.
Qed.

(** The order in which a call's events arrive does not matter: replaying
    any reordering of the same known events, with any repetitions, ends in the
    same state, the most advanced of them, and a call never goes back. *)
Theorem call_events_commute events events' :
  Forall known events -> (forall e, e ∈ events <-> e ∈ events') ->
  replay None events = replay None events'
  /\ forall e, e ∈ events -> exists final,
       replay None events = inr (Some final) /\ rank e <= rank final.
Proof.
  intros Hall Hperm.
  assert (Hall' : Forall known events').
  { apply Forall_forall. intros e He%Hperm. by eapply (proj1 (Forall_forall _ _) Hall). }
  destruct events as [|e l], events' as [|e' l']; cbn.
  - split; [done|]. by intros e ?%elem_of_nil.
  - exfalso. apply (not_elem_of_nil e'). apply Hperm. left.
  - exfalso. apply (not_elem_of_nil e). apply Hperm. left.
  - apply Forall_cons in Hall as [He Hl]. apply Forall_cons in Hall' as [He' Hl'].
    destruct (replay_max e l He Hl) as (f & Hr & Hk & Hin & Hmax).
    destruct (replay_max e' l' He' Hl') as (f' & Hr' & Hk' & Hin' & Hmax').
    assert (f = f') as ->.
    { apply rank_inj; [done..|]. apply Z.le_antisymm; [by apply Hmax', Hperm|by apply Hmax, Hperm]. }
    rewrite Hr, Hr'. split; [done|]. intros x Hx. exists f'. split; [done|by apply Hmax].
Qed.

Lemma call_events_commute_witness :
  replay None ["ENDED"; "STARTED"; "CONNECTED"] = replay None ["STARTED"; "CONNECTED"; "ENDED"; "ENDED"].
Proof.
  apply (call_events_commute ["ENDED"; "STARTED"; "CONNECTED"] ["STARTED"; "CONNECTED"; "ENDED"; "ENDED"]).
  - repeat constructor; vm_compute; eexists; reflexivity.
  - intros e. rewrite !elem_of_cons. tauto.
Defined.
End CallLifecycle.

(** ** The rest of [reliability.py] that works on plain values *)
Module Reliability.

Record RetryPolicy := mkRetryPolicy { max_attempts : Z; base_seconds : Z; max_seconds : Z }.
Definition default_policy : RetryPolicy := mkRetryPolicy 5 5 300.

Definition delay (self : RetryPolicy) (attempts : Z) : exn + Z :=
  if attempts <? 1 then inl (ValueError "attempts must be positive")
  else inr (Z.min (max_seconds self) (base_seconds self * 2 ^ (attempts - 1))).

(** [Reconciler.reconcile]: the two differences, and the new checkpoint. *)
Definition reconcile (authoritative_ids observed_ids : gset string) (cursor : string) :
    gset string * gset string * string :=
  (authoritative_ids ∖ observed_ids, observed_ids ∖ authoritative_ids, cursor).

(** [str(v).lower() in {"revoked", "denied"}]: only a string can print so. *)
Definition refuses (v : option json) : bool :=
  match v with Some (JStr s) => bool_decide (str_lower s ∈ ["revoked"; "denied"]) | _ => false end.

Definition enforce_dnc (contact : list (string * json)) : exn + unit :=
  if (from_option json_truthy false (json_get "do_not_call" (JObj contact))
      || refuses (json_get "consent" (JObj contact)))%bool
  then inl (PermissionError "do-not-call policy denies contact") else inr tt.

Definition authorize_transfer (dnc authenticated : bool) (role campaign_id : string)
    (live_enabled : bool) : bool * string :=
  if dnc then (false, "do-not-call")
  else if negb authenticated then (false, "authentication-required")
  else if negb (bool_decide (role ∈ ["supervisor"; "manager"])) then (false, "role-denied")
  else if negb (bool_decide (campaign_id = "TEST_SYN")) then (false, "campaign-denied")
  else if negb live_enabled then (false, "live-transfer-disabled")
  else (true, "authorized").

Lemma delay_monotone self n m dn dm :
  0 <= base_seconds self -> n <= m -> delay self n = inr dn -> delay self m = inr dm ->
  dn <= dm <= max_seconds self.
Proof.
  unfold delay. intros Hb Hnm. repeat case_match; intros; simplify_eq. bool_to_prop.
  assert (2 ^ (n - 1) <= 2 ^ (m - 1)) by (apply Z.pow_le_mono_r; lia).
  assert (base_seconds self * 2 ^ (n - 1) <= base_seconds self * 2 ^ (m - 1)) by (by apply Z.mul_le_mono_nonneg_l).
  lia.
Qed.
End Reliability.
