(* ===== verification/Ledger.v ===== *)
(** * The in-memory idempotency ledgers

    [IdempotencyLedger.claim] of [src/app/core/ivr.py],
    [src/app/core/appointments.py] and [src/app/core/transcription.py]: the
    three classes differ only in how they digest a body, which is the interface
    [Digest].  [claim] holds a lock for its whole body, so concurrent claims
    happen one after another. *)

From S2P Require Import Prelude PyText Sha256 Txn.
Local Open Scope string_scope.
Local Open Scope Z_scope.

(** What a kind of ledger digests, and its error on a conflict. *)
Class Digest (B : Type) := {
  digest : B -> string;
  conflict : exn;
}.

(** The bodies of the three classes: a dict, a text, raw bytes. *)
Inductive ivr_body := IvrBody (body : list (string * json)).
Inductive appointment_body := AppointmentBody (body : string).
Inductive transcription_body := TranscriptionBody (payload : string).

#[export] Instance ivr_digest : Digest ivr_body := {|
  digest := fun '(IvrBody body) => sha256_hex (json_dumps (JsonStyle true ", " ": ") (JObj body));
  conflict := ValueError "idempotency key reused with changed body" |}.
#[export] Instance appointment_digest : Digest appointment_body := {|
  digest := fun '(AppointmentBody body) => sha256_hex body;
  conflict := ValueError "idempotency conflict" |}.
#[export] Instance transcription_digest : Digest transcription_body := {|
  digest := fun '(TranscriptionBody payload) => sha256_hex payload;
  conflict := ValueError "idempotency conflict" |}.

Section ledger.
Context {B R : Type} `{Digest B}.

Definition claim (key : string) (body : B) (result : R) (values : gmap string (string * R)) :
    gmap string (string * R) * (exn + R) :=
  match values !! key with
  | Some (d, prior) =>
      if bool_decide (d = digest body) then (values, inr prior) else (values, inl conflict)
  | None => (<[key := (digest body, result)]> values, inr result)
  end.

(** A sequence of claims, with the answer to each. *)
Record call := Call { c_key : string; c_body : B; c_result : R }.

Fixpoint claims (l : list call) (values : gmap string (string * R)) : list (exn + R) :=
  match l with
  | [] => []
  | c :: rest =>
      let '(values', r) := claim (c_key c) (c_body c) (c_result c) values in
      r :: claims rest values'
  end.

(** The abstract specification: the first claim of a key decides. *)
Definition first_of (key : string) (l : list call) : option call :=
  List.find (fun c => bool_decide (c_key c = key)) l.

Definition answer (history : list call) (c : call) : exn + R :=
  match first_of (c_key c) history with
  | Some f => if bool_decide (digest (c_body f) = digest (c_body c)) then inr (c_result f)
              else inl conflict
  | None => inr (c_result c)
  end.

Definition recorded (history : list call) (values : gmap string (string * R)) : Prop :=
  forall k, values !! k = (fun f => (digest (c_body f), c_result f)) <$> first_of k history.

Lemma first_of_snoc k history c :
  first_of k (history ++ [c]) =
  match first_of k history with
  | Some f => Some f
  | None => if bool_decide (c_key c = k) then Some c else None
  end.
Proof.
  unfold first_of. induction history as [|x l IH]; cbn; [by case_bool_decide|].
  destruct (bool_decide (c_key x = k)); [done|exact IH].
Qed.

Lemma claim_recorded history values c :
  recorded history values ->
  (claim (c_key c) (c_body c) (c_result c) values).2 = answer history c
  /\ recorded (history ++ [c]) (claim (c_key c) (c_body c) (c_result c) values).1.
Proof.
  intros Hrec. unfold claim, answer. pose proof (Hrec (c_key c)) as Hk.
  destruct (first_of (c_key c) history) as [f|] eqn:Ef; cbn in Hk; rewrite Hk.
  - split; [by case_bool_decide|].
    assert (Hr : recorded (history ++ [c]) values).
    { intros k. rewrite first_of_snoc, Hrec. destruct (first_of k history) eqn:E; [done|].
      case_bool_decide; [congruence|done]. }
    by case_bool_decide.
  - split; [done|]. intros k. cbn. rewrite first_of_snoc.
    destruct (decide (c_key c = k)) as [<-|Hne].
    + by rewrite lookup_insert_eq, Ef, bool_decide_eq_true_2.
    + rewrite lookup_insert_ne, Hrec by done. rewrite bool_decide_eq_false_2 by done.
      by destruct (first_of k history).
Qed.

Lemma claims_answers history l values :
  recorded history values ->
  claims l values = imap (fun i c => answer (history ++ take i l) c) l.
Proof.
  revert history values. induction l as [|c l IH]; intros history values Hrec; [done|]. cbn.
  destruct (claim_recorded history values c Hrec) as [H1 H2].
  destruct (claim _ _ _ _) as [values' r]. cbn in H1, H2. rewrite app_nil_r. f_equal; [done|].
  rewrite (IH _ _ H2). apply imap_ext. intros i x _. cbn. by rewrite <- app_assoc.
Qed.
End ledger.
Arguments call : clear implicits.

(** A ledger is linearisable to its specification: in every sequence of
    claims on an empty ledger, the answer to each is decided by the first claim
    of its key: the first result again when the body digests to the same value,
    a conflict when it does not, and the claim's own result when it is the
    first. *)
Theorem ledger_first_claim_decides {B R} `{Digest B} (l : list (call B R)) :
  claims l ∅ = imap (fun i c => answer (take i l) c) l.
Proof.
  rewrite (claims_answers [] l ∅); [done|]. intros k. by rewrite lookup_empty.
Qed.
