(* ===== verification/Ivr.v ===== *)
(** * The IVR control plane ([src/app/core/ivr.py])

    DIDs, the main menu with its campaign lock, destination checks, signed
    routing contexts, intent classification and feature flags. *)

From Stdlib Require Import QArith.
From S2P Require Import Prelude PyText Sha256 Txn.
Local Open Scope string_scope.
Local Open Scope Z_scope.

Module Ivr.

Definition BUSINESS_UNITS : list string := ["TL"; "DEV"; "SCP"; "SHARED"].
Definition LOOKUP_STATES : list string :=
  ["exact_match"; "multiple_matches"; "no_match"; "restricted_match";
   "manual_verification_required"].
Definition APPOINTMENT_STATES : list string :=
  ["agent_available"; "agent_busy"; "agent_offline"; "appointment_early"; "appointment_overdue";
   "appointment_not_found"; "appointment_cancelled"; "reschedule_required"].
Definition APPROVED_INTENTS : list string :=
  ["freight_quote"; "dispatch_service"; "medical_trip_support"; "website_development";
   "mobile_development"; "ai_project"; "odoo_implementation"; "existing_order"; "reorder";
   "warranty"; "billing"; "appointment"; "cancellation"; "support"; "complaint"].
Definition IVR_FEATURE_FLAGS : list string :=
  ["ENABLE_MAIN_IVR"; "ENABLE_TL_IVR"; "ENABLE_DEV_IVR"; "ENABLE_SCP_IVR";
   "ENABLE_IVR_CUSTOMER_LOOKUP"; "ENABLE_IVR_APPOINTMENT_LOOKUP"; "ENABLE_IVR_CALLBACKS";
   "ENABLE_IVR_VOICEMAIL"; "ENABLE_IVR_AI_INTENT"; "ENABLE_IVR_PRIORITY_ROUTING";
   "ENABLE_IVR_AFTER_HOURS"; "ENABLE_IVR_SCREEN_POP"].

(** [IvrDenied] is a [PermissionError]. *)
Definition IvrDenied (msg : string) : exn := PermissionError msg.

Record DidMapping := mkDid {
  did_reference : string;
  environment : string;
  did_business_unit : string;
  default_campaign : option string;
  root_menu : string;
  did_language : string;
  production_eligible : bool;
  did_active : bool;
}.

Record Destination := mkDestination {
  d_campaign : string;
  native_campaign : string;
  inbound_group : string;
  d_business_unit : string;
  department : string;
  queue : string;
  supervisor_group : string;
  languages : list string;
  permitted_transfers : list string;
  callback_policy : string;
  d_active : bool;
}.

Record IvrSession := mkSession {
  session_id : string;
  call_uniqueid : string;
  s_did_reference : string;
  masked_caller_reference : string;
  business_unit : string;
  campaign : option string;
  initial_language : string;
  final_language : string;
  ivr_path : list string;
  intent_code : option string;
  campaign_lock : option string;
  final_result : option string;
  correlation_id : string;
}.
#[export] Instance IvrSession_eta : Eta IvrSession := fun s =>
  mkSession (session_id s) (call_uniqueid s) (s_did_reference s) (masked_caller_reference s)
    (business_unit s) (campaign s) (initial_language s) (final_language s) (ivr_path s)
    (intent_code s) (campaign_lock s) (final_result s) (correlation_id s).

Definition MAIN_MENU : list (string * (string * option string * string)) :=
  [("1", ("TL", Some "TL-GENERAL", "transportation"));
   ("2", ("DEV", Some "DEV-GENERAL", "development"));
   ("3", ("SCP", Some "SCP-GENERAL", "senior-products"));
   ("4", ("SHARED", None, "appointments"));
   ("5", ("SHARED", None, "support"));
   ("9", ("SHARED", None, "language-es"));
   ("0", ("SHARED", None, "repeat"))].

Definition did (reference unit : string) (campaign : option string) (menu : string) : DidMapping :=
  mkDid reference "staging" unit campaign menu "en" false false.
Definition DEFAULT_DIDS : list (string * DidMapping) :=
  [("TST-MAIN", did "TST-MAIN" "SHARED" None "main");
   ("TST-TL", did "TST-TL" "TL" (Some "TL-GENERAL") "transportation");
   ("TST-DEV", did "TST-DEV" "DEV" (Some "DEV-GENERAL") "development");
   ("TST-SCP", did "TST-SCP" "SCP" (Some "SCP-GENERAL") "senior-products");
   ("TST-SUPPORT", did "TST-SUPPORT" "SHARED" None "support");
   ("TST-APPT", did "TST-APPT" "SHARED" None "appointments")].

(** [mappings or DEFAULT_DIDS]: an empty dict is falsy too. *)
Definition resolve_did (reference : string) (mappings : option (list (string * DidMapping))) :
    exn + DidMapping :=
  let table := match mappings with Some (_ :: _ as m) => m | _ => DEFAULT_DIDS end in
  match dict_get table reference with
  | Some result =>
      if (negb (bool_decide (environment result = "staging")) || production_eligible result)%bool
      then inl (IvrDenied "unknown or production-eligible DID denied") else inr result
  | None => inl (IvrDenied "unknown or production-eligible DID denied")
  end.

Definition visit (node : string) (s : IvrSession) : IvrSession :=
  s <| ivr_path ::= fun p => app p [node] |>.

Definition select_main (s : IvrSession) (keypad : string) : IvrSession :=
  match dict_get MAIN_MENU keypad with
  | None => visit "invalid-input" s
  | Some (unit, campaign_, node) =>
      if bool_decide (keypad = "9") then visit node (s <| final_language := "es" |>)
      else if bool_decide (unit = "SHARED") then visit node s
      else visit node (s <| business_unit := unit |> <| campaign := campaign_ |>
                         <| campaign_lock := campaign_ |>)
  end.

Definition validate_destination (destination : Destination) (s : IvrSession) : exn + unit :=
  if negb (str_in (d_business_unit destination) BUSINESS_UNITS) then
    inl (IvrDenied "unknown business unit")
  else if (bool_decide (supervisor_group destination = "")
           || bool_decide (inbound_group destination = ""))%bool then
    inl (IvrDenied "destination lacks an approved supervisor or inbound group")
  else if negb (bool_decide (business_unit s = d_business_unit destination)) then
    inl (IvrDenied "cross-business-unit route denied")
  else if negb (bool_decide (campaign_lock s = Some (d_campaign destination))) then
    inl (IvrDenied "cross-campaign route denied")
  else if d_active destination then
    inl (IvrDenied "active telephony destination unavailable in staging")
  else inr tt.

Definition context_body (s : IvrSession) : string :=
  json_dumps json_canonical
    (JObj [("session_id", JStr (session_id s)); ("business_unit", JStr (business_unit s));
           ("campaign", match campaign_lock s with Some c => JStr c | None => JNull end);
           ("language", JStr (final_language s)); ("correlation_id", JStr (correlation_id s))]).

Definition sign_context (s : IvrSession) (secret : string) : exn + string :=
  if byte_len secret <? 32 then inl (ValueError "routing signing key is too short")
  else inr (hmac_hex (bytes_of secret) (context_body s)).

(** [hmac.compare_digest] of two texts wants ASCII. *)
Definition verify_context (s : IvrSession) (secret signature : string) : exn + bool :=
  match sign_context s secret with
  | inl e => inl e
  | inr expected =>
      if str_forall (fun c => in_range c 0 127) signature
      then inr (bool_decide (expected = signature))
      else inl (TypeError "comparing strings with non-ASCII characters is not supported")
  end.

Definition customer_lookup (state masked_reference : string) : exn + list (string * string) :=
  if (negb (str_in state LOOKUP_STATES) || negb (String.prefix "***" masked_reference))%bool
  then inl (ValueError "unsafe lookup result")
  else inr [("state", state); ("reference", masked_reference)].

Definition appointment_lookup (state unit campaign_ : string) (s : IvrSession) :
    exn + list (string * string) :=
  if negb (str_in state APPOINTMENT_STATES) then inl (ValueError "invalid appointment outcome")
  else if (negb (bool_decide (business_unit s = unit))
           || negb (bool_decide (campaign_lock s = Some campaign_)))%bool
  then inl (IvrDenied "appointment cannot cross session scope")
  else inr [("state", state); ("business_unit", unit); ("campaign", campaign_)].

(** The classification, with the confidence as a rational. *)
Record intent_result := mkIntent {
  i_intent : option string;
  i_scope : option (Q * string * string);
  confirmation_required : bool;
  fallback_menu : string;
}.

Definition classify_intent (intent : string) (confidence : Q) (s : IvrSession)
    (proposed_unit proposed_campaign : string) : exn + intent_result :=
  if (negb (str_in intent APPROVED_INTENTS)
      || negb (Qle_bool 0 confidence && Qle_bool confidence 1))%bool
  then inr (mkIntent None None true "keypad")
  else if (negb (bool_decide (proposed_unit = business_unit s))
           || negb (bool_decide (Some proposed_campaign = campaign_lock s)))%bool
  then inl (IvrDenied "AI cannot bypass campaign lock")
  else inr (mkIntent (Some intent) (Some (confidence, proposed_unit, proposed_campaign))
              (negb (Qle_bool (85 # 100) confidence)) "keypad").

Definition reclassify (s : IvrSession) (corrected_intent new_session_id reason : string) :
    exn + IvrSession * IvrSession * list (string * string) :=
  if (negb (str_in corrected_intent APPROVED_INTENTS) || bool_decide (strip reason = ""))%bool
  then inl (ValueError "approved intent and reason required")
  else
    inr (s <| final_result := Some "MISROUTED_IVR" |>,
         s <| session_id := new_session_id |> <| intent_code := Some corrected_intent |>
           <| ivr_path ::= fun p => app p ["controlled-reclassification"] |>
           <| final_result := None |>,
         [("original_session", session_id s); ("linked_session", new_session_id);
          ("reason", reason)]).

Definition feature_enabled (overrides : list (string * string * string * string * bool))
    (flag environment_ unit campaign_ : string) : exn + bool :=
  if negb (str_in flag IVR_FEATURE_FLAGS) then inl (ValueError "unknown IVR feature flag")
  else inr (from_option snd false
    (List.find (fun kv => bool_decide (kv.1 = (environment_, unit, campaign_, flag))) overrides)).

(** [FakeIvrAdapter] *)
Definition route (destination : Destination) (s : IvrSession) : exn + list (string * string) :=
  match validate_destination destination s with
  | inl e => inl e
  | inr _ => inr [("state", "synthetic_route_validated"); ("campaign", d_campaign destination)]
  end.
Definition answer : exn + unit := inl (IvrDenied "live inbound call authorization is not granted").
Definition originate : exn + unit := inl (IvrDenied "live call authorization is not granted").
Definition activate_did : exn + unit := inl (IvrDenied "public DID activation is not granted").

(** ** Theorems *)

(** The menu entry that locks a session to a unit and its campaign. *)
Definition locks (keypad : string) : option (string * string) :=
  match dict_get MAIN_MENU keypad with
  | Some (u, Some c, _) => Some (u, c)
  | _ => None
  end.

Definition last_lock (keys : list string) : option (string * string) :=
  last (omap locks keys).

Lemma select_main_lock s key :
  (business_unit (select_main s key), campaign_lock (select_main s key))
  = match locks key with
    | Some (u, c) => (u, Some c)
    | None => (business_unit s, campaign_lock s)
    end.
Proof.
  unfold locks, select_main, dict_get, MAIN_MENU. cbn.
  repeat (case_bool_decide; [subst; reflexivity|cbn]). reflexivity.
Qed.

Lemma dialled_lock s keys :
  let s' := fold_left select_main keys s in
  (business_unit s', campaign_lock s')
  = match last_lock keys with
    | Some (u, c) => (u, Some c)
    | None => (business_unit s, campaign_lock s)
    end.
Proof.
  cbv zeta. unfold last_lock. induction keys as [|k l IH] using rev_ind; [done|].
  rewrite fold_left_app, omap_app. cbn [fold_left]. rewrite select_main_lock. cbn.
  destruct (locks k) as [[u c]|]; [by rewrite last_snoc|]. by rewrite app_nil_r.
Qed.

(** The campaign lock holds: whatever keys a caller presses, a route is
    validated, an appointment is read and an intent is accepted only for the
    unit and campaign of the last menu choice that locked one, never for an
    active destination, and only with a supervisor and an inbound group. *)
Theorem campaign_lock_holds s keys destination u c :
  last_lock keys = Some (u, c) ->
  let s' := fold_left select_main keys s in
  (forall r, route destination s' = inr r ->
     d_business_unit destination = u /\ d_campaign destination = c /\ d_active destination = false
     /\ supervisor_group destination <> "" /\ inbound_group destination <> "")
  /\ (forall st u' c' r, appointment_lookup st u' c' s' = inr r -> u' = u /\ c' = c)
  /\ (forall intent q u' c' r conf, classify_intent intent q s' u' c' = inr r ->
        i_scope r = Some conf -> conf = (q, u, c)).
Proof.
  intros Hl s'. pose proof (dialled_lock s keys) as Hd. cbv zeta in Hd. fold s' in Hd. rewrite Hl in Hd.
  injection Hd as Hu Hc. split_and!.
  - intros r. unfold route, validate_destination. repeat case_match; intros; simplify_eq.
    bool_to_prop. split_and!; congruence.
  - intros st u' c' r. unfold appointment_lookup. repeat case_match; intros; simplify_eq.
    bool_to_prop. split; congruence.
  - intros intent q u' c' r conf. unfold classify_intent. repeat case_match; intros; simplify_eq/=.
    bool_to_prop. rewrite Hc in *. simplify_eq. congruence.
Qed.

Definition demo_session : IvrSession :=
  mkSession "s-1" "call-1" "TST-MAIN" "***1234" "SHARED" None "en" "en" [] None None None "corr".
Definition demo_destination : Destination :=
  mkDestination "DEV-GENERAL" "DEV" "in-dev" "DEV" "sales" "q" "sup" ["en"] [] "none" false.

Lemma campaign_lock_holds_witness :
  route demo_destination (fold_left select_main ["1"; "9"; "2"; "7"] demo_session)
  = inr [("state", "synthetic_route_validated"); ("campaign", "DEV-GENERAL")]
  /\ d_business_unit demo_destination = "DEV".
Proof.
  split; [vm_compute; reflexivity|].
  destruct (campaign_lock_holds demo_session ["1"; "9"; "2"; "7"] demo_destination "DEV" "DEV-GENERAL"
    ltac:(vm_compute; reflexivity)) as (Hroute & _ & _).
  destruct (Hroute _ ltac:(vm_compute; reflexivity)) as [Hu _]. exact Hu.
Defined.
End Ivr.
