(* ===== verification/Realtime.v ===== *)
(** * Real-time primitives ([src/app/core/realtime.py])

    Screen-pop authorisation, the bounded replay buffer, readiness and the
    degradation policies. *)

From S2P Require Import Prelude PyText Txn.
Local Open Scope string_scope.
Local Open Scope Z_scope.

Module Realtime.

Definition FEATURE_FLAGS : list string :=
  ["ENABLE_REALTIME_TELEPHONY_EVENTS"; "ENABLE_REDIS_CALL_STATE"; "ENABLE_WEBSOCKET_SCREEN_POP";
   "ENABLE_LAZY_CUSTOMER_CONTEXT"; "ENABLE_WEBRTC_AGENT_PHONE"; "ENABLE_LIVE_VAD";
   "ENABLE_STREAMING_STT"; "ENABLE_STREAMING_LLM"; "ENABLE_STREAMING_TTS"; "ENABLE_AI_BARGE_IN";
   "ENABLE_AI_LOW_LATENCY_MODE"; "ENABLE_LOCAL_AI_INFERENCE"; "ENABLE_EXTERNAL_AI_FALLBACK";
   "ENABLE_PRODUCTION_TRAFFIC"].

Record SocketScope := mkScope {
  user_id : string;
  user_session_id : string;
  scope_business_unit : string;
  campaigns : list string;
  active_call_id : string;
  endpoint_id : string;
}.

Record ScreenPop := mkPop {
  sequence : Z;
  uniqueid : string;
  assigned_user_id : string;
  business_unit : string;
  campaign : string;
  masked_customer_reference : string;
  company : option string;
  lead_id : option string;
  customer_id : option string;
  language : string;
  ivr_intent : option string;
  appointment : bool;
  compact_ai_summary : option string;
  high_priority_alerts : list string;
}.

Definition authorize_socket (scope : SocketScope) (event : ScreenPop) : exn + unit :=
  if (negb (bool_decide (assigned_user_id event = user_id scope))
      || negb (bool_decide (business_unit event = scope_business_unit scope))
      || negb (str_in (campaign event) (campaigns scope))
      || negb (bool_decide (uniqueid event = active_call_id scope)))%bool
  then inl (PermissionError "cross-agent, cross-unit, campaign, or call delivery denied")
  else inr tt.

(** ** [ReplayBuffer] *)

Record ReplayBuffer := mkBuffer {
  maximum : nat;
  _events : list ScreenPop;
  _seen : gset (string * Z);
}.

Definition new_buffer (maximum_ : nat) : ReplayBuffer := mkBuffer maximum_ [] ∅.

Definition identity (e : ScreenPop) : string * Z := (uniqueid e, sequence e).

(** [deque(maxlen=n)]: an append beyond the bound drops from the left. *)
Definition keep_last {A} (n : nat) (l : list A) : list A := drop (length l - n) l.

Definition publish (event : ScreenPop) (b : ReplayBuffer) : ReplayBuffer * bool :=
  if bool_decide (identity event ∈ _seen b) then (b, false)
  else (mkBuffer (maximum b) (keep_last (maximum b) (_events b ++ [event]))
          ({[identity event]} ∪ _seen b), true).

Definition replay (unique_id : string) (last_sequence : Z) (b : ReplayBuffer) : list ScreenPop :=
  List.filter (fun e => bool_decide (uniqueid e = unique_id) && (last_sequence <? sequence e))
    (_events b).

(** ** Readiness and degradation *)

Definition webrtc_ready (registered audio_device websocket campaign_authorized : bool) : bool :=
  registered && audio_device && websocket && campaign_authorized.

Definition failure_degradation (dependency : string) : exn + list (string * json) :=
  match dict_get
    [("stt", [("telephony_continues", JBool true); ("live_transcript", JBool false);
              ("queue_post_call", JBool true)]);
     ("llm", [("telephony_continues", JBool true);
              ("fallback", JStr "deterministic_human_transfer")]);
     ("tts", [("telephony_continues", JBool true);
              ("fallback", JStr "cached_announcement_human_transfer")]);
     ("redis", [("telephony_continues", JBool true); ("new_ai_sessions", JBool false);
                ("cross_agent_delivery", JBool false)]);
     ("odoo", [("telephony_continues", JBool true); ("persist_events", JBool true);
               ("reconcile_later", JBool true)]);
     ("websocket", [("telephony_continues", JBool true); ("manual_lookup", JBool true);
                    ("reconnect", JBool true)])] dependency with
  | Some policy => inr policy
  | None => inl (ValueError "unknown dependency")
  end.

Definition enabled (flag environment unit campaign : string) : exn + bool :=
  if negb (str_in flag FEATURE_FLAGS) then inl (ValueError "unknown real-time flag") else inr false.

(** ** The specification of the buffer *)

Definition publish_all (l : list ScreenPop) (b : ReplayBuffer) : ReplayBuffer :=
  fold_left (fun b e => (publish e b).1) l b.

(** The first event of each identity, in order. *)
Fixpoint first_occurrences (l : list ScreenPop) (seen : gset (string * Z)) : list ScreenPop :=
  match l with
  | [] => []
  | e :: rest =>
      if bool_decide (identity e ∈ seen) then first_occurrences rest seen
      else e :: first_occurrences rest ({[identity e]} ∪ seen)
  end.

Lemma keep_last_snoc {A} n (l : list A) x :
  keep_last n (keep_last n l ++ [x]) = keep_last n (l ++ [x]).
Proof.
  unfold keep_last. rewrite !length_app, length_drop. cbn.
  destruct (Nat.le_gt_cases (length l) n) as [Hle|Hgt].
  - replace (length l - n)%nat with O by lia. rewrite drop_0.
    replace (length l - 0 + 1 - n)%nat with (length l + 1 - n)%nat by lia. done.
  - destruct n as [|n].
    + rewrite (drop_ge l) by lia. rewrite !drop_ge; [done|rewrite length_app; cbn; lia|cbn; lia].
    + replace (length l - (length l - S n) + 1 - S n)%nat with 1%nat by lia.
      replace (length l + 1 - S n)%nat with ((length l - S n) + 1)%nat by lia.
      rewrite <- drop_drop. rewrite (drop_app_le l) by lia. done.
Qed.

Lemma publish_all_spec l b acc :
  _events b = keep_last (maximum b) acc ->
  maximum (publish_all l b) = maximum b
  /\ _events (publish_all l b) = keep_last (maximum b) (acc ++ first_occurrences l (_seen b))
  /\ _seen (publish_all l b) = list_to_set (identity <$> first_occurrences l (_seen b)) ∪ _seen b.
Proof.
  revert b acc. induction l as [|e l IH]; intros b acc Hev.
  - cbn. rewrite app_nil_r. split_and!; [done..|]. set_solver.
  - change (publish_all (e :: l) b) with (publish_all l (publish e b).1).
    assert (Hp : (publish e b).1 = if bool_decide (identity e ∈ _seen b) then b
      else mkBuffer (maximum b) (keep_last (maximum b) (_events b ++ [e]))
             ({[identity e]} ∪ _seen b)) by (unfold publish; by case_bool_decide).
    rewrite Hp. cbn [first_occurrences]. case_bool_decide as Hin; [by apply IH|].
    edestruct (IH (mkBuffer (maximum b) (keep_last (maximum b) (_events b ++ [e]))
      ({[identity e]} ∪ _seen b)) (app acc [e])) as (H1 & H2 & H3).
    { cbn. by rewrite Hev, keep_last_snoc. }
    cbn in *. split_and!; [done| |].
    + rewrite H2. by rewrite <- app_assoc.
    + rewrite H3. set_solver.
Qed.

(** The replay buffer keeps the last events: after any publications it
    holds exactly the most recent [maximum] of the distinct events, in order of
    publication; a client that asks for what follows a sequence number of its
    call gets exactly those of the held events of that call that do; and while
    no more than [maximum] distinct events were published nothing is lost. *)
Theorem replay_buffer_spec n l u k :
  let b := publish_all l (new_buffer n) in
  let distinct := first_occurrences l ∅ in
  _events b = keep_last n distinct
  /\ (length (_events b) <= n)%nat
  /\ replay u k b
     = List.filter (fun e => bool_decide (uniqueid e = u) && (k <? sequence e)) (keep_last n distinct)
  /\ ((length distinct <= n)%nat -> _events b = distinct).
Proof.
  intros b distinct.
  destruct (publish_all_spec l (new_buffer n) [] eq_refl) as (_ & He & _). cbn in He.
  fold b distinct in He. unfold replay. rewrite He. split_and!; [done| |done|].
  - unfold keep_last. rewrite length_drop. lia.
  - intros Hlen. unfold keep_last. replace (length distinct - n)%nat with O by lia. done.
Qed.

Lemma first_occurrences_nodup l seen :
  NoDup (identity <$> first_occurrences l seen)
  /\ (forall i, i ∈ identity <$> first_occurrences l seen -> i ∉ seen).
Proof.
  revert seen. induction l as [|e l IH]; intros seen; cbn; [split; [constructor|by intros ? ?%elem_of_nil]|].
  case_bool_decide as Hin; [apply IH|]. destruct (IH ({[identity e]} ∪ seen)) as [Hnd Hout]. cbn. split.
  - constructor; [|done]. intros Hi%Hout. set_solver.
  - intros i [->|Hi%Hout]%elem_of_cons; set_solver.
Qed.

(** The buffer is not bounded: although at most [maximum] events are held,
    the set of identities it remembers grows with every distinct event ever
    published, and an event that was dropped is refused as a duplicate for
    ever. *)
Theorem replay_buffer_memory_grows n l e :
  let b := publish_all l (new_buffer n) in
  size (_seen b) = length (first_occurrences l ∅)
  /\ (e ∈ first_occurrences l ∅ -> (publish e b).2 = false).
Proof.
  intros b. destruct (publish_all_spec l (new_buffer n) [] eq_refl) as (_ & _ & Hs). cbn in Hs.
  fold b in Hs. rewrite union_empty_r_L in Hs. split.
  - rewrite Hs, size_list_to_set, length_fmap; [done|]. apply first_occurrences_nodup.
  - intros He. unfold publish. rewrite Hs, bool_decide_eq_true_2; [done|].
    apply elem_of_list_to_set, list_elem_of_fmap. eauto.
Qed.
End Realtime.
