(* ===== verification/Appointments.v ===== *)
(** * Appointments, campaign allocations and transcription sessions

    [src/app/core/appointments.py], [src/app/core/campaign_allocation.py] and
    the parts of [src/app/core/transcription.py] that do not redact text. *)

From Stdlib Require Import QArith.
From S2P Require Import Prelude PyText PyTime Sha256 Txn Machines.
Local Open Scope string_scope.
Local Open Scope Z_scope.

(** ** [appointments.py] *)
Module Appointments.

Definition STATES : list string :=
  ["draft"; "scheduled"; "confirmed"; "reminder_pending"; "reminder_sent"; "preparing"; "due";
   "in_progress"; "completed"; "rescheduled"; "cancelled"; "customer_no_answer"; "agent_missed";
   "customer_requested_callback"; "supervisor_review"; "failed"].

Definition TRANSITIONS : table :=
  [("draft", ["scheduled"; "cancelled"]);
   ("scheduled", ["confirmed"; "reminder_pending"; "rescheduled"; "cancelled"]);
   ("confirmed", ["reminder_pending"; "preparing"; "rescheduled"; "cancelled"]);
   ("reminder_pending", ["reminder_sent"; "preparing"; "due"; "rescheduled"; "cancelled"]);
   ("reminder_sent", ["preparing"; "due"; "rescheduled"; "cancelled"]);
   ("preparing", ["due"; "in_progress"; "rescheduled"; "cancelled"; "failed"]);
   ("due", ["in_progress"; "agent_missed"; "customer_no_answer"; "rescheduled"; "failed"]);
   ("in_progress", ["completed"; "customer_requested_callback"; "failed"]);
   ("agent_missed", ["supervisor_review"; "rescheduled"]);
   ("supervisor_review", ["rescheduled"; "cancelled"; "completed"])].

Definition EVENT_OFFSETS : list (string * Z) :=
  [("popup_15m", -15); ("email_15m", -15); ("warning_5m", -5); ("pause_2m", -2); ("due", 0);
   ("overdue_2m", 2); ("supervisor_5m", 5); ("manager_15m", 15)].

Definition transition (current target : string) : exn + string :=
  if (negb (str_in current STATES) || negb (str_in target STATES)
      || negb (str_in target (successors TRANSITIONS current)))%bool
  then inl (ValueError ("invalid appointment transition " +:+ current +:+ "->" +:+ target))
  else inr target.

Record reminder := mkReminder {
  kind : string;
  scheduled_at : datetime;
  idempotency_key : string;
}.

Definition reminder_events (appointment_id : string) (start_utc : datetime) : list reminder :=
  (fun ko => mkReminder ko.1 (add_delta start_utc (minutes ko.2))
               ("appointment:" +:+ appointment_id +:+ ":" +:+ ko.1)) <$> EVENT_OFFSETS.

(** [ZoneInfoNotFoundError] is a [KeyError]. *)
Definition local_time (ZoneInfo : string -> zone) (value : datetime) (timezone : string) :
    exn + datetime :=
  if aware value then
    match ZoneInfo timezone with
    | zone_found offset_at => inr (in_zone offset_at value)
    | zone_not_found => inl (LookupError timezone)
    | zone_bad_key => inl (ValueError "ZoneInfo keys must be normalized relative paths")
    end
  else inl (ValueError "appointment timestamps must be timezone-aware").

Definition may_access (actor_unit : string) (actor_campaigns : list string)
    (unit campaign : string) : bool :=
  bool_decide (actor_unit = unit) && str_in campaign actor_campaigns.

(** [FakeTelephonyAdapter]: the state and whether it is confirmed. *)
Definition pause (active_call : bool) : string * bool :=
  if active_call then ("pause_pending", false) else ("APPT_PREP", true).
Definition resume (disposition_complete : bool) : string * bool :=
  if disposition_complete then ("READY", true) else ("APPT_PREP", false).
Definition start_call : exn + unit := inl (PermissionError "live dial authorization is not granted").

(** A sequence of transitions. *)
Fixpoint run (current : string) (targets : list string) : exn + string :=
  match targets with
  | [] => inr current
  | t :: rest => match transition current t with inr s => run s rest | inl e => inl e end
  end.

Lemma appointment_run_reaches current targets final :
  run current targets = inr final -> rtc (can_move TRANSITIONS) current final.
Proof.
  revert current. induction targets as [|t rest IH]; intros current; cbn.
  - intros [= ->]. apply rtc_refl.
  - destruct (transition current t) as [|s] eqn:E; [done|]. unfold transition in E.
    case_match; [done|]. injection E as <-. bool_to_prop. unfold str_in in *. bool_to_prop.
    intros Hr. eapply rtc_l; [|by apply IH]. done.
Qed.

(** The states in which an appointment rests. *)
Definition RESTING : list string :=
  ["completed"; "rescheduled"; "cancelled"; "customer_no_answer"; "customer_requested_callback";
   "failed"].

Definition live (s : string) : bool :=
  str_in s STATES
  && (if str_in s RESTING then bool_decide (successors TRANSITIONS s = [])
      else can_reach TRANSITIONS 6 ["rescheduled"; "completed"] s).

(** An appointment comes to rest in one of six states: after any accepted
    transitions from a draft it is in a known state, and either it rests, and
    nothing more is accepted, or it can still be completed or rescheduled.  Its
    eight reminders carry distinct idempotency keys and come in the order of
    their times. *)
Theorem appointment_comes_to_rest targets s id start :
  run "draft" targets = inr s ->
  s ∈ STATES
  /\ ((s ∈ RESTING /\ forall t, exists msg, transition s t = inl (ValueError msg))
      \/ exists t, t ∈ ["rescheduled"; "completed"] /\ rtc (can_move TRANSITIONS) s t)
  /\ NoDup (idempotency_key <$> reminder_events id start)
  /\ Sorted (fun a b => instant (scheduled_at a) <= instant (scheduled_at b))
       (reminder_events id start).
Proof.
  intros Hr%appointment_run_reaches.
  assert (Hl : live s = true).
  { eapply (all_within_spec TRANSITIONS 10 "draft"); [vm_compute; reflexivity|done]. }
  unfold live in Hl. bool_to_prop. unfold str_in at 1 in H. bool_to_prop.
  split_and!; [done| | |].
  - destruct (str_in s RESTING) eqn:Er.
    + left. unfold str_in in Er. bool_to_prop. split; [done|]. intros t. unfold transition.
      match goal with E : successors _ _ = [] |- _ => rewrite E end.
      unfold str_in at 3. rewrite (bool_decide_eq_false_2 (t ∈ [])) by apply not_elem_of_nil.
      rewrite orb_true_r. eauto.
    + right. by eapply can_reach_spec.
  - assert (Hinj : forall a b, "appointment:" +:+ id +:+ ":" +:+ a = "appointment:" +:+ id +:+ ":" +:+ b
                    -> a = b).
    { intros a b E. cbn in E. injection E as E. revert E.
      induction id as [|c id IH]; cbn; intros [= E]; auto. }
    change (NoDup ((fun k => "appointment:" +:+ id +:+ ":" +:+ k) <$> EVENT_OFFSETS.*1)).
    apply (@NoDup_fmap_2 _ _ _ Hinj).
    apply (bool_decide_unpack _). vm_compute. exact I.
  - unfold reminder_events, EVENT_OFFSETS. cbn.
    repeat constructor; cbn; rewrite !instant_add_delta; unfold minutes, seconds; lia.
Qed.

Lemma appointment_comes_to_rest_witness :
  run "draft" ["scheduled"; "confirmed"; "preparing"; "due"; "agent_missed"] = inr "agent_missed"
  /\ "agent_missed" ∈ STATES.
Proof.
  split; [vm_compute; reflexivity|].
  apply (appointment_comes_to_rest ["scheduled"; "confirmed"; "preparing"; "due"; "agent_missed"]
    "agent_missed" "a-1" (utc 0) ltac:(vm_compute; reflexivity)).
Defined.
End Appointments.

(** ** [campaign_allocation.py] *)
Module CampaignAllocation.

Record AllocationInput := mkAllocation {
  campaign_id : string;
  campaign_number : Z;
  allocation_public_id : string;
  extension_start : Z;
  extension_end : Z;
}.

(** [CampaignAllocationError] is a [ValueError]. *)
Definition validate_allocation (value : AllocationInput) : exn + AllocationInput :=
  if ((extension_start value <? 6100) || (9999 <? extension_end value))%bool then
    inl (ValueError "EXTENSION_OUT_OF_SUPPORTED_RANGE")
  else if extension_end value <? extension_start value then
    inl (ValueError "EXTENSION_RANGE_INVALID")
  else if ((campaign_number value <=? 0) || negb (campaign_number value mod 100 =? 0))%bool then
    inl (ValueError "CAMPAIGN_NUMBER_INVALID")
  else if (bool_decide (campaign_id value = "") || bool_decide (allocation_public_id value = ""))%bool
  then inl (ValueError "CAMPAIGN_ALLOCATION_IDENTITY_INVALID")
  else inr value.

Definition CONSTRAINT_ERRORS : list (string * string) :=
  [("ex_campaign_extension_allocation_no_overlap", "EXTENSION_RANGE_OVERLAP");
   ("ck_campaign_extension_allocation_start", "EXTENSION_OUT_OF_SUPPORTED_RANGE");
   ("ck_campaign_extension_allocation_end", "EXTENSION_OUT_OF_SUPPORTED_RANGE");
   ("ck_campaign_extension_allocation_order", "EXTENSION_RANGE_INVALID");
   ("campaign_extension_allocation_campaign_id_key", "CAMPAIGN_ALLOCATION_ALREADY_EXISTS");
   ("campaign_extension_allocation_campaign_number_key", "CAMPAIGN_ALLOCATION_ALREADY_EXISTS");
   ("campaign_extension_allocation_allocation_public_id_key", "CAMPAIGN_ALLOCATION_ALREADY_EXISTS");
   ("tr_campaign_extension_allocation_no_delete", "HISTORICAL_RANGE_REUSE_PROHIBITED");
   ("tr_campaign_extension_allocation_immutable", "HISTORICAL_RANGE_REUSE_PROHIBITED")].

(** [inr] is the error returned to the caller, [inl] the original one raised
    again.  The constraint name is the one the database driver reports, when it
    reports one. *)
Definition translate_integrity_error (constraint_name : option string) (exc : exn) : exn + exn :=
  match constraint_name with
  | None => inl exc
  | Some name =>
      match dict_get CONSTRAINT_ERRORS name with
      | Some code => inr (ValueError code)
      | None => inl exc
      end
  end.

(** The accepted allocations. *)
Lemma validate_allocation_ok value result :
  validate_allocation value = inr result <->
  result = value
  /\ 6100 <= extension_start value <= extension_end value /\ extension_end value <= 9999
  /\ 0 < campaign_number value /\ (100 | campaign_number value)
  /\ campaign_id value <> "" /\ allocation_public_id value <> "".
Proof.
  unfold validate_allocation. rewrite <- Z.mod_divide by done.
  repeat case_match; rewrite ?orb_true_iff, ?negb_true_iff in *; bool_to_prop;
    naive_solver (bool_to_prop; (lia || congruence)).
Qed.
End CampaignAllocation.

(** ** [transcription.py] *)
Module Transcription.

Definition UNITS : list string := ["TL"; "DEV"; "SCP"].
Definition SEGMENT_STATES : list string :=
  ["partial"; "stabilizing"; "final"; "corrected"; "redacted"; "rejected"].
Definition RESOLUTIONS : list string :=
  ["resolved_by_ivr"; "resolved_by_ai_voice"; "resolved_by_human"; "resolved_by_ai_and_human";
   "transferred_to_closer"; "transferred_to_support"; "appointment_scheduled"; "ticket_created";
   "order_completed"; "payment_completed"; "follow_up_required"; "escalated";
   "customer_disconnected"; "unresolved"; "incorrectly_routed"].

Record AudioSession := mkAudio {
  session_id : string;
  call_reference : string;
  business_unit : string;
  campaign : string;
  media_checksum : string;
  consent : bool;
  classification : string;
  retention_policy : string;
  correlation_id : string;
  state : string;
  test_only : bool;
}.
#[export] Instance AudioSession_eta : Eta AudioSession := fun s =>
  mkAudio (session_id s) (call_reference s) (business_unit s) (campaign s) (media_checksum s)
    (consent s) (classification s) (retention_policy s) (correlation_id s) (state s) (test_only s).

Definition hex_char (c : Ascii.ascii) : bool := in_range c 97 102 || is_digit c.

(** [id] is the reading of [uuid4()]. *)
Definition create_audio_session (id : uuid) (call_reference_ unit campaign_ checksum : string)
    (consent_ : bool) (classification_ retention corr : string) : exn + AudioSession :=
  if (negb (str_in unit UNITS) || negb (String.prefix (unit +:+ "-") campaign_))%bool then
    inl (PermissionError "invalid business-unit campaign scope")
  else if negb consent_ then inl (PermissionError "recording consent required")
  else if negb (fullmatch_class hex_char 64 64 checksum) then
    inl (ValueError "SHA-256 media checksum required")
  else inr (mkAudio (uuid_str id) call_reference_ unit campaign_ checksum consent_ classification_ retention
              corr "created" true).

Definition finalize_audio_session (session : AudioSession) (observed : string) : exn + AudioSession :=
  if bool_decide (observed = media_checksum session) then inr (session <| state := "finalized" |>)
  else inl (ValueError "media integrity check failed").

Record TranscriptSegment := mkSegment {
  seg_call_reference : string;
  channel : string;
  speaker : string;
  seg_sequence : Z;
  start_ms : Z;
  end_ms : Z;
  seg_language : string;
  confidence : Q;
  seg_state : string;
  text : string;
}.

Definition validate_segment (segment : TranscriptSegment) : exn + unit :=
  if (negb (str_in (seg_state segment) SEGMENT_STATES) || (seg_sequence segment <? 0))%bool then
    inl (ValueError "invalid segment state or sequence")
  else if ((start_ms segment <? 0) || (end_ms segment <=? start_ms segment))%bool then
    inl (ValueError "invalid segment timestamps")
  else if negb (Qle_bool 0 (confidence segment) && Qle_bool (confidence segment) 1) then
    inl (ValueError "invalid confidence")
  else if negb (str_in (channel segment) ["agent"; "customer"; "mixed"; "supervisor"; "interpreter"])
  then inl (ValueError "unknown channel")
  else inr tt.

Definition channel_identity (channel_ : string) (participant_map : list (string * string)) :
    string * bool :=
  match dict_get participant_map channel_ with
  | Some who => (who, false)
  | None => ("unknown", true)
  end.

Record analysis := mkAnalysis {
  primary_intent : string;
  secondary_intents : list string;
  resolution : string;
  sentiment : string;
  objections : list string;
  action_items : list string;
  dnc : bool;
  customer_confusion : bool;
  advisory_only : bool;
  allowed_commands : list string;
}.

Definition structured_analysis (intent : string) (secondary : list string)
    (resolution_ sentiment_ : string) (objections_ actions : list string) (dnc_ confusion : bool) :
    exn + analysis :=
  if negb (str_in resolution_ RESOLUTIONS) then inl (ValueError "unsupported resolution")
  else if negb (str_in sentiment_ ["positive"; "neutral"; "negative"; "mixed"; "unknown"]) then
    inl (ValueError "unsupported sentiment")
  else inr (mkAnalysis (text_prefix 64 intent) (take 10 secondary) resolution_ sentiment_
              (take 20 objections_) (take 20 actions) dnc_ confusion true []).

Definition FEATURE_FLAGS : list string :=
  ["ENABLE_LIVE_TRANSCRIPTION"; "ENABLE_FINAL_TRANSCRIPTION"; "ENABLE_WHISPERX_ALIGNMENT";
   "ENABLE_SPEAKER_DIARIZATION"; "ENABLE_TRANSCRIPT_REDACTION"; "ENABLE_LIVE_KEYWORD_DETECTION";
   "ENABLE_LIVE_AGENT_ASSIST"; "ENABLE_AI_CALL_SUMMARY"; "ENABLE_INTENT_CLASSIFICATION";
   "ENABLE_RESOLUTION_CLASSIFICATION"; "ENABLE_QA_ANALYSIS"; "ENABLE_COMPLIANCE_ANALYSIS";
   "ENABLE_TRANSCRIPT_SEARCH"].

(** [FeaturePolicy]: its overrides, keyed by environment, unit, campaign, flag. *)
Definition feature_enabled (overrides : gmap (string * string * string * string) bool)
    (flag environment unit campaign_ : string) : exn + bool :=
  if negb (str_in flag FEATURE_FLAGS) then inl (ValueError "unknown transcription feature flag")
  else inr (coalesce (overrides !! (environment, unit, campaign_, flag)) false).

(** Every feature is off until an override for exactly its environment, unit
    and campaign turns it on. *)
Lemma feature_off_by_default overrides flag environment unit campaign_ :
  feature_enabled overrides flag environment unit campaign_ = inr true ->
  flag ∈ FEATURE_FLAGS /\ overrides !! (environment, unit, campaign_, flag) = Some true.
Proof.
  unfold feature_enabled, str_in. case_match; [done|]. bool_to_prop.
  intros [= E]. destruct (overrides !! _) as [[]|]; cbn in E; naive_solver.
Qed.
End Transcription.
