(* ===== verification/Tts.v ===== *)
(** * Text-to-speech jobs ([src/app/core/tts_jobs.py])

    The durable queue of speech jobs: every function of the module as a program
    over the table [tts_generation_jobs] (migration 0033), the invariant of its
    rows, and what it promises: the provider is asked at most once for a job,
    and a job that is over stays over. *)

From S2P Require Import Prelude PyText PyTime Txn.
Local Open Scope string_scope.
Local Open Scope Z_scope.

Module Tts.

Inductive tts_state :=
  | queued | claimed | provider_starting | streaming | completed | failed | cancelled
  | ambiguous_provider_outcome.

#[export] Instance tts_state_eq_dec : EqDecision tts_state.
Proof. solve_decision. Defined.

Record tts_job := mkTts {
  t_id : uuid;
  t_organization_id : uuid;
  t_workspace_id : uuid;
  t_requested_by : string;
  t_project_key : string;
  t_voice_alias : string;
  t_model_alias : string;
  t_output_profile : string;
  t_idempotency_key : string;
  t_correlation_id : string;
  t_request_sha256 : string;
  t_character_count : Z;
  t_state : tts_state;
  t_attempt_count : Z;
  t_max_attempts : Z;
  t_fencing_token : Z;
  t_lease_owner : option string;
  t_lease_expires_at : option Z;
  t_provider_request_started_at : option Z;
  t_first_chunk_at : option Z;
  t_completed_at : option Z;
  t_cancellation_at : option Z;
  t_chunk_count : Z;
  t_audio_bytes : Z;
  t_failure_class : option string;
  t_created_at : Z;
  t_updated_at : Z;
}.
#[export] Instance tts_job_eta : Eta tts_job := fun j =>
  mkTts (t_id j) (t_organization_id j) (t_workspace_id j) (t_requested_by j) (t_project_key j)
    (t_voice_alias j) (t_model_alias j) (t_output_profile j) (t_idempotency_key j)
    (t_correlation_id j) (t_request_sha256 j) (t_character_count j) (t_state j)
    (t_attempt_count j) (t_max_attempts j) (t_fencing_token j) (t_lease_owner j)
    (t_lease_expires_at j) (t_provider_request_started_at j) (t_first_chunk_at j)
    (t_completed_at j) (t_cancellation_at j) (t_chunk_count j) (t_audio_bytes j)
    (t_failure_class j) (t_created_at j) (t_updated_at j).

Notation table := (gmap uuid tts_job).

(** ** Statements *)

(** The check constraints of the table. *)
Definition row_checks (j : tts_job) : bool :=
  (0 <=? t_attempt_count j) && (1 <=? t_max_attempts j) && (t_max_attempts j <=? 2)
  && fullmatch_class is_lower_hex 64 64 (t_request_sha256 j)
  && (1 <=? t_character_count j) && (t_character_count j <=? 1000)
  && (0 <=? t_chunk_count j) && (0 <=? t_audio_bytes j).

(** [UPDATE ... SET f WHERE id=:job AND p RETURNING ...] *)
Definition update_returning (job_id : uuid) (p : tts_job -> bool) (f : tts_job -> tts_job) :
    M table (option tts_job) :=
  row ← query (fun m : table => j ← m !! job_id; if p j then Some j else None);
  match row with
  | Some j =>
      guard_or (row_checks (f j)) (IntegrityError "tts_generation_jobs") ;;
      execute (alter f job_id) ;;
      mret (Some (f j))
  | None => mret None
  end.

Definition same_request (a b : tts_job) : bool :=
  bool_decide (t_organization_id a = t_organization_id b)
  && bool_decide (t_workspace_id a = t_workspace_id b)
  && bool_decide (t_project_key a = t_project_key b)
  && bool_decide (t_requested_by a = t_requested_by b)
  && bool_decide (t_idempotency_key a = t_idempotency_key b).

(** [INSERT ... ON CONFLICT(key) DO UPDATE SET updated_at=updated_at
    RETURNING id,state,request_sha256,(id=:id)]: the checks come first, then
    the key, then the primary key. *)
Definition upsert_row (j : tts_job) : M table tts_job :=
  guard_or (row_checks j) (IntegrityError "tts_generation_jobs") ;;
  existing ← query (fun m : table => head (select_where (same_request j) m));
  match existing with
  | Some old => mret old
  | None =>
      insert_or "tts_generation_jobs_pkey" (fun m : table =>
        match m !! t_id j with Some _ => None | None => Some (<[t_id j := j]> m) end) ;;
      mret j
  end.

(** ** The functions of the module *)

Record submitted := mkSubmitted {
  sm_id : uuid;
  sm_state : tts_state;
  sm_request_sha256 : string;
  sm_created : bool;
}.

Definition new_row (job_id organization_id workspace_id : uuid)
    (requested_by project_key voice_alias model_alias output_profile idempotency_key
     correlation_id request_sha256 : string) (character_count t : Z) : tts_job :=
  mkTts job_id organization_id workspace_id requested_by project_key voice_alias model_alias
    output_profile idempotency_key correlation_id request_sha256 character_count queued 0 2 0
    None None None None None None 0 0 None t t.

Definition submit (organization_id workspace_id : uuid)
    (requested_by project_key voice_alias model_alias output_profile idempotency_key
     correlation_id request_sha256 : string) (character_count : Z) : M table submitted :=
  job_id ← uuid4;
  t ← now;
  row ← upsert_row (new_row job_id organization_id workspace_id requested_by project_key
                      voice_alias model_alias output_profile idempotency_key correlation_id
                      request_sha256 character_count t);
  commit ;;
  guard_or (bool_decide (t_request_sha256 row = request_sha256))
    (ValueError "tts_idempotency_conflict") ;;
  mret (mkSubmitted (t_id row) (t_state row) (t_request_sha256 row)
          (bool_decide (t_id row = job_id))).

Definition claimable (j : tts_job) : bool :=
  bool_decide (t_state j = queued) && is_null (t_cancellation_at j).

Definition lease_to (worker_id : string) (t lease_seconds : Z) (j : tts_job) : tts_job :=
  j <| t_state := claimed |>
    <| t_lease_owner := Some worker_id |>
    <| t_lease_expires_at := Some (t + seconds lease_seconds) |>
    <| t_attempt_count ::= Z.succ |>
    <| t_fencing_token ::= Z.succ |>
    <| t_updated_at := t |>.

(** [ORDER BY created_at,id] *)
Definition older (a b : tts_job) : bool :=
  (t_created_at a <? t_created_at b)
  || ((t_created_at a =? t_created_at b) && (t_id a <=? t_id b)%N).

Definition claim (worker_id : string) (lease_seconds : Z) : M table (option tts_job) :=
  t ← now;
  candidate ← query (fun m : table => head (sort_by older (select_where claimable m)));
  match candidate with
  | Some j =>
      execute (alter (lease_to worker_id t lease_seconds) (t_id j)) ;;
      commit ;; mret (Some (lease_to worker_id t lease_seconds j))
  | None => commit ;; mret None
  end.

Definition claim_exact (job_id : uuid) (worker_id : string) (lease_seconds : Z) :
    M table (option tts_job) :=
  t ← now;
  row ← update_returning job_id claimable (lease_to worker_id t lease_seconds);
  commit ;;
  mret row.

Definition held_by (worker_id : string) (fencing_token : Z) (j : tts_job) : bool :=
  null_eq (t_lease_owner j) worker_id && (t_fencing_token j =? fencing_token).

Definition stale : exn := PermissionError "tts_stale_or_cancelled_lease".

Definition start_provider (t : Z) (j : tts_job) : tts_job :=
  j <| t_state := provider_starting |> <| t_provider_request_started_at := Some t |>
    <| t_updated_at := t |>.

Definition mark_provider_started (job_id : uuid) (worker_id : string) (fencing_token : Z) :
    M table unit :=
  t ← now;
  row ← update_returning job_id
    (fun j => bool_decide (t_state j = claimed) && held_by worker_id fencing_token j
              && null_gt (t_lease_expires_at j) t && is_null (t_cancellation_at j))
    (start_provider t);
  commit ;;
  guard_or (negb (is_null row)) stale.

Definition in_flight (j : tts_job) : bool :=
  bool_decide (t_state j ∈ [provider_starting; streaming]).

Definition add_chunk (size t : Z) (j : tts_job) : tts_job :=
  j <| t_state := streaming |>
    <| t_first_chunk_at ::= fun c => Some (coalesce c t) |>
    <| t_chunk_count ::= Z.succ |>
    <| t_audio_bytes ::= Z.add size |>
    <| t_lease_expires_at := Some (t + seconds 60) |>
    <| t_updated_at := t |>.

Definition record_chunk (job_id : uuid) (worker_id : string) (fencing_token size : Z) :
    M table unit :=
  t ← now;
  row ← update_returning job_id
    (fun j => in_flight j && held_by worker_id fencing_token j
              && null_gt (t_lease_expires_at j) t && is_null (t_cancellation_at j))
    (add_chunk size t);
  commit ;;
  guard_or (negb (is_null row)) stale.

Definition set_completed (t : Z) (j : tts_job) : tts_job :=
  j <| t_state := completed |> <| t_completed_at := Some t |>
    <| t_lease_owner := None |> <| t_lease_expires_at := None |> <| t_updated_at := t |>.

Definition complete (job_id : uuid) (worker_id : string) (fencing_token : Z) : M table bool :=
  t ← now;
  row ← update_returning job_id
    (fun j => bool_decide (t_state j = streaming) && held_by worker_id fencing_token j
              && negb (is_null (t_first_chunk_at j)) && is_null (t_cancellation_at j))
    (set_completed t);
  commit ;;
  mret (negb (is_null row)).

Definition set_ambiguous (failure : string) (t : Z) (j : tts_job) : tts_job :=
  j <| t_state := ambiguous_provider_outcome |> <| t_failure_class := Some failure |>
    <| t_lease_owner := None |> <| t_lease_expires_at := None |> <| t_updated_at := t |>.

Definition mark_ambiguous (job_id : uuid) (worker_id : string) (fencing_token : Z)
    (failure_class : string) : M table bool :=
  t ← now;
  row ← update_returning job_id (fun j => in_flight j && held_by worker_id fencing_token j)
    (set_ambiguous (text_prefix 128 failure_class) t);
  commit ;;
  mret (negb (is_null row)).

Definition set_cancelled_streaming (t : Z) (j : tts_job) : tts_job :=
  j <| t_state := cancelled |> <| t_cancellation_at ::= fun c => Some (coalesce c t) |>
    <| t_lease_owner := None |> <| t_lease_expires_at := None |> <| t_updated_at := t |>.

Definition mark_cancelled_streaming (job_id : uuid) (worker_id : string) (fencing_token : Z) :
    M table bool :=
  t ← now;
  row ← update_returning job_id (fun j => in_flight j && held_by worker_id fencing_token j)
    (set_cancelled_streaming t);
  commit ;;
  mret (negb (is_null row)).

Definition owned (organization_id workspace_id : uuid) (requested_by : string) (j : tts_job) :
    bool :=
  bool_decide (t_organization_id j = organization_id)
  && bool_decide (t_workspace_id j = workspace_id)
  && bool_decide (t_requested_by j = requested_by).

Definition terminal (j : tts_job) : bool :=
  bool_decide (t_state j ∈ [completed; failed; cancelled; ambiguous_provider_outcome]).

Definition set_cancelled (t : Z) (j : tts_job) : tts_job :=
  j <| t_cancellation_at := Some t |> <| t_state := cancelled |>
    <| t_lease_owner := None |> <| t_lease_expires_at := None |> <| t_updated_at := t |>.

Definition cancel (job_id organization_id workspace_id : uuid) (requested_by : string) :
    M table tts_state :=
  t ← now;
  row ← update_returning job_id
    (fun j => owned organization_id workspace_id requested_by j && negb (terminal j))
    (set_cancelled t);
  commit ;;
  match row with
  | Some j => mret (t_state j)
  | None => raise (LookupError "tts_job_not_found_or_terminal")
  end.

Definition requeueable (t : Z) (j : tts_job) : bool :=
  bool_decide (t_state j = claimed) && null_le (t_lease_expires_at j) t
  && is_null (t_provider_request_started_at j) && is_null (t_cancellation_at j).
Definition requeue (t : Z) (j : tts_job) : tts_job :=
  j <| t_state := queued |> <| t_lease_owner := None |> <| t_lease_expires_at := None |>
    <| t_updated_at := t |>.

Definition lost (t : Z) (j : tts_job) : bool := in_flight j && null_le (t_lease_expires_at j) t.
Definition give_up_on (t : Z) : tts_job -> tts_job :=
  set_ambiguous "TTS_AMBIGUOUS_PROVIDER_OUTCOME" t.

(** The counts of the two updates. *)
Definition recover_expired : M table (Z * Z) :=
  t ← now;
  safe ← query (fun m : table => count_where (requeueable t) m);
  execute (update_where (requeueable t) (requeue t)) ;;
  ambiguous ← query (fun m : table => count_where (lost t) m);
  execute (update_where (lost t) (give_up_on t)) ;;
  commit ;;
  mret (safe, ambiguous).

Definition status (job_id organization_id workspace_id : uuid) (requested_by : string) :
    M table tts_job :=
  row ← query (fun m : table =>
    j ← m !! job_id; if owned organization_id workspace_id requested_by j then Some j else None);
  some_or row (LookupError "tts_job_not_found").

(** ** The service: any request, at any time *)

Inductive request :=
  | RSubmit (organization_id workspace_id : uuid)
      (requested_by project_key voice_alias model_alias output_profile idempotency_key
       correlation_id request_sha256 : string) (character_count : Z)
  | RClaim (worker_id : string) (lease_seconds : Z)
  | RClaimExact (job_id : uuid) (worker_id : string) (lease_seconds : Z)
  | RStart (job_id : uuid) (worker_id : string) (fencing_token : Z)
  | RChunk (job_id : uuid) (worker_id : string) (fencing_token size : Z)
  | RComplete (job_id : uuid) (worker_id : string) (fencing_token : Z)
  | RAmbiguous (job_id : uuid) (worker_id : string) (fencing_token : Z) (failure : string)
  | RCancelStreaming (job_id : uuid) (worker_id : string) (fencing_token : Z)
  | RCancel (job_id organization_id workspace_id : uuid) (requested_by : string)
  | RRecover.

Definition ignore {A} (m : M table A) : M table unit := m ;; mret tt.

Definition handle (r : request) : M table unit :=
  match r with
  | RSubmit org ws user project voice model profile key corr sha n =>
      ignore (submit org ws user project voice model profile key corr sha n)
  | RClaim w n => ignore (claim w n)
  | RClaimExact id w n => ignore (claim_exact id w n)
  | RStart id w tok => mark_provider_started id w tok
  | RChunk id w tok size => record_chunk id w tok size
  | RComplete id w tok => ignore (complete id w tok)
  | RAmbiguous id w tok failure => ignore (mark_ambiguous id w tok failure)
  | RCancelStreaming id w tok => ignore (mark_cancelled_streaming id w tok)
  | RCancel id org ws user => ignore (cancel id org ws user)
  | RRecover => ignore recover_expired
  end.

(** One request, with the clock and the identifiers the world provides. *)
Inductive step (m : table) : table -> Prop :=
  | serve clk ids r : step m (with_session clk ids (handle r) m).1.

Definition reachable (m : table) : Prop := rtc step ∅ m.

(** ** The life of a row *)

(** What one statement may do to a row. *)
Inductive row_step : tts_job -> tts_job -> Prop :=
  | rs_claim w t n j : claimable j = true -> row_step j (lease_to w t n j)
  | rs_start t j : t_state j = claimed -> t_cancellation_at j = None -> row_step j (start_provider t j)
  | rs_chunk size t j : in_flight j = true -> t_cancellation_at j = None ->
      row_checks (add_chunk size t j) = true -> row_step j (add_chunk size t j)
  | rs_complete t j : t_state j = streaming -> is_Some (t_first_chunk_at j) ->
      t_cancellation_at j = None -> row_step j (set_completed t j)
  | rs_ambiguous failure t j : in_flight j = true -> row_step j (set_ambiguous failure t j)
  | rs_cancel_streaming t j : in_flight j = true -> row_step j (set_cancelled_streaming t j)
  | rs_cancel t j : terminal j = false -> row_step j (set_cancelled t j)
  | rs_requeue t j : requeueable t j = true -> row_step j (requeue t j).

(** A new row. *)
Definition fresh (id : uuid) (j : tts_job) : Prop :=
  t_id j = id /\ t_state j = queued /\ t_attempt_count j = 0 /\ t_fencing_token j = 0
  /\ t_lease_owner j = None /\ t_lease_expires_at j = None
  /\ t_provider_request_started_at j = None /\ t_first_chunk_at j = None
  /\ t_cancellation_at j = None /\ t_chunk_count j = 0 /\ t_audio_bytes j = 0
  /\ row_checks j = true.

Definition evolves (id : uuid) (o o' : option tts_job) : Prop :=
  match o, o' with
  | Some j, Some j' => rtc row_step j j'
  | None, Some j' => fresh id j'
  | None, None => True
  | Some _, None => False
  end.

Definition rows_evolve (m m' : table) : Prop := forall id, evolves id (m !! id) (m' !! id).

Lemma evolves_refl id o : evolves id o o.
Proof. destruct o; cbn; [apply rtc_refl|done]. Qed.

Lemma rows_evolve_refl m : rows_evolve m m.
Proof. intros id. apply evolves_refl. Qed.

Lemma rows_evolve_alter m id f :
  (forall j, m !! id = Some j -> row_step j (f j)) -> rows_evolve m (alter f id m).
Proof.
  intros Hf k. destruct (decide (id = k)) as [->|Hne].
  - rewrite lookup_alter_eq. destruct (m !! k) as [j|] eqn:E; cbn; [|done].
    apply rtc_once. by apply Hf.
  - rewrite lookup_alter_ne by done. apply evolves_refl.
Qed.

Lemma rows_evolve_insert m j :
  m !! t_id j = None -> fresh (t_id j) j -> rows_evolve m (<[t_id j := j]> m).
Proof.
  intros Hn Hf k. rewrite lookup_insert. case_decide as Hk; [|apply evolves_refl].
  rewrite <- Hk, Hn. exact Hf.
Qed.

Lemma rows_evolve_where m p f :
  (forall j, p j = true -> row_step j (f j)) -> rows_evolve m (update_where p f m).
Proof.
  intros Hf k. rewrite lookup_update_where. destruct (m !! k) as [j|]; cbn; [|done].
  destruct (p j) eqn:Ep; [apply rtc_once; by apply Hf|apply rtc_refl].
Qed.

(** Rows are stored under their id. *)
Definition keyed (m : table) : Prop := forall id j, m !! id = Some j -> t_id j = id.

(** A program that only lets rows evolve. *)
Definition advances {A} (p : M table A) : Prop :=
  forall m clk ids, keyed m -> rows_evolve m (with_session clk ids p m).1.

Lemma update_returning_wp id p f (Q : session table -> exn + option tts_job -> Prop) s :
  (forall j, working s !! id = Some j -> p j = true -> row_checks (f j) = true ->
     Q (Session (committed s) (alter f id (working s)) (clock s) (supply s)) (inr (Some (f j)))) ->
  (forall e, Q s (inl e)) -> Q s (inr None) ->
  wp (update_returning id p f) Q s.
Proof.
  intros Hs He Hn. unfold update_returning. wp_run; [|by apply He|done].
  destruct (working s !! id) as [j|] eqn:Ej; [|done]. cbn in Heqo.
  destruct (p j) eqn:Ep; [|done]. injection Heqo as ->. by apply Hs.
Qed.
(** An operation that is one guarded update, committed. *)
Lemma advances_update {A} id (p : Z -> tts_job -> bool) f (k : option tts_job -> M table A) :
  (forall t j, p t j = true -> row_checks (f t j) = true -> row_step j (f t j)) ->
  (forall row s, committed (k row s).1 = committed s) ->
  advances (t ← now; row ← update_returning id (p t) (f t); commit ;; k row).
Proof.
  intros Hf Hk m clk ids _.
  change (wp (t ← now; row ← update_returning id (p t) (f t); commit ;; k row)
            (fun s' _ => rows_evolve m (committed s')) (Session m m clk ids)).
  apply wp_bind, wp_now, wp_bind, update_returning_wp; cbn [working].
  - intros j Hj Hp Hc. apply wp_bind, wp_commit. unfold wp. rewrite Hk. cbn.
    apply rows_evolve_alter. intros j' Hj'. simplify_eq. by apply Hf.
  - intros e. cbn. apply rows_evolve_refl.
  - apply wp_bind, wp_commit. unfold wp. rewrite Hk. cbn. apply rows_evolve_refl.
Qed.

Lemma advances_ignore {A} (p : M table A) : advances p -> advances (ignore p).
Proof.
  intros Hp m clk ids Hm. specialize (Hp m clk ids Hm). unfold with_session, ignore, mbind, M_bind in *.
  cbn in *. destruct (p _) as [s [e|a]]; done.
Qed.

Lemma submit_advances org ws user project voice model profile key corr sha n :
  advances (submit org ws user project voice model profile key corr sha n).
Proof.
  intros m clk ids _.
  change (wp (submit org ws user project voice model profile key corr sha n)
            (fun s' _ => rows_evolve m (committed s')) (Session m m clk ids)).
  unfold submit, upsert_row. wp_run; cbn [committed working]; try apply rows_evolve_refl.
  all: match goal with H : match ?o with _ => _ end = Some _ |- _ =>
         destruct o eqn:E; [done|]; injection H as <- end; by apply rows_evolve_insert.
Qed.

Lemma claim_advances w n : advances (claim w n).
Proof.
  intros m clk ids Hm.
  change (wp (claim w n) (fun s' _ => rows_evolve m (committed s')) (Session m m clk ids)).
  unfold claim. wp_run; cbn [committed working]; [|apply rows_evolve_refl].
  apply rows_evolve_alter. intros j Hj. constructor.
  assert (Hin : t ∈ select_where claimable m).
  { rewrite <- (sort_by_perm older). apply head_Some_elem_of. done. }
  apply elem_of_select_where in Hin as [Hc [k Hk]]. pose proof (Hm _ _ Hk). by simplify_eq.
Qed.

Lemma recover_advances : advances recover_expired.
Proof.
  intros m clk ids _.
  change (wp recover_expired (fun s' _ => rows_evolve m (committed s')) (Session m m clk ids)).
  unfold recover_expired. wp_run; cbn [committed working]. intros k.
  rewrite !lookup_update_where. destruct (m !! k) as [j|]; cbn; [|done].
  destruct (requeueable (clk O) j) eqn:Er.
  - eapply rtc_l; [by apply rs_requeue|]. case_match; [|apply rtc_refl].
    apply rtc_once, rs_ambiguous. unfold lost in *. by bool_to_prop.
  - case_match; [|apply rtc_refl]. apply rtc_once, rs_ambiguous. unfold lost in *. by bool_to_prop.
Qed.

Ltac one_update :=
  apply advances_update; [intros t j Hp Hc; bool_to_prop|intros row s'; by destruct row].

Lemma handle_advances r : advances (handle r).
Proof.
  destruct r; cbn [handle].
  - apply advances_ignore, submit_advances.
  - apply advances_ignore, claim_advances.
  - apply advances_ignore. one_update. by apply rs_claim.
  - one_update. by apply rs_start.
  - one_update. by apply rs_chunk.
  - apply advances_ignore. one_update. by apply rs_complete.
  - apply advances_ignore. one_update. by apply rs_ambiguous.
  - apply advances_ignore. one_update. by apply rs_cancel_streaming.
  - apply advances_ignore. one_update. by apply rs_cancel.
  - apply advances_ignore, recover_advances.
Qed.

(** ** The invariant of a row *)

Definition leased (j : tts_job) : Prop := is_Some (t_lease_owner j) /\ is_Some (t_lease_expires_at j).
Definition unleased (j : tts_job) : Prop := t_lease_owner j = None /\ t_lease_expires_at j = None.
Definition silent (j : tts_job) : Prop :=
  t_first_chunk_at j = None /\ t_chunk_count j = 0 /\ t_audio_bytes j = 0.
Definition heard (j : tts_job) : Prop := is_Some (t_first_chunk_at j) /\ 0 < t_chunk_count j.

Definition shape (j : tts_job) : Prop :=
  match t_state j with
  | queued => unleased j /\ t_provider_request_started_at j = None /\ silent j
              /\ t_cancellation_at j = None
  | claimed => leased j /\ t_provider_request_started_at j = None /\ silent j
               /\ t_cancellation_at j = None
  | provider_starting => leased j /\ is_Some (t_provider_request_started_at j) /\ silent j
                         /\ t_cancellation_at j = None
  | streaming => leased j /\ is_Some (t_provider_request_started_at j) /\ heard j
                 /\ t_cancellation_at j = None
  | completed => unleased j /\ is_Some (t_provider_request_started_at j) /\ heard j
                 /\ t_cancellation_at j = None
  | ambiguous_provider_outcome => unleased j /\ is_Some (t_provider_request_started_at j)
                                  /\ t_cancellation_at j = None
  | cancelled => unleased j /\ is_Some (t_cancellation_at j)
  | failed => False
  end.

Definition row_ok (j : tts_job) : Prop :=
  row_checks j = true /\ t_fencing_token j = t_attempt_count j /\ shape j.

Lemma fresh_ok id j : fresh id j -> row_ok j.
Proof.
  intros (_ & Hs & Ha & Hf & Ho & He & Hp & Hc & Hx & Hn & Hb & Hck).
  split_and!; [done|congruence|]. unfold shape, unleased, silent. by rewrite Hs.
Qed.

Lemma row_checks_spec j :
  row_checks j = true <->
  0 <= t_attempt_count j /\ 1 <= t_max_attempts j <= 2
  /\ fullmatch_class is_lower_hex 64 64 (t_request_sha256 j) = true
  /\ 1 <= t_character_count j <= 1000 /\ 0 <= t_chunk_count j /\ 0 <= t_audio_bytes j.
Proof.
  unfold row_checks. rewrite !andb_true_iff, !Z.leb_le. tauto.
Qed.

Lemma in_flight_spec j :
  in_flight j = true <-> t_state j = provider_starting \/ t_state j = streaming.
Proof. unfold in_flight. destruct (t_state j); vm_compute; naive_solver. Qed.

Lemma terminal_spec j :
  terminal j = false <->
  t_state j = queued \/ t_state j = claimed \/ t_state j = provider_starting
  \/ t_state j = streaming.
Proof. unfold terminal. destruct (t_state j); vm_compute; naive_solver. Qed.

(** Splits a fact about the state of a row into its cases. *)
Ltac by_state Hs :=
  repeat match goal with
  | H : in_flight _ = true |- _ => apply in_flight_spec in H
  | H : terminal _ = false |- _ => apply terminal_spec in H
  | H : _ \/ _ |- _ => destruct H
  | H : t_state ?j = _ |- _ => rewrite H in Hs
  end; cbn in Hs; destruct_and?.

Lemma row_step_ok j j' : row_ok j -> row_step j j' -> row_ok j'.
Proof.
  intros (Hc & Ht & Hs) Hstep. pose proof Hc as Hck. rewrite row_checks_spec in Hck.
  destruct Hck as (H1 & H2 & H3 & H4 & H5 & H6). unfold shape in Hs.
  destruct Hstep; unfold claimable, requeueable in *; bool_to_prop; by_state Hs;
    unfold leased, unleased, silent, heard in *; destruct_and?;
    (split_and!;
      [try done; apply row_checks_spec; cbn; split_and!; (done || lia)|cbn; lia|]);
    unfold shape, leased, unleased, silent, heard; cbn; split_and?; eauto; lia.
Qed.

(** ** Runs *)

Lemma row_step_id j j' : row_step j j' -> t_id j' = t_id j.
Proof. by destruct 1. Qed.

Lemma rows_evolve_keyed m m' : keyed m -> rows_evolve m m' -> keyed m'.
Proof.
  intros Hm He id j' Hj'. specialize (He id). rewrite Hj' in He. unfold evolves in He.
  destruct (m !! id) as [j|] eqn:Ej; [|by destruct He].
  rewrite <- (Hm _ _ Ej). clear Ej Hj'. induction He as [|x y z Hs _ IH]; [done|].
  by rewrite IH, (row_step_id _ _ Hs).
Qed.

Definition table_ok (m : table) : Prop :=
  keyed m /\ forall id j, m !! id = Some j -> row_ok j.

Lemma rtc_row_step_ok j j' : row_ok j -> rtc row_step j j' -> row_ok j'.
Proof. intros Hj. induction 1; eauto using row_step_ok. Qed.

Lemma step_evolves m m' : table_ok m -> step m m' -> rows_evolve m m'.
Proof. intros [Hm _] [clk ids r]. by apply handle_advances. Qed.

Lemma step_ok m m' : table_ok m -> step m m' -> table_ok m'.
Proof.
  intros Hm Hs. pose proof (step_evolves _ _ Hm Hs) as He. destruct Hm as [Hk Hr].
  split; [by eapply rows_evolve_keyed|]. intros id j' Hj'. specialize (He id).
  rewrite Hj' in He. unfold evolves in He. destruct (m !! id) as [j|] eqn:Ej.
  - by eapply rtc_row_step_ok; [eapply Hr|].
  - by eapply fresh_ok.
Qed.

Lemma run_ok m m' : table_ok m -> rtc step m m' -> table_ok m'.
Proof. intros Hm. induction 1; eauto using step_ok. Qed.

Lemma reachable_ok m : reachable m -> table_ok m.
Proof.
  apply run_ok. split; intros id j; by rewrite lookup_empty.
Qed.

(** Every row of a run evolves from the row it was. *)
Lemma run_row m m' id j :
  table_ok m -> rtc step m m' -> m !! id = Some j ->
  exists j', m' !! id = Some j' /\ rtc row_step j j'.
Proof.
  intros Hm Hr. revert j. induction Hr as [m|m m1 m' Hs _ IH]; intros j Hj.
  - exists j. split; [done|apply rtc_refl].
  - pose proof (step_evolves _ _ Hm Hs id) as He. rewrite Hj in He. unfold evolves in He.
    destruct (m1 !! id) as [j1|] eqn:E1; [|done].
    destruct (IH (step_ok _ _ Hm Hs) j1 eq_refl) as (j' & Hj' & Hr').
    exists j'. split; [done|]. by etrans.
Qed.

(** ** What the queue promises *)

Lemma started_stable j j' t :
  row_ok j -> t_provider_request_started_at j = Some t -> rtc row_step j j' ->
  t_provider_request_started_at j' = Some t.
Proof.
  intros Hj Ht Hr. induction Hr as [|x y z Hs _ IH]; [done|].
  apply IH; [by eapply row_step_ok|]. destruct Hj as (_ & _ & Hsh). unfold shape in Hsh.
  destruct Hs; cbn; try done.
  all: match goal with H : t_state _ = _ |- _ => rewrite H in Hsh end; cbn in Hsh; naive_solver.
Qed.

(** A guarded update that the row does not satisfy changes nothing. *)
Lemma update_refused {A} id p f (k : option tts_job -> M table A) m clk ids :
  (forall j, m !! id = Some j -> p (clk O) j = false) ->
  with_session clk ids (t ← now; row ← update_returning id (p t) (f t); commit ;; k row) m
  = (committed (k None (Session m m (fun n => clk (S n)) ids)).1,
     (k None (Session m m (fun n => clk (S n)) ids)).2).
Proof.
  intros Hp. unfold with_session, update_returning, mbind, M_bind, now, query. cbn.
  destruct (m !! id) as [j|] eqn:Ej; cbn; [rewrite (Hp j eq_refl)|]; reflexivity.
Qed.

(** C35. The provider is asked at most once for a job: after a worker has marked
    the start of the provider request, at any later time and whatever happened
    since, nobody can mark it again, with any token, nobody can claim the job
    again, and the recorded time stands; these refusals change nothing. *)
Theorem provider_asked_once m clk ids id w tok m1 m2 :
  reachable m ->
  with_session clk ids (mark_provider_started id w tok) m = (m1, inr tt) ->
  rtc step m1 m2 ->
  (exists j, m2 !! id = Some j /\ t_provider_request_started_at j = Some (clk O))
  /\ forall clk' ids' w' tok' secs,
       with_session clk' ids' (mark_provider_started id w' tok') m2 = (m2, inl stale)
       /\ with_session clk' ids' (claim_exact id w' secs) m2 = (m2, inr None).
Proof.
  intros Hm%reachable_ok E Hr.
  assert (H1 : exists j, m1 !! id = Some j /\ t_provider_request_started_at j = Some (clk O)).
  { change m1 with (m1, @inr exn unit tt).1. rewrite <- E.
    assert (Hw : wp (mark_provider_started id w tok) (fun s' r => r = inr tt ->
      exists j, committed s' !! id = Some j /\ t_provider_request_started_at j = Some (clk O))
      (Session m m clk ids)); [|apply Hw; unfold with_session in E; by injection E].
    unfold mark_provider_started. apply wp_bind, wp_now, wp_bind, update_returning_wp; [|done|].
    - cbn [working]. intros j Hj _ _. wp_run; [|done]. intros _. cbn. exists (start_provider (clk O) j).
      by rewrite lookup_alter_eq, Hj.
    - wp_run; done. }
  assert (Hs : step m m1).
  { pose proof (serve m clk ids (RStart id w tok)) as Hs. cbn [handle] in Hs.
    by rewrite E in Hs. }
  destruct H1 as (j1 & Hj1 & Ht1). pose proof (step_ok _ _ Hm Hs) as Hm1.
  destruct (run_row _ _ _ _ Hm1 Hr Hj1) as (j2 & Hj2 & Hrs).
  pose proof (started_stable _ _ _ (proj2 Hm1 _ _ Hj1) Ht1 Hrs) as Ht2.
  destruct (run_ok _ _ Hm1 Hr) as [_ Hok]. destruct (Hok _ _ Hj2) as (_ & _ & Hsh).
  unfold shape in Hsh. split; [by exists j2|]. intros clk' ids' w' tok' secs. split.
  - unfold mark_provider_started. rewrite (update_refused id (fun t j => _)); [done|].
    intros j Hj. rewrite Hj2 in Hj. injection Hj as <-. destruct (t_state j2) eqn:Est; naive_solver.
  - unfold claim_exact. rewrite (update_refused id (fun _ => claimable)); [done|].
    intros j Hj. rewrite Hj2 in Hj. injection Hj as <-. unfold claimable.
    destruct (t_state j2) eqn:Est; naive_solver.
Qed.

Lemma row_step_terminal j j' : terminal j = true -> row_step j j' -> False.
Proof.
  intros Ht Hs. destruct Hs; unfold claimable, requeueable in *; bool_to_prop;
    repeat match goal with H : in_flight _ = true |- _ => apply in_flight_spec in H end;
    unfold terminal in *; destruct (t_state j); naive_solver.
Qed.

(** A job that is over is over: the row of a completed, cancelled or
    ambiguous job is never changed again by anything, and every row of every
    reachable table has the shape of its state: a lease exactly while a worker
    holds it, a provider start exactly from then on, chunks and bytes only
    after it, a cancellation time exactly when cancelled, a fencing token equal
    to the number of attempts, and never the state [failed]. *)
Theorem finished_rows_immutable m m' id j :
  reachable m -> rtc step m m' -> m !! id = Some j ->
  row_ok j /\ (terminal j = true -> m' !! id = Some j).
Proof.
  intros Hm%reachable_ok Hr Hj. split; [by eapply Hm|]. intros Ht.
  destruct (run_row _ _ _ _ Hm Hr Hj) as (j' & Hj' & Hrs).
  destruct Hrs as [|x y z Hs _]; [done|]. by destruct (row_step_terminal _ _ Ht Hs).
Qed.

Definition recovered (t : Z) (j : tts_job) : tts_job :=
  if requeueable t j then requeue t j else if lost t j then give_up_on t j else j.

Lemma requeued_not_lost t j : lost t (requeue t j) = false.
Proof. done. Qed.

Lemma expired_cases t j :
  row_ok j -> null_le (t_lease_expires_at j) t = true ->
  if is_null (t_provider_request_started_at j)
  then requeueable t j = true else requeueable t j = false /\ lost t j = true.
Proof.
  intros (_ & _ & Hsh) He. unfold shape, unleased, leased, requeueable, lost, in_flight in *.
  rewrite He. destruct (t_state j); destruct_and?;
    repeat match goal with
    | H : t_lease_expires_at j = None |- _ => by rewrite H in He
    | H : is_Some _ |- _ => destruct H as [? H]; rewrite ?H
    | H : t_cancellation_at j = None |- _ => rewrite H; clear H
    | H : t_provider_request_started_at j = None |- _ => rewrite H; clear H
    end; done.
Qed.

(** What the two statements of the sweep do to every row. *)
Lemma recover_rows m clk ids :
  exists m' counts,
    with_session clk ids recover_expired m = (m', inr counts)
    /\ forall id, m' !! id = recovered (clk O) <$> m !! id.
Proof.
  exists (update_where (lost (clk O)) (give_up_on (clk O))
    (update_where (requeueable (clk O)) (requeue (clk O)) m)). eexists.
  split; [reflexivity|]. intros id. rewrite !lookup_update_where.
  destruct (m !! id) as [j|]; [|done]. cbn.
  unfold recovered. destruct (requeueable _ j); [|done]. by rewrite requeued_not_lost.
Qed.

(** Recovery is complete and safe: on reachable tables it succeeds, puts
    back into the queue exactly the expired claims whose provider request never
    started, declares every other expired lease ambiguous, leaves all other
    rows alone, and afterwards no lease is expired. *)
Theorem recovery_leaves_no_expired_lease m clk ids :
  reachable m ->
  let t := clk O in
  exists m' counts,
    with_session clk ids recover_expired m = (m', inr counts)
    /\ (forall id, m' !! id = recovered t <$> m !! id)
    /\ (forall id j, m !! id = Some j -> null_le (t_lease_expires_at j) t = true ->
          t_state (recovered t j)
          = if is_null (t_provider_request_started_at j) then queued
            else ambiguous_provider_outcome)
    /\ (forall id j, m' !! id = Some j -> null_le (t_lease_expires_at j) t = false).
Proof.
  intros [_ Hok]%reachable_ok t. destruct (recover_rows m clk ids) as (m' & counts & E & Hm').
  fold t in Hm'.
  exists m', counts. split_and!; [exact E|exact Hm'|..].
  - intros id j Hj He. specialize (expired_cases t j (Hok _ _ Hj) He). unfold recovered.
    destruct (is_null _); [intros ->; done|]. by intros [-> ->].
  - intros id j' Hj'. rewrite Hm' in Hj'. destruct (m !! id) as [j|] eqn:Ej; [|done].
    injection Hj' as <-. destruct (null_le (t_lease_expires_at j) t) eqn:He.
    + specialize (expired_cases t j (Hok _ _ Ej) He). unfold recovered.
      destruct (is_null _); [by intros ->|]. by intros [-> ->].
    + unfold recovered. repeat case_match; [done..|]. exact He.
Qed.

(** ** A run *)

Definition sha_demo : string := "9f86d081884c7d659a2feaa0c55ad015a3bf4f1b2b0b822cd15d6c15b0f00a08".
Definition demo_serve (t : Z) (r : request) (m : table) : table :=
  (with_session (fun _ => seconds t) (fun n => (7 + N.of_nat n)%N) (handle r) m).1.
Definition tts_queued : table :=
  demo_serve 0 (RSubmit 1%N 2%N "alice" "codestra-ai-console" "canary" "m1" "mp3_44100_128"
    "key-0000000000001" "corr-1" sha_demo 12) ∅.
Definition tts_claimed : table := demo_serve 1 (RClaimExact 7%N "w1" 60) tts_queued.
Definition tts_started : table := demo_serve 2 (RStart 7%N "w1" 1) tts_claimed.
Definition tts_streaming : table := demo_serve 3 (RChunk 7%N "w1" 1 512) tts_started.
Definition tts_completed : table := demo_serve 4 (RComplete 7%N "w1" 1) tts_streaming.

Lemma demo_step t r m : reachable m -> reachable (demo_serve t r m).
Proof. intros Hm. eapply rtc_r; [exact Hm|constructor]. Qed.

Lemma tts_queued_reachable : reachable tts_queued.
Proof. apply demo_step, rtc_refl. Qed.
Lemma tts_claimed_reachable : reachable tts_claimed.
Proof. apply demo_step, tts_queued_reachable. Qed.
Lemma tts_completed_reachable : reachable tts_completed.
Proof. apply demo_step, demo_step, demo_step, tts_claimed_reachable. Qed.

Lemma provider_asked_once_witness :
  with_session (fun _ => seconds 9) (fun n => N.of_nat n) (mark_provider_started 7%N "w1" 1) tts_completed
  = (tts_completed, inl stale).
Proof.
  apply (provider_asked_once tts_claimed (fun _ => seconds 2) (fun n => (7 + N.of_nat n)%N) 7%N "w1" 1
    tts_started tts_completed tts_claimed_reachable ltac:(vm_compute; reflexivity)).
  - eapply rtc_l; [exact (serve tts_started (fun _ => seconds 3) (fun n => (7 + N.of_nat n)%N) (RChunk 7%N "w1" 1 512))|].
    eapply rtc_l; [exact (serve tts_streaming (fun _ => seconds 4) (fun n => (7 + N.of_nat n)%N) (RComplete 7%N "w1" 1))|]. apply rtc_refl.
  - exact 0.
Defined.

Lemma finished_rows_immutable_witness :
  exists j, tts_completed !! 7%N = Some j /\ row_ok j.
Proof.
  destruct (tts_completed !! 7%N) as [j|] eqn:E; [|vm_compute in E; discriminate].
  exists j. split; [reflexivity|].
  apply (finished_rows_immutable tts_completed tts_completed 7%N j tts_completed_reachable
    (rtc_refl _ _) E).
Defined.

Lemma recovery_leaves_no_expired_lease_witness :
  exists m' counts,
    with_session (fun _ => seconds 100) (fun n => N.of_nat n) recover_expired tts_claimed
    = (m', inr counts).
Proof.
  destruct (recovery_leaves_no_expired_lease tts_claimed (fun _ => seconds 100) (fun n => N.of_nat n)
    tts_claimed_reachable) as (m' & counts & E & _).
  exists m', counts. exact E.
Defined.

(** ** Attempts *)

(** A claim that expires before the provider is asked puts the job back, one
    attempt richer. *)
Lemma expired_claim_requeues m id j :
  reachable m -> m !! id = Some j -> claimable j = true ->
  exists m' j', rtc step m m' /\ m' !! id = Some j' /\ claimable j' = true
    /\ t_attempt_count j' = t_attempt_count j + 1 /\ t_max_attempts j' = t_max_attempts j.
Proof.
  intros Hm Hj Hc. set (m1 := (with_session (fun _ => 0) (fun _ => 0%N) (handle (RClaimExact id "w" 0)) m).1).
  assert (Hs1 : step m m1) by constructor.
  assert (Hck : row_checks (lease_to "w" 0 0 j) = true).
  { pose proof (proj2 (reachable_ok _ Hm) _ _ Hj) as (Hr & _). rewrite row_checks_spec in *.
    destruct Hr as (? & ? & ? & ? & ? & ?). cbn. split_and!; (done || lia). }
  assert (Hm1 : m1 !! id = Some (lease_to "w" 0 0 j)).
  { unfold m1, with_session, handle, ignore, claim_exact, update_returning, mbind, M_bind, now, query.
    cbn. rewrite Hj. cbn. rewrite Hc. cbn. rewrite Hck. cbn. by rewrite lookup_alter_eq, Hj. }
  destruct (recover_rows m1 (fun _ => 0) (fun _ => 0%N)) as (m2 & counts & E2 & Hm2).
  assert (Hs2 : step m1 m2).
  { pose proof (serve m1 (fun _ => 0) (fun _ => 0%N) RRecover) as Hs2.
    unfold handle, ignore, with_session, mbind, M_bind in Hs2, E2. cbn in Hs2, E2.
    by injection E2 as E2 _; rewrite <- E2. }
  pose proof (proj2 (reachable_ok _ Hm) _ _ Hj) as (_ & _ & Hsh).
  unfold claimable in Hc. bool_to_prop. unfold shape in Hsh.
  match goal with H : t_state j = queued |- _ => rewrite H in Hsh end.
  destruct Hsh as (_ & Hp & _ & Hx).
  exists m2, (requeue 0 (lease_to "w" 0 0 j)). split_and!; [|..|done|done].
  - eapply rtc_l; [exact Hs1|]. by apply rtc_once.
  - rewrite Hm2, Hm1. cbn. unfold recovered, requeueable. cbn. rewrite Hp, Hx. reflexivity.
  - unfold claimable. cbn. by rewrite Hx.
Qed.

(** The attempt limit is not enforced: the column [max_attempts] is at most
    two, but no statement reads it, and for every [n] there is a reachable table
    with a job that was claimed more than [n] times. *)
Theorem attempts_unbounded (n : nat) :
  exists m id j, reachable m /\ m !! id = Some j
    /\ Z.of_nat n < t_attempt_count j /\ t_max_attempts j <= 2.
Proof.
  assert (H : forall k : nat, exists m id j, reachable m /\ m !! id = Some j /\ claimable j = true
    /\ t_attempt_count j = Z.of_nat k /\ t_max_attempts j <= 2).
  { induction k as [|k (m & id & j & Hm & Hj & Hc & Hn & Hx)].
    - exists tts_queued, 7%N. destruct (tts_queued !! 7%N) as [j|] eqn:E; [|done].
      exists j. split; [apply tts_queued_reachable|]. split; [done|].
      vm_compute in E. injection E as <-. by vm_compute.
    - destruct (expired_claim_requeues m id j Hm Hj Hc) as (m' & j' & Hr & Hj' & Hc' & Hn' & Hx').
      exists m', id, j'. split_and!; [unfold reachable in *; by etrans|done|done|lia|lia]. }
  destruct (H (S n)) as (m & id & j & ? & ? & _ & ? & ?). exists m, id, j. split_and!; [done|done|lia|done].
Qed.

End Tts.
