(* ===== verification/TtsStream.v ===== *)
(** * The speech API ([src/app/api/v1/tts.py])

    Admission control with its rate windows and its global lock, the checks of
    a speech request, and the streaming handler.  The handler awaits between its
    database statements, so other requests run in between: it is cut into the
    segments that run without interruption, and a service step is one segment of
    one stream, or any request to the job table of [Tts]. *)

From S2P Require Import Prelude PyText PyTime Sha256 Txn Tts.
Local Open Scope string_scope.
Local Open Scope Z_scope.

Module TtsStream.

Definition APPROVED_PROJECT : string := "codestra-ai-console".
Definition APPROVED_PROFILE : string := "canary".
Definition CONTENT_TYPES : list (string * string) := [("mp3_44100_128", "audio/mpeg")].
Definition USER_REQUESTS_PER_MINUTE : nat := 10.
Definition TENANT_REQUESTS_PER_MINUTE : nat := 20.

(** ** Admission *)

(** The windows hold readings of [time.monotonic()], oldest first. *)
Record Admission := mkAdmission {
  locked : bool;
  user_windows : gmap string (list Z);
  tenant_windows : gmap string (list Z);
}.

Definition new_admission : Admission := mkAdmission false ∅ ∅.

(** The subject of a request: the fields of [Tenant] the module reads. *)
Record subject := mkSubject {
  sj_organization_id : uuid;
  sj_workspace_id : uuid;
  sj_user_id : string;
  sj_roles : list string;
}.

Definition user_key (s : subject) : string :=
  uuid_str (sj_organization_id s) +:+ ":" +:+ sj_user_id s.
Definition tenant_key (s : subject) : string := uuid_str (sj_organization_id s).

(** The loop of [_check_window], which drops what is a minute old. *)
Fixpoint prune (now : Z) (window : list Z) : list Z :=
  match window with
  | t :: rest => if seconds 60 <=? now - t then prune now rest else window
  | [] => []
  end.

Definition window_of (key : string) (windows : gmap string (list Z)) : list Z :=
  coalesce (windows !! key) [].

(** [acquire]: the windows are pruned even when the request is refused. *)
Definition acquire (s : subject) (now : Z) (a : Admission) : Admission * (exn + unit) :=
  let uw := prune now (window_of (user_key s) (user_windows a)) in
  let users := <[user_key s := uw]> (user_windows a) in
  if (USER_REQUESTS_PER_MINUTE <=? length uw)%nat then
    (mkAdmission (locked a) users (tenant_windows a),
     inl (HTTPException 429 "tts_rate_limit_exceeded"))
  else
    let tw := prune now (window_of (tenant_key s) (tenant_windows a)) in
    let tenants := <[tenant_key s := tw]> (tenant_windows a) in
    if (TENANT_REQUESTS_PER_MINUTE <=? length tw)%nat then
      (mkAdmission (locked a) users tenants, inl (HTTPException 429 "tts_rate_limit_exceeded"))
    else if locked a then
      (mkAdmission (locked a) users tenants, inl (HTTPException 429 "tts_capacity_exhausted"))
    else
      (mkAdmission true (<[user_key s := app uw [now]]> users)
         (<[tenant_key s := app tw [now]]> tenants), inr tt).

Definition release (a : Admission) : Admission :=
  mkAdmission false (user_windows a) (tenant_windows a).

(** ** The rate limit *)

Inductive admission_event :=
  | Acquire (s : subject) (now : Z)
  | Release.

(** The log of accepted requests: user key, tenant key, time. *)
Definition log := list (string * string * Z).

Definition exec (st : Admission * log) (e : admission_event) : Admission * log :=
  match e with
  | Release => (release st.1, st.2)
  | Acquire s now =>
      let r := acquire s now st.1 in
      (r.1, match r.2 with
            | inr _ => app st.2 [(user_key s, tenant_key s, now)]
            | inl _ => st.2
            end)
  end.

Definition by_user (key : string) (l : log) : list Z :=
  snd <$> List.filter (fun e => bool_decide (e.1.1 = key)) l.
Definition by_tenant (key : string) (l : log) : list Z :=
  snd <$> List.filter (fun e => bool_decide (e.1.2 = key)) l.

(** Any [limit + 1] entries in a row span at least a minute. *)
Definition spaced (limit : nat) (l : list Z) : Prop :=
  forall i a b, l !! i = Some a -> l !! (i + limit)%nat = Some b -> seconds 60 <= b - a.

(** The accepted times [acc] are the dropped ones, all a minute old at [T],
    and the window. *)
Definition window_ok (limit : nat) (acc w : list Z) (T : Z) : Prop :=
  spaced limit acc /\ (length w <= limit)%nat
  /\ exists dropped, acc = app dropped w /\ Forall (fun x => seconds 60 <= T - x) dropped.

Lemma prune_ok limit acc w T now :
  T <= now -> window_ok limit acc w T -> window_ok limit acc (prune now w) now.
Proof.
  intros HT (Hsp & Hlen & dropped & -> & Hd). split; [done|].
  assert (Hd' : Forall (fun x => seconds 60 <= now - x) dropped).
  { eapply Forall_impl; [exact Hd|]. cbn. lia. }
  clear Hd. revert dropped Hsp Hd'. induction w as [|t w IH]; intros dropped Hsp Hd; cbn.
  - split; [lia|]. exists dropped. by rewrite app_nil_r.
  - destruct (Z.leb_spec (seconds 60) (now - t)).
    + assert (E : app dropped (t :: w) = app (app dropped [t]) w) by by rewrite <- app_assoc.
      rewrite E. apply IH; [cbn in Hlen; lia|by rewrite <- E|].
      apply Forall_app. split; [done|]. by constructor.
    + split; [done|]. by exists dropped.
Qed.

Lemma push_ok limit acc w now :
  (length w < limit)%nat -> window_ok limit acc w now ->
  window_ok limit (app acc [now]) (app w [now]) now.
Proof.
  intros Hlt (Hsp & Hlen & dropped & -> & Hd). split_and!.
  - intros i a b Ha Hb. destruct (decide (i + limit < length (app dropped w))%nat) as [Hin|Hout].
    + rewrite lookup_app_l in Ha, Hb by lia. by eapply Hsp.
    + assert (Hi : (i + limit)%nat = length (app dropped w)).
      { apply lookup_lt_Some in Hb. rewrite length_app in Hb. cbn in Hb. lia. }
      rewrite Hi, lookup_app_r, Nat.sub_diag in Hb by lia. cbn in Hb. injection Hb as <-.
      rewrite length_app in Hi. rewrite lookup_app_l in Ha by (rewrite length_app; lia).
      rewrite lookup_app_l in Ha by lia. by eapply Forall_lookup_1 in Hd.
  - rewrite length_app. cbn. lia.
  - exists dropped. by rewrite app_assoc.
Qed.

Definition limits_ok (st : Admission * log) (T : Z) : Prop :=
  (forall key, window_ok USER_REQUESTS_PER_MINUTE (by_user key st.2)
                 (window_of key (user_windows st.1)) T)
  /\ (forall key, window_ok TENANT_REQUESTS_PER_MINUTE (by_tenant key st.2)
                    (window_of key (tenant_windows st.1)) T).

Lemma window_later limit acc w T T' : T <= T' -> window_ok limit acc w T -> window_ok limit acc w T'.
Proof.
  intros HT (Hsp & Hlen & dropped & -> & Hd). split_and!; [done|done|].
  exists dropped. split; [done|]. eapply Forall_impl; [exact Hd|]. cbn. lia.
Qed.

Lemma window_of_insert key w windows key' :
  window_of key' (<[key := w]> windows) = if decide (key = key') then w else window_of key' windows.
Proof. unfold window_of. rewrite lookup_insert. by case_decide. Qed.

Lemma by_user_snoc key l u t now :
  by_user key (app l [(u, t, now)]) = if decide (u = key) then app (by_user key l) [now] else by_user key l.
Proof.
  unfold by_user. rewrite List.filter_app. cbn. case_bool_decide; case_decide; try done.
  - by rewrite fmap_app.
  - by rewrite app_nil_r.
Qed.

Lemma by_tenant_snoc key l u t now :
  by_tenant key (app l [(u, t, now)])
  = if decide (t = key) then app (by_tenant key l) [now] else by_tenant key l.
Proof.
  unfold by_tenant. rewrite List.filter_app. cbn. case_bool_decide; case_decide; try done.
  - by rewrite fmap_app.
  - by rewrite app_nil_r.
Qed.

(** A pruned window, and one that also got the new request. *)
Lemma pruned_windows limit (acc : string -> list Z) windows key T now :
  T <= now -> (forall k, window_ok limit (acc k) (window_of k windows) T) ->
  forall k, window_ok limit (acc k) (window_of k (<[key := prune now (window_of key windows)]> windows)) now.
Proof.
  intros HT Hok k. rewrite window_of_insert. case_decide as Hk.
  - subst. by eapply prune_ok.
  - by eapply window_later.
Qed.

Lemma pushed_windows limit (acc acc' : string -> list Z) windows key now :
  (forall k, window_ok limit (acc k) (window_of k windows) now) ->
  (length (window_of key windows) < limit)%nat ->
  (forall k, acc' k = if decide (key = k) then app (acc k) [now] else acc k) ->
  forall k, window_ok limit (acc' k)
    (window_of k (<[key := app (window_of key windows) [now]]> windows)) now.
Proof.
  intros Hok Hlt Hacc k. rewrite window_of_insert, Hacc. case_decide as Hk; [|done].
  subst. by apply push_ok.
Qed.

Definition event_time (e : admission_event) (T : Z) : Z :=
  match e with Acquire _ now => now | Release => T end.

Lemma exec_ok st e T :
  T <= event_time e T -> limits_ok st T -> limits_ok (exec st e) (event_time e T).
Proof.
  destruct st as [a l], e as [s now|]; cbn [event_time]; intros HT [Hu Ht]; [|done].
  pose proof (pruned_windows _ (fun k => by_user k l) _ (user_key s) _ _ HT Hu) as Hu1.
  pose proof (pruned_windows _ (fun k => by_tenant k l) _ (tenant_key s) _ _ HT Ht) as Ht1.
  unfold exec, acquire. cbn [fst snd] in *.
  destruct (Nat.leb_spec USER_REQUESTS_PER_MINUTE
    (length (prune now (window_of (user_key s) (user_windows a))))) as [|Hul].
  { split; [exact Hu1|]. intros key. eapply window_later; [exact HT|apply Ht]. }
  destruct (Nat.leb_spec TENANT_REQUESTS_PER_MINUTE
    (length (prune now (window_of (tenant_key s) (tenant_windows a))))) as [|Htl].
  { split; [exact Hu1|exact Ht1]. }
  destruct (locked a); [split; [exact Hu1|exact Ht1]|].
  assert (Hown : forall key w windows, window_of key (<[key := w]> windows) = w).
  { intros. rewrite window_of_insert. by case_decide. }
  split; cbn [fst snd user_windows tenant_windows].
  - intros k. pose proof (pushed_windows _ _ (fun k => by_user k (app l [(user_key s, tenant_key s, now)]))
      _ (user_key s) now Hu1) as Hp. rewrite Hown in Hp. apply Hp; [done|]. intros. apply by_user_snoc.
  - intros k. pose proof (pushed_windows _ _ (fun k => by_tenant k (app l [(user_key s, tenant_key s, now)]))
      _ (tenant_key s) now Ht1) as Hp. rewrite Hown in Hp. apply Hp; [done|]. intros. apply by_tenant_snoc.
Qed.

(** The clock of the events never goes back. *)
Fixpoint forward (T : Z) (events : list admission_event) : Prop :=
  match events with
  | [] => True
  | e :: rest => T <= event_time e T /\ forward (event_time e T) rest
  end.

Lemma run_limits events st T :
  forward T events -> limits_ok st T -> exists T', limits_ok (fold_left exec events st) T'.
Proof.
  revert st T. induction events as [|e rest IH]; intros st T; cbn; [eauto|].
  intros [HT Hf] Hok. eapply IH; [exact Hf|]. by apply exec_ok.
Qed.

(** The rate limits hold over every sliding minute: however requests and
    releases interleave, as long as the clock does not go back, eleven accepted
    requests in a row of one user span at least a minute, and so do twenty-one
    of one organisation. *)
Theorem rate_limits_hold start events :
  forward start events ->
  let accepted := (fold_left exec events (new_admission, [])).2 in
  (forall s, spaced USER_REQUESTS_PER_MINUTE (by_user (user_key s) accepted))
  /\ (forall s, spaced TENANT_REQUESTS_PER_MINUTE (by_tenant (tenant_key s) accepted)).
Proof.
  intros Hf. cbn zeta.
  assert (Hempty : forall limit, window_ok limit [] [] start).
  { intros limit. split_and!; [by intros i a b|cbn; lia|]. by exists []. }
  destruct (run_limits events (new_admission, []) start Hf) as [T' [Hu Ht]].
  { split; intros key; unfold window_of; cbn; rewrite lookup_empty; apply Hempty. }
  split; intros s; [apply Hu|apply Ht].
Qed.

Definition demo_subject : subject := mkSubject 1%N 2%N "alice" ["codestra_ai_user"].

Lemma rate_limits_hold_witness :
  spaced USER_REQUESTS_PER_MINUTE
    (by_user (user_key demo_subject)
       (fold_left exec [Acquire demo_subject 0; Release; Acquire demo_subject 5]
          (new_admission, [])).2).
Proof.
  apply (rate_limits_hold 0 [Acquire demo_subject 0; Release; Acquire demo_subject 5]).
  cbn. lia.
Defined.

(** ** The handler *)

Record settings := mkSettings {
  elevenlabs_provider_enabled : bool;
  elevenlabs_max_concurrency : Z;
  elevenlabs_canary_voice_id : string;
  elevenlabs_api_key_present : bool;
  elevenlabs_max_text_characters : Z;
  elevenlabs_model_id : string;
  ai_job_project_allowlist : string;
}.

Record SpeechRequest := mkSpeech {
  text : string;
  voice_profile : string;
  project_key : string;
  output_format : string;
}.

Definition _voice_profiles (cfg : settings) : list (string * string) :=
  let voice_id := strip (elevenlabs_canary_voice_id cfg) in
  if bool_decide (voice_id = "") then [] else [(APPROVED_PROFILE, voice_id)].

(** [failure] is [provider_readiness_failure]. *)
Definition validate_readiness (cfg : settings) (failure : option string) : exn + unit :=
  if negb (elevenlabs_provider_enabled cfg) then inl (HTTPException 503 "TTS_TEMPORARILY_UNAVAILABLE")
  else if negb (elevenlabs_max_concurrency cfg =? 1) then
    inl (HTTPException 503 "TTS_CONFIGURATION_INVALID")
  else if negb (is_null failure) then inl (HTTPException 503 "TTS_PROVIDER_NOT_READY")
  else if bool_decide (_voice_profiles cfg = []) then
    inl (HTTPException 503 "TTS_VOICE_PROFILE_UNAVAILABLE")
  else if negb (elevenlabs_api_key_present cfg) then
    inl (HTTPException 503 "TTS_CREDENTIAL_UNAVAILABLE")
  else inr tt.

Definition newline : string := chr 10.

Definition _request_digest (s : subject) (body : SpeechRequest) : string :=
  sha256_hex (join newline
    [uuid_str (sj_organization_id s); uuid_str (sj_workspace_id s); sj_user_id s;
     project_key body; voice_profile body; output_format body; text body]).

Definition allowed_projects (cfg : settings) : list string :=
  List.filter (fun s => negb (bool_decide (s = "")))
    (strip <$> split_comma (ai_job_project_allowlist cfg)).

(** The checks before anything is stored; the answer is the voice. *)
Definition stream_checks (cfg : settings) (failure : option string) (s : subject)
    (body : SpeechRequest) : exn + string :=
  match validate_readiness cfg failure with
  | inl e => inl e
  | inr _ =>
      if negb (str_in "codestra_ai_user" (sj_roles s)) then inl (HTTPException 403 "TTS_ROLE_REQUIRED")
      else if (negb (bool_decide (project_key body = APPROVED_PROJECT))
               || negb (str_in (project_key body) (allowed_projects cfg)))%bool
      then inl (HTTPException 403 "TTS_PROJECT_NOT_APPROVED")
      else match dict_get (_voice_profiles cfg) (voice_profile body) with
           | None => inl (HTTPException 422 "TTS_VOICE_PROFILE_UNKNOWN")
           | Some voice_id =>
               if is_null (dict_get CONTENT_TYPES (output_format body)) then
                 inl (HTTPException 422 "TTS_OUTPUT_FORMAT_UNSUPPORTED")
               else if elevenlabs_max_text_characters cfg <? py_len (text body) then
                 inl (HTTPException 413 "TTS_TEXT_LIMIT_EXCEEDED")
               else inr voice_id
           end
  end.

(** Where a stream is, between two segments.  From [AdmissionHeld] on it holds the
    global lock. *)
Inductive phase :=
  | Submitted
  | AdmissionHeld
  | Claimed (token : Z)
  | Audited (token : Z)
  | Started (token : Z)
  | FirstChunk (token size : Z)
  | Streaming (token : Z).

Record stream := mkStream {
  sr_job : uuid;
  sr_subject : subject;
  sr_phase : phase;
}.

(** How a request ends. *)
Inductive response :=
  | Raised (e : exn)
  | Replayed (id : uuid) (state : Tts.tts_state)
  | Finished.

Record service := mkService {
  sv_table : gmap uuid Tts.tts_job;
  sv_audits : list (uuid * uuid * string);
  sv_admission : Admission;
  sv_failure : option string;
}.
#[export] Instance service_eta : Eta service := fun v =>
  mkService (sv_table v) (sv_audits v) (sv_admission v) (sv_failure v).

(** A statement of [tts_jobs] on the service's table. *)
Definition on_table {A} (clk : nat -> Z) (ids : nat -> uuid) (m : M (gmap uuid Tts.tts_job) A)
    (v : service) : service * (exn + A) :=
  let r := with_session clk ids m (sv_table v) in (v <| sv_table := r.1 |>, r.2).

(** Both handlers translate the missing row to a 404. *)
Definition job_status (s : subject) (job_id : uuid) (clk : nat -> Z) (ids : nat -> uuid)
    (v : service) : service * (exn + Tts.tts_job) :=
  match on_table clk ids
    (Tts.status job_id (sj_organization_id s) (sj_workspace_id s) (sj_user_id s)) v with
  | (v', inl (LookupError _)) => (v', inl (HTTPException 404 "TTS_JOB_NOT_FOUND"))
  | r => r
  end.

Definition cancel_job (s : subject) (job_id : uuid) (clk : nat -> Z) (ids : nat -> uuid)
    (v : service) : service * (exn + (uuid * Tts.tts_state)) :=
  match on_table clk ids
    (Tts.cancel job_id (sj_organization_id s) (sj_workspace_id s) (sj_user_id s)) v with
  | (v', inl (LookupError _)) => (v', inl (HTTPException 404 "TTS_JOB_NOT_FOUND_OR_TERMINAL"))
  | (v', inl e) => (v', inl e)
  | (v', inr state) => (v', inr (job_id, state))
  end.

Definition worker_id : string := "elevenlabs-inline-01".

(** The checks and the submission; [inr] is a stream to go on with. *)
Definition open_stream (cfg : settings) (s : subject) (body : SpeechRequest)
    (idempotency_key correlation_id : string) (clk : nat -> Z) (ids : nat -> uuid) (v : service) :
    service * (response + stream) :=
  match stream_checks cfg (sv_failure v) s body with
  | inl e => (v, inl (Raised e))
  | inr _ =>
      match on_table clk ids
        (Tts.submit (sj_organization_id s) (sj_workspace_id s) (sj_user_id s) (project_key body)
           (voice_profile body) (elevenlabs_model_id cfg) (output_format body) idempotency_key
           correlation_id (_request_digest s body) (py_len (text body))) v with
      | (v', inl (ValueError _)) => (v', inl (Raised (HTTPException 409 "TTS_IDEMPOTENCY_CONFLICT")))
      | (v', inl _) => (v', inl (Raised (HTTPException 503 "TTS_QUEUE_UNAVAILABLE")))
      | (v', inr row) =>
          if Tts.sm_created row then (v', inr (mkStream (Tts.sm_id row) s Submitted))
          else (v', inl (Replayed (Tts.sm_id row) (Tts.sm_state row)))
      end
  end.

(** What the world brings to a segment: the time, whether the audit insert
    succeeds, what the provider's iterator yields, or that the client left. *)
Inductive input :=
  | Tick (monotonic : Z) (clk : nat -> Z) (ids : nat -> uuid)
  | AuditFailed
  | Chunk (size : nat) (clk : nat -> Z) (ids : nat -> uuid)
  | ProviderError (code : string) (clk : nat -> Z) (ids : nat -> uuid)
  | EndOfStream (clk : nat -> Z) (ids : nat -> uuid)
  | ClientGone (clk : nat -> Z) (ids : nat -> uuid).

Definition released (v : service) : service := v <| sv_admission ::= release |>.

Definition DISABLING_CODES : list string :=
  ["tts_authentication_failed"; "tts_permission_denied"; "tts_voice_or_model_not_found"].

(** The [except] clause around the first chunk: the release and the mark are one
    segment, since nothing that runs between them sees more than the released
    lock. *)
Definition first_chunk_failed (job : uuid) (token : Z) (code : string) (clk : nat -> Z)
    (ids : nat -> uuid) (v : service) : service * response :=
  match on_table clk ids (Tts.mark_ambiguous job worker_id token code) (released v) with
  | (v', inl e) => (v', Raised e)
  | (v', inr _) =>
      (if str_in code DISABLING_CODES then v' <| sv_failure := Some code |> else v',
       Raised (HTTPException (if bool_decide (code = "tts_rate_limited") then 429 else 503) code))
  end.

(** The generator's [except TTSError] and its [finally]. *)
Definition stream_failed (job : uuid) (token : Z) (code : string) (clk : nat -> Z)
    (ids : nat -> uuid) (v : service) : service * response :=
  match on_table clk ids (Tts.mark_ambiguous job worker_id token code) v with
  | (v', inl e) => (released v', Raised e)
  | (v', inr _) => (released v', Raised (RuntimeError code))
  end.

(** One segment of a stream.  [None] when the input does not fit the phase. *)
Definition advance (x : stream) (i : input) (v : service) : option (service * (response + stream)) :=
  let job := sr_job x in
  let s := sr_subject x in
  let go (v' : service) (ph : phase) := Some (v', inr (mkStream job s ph)) in
  let stop (v' : service) (e : exn) := Some (v', inl (Raised e)) in
  match sr_phase x, i with
  | Submitted, Tick monotonic clk ids =>
      match acquire s monotonic (sv_admission v) with
      | (a, inr _) => go (v <| sv_admission := a |>) AdmissionHeld
      | (a, inl e) =>
          match on_table clk ids
            (Tts.cancel job (sj_organization_id s) (sj_workspace_id s) (sj_user_id s))
            (v <| sv_admission := a |>) with
          | (v', inl e') => stop v' e'
          | (v', inr _) => stop v' e
          end
      end
  | AdmissionHeld, Tick _ clk ids =>
      match on_table clk ids (Tts.claim_exact job worker_id 60) v with
      | (v', inl e) => stop v' e
      | (v', inr None) => stop (released v') (HTTPException 409 "TTS_JOB_NOT_CLAIMABLE")
      | (v', inr (Some row)) => go v' (Claimed (Tts.t_fencing_token row))
      end
  | Claimed token, Tick _ _ _ =>
      go (v <| sv_audits ::= fun l => app l
             [(sj_organization_id s, sj_workspace_id s, "tts.stream.accepted")] |>) (Audited token)
  | Claimed token, AuditFailed =>
      stop (released v) (HTTPException 503 "TTS_AUDIT_UNAVAILABLE")
  | Audited token, Tick _ clk ids =>
      match on_table clk ids (Tts.mark_provider_started job worker_id token) v with
      | (v', inl e) => stop v' e
      | (v', inr _) => go v' (Started token)
      end
  | Started token, Chunk size _ _ => go v (FirstChunk token (Z.of_nat size))
  | Started token, EndOfStream clk ids =>
      Some (prod_map id inl (first_chunk_failed job token "tts_empty_stream" clk ids v))
  | Started token, ProviderError code clk ids =>
      Some (prod_map id inl (first_chunk_failed job token code clk ids v))
  | FirstChunk token size, Tick _ clk ids =>
      match on_table clk ids (Tts.record_chunk job worker_id token size) v with
      | (v', inl e) => stop v' e
      | (v', inr _) => go v' (Streaming token)
      end
  | Streaming token, Chunk size clk ids =>
      match on_table clk ids (Tts.record_chunk job worker_id token (Z.of_nat size)) v with
      | (v', inl e) => stop (released v') e
      | (v', inr _) => go v' (Streaming token)
      end
  | Streaming token, EndOfStream clk ids =>
      match on_table clk ids (Tts.complete job worker_id token) v with
      | (v', inl e) => stop (released v') e
      | (v', inr true) => Some (released v', inl Finished)
      | (v', inr false) =>
          Some (prod_map id inl
            (stream_failed job token "tts_completion_fence_rejected" clk ids v'))
      end
  | Streaming token, ProviderError code clk ids =>
      Some (prod_map id inl (stream_failed job token code clk ids v))
  | Streaming token, ClientGone clk ids =>
      let r := on_table clk ids (Tts.mark_cancelled_streaming job worker_id token) v in
      stop (released r.1) (match r.2 with inl e => e | inr _ => RuntimeError "CancelledError" end)
  | _, _ => None
  end.

(** ** The service: streams interleaved with each other and with the table *)

Record world := mkWorld {
  w_service : service;
  w_streams : gmap nat stream;
}.

Definition settle (i : nat) (r : service * (response + stream)) (streams : gmap nat stream) : world :=
  mkWorld r.1 (match r.2 with inl _ => delete i streams | inr x => <[i := x]> streams end).

Inductive world_step (cfg : settings) : world -> world -> Prop :=
  | ws_open w i s body key corr clk ids :
      w_streams w !! i = None ->
      world_step cfg w
        (settle i (open_stream cfg s body key corr clk ids (w_service w)) (w_streams w))
  | ws_advance w i x inp r :
      w_streams w !! i = Some x -> advance x inp (w_service w) = Some r ->
      world_step cfg w (settle i r (w_streams w))
  | ws_table w m :
      Tts.step (sv_table (w_service w)) m ->
      world_step cfg w (mkWorld ((w_service w) <| sv_table := m |>) (w_streams w)).

Definition initial : world := mkWorld (mkService ∅ [] new_admission None) ∅.
Definition reachable (cfg : settings) (w : world) : Prop := rtc (world_step cfg) initial w.

Definition lock_of (v : service) : bool := locked (sv_admission v).
Definition holding (x : stream) : Prop := sr_phase x <> Submitted.

(** ** What a segment does to the lock *)

Lemma acquire_lock s now a :
  match acquire s now a with
  | (a', inr _) => locked a = false /\ locked a' = true
  | (a', inl _) => locked a' = locked a
  end.
Proof. unfold acquire. repeat case_match; simplify_eq; done. Qed.

Lemma open_stream_lock cfg s body key corr clk ids v v' r :
  open_stream cfg s body key corr clk ids v = (v', r) ->
  lock_of v' = lock_of v /\ forall x, r = inr x -> ~ holding x.
Proof.
  unfold open_stream, on_table, lock_of, holding. intros E.
  repeat case_match; simplify_eq; cbn; (split; [done|]); intros x; naive_solver.
Qed.

Definition lock_effect (x : stream) (before after : bool) (r : response + stream) : Prop :=
  match r with
  | inr x' => holding x' /\ after = true
              /\ (sr_phase x = Submitted -> before = false)
  | inl _ => after = before \/ (holding x /\ after = false)
  end.

Lemma advance_lock x inp v v' r :
  (holding x -> lock_of v = true) -> advance x inp v = Some (v', r) ->
  lock_effect x (lock_of v) (lock_of v') r.
Proof.
  intros Hl E. unfold lock_effect, lock_of, holding in *. unfold advance in E.
  destruct (sr_phase x) eqn:Ep, inp; try discriminate E.
  1: { pose proof (acquire_lock (sr_subject x) monotonic (sv_admission v)) as Ha.
       unfold on_table in E. repeat case_match; simplify_eq; cbn in *; naive_solver. }
  all: unfold first_chunk_failed, stream_failed, on_table in E.
  all: specialize (Hl ltac:(discriminate)).
  all: repeat case_match; simplify_eq; cbn in *; simplify_eq; cbn;
    try (split_and!; (done || discriminate)); try (by left); right; (split; [discriminate|done]).
Qed.

(** ** One stream at a time *)

Definition exclusive (w : world) : Prop :=
  (forall i x, w_streams w !! i = Some x -> holding x -> lock_of (w_service w) = true)
  /\ (forall i j x y, w_streams w !! i = Some x -> w_streams w !! j = Some y ->
        holding x -> holding y -> i = j).

Lemma settle_streams i r streams k y :
  w_streams (settle i r streams) !! k = Some y ->
  (k <> i /\ streams !! k = Some y) \/ (k = i /\ r.2 = inr y).
Proof.
  unfold settle. cbn. destruct (r.2) as [e|x].
  - rewrite lookup_delete_Some. intros [? ?]. left. split; congruence.
  - rewrite lookup_insert_Some. intros [[-> ->]|[? ?]]; [by right|left; split; congruence].
Qed.

Lemma open_exclusive cfg w i s body key corr clk ids :
  exclusive w ->
  exclusive (settle i (open_stream cfg s body key corr clk ids (w_service w)) (w_streams w)).
Proof.
  intros [Hl Hu]. destruct (open_stream _ _ _ _ _ _ _ _) as [v' r] eqn:E.
  apply open_stream_lock in E as [El Hn].
  split; [intros k y Hk Hy|intros k1 k2 y1 y2 Hk1 Hk2 Hy1 Hy2].
  - apply settle_streams in Hk as [[_ Hk]|[_ Hk]]; [|by destruct (Hn y Hk)].
    cbn. rewrite El. by eapply Hl.
  - apply settle_streams in Hk1 as [[_ Hk1]|[_ Hk1]]; [|by destruct (Hn y1 Hk1)].
    apply settle_streams in Hk2 as [[_ Hk2]|[_ Hk2]]; [|by destruct (Hn y2 Hk2)]. by eapply Hu.
Qed.

Lemma advance_exclusive w i x inp r :
  exclusive w -> w_streams w !! i = Some x -> advance x inp (w_service w) = Some r ->
  exclusive (settle i r (w_streams w)).
Proof.
  intros [Hl Hu] Hx E. destruct r as [v' r].
  pose proof (advance_lock _ _ _ _ _ (Hl i x Hx) E) as He.
  assert (Hother : forall k y, k <> i -> w_streams w !! k = Some y -> holding y -> ~ holding x
    /\ lock_of (w_service w) = true).
  { intros k y Hk Hy Hh. split; [|by eapply Hl]. intros Hx'. by apply Hk, (Hu k i y x). }
  split; [intros k y Hk Hy|intros k1 k2 y1 y2 Hk1 Hk2 Hy1 Hy2]; cbn [w_service settle fst].
  - apply settle_streams in Hk as [[Hne Hk]|[-> Hk]]; cbn in Hk.
    + destruct (Hother k y Hne Hk Hy) as [Hx' Hlk]. destruct r as [e|x']; cbn in He.
      * destruct He as [->|[? _]]; done.
      * by destruct He as (_ & -> & _).
    + subst r. by destruct He as (_ & -> & _).
  - apply settle_streams in Hk1 as [[Hn1 Hk1]|[-> Hk1]], Hk2 as [[Hn2 Hk2]|[-> Hk2]]; cbn in *;
      [by eapply Hu|..|done]; exfalso.
    + destruct (Hother k1 y1 Hn1 Hk1 Hy1) as [Hx' Hlk]. subst r. destruct He as (_ & _ & Hb).
      rewrite Hb in Hlk; [done|]. unfold holding in Hx'. destruct (sr_phase x); naive_solver.
    + destruct (Hother k2 y2 Hn2 Hk2 Hy2) as [Hx' Hlk]. subst r. destruct He as (_ & _ & Hb).
      rewrite Hb in Hlk; [done|]. unfold holding in Hx'. destruct (sr_phase x); naive_solver.
Qed.

Lemma world_step_exclusive cfg w w' : exclusive w -> world_step cfg w w' -> exclusive w'.
Proof.
  intros Hw Hs. destruct Hs as [w i s body key corr clk ids _|w i x inp r Hx E|w m _].
  - by apply open_exclusive.
  - by eapply advance_exclusive.
  - exact Hw.
Qed.

Lemma reachable_exclusive cfg w : reachable cfg w -> exclusive w.
Proof.
  unfold reachable. assert (H0 : exclusive initial)
    by (split; intros; cbn in *; rewrite lookup_empty in *; done).
  intros Hr. induction Hr; eauto using world_step_exclusive.
Qed.

(** C37. At most one stream talks to the provider: in every reachable world any
    two streams past admission are the same, and while there is one the global
    lock is held. *)
Theorem one_stream_at_a_time cfg w i j x y :
  reachable cfg w -> w_streams w !! i = Some x -> w_streams w !! j = Some y ->
  holding x -> holding y -> i = j /\ lock_of (w_service w) = true.
Proof.
  intros [Hl Hu]%reachable_exclusive Hx Hy Hhx Hhy. split; [by eapply Hu|by eapply Hl].
Qed.

(** ** The lock can be lost *)

(** The lock is held and no stream is left to release it. *)
Definition leaked (w : world) : Prop :=
  lock_of (w_service w) = true /\ forall i x, w_streams w !! i = Some x -> ~ holding x.

Lemma leaked_step cfg w w' : leaked w -> world_step cfg w w' -> leaked w'.
Proof.
  intros [Hl Hn] Hs. destruct Hs as [w i s body key corr clk ids _|w i x inp [v' r] Hx E|w m _]; [| |done].
  - destruct (open_stream _ _ _ _ _ _ _ _) as [v' r] eqn:E. apply open_stream_lock in E as [El Hx].
    split; [cbn; by rewrite El|]. intros k y [[_ Hk]|[_ Hk]]%settle_streams; [by eapply Hn|by apply Hx].
  - pose proof (advance_lock _ _ _ _ _ (fun H => False_ind _ (Hn i x Hx H)) E) as He.
    destruct r as [e|x']; cbn in He.
    + split; [cbn; destruct He as [->|[Hh _]]; [done|by destruct (Hn i x Hx)]|].
      intros k y [[_ Hk]|[_ Hk]]%settle_streams; [by eapply Hn|done].
    + exfalso. destruct He as (_ & _ & Hb). specialize (Hn i x Hx). unfold holding in Hn.
      rewrite Hb in Hl; [done|]. destruct (sr_phase x); naive_solver.
Qed.

(** *** A stream whose job is cancelled between two of its statements *)

Definition demo_settings : settings :=
  mkSettings true 1 "voice" true 1000 "m1" "codestra-ai-console".
Definition demo_body : SpeechRequest :=
  mkSpeech "hello" "canary" "codestra-ai-console" "mp3_44100_128".
Definition demo_clk (t : Z) : nat -> Z := fun _ => seconds t.
Definition demo_ids : nat -> uuid := fun n => (7 + N.of_nat n)%N.

Definition demo_opened : world :=
  settle 0 (open_stream demo_settings demo_subject demo_body "key-0000000000001" "corr-1"
              (demo_clk 0) demo_ids (w_service initial)) (w_streams initial).
Definition demo_advance (inp : input) (w : world) : world :=
  match w_streams w !! 0%nat with
  | Some x => from_option (fun r => settle 0 r (w_streams w)) w (advance x inp (w_service w))
  | None => w
  end.
Definition demo_tick (t : Z) : input := Tick (seconds t) (demo_clk t) demo_ids.
Definition demo_audited : world :=
  demo_advance (demo_tick 3) (demo_advance (demo_tick 2) (demo_advance (demo_tick 1) demo_opened)).
Definition demo_cancelled : world :=
  mkWorld ((w_service demo_audited) <| sv_table ::= fun m =>
    (with_session (demo_clk 4) demo_ids (Tts.handle (Tts.RCancel 7%N 1%N 2%N "alice")) m).1 |>)
    (w_streams demo_audited).
Definition demo_leaked : world := demo_advance (demo_tick 5) demo_cancelled.

Lemma demo_advance_run cfg inp w : rtc (world_step cfg) w (demo_advance inp w).
Proof.
  unfold demo_advance. destruct (w_streams w !! 0%nat) as [x|] eqn:Ex; [|apply rtc_refl].
  destruct (advance x inp (w_service w)) as [r|] eqn:E; [|apply rtc_refl].
  apply rtc_once. by eapply ws_advance.
Qed.

Lemma demo_audited_reachable : reachable demo_settings demo_audited.
Proof.
  unfold reachable, demo_audited. do 3 (etrans; [|apply demo_advance_run]).
  apply rtc_once, ws_open. apply lookup_empty.
Qed.

Lemma demo_leaked_reachable : reachable demo_settings demo_leaked.
Proof.
  unfold reachable, demo_leaked. etrans; [|apply demo_advance_run].
  eapply rtc_r; [apply demo_audited_reachable|]. apply ws_table, Tts.serve.
Qed.

Lemma one_stream_at_a_time_witness : lock_of (w_service demo_audited) = true.
Proof.
  destruct (w_streams demo_audited !! 0%nat) as [x|] eqn:E; [|vm_compute in E; discriminate].
  assert (Hx : holding x) by (vm_compute in E; injection E as <-; discriminate).
  apply (one_stream_at_a_time demo_settings demo_audited 0 0 x x demo_audited_reachable E E Hx Hx).
Defined.

(** The admission lock can be lost for good.  There is a run, one stream
    whose user cancels its job between the claim and the start of the provider
    request, after which the lock is held and no stream is left to release it;
    and from such a world on, in every run, no stream gets past admission again:
    the lock stays held and every acquisition is refused. *)
Theorem admission_lock_leaks :
  (exists w, reachable demo_settings w /\ leaked w)
  /\ forall cfg w w', leaked w -> rtc (world_step cfg) w w' ->
       leaked w' /\ forall s now, exists e, (acquire s now (sv_admission (w_service w'))).2 = inl e.
Proof.
  split.
  - exists demo_leaked. split; [apply demo_leaked_reachable|]. split; [vm_compute; reflexivity|].
    assert (Hnone : w_streams demo_leaked = ∅) by (vm_compute; reflexivity).
    rewrite Hnone. intros i x Hx. rewrite lookup_empty in Hx. discriminate Hx.
  - intros cfg w w' Hl Hr. assert (Hl' : leaked w') by (induction Hr; eauto using leaked_step).
    split; [done|]. intros s now. pose proof (acquire_lock s now (sv_admission (w_service w'))) as Ha.
    destruct Hl' as [Hl' _]. unfold lock_of in Hl'.
    destruct (acquire _ _ _) as [a [e|u]]; [by exists e|]. destruct Ha as [Ha _]. congruence.
Qed.
End TtsStream.
