(* ===== verification/PyUnicode.v ===== *)
(** * Text functions that need the Unicode tables, and [difflib.SequenceMatcher]

    Case folding, compatibility normalisation, the character classes of regular
    expressions, host names in URLs and their IDNA form are tables and
    algorithms of the Unicode and URL standards: they are the interface
    [TextLib].  Everything the code builds from them is defined here, on
    characters, which are the UTF-8 encodings of single code points.
    [SequenceMatcher.ratio] is defined in full, and its percentage in
    double-precision arithmetic. *)

From Stdlib Require Import Ascii SpecFloat.
From S2P Require Import Prelude PyText Txn.
Local Open Scope string_scope.

(** ** Characters *)

Definition is_continuation (c : ascii) : bool := in_range c 128 191.

(** The characters of a text, each a lead byte with its continuation bytes. *)
Fixpoint characters (s : string) : list string :=
  match s with
  | EmptyString => []
  | String c s' =>
      match characters s' with
      | (String d x as y) :: l =>
          if is_continuation d then String c y :: l else String c "" :: y :: l
      | l => String c "" :: l
      end
  end.

(** [s.split(sep)] for a one-byte separator. *)
Fixpoint split_on (sep : ascii) (s : string) : list string :=
  match s with
  | EmptyString => [""]
  | String c s' =>
      if Ascii.eqb c sep then "" :: split_on sep s'
      else match split_on sep s' with
           | x :: l => String c x :: l
           | [] => [String c ""]
           end
  end.

(** [s.rpartition(sep)]: the parts around the last separator, if there is one. *)
Fixpoint rpartition (sep : ascii) (s : string) : option (string * string) :=
  match s with
  | EmptyString => None
  | String c s' =>
      match rpartition sep s' with
      | Some (l, r) => Some (String c l, r)
      | None => if Ascii.eqb c sep then Some ("", s') else None
      end
  end.

(** The suffix a prefix leaves: [startswith] and [removeprefix]. *)
Fixpoint after_prefix (p s : string) : option string :=
  match p, s with
  | EmptyString, _ => Some s
  | String a p', String b s' => if Ascii.eqb a b then after_prefix p' s' else None
  | _, _ => None
  end.
Definition starts_with (p s : string) : bool := negb (is_null (after_prefix p s)).
Definition removeprefix (p s : string) : string := coalesce (after_prefix p s) s.

(** [sub in s]. *)
Fixpoint contains (sub s : string) : bool :=
  starts_with sub s || match s with String _ s' => contains sub s' | EmptyString => false end.

(** ** The interface *)

Class TextLib := {
  (** [unicodedata.normalize("NFKC", s)] *)
  nfkc : string -> string;
  (** [s.lower()] and [s.casefold()] *)
  py_lower : string -> string;
  casefold : string -> string;
  (** [\w] and [\s] (which is [str.isspace]) on a character *)
  is_word : string -> bool;
  is_blank : string -> bool;
  (** [urlsplit(s).hostname], which may raise [ValueError] *)
  url_hostname : string -> exn + option string;
  (** [s.encode("idna").decode("ascii")]; [None] is [UnicodeError] *)
  idna : string -> option string;
}.

(** [s.split()]: the maximal runs of characters that are not white space. *)
Fixpoint runs (blank : string -> bool) (l : list string) : list string :=
  match l with
  | [] => []
  | c :: rest =>
      if blank c then runs blank rest
      else match rest with
           | d :: _ =>
               if blank d then c :: runs blank rest
               else match runs blank rest with
                    | w :: ws => (c +:+ w) :: ws
                    | [] => [c]
                    end
           | [] => [c]
           end
  end.
Definition py_split `{TextLib} (s : string) : list string := runs is_blank (characters s).

(** [re.sub(r"[^\w\s]", " ", s)] *)
Definition blank_symbols `{TextLib} (s : string) : string :=
  String.concat "" ((fun c => if is_word c || is_blank c then c else " ") <$> characters s).

(** ** [SequenceMatcher(None, a, b)] *)

Section matcher.
(** The characters of [b] that [autojunk] leaves out of the index. *)
Variable popular : N -> bool.

(** The row of match lengths for one character of [a]: entry [j] is the length
    of the match that ends here and at [b[j]]. *)
Fixpoint match_row (x : N) (b : list N) (diagonal : nat) (prev : list nat) : list nat :=
  match b with
  | [] => []
  | y :: b' =>
      (if (x =? y)%N && negb (popular y) then S diagonal else 0%nat)
        :: match_row x b' (hd 0%nat prev) (tl prev)
  end.

(** The best match of a row: the first strictly longer one wins. *)
Fixpoint best_in_row (i j : nat) (row : list nat) (best : nat * nat * nat) : nat * nat * nat :=
  match row with
  | [] => best
  | k :: row' =>
      best_in_row i (S j) row'
        (if (best.2 <? k)%nat then ((S i - k)%nat, (S j - k)%nat, k) else best)
  end.

Fixpoint longest_rows (a b : list N) (i : nat) (prev : list nat) (best : nat * nat * nat) :
    nat * nat * nat :=
  match a with
  | [] => best
  | x :: a' =>
      let row := match_row x b 0 prev in
      longest_rows a' b (S i) row (best_in_row i 0 row best)
  end.

(** How far two lists agree from their heads. *)
Fixpoint agreement (a b : list N) : nat :=
  match a, b with
  | x :: a', y :: b' => if (x =? y)%N then S (agreement a' b') else 0%nat
  | _, _ => 0%nat
  end.

(** [find_longest_match] on the two ranges: the longest indexed match, extended
    in both directions over equal characters. *)
Definition find_longest_match (a b : list N) : nat * nat * nat :=
  let '(i, j, k) := longest_rows a b 0 [] (0%nat, 0%nat, 0%nat) in
  let left := agreement (rev (take i a)) (rev (take j b)) in
  let right := agreement (drop (i + k) a) (drop (j + k) b) in
  ((i - left)%nat, (j - left)%nat, (left + k + right)%nat).

(** The total size of the matching blocks. *)
Fixpoint matches (fuel : nat) (a b : list N) : nat :=
  match fuel with
  | O => 0%nat
  | S fuel' =>
      let '(i, j, k) := find_longest_match a b in
      if (k =? 0)%nat then 0%nat
      else (k + matches fuel' (take i a) (take j b)
              + matches fuel' (drop (i + k) a) (drop (j + k) b))%nat
  end.
End matcher.

(** [autojunk]: in a sequence of at least 200 elements those that occur more
    than [len // 100 + 1] times are popular. *)
Definition popular_in (b : list N) (x : N) : bool :=
  (200 <=? length b)%nat
  && (length b / 100 + 1 <? length (List.filter (N.eqb x) b))%nat.

Definition matching_size (a b : list N) : nat := matches (popular_in b) (S (length a)) a b.

(** ** [int(ratio * 100)] *)

Definition float_of_nat (n : nat) : spec_float := binary_normalize 53 1024 (Z.of_nat n) 0 false.
Definition float_mul : spec_float -> spec_float -> spec_float := SFmul 53 1024.
Definition float_div : spec_float -> spec_float -> spec_float := SFdiv 53 1024.

(** Truncation of a finite number. *)
Definition int_of_float (x : spec_float) : Z :=
  match x with
  | S754_finite s m e =>
      let n := if (0 <=? e)%Z then (Z.pos m * 2 ^ e)%Z else (Z.pos m / 2 ^ (- e))%Z in
      if s then (- n)%Z else n
  | _ => 0%Z
  end.

(** [ratio()] is [2.0 * matches / length], or one for two empty texts. *)
Definition ratio (a b : string) : spec_float :=
  let x := utf8_points a in
  let y := utf8_points b in
  match (length x + length y)%nat with
  | O => float_of_nat 1
  | n => float_div (float_mul (float_of_nat 2) (float_of_nat (matching_size x y))) (float_of_nat n)
  end.

Definition similarity_percent (a b : string) : Z :=
  int_of_float (float_mul (ratio a b) (float_of_nat 100)).

Example similarity_equal : similarity_percent "acme tools" "acme tools" = 100%Z.
Proof. vm_compute. reflexivity. Qed.
Example similarity_close : similarity_percent "acme tools" "acme tool works" = 80%Z.
Proof. vm_compute. reflexivity. Qed.

(** The rounding of the product matters: 0.29 * 100 is below 29. *)
Example percent_truncates :
  int_of_float (float_mul (float_div (float_of_nat 58) (float_of_nat 200)) (float_of_nat 100)) = 28%Z.
Proof. vm_compute. reflexivity. Qed.

(** ** Splitting undoes joining *)

Lemma split_on_prefix sep s rest :
  char_in sep s = false -> split_on sep (s +:+ String sep rest) = s :: split_on sep rest.
Proof.
  induction s as [|c s IH]; intros Hs.
  - change ("" +:+ String sep rest) with (String sep rest). cbn. by rewrite Ascii.eqb_refl.
  - change (String c s +:+ String sep rest) with (String c (s +:+ String sep rest)).
    cbn in *. apply orb_false_iff in Hs as [Hc Hs]. rewrite Ascii.eqb_sym, Hc. by rewrite IH.
Qed.

Lemma split_on_last sep s : char_in sep s = false -> split_on sep s = [s].
Proof.
  induction s as [|c s IH]; cbn; intros Hs; [done|].
  apply orb_false_iff in Hs as [Hc Hs]. rewrite Ascii.eqb_sym, Hc. by rewrite IH.
Qed.

Lemma split_join sep l :
  l <> [] -> Forall (fun s => char_in sep s = false) l -> split_on sep (join (String sep "") l) = l.
Proof.
  induction l as [|s l IH]; intros Hne Hl; [done|]. inversion_clear Hl as [|? ? Hs Hl'].
  destruct l as [|s' l].
  - by apply split_on_last.
  - change (join (String sep "") (s :: s' :: l)) with (s +:+ String sep (join (String sep "") (s' :: l))).
    rewrite split_on_prefix by done. by rewrite IH.
Qed.

Lemma join_inj sep l l' :
  l <> [] -> l' <> [] -> Forall (fun s => char_in sep s = false) l ->
  Forall (fun s => char_in sep s = false) l' ->
  join (String sep "") l = join (String sep "") l' -> l = l'.
Proof. intros ? ? Hl Hl' E. rewrite <- (split_join sep l), <- (split_join sep l') by done. by rewrite E. Qed.

(** ** The matcher terminates within its fuel *)

Section bounds.
Variable popular : N -> bool.

(** Entry [j] of the row for [a[i]] is at most [i + 1] and at most [j + 1]. *)
Definition row_bounded (i : nat) (row : list nat) : Prop :=
  forall j k, row !! j = Some k -> (k <= S i)%nat /\ (k <= S j)%nat.

Lemma match_row_bounded x b i j0 diagonal prev :
  (diagonal <= i)%nat -> (diagonal <= j0)%nat ->
  (forall j k, prev !! j = Some k -> (k <= i)%nat /\ (k <= S j0 + j)%nat) ->
  forall j k, match_row popular x b diagonal prev !! j = Some k ->
    (k <= S i)%nat /\ (k <= S j0 + j)%nat.
Proof.
  revert j0 diagonal prev. induction b as [|y b IH]; intros j0 diagonal prev Hi Hj Hp j k Hk; [done|].
  destruct j as [|j]; cbn in Hk.
  - injection Hk as <-. case_match; lia.
  - assert (Htl : forall n m, tl prev !! n = Some m -> (m <= i)%nat /\ (m <= S (S j0) + n)%nat).
    { intros n m Hm. destruct prev as [|p prev]; [done|]. specialize (Hp (S n) m Hm). lia. }
    assert (Hhd : (hd 0 prev <= i)%nat /\ (hd 0 prev <= S j0)%nat).
    { destruct prev as [|p prev]; cbn; [lia|]. specialize (Hp 0%nat p eq_refl). lia. }
    destruct Hhd as [Hh1 Hh2].
    specialize (IH (S j0) (hd 0%nat prev) (tl prev) Hh1 Hh2 Htl j k Hk). lia.
Qed.

(** A candidate lies within the first [i] characters of [a]. *)
Definition block_in (i n : nat) (best : nat * nat * nat) : Prop :=
  (best.1.1 + best.2 <= i)%nat /\ (best.1.2 + best.2 <= n)%nat.

Lemma best_in_row_bounded i n j row best :
  (j + length row <= n)%nat -> block_in (S i) n best ->
  (forall m k, row !! m = Some k -> (k <= S i)%nat /\ (k <= S j + m)%nat) ->
  block_in (S i) n (best_in_row i j row best).
Proof.
  revert j best. induction row as [|k row IH]; intros j best Hn Hb Hr; [done|]. cbn in *.
  apply IH; [lia|..].
  - case_match; [|done]. destruct (Hr 0%nat k eq_refl). unfold block_in. cbn. lia.
  - intros m k' Hk'. destruct (Hr (S m) k' Hk'). lia.
Qed.

Lemma match_row_length x b diagonal prev : length (match_row popular x b diagonal prev) = length b.
Proof. revert diagonal prev. induction b; intros; cbn; congruence. Qed.

Lemma longest_rows_bounded a b i prev best :
  block_in i (length b) best ->
  (forall j k, prev !! j = Some k -> (k <= i)%nat /\ (k <= S j)%nat) ->
  block_in (i + length a) (length b) (longest_rows popular a b i prev best).
Proof.
  revert i prev best. induction a as [|x a IH]; intros i prev best Hb Hp; cbn.
  - by rewrite Nat.add_0_r.
  - rewrite Nat.add_succ_r. change (S (i + length a)) with (S i + length a)%nat.
    assert (Hrow : row_bounded i (match_row popular x b 0 prev)).
    { intros j k Hk. apply (match_row_bounded x b i 0 0 prev) in Hk; [lia|lia|lia|].
      intros j' k' Hk'. destruct (Hp j' k' Hk'). lia. }
    apply IH.
    + apply best_in_row_bounded.
      * rewrite match_row_length. lia.
      * unfold block_in in *. lia.
      * intros m k Hk. apply (Hrow m k Hk).
    + intros j k Hk. destruct (Hrow j k Hk). lia.
Qed.

Lemma agreement_bound a b : (agreement a b <= length a)%nat /\ (agreement a b <= length b)%nat.
Proof.
  revert b. induction a as [|x a IH]; intros [|y b]; cbn; try lia.
  case_match; [|lia]. destruct (IH b). lia.
Qed.

Lemma find_longest_match_bounded a b :
  block_in (length a) (length b) (find_longest_match popular a b).
Proof.
  unfold find_longest_match.
  pose proof (longest_rows_bounded a b 0 [] (0, 0, 0)%nat) as Hb.
  destruct (longest_rows _ _ _ _ _ _) as [[i j] k].
  destruct Hb as [Ha Hb]; [unfold block_in; cbn; lia|done|]. cbn in Ha, Hb.
  pose proof (agreement_bound (rev (take i a)) (rev (take j b))) as [Hl1 Hl2].
  pose proof (agreement_bound (drop (i + k) a) (drop (j + k) b)) as [Hr1 Hr2].
  rewrite !length_rev, !length_take in *. rewrite !length_drop in *. unfold block_in. cbn. lia.
Qed.

(** More fuel than characters changes nothing, and the blocks fit into both
    texts. *)
Lemma matches_enough_fuel fuel a b :
  (length a < fuel)%nat ->
  matches popular fuel a b = matches popular (S (length a)) a b.
Proof.
  remember (length a) as n eqn:En. revert fuel a b En.
  induction (lt_wf n) as [n _ IH]. intros fuel a b -> Hf.
  destruct fuel as [|fuel]; [lia|]. cbn [matches].
  pose proof (find_longest_match_bounded a b) as [Ha _].
  destruct (find_longest_match popular a b) as [[i j] k]. cbn in Ha.
  destruct (Nat.eqb_spec k 0); [done|].
  assert (Hl : (length (take i a) < length a)%nat) by (rewrite length_take; lia).
  assert (Hr : (length (drop (i + k) a) < length a)%nat) by (rewrite length_drop; lia).
  rewrite (IH _ Hl fuel _ _ eq_refl), (IH _ Hl (length a) _ _ eq_refl) by lia.
  by rewrite (IH _ Hr fuel _ _ eq_refl), (IH _ Hr (length a) _ _ eq_refl) by lia.
Qed.

Lemma matches_fit fuel a b :
  (matches popular fuel a b <= length a)%nat /\ (matches popular fuel a b <= length b)%nat.
Proof.
  revert a b. induction fuel as [|fuel IH]; intros a b; cbn; [lia|].
  pose proof (find_longest_match_bounded a b) as [Ha Hb].
  destruct (find_longest_match popular a b) as [[i j] k]. cbn in Ha, Hb.
  destruct (Nat.eqb_spec k 0); [lia|].
  pose proof (IH (take i a) (take j b)) as [? ?].
  pose proof (IH (drop (i + k) a) (drop (j + k) b)) as [? ?].
  rewrite !length_take, !length_drop in *. lia.
Qed.
End bounds.
