(* ===== verification/SalesContracts.v ===== *)
(** * Sales leads: contracts and the compliance gate

    [src/app/sales/contracts.py] and [src/app/sales/compliance.py]: the lead
    candidate with the validators that tie its claims to evidence, the
    resolution, the verification job, and the fail-closed compliance decision.
    The URL checks, which need the address classes of [ipaddress], and the
    length and pattern constraints that only restrict single fields are the
    validation library's. *)

From Stdlib Require Import Ascii.
From S2P Require Import Prelude PyText PyTime Txn PyUnicode.
Local Open Scope string_scope.
Local Open Scope Z_scope.

Module SalesContracts.

Definition CANDIDATE_SCHEMA : string := "codestra.sales.lead-candidate.v1".
Definition RESOLUTION_SCHEMA : string := "codestra.sales.lead-resolution.v1".
Definition POLICY_VERSION : string := "codestra.sales.policy.v1".
Definition MAX_EVIDENCE : nat := 20.

(** ** The candidate *)

Record Source := mkSource {
  provider : string;
  job_id : string;
  request_id : string;
  collected_at : datetime;
}.

Record Address := mkAddress {
  line1 : option string;
  line2 : option string;
  city : option string;
  region : option string;
  postal_code : option string;
  a_country_code : option string;
}.

Record Company := mkCompany {
  name : string;
  legal_name : option string;
  domain : option string;
  website_url : option string;
  registration_number : option string;
  tax_identifier : option string;
  trading_name : option string;
  business_telephone : option string;
  country_code : string;
  industry : option string;
  services : list string;
  address : Address;
}.

Record Contact := mkContact {
  first_name : option string;
  last_name : option string;
  full_name : option string;
  title : option string;
  department : option string;
  business_email : option string;
  business_phone : option string;
  c_country_code : option string;
  company_association : option string;
  public_profile_url : option string;
}.

Inductive ProvenanceClassification :=
  | VERIFIED_FACT | PUBLIC_OBSERVATION | SYSTEM_INFERENCE | UNKNOWN.

Record Evidence := mkEvidence {
  field : string;
  source_url : string;
  page_title : option string;
  snippet : string;
  content_hash : string;
  observed_at : datetime;
  classification : ProvenanceClassification;
  extraction_method : string;
  field_paths : list string;
  robots_policy_reference : option string;
  provider_verification_reference : option string;
}.

Record SourceClaims := mkClaims {
  consent_claimed : bool;
  consent_source : option string;
  consent_timestamp : option datetime;
}.

Inductive MetadataValue :=
  | MStr (s : string) | MInt (n : Z) | MFloat (repr : string) | MBool (b : bool) | MNone.

Record LeadCandidate := mkCandidate {
  schema_version : string;
  tenant_id : string;
  campaign_id : string;
  candidate_id : option string;
  scraper_job_id : option string;
  source_type : string;
  source : Source;
  company : Company;
  contact : Contact;
  evidence : list Evidence;
  source_claims : SourceClaims;
  provenance : list ProvenanceClassification;
  provider_results : list (string * MetadataValue);
  extraction_timestamp : option datetime;
  content_hashes : list string;
  idempotency_metadata : list (string * MetadataValue);
  metadata : list (string * MetadataValue);
}.

(** ** Validators *)

(** [_utc]: aware, with offset zero. *)
Definition _utc (value : datetime) : exn + datetime :=
  if bool_decide (utcoffset value = Some 0) then inr value
  else inl (ValueError "timestamp must be ISO-8601 UTC").

(** Truth of an optional text. *)
Definition given (value : option string) : bool :=
  match value with Some s => negb (bool_decide (s = "")) | None => false end.

Fixpoint count_char (c : ascii) (s : string) : nat :=
  match s with
  | EmptyString => 0
  | String d s' => (if Ascii.eqb c d then 1 else 0) + count_char c s'
  end.

Definition email_shape (value : option string) : exn + option string :=
  match value with
  | Some s =>
      if given value
         && (negb (count_char "@" s =? 1)%nat
             || negb (from_option (fun p => contains "." p.2) false (rpartition "@" s)))
      then inl (ValueError "business email is malformed")
      else inr value
  | None => inr None
  end.

Definition bounded_plain_text (value : string) : exn + string :=
  let lowered := str_lower value in
  if contains "<html" lowered || contains "<script" lowered || contains "<!doctype" lowered
  then inl (ValueError "raw HTML is forbidden") else inr value.

(** [item.field_paths or [item.field]] *)
Definition paths_of (e : Evidence) : list string :=
  match field_paths e with [] => [field e] | l => l end.

Definition supported_fields (e : Evidence) : exn + Evidence :=
  if existsb (fun p => negb (starts_with "company." p || starts_with "contact." p)) (paths_of e)
  then inl (ValueError "evidence references an unsupported material field") else inr e.

Definition bounded_metadata (value : list (string * MetadataValue)) :
    exn + list (string * MetadataValue) :=
  if existsb (fun kv => (64 <? py_len kv.1)
                        || match kv.2 with MStr s => 256 <? py_len s | _ => false end) value
  then inl (ValueError "metadata is outside bounded limits") else inr value.

Definition is_sha256 (value : string) : bool :=
  fullmatch_class is_lower_hex 64 64 (removeprefix "sha256:" value).

Definition hashes_are_sha256 (values : list string) : exn + list string :=
  if existsb (fun v => negb (is_sha256 v)) values
  then inl (ValueError "content hash must be SHA-256") else inr values.

(** The material values, each with whether it is truthy. *)
Definition material (c : LeadCandidate) : list (string * bool) :=
  let co := company c in
  let ct := contact c in
  [("company.name", given (Some (name co)));
   ("company.legal_name", given (legal_name co));
   ("company.trading_name", given (trading_name co));
   ("company.domain", given (domain co));
   ("company.website_url", given (website_url co));
   ("company.registration_number", given (registration_number co));
   ("company.tax_identifier", given (tax_identifier co));
   ("company.business_telephone", given (business_telephone co));
   ("company.industry", given (industry co));
   ("company.services", negb (bool_decide (services co = [])));
   ("company.address.line1", given (line1 (address co)));
   ("company.address.city", given (city (address co)));
   ("company.address.region", given (region (address co)));
   ("contact.full_name", given (full_name ct));
   ("contact.title", given (title ct));
   ("contact.business_email", given (business_email ct));
   ("contact.business_phone", given (business_phone ct));
   ("contact.company_association", given (company_association ct));
   ("contact.public_profile_url", given (public_profile_url ct))].

Definition supported (c : LeadCandidate) : list string :=
  List.concat (List.map paths_of (evidence c)).

Definition missing (c : LeadCandidate) : list string :=
  sorted_strings (fst <$> List.filter (fun kv => kv.2 && negb (str_in kv.1 (supported c))) (material c)).

Definition material_values_have_evidence (c : LeadCandidate) : exn + LeadCandidate :=
  match missing c with
  | [] => inr c
  | l => inl (ValueError ("material fields lack evidence: " +:+ join ", " l))
  end.

(** ** The resolution *)

Inductive Decision :=
  | ACCEPTED | EXACT_DUPLICATE | POSSIBLE_DUPLICATE | SUPPRESSED | MANUAL_REVIEW
  | INVALID_EVIDENCE | INVALID_PAYLOAD | REJECTED.
#[export] Instance Decision_eq_dec : EqDecision Decision.
Proof. solve_decision. Defined.

Definition decision_text (d : Decision) : string :=
  match d with
  | ACCEPTED => "ACCEPTED" | EXACT_DUPLICATE => "EXACT_DUPLICATE"
  | POSSIBLE_DUPLICATE => "POSSIBLE_DUPLICATE" | SUPPRESSED => "SUPPRESSED"
  | MANUAL_REVIEW => "MANUAL_REVIEW" | INVALID_EVIDENCE => "INVALID_EVIDENCE"
  | INVALID_PAYLOAD => "INVALID_PAYLOAD" | REJECTED => "REJECTED"
  end.

Inductive GateState := NOT_CHECKED | ELIGIBLE | BLOCKED | REVIEW_REQUIRED | DEPENDENCY_UNAVAILABLE.
#[export] Instance GateState_eq_dec : EqDecision GateState.
Proof. solve_decision. Defined.

Record MatchResolution := mkMatchResolution {
  matched : bool;
  odoo_company_id : option string;
  odoo_lead_id : option string;
  mr_score : Z;
  mr_reasons : list string;
}.

Record Gates := mkGates {
  g_global_dnc : GateState;
  g_campaign_dnc : GateState;
  g_suppression : GateState;
  g_consent : GateState;
  g_channel_eligibility : GateState;
}.

(** The fields with a constant value are left at their defaults:
    [schema_version], [eligible_for_storage], [evidence_validation],
    [idempotency_result], [contract_version], [dry_run] and
    [policy_version]. *)
Record LeadResolution := mkResolution {
  r_candidate_id : string;
  r_decision : Decision;
  r_decision_code : string;
  r_eligible_for_outreach : bool;
  r_duplicate_status : string;
  r_match_type : string;
  r_matched_entity_references : list string;
  r_match_confidence : Z;
  r_company_resolution : MatchResolution;
  r_contact_resolution : MatchResolution;
  r_gates : Gates;
  r_rejection_reasons : list string;
  r_manual_review_reasons : list string;
  r_suppression_results : list string;
  r_consent_results : list string;
  r_provider_validation_summaries : list (string * string);
  r_audit_reference : option string;
  r_review_required : bool;
  r_correlation_id : string;
}.

(** ** Verification jobs *)

Record VerificationFilters := mkFilters {
  verification_status : list string;
  updated_before : option datetime;
}.

Record VerificationJobRequest := mkJobRequest {
  jr_source : string;
  jr_tenant_id : string;
  jr_campaign_id : option string;
  jr_filters : VerificationFilters;
  jr_dry_run : bool;
  jr_write_changes : bool;
  jr_publish_to_vicidial : bool;
  jr_batch_size : Z;
}.

Definition prohibit_writes (r : VerificationJobRequest) : exn + VerificationJobRequest :=
  if negb (jr_dry_run r) || jr_write_changes r || jr_publish_to_vicidial r
  then inl (ValueError "Phase 1 verification is dry-run and cannot publish") else inr r.

Inductive VerificationJobState :=
  | QUEUED | RUNNING | COMPLETED | COMPLETED_WITH_WARNINGS | FAILED | CANCELED.
#[export] Instance VerificationJobState_eq_dec : EqDecision VerificationJobState.
Proof. solve_decision. Defined.

(** ** Compliance *)

Inductive ComplianceStatus :=
  | STATUS_ELIGIBLE | BLOCKED_GLOBAL_DNC | BLOCKED_CAMPAIGN_DNC | BLOCKED_INTERNAL_SUPPRESSION
  | BLOCKED_CONSENT_WITHDRAWN | REVIEW_CONSENT_UNKNOWN | STATUS_DEPENDENCY_UNAVAILABLE.

Record ComplianceSnapshot := mkSnapshot {
  s_tenant_id : string;
  s_campaign_id : string;
  available : bool;
  global_dnc : bool;
  tenant_dnc : bool;
  campaign_dnc : bool;
  internal_suppression : bool;
  email_suppressed : bool;
  phone_suppressed : bool;
  opted_out : bool;
  legal_restriction : bool;
  consent : string;
  channel_eligible : bool;
}.

Record ComplianceDecision := mkCompliance {
  cd_status : ComplianceStatus;
  cd_gates : Gates;
  cd_reasons : list string;
  blocked : bool;
  cd_review_required : bool;
}.

Definition _unavailable (reason : string) : ComplianceDecision :=
  let state := DEPENDENCY_UNAVAILABLE in
  mkCompliance STATUS_DEPENDENCY_UNAVAILABLE (mkGates state state state state state) [reason]
    true true.

Definition gate (stop : bool) : GateState := if stop then BLOCKED else ELIGIBLE.

Definition gates_of (s : ComplianceSnapshot) : Gates :=
  mkGates (gate (global_dnc s)) (gate (campaign_dnc s)) (gate (internal_suppression s))
    (if bool_decide (consent s = "WITHDRAWN") then BLOCKED
     else if bool_decide (consent s = "GRANTED") then ELIGIBLE else REVIEW_REQUIRED)
    (if channel_eligible s then ELIGIBLE else REVIEW_REQUIRED).

(** The first active suppression of the loop. *)
Definition suppression_of (s : ComplianceSnapshot) : option string :=
  snd <$> List.find fst
    [(email_suppressed s, "EMAIL_SUPPRESSED"); (phone_suppressed s, "PHONE_SUPPRESSED");
     (opted_out s, "OPTED_OUT"); (legal_restriction s, "LEGAL_RESTRICTION");
     (internal_suppression s, "INTERNAL_SUPPRESSION")].

Definition evaluate (s : ComplianceSnapshot) (tenant campaign : string) : ComplianceDecision :=
  if negb (bool_decide (s_tenant_id s = tenant)) || negb (bool_decide (s_campaign_id s = campaign))
  then _unavailable "COMPLIANCE_SCOPE_MISMATCH"
  else if negb (available s) then _unavailable "COMPLIANCE_DEPENDENCY_UNAVAILABLE"
  else
    let gates := gates_of s in
    if global_dnc s then mkCompliance BLOCKED_GLOBAL_DNC gates ["GLOBAL_DNC"] true false
    else if tenant_dnc s then
      mkCompliance BLOCKED_INTERNAL_SUPPRESSION gates ["TENANT_DNC"] true false
    else if campaign_dnc s then
      mkCompliance BLOCKED_CAMPAIGN_DNC gates ["CAMPAIGN_DNC"] true false
    else match suppression_of s with
    | Some reason => mkCompliance BLOCKED_INTERNAL_SUPPRESSION gates [reason] true false
    | None =>
        if bool_decide (consent s = "WITHDRAWN") then
          mkCompliance BLOCKED_CONSENT_WITHDRAWN gates ["CONSENT_DENIED"] true false
        else if negb (bool_decide (consent s = "GRANTED")) then
          mkCompliance REVIEW_CONSENT_UNKNOWN gates ["CONSENT_UNKNOWN"] false true
        else mkCompliance STATUS_ELIGIBLE gates ["COMPLIANCE_ELIGIBLE"] false
               (negb (channel_eligible s))
    end.

(** A snapshot that clears a contact: in scope, read, nothing set against it,
    consent granted and the channel open. *)
Definition clear (s : ComplianceSnapshot) (tenant campaign : string) : Prop :=
  s_tenant_id s = tenant /\ s_campaign_id s = campaign /\ available s = true
  /\ global_dnc s = false /\ tenant_dnc s = false /\ campaign_dnc s = false
  /\ internal_suppression s = false /\ email_suppressed s = false /\ phone_suppressed s = false
  /\ opted_out s = false /\ legal_restriction s = false /\ consent s = "GRANTED"
  /\ channel_eligible s = true.

Definition all_eligible : Gates := mkGates ELIGIBLE ELIGIBLE ELIGIBLE ELIGIBLE ELIGIBLE.

Lemma evaluate_clear s tenant campaign :
  blocked (evaluate s tenant campaign) = false
  /\ cd_review_required (evaluate s tenant campaign) = false
  <-> clear s tenant campaign.
Proof.
  unfold evaluate, suppression_of, clear. destruct s; cbn.
  repeat (case_match; cbn in *; simplify_eq); bool_to_prop;
    repeat match goal with
    | H : (_ || _)%bool = true |- _ => apply orb_true_iff in H as [H|H]; bool_to_prop
    end; rewrite ?negb_false_iff; naive_solver.
Qed.

Lemma clear_gates s tenant campaign :
  clear s tenant campaign -> cd_gates (evaluate s tenant campaign) = all_eligible.
Proof.
  unfold evaluate, suppression_of, clear. destruct s; cbn.
  intros (-> & -> & -> & -> & -> & -> & -> & -> & -> & -> & -> & -> & ->).
  rewrite !bool_decide_true by done. reflexivity.
Qed.

(** A candidate passes exactly when each of its material values is a path of
    some evidence, and it passes unchanged. *)
Lemma evidence_required c :
  material_values_have_evidence c = inr c <->
  forall path, (path, true) ∈ material c -> exists e, e ∈ evidence c /\ path ∈ paths_of e.
Proof.
  assert (Hsup : forall path, path ∈ supported c <-> exists e, e ∈ evidence c /\ path ∈ paths_of e).
  { intros path. unfold supported. rewrite list_elem_of_In, in_concat. setoid_rewrite in_map_iff.
    setoid_rewrite list_elem_of_In. naive_solver. }
  assert (Hmis : missing c = [] <-> forall path, (path, true) ∈ material c -> path ∈ supported c).
  { unfold missing, sorted_strings. rewrite <- length_zero_iff_nil, sort_by_perm, length_fmap, length_zero_iff_nil.
    split.
    - intros Hnil path Hp. destruct (decide (path ∈ supported c)); [done|].
      assert (Hin : (path, true) ∈ []); [|by apply elem_of_nil in Hin].
      rewrite <- Hnil. apply list_elem_of_In, filter_In. split; [by apply list_elem_of_In|].
      cbn. unfold str_in. by rewrite bool_decide_false.
    - intros Hall. destruct (List.filter _ _) as [|[path b] l] eqn:E; [done|].
      assert (Hin : In (path, b) ((path, b) :: l)) by by left. rewrite <- E in Hin.
      apply filter_In in Hin as [Hin Hb]. apply andb_true_iff in Hb as [Hb1 Hb2]. cbn in Hb1, Hb2.
      subst b. apply negb_true_iff in Hb2. unfold str_in in Hb2. apply bool_decide_eq_false in Hb2.
      exfalso. apply Hb2, Hall. by apply list_elem_of_In. }
  unfold material_values_have_evidence. setoid_rewrite <- Hsup. rewrite <- Hmis.
  by destruct (missing c).
Qed.
End SalesContracts.
