(* ===== verification/SalesMatch.v ===== *)
(** * Sales leads: normalisation and identity matching

    [src/app/sales/normalization.py] and [src/app/sales/identity.py]: the
    normal forms of names, domains, addresses, e-mail addresses and telephone
    numbers, and the scores that say whether a candidate is already known to
    the tenant.  The telephone library is the interface [PhoneLib]. *)

From Stdlib Require Import Ascii.
From S2P Require Import Prelude PyText PyTime Txn PyUnicode SalesContracts.
Local Open Scope string_scope.
Local Open Scope Z_scope.

Module SalesMatch.
Import SalesContracts.

(** [phonenumbers]: what [parse] returns for a text and a region ([None] is
    [NumberParseException]), validity, the extension and the E.164 format. *)
Class PhoneLib := {
  phone_number : Type;
  phone_parse : string -> option string -> option phone_number;
  is_valid_number : phone_number -> bool;
  phone_extension : phone_number -> option string;
  format_e164 : phone_number -> string;
}.

(** ** Normal forms *)

Definition LEGAL_SUFFIXES : list string :=
  ["co"; "company"; "corp"; "corporation"; "gmbh"; "inc"; "incorporated"; "llc"; "llp"; "ltd";
   "limited"; "plc"; "sa"; "sarl"; "srl"].
Definition ROLE_EMAIL_LOCALS : list string :=
  ["admin"; "contact"; "hello"; "info"; "office"; "sales"; "support"].
Definition COMMON_SECOND_LEVEL_SUFFIXES : list string :=
  ["co.uk"; "com.au"; "com.br"; "com.do"; "com.mx"; "co.nz"; "co.za"].

Section normalisation.
Context `{TextLib} `{PhoneLib}.

(** [value or ""] *)
Definition or_empty (value : option string) : string := coalesce value "".

Definition _text (value : option string) : string :=
  join " " (py_split (blank_symbols (casefold (nfkc (or_empty value))))).

(** [while words and words[-1] in LEGAL_SUFFIXES: words.pop()], on the words in
    reverse. *)
Fixpoint pop_suffixes (reversed : list string) : list string :=
  match reversed with
  | w :: rest => if str_in w LEGAL_SUFFIXES then pop_suffixes rest else reversed
  | [] => []
  end.

Definition normalized_company_name (value : string) : string :=
  join " " (rev (pop_suffixes (rev (py_split (_text (Some value)))))).

Definition normalized_person_name (value : option string) : string := _text value.
Definition normalized_address_component (value : option string) : string := _text value.

(** [host.rstrip(".")] *)
Fixpoint rstrip_dots (s : string) : string :=
  match s with
  | String c s' =>
      let t := rstrip_dots s' in
      if Ascii.eqb c "." && bool_decide (t = "") then "" else String c t
  | EmptyString => ""
  end.

(** [None] stands for Python's [None]; the empty host becomes [None]. *)
Definition normalized_domain (value : option string) : exn + option string :=
  match value with
  | Some v =>
      if bool_decide (v = "") then inr None
      else
        match url_hostname (if contains "://" v then v else "//" +:+ v) with
        | inl e => inl e
        | inr hostname =>
            let host := removeprefix "www." (py_lower (rstrip_dots (or_empty hostname))) in
            match idna host with
            | None => inl (ValueError "domain cannot be normalized with IDNA")
            | Some h => inr (if bool_decide (h = "") then None else Some h)
            end
        end
  | None => inr None
  end.

(** The last labels of a host name. *)
Definition last_labels (n : nat) (labels : list string) : list string :=
  drop (length labels - n) labels.

Definition registrable_domain (value : option string) : exn + option string :=
  match normalized_domain value with
  | inl e => inl e
  | inr None => inr None
  | inr (Some host) =>
      let labels := split_on "." host in
      if (length labels <=? 2)%nat then inr (Some host)
      else
        let suffix2 := join "." (last_labels 2 labels) in
        inr (Some (if str_in suffix2 COMMON_SECOND_LEVEL_SUFFIXES
                   then join "." (last_labels 3 labels) else suffix2))
  end.

Definition normalized_email (value : option string) : exn + option string :=
  match value with
  | Some v =>
      if bool_decide (v = "") then inr None
      else
        match rpartition "@" (strip v) with
        | Some (local, dom) =>
            if bool_decide (local = "") || bool_decide (dom = "")
            then inl (ValueError "email is malformed")
            else match normalized_domain (Some dom) with
                 | inl e => inl e
                 | inr None => inl (ValueError "email domain is malformed")
                 | inr (Some host) => inr (Some (casefold (local +:+ "@" +:+ host)))
                 end
        | None => inl (ValueError "email is malformed")
        end
  | None => inr None
  end.

Definition role_email (value : option string) : exn + bool :=
  match normalized_email value with
  | inl e => inl e
  | inr None => inr false
  | inr (Some normalized) => inr (str_in (hd "" (split_on "@" normalized)) ROLE_EMAIL_LOCALS)
  end.

Record NormalizedPhone := mkPhone { e164 : string; extension : option string }.

(** An empty text or an empty list is falsy. *)
Definition normalized_phone (value cc : option string) : exn + option NormalizedPhone :=
  match value with
  | Some v =>
      if bool_decide (v = "") then inr None
      else
        match phone_parse v cc with
        | None => inl (ValueError "telephone number is ambiguous or invalid")
        | Some parsed =>
            if negb (is_valid_number parsed)
            then inl (ValueError "telephone number is ambiguous or invalid")
            else if negb (starts_with "+" (lstrip v)) && negb (given cc)
            then inl (ValueError "telephone country context is required")
            else inr (Some (mkPhone (format_e164 parsed)
                   (match phone_extension parsed with
                    | Some x => if bool_decide (x = "") then None else Some x
                    | None => None
                    end)))
        end
  | None => inr None
  end.
End normalisation.

(** ** Matching *)

Record OdooCompany := mkOdooCompany {
  oc_public_id : string;
  oc_tenant_id : string;
  oc_name : string;
  oc_legal_name : option string;
  oc_registration_number : option string;
  oc_country_code : string;
  oc_domain : option string;
  oc_city : option string;
  oc_region : option string;
  oc_address_line1 : option string;
}.

Record OdooContact := mkOdooContact {
  ot_public_id : string;
  ot_tenant_id : string;
  ot_company_public_id : string;
  ot_full_name : string;
  ot_business_email : option string;
  ot_business_phone : option string;
  ot_country_code : option string;
  ot_title : option string;
  ot_is_lead : bool;
}.

Record Match := mkMatch {
  score : Z;
  public_id : option string;
  reasons : list string;
}.
Definition no_match : Match := mkMatch 0 None [].

Record MatchPolicy := mkPolicy {
  exact_threshold : Z;
  review_threshold : Z;
  version : string;
}.
Definition default_policy : MatchPolicy := mkPolicy 90 70 "codestra.sales.identity.v1".

(** [a or b] on an optional text, with an optional and a plain alternative. *)
Definition or_else (a b : option string) : option string := if given a then a else b.

(** Two truthy texts that are equal. *)
Definition both_equal (a b : option string) : bool :=
  match a, b with
  | Some x, Some y => given a && given b && bool_decide (x = y)
  | _, _ => false
  end.

Definition same_text (a b : string) : bool :=
  negb (bool_decide (a = "")) && negb (bool_decide (b = "")) && bool_decide (a = b).

Definition b2z (b : bool) : Z := if b then 1 else 0.

Section matching.
Context `{TextLib} `{PhoneLib}.

Definition same_registration (incoming : Company) (co : OdooCompany) : bool :=
  given (registration_number incoming) && given (oc_registration_number co)
  && bool_decide (country_code incoming = oc_country_code co)
  && bool_decide (casefold (or_empty (registration_number incoming))
                  = casefold (or_empty (oc_registration_number co))).

Definition location_matches (incoming : Company) (co : OdooCompany) : Z :=
  b2z (bool_decide (country_code incoming = oc_country_code co))
  + b2z (given (city (address incoming))
         && bool_decide (normalized_address_component (city (address incoming))
                         = normalized_address_component (oc_city co)))
  + b2z (given (region (address incoming))
         && bool_decide (normalized_address_component (region (address incoming))
                         = normalized_address_component (oc_region co))).

Definition company_match (c : LeadCandidate) (co : OdooCompany) : exn + Match :=
  if negb (bool_decide (tenant_id c = oc_tenant_id co)) then
    inr (mkMatch 0 None ["CROSS_TENANT_DENIED"])
  else
    let incoming := company c in
    let found n reason := mkMatch n (Some (oc_public_id co)) [reason] in
    if same_registration incoming co then inr (found 100 "REGISTRATION_JURISDICTION_EXACT")
    else
      match registrable_domain (or_else (domain incoming) (website_url incoming)) with
      | inl e => inl e
      | inr incoming_domain =>
          match registrable_domain (oc_domain co) with
          | inl e => inl e
          | inr existing_domain =>
              if both_equal incoming_domain existing_domain then inr (found 95 "ROOT_DOMAIN_EXACT")
              else
                let incoming_name := normalized_company_name
                  (or_empty (or_else (legal_name incoming) (Some (name incoming)))) in
                let existing_name := normalized_company_name
                  (or_empty (or_else (oc_legal_name co) (Some (oc_name co)))) in
                let address_exact := same_text
                  (normalized_address_component (line1 (address incoming)))
                  (normalized_address_component (oc_address_line1 co)) in
                if bool_decide (incoming_name = existing_name) && address_exact
                   && bool_decide (country_code incoming = oc_country_code co)
                then inr (found 90 "LEGAL_NAME_ADDRESS_EXACT")
                else
                  let similarity := similarity_percent incoming_name existing_name in
                  let places := location_matches incoming co in
                  if (88 <=? similarity) && (2 <=? places)
                  then inr (found (Z.min 89 (75 + places * 4)) "COMPANY_NAME_LOCATION_STRONG")
                  else if 75 <=? similarity
                  then inr (found (Z.min 79 similarity) "COMPANY_NAME_FUZZY_REVIEW")
                  else inr no_match
          end
      end.

(** [" ".join(filter(None, [first_name, last_name]))] *)
Definition joined_name (ct : Contact) : string :=
  join " " (or_empty <$> List.filter given [first_name ct; last_name ct]).

(** The e-mail comparison: [Some] when it decides. *)
Definition email_match (incoming : Contact) (ct : OdooContact) : exn + option Match :=
  if given (business_email incoming) && given (ot_business_email ct) then
    match normalized_email (business_email incoming), normalized_email (ot_business_email ct) with
    | inl e, _ => inl e
    | _, inl e => inl e
    | inr a, inr b =>
        if bool_decide (a = b) then
          match role_email (business_email incoming) with
          | inl e => inl e
          | inr true => inr (Some (mkMatch 75 (Some (ot_public_id ct)) ["ROLE_EMAIL_REVIEW_ONLY"]))
          | inr false => inr (Some (mkMatch 100 (Some (ot_public_id ct)) ["BUSINESS_EMAIL_EXACT"]))
          end
        else inr None
    end
  else inr None.

(** The telephone comparison. *)
Definition phone_match (incoming : Contact) (ct : OdooContact) (co : Match) :
    exn + option Match :=
  match normalized_phone (business_phone incoming) (c_country_code incoming),
        normalized_phone (ot_business_phone ct) (ot_country_code ct) with
  | inl e, _ => inl e
  | _, inl e => inl e
  | inr (Some p), inr (Some q) =>
      if bool_decide (e164 p = e164 q) then
        inr (Some (if 90 <=? score co
                   then mkMatch 95 (Some (ot_public_id ct)) ["E164_PHONE_COMPANY_CONFIRMED"]
                   else mkMatch 75 (Some (ot_public_id ct)) ["SHARED_PHONE_REVIEW_ONLY"]))
      else inr None
  | _, _ => inr None
  end.

Definition name_match (incoming : Contact) (ct : OdooContact) (co : Match) : Match :=
  let incoming_name := normalized_person_name
    (or_else (full_name incoming) (Some (joined_name incoming))) in
  let existing_name := normalized_person_name (Some (ot_full_name ct)) in
  let similarity := if bool_decide (incoming_name = "") then 0
                    else similarity_percent incoming_name existing_name in
  let title_compatible :=
    given (title incoming) && given (ot_title ct)
    && bool_decide (normalized_person_name (title incoming) = normalized_person_name (ot_title ct)) in
  if (similarity =? 100) && (90 <=? score co) && title_compatible
  then mkMatch 85 (Some (ot_public_id ct)) ["NAME_COMPANY_TITLE_EXACT"]
  else if 75 <=? similarity
  then mkMatch (Z.min 79 similarity) (Some (ot_public_id ct)) ["PERSON_NAME_FUZZY_REVIEW"]
  else no_match.

Definition contact_match (c : LeadCandidate) (ct : OdooContact) (co : Match) : exn + Match :=
  if negb (bool_decide (tenant_id c = ot_tenant_id ct)) then
    inr (mkMatch 0 None ["CROSS_TENANT_DENIED"])
  else
    match email_match (contact c) ct with
    | inl e => inl e
    | inr (Some m) => inr m
    | inr None =>
        match phone_match (contact c) ct co with
        | inl e => inl e
        | inr (Some m) => inr m
        | inr None => inr (name_match (contact c) ct co)
        end
    end.

(** [max(..., key=score, default=Match())] over a generator: the first of the
    best, or the first exception. *)
Fixpoint max_match {A} (f : A -> exn + Match) (best : option Match) (values : list A) : exn + Match :=
  match values with
  | [] => inr (coalesce best no_match)
  | v :: rest =>
      match f v with
      | inl e => inl e
      | inr m =>
          max_match f
            (match best with
             | Some b => if score b <? score m then Some m else best
             | None => Some m
             end) rest
      end
  end.

Definition best_company (c : LeadCandidate) (values : list OdooCompany) : exn + Match :=
  max_match (company_match c) None values.

Definition best_contact (c : LeadCandidate) (values : list OdooContact) (co : Match) : exn + Match :=
  max_match (fun v => contact_match c v co) None values.

(** *** What the scores mean *)

(** A match of record [p] of tenant [t], or none at all. *)
Definition match_of (c : LeadCandidate) (t p : string) (m : Match) : Prop :=
  (score m = 0 /\ public_id m = None)
  \/ (75 <= score m <= 100 /\ public_id m = Some p /\ tenant_id c = t).

Lemma location_matches_range incoming co : 0 <= location_matches incoming co <= 3.
Proof. unfold location_matches, b2z. repeat case_match; lia. Qed.

Lemma company_match_of c co m :
  company_match c co = inr m -> match_of c (oc_tenant_id co) (oc_public_id co) m.
Proof.
  unfold company_match, match_of. pose proof (location_matches_range (company c) co) as Hl.
  intros E. repeat case_match; simplify_eq; cbn [score public_id no_match]; bool_to_prop;
    try (left; done);
    right; split_and!; (done || lia).
Qed.

Lemma contact_match_of c ct co m :
  contact_match c ct co = inr m -> match_of c (ot_tenant_id ct) (ot_public_id ct) m.
Proof.
  unfold contact_match, email_match, phone_match, name_match, match_of.
  intros E. repeat case_match; simplify_eq; cbn [score public_id no_match]; bool_to_prop;
    try (left; done);
    right; split_and!; (done || lia).
Qed.

(** The best of a list: the value of one of its elements, no worse than any. *)
Definition best_of {A} (f : A -> exn + Match) (values : list A) (m : Match) : Prop :=
  (values = [] /\ m = no_match \/ exists v, v ∈ values /\ f v = inr m)
  /\ forall v, v ∈ values -> exists m', f v = inr m' /\ score m' <= score m.

Lemma max_match_from {A} (f : A -> exn + Match) best values m :
  max_match f (Some best) values = inr m ->
  (m = best \/ exists v, v ∈ values /\ f v = inr m) /\ score best <= score m
  /\ forall v, v ∈ values -> exists m', f v = inr m' /\ score m' <= score m.
Proof.
  revert best. induction values as [|v values IH]; intros best; cbn.
  - intros [= <-]. split_and!; [by left|done|]. intros v Hv. by apply elem_of_nil in Hv.
  - destruct (f v) as [e|m1] eqn:E1; [done|].
    assert (Hb : (if score best <? score m1 then Some m1 else Some best)
      = Some (if score best <? score m1 then m1 else best)) by by case_match.
    rewrite Hb. intros (Hm & Hs & Hall)%IH.
    split_and!.
    + destruct Hm as [->|(v' & Hv' & E')]; [|right; exists v'; split; [set_solver|done]].
      case_match; [right; exists v; split; [set_solver|done]|by left].
    + destruct (Z.ltb_spec (score best) (score m1)); lia.
    + intros v' [->|Hv']%elem_of_cons; [exists m1; split; [done|]|by apply Hall].
      destruct (Z.ltb_spec (score best) (score m1)); lia.
Qed.

Lemma max_match_best {A} (f : A -> exn + Match) values m :
  max_match f None values = inr m -> best_of f values m.
Proof.
  destruct values as [|v values]; cbn.
  - intros [= <-]. split; [by left|]. intros v Hv. by apply elem_of_nil in Hv.
  - destruct (f v) as [e|m1] eqn:E1; [done|]. intros (Hm & Hs & Hall)%max_match_from.
    split; [right|].
    + destruct Hm as [->|(v' & Hv' & E')]; [exists v|exists v']; split; (done || set_solver).
    + intros v' [->|Hv']%elem_of_cons; [by exists m1|by apply Hall].
Qed.
End matching.
End SalesMatch.
