(* ===== verification/SalesService.v ===== *)
(** * Sales leads: the service

    [src/app/sales/service.py]: resolution of lead candidates with replay
    protection, duplicate reviews and audit, and verification jobs.  A call
    runs without interruption up to an [await]; it is cut there, and a step of
    the service is one such segment of one call.  A lock is held by the call
    that is inside its [async with]; a call that waits for a lock has changed
    nothing yet, so it is a call whose segment has not run.  What Odoo answers
    is the environment's choice. *)

From S2P Require Import Prelude PyText PyTime Sha256 Txn PyUnicode SalesContracts SalesMatch.
Local Open Scope string_scope.
Local Open Scope Z_scope.

Module SalesService.
Export SalesContracts SalesMatch.

(** ** Errors *)

(** [SalesError] and its subclasses, and any other exception that escapes. *)
Inductive sales_error :=
  | SalesError (msg : string)
  | SalesConflict (msg : string)
  | Escaped (e : exn).

Definition error_code (e : sales_error) : option string :=
  match e with
  | SalesError _ => Some "SALES_REQUEST_REJECTED"
  | SalesConflict _ => Some "IDEMPOTENCY_PAYLOAD_CONFLICT"
  | Escaped _ => None
  end.

(** ** State *)

Notation scope := (string * string * string)%type.

Inductive entry_result :=
  | ResolutionResult (r : LeadResolution)
  | JobResult (id : string).

Record IdempotencyEntry := mkEntry {
  ie_tenant_id : string;
  ie_operation : string;
  ie_key_hash : string;
  ie_payload_hash : string;
  ie_result : entry_result;
  ie_correlation_id : string;
  ie_created_at : Z;
}.

Record AuditRecord := mkAudit {
  ar_event_type : string;
  ar_tenant_id : string;
  ar_actor : string;
  ar_correlation_id : string;
  ar_subject_id : string;
  ar_decision : string;
  ar_reason_codes : list string;
  ar_policy_version : string;
  ar_payload_hash : string;
  ar_source_provider : string;
  ar_occurred_at : Z;
}.

(** The reviewer's identity and decision time, which nothing sets, are left out. *)
Record DuplicateReview := mkReview {
  dr_review_id : string;
  dr_tenant_id : string;
  dr_campaign_id : string;
  dr_candidate_id : string;
  dr_odoo_company_id : option string;
  dr_odoo_lead_id : option string;
  dr_company_score : Z;
  dr_contact_score : Z;
  dr_match_reasons : list string;
  dr_evidence_hashes : list string;
  dr_policy_version : string;
  dr_state : string;
  dr_created_at : Z;
}.

Record job_result := mkResult {
  jb_candidate_id : option string;
  jb_classification : string;
  jb_reason_codes : list string;
}.

Record VerificationJob := mkJob {
  vj_job_id : string;
  vj_request : VerificationJobRequest;
  vj_correlation_id : string;
  vj_state : VerificationJobState;
  vj_total : Z;
  vj_processed : Z;
  vj_warnings : Z;
  vj_results : list job_result;
  vj_created_at : Z;
}.
#[export] Instance VerificationJob_eta : Eta VerificationJob := fun j =>
  mkJob (vj_job_id j) (vj_request j) (vj_correlation_id j) (vj_state j) (vj_total j)
    (vj_processed j) (vj_warnings j) (vj_results j) (vj_created_at j).

(** The two counters of writes, which nothing increments, are left out, and
    the locks are those of the calls below. *)
Record service := mkService {
  idempotency : gmap scope IdempotencyEntry;
  candidates : gmap string LeadCandidate;
  resolutions : gmap string LeadResolution;
  reviews : gmap string DuplicateReview;
  jobs : gmap string VerificationJob;
  audits : list AuditRecord;
}.
#[export] Instance service_eta : Eta service := fun s =>
  mkService (idempotency s) (candidates s) (resolutions s) (reviews s) (jobs s) (audits s).

(** What the Odoo port answers. *)
Record OdooLookup := mkLookup {
  companies : list OdooCompany;
  contacts : list OdooContact;
  compliance : option ComplianceSnapshot;
}.

(** [OdooReadUnavailable] and [TimeoutError] are one case to the service. *)
Inductive answer (A : Type) :=
  | Answered (a : A)
  | Unavailable
  | Raised (e : exn).
Arguments Answered {A} a.
Arguments Unavailable {A}.
Arguments Raised {A} e.

(** ** Resolution *)

Section service.
Context `{TextLib} `{PhoneLib}.
(** [json.dumps(value.model_dump(mode="json"), sort_keys=True, ...)] of the two
    models, by the validation library. *)
Context (candidate_json : LeadCandidate -> string) (request_json : VerificationJobRequest -> string).
Context (policy : MatchPolicy).

Definition canonical_hash (c : LeadCandidate) : string := sha256_hex (candidate_json c).
Definition canonical_request_hash (r : VerificationJobRequest) : string :=
  sha256_hex (request_json r).

Definition _audit (event_type : string) (c : LeadCandidate)
    (correlation_id subject_id decision : string) (reason_codes : list string)
    (payload_hash : string) (t : Z) (s : service) : service :=
  s <| audits ::= fun l => app l
    [mkAudit event_type (tenant_id c) "codestra-sales-lead-service" correlation_id subject_id
       decision reason_codes POLICY_VERSION payload_hash (provider (source c)) t] |>.

Definition RESOLVE : string := "lead_candidate.resolve".
Definition CREATE : string := "verification_job.create".

Definition resolve_scope (c : LeadCandidate) (key : string) : scope :=
  (tenant_id c, RESOLVE, sha256_hex key).

(** A call of [resolve] that waits for Odoo, inside its lock. *)
Record pending := mkPending {
  p_candidate : LeadCandidate;
  p_key : string;
  p_correlation_id : string;
  p_candidate_id : string;
}.
Definition p_scope (p : pending) : scope := resolve_scope (p_candidate p) (p_key p).

Notation outcome := (sales_error + LeadResolution * bool)%type.

Inductive begun :=
  | Done (r : outcome)
  | Waiting (p : pending).

(** [resolve] up to the lookup; [new] is the UUID it draws. *)
Definition resolve_begin (c : LeadCandidate) (key correlation_id : string) (new : uuid) (t : Z)
    (s : service) : service * begun :=
  if (py_len key <? 16) || (255 <? py_len key)
  then (s, Done (inl (SalesError "idempotency key is outside bounded limits")))
  else
    let payload_hash := canonical_hash c in
    match idempotency s !! resolve_scope c key with
    | Some prior =>
        if negb (bool_decide (ie_payload_hash prior = payload_hash)) then
          (_audit "idempotency_conflict.rejected" c correlation_id "conflict" "CONFLICT"
             ["PAYLOAD_HASH_MISMATCH"] payload_hash t s,
           Done (inl (SalesConflict "idempotency key was already used for another payload")))
        else
          match ie_result prior with
          | ResolutionResult r =>
              (_audit "idempotent_replay.returned" c (ie_correlation_id prior) (r_candidate_id r)
                 "REPLAY" ["IDEMPOTENT_REPLAY"] payload_hash t s, Done (inr (r, true)))
          | JobResult _ => (s, Done (inl (Escaped (LookupError "candidate_id"))))
          end
    | None =>
        let id := "LDC-" +:+ hex 32 new in
        (_audit "lead_candidate.received" c correlation_id id "RECEIVED" ["SCHEMA_VALID"]
           payload_hash t s, Waiting (mkPending c key correlation_id id))
    end.

Definition unavailable_snapshot (c : LeadCandidate) : ComplianceSnapshot :=
  mkSnapshot (tenant_id c) (campaign_id c) false false false false false false false false false
    "UNKNOWN" false.

Definition unavailable_match : MatchResolution :=
  mkMatchResolution false None None 0 ["ODOO_LOOKUP_UNAVAILABLE"].

Definition unavailable_resolution (p : pending) : LeadResolution :=
  let c := p_candidate p in
  mkResolution (p_candidate_id p) MANUAL_REVIEW "ODOO_UNAVAILABLE" false "NONE" "NONE" [] 0
    unavailable_match unavailable_match
    (cd_gates (evaluate (unavailable_snapshot c) (tenant_id c) (campaign_id c)))
    ["ODOO_UNAVAILABLE"] ["ODOO_UNAVAILABLE"] [] [] [("odoo", "UNAVAILABLE")]
    (Some (p_candidate_id p)) true (p_correlation_id p).

Definition decide_lead (cd : ComplianceDecision) (highest : Z) : Decision :=
  if blocked cd then SUPPRESSED
  else if exact_threshold policy <=? highest then EXACT_DUPLICATE
  else if review_threshold policy <=? highest then POSSIBLE_DUPLICATE
  else if cd_review_required cd then MANUAL_REVIEW
  else ACCEPTED.

(** [[value for value in (company.public_id, contact.public_id) if value]] *)
Definition references (company contact : Match) : list string :=
  or_empty <$> List.filter given [public_id company; public_id contact].

Definition resolution_of (p : pending) (cd : ComplianceDecision) (company contact : Match) :
    LeadResolution :=
  let highest := Z.max (score company) (score contact) in
  let decision := decide_lead cd highest in
  let review_required := cd_review_required cd || bool_decide (decision = POSSIBLE_DUPLICATE) in
  let kind (fuzzy : string) :=
    match decision with
    | EXACT_DUPLICATE => "EXACT" | POSSIBLE_DUPLICATE => fuzzy | _ => "NONE"
    end in
  mkResolution (p_candidate_id p) decision (decision_text decision)
    (bool_decide (decision = ACCEPTED) && negb (blocked cd) && negb (cd_review_required cd))
    (kind "POSSIBLE") (kind "FUZZY") (references company contact) highest
    (mkMatchResolution (exact_threshold policy <=? score company) (public_id company) None
       (score company) (reasons company))
    (mkMatchResolution (exact_threshold policy <=? score contact) None (public_id contact)
       (score contact) (reasons contact))
    (cd_gates cd)
    (if blocked cd then cd_reasons cd else [])
    (if review_required && negb (blocked cd) then cd_reasons cd else [])
    (if blocked cd then cd_reasons cd else [])
    (List.filter (starts_with "CONSENT_") (cd_reasons cd))
    [("odoo", "AVAILABLE")] (Some (p_candidate_id p)) review_required (p_correlation_id p).

Definition review_of (p : pending) (company contact : Match) (new : uuid) (t : Z) : DuplicateReview :=
  let c := p_candidate p in
  mkReview ("LDR-" +:+ hex 32 new) (tenant_id c) (campaign_id c) (p_candidate_id p)
    (public_id company) (public_id contact) (score company) (score contact)
    (app (reasons company) (reasons contact))
    (removeprefix "sha256:" <$> (content_hash <$> evidence c)) (version policy) "PENDING" t.

(** The resolution and, for a possible duplicate, the review; or the exception
    of a normaliser. *)
Definition resolve_lookup (p : pending) (lookup : OdooLookup) (new : uuid) (t : Z) :
    exn + LeadResolution * option DuplicateReview :=
  let c := p_candidate p in
  match best_company c (companies lookup) with
  | inl e => inl e
  | inr company =>
      match best_contact c (contacts lookup) company with
      | inl e => inl e
      | inr contact =>
          let cd := evaluate (coalesce (compliance lookup) (unavailable_snapshot c))
                      (tenant_id c) (campaign_id c) in
          let r := resolution_of p cd company contact in
          inr (r, if bool_decide (r_decision r = POSSIBLE_DUPLICATE)
                  then Some (review_of p company contact new t) else None)
      end
  end.

Definition file_review (p : pending) (review : option DuplicateReview) (t : Z) (s : service) : service :=
  match review with
  | None => s
  | Some rv =>
      _audit "duplicate_review.created" (p_candidate p) (p_correlation_id p) (dr_review_id rv)
        "PENDING" (dr_match_reasons rv) (canonical_hash (p_candidate p)) t
        (s <| reviews ::= <[dr_review_id rv := rv]> |>)
  end.

(** [reasons or default] *)
Definition or_reasons (l : list string) (default : list string) : list string :=
  match l with [] => default | _ => l end.

Definition store_resolution (p : pending) (r : LeadResolution) (t : Z) (s : service) : service :=
  let c := p_candidate p in
  let payload_hash := canonical_hash c in
  let corr := p_correlation_id p in
  let id := p_candidate_id p in
  let found := app (mr_reasons (r_company_resolution r))
                 (app (mr_reasons (r_contact_resolution r)) (r_rejection_reasons r)) in
  _audit "compliance_gate.evaluated" c corr id (decision_text (r_decision r))
    (or_reasons (r_rejection_reasons r) ["GATES_EVALUATED"]) payload_hash t
    (_audit "identity_resolution.completed" c corr id (decision_text (r_decision r))
       (or_reasons found ["ACCEPTED"]) payload_hash t
       (s <| candidates ::= <[id := c]> |>
          <| resolutions ::= <[id := r]> |>
          <| idempotency ::= <[p_scope p :=
               mkEntry (tenant_id c) RESOLVE (sha256_hex (p_key p)) payload_hash
                 (ResolutionResult r) corr t]> |>)).

(** [resolve] from the lookup on. *)
Definition resolve_finish (p : pending) (lookup : answer OdooLookup) (new : uuid) (t : Z)
    (s : service) : service * outcome :=
  match lookup with
  | Unavailable =>
      let r := unavailable_resolution p in (store_resolution p r t s, inr (r, false))
  | Raised e => (s, inl (Escaped e))
  | Answered l =>
      match resolve_lookup p l new t with
      | inl e => (s, inl (Escaped e))
      | inr (r, review) => (store_resolution p r t (file_review p review t s), inr (r, false))
      end
  end.

(** *** The adapters of [src/app/sales/odoo.py] that need no network *)

Definition disabled_lookup (c : LeadCandidate) : answer OdooLookup := Unavailable.

Definition synthetic_lookup (c : LeadCandidate) : answer OdooLookup :=
  if negb (bool_decide (campaign_id c = "TEST_SYN"))
     || negb (match dict_get (metadata c) "synthetic_canary" with
              | Some (MBool true) => true | _ => false end)
  then Unavailable
  else
    let granted := consent_claimed (source_claims c) in
    Answered (mkLookup [] [] (Some
      (mkSnapshot (tenant_id c) (campaign_id c) true false false false false false false false false
         (if granted then "GRANTED" else "UNKNOWN") granted))).

(** ** Verification jobs *)

Definition create_scope (r : VerificationJobRequest) (key : string) : scope :=
  (jr_tenant_id r, CREATE, sha256_hex key).

(** [create_job] up to the first page: an answer, or the job that now runs. *)
Definition create_begin (r : VerificationJobRequest) (key correlation_id : string) (new : uuid)
    (t : Z) (s : service) : service * (sales_error + VerificationJob * bool + string) :=
  let payload_hash := canonical_request_hash r in
  match idempotency s !! create_scope r key with
  | Some prior =>
      if negb (bool_decide (ie_payload_hash prior = payload_hash)) then
        (s, inl (inl (SalesConflict "idempotency key was already used for another job payload")))
      else
        match ie_result prior with
        | JobResult id =>
            match jobs s !! id with
            | Some j => (s, inl (inr (j, true)))
            | None => (s, inl (inl (Escaped (LookupError id))))
            end
        | ResolutionResult _ => (s, inl (inl (Escaped (LookupError "job_id"))))
        end
  | None =>
      let id := "LVJ-" +:+ hex 32 new in
      (s <| jobs ::= <[id := mkJob id r correlation_id RUNNING 0 0 0 [] t]> |>
         <| idempotency ::= <[create_scope r key :=
              mkEntry (jr_tenant_id r) CREATE (sha256_hex key) payload_hash (JobResult id)
                correlation_id t]> |>,
       inr id)
  end.

Definition update_job (id : string) (f : VerificationJob -> VerificationJob) (s : service) : service :=
  s <| jobs ::= alter f id |>.

Definition classify (d : Decision) : string :=
  match d with
  | EXACT_DUPLICATE => "EXACT_DUPLICATE"
  | POSSIBLE_DUPLICATE => "POSSIBLE_DUPLICATE"
  | SUPPRESSED => "DNC_BLOCKED"
  | ACCEPTED => "VERIFIED_VALID"
  | _ => "NEEDS_REVIEW"
  end.

(** The body of the loop after [resolve] has returned. *)
Definition add_result (r : LeadResolution) (j : VerificationJob) : VerificationJob :=
  j <| vj_results ::= fun l => app l
         [mkResult (Some (r_candidate_id r)) (classify (r_decision r)) (r_rejection_reasons r)] |>
    <| vj_processed ::= Z.succ |>.

Definition warn_unavailable (j : VerificationJob) : VerificationJob :=
  j <| vj_state := COMPLETED_WITH_WARNINGS |> <| vj_warnings := 1 |>
    <| vj_results ::= fun l => app l
         [mkResult None "DEPENDENCY_UNAVAILABLE" ["ODOO_LOOKUP_UNAVAILABLE"]] |>.

Definition verification_key (id : string) (c : LeadCandidate) : string :=
  "verification:" +:+ id +:+ ":" +:+ request_id (source c).

Definition cancel_job (id tenant : string) (s : service) : service * (sales_error + VerificationJob) :=
  match jobs s !! id with
  | Some j =>
      if negb (bool_decide (jr_tenant_id (vj_request j) = tenant))
      then (s, inl (SalesError "verification job was not found"))
      else
        let j' := if bool_decide (vj_state j ∈ [QUEUED; RUNNING])
                  then j <| vj_state := CANCELED |> else j in
        (update_job id (fun _ => j') s, inr j')
  | None => (s, inl (SalesError "verification job was not found"))
  end.

(** ** The service as a transition system *)

(** Where a call is: [resolve] at the lookup; [run_job] at the page, at the top
    of its loop with the candidates that are left, or at the lookup of one.
    The scope is the lock of the enclosing [create_job]. *)
Inductive call :=
  | Resolving (p : pending)
  | JobPage (id : string) (lock : scope)
  | JobLoop (id : string) (lock : scope) (corr : string) (rest : list LeadCandidate)
  | JobResolving (id : string) (lock : scope) (corr : string) (p : pending)
      (rest : list LeadCandidate).

Definition locks_of (x : call) : list scope :=
  match x with
  | Resolving p => [p_scope p]
  | JobPage _ lock => [lock]
  | JobLoop _ lock _ _ => [lock]
  | JobResolving _ lock _ p _ => [lock; p_scope p]
  end.

Record world := mkWorld {
  w_service : service;
  w_calls : gmap nat call;
}.

Definition free (lock : scope) (w : world) : Prop :=
  forall i x, w_calls w !! i = Some x -> lock ∉ locks_of x.

(** The rest of a job after a segment of its [resolve]. *)
Definition job_goes_on (id : string) (lock : scope) (corr : string) (rest : list LeadCandidate)
    (r : sales_error + LeadResolution * bool) (s : service) : service * option call :=
  match r with
  | inl _ => (s, None)
  | inr (res, _) => (update_job id (add_result res) s, Some (JobLoop id lock corr rest))
  end.

Definition job_begin (id : string) (lock : scope) (corr : string) (c : LeadCandidate)
    (rest : list LeadCandidate) (new : uuid) (t : Z) (s : service) : service * option call :=
  match resolve_begin c (verification_key id c) corr new t s with
  | (s', Waiting p) => (s', Some (JobResolving id lock corr p rest))
  | (s', Done r) => job_goes_on id lock corr rest r s'
  end.

Definition settle (i : nat) (r : service * option call) (calls : gmap nat call) : world :=
  mkWorld r.1 (match r.2 with Some x => <[i := x]> calls | None => delete i calls end).

Definition begun_call (b : begun) : option call :=
  match b with Waiting p => Some (Resolving p) | Done _ => None end.

(** One segment.  New UUIDs do not collide with the job ids in use. *)
Inductive world_step (w : world) : world -> Prop :=
  | ws_resolve i c key corr new t :
      w_calls w !! i = None -> free (resolve_scope c key) w ->
      world_step w
        (settle i (prod_map id begun_call (resolve_begin c key corr new t (w_service w))) (w_calls w))
  | ws_lookup i p lookup new t :
      w_calls w !! i = Some (Resolving p) ->
      world_step w
        (settle i ((resolve_finish p lookup new t (w_service w)).1, None) (w_calls w))
  | ws_create i r key corr new t :
      w_calls w !! i = None -> free (create_scope r key) w ->
      jobs (w_service w) !! ("LVJ-" +:+ hex 32 new) = None ->
      world_step w
        (let res := create_begin r key corr new t (w_service w) in
         settle i (res.1, match res.2 with
                          | inr id => Some (JobPage id (create_scope r key))
                          | inl _ => None
                          end) (w_calls w))
  | ws_page i id lock page j :
      w_calls w !! i = Some (JobPage id lock) -> jobs (w_service w) !! id = Some j ->
      world_step w
        (settle i
           (match page with
            | Unavailable => (update_job id warn_unavailable (w_service w), None)
            | Raised _ => (w_service w, None)
            | Answered cs =>
                (update_job id (fun j => j <| vj_total := Z.of_nat (length cs) |>) (w_service w),
                 Some (JobLoop id lock (vj_correlation_id j) cs))
            end) (w_calls w))
  | ws_next i id lock corr c rest new t :
      w_calls w !! i = Some (JobLoop id lock corr (c :: rest)) ->
      free (resolve_scope c (verification_key id c)) w ->
      world_step w (settle i (job_begin id lock corr c rest new t (w_service w)) (w_calls w))
  | ws_job_lookup i id lock corr p rest lookup new t :
      w_calls w !! i = Some (JobResolving id lock corr p rest) ->
      world_step w
        (let res := resolve_finish p lookup new t (w_service w) in
         settle i (job_goes_on id lock corr rest res.2 res.1) (w_calls w))
  | ws_job_end i id lock corr :
      w_calls w !! i = Some (JobLoop id lock corr []) ->
      world_step w
        (settle i (update_job id (fun j => j <| vj_state := COMPLETED |>) (w_service w), None) (w_calls w))
  | ws_cancel id tenant :
      world_step w (mkWorld (cancel_job id tenant (w_service w)).1 (w_calls w)).

Definition initial : world := mkWorld (mkService ∅ ∅ ∅ ∅ ∅ []) ∅.
Definition reachable (w : world) : Prop := rtc world_step initial w.
End service.
End SalesService.
