(* ===== verification/SalesSafety.v ===== *)
(** * Sales leads: what the service promises

    Which leads may be contacted, that matches never cross tenants, that an
    accepted key is answered the same way for ever, that jobs account for what
    they processed; and two ways a verification job goes wrong. *)

From S2P Require Import Prelude PyText PyTime Sha256 Txn PyUnicode SalesContracts SalesMatch SalesService.
Local Open Scope string_scope.
Local Open Scope Z_scope.

Module SalesSafety.
Import SalesService.

Section matches.
Context `{TextLib} `{PhoneLib}.
Context (policy : MatchPolicy).

(** ** Matches *)

(** The best match of a list of records, in terms of their ids and tenants. *)
Definition sound_match {A} (c : LeadCandidate) (f : A -> exn + Match) (id_of tenant_of : A -> string)
    (l : list A) (m : Match) : Prop :=
  0 <= score m <= 100
  /\ (forall p, public_id m = Some p ->
        exists v, v ∈ l /\ id_of v = p /\ tenant_of v = tenant_id c /\ f v = inr m)
  /\ (forall v, v ∈ l -> exists m', f v = inr m' /\ score m' <= score m)
  /\ (public_id m = None <-> forall v, v ∈ l -> exists m', f v = inr m' /\ public_id m' = None).

Lemma best_sound {A} c (f : A -> exn + Match) (id_of tenant_of : A -> string) l m :
  (forall v m, f v = inr m -> match_of c (tenant_of v) (id_of v) m) ->
  max_match f None l = inr m -> sound_match c f id_of tenant_of l m.
Proof.
  intros Hof [Hm Hall]%max_match_best. unfold match_of in Hof.
  assert (Hscore : score m = 0 /\ public_id m = None \/ exists v, v ∈ l /\ f v = inr m /\
    75 <= score m <= 100 /\ public_id m = Some (id_of v) /\ tenant_id c = tenant_of v).
  { destruct Hm as [[_ ->]|(v & Hv & E)]; [by left|]. specialize (Hof _ _ E). naive_solver. }
  split_and!.
  - destruct Hscore as [[-> _]|(? & _ & _ & ? & _)]; lia.
  - destruct Hscore as [[-> _]|(? & _ & _ & ? & _)]; lia.
  - intros p Hp. destruct Hscore as [[_ Hn]|(v & Hv & E & _ & Hid & Ht)]; [congruence|].
    exists v. split_and!; congruence.
  - done.
  - split.
    + intros Hn v Hv. destruct (Hall v Hv) as (m' & E & Hle). exists m'. split; [done|].
      destruct Hscore as [[Hz _]|(? & _ & _ & _ & Hs & _)]; [|congruence].
      destruct (Hof _ _ E) as [[_ ?]|[? _]]; [done|lia].
    + intros Hnone. destruct Hscore as [[_ ?]|(v & Hv & E & _ & Hs & _)]; [done|].
      destruct (Hnone v Hv) as (m' & E' & Hm'). congruence.
Qed.

(** Matching stays within the tenant and is exhaustive: the scores lie
    between 0 and 100; a company or contact is named only if a record of the
    candidate's own tenant with this id produced the score; no record of the
    lookup scores higher; and none is named exactly when no record matches at
    all. *)
Theorem matches_stay_in_tenant c cos cts m n :
  best_company c cos = inr m -> best_contact c cts m = inr n ->
  sound_match c (company_match c) oc_public_id oc_tenant_id cos m
  /\ sound_match c (fun v => contact_match c v m) ot_public_id ot_tenant_id cts n.
Proof.
  intros Hm Hn. split; apply best_sound; try done.
  - intros v m'. apply company_match_of.
  - intros v m'. apply contact_match_of.
Qed.

(** ** Outreach *)

(** Nothing in the lookup matches the candidate. *)
Definition unknown_to (c : LeadCandidate) (l : OdooLookup) : Prop :=
  (forall co, co ∈ companies l -> exists m, company_match c co = inr m /\ public_id m = None)
  /\ (forall ct, ct ∈ contacts l ->
        exists m, contact_match c ct no_match = inr m /\ public_id m = None).

Lemma contact_match_low c ct co co' :
  score co < 90 -> score co' < 90 -> contact_match c ct co = contact_match c ct co'.
Proof.
  intros H1' H2'. unfold contact_match, phone_match, name_match.
  assert (E : forall m, score m < 90 -> (90 <=? score m) = false) by (intros; by apply Z.leb_gt).
  by rewrite !E.
Qed.

Lemma decide_accepted cd highest :
  decide_lead policy cd highest = ACCEPTED <->
  blocked cd = false /\ cd_review_required cd = false
  /\ highest < exact_threshold policy /\ highest < review_threshold policy.
Proof.
  unfold decide_lead. destruct (blocked cd), (cd_review_required cd);
    destruct (Z.leb_spec (exact_threshold policy) highest),
      (Z.leb_spec (review_threshold policy) highest); naive_solver lia.
Qed.

(** The winner of a list is a match of the tenant, or none. *)
Lemma best_match_of {A} c (f : A -> exn + Match) (id_of tenant_of : A -> string) l m :
  (forall v m, f v = inr m -> match_of c (tenant_of v) (id_of v) m) ->
  max_match f None l = inr m -> match_of c (tenant_id c) (or_empty (public_id m)) m.
Proof.
  intros Hof [[[_ ->]|(v & _ & E)] _]%max_match_best; [by left|].
  destruct (Hof _ _ E) as [?|(Hs & Hp & Ht)]; [by left|]. right. by rewrite Hp.
Qed.

Lemma below_review c tn pid x :
  0 < review_threshold policy <= 75 -> match_of c tn pid x ->
  (score x < review_threshold policy <-> public_id x = None).
Proof. intros Hr [[-> ->]|(? & -> & _)]; split; (done || lia). Qed.

Lemma nothing_found c l m n :
  best_company c (companies l) = inr m -> best_contact c (contacts l) m = inr n ->
  (public_id m = None /\ public_id n = None <-> unknown_to c l).
Proof.
  intros Em En. destruct (matches_stay_in_tenant c _ _ _ _ Em En) as [(_ & _ & _ & Hm) (_ & _ & _ & Hn)].
  assert (Hlow : public_id m = None -> forall ct, contact_match c ct no_match = contact_match c ct m).
  { intros Hp ct. apply contact_match_low; [done|].
    destruct (best_match_of c _ _ _ _ _ (company_match_of c) Em) as [[-> _]|(_ & Hs & _)]; [lia|congruence]. }
  unfold unknown_to. rewrite <- Hm. split; intros [Hc Hd]; (split; [done|]).
  - intros ct Hct. rewrite (Hlow Hc). by apply Hn.
  - apply Hn. intros ct Hct. rewrite <- (Hlow Hc). by apply Hd.
Qed.

Lemma eligible_iff p cd m n :
  r_eligible_for_outreach (resolution_of policy p cd m n) = true <->
  blocked cd = false /\ cd_review_required cd = false
  /\ Z.max (score m) (score n) < exact_threshold policy
  /\ Z.max (score m) (score n) < review_threshold policy.
Proof.
  rewrite <- decide_accepted. cbn. rewrite !andb_true_iff, !negb_true_iff, bool_decide_eq_true.
  rewrite decide_accepted. tauto.
Qed.

(** C38. A lead may be contacted exactly when Odoo answered, the compliance
    snapshot it gave is for this tenant and campaign, was available, has nothing
    set against the contact, a granted consent and an open channel, and no
    company or contact it returned matches the candidate in any way.  Such a
    resolution is accepted, with every gate eligible, no reference to an
    existing record and no review. *)
Theorem outreach_only_when_clear cj p answer new t s s' r b :
  0 < review_threshold policy <= 75 -> review_threshold policy <= exact_threshold policy ->
  resolve_finish cj policy p answer new t s = (s', inr (r, b)) ->
  let c := p_candidate p in
  (r_eligible_for_outreach r = true <->
     exists l snap, answer = Answered l /\ compliance l = Some snap
       /\ clear snap (tenant_id c) (campaign_id c) /\ unknown_to c l)
  /\ (r_eligible_for_outreach r = true -> r_decision r = ACCEPTED /\ r_gates r = all_eligible
        /\ r_matched_entity_references r = [] /\ r_review_required r = false).
Proof.
  intros Hrev Hex E c. unfold resolve_finish in E. destruct answer as [l| |e]; [| |done].
  2: { apply (f_equal snd) in E. injection E as <- _. split; [|done]. split; [done|].
       by intros (? & ? & ? & _). }
  unfold resolve_lookup in E. fold c in E.
  destruct (best_company c (companies l)) as [|m] eqn:Em; [done|].
  destruct (best_contact c (contacts l) m) as [|n] eqn:En; [done|].
  apply (f_equal snd) in E. cbn [snd] in E. injection E as <- _.
  set (cd := evaluate _ _ _).
  pose proof (below_review c _ _ m Hrev (best_match_of c _ _ _ _ _ (company_match_of c) Em)) as Hm.
  pose proof (below_review c _ _ n Hrev
    (best_match_of c _ _ _ _ _ (fun v => contact_match_of c v m) En)) as Hn.
  assert (Hyes : r_eligible_for_outreach (resolution_of policy p cd m n) = true <->
    clear (coalesce (compliance l) (unavailable_snapshot c)) (tenant_id c) (campaign_id c)
    /\ unknown_to c l).
  { rewrite eligible_iff, <- evaluate_clear, <- (nothing_found c l m n Em En), <- Hm, <- Hn. fold cd.
    split; [naive_solver lia|]. intros [[? ?] [? ?]]. split_and!; (done || lia). }
  split.
  - rewrite Hyes. split.
    + intros [Hc Hu]. destruct (compliance l) as [snap|] eqn:Es; [by exists l, snap|].
      destruct Hc as (_ & _ & Hc & _). done.
    + intros (l' & snap & El & Es & Hc & Hu). injection El as <-. by rewrite Es.
  - intros He. pose proof (proj1 Hyes He) as [Hclear [Hpm Hpn]%(nothing_found c l m n Em En)].
    apply eligible_iff in He as (Hb & Hr & He).
    assert (Hacc : decide_lead policy cd (Z.max (score m) (score n)) = ACCEPTED)
      by by apply decide_accepted.
    cbn. unfold references. rewrite Hacc, Hpm, Hpn, Hr. split_and!; try done. by apply clear_gates.
Qed.
End matches.

Section safety.
Context `{TextLib} `{PhoneLib}.
Context (candidate_json : LeadCandidate -> string) (request_json : VerificationJobRequest -> string).
Context (policy : MatchPolicy).

Notation resolve_begin := (resolve_begin candidate_json).
Notation resolve_finish := (resolve_finish candidate_json policy).
Notation world_step := (world_step candidate_json request_json policy).
Notation reachable := (reachable candidate_json request_json policy).

(** ** What the segments do to the tables *)

Lemma begin_tables c key corr new t s :
  let s' := (resolve_begin c key corr new t s).1 in
  idempotency s' = idempotency s /\ jobs s' = jobs s /\ candidates s' = candidates s
  /\ resolutions s' = resolutions s /\ reviews s' = reviews s.
Proof. cbn. unfold SalesService.resolve_begin. by repeat case_match. Qed.

Lemma begin_waiting c key corr new t s s' p :
  resolve_begin c key corr new t s = (s', Waiting p) ->
  p_scope p = resolve_scope c key /\ idempotency s !! resolve_scope c key = None.
Proof. unfold SalesService.resolve_begin. intros E. repeat case_match; simplify_eq; done. Qed.

(** The entry a finished resolution leaves. *)
Definition entry_of (p : pending) (r : LeadResolution) (t : Z) : IdempotencyEntry :=
  mkEntry (tenant_id (p_candidate p)) RESOLVE (sha256_hex (p_key p))
    (canonical_hash candidate_json (p_candidate p)) (ResolutionResult r) (p_correlation_id p) t.

Lemma finish_tables p lookup new t s :
  let '(s', res) := resolve_finish p lookup new t s in
  jobs s' = jobs s
  /\ match res with
     | inl _ => s' = s
     | inr (r, replay) =>
         replay = false /\ idempotency s' = <[p_scope p := entry_of p r t]> (idempotency s)
     end.
Proof.
  unfold SalesService.resolve_finish, store_resolution, file_review, _audit.
  repeat case_match; simplify_eq; done.
Qed.

(** ** Locks *)

Definition pending_of (x : call) : option pending :=
  match x with
  | Resolving p | JobResolving _ _ _ p _ => Some p
  | _ => None
  end.
Definition job_of (x : call) : option (string * scope) :=
  match x with
  | Resolving _ => None
  | JobPage id lock | JobLoop id lock _ _ | JobResolving id lock _ _ _ => Some (id, lock)
  end.

Definition entry_ok (s : service) (sc : scope) (e : IdempotencyEntry) : Prop :=
  match ie_result e with
  | ResolutionResult _ => sc.1.2 = RESOLVE
  | JobResult id => sc.1.2 = CREATE /\ is_Some (jobs s !! id)
  end.

(** Every lock has one holder, a pending resolution has no entry yet, and an
    entry is of the kind of its operation. *)
Record tidy (w : world) : Prop := {
  ty_locks : forall i j x y l, w_calls w !! i = Some x -> w_calls w !! j = Some y ->
    l ∈ locks_of x -> l ∈ locks_of y -> i = j;
  ty_pending : forall i x p, w_calls w !! i = Some x -> pending_of x = Some p ->
    idempotency (w_service w) !! p_scope p = None;
  ty_job : forall i x id lock, w_calls w !! i = Some x -> job_of x = Some (id, lock) ->
    lock.1.2 = CREATE /\ idempotency (w_service w) !! lock <> None;
  ty_entries : forall sc e, idempotency (w_service w) !! sc = Some e -> entry_ok (w_service w) sc e;
}.

Lemma pending_lock x p : pending_of x = Some p -> p_scope p ∈ locks_of x.
Proof. destruct x; cbn; intros [= ->]; set_solver. Qed.
Lemma job_lock x id lock : job_of x = Some (id, lock) -> lock ∈ locks_of x.
Proof. destruct x; cbn; intros [= -> ->]; set_solver. Qed.
Lemma locks_cases x l :
  l ∈ locks_of x ->
  (exists p, pending_of x = Some p /\ l = p_scope p) \/ (exists id, job_of x = Some (id, l)).
Proof. destruct x; cbn; set_solver. Qed.

Lemma settle_calls i r calls k y :
  w_calls (settle i r calls) !! k = Some y ->
  (k <> i /\ calls !! k = Some y) \/ (k = i /\ r.2 = Some y).
Proof.
  unfold settle. cbn. destruct (r.2) as [x|].
  - rewrite lookup_insert_Some. intros [[-> ->]|[? ?]]; [by right|left; split; congruence].
  - rewrite lookup_delete_Some. intros [? ?]. left. split; congruence.
Qed.

(** No other call than [i] holds the lock. *)
Definition free_but (i : nat) (lock : scope) (w : world) : Prop :=
  forall j y, j <> i -> w_calls w !! j = Some y -> lock ∉ locks_of y.

(** A segment of call [i] keeps the world tidy when the entries it adds and the
    locks it takes concern nobody else. *)
Lemma settle_tidy w i s' o :
  tidy w ->
  (forall l, match o with Some x => l ∈ locks_of x | None => False end -> free_but i l w) ->
  (idempotency s' = idempotency (w_service w)
   \/ exists sc e, free_but i sc w /\ idempotency (w_service w) !! sc = None
        /\ idempotency s' = <[sc := e]> (idempotency (w_service w)) /\ entry_ok s' sc e) ->
  (forall id, is_Some (jobs (w_service w) !! id) -> is_Some (jobs s' !! id)) ->
  (forall x p, o = Some x -> pending_of x = Some p -> idempotency s' !! p_scope p = None) ->
  (forall x id lock, o = Some x -> job_of x = Some (id, lock) ->
     lock.1.2 = CREATE /\ idempotency s' !! lock <> None) ->
  tidy (settle i (s', o) (w_calls w)).
Proof.
  intros [Hl Hp Hj He] Hfree Hid Hjobs Hpend Hjob.
  assert (Hgrow : forall sc, idempotency (w_service w) !! sc <> None -> idempotency s' !! sc <> None).
  { intros sc Hsc. destruct Hid as [->|(sc' & e & _ & Hn & -> & _)]; [done|].
    rewrite lookup_insert_ne; [done|]. intros ->. done. }
  split; cbn [w_service settle fst].
  - intros k1 k2 x1 x2 l Hk1 Hk2 H1 H2.
    apply settle_calls in Hk1 as [[Hn1 Hk1]|[-> Hk1]], Hk2 as [[Hn2 Hk2]|[-> Hk2]]; cbn in *;
      [by eapply Hl|..|done]; exfalso; subst o.
    + by eapply (Hfree l H2 k1 x1).
    + by eapply (Hfree l H1 k2 x2).
  - intros k x p [[Hn Hk]|[-> Hk]]%settle_calls Hx; [|by eapply Hpend].
    destruct Hid as [->|(sc & e & Hsc & _ & -> & _)]; [by eapply Hp|].
    rewrite lookup_insert_ne; [by eapply Hp|]. intros ->.
    apply (Hsc k x Hn Hk). by apply pending_lock.
  - intros k x id lock [[Hn Hk]|[-> Hk]]%settle_calls Hx; [|by eapply Hjob].
    destruct (Hj k x id lock Hk Hx) as [? ?]. split; [done|]. by apply Hgrow.
  - intros sc e Hsc. assert (Hold : idempotency (w_service w) !! sc = Some e -> entry_ok s' sc e).
    { intros Hs. specialize (He _ _ Hs). unfold entry_ok in *. destruct (ie_result e); naive_solver. }
    destruct Hid as [Hs|(sc' & e' & _ & _ & Hs & Hok)]; rewrite Hs in Hsc; [by apply Hold|].
    apply lookup_insert_Some in Hsc as [[<- <-]|[_ Hsc]]; [done|by apply Hold].
Qed.

Lemma own_free w i x l : tidy w -> w_calls w !! i = Some x -> l ∈ locks_of x -> free_but i l w.
Proof. intros Hw Hx Hl j y Hne Hy Hly. apply Hne. by eapply (ty_locks _ Hw j i). Qed.

Lemma free_free_but w i l : free l w -> free_but i l w.
Proof. intros Hf j y _ Hy. by eapply Hf. Qed.

Lemma update_job_some id f s k : is_Some (jobs s !! k) -> is_Some (jobs (update_job id f s) !! k).
Proof. intros [j Hj]. cbn. destruct (decide (id = k)) as [->|Hne].
  - rewrite lookup_alter_eq, Hj. by eexists.
  - rewrite lookup_alter_ne by done. by eexists.
Qed.

Lemma goes_on_tables id lock corr rest r s :
  let '(s', o) := job_goes_on id lock corr rest r s in
  idempotency s' = idempotency s
  /\ (forall k, is_Some (jobs s !! k) -> is_Some (jobs s' !! k))
  /\ (o = None \/ o = Some (JobLoop id lock corr rest)).
Proof.
  destruct r as [e|[r b]]; cbn; (split_and!; [done| |by auto]); [done|].
  intros k. apply update_job_some.
Qed.

(** Most segments change no entry. *)
Lemma quiet_tidy w i s' o :
  tidy w -> idempotency s' = idempotency (w_service w) ->
  (forall id, is_Some (jobs (w_service w) !! id) -> is_Some (jobs s' !! id)) ->
  (forall x, o = Some x -> forall l, l ∈ locks_of x -> free_but i l w) ->
  (forall x p, o = Some x -> pending_of x = Some p ->
     idempotency (w_service w) !! p_scope p = None) ->
  (forall x id lock, o = Some x -> job_of x = Some (id, lock) ->
     lock.1.2 = CREATE /\ idempotency (w_service w) !! lock <> None) ->
  tidy (settle i (s', o) (w_calls w)).
Proof.
  intros Hw Hs Hj Hf Hp Hl. apply settle_tidy; [done| | |done| | ].
  - intros l Hx. destruct o as [x|]; [by eapply Hf|done].
  - by left.
  - rewrite Hs. exact Hp.
  - rewrite Hs. exact Hl.
Qed.

Lemma finish_tidy w i x p lookup new t id lock corr rest r s' :
  tidy w -> w_calls w !! i = Some x -> pending_of x = Some p ->
  resolve_finish p lookup new t (w_service w) = (s', r) ->
  (job_of x = Some (id, lock) -> tidy (settle i (job_goes_on id lock corr rest r s') (w_calls w)))
  /\ tidy (settle i (s', None) (w_calls w)).
Proof.
  intros Hw Hx Hp E. pose proof (finish_tables p lookup new t (w_service w)) as Ht.
  rewrite E in Ht. destruct Ht as [Hjobs Ht].
  pose proof (own_free _ _ _ _ Hw Hx (pending_lock _ _ Hp)) as Hfree.
  assert (Hid : idempotency s' = idempotency (w_service w)
    \/ exists sc e, free_but i sc w /\ idempotency (w_service w) !! sc = None
         /\ idempotency s' = <[sc := e]> (idempotency (w_service w))
         /\ forall s2, entry_ok s2 sc e).
  { destruct r as [e|[r b]]; [by left; subst|]. right. destruct Ht as [_ Ht].
    eexists _, _. split_and!; [exact Hfree|by eapply (ty_pending _ Hw)|exact Ht|done]. }
  split.
  - intros Hjob. pose proof (goes_on_tables id lock corr rest r s') as Hg.
    destruct (job_goes_on _ _ _ _ _ _) as [s2 o]. destruct Hg as (Hg1 & Hg2 & Hg3).
    destruct (ty_job _ Hw _ _ _ _ Hx Hjob) as [Hop Hsome].
    assert (Hsome2 : idempotency s' !! lock <> None).
    { destruct Hid as [->|(sc & e & _ & Hn & -> & _)]; [done|]. rewrite lookup_insert_ne; [done|].
      by intros ->. }
    apply settle_tidy; [done|..].
    + intros l Hl. destruct Hg3 as [->| ->]; [done|]. apply list_elem_of_singleton in Hl as ->.
      eapply own_free; [done|done|]. by eapply job_lock.
    + rewrite Hg1. destruct Hid as [?|(sc & e & ? & ? & ? & ?)]; [by left|]. right. by exists sc, e.
    + intros k Hk. apply Hg2. by rewrite Hjobs.
    + intros y q ->. by destruct Hg3 as [|[= ->]].
    + intros y id' lock' ->. destruct Hg3 as [|[= ->]]; [done|]. cbn. intros [= <- <-].
      by rewrite Hg1.
  - apply settle_tidy; [done|done| | |done|done].
    + destruct Hid as [?|(sc & e & ? & ? & ? & ?)]; [by left|]. right. by exists sc, e.
    + by rewrite Hjobs.
Qed.

Lemma create_tidy w i r key corr new t :
  tidy w -> free (create_scope r key) w ->
  let res := create_begin request_json r key corr new t (w_service w) in
  tidy (settle i (res.1, match res.2 with
                         | inr id => Some (JobPage id (create_scope r key))
                         | inl _ => None
                         end) (w_calls w)).
Proof.
  intros Hw Hf. cbn zeta. unfold create_begin.
  destruct (idempotency (w_service w) !! create_scope r key) as [prior|] eqn:Ep.
  - destruct (negb _); [by apply quiet_tidy|]. destruct (ie_result prior); [by apply quiet_tidy|].
    destruct (jobs (w_service w) !! id); by apply quiet_tidy.
  - cbn [fst snd]. apply settle_tidy; [done|..].
    + intros l Hl. apply list_elem_of_singleton in Hl as ->. by apply free_free_but.
    + right. eexists _, _. split_and!; [by apply free_free_but|exact Ep|reflexivity|].
      split; [done|]. cbn. rewrite lookup_insert_eq. by eexists.
    + intros k Hk. cbn. rewrite lookup_insert. case_decide; [by eexists|done].
    + by intros x p [= <-].
    + intros x id lock [= <-]. cbn. intros [= <- <-]. split; [done|]. by rewrite lookup_insert_eq.
Qed.

Lemma next_tidy w i id lock corr c rest new t :
  tidy w -> w_calls w !! i = Some (JobLoop id lock corr (c :: rest)) ->
  free (resolve_scope c (verification_key id c)) w ->
  tidy (settle i (job_begin candidate_json id lock corr c rest new t (w_service w)) (w_calls w)).
Proof.
  intros Hw Hx Hf. unfold job_begin.
  pose proof (begin_tables c (verification_key id c) corr new t (w_service w)) as (Hi & Hj & _).
  destruct (ty_job _ Hw _ _ id lock Hx eq_refl) as [Hop Hsome].
  assert (Hlock : free_but i lock w) by (eapply own_free; [exact Hw|exact Hx|by apply list_elem_of_singleton]).
  destruct (resolve_begin _ _ _ _ _ _) as [s' [r|p]] eqn:E; cbn in Hi, Hj.
  - pose proof (goes_on_tables id lock corr rest r s') as Hg.
    destruct (job_goes_on _ _ _ _ _ _) as [s2 o]. destruct Hg as (Hg1 & Hg2 & Hg3).
    apply quiet_tidy; [done|congruence|..].
    + intros k Hk. apply Hg2. by rewrite Hj.
    + intros y -> l Hl. destruct Hg3 as [|[= ->]]; [done|].
      by apply list_elem_of_singleton in Hl as ->.
    + intros y q ->. by destruct Hg3 as [|[= ->]].
    + intros y id' lock' ->. destruct Hg3 as [|[= ->]]; [done|]. cbn. by intros [= <- <-].
  - apply begin_waiting in E as [Hp Hn]. apply quiet_tidy; [done|done|by rewrite Hj|..].
    + intros y [= <-] l Hl. cbn in Hl.
      apply elem_of_cons in Hl as [->|Hl]; [done|]. apply list_elem_of_singleton in Hl as ->.
      rewrite Hp. by apply free_free_but.
    + intros y q [= <-] [= <-]. by rewrite Hp.
    + intros y id' lock' [= <-]. cbn. by intros [= <- <-].
Qed.

Lemma world_step_tidy w w' : tidy w -> world_step w w' -> tidy w'.
Proof.
  intros Hw [i c key corr new t Hn Hf|i p lookup new t Hx|i r key corr new t Hn Hf Hfr
    |i id lock page j Hx Hj|i id lock corr c rest new t Hx Hf|i id lock corr p rest lookup new t Hx
    |i id lock corr Hx|id tenant].
  - pose proof (begin_tables c key corr new t (w_service w)) as (Hi & Hj & _).
    destruct (resolve_begin _ _ _ _ _ _) as [s' b] eqn:E. cbn in *.
    apply quiet_tidy; [done|done|by rewrite Hj|..]; intros x; destruct b as [|p]; try done;
      apply begin_waiting in E as [Hp Hnone].
    + intros [= <-] l Hl. cbn in Hl. apply list_elem_of_singleton in Hl as ->. rewrite Hp.
      by apply free_free_but.
    + intros q [= <-] [= <-]. by rewrite Hp.
    + by intros id lock [= <-].
  - destruct (resolve_finish p lookup new t (w_service w)) as [s' r] eqn:E. cbn.
    by eapply (finish_tidy w i _ p lookup new t "" ("", "", "") "" [] r s').
  - by apply create_tidy.
  - destruct (ty_job _ Hw _ _ id lock Hx eq_refl) as [Hop Hsome].
    destruct page as [cs| |e]; apply quiet_tidy; try done; try (intros k; apply update_job_some).
    + intros x [= <-] l Hl. cbn in Hl. eapply own_free; [done|done|]. exact Hl.
    + by intros x p [= <-].
    + intros x id' lock' [= <-]. cbn. by intros [= <- <-].
  - by apply next_tidy.
  - cbn zeta. destruct (resolve_finish p lookup new t (w_service w)) as [s' r] eqn:E. cbn [fst snd].
    by eapply (finish_tidy w i _ p lookup new t id lock corr rest r s').
  - apply quiet_tidy; try done. intros k. apply update_job_some.
  - destruct Hw as [H1 H2 H3 H4].
    assert (Hc : idempotency (cancel_job id tenant (w_service w)).1 = idempotency (w_service w)
      /\ forall k, is_Some (jobs (w_service w) !! k) ->
           is_Some (jobs (cancel_job id tenant (w_service w)).1 !! k)).
    { unfold cancel_job. repeat case_match; (split; [done|]); intros k Hk; try done;
        by apply update_job_some. }
    destruct Hc as [Hi Hk]. split; cbn; rewrite ?Hi; try done.
    intros sc e Hsc. specialize (H4 sc e Hsc). unfold entry_ok in *. destruct (ie_result e); naive_solver.
Qed.

(** ** Entries stay *)

Lemma finish_entries w i x p lookup new t sc e :
  tidy w -> w_calls w !! i = Some x -> pending_of x = Some p ->
  idempotency (w_service w) !! sc = Some e ->
  idempotency (resolve_finish p lookup new t (w_service w)).1 !! sc = Some e.
Proof.
  intros Hw Hx Hp He. pose proof (finish_tables p lookup new t (w_service w)) as Ht.
  destruct (resolve_finish _ _ _ _ _) as [s' [er|[r b]]]; destruct Ht as [_ Ht]; cbn.
  - by subst.
  - destruct Ht as [_ ->]. rewrite lookup_insert_ne; [done|]. intros <-.
    by rewrite (ty_pending _ Hw _ _ _ Hx Hp) in He.
Qed.

Lemma goes_on_entries id lock corr rest r s :
  idempotency (job_goes_on id lock corr rest r s).1 = idempotency s.
Proof. pose proof (goes_on_tables id lock corr rest r s). by destruct (job_goes_on _ _ _ _ _ _), H1. Qed.

Lemma step_entries w w' sc e :
  tidy w -> world_step w w' ->
  idempotency (w_service w) !! sc = Some e -> idempotency (w_service w') !! sc = Some e.
Proof.
  intros Hw [i c key corr new t Hn Hf|i p lookup new t Hx|i r key corr new t Hn Hf Hfr
    |i id lock page j Hx Hj|i id lock corr c rest new t Hx Hf|i id lock corr p rest lookup new t Hx
    |i id lock corr Hx|id tenant] He.
  - pose proof (begin_tables c key corr new t (w_service w)) as (Hi & _).
    change (idempotency (resolve_begin c key corr new t (w_service w)).1 !! sc = Some e).
    by rewrite Hi.
  - by eapply finish_entries.
  - cbn. unfold create_begin. repeat case_match; try done. cbn.
    rewrite lookup_insert_ne; [done|]. congruence.
  - by destruct page.
  - cbn. unfold job_begin. pose proof (begin_tables c (verification_key id c) corr new t (w_service w)) as (Hi & _).
    destruct (resolve_begin _ _ _ _ _ _) as [s' [r|p]]; cbn in *; [rewrite goes_on_entries|]; by rewrite Hi.
  - cbn. rewrite goes_on_entries. by eapply finish_entries.
  - done.
  - cbn. unfold cancel_job. by repeat case_match.
Qed.

Lemma tidy_initial : tidy initial.
Proof. split; cbn; intros; rewrite lookup_empty in *; done. Qed.

Lemma run_tidy w w' : tidy w -> rtc world_step w w' -> tidy w'.
Proof. intros Hw Hr. induction Hr; eauto using world_step_tidy. Qed.

Lemma reachable_tidy w : reachable w -> tidy w.
Proof. apply run_tidy, tidy_initial. Qed.

Lemma run_entries w w' sc e :
  tidy w -> rtc world_step w w' ->
  idempotency (w_service w) !! sc = Some e -> idempotency (w_service w') !! sc = Some e.
Proof. intros Hw Hr. induction Hr; eauto using world_step_tidy, step_entries. Qed.

(** The service but for its audit trail. *)
Definition same_but_audits (s s' : service) : Prop :=
  s' = s <| audits := audits s' |>.

(** Once a candidate has been resolved under a key, at any later time and
    whatever ran in between, the same candidate under this key is answered with
    the same resolution, marked as a replay, and a different payload under it
    is refused as a conflict; both leave one audit record and change nothing
    else. *)
Theorem resolution_replayed_forever w w' sc e c key corr new t :
  reachable w -> idempotency (w_service w) !! sc = Some e ->
  rtc world_step w w' ->
  sc = resolve_scope c key -> 16 <= py_len key <= 255 ->
  exists r, ie_result e = ResolutionResult r
  /\ let '(s', b) := resolve_begin c key corr new t (w_service w') in
     same_but_audits (w_service w') s'
     /\ length (audits s') = S (length (audits (w_service w')))
     /\ b = Done (if decide (ie_payload_hash e = canonical_hash candidate_json c)
                  then inr (r, true)
                  else inl (SalesConflict "idempotency key was already used for another payload")).
Proof.
  intros Hw He Hr -> Hk. apply reachable_tidy in Hw.
  pose proof (ty_entries _ Hw _ _ He) as Hok. unfold entry_ok in Hok.
  destruct (ie_result e) as [r|id] eqn:Er; [|by destruct Hok as [Hok _]].
  exists r. split; [done|]. pose proof (run_entries _ _ _ _ Hw Hr He) as He'.
  unfold SalesService.resolve_begin.
  destruct (Z.ltb_spec (py_len key) 16); [lia|]. destruct (Z.ltb_spec 255 (py_len key)); [lia|].
  cbn [orb]. rewrite He', Er. unfold _audit, same_but_audits.
  case_bool_decide; case_decide; try done; cbn; split_and!; try done;
    rewrite length_app; cbn; lia.
Qed.

(** ** Jobs *)

(** The account of a job: one result for every candidate processed, or the one
    warning; complete exactly when all candidates were processed. *)
Definition job_ok (j : VerificationJob) : Prop :=
  0 <= vj_processed j <= vj_total j
  /\ Z.of_nat (length (vj_results j)) = vj_processed j + vj_warnings j
  /\ match vj_state j with
     | RUNNING | CANCELED => vj_warnings j = 0
     | COMPLETED => vj_processed j = vj_total j /\ vj_warnings j = 0
     | COMPLETED_WITH_WARNINGS => vj_total j = 0 /\ vj_warnings j = 1
     | QUEUED | FAILED => False
     end.

(** A call at work on its job. *)
Definition working_on (x : call) (j : VerificationJob) : Prop :=
  (vj_state j = RUNNING \/ vj_state j = CANCELED)
  /\ match x with
     | Resolving _ => False
     | JobPage _ _ => vj_total j = 0
     | JobLoop _ _ _ rest => vj_total j = vj_processed j + Z.of_nat (length rest)
     | JobResolving _ _ _ _ rest => vj_total j = vj_processed j + 1 + Z.of_nat (length rest)
     end.

(** No call but [i] works on the job. *)
Definition only_by (i : nat) (id : string) (w : world) : Prop :=
  forall k y l, k <> i -> w_calls w !! k = Some y -> job_of y <> Some (id, l).

Record accounted (w : world) : Prop := {
  ac_jobs : forall id j, jobs (w_service w) !! id = Some j -> job_ok j;
  ac_calls : forall i x id l, w_calls w !! i = Some x -> job_of x = Some (id, l) ->
    exists j, jobs (w_service w) !! id = Some j /\ working_on x j;
  ac_one : forall i x id l, w_calls w !! i = Some x -> job_of x = Some (id, l) -> only_by i id w;
}.

(** A segment of call [i] may only touch a job that no other call works on. *)
Lemma settle_accounted w i s' o :
  accounted w ->
  (forall id j, jobs (w_service w) !! id = Some j -> is_Some (jobs s' !! id)) ->
  (forall id j', jobs s' !! id = Some j' ->
     jobs (w_service w) !! id = Some j' \/ (job_ok j' /\ only_by i id w)) ->
  (forall x id l, o = Some x -> job_of x = Some (id, l) ->
     only_by i id w /\ exists j, jobs s' !! id = Some j /\ working_on x j) ->
  accounted (settle i (s', o) (w_calls w)).
Proof.
  intros [Hj Hc Ho] Hkeep Hnew Hcall. split; cbn [w_service settle fst].
  - intros id j' [?|[? _]]%Hnew; [by eapply Hj|done].
  - intros k x id l [[Hne Hk]|[-> Hk]]%settle_calls Hx; [|by eapply Hcall].
    destruct (Hc k x id l Hk Hx) as (j & Ej & Hw). destruct (Hkeep id j Ej) as [j' Ej'].
    destruct (Hnew id j' Ej') as [?|[_ Honly]]; [|by destruct (Honly k x l Hne Hk)].
    exists j'. split; [done|]. congruence.
  - intros k x id l Hk Hx k2 y l2 Hne Hk2 Hy.
    apply settle_calls in Hk as [[Hn Hk]|[-> Hk]], Hk2 as [[Hn2 Hk2]|[-> Hk2]]; cbn in *;
      [by eapply (Ho k x id l Hk Hx k2 y l2)|..|done].
    + destruct (Hcall y id l2 Hk2 Hy) as [Honly _]. by eapply (Honly k x l).
    + destruct (Hcall x id l Hk Hx) as [Honly _]. by eapply (Honly k2 y l2).
Qed.

(** A segment that touches no job. *)
Lemma settle_same_jobs w i s' o :
  accounted w -> jobs s' = jobs (w_service w) ->
  (forall x id l, o = Some x -> job_of x = Some (id, l) ->
     only_by i id w /\ exists j, jobs (w_service w) !! id = Some j /\ working_on x j) ->
  accounted (settle i (s', o) (w_calls w)).
Proof.
  intros Hw Hs Hcall. apply settle_accounted; rewrite ?Hs; [done|by eexists|by left|exact Hcall].
Qed.

(** A segment of the call that works on job [id] which updates this job. *)
Lemma settle_own_job w i x id l s' f o :
  accounted w -> w_calls w !! i = Some x -> job_of x = Some (id, l) ->
  jobs s' = alter f id (jobs (w_service w)) ->
  (forall j, job_ok j -> working_on x j -> job_ok (f j)
     /\ forall y, o = Some y -> job_of y = Some (id, l) /\ working_on y (f j)) ->
  accounted (settle i (s', o) (w_calls w)).
Proof.
  intros Hw Hx Hid Hs Hf. destruct (ac_calls _ Hw _ _ _ _ Hx Hid) as (j & Ej & Hwork).
  pose proof (ac_one _ Hw _ _ _ _ Hx Hid) as Honly.
  destruct (Hf j (ac_jobs _ Hw _ _ Ej) Hwork) as [Hok Hy].
  apply settle_accounted; [done|..]; rewrite Hs.
  - intros k jk Ejk. rewrite lookup_alter. case_decide as Hk; [subst k; rewrite Ejk|]; by eexists.
  - intros k j'. rewrite lookup_alter. case_decide as Hk; [subst k|by left].
    rewrite Ej. intros [= <-]. by right.
  - intros y id' l' -> Hy'. destruct (Hy y eq_refl) as [Hjob Hwy]. rewrite Hjob in Hy'.
    injection Hy' as <- <-. split; [done|]. exists (f j). split; [|done].
    by rewrite lookup_alter_eq, Ej.
Qed.

Lemma finish_jobs p lookup new t s : jobs (resolve_finish p lookup new t s).1 = jobs s.
Proof.
  pose proof (finish_tables p lookup new t s). destruct (resolve_finish _ _ _ _ _). by destruct H1.
Qed.

Lemma goes_on_accounted w i x id lock corr rest r s' :
  accounted w -> w_calls w !! i = Some x -> job_of x = Some (id, lock) ->
  jobs s' = jobs (w_service w) ->
  (forall j, working_on x j -> vj_total j = vj_processed j + 1 + Z.of_nat (length rest)) ->
  accounted (settle i (job_goes_on id lock corr rest r s') (w_calls w)).
Proof.
  intros Hw Hx Hid Hs Hn. destruct r as [e|[r b]]; cbn [job_goes_on].
  - by apply settle_same_jobs.
  - eapply settle_own_job; [done|done|done|cbn; by rewrite Hs|].
    intros j (Hp & Hl & Hst) Hwork. pose proof (Hn j Hwork) as Ht. destruct Hwork as [Hrun _].
    split.
    + unfold job_ok. cbn. rewrite length_app. cbn. split_and!; [lia|lia|lia|].
      destruct Hrun as [E|E]; rewrite E in *; done.
    + intros y [= <-]. split; [done|]. split; [exact Hrun|]. cbn. lia.
Qed.

Lemma create_accounted w i r key corr new t :
  accounted w -> jobs (w_service w) !! ("LVJ-" +:+ hex 32 new) = None ->
  let res := create_begin request_json r key corr new t (w_service w) in
  accounted (settle i (res.1, match res.2 with
                              | inr id => Some (JobPage id (create_scope r key))
                              | inl _ => None
                              end) (w_calls w)).
Proof.
  intros Hw Hfresh. cbn zeta. unfold create_begin.
  destruct (idempotency (w_service w) !! create_scope r key) as [prior|].
  { repeat case_match; by apply settle_same_jobs. }
  set (id := "LVJ-" +:+ hex 32 new) in *. cbn [fst snd].
  assert (Honly : only_by i id w).
  { intros k y l _ Hk Hy. destruct (ac_calls _ Hw _ _ _ _ Hk Hy) as (j & Ej & _). congruence. }
  apply settle_accounted; [done|..]; cbn [jobs upd].
  - intros k j Ej. cbn. rewrite lookup_insert. case_decide; [by eexists|by exists j].
  - intros k j'. cbn. rewrite lookup_insert. case_decide as Hk; [|by left]. intros [= <-].
    right. subst k. split; [|done]. unfold job_ok. cbn. lia.
  - intros x id' l [= <-]. cbn. intros [= <- <-]. split; [done|].
    eexists. rewrite lookup_insert_eq. split; [reflexivity|]. split; [by left|done].
Qed.

(** What a cancellation does to the job it finds. *)
Definition cancelled (j : VerificationJob) : VerificationJob :=
  if bool_decide (vj_state j ∈ [QUEUED; RUNNING]) then j <| vj_state := CANCELED |> else j.

Lemma cancel_jobs id tenant s :
  jobs (cancel_job id tenant s).1 = jobs s \/ jobs (cancel_job id tenant s).1 = alter cancelled id (jobs s).
Proof.
  unfold cancel_job. destruct (jobs s !! id) as [j|] eqn:Ej; [|by left].
  case_match; [by left|right]. apply map_eq. intros k. cbn. rewrite !lookup_alter.
  by case_decide; [subst; rewrite Ej|].
Qed.

Lemma cancelled_ok j :
  (job_ok j -> job_ok (cancelled j)) /\ forall x, working_on x j -> working_on x (cancelled j).
Proof.
  unfold cancelled. case_bool_decide as Hs; [|done]. unfold job_ok, working_on. cbn. split.
  - intros (? & ? & Hst). split_and!; [lia|lia|done|].
    apply elem_of_cons in Hs as [E|E%list_elem_of_singleton]; by rewrite E in Hst.
  - intros x [? ?]. split; [by right|]. by destruct x.
Qed.

Lemma world_step_accounted w w' : accounted w -> world_step w w' -> accounted w'.
Proof.
  intros Hw [i c key corr new t Hn Hf|i p lookup new t Hx|i r key corr new t Hn Hf Hfr
    |i id lock page j Hx Hj|i id lock corr c rest new t Hx Hf|i id lock corr p rest lookup new t Hx
    |i id lock corr Hx|id tenant].
  - pose proof (begin_tables c key corr new t (w_service w)) as (_ & Hj & _).
    destruct (resolve_begin _ _ _ _ _ _) as [s' b]. apply settle_same_jobs; [done|done|].
    intros x id l. by destruct b; intros [= <-].
  - apply settle_same_jobs; [done|apply finish_jobs|done].
  - by apply create_accounted.
  - destruct page as [cs| |e].
    + eapply settle_own_job; [done|done|done|reflexivity|]. intros j' (Hp & Hl & Hst) [Hrun Ht]. cbn in Ht.
      assert (vj_processed j' = 0) by lia. split.
      * unfold job_ok. cbn. split_and!; [lia|lia|done|]. destruct Hrun as [E|E]; by rewrite E in *.
      * intros y [= <-]. split; [done|]. split; [exact Hrun|]. cbn. lia.
    + eapply settle_own_job; [done|done|done|reflexivity|]. intros j' (Hp & Hl & Hst) [Hrun Ht]. cbn in Ht.
      split; [|done]. unfold job_ok. cbn. rewrite length_app. cbn.
      assert (vj_warnings j' = 0) by (destruct Hrun as [E|E]; by rewrite E in *).
      split_and!; lia.
    + by apply settle_same_jobs.
  - unfold job_begin. pose proof (begin_tables c (verification_key id c) corr new t (w_service w)) as (_ & Hj & _).
    destruct (resolve_begin _ _ _ _ _ _) as [s' [r|p]].
    + eapply goes_on_accounted; [done|done|done|done|]. intros j' [_ Ht]. cbn in Ht. lia.
    + apply settle_same_jobs; [done|done|]. intros x id' l [= <-]. cbn. intros [= <- <-].
      destruct (ac_calls _ Hw _ _ _ _ Hx eq_refl) as (j & Ej & [Hrun Ht]).
      split; [by eapply (ac_one _ Hw _ _ _ _ Hx)|]. exists j. split; [done|]. split; [done|]. cbn in *. lia.
  - cbn zeta. eapply goes_on_accounted; [done|done|done|apply finish_jobs|]. by intros j' [_ Ht].
  - eapply settle_own_job; [done|done|done|reflexivity|]. intros j' (Hp & Hl & Hst) [Hrun Ht]. cbn in Ht.
    split; [|done]. unfold job_ok. cbn.
    assert (vj_warnings j' = 0) by (destruct Hrun as [E|E]; by rewrite E in *). split_and!; lia.
  - destruct Hw as [H1 H2 H3].
    destruct (cancel_jobs id tenant (w_service w)) as [Hc|Hc]; split; cbn; rewrite ?Hc; try done.
    + intros k j. rewrite lookup_alter. case_decide; [|by apply H1].
      intros (j0 & Ej & ->)%fmap_Some. by eapply cancelled_ok, H1.
    + intros i x k l Hx Hk. destruct (H2 i x k l Hx Hk) as (j & Ej & Hwork).
      rewrite lookup_alter. case_decide as Hd; [subst k|by exists j].
      exists (cancelled j). rewrite Ej. split; [done|]. by apply cancelled_ok.
Qed.

Lemma reachable_accounted w : reachable w -> accounted w.
Proof.
  assert (H0' : accounted initial) by (split; cbn; intros; rewrite lookup_empty in *; done).
  intros Hr. unfold SalesService.reachable in Hr. induction Hr; eauto using world_step_accounted.
Qed.

(** Verification jobs account for their work: in every reachable world a
    job has processed no more candidates than its page held, has one result for
    each, is completed only when all were processed, and warns, without any
    result from a candidate, exactly when Odoo did not answer. *)
Theorem jobs_account_for_results w id j :
  reachable w -> jobs (w_service w) !! id = Some j -> job_ok j.
Proof. intros Hw. by apply (ac_jobs _ (reachable_accounted _ Hw)). Qed.

(** ** Jobs without a call *)

(** Nobody works on job [id] any more, and it is neither completed nor failed. *)
Definition abandoned (id : string) (n : Z) (w : world) : Prop :=
  (exists j, jobs (w_service w) !! id = Some j
     /\ (vj_state j = RUNNING \/ vj_state j = CANCELED) /\ vj_processed j = n)
  /\ forall i x l, w_calls w !! i = Some x -> job_of x <> Some (id, l).

Lemma settle_abandoned id n w i s' o :
  abandoned id n w -> jobs s' !! id = jobs (w_service w) !! id ->
  (forall x l, o = Some x -> job_of x <> Some (id, l)) ->
  abandoned id n (settle i (s', o) (w_calls w)).
Proof.
  intros [Hj Hc] Hs Ho. split; cbn [w_service settle fst]; [by rewrite Hs|].
  intros k x l [[_ Hk]|[-> Hk]]%settle_calls; [by eapply Hc|by apply Ho].
Qed.

Lemma goes_on_other id id' lock corr rest r s :
  id <> id' -> jobs (job_goes_on id' lock corr rest r s).1 !! id = jobs s !! id.
Proof. intros Hne. destruct r as [e|[r b]]; [done|]. cbn. by rewrite lookup_alter_ne. Qed.

Lemma abandoned_goes_on id n w i x id' lock corr rest r s' :
  abandoned id n w -> w_calls w !! i = Some x -> job_of x = Some (id', lock) ->
  jobs s' = jobs (w_service w) ->
  abandoned id n (settle i (job_goes_on id' lock corr rest r s') (w_calls w)).
Proof.
  intros Hw Hx Hjob Hs. assert (Hne : id <> id') by (intros ->; by eapply Hw).
  pose proof (goes_on_other id id' lock corr rest r s' Hne) as Hg.
  pose proof (goes_on_tables id' lock corr rest r s') as Ht.
  destruct (job_goes_on _ _ _ _ _ _) as [s2 o]. destruct Ht as (_ & _ & Ho). cbn in Hg.
  apply settle_abandoned; [done|congruence|]. intros y l ->.
  destruct Ho as [|[= ->]]; [done|]. cbn. congruence.
Qed.

Lemma abandoned_job_step id n w w' : abandoned id n w -> world_step w w' -> abandoned id n w'.
Proof.
  intros Hw [i c key corr new t Hn Hf|i p lookup new t Hx|i r key corr new t Hn Hf Hfr
    |i id' lock page j Hx Hj|i id' lock corr c rest new t Hx Hf|i id' lock corr p rest lookup new t Hx
    |i id' lock corr Hx|id' tenant].
  - pose proof (begin_tables c key corr new t (w_service w)) as (_ & Hj & _).
    destruct (resolve_begin _ _ _ _ _ _) as [s' b].
    apply settle_abandoned; [done|exact (f_equal (lookup id) Hj)|].
    intros x l. by destruct b; intros [= <-].
  - apply settle_abandoned; [done|by rewrite finish_jobs|done].
  - cbn zeta. assert (Hne : "LVJ-" +:+ hex 32 new <> id).
    { intros <-. destruct Hw as [(j & Ej & _) _]. congruence. }
    unfold create_begin. destruct (idempotency (w_service w) !! create_scope r key) as [prior|].
    { repeat case_match; by apply settle_abandoned. }
    apply settle_abandoned; [done|cbn; by rewrite lookup_insert_ne|].
    intros x l [= <-] E. apply Hne. by injection E.
  - assert (Hne : id' <> id) by (intros ->; by eapply Hw).
    destruct page as [cs| |e]; apply settle_abandoned; try done; try (cbn; by rewrite lookup_alter_ne).
    intros x l [= <-]. cbn. congruence.
  - unfold job_begin. pose proof (begin_tables c (verification_key id' c) corr new t (w_service w)) as (_ & Hj & _).
    destruct (resolve_begin _ _ _ _ _ _) as [s' [r|p]]; [by eapply abandoned_goes_on|].
    apply settle_abandoned; [done|exact (f_equal (lookup id) Hj)|]. intros x l [= <-]. cbn. intros [= -> ->].
    by eapply Hw.
  - cbn zeta. eapply abandoned_goes_on; [done|done|done|apply finish_jobs].
  - assert (Hne : id' <> id) by (intros ->; by eapply Hw).
    apply settle_abandoned; [done|cbn; by rewrite lookup_alter_ne|done].
  - destruct Hw as [(j & Ej & Hst & Hp) Hc]. split; [|done]. cbn.
    destruct (cancel_jobs id' tenant (w_service w)) as [-> | ->]; [by exists j|].
    rewrite lookup_alter. case_decide; [subst id'|by exists j]. rewrite Ej. exists (cancelled j).
    split; [done|]. unfold cancelled. case_bool_decide; [|done]. cbn. auto.
Qed.

Lemma abandoned_job_run id n w w' : abandoned id n w -> rtc world_step w w' -> abandoned id n w'.
Proof. intros Hw Hr. induction Hr; eauto using abandoned_job_step. Qed.
End safety.

(** ** A run *)

(** ASCII text and numbers that are already in international format. *)
#[export] Instance ascii_text : TextLib := {
  nfkc s := s;
  py_lower := str_lower;
  casefold := str_lower;
  is_word c := match c with String a "" => is_alnum a | _ => false end;
  is_blank c := match c with String a "" => is_space a | _ => false end;
  url_hostname s := inr (Some (removeprefix "//" (removeprefix "https:" s)));
  idna s := Some s;
}.
#[export] Instance plain_phone : PhoneLib := {
  phone_number := string;
  phone_parse v _ := if starts_with "+" v then Some v else None;
  is_valid_number _ := true;
  phone_extension _ := None;
  format_e164 v := v;
}.

Definition demo_json (c : LeadCandidate) : string := request_id (source c) +:+ "|" +:+ name (company c).
Definition demo_request_json (r : VerificationJobRequest) : string := jr_tenant_id r.

Definition demo_lead (request company_name : string) : LeadCandidate :=
  mkCandidate CANDIDATE_SCHEMA "tenant-1" "campaign-1" None None "public_web"
    (mkSource "self_hosted_scraper" "scrape-1" request (utc 0))
    (mkCompany company_name None (Some "acme.example") None None None None None "DE" None []
       (mkAddress None None None None None None))
    (mkContact None None None None None None None None None None)
    [] (mkClaims false None None) [] [] None [] [] [].

Definition demo_request : VerificationJobRequest :=
  mkJobRequest "odoo" "tenant-1" (Some "campaign-1") (mkFilters ["UNVERIFIED"; "STALE"] None)
    true false false 50.

Definition demo_clear : OdooLookup :=
  mkLookup [] [] (Some (mkSnapshot "tenant-1" "campaign-1" true false false false false false false
    false false "GRANTED" true)).

Notation demo_step := (world_step demo_json demo_request_json default_policy).
Notation demo_reachable := (reachable demo_json demo_request_json default_policy).
Definition demo_key : string := "idempotency-key-0001".
Definition demo_job_id : string := "LVJ-" +:+ hex 32 7%N.
Definition demo_lock : scope := create_scope demo_request demo_key.

(** The worlds of a job over the page [cs], with the segments of its calls. *)
Definition demo_created : world :=
  let res := create_begin demo_request_json demo_request demo_key "corr-1" 7%N 0 (w_service initial) in
  settle 0 (res.1, match res.2 with inr id => Some (JobPage id demo_lock) | inl _ => None end)
    (w_calls initial).
Definition demo_paged (cs : list LeadCandidate) : world :=
  settle 0 (update_job demo_job_id (fun j => j <| vj_total := Z.of_nat (length cs) |>)
              (w_service demo_created), Some (JobLoop demo_job_id demo_lock "corr-1" cs))
    (w_calls demo_created).
Definition demo_next (c : LeadCandidate) (rest : list LeadCandidate) (w : world) : world :=
  settle 0 (job_begin demo_json demo_job_id demo_lock "corr-1" c rest 8%N 1 (w_service w)) (w_calls w).
Definition demo_looked_up (c : LeadCandidate) (rest : list LeadCandidate) (w : world) : world :=
  let p := mkPending c (verification_key demo_job_id c) "corr-1" ("LDC-" +:+ hex 32 8%N) in
  let res := resolve_finish demo_json default_policy p (Answered demo_clear) 9%N 2 (w_service w) in
  settle 0 (job_goes_on demo_job_id demo_lock "corr-1" rest res.2 res.1) (w_calls w).

Lemma demo_created_reachable : demo_reachable demo_created.
Proof. apply rtc_once, ws_create; [done| |done]. intros i x Hx. cbn in Hx. by rewrite lookup_empty in Hx. Qed.

Lemma demo_paged_reachable cs : demo_reachable (demo_paged cs).
Proof.
  eapply rtc_r; [apply demo_created_reachable|].
  refine (ws_page _ _ _ demo_created 0 demo_job_id demo_lock (Answered cs)
    (mkJob demo_job_id demo_request "corr-1" RUNNING 0 0 0 [] 0) _ _); vm_compute; reflexivity.
Qed.

(** A world whose only call is number 0. *)
Lemma free_single w l x :
  w_calls w = {[0%nat := x]} -> l ∉ locks_of x -> free l w.
Proof. intros E Hl i y Hy. rewrite E in Hy. apply lookup_singleton_Some in Hy as [<- <-]. done. Qed.

Definition lead1 : LeadCandidate := demo_lead "request-1" "Acme".
Definition lead2 : LeadCandidate := demo_lead "request-1" "Other".

Lemma demo_next_step cs c rest w :
  w_calls w = {[0%nat := JobLoop demo_job_id demo_lock "corr-1" (c :: rest)]} -> cs = c :: rest ->
  demo_step w (demo_next c rest w).
Proof.
  intros E ->. apply ws_next; [by rewrite E, lookup_singleton_eq|].
  eapply free_single; [exact E|]. cbn. intros H%list_elem_of_singleton. discriminate H.
Qed.

(** The job with one lead, waiting for Odoo; cancelled; answered; at its end. *)
Definition one_waiting : world := demo_next lead1 [] (demo_paged [lead1]).
Definition one_cancelled : world :=
  mkWorld (cancel_job demo_job_id "tenant-1" (w_service one_waiting)).1 (w_calls one_waiting).
Definition one_answered : world := demo_looked_up lead1 [] one_cancelled.
Definition one_ended : world :=
  settle 0 (update_job demo_job_id (fun j => j <| vj_state := COMPLETED |>) (w_service one_answered), None)
    (w_calls one_answered).

Lemma one_cancelled_reachable : demo_reachable one_cancelled.
Proof.
  eapply rtc_r; [|apply ws_cancel].
  eapply rtc_r; [apply demo_paged_reachable|]. by eapply demo_next_step.
Qed.

Lemma one_answer_step : demo_step one_cancelled one_answered.
Proof.
  refine (ws_job_lookup _ _ _ one_cancelled 0 demo_job_id demo_lock "corr-1"
    (mkPending lead1 (verification_key demo_job_id lead1) "corr-1" ("LDC-" +:+ hex 32 8%N)) []
    (Answered demo_clear) 9%N 2 _). vm_compute. reflexivity.
Qed.

Lemma one_answered_reachable : demo_reachable one_answered.
Proof. eapply rtc_r; [apply one_cancelled_reachable|apply one_answer_step]. Qed.

Definition job_state (id : string) (w : world) : option VerificationJobState :=
  vj_state <$> jobs (w_service w) !! id.

(** Cancelling a running job does not stop it: there is a run in which the
    tenant cancels a job and is told so, and the job goes on, stores the
    resolution of its lead and ends as completed. *)
Theorem cancelled_job_completes :
  exists w w' id, demo_reachable w /\ job_state id w = Some CANCELED
    /\ rtc demo_step w w' /\ job_state id w' = Some COMPLETED
    /\ map_size (resolutions (w_service w')) = S (map_size (resolutions (w_service w))).
Proof.
  exists one_cancelled, one_ended, demo_job_id. split; [apply one_cancelled_reachable|].
  split; [vm_compute; reflexivity|]. split; [|split; vm_compute; reflexivity].
  eapply rtc_l; [apply one_answer_step|apply rtc_once].
  refine (ws_job_end _ _ _ one_answered 0 demo_job_id demo_lock "corr-1" _). vm_compute. reflexivity.
Qed.

(** The job whose page has two different leads under one request id. *)
Definition two_stuck : world :=
  demo_next lead2 [] (demo_looked_up lead1 [lead2] (demo_next lead1 [lead2] (demo_paged [lead1; lead2]))).

Lemma two_stuck_reachable : demo_reachable two_stuck.
Proof.
  unfold two_stuck. eapply rtc_r; [|by eapply demo_next_step; [vm_compute; reflexivity|]].
  eapply rtc_r; [|refine (ws_job_lookup _ _ _ _ 0 demo_job_id demo_lock "corr-1"
      (mkPending lead1 (verification_key demo_job_id lead1) "corr-1" ("LDC-" +:+ hex 32 8%N)) [lead2]
      (Answered demo_clear) 9%N 2 _); vm_compute; reflexivity].
  eapply rtc_r; [apply demo_paged_reachable|]. by eapply demo_next_step.
Qed.

(** A job can be left running for ever: when its page has two different
    leads with the same request id, the second is refused as a conflict, the
    exception ends the job's call, and in every later world the job is still
    running, or cancelled, with one of its two leads processed. *)
Theorem job_left_running :
  exists w id, demo_reachable w /\ job_state id w = Some RUNNING
    /\ forall w', rtc demo_step w w' ->
         job_state id w' = Some RUNNING \/ job_state id w' = Some CANCELED.
Proof.
  exists two_stuck, demo_job_id. split; [apply two_stuck_reachable|].
  split; [vm_compute; reflexivity|]. intros w' Hr.
  assert (Ha : abandoned demo_job_id 1 two_stuck).
  { split.
    - assert (E1 : vj_state <$> jobs (w_service two_stuck) !! demo_job_id = Some RUNNING)
        by (vm_compute; reflexivity).
      assert (E2 : vj_processed <$> jobs (w_service two_stuck) !! demo_job_id = Some 1)
        by (vm_compute; reflexivity).
      destruct (jobs (w_service two_stuck) !! demo_job_id) as [j|]; [|discriminate E1].
      injection E1 as E1. injection E2 as E2. exists j. auto.
    - assert (En : w_calls two_stuck = ∅) by (vm_compute; reflexivity).
      rewrite En. intros i x l Hx. by rewrite lookup_empty in Hx. }
  apply (abandoned_job_run _ _ _ _ _ _ _ Ha) in Hr as [(j & Ej & Hst & _) _].
  unfold job_state. rewrite Ej. cbn. destruct Hst as [-> | ->]; auto.
Qed.

(** ** The theorems at work *)

Lemma resolution_replayed_forever_witness :
  exists r, (resolve_begin demo_json lead1 (verification_key demo_job_id lead1) "corr-2" 20%N 9
               (w_service one_answered)).2 = Done (inr (r, true)).
Proof.
  assert (Hh : ie_payload_hash <$> idempotency (w_service one_answered)
      !! resolve_scope lead1 (verification_key demo_job_id lead1)
    = Some (canonical_hash demo_json lead1)) by (vm_compute; reflexivity).
  destruct (fmap_Some_1 _ _ _ Hh) as (e & E & He).
  destruct (resolution_replayed_forever demo_json demo_request_json default_policy one_answered one_answered
    _ e lead1 (verification_key demo_job_id lead1) "corr-2" 20%N 9 one_answered_reachable E
    (rtc_refl _ _) eq_refl ltac:(vm_compute; split; discriminate)) as (r & _ & Hb).
  exists r. destruct (resolve_begin _ _ _ _ _ _ _) as [s' b]. destruct Hb as (_ & _ & ->).
  rewrite decide_True by exact (eq_sym He). reflexivity.
Defined.

Definition demo_company (tenant : string) : OdooCompany :=
  mkOdooCompany "CMP-1" tenant "Acme" None None "DE" (Some "https://www.acme.example") None None None.

Lemma matches_stay_in_tenant_witness :
  exists m, best_company lead1 [demo_company "tenant-2"; demo_company "tenant-1"] = inr m
    /\ 0 <= score m <= 100.
Proof.
  destruct (best_company lead1 [demo_company "tenant-2"; demo_company "tenant-1"]) as [e|m] eqn:E;
    [vm_compute in E; discriminate|].
  exists m. split; [reflexivity|].
  apply (matches_stay_in_tenant lead1 _ [] m no_match E eq_refl).
Defined.

Lemma outreach_only_when_clear_witness :
  exists s' r b, resolve_finish demo_json default_policy
      (mkPending lead1 demo_key "corr-1" "LDC-1") (Answered demo_clear) 9%N 2 (w_service initial)
    = (s', inr (r, b)) /\ (r_eligible_for_outreach r = true -> r_decision r = ACCEPTED).
Proof.
  destruct (resolve_finish demo_json default_policy (mkPending lead1 demo_key "corr-1" "LDC-1")
    (Answered demo_clear) 9%N 2 (w_service initial)) as [s' [e|[r b]]] eqn:E;
    [apply (f_equal snd) in E; vm_compute in E; discriminate|].
  exists s', r, b. split; [reflexivity|]. intros He.
  pose proof (outreach_only_when_clear default_policy demo_json _ _ _ _ _ _ _ _
    ltac:(split; reflexivity || discriminate) ltac:(discriminate) E) as [_ Hyes]. by apply Hyes.
Defined.

Lemma jobs_account_for_results_witness :
  exists j, jobs (w_service one_answered) !! demo_job_id = Some j /\ job_ok j.
Proof.
  assert (Hs : is_Some (jobs (w_service one_answered) !! demo_job_id)) by (vm_compute; eexists; reflexivity).
  destruct (jobs (w_service one_answered) !! demo_job_id) as [j|] eqn:E; [|by destruct Hs].
  exists j. split; [reflexivity|].
  apply (jobs_account_for_results demo_json demo_request_json default_policy one_answered demo_job_id j
    one_answered_reachable E).
Defined.
End SalesSafety.
