(* ===== verification/AiAuth.v ===== *)
(** * Authentication of workers

    [authenticate_worker] of [src/app/api/internal/ai_jobs.py] and the separate
    verifier of [src/app/qwen_auth_verifier.py]: network and certificate
    identity, the signed canonical request, and replay protection by nonces, in
    the table [ai_service_nonces] for the one and as files for the other.
    Certificates are parsed and checked against the authority by the
    cryptography library and addresses by [ipaddress]: they are the interfaces
    [X509] and [IpLib].  Clock readings are in microseconds. *)

From Stdlib Require Import Ascii.
From S2P Require Import Prelude PyText PyTime Sha256 Txn AiContracts AiTables AiJobs AiOrchestration AiApi PyUnicode.
Local Open Scope string_scope.
Local Open Scope Z_scope.

Module AiAuth.

(** ** Interfaces *)

Class IpLib := {
  ip : Type;
  (** [ip_address(s)]; [None] is [ValueError] *)
  ip_address : string -> option ip;
  (** [ip_network(s, strict)] as the test of membership *)
  ip_network : string -> bool -> option (ip -> bool);
  ip_eqb : ip -> ip -> bool;
}.

(** A parsed certificate; an extension that is absent is [None]. *)
Record certificate `{IpLib} := mkCertificate {
  public_der : string;
  issued_by_authority : bool;
  common_names : list string;
  serial_number : Z;
  not_valid_before : Z;
  not_valid_after : Z;
  san : option (list string * list ip);
  digital_signature : option bool;
  client_auth : option bool;
}.

(** Base64 decoding and DER parsing, [None] for any error they raise. *)
Class X509 `{IpLib} := {
  b64decode : string -> option string;
  load_der : string -> option certificate;
}.

(** ** Patterns and texts *)

Definition HEX_64 (s : string) : bool := fullmatch_class is_lower_hex 64 64 s.
Definition DECIMAL_TIMESTAMP (s : string) : bool := fullmatch_class is_digit 10 11 s.
Definition SAFE_NONCE (s : string) : bool :=
  fullmatch_class (fun c => is_alnum c || char_in c "._~-") 16 128 s.
Definition SAFE_CORRELATION (s : string) : bool :=
  fullmatch_class (fun c => is_alnum c || char_in c "._:-") 8 128 s.
Definition is_hex (c : ascii) : bool := is_lower_hex c || in_range c 65 70.
Definition is_ascii (s : string) : bool := str_forall (fun c => in_range c 0 127) s.

(** [int(s)] of a text of digits. *)
Fixpoint decimal_from (acc : Z) (s : string) : Z :=
  match s with
  | String c s' => decimal_from (10 * acc + Z.of_N (N_of_ascii c) - 48) s'
  | EmptyString => acc
  end.
Definition decimal (s : string) : Z := decimal_from 0 s.

Definition nl : ascii := Ascii.ascii_of_N 10.
Definition lines (l : list string) : string := join (String nl "") l.

(** [str.encode("ascii")] *)
Definition encode_ascii (s : string) : exn + string :=
  if is_ascii s then inr s else inl (ValueError "ascii").

Definition canonical_signing_string (method path service_id timestamp nonce body_digest : string) :
    exn + string :=
  encode_ascii (lines [method; path; service_id; timestamp; nonce; body_digest]).

Definition v2_fields (method path timestamp nonce body_digest request_id correlation_id worker_id
    tenant_id workspace_id : string) : list string :=
  app [method; path; timestamp; nonce; body_digest; request_id; correlation_id; worker_id]
    (if negb (bool_decide (tenant_id = "")) || negb (bool_decide (workspace_id = ""))
     then [tenant_id; workspace_id] else []).

Definition canonical_signing_string_v2 (method path timestamp nonce body_digest request_id
    correlation_id worker_id tenant_id workspace_id : string) : exn + string :=
  encode_ascii (lines (v2_fields method path timestamp nonce body_digest request_id correlation_id
                         worker_id tenant_id workspace_id)).

(** [hmac.compare_digest] of two texts wants ASCII. *)
Definition compare_digest (a b : string) : exn + bool :=
  if is_ascii a && is_ascii b then inr (bool_decide (a = b))
  else inl (TypeError "comparing strings with non-ASCII characters is not supported").

Definition denied : exn := HTTPException 401 "authentication denied".
Definition unavailable : exn := HTTPException 503 "worker authentication unavailable".
Definition verifier_unavailable : exn := HTTPException 503 "authentication verifier unavailable".

(** A secret file: its content when the path is absolute and names a file. *)
Definition read_secret (error : exn) (file : option string) : exn + string :=
  match file with
  | Some content =>
      let secret := strip content in
      if fullmatch_class is_hex 64 64 secret then inr secret else inl error
  | None => inl error
  end.

(** ** The worker's requests *)

Record auth_settings := mkAuthSettings {
  ai_worker_trusted_proxy_cidr : string;
  ai_worker_source_cidrs : string;
  as_service_id : string;
  as_hmac_key_id : string;
  as_worker_id : string;
  as_spiffe_id : string;
  as_certificate_ip : string;
  (** [int] of the serial, [UUID] of the two ids; [None] where they raise *)
  as_certificate_serial : option Z;
  as_tenant_id : option uuid;
  as_workspace_id : option uuid;
  (** whether the authority's file is there, and the secret's content *)
  as_authority : bool;
  as_secret : option string;
  ai_signature_ttl_seconds : Z;
}.

Record worker_request := mkRequest {
  q_client_host : string;
  q_method : string;
  q_path : string;
  q_body : string;
  q_service_id : string;
  q_hmac_key_id : string;
  q_timestamp : string;
  q_nonce : string;
  q_body_digest : string;
  q_signature : string;
  q_certificate : string;
  q_source_ip : string;
  q_correlation_id : string;
  q_request_id : string;
  q_worker_id : string;
  q_signature_version : string;
  q_tenant_id : uuid;
  q_workspace_id : uuid;
}.

Section worker.
Context {ips : IpLib} {certs : X509}.

(** The generator of [_source_allowed]: networks are parsed until one contains
    the address. *)
Fixpoint in_any_network (address : ip) (items : list string) : bool :=
  match items with
  | [] => false
  | item :: rest =>
      if bool_decide (strip item = "") then in_any_network address rest
      else match ip_network (strip item) false with
           | None => false
           | Some member => if member address then true else in_any_network address rest
           end
  end.

Definition _source_allowed (cfg : auth_settings) (host : string) : bool :=
  match ip_address host with
  | Some address => in_any_network address (split_comma (ai_worker_source_cidrs cfg))
  | None => false
  end.

Definition list_is {A} (eqb : A -> A -> bool) (l : list A) (x : A) : bool :=
  match l with [y] => eqb y x | _ => false end.

Definition str_eqb (a b : string) : bool := bool_decide (a = b).

(** The checks shared by the two certificate functions, on a parsed
    certificate. *)
Definition certificate_checks (c : certificate) (common_name uri : string) (serial : option Z)
    (address : option ip) (now : Z) : bool :=
  match serial, address, san c, digital_signature c, client_auth c with
  | Some n, Some a, Some (uris, addresses), Some true, Some true =>
      issued_by_authority c
      && list_is str_eqb (common_names c) common_name
      && (serial_number c =? n)
      && (not_valid_before c <=? now) && (now <=? not_valid_after c)
      && list_is str_eqb uris uri && list_is ip_eqb addresses a
  | _, _, _, _, _ => false
  end.

(** Every failure is turned into the same refusal. *)
Definition _certificate_identity (cfg : auth_settings) (encoded : string) (now : Z) : exn + unit :=
  match der ← b64decode encoded; load_der der with
  | Some c =>
      if as_authority cfg
         && certificate_checks c (as_service_id cfg) (as_spiffe_id cfg) (as_certificate_serial cfg)
              (ip_address (as_certificate_ip cfg)) now
      then inr tt else inl denied
  | None => inl denied
  end.

(** [authenticate_worker] up to the nonce; [now] and [now_cert] are the two
    readings of the clock.  [q_method] is the method in upper case, and the
    framework has checked the lengths of the headers. *)
Definition verify_request (cfg : auth_settings) (r : worker_request) (now_cert now : Z) :
    exn + WorkerPrincipal :=
  match ip_address (q_client_host r), ip_network (ai_worker_trusted_proxy_cidr cfg) true with
  | Some proxy, Some trusted_proxy =>
      if negb (trusted_proxy proxy) || negb (_source_allowed cfg (q_source_ip r))
      then inl (HTTPException 404 "not found")
      else
        match _certificate_identity cfg (q_certificate r) now_cert with
        | inl e => inl e
        | inr _ =>
            if negb (bool_decide (q_service_id r = as_service_id cfg))
               || negb (bool_decide (q_hmac_key_id r = as_hmac_key_id cfg)) then inl denied
            else if negb (bool_decide (q_worker_id r = as_worker_id cfg)) then inl denied
            else if negb (bool_decide (q_signature_version r = "v2")) then inl denied
            else if negb (DECIMAL_TIMESTAMP (q_timestamp r)) || negb (SAFE_NONCE (q_nonce r))
            then inl denied
            else if seconds (ai_signature_ttl_seconds cfg)
                    <? Z.abs (now - seconds (decimal (q_timestamp r))) then inl denied
            else
              match read_secret unavailable (as_secret cfg) with
              | inl e => inl e
              | inr secret =>
                  if negb (HEX_64 (q_body_digest r))
                     || negb (bool_decide (sha256_hex (q_body r) = q_body_digest r))
                  then inl denied
                  else
                    match canonical_signing_string_v2 (q_method r) (q_path r) (q_timestamp r)
                            (q_nonce r) (q_body_digest r) (q_request_id r) (q_correlation_id r)
                            (q_worker_id r) (uuid_str (q_tenant_id r))
                            (uuid_str (q_workspace_id r)) with
                    | inl e => inl e
                    | inr canonical =>
                        match compare_digest (hmac_hex (bytes_of secret) canonical)
                                (str_lower (q_signature r)) with
                        | inl e => inl e
                        | inr false => inl denied
                        | inr true =>
                            match as_tenant_id cfg, as_workspace_id cfg with
                            | Some tenant, Some workspace =>
                                if negb (q_tenant_id r =? tenant)%N
                                   || negb (q_workspace_id r =? workspace)%N
                                then inl (HTTPException 403 "worker tenant binding denied")
                                else inr (mkPrincipal (as_service_id cfg) (q_worker_id r)
                                       (q_tenant_id r) (q_workspace_id r) (q_correlation_id r))
                            | _, _ => inl (HTTPException 503 "worker authorization unavailable")
                            end
                        end
                    end
              end
        end
  | _, _ => inl (HTTPException 404 "not found")
  end.

(** ** Nonces *)

Record nonce_row := mkNonce {
  nr_received_at : Z;
  nr_expires_at : Z;
  nr_correlation_id : string;
}.
Notation nonces := (gmap (string * string) nonce_row).

Definition nonce_digest (service_id nonce : string) : string := sha256_hex (lines [service_id; nonce]).

(** [DELETE FROM ai_service_nonces WHERE expires_at <= now()] *)
Definition unexpired (t : Z) (m : nonces) : nonces := filter (fun kv => t < nr_expires_at kv.2) m.

(** [t_app] is the application's clock, [now] the database's. *)
Definition _claim_nonce (cfg : auth_settings) (service_id nonce correlation_id : string) (t_app : Z) :
    M nonces unit :=
  t ← now;
  execute (unexpired t) ;;
  let key := (service_id, nonce_digest service_id nonce) in
  prior ← query (fun m : nonces => m !! key);
  match prior with
  | Some _ => rollback ;; raise (HTTPException 409 "replay detected")
  | None =>
      execute (<[key := mkNonce t_app (t_app + seconds (ai_signature_ttl_seconds cfg)) correlation_id]>) ;;
      commit
  end.

Definition authenticate_worker (cfg : auth_settings) (r : worker_request) (now_cert now t_app : Z) :
    M nonces WorkerPrincipal :=
  match verify_request cfg r now_cert now with
  | inl e => raise e
  | inr principal =>
      _claim_nonce cfg (q_service_id r) (q_nonce r) (q_correlation_id r) t_app ;;
      mret principal
  end.

(** ** The separate verifier *)

Record IdentityConfig := mkIdentity {
  id_service_id : string;
  id_hmac_key_id : string;
  (** the secret's content, when its file is absolute, no link and private *)
  id_secret : option string;
  id_serial : Z;
  id_uri_san : string;
  id_ip_san : ip;
}.

Record VerifierConfig := mkVerifier {
  identities : list IdentityConfig;
  vc_authority : bool;
  vc_replay_directory : bool;
  trusted_proxy_network : ip -> bool;
  allowed_clock_skew_seconds : Z;
}.

Definition _load_secret (identity : IdentityConfig) : exn + string :=
  read_secret verifier_unavailable (id_secret identity).

Definition MAX_CERTIFICATE_DER_BASE64_BYTES : Z := 16384.

Definition _verified_certificate (encoded : string) (config : VerifierConfig)
    (identity : IdentityConfig) (now : Z) : exn + unit :=
  if bool_decide (encoded = "") || (MAX_CERTIFICATE_DER_BASE64_BYTES <? py_len encoded)
  then inl denied
  else
    match b64decode encoded with
    | None => inl denied
    | Some der =>
        if bool_decide (der = "") || (12288 <? byte_len der) then inl denied
        else
          match load_der der with
          | Some c =>
              if bool_decide (public_der c = der) && vc_authority config
                 && certificate_checks c (id_service_id identity) (id_uri_san identity)
                      (Some (id_serial identity)) (Some (id_ip_san identity)) now
              then inr tt else inl denied
          | None => inl denied
          end
    end.

(** The request of the verifier's one route. *)
Record verifier_request := mkVerifierRequest {
  x_request : worker_request;
  x_request_id : option string;
  x_worker_id : option string;
  x_legacy_certificate : option string;
}.

Definition find_identity (config : VerifierConfig) (service_id hmac_key_id : string) :
    option IdentityConfig :=
  List.find (fun item => bool_decide (id_service_id item = service_id)
                         && bool_decide (id_hmac_key_id item = hmac_key_id)) (identities config).

(** [value and SAFE_CORRELATION.fullmatch(value)] on an optional header. *)
Definition safe_header (value : option string) : option string :=
  v ← value; if SAFE_CORRELATION v then Some v else None.

Definition verifier_canonical (x : verifier_request) : exn + string :=
  let r := x_request x in
  if bool_decide (q_signature_version r = "v1") then
    canonical_signing_string (q_method r) (q_path r) (q_service_id r) (q_timestamp r) (q_nonce r)
      (q_body_digest r)
  else if bool_decide (q_signature_version r = "v2") then
    match safe_header (x_request_id x), safe_header (x_worker_id x) with
    | Some request_id, Some worker_id =>
        canonical_signing_string_v2 (q_method r) (q_path r) (q_timestamp r) (q_nonce r)
          (q_body_digest r) request_id (q_correlation_id r) worker_id "" ""
    | _, _ => inl denied
    end
  else inl denied.

(** [now] in whole seconds. *)
Definition verify_authentication (config : VerifierConfig) (x : verifier_request)
    (now_cert now : Z) : exn + unit :=
  let r := x_request x in
  match ip_address (q_client_host r) with
  | None => inl denied
  | Some peer =>
      if negb (trusted_proxy_network config peer) then inl denied
      else if negb (is_null (x_legacy_certificate x)) then inl denied
      else
        match find_identity config (q_service_id r) (q_hmac_key_id r) with
        | None => inl denied
        | Some identity =>
            match _verified_certificate (q_certificate r) config identity now_cert with
            | inl e => inl e
            | inr _ =>
                if negb (DECIMAL_TIMESTAMP (q_timestamp r)) then inl denied
                else if allowed_clock_skew_seconds config <? Z.abs (now - decimal (q_timestamp r))
                then inl denied
                else if negb (SAFE_NONCE (q_nonce r)) then inl denied
                else if negb (SAFE_CORRELATION (q_correlation_id r))
                then inl (HTTPException 400 "invalid correlation ID")
                else if negb (HEX_64 (q_body_digest r)) || negb (HEX_64 (q_signature r))
                then inl denied
                else if negb (bool_decide (sha256_hex (q_body r) = q_body_digest r)) then inl denied
                else
                  match verifier_canonical x with
                  | inl e => inl e
                  | inr canonical =>
                      match _load_secret identity with
                      | inl e => inl e
                      | inr secret =>
                          if bool_decide (hmac_hex (bytes_of secret) canonical = q_signature r)
                          then inr tt else inl denied
                      end
                  end
            end
        end
  end.

(** The markers in the replay directory. *)
Definition claim_marker (config : VerifierConfig) (service_id nonce : string) (markers : gset string) :
    gset string * (exn + unit) :=
  let digest := nonce_digest service_id nonce in
  if negb (vc_replay_directory config) then (markers, inl verifier_unavailable)
  else if bool_decide (digest ∈ markers)
  then (markers, inl (HTTPException 409 "replay detected"))
  else ({[digest]} ∪ markers, inr tt).

Definition verify_and_claim (config : VerifierConfig) (x : verifier_request) (now_cert now : Z)
    (markers : gset string) : gset string * (exn + unit) :=
  match verify_authentication config x now_cert now with
  | inl e => (markers, inl e)
  | inr _ => claim_marker config (q_service_id (x_request x)) (q_nonce (x_request x)) markers
  end.
End worker.

(** ** Scopes *)

Definition SERVER_SCOPES : list string :=
  ["ai.auth.verify/read-only"; "ai.worker.claim"; "ai.worker.heartbeat"; "ai.worker.chunks";
   "ai.worker.complete"; "ai.worker.fail"; "ai.worker.get"; "ai.worker.cancel";
   "ai.worker.dead-letters"; "ai.worker.dead-letters.retry"; "ai.worker.cancellation-check";
   "ai.worker.recover-expired"].

(** Every principal has all scopes. *)
Definition require_scope (scope : string) : exn + unit :=
  if str_in scope SERVER_SCOPES then inr tt else inl (HTTPException 403 "worker scope denied").
End AiAuth.
