(* ===== verification/AiAuthSafety.v ===== *)
(** * Authentication: what an accepted request proves

    The signed string determines every field that is signed; an accepted
    request comes from the enrolled worker; and when a captured request can, and
    cannot, be accepted a second time. *)

From Stdlib Require Import Ascii.
From S2P Require Import Prelude PyText PyTime Sha256 Txn AiContracts AiTables AiJobs AiOrchestration AiApi PyUnicode AiAuth.
Local Open Scope string_scope.
Local Open Scope Z_scope.

Module AiAuthSafety.
Import AiAuth.

(** ** The signed string *)

Definition one_line (s : string) : Prop := char_in nl s = false.


(** The lines a request signs. *)
Definition request_fields (r : worker_request) : list string :=
  v2_fields (q_method r) (q_path r) (q_timestamp r) (q_nonce r) (q_body_digest r) (q_request_id r)
    (q_correlation_id r) (q_worker_id r) (uuid_str (q_tenant_id r)) (uuid_str (q_workspace_id r)).

Definition canonical_of (r : worker_request) : exn + string :=
  canonical_signing_string_v2 (q_method r) (q_path r) (q_timestamp r) (q_nonce r)
    (q_body_digest r) (q_request_id r) (q_correlation_id r) (q_worker_id r)
    (uuid_str (q_tenant_id r)) (uuid_str (q_workspace_id r)).

(** The lines the separate verifier expects to be signed. *)
Definition verifier_fields (x : verifier_request) : list string :=
  let r := x_request x in
  if bool_decide (q_signature_version r = "v1")
  then [q_method r; q_path r; q_service_id r; q_timestamp r; q_nonce r; q_body_digest r]
  else v2_fields (q_method r) (q_path r) (q_timestamp r) (q_nonce r) (q_body_digest r)
         (coalesce (x_request_id x) "") (q_correlation_id r) (coalesce (x_worker_id x) "") "" "".

Lemma uuid_str_nonempty u : uuid_str u <> "".
Proof.
  unfold uuid_str. intros E. apply (f_equal String.length) in E. revert E.
  rewrite !string_length_app. cbn. lia.
Qed.

Lemma request_fields_ten r : length (request_fields r) = 10%nat.
Proof.
  unfold request_fields, v2_fields. rewrite (bool_decide_false _ (uuid_str_nonempty _)). reflexivity.
Qed.

Lemma canonical_lines r c : canonical_of r = inr c -> c = lines (request_fields r).
Proof. unfold canonical_of, canonical_signing_string_v2, encode_ascii. case_match; [|done].
  by intros [= <-]. Qed.

Lemma verifier_lines x c : verifier_canonical x = inr c -> c = lines (verifier_fields x).
Proof.
  unfold verifier_canonical, verifier_fields, canonical_signing_string, canonical_signing_string_v2,
    encode_ascii, safe_header. destruct (x_request_id x), (x_worker_id x); cbn; intros E;
    repeat case_match; simplify_eq; reflexivity.
Qed.

(** The signed string is unambiguous: when no field contains a line break,
    as HTTP guarantees for headers and paths, two worker requests with the same
    signed string agree on method, path, time, nonce, body, request,
    correlation, worker and tenant; and no request to the separate verifier, of
    either version, signs the same string. *)
Theorem signed_string_unambiguous r r' x c :
  Forall one_line (request_fields r) -> Forall one_line (request_fields r') ->
  Forall one_line (verifier_fields x) ->
  canonical_of r = inr c ->
  (canonical_of r' = inr c -> request_fields r = request_fields r')
  /\ verifier_canonical x <> inr c.
Proof.
  intros Hr Hr' Hx Ec%canonical_lines. assert (Hne : request_fields r <> []) by done. split.
  - intros Ec'%canonical_lines. apply (join_inj nl); try done. unfold lines in *. congruence.
  - intros Ex%verifier_lines. assert (E : request_fields r = verifier_fields x).
    { apply (join_inj nl); try done.
      - unfold verifier_fields. by case_match.
      - unfold lines in *. congruence. }
    apply (f_equal length) in E. rewrite request_fields_ten in E.
    unfold verifier_fields, v2_fields in E. case_match; discriminate.
Qed.

(** ** Accepted requests *)

Section accepted.
Context {ips : IpLib} {certs : X509}.

(** What the checks establish before the nonce is claimed. *)
Record verified (cfg : auth_settings) (r : worker_request) (now_cert now : Z) (p : WorkerPrincipal) :
    Prop := {
  vf_source : _source_allowed cfg (q_source_ip r) = true;
  vf_certificate : _certificate_identity cfg (q_certificate r) now_cert = inr tt;
  vf_principal : p = mkPrincipal (as_service_id cfg) (as_worker_id cfg) (q_tenant_id r)
                       (q_workspace_id r) (q_correlation_id r);
  vf_tenant : as_tenant_id cfg = Some (q_tenant_id r) /\ as_workspace_id cfg = Some (q_workspace_id r);
  vf_service : q_service_id r = as_service_id cfg;
  vf_nonce : SAFE_NONCE (q_nonce r) = true;
  vf_time : Z.abs (now - seconds (decimal (q_timestamp r))) <= seconds (ai_signature_ttl_seconds cfg);
  vf_body : q_body_digest r = sha256_hex (q_body r);
  vf_signature : exists secret c, read_secret unavailable (as_secret cfg) = inr secret
    /\ canonical_of r = inr c /\ str_lower (q_signature r) = hmac_hex (bytes_of secret) c;
}.

Lemma verify_request_spec cfg r now_cert now p :
  verify_request cfg r now_cert now = inr p -> verified cfg r now_cert now p.
Proof.
  unfold verify_request, compare_digest. fold (canonical_of r). intros E.
  repeat case_match; simplify_eq; bool_to_prop; subst.
  all: repeat match goal with H : unit |- _ => destruct H end.
  all: split; try done; try congruence.
  - repeat match goal with H : (_ =? _)%N = true |- _ => apply N.eqb_eq in H end. by subst.
  - by eexists _, _.
Qed.

(** A request as it arrives: the readings of the application's clock at the
    certificate, at the timestamp and at the nonce, and the start of the
    database transaction. *)
Record arrival := mkArrival {
  ar_request : worker_request;
  ar_cert : Z;
  ar_check : Z;
  ar_app : Z;
  ar_db : Z;
}.

Definition serve (cfg : auth_settings) (a : arrival) (m : gmap (string * string) nonce_row) :
    gmap (string * string) nonce_row * (exn + WorkerPrincipal) :=
  with_session (fun _ => ar_db a) (fun _ => 0%N)
    (authenticate_worker cfg (ar_request a) (ar_cert a) (ar_check a) (ar_app a)) m.

Definition nonce_key (r : worker_request) : string * string :=
  (q_service_id r, nonce_digest (q_service_id r) (q_nonce r)).
Definition fresh_row (cfg : auth_settings) (a : arrival) : nonce_row :=
  mkNonce (ar_app a) (ar_app a + seconds (ai_signature_ttl_seconds cfg))
    (q_correlation_id (ar_request a)).

Lemma serve_eq cfg a m :
  serve cfg a m =
  match verify_request cfg (ar_request a) (ar_cert a) (ar_check a) with
  | inl e => (m, inl e)
  | inr p =>
      match unexpired (ar_db a) m !! nonce_key (ar_request a) with
      | Some _ => (m, inl (HTTPException 409 "replay detected"))
      | None => (<[nonce_key (ar_request a) := fresh_row cfg a]> (unexpired (ar_db a) m), inr p)
      end
  end.
Proof.
  unfold serve, with_session, authenticate_worker.
  destruct (verify_request _ _ _ _) as [e|p]; [reflexivity|].
  unfold _claim_nonce, mbind, M_bind, now, execute, query, rollback, commit, raise, mret, M_ret. cbn.
  change (q_service_id (ar_request a), nonce_digest (q_service_id (ar_request a)) (q_nonce (ar_request a)))
    with (nonce_key (ar_request a)).
  destruct (unexpired (ar_db a) m !! nonce_key (ar_request a)); reflexivity.
Qed.

Lemma lookup_unexpired t m k row :
  unexpired t m !! k = Some row <-> m !! k = Some row /\ t < nr_expires_at row.
Proof. unfold unexpired. rewrite map_lookup_filter_Some. done. Qed.

(** A row stays until its time has come. *)
Lemma row_stays cfg a m k row :
  m !! k = Some row -> ar_db a < nr_expires_at row -> (serve cfg a m).1 !! k = Some row.
Proof.
  intros Hk Ht. assert (Hu : unexpired (ar_db a) m !! k = Some row) by by apply lookup_unexpired.
  rewrite serve_eq. destruct (verify_request _ _ _ _); [done|].
  destruct (unexpired (ar_db a) m !! nonce_key (ar_request a)) eqn:E; [done|].
  cbn. rewrite lookup_insert_ne; [done|]. congruence.
Qed.

Definition serve_all (cfg : auth_settings) (l : list arrival)
    (m : gmap (string * string) nonce_row) : gmap (string * string) nonce_row :=
  fold_left (fun m a => (serve cfg a m).1) l m.

Lemma row_stays_all cfg l m k row :
  m !! k = Some row -> Forall (fun a => ar_db a < nr_expires_at row) l ->
  serve_all cfg l m !! k = Some row.
Proof.
  revert m. induction l as [|a l IH]; intros m Hk Hl; [done|]. inversion_clear Hl as [|? ? Ha Hl'].
  apply IH; [by apply row_stays|done].
Qed.

(** A captured request cannot be replayed when its timestamp was not ahead
    of the server: if a request was accepted later, by more than the time a
    request may take from the check of its timestamp to its transaction, than
    it was signed, then whatever requests come in between, every later request
    with the same nonce and timestamp is refused. *)
Theorem replay_refused cfg a m m1 p between a2 delay :
  serve cfg a m = (m1, inr p) ->
  seconds (decimal (q_timestamp (ar_request a))) + delay < ar_app a ->
  q_nonce (ar_request a2) = q_nonce (ar_request a) ->
  q_timestamp (ar_request a2) = q_timestamp (ar_request a) ->
  Forall (fun b => ar_db b <= ar_db a2) between -> ar_db a2 <= ar_check a2 + delay ->
  exists e, serve cfg a2 (serve_all cfg between m1) = (serve_all cfg between m1, inl e).
Proof.
  intros E Hold Hn Ht Hb Hd. rewrite serve_eq in E.
  destruct (verify_request _ _ _ _) as [|p1] eqn:Ev; [done|].
  destruct (unexpired _ m !! _); [done|]. injection E as <- <-. apply verify_request_spec in Ev.
  rewrite serve_eq. destruct (verify_request cfg (ar_request a2) (ar_cert a2) (ar_check a2)) as [e|p2] eqn:Ev2;
    [by exists e|]. apply verify_request_spec in Ev2.
  assert (Hk : nonce_key (ar_request a2) = nonce_key (ar_request a)).
  { unfold nonce_key. by rewrite (vf_service _ _ _ _ _ Ev), (vf_service _ _ _ _ _ Ev2), Hn. }
  pose proof (vf_time _ _ _ _ _ Ev2) as Hw. rewrite Ht in Hw.
  set (row := fresh_row cfg a).
  assert (Hlive : ar_db a2 < nr_expires_at row) by (cbn; lia).
  assert (Hrow : serve_all cfg between
    (<[nonce_key (ar_request a) := row]> (unexpired (ar_db a) m)) !! nonce_key (ar_request a) = Some row).
  { apply row_stays_all; [apply lookup_insert_eq|]. eapply Forall_impl; [exact Hb|]. cbn in *. lia. }
  rewrite Hk, (proj2 (lookup_unexpired _ _ _ row)) by done. by eexists.
Qed.

(** A captured request whose timestamp is ahead of the server can be
    replayed: nonces are kept for the signature's lifetime from arrival, but the
    signature is good for that long from its timestamp.  Whenever the request
    verifies at two times at least a lifetime apart it is accepted at both. *)
Theorem future_dated_replay cfg r cert cert' t t' p p' m :
  verify_request cfg r cert t = inr p -> verify_request cfg r cert' t' = inr p' ->
  t + seconds (ai_signature_ttl_seconds cfg) <= t' ->
  m !! nonce_key r = None ->
  let first := serve cfg (mkArrival r cert t t t) m in
  let second := serve cfg (mkArrival r cert' t' t' t') first.1 in
  first.2 = inr p /\ second.2 = inr p' /\ t <= seconds (decimal (q_timestamp r)).
Proof.
  intros Ev Ev' Ht Hm. cbn zeta. rewrite !serve_eq. cbn [ar_request ar_cert ar_check ar_db].
  rewrite Ev, Ev'.
  assert (E1 : unexpired t m !! nonce_key r = None).
  { apply eq_None_not_Some. intros [row [E _]%lookup_unexpired]. congruence. }
  rewrite E1. cbn [fst snd].
  assert (E2 : unexpired t' (<[nonce_key r := fresh_row cfg (mkArrival r cert t t t)]> (unexpired t m))
    !! nonce_key r = None).
  { apply eq_None_not_Some. intros [row [E Hexp]%lookup_unexpired]. rewrite lookup_insert_eq in E. injection E as <-. cbn in Hexp. lia. }
  rewrite E2. split_and!; [done|done|].
  pose proof (vf_time _ _ _ _ _ (verify_request_spec _ _ _ _ _ Ev')). lia.
Qed.

(** C32. An accepted request is the enrolled worker's: it came from an allowed
    address with the enrolled certificate, for the enrolled tenant, within the
    lifetime of its timestamp, its body and its fields are the signed ones, and
    its nonce is on record until the lifetime has passed; a refused request
    changes nothing. *)
Theorem accepted_request_enrolled cfg a m m' res :
  serve cfg a m = (m', res) ->
  match res with
  | inr p => verified cfg (ar_request a) (ar_cert a) (ar_check a) p
             /\ m' !! nonce_key (ar_request a) = Some (fresh_row cfg a)
             /\ (forall row, m !! nonce_key (ar_request a) = Some row -> nr_expires_at row <= ar_db a)
  | inl _ => m' = m
  end.
Proof.
  rewrite serve_eq. destruct (verify_request _ _ _ _) as [e|p] eqn:Ev; [by intros [= <- <-]|].
  destruct (unexpired (ar_db a) m !! nonce_key (ar_request a)) eqn:E; intros [= <- <-]; [done|].
  split_and!; [by apply verify_request_spec|apply lookup_insert_eq|]. intros row Hrow.
  destruct (Z.le_gt_cases (nr_expires_at row) (ar_db a)) as [|Hlt]; [done|].
  by rewrite (proj2 (lookup_unexpired _ _ _ row)) in E.
Qed.

(** ** The separate verifier *)

Definition verify_all (config : VerifierConfig) (l : list (verifier_request * Z * Z))
    (markers : gset string) : gset string :=
  fold_left (fun ms x => (verify_and_claim config x.1.1 x.1.2 x.2 ms).1) l markers.

Lemma marker_stays config l markers d : d ∈ markers -> d ∈ verify_all config l markers.
Proof.
  revert markers. induction l as [|x l IH]; intros markers Hd; [done|]. apply IH.
  unfold verify_and_claim, claim_marker. repeat case_match; cbn; set_solver.
Qed.

(** The separate verifier never accepts a nonce twice: after it accepted a
    request, every later request of the service with the same nonce is refused,
    whatever its timestamp and however much later. *)
Theorem verifier_nonce_once config x t1 t2 markers l y u1 u2 :
  (verify_and_claim config x t1 t2 markers).2 = inr tt ->
  q_service_id (x_request y) = q_service_id (x_request x) ->
  q_nonce (x_request y) = q_nonce (x_request x) ->
  exists e, verify_and_claim config y u1 u2
      (verify_all config l (verify_and_claim config x t1 t2 markers).1)
    = (verify_all config l (verify_and_claim config x t1 t2 markers).1, inl e).
Proof.
  intros Hx Hs Hn. unfold verify_and_claim at 1.
  destruct (verify_authentication config y u1 u2) as [e|]; [by exists e|].
  unfold claim_marker. rewrite Hs, Hn.
  assert (Hin : nonce_digest (q_service_id (x_request x)) (q_nonce (x_request x))
    ∈ verify_all config l (verify_and_claim config x t1 t2 markers).1).
  { apply marker_stays. unfold verify_and_claim, claim_marker in *.
    repeat case_match; cbn in *; try discriminate. set_solver. }
  case_match; [by eexists|]. rewrite bool_decide_true by done. by eexists.
Qed.
End accepted.

(** ** A run *)

(** Addresses as texts, networks of one address, and one certificate. *)
#[export] Instance text_ips : IpLib := {
  ip := string;
  ip_address s := if bool_decide (s = "") then None else Some s;
  ip_network s _ := Some (fun a => bool_decide (a = s));
  ip_eqb a b := bool_decide (a = b);
}.
Definition demo_certificate : certificate :=
  mkCertificate text_ips "DER" true ["qwen"] 3008 0 (seconds 2000000000)
    (Some (["spiffe://worker"], ["10.0.0.4"])) (Some true) (Some true).
#[export] Instance one_certificate : X509 := {
  b64decode s := Some s;
  load_der _ := Some demo_certificate;
}.

Definition demo_secret : string := sha256_hex "secret".
Definition demo_cfg : auth_settings :=
  mkAuthSettings "10.0.0.1" "10.0.0.4" "qwen" "key-1" "worker-1" "spiffe://worker" "10.0.0.4"
    (Some 3008) (Some 1%N) (Some 2%N) true (Some demo_secret) 300.

Definition demo_unsigned : worker_request :=
  mkRequest "10.0.0.1" "POST" "/worker/jobs/claim" "{}" "qwen" "key-1" "1700000000"
    "nonce-0123456789" (sha256_hex "{}") "" "DER" "10.0.0.4" "correlation-1" "request-1" "worker-1" "v2" 1%N 2%N.
Definition demo_request : worker_request :=
  mkRequest "10.0.0.1" "POST" "/worker/jobs/claim" "{}" "qwen" "key-1" "1700000000"
    "nonce-0123456789" (sha256_hex "{}")
    (hmac_hex (bytes_of demo_secret) (lines (request_fields demo_unsigned)))
    "DER" "10.0.0.4" "correlation-1" "request-1" "worker-1" "v2" 1%N 2%N.
Definition demo_principal : WorkerPrincipal := mkPrincipal "qwen" "worker-1" 1%N 2%N "correlation-1".

(** The request arrives at the given second. *)
Definition demo_arrival (t : Z) : arrival :=
  mkArrival demo_request (seconds t) (seconds t) (seconds t) (seconds t).

Lemma demo_verified t :
  Z.abs (seconds t - seconds 1700000000) <= seconds 300 -> 0 <= seconds t <= seconds 2000000000 ->
  verify_request demo_cfg demo_request (seconds t) (seconds t) = inr demo_principal.
Proof.
  intros Ht Hc. unfold verify_request.
  assert (Hcert : _certificate_identity demo_cfg (q_certificate demo_request) (seconds t) = inr tt).
  { unfold _certificate_identity. cbn [q_certificate demo_request b64decode one_certificate load_der mbind option_bind].
    unfold certificate_checks. cbn -[seconds Z.leb].
    rewrite (proj2 (Z.leb_le 0 (seconds t))), (proj2 (Z.leb_le (seconds t) (seconds 2000000000))) by lia.
    vm_compute. reflexivity. }
  rewrite Hcert.
  assert (Hd : decimal (q_timestamp demo_request) = 1700000000) by reflexivity. rewrite Hd.
  change (ai_signature_ttl_seconds demo_cfg) with 300.
  rewrite (proj2 (Z.ltb_ge (seconds 300) (Z.abs (seconds t - seconds 1700000000)))) by lia.
  vm_compute. reflexivity.
Qed.

(** Accepted on an empty table at a time in the window. *)
Lemma demo_served t :
  Z.abs (seconds t - seconds 1700000000) <= seconds 300 -> 0 <= seconds t <= seconds 2000000000 ->
  exists m1, serve demo_cfg (demo_arrival t) ∅ = (m1, inr demo_principal).
Proof.
  intros Ht Hc. rewrite serve_eq. cbn [ar_request ar_cert ar_check demo_arrival].
  rewrite (demo_verified t Ht Hc).
  destruct (unexpired _ ∅ !! _) as [row|] eqn:E; [|by eexists].
  apply lookup_unexpired in E as [E _]. by rewrite lookup_empty in E.
Qed.

Lemma replay_refused_witness :
  exists m1, serve demo_cfg (demo_arrival 1700000010) ∅ = (m1, inr demo_principal)
    /\ exists e, serve demo_cfg (demo_arrival 1700000020) (serve_all demo_cfg [] m1)
                = (serve_all demo_cfg [] m1, inl e).
Proof.
  destruct (demo_served 1700000010 ltac:(vm_compute; discriminate) ltac:(vm_compute; split; discriminate))
    as [m1 E]. exists m1. split; [exact E|].
  apply (replay_refused demo_cfg (demo_arrival 1700000010) ∅ m1 demo_principal []
    (demo_arrival 1700000020) (seconds 1) E).
  - vm_compute. reflexivity.
  - reflexivity.
  - reflexivity.
  - constructor.
  - vm_compute. discriminate.
Defined.

Lemma future_dated_replay_witness :
  (serve demo_cfg (demo_arrival 1700000200)
     (serve demo_cfg (demo_arrival 1699999900) ∅).1).2 = inr demo_principal.
Proof.
  apply (future_dated_replay demo_cfg demo_request (seconds 1699999900) (seconds 1700000200)
    (seconds 1699999900) (seconds 1700000200) demo_principal demo_principal ∅).
  - apply demo_verified; vm_compute; [discriminate|split; discriminate].
  - apply demo_verified; vm_compute; [discriminate|split; discriminate].
  - vm_compute. discriminate.
  - apply lookup_empty.
Defined.

Lemma accepted_request_enrolled_witness :
  verified demo_cfg demo_request (seconds 1700000010) (seconds 1700000010) demo_principal.
Proof.
  destruct (demo_served 1700000010 ltac:(vm_compute; discriminate) ltac:(vm_compute; split; discriminate))
    as [m1 E].
  apply (accepted_request_enrolled demo_cfg (demo_arrival 1700000010) ∅ m1 (inr demo_principal) E).
Defined.

Definition demo_verifier : VerifierConfig :=
  mkVerifier [mkIdentity "qwen" "key-1" (Some demo_secret) 3008 "spiffe://worker" "10.0.0.4"]
    true true (fun a => bool_decide (a = "10.0.0.1")) 300.

(** The same request, with a signature of the first version. *)
Definition demo_v1 : verifier_request :=
  mkVerifierRequest
    (mkRequest "10.0.0.1" "POST" "/verify" "{}" "qwen" "key-1" "1700000000" "nonce-0123456789"
       (sha256_hex "{}")
       (hmac_hex (bytes_of demo_secret)
          (lines ["POST"; "/verify"; "qwen"; "1700000000"; "nonce-0123456789"; sha256_hex "{}"]))
       "DER" "10.0.0.4" "correlation-1" "request-1" "worker-1" "v1" 1%N 2%N)
    None None None.

Lemma verifier_nonce_once_witness :
  exists e, (verify_and_claim demo_verifier demo_v1 0 1700000200
    (verify_and_claim demo_verifier demo_v1 0 1700000000 ∅).1).2 = inl e.
Proof.
  assert (H1 : (verify_and_claim demo_verifier demo_v1 0 1700000000 ∅).2 = inr tt)
    by (vm_compute; reflexivity).
  pose proof (verifier_nonce_once demo_verifier demo_v1 0 1700000000 ∅ [] demo_v1 0 1700000200
    H1 eq_refl eq_refl) as H2.
  change (verify_all demo_verifier [] ?m) with m in H2.
  destruct H2 as [e E]. exists e. rewrite E. reflexivity.
Defined.

Lemma signed_string_unambiguous_witness :
  exists c, canonical_of demo_request = inr c /\ verifier_canonical demo_v1 <> inr c.
Proof.
  destruct (canonical_of demo_request) as [e|c] eqn:E; [vm_compute in E; discriminate|].
  exists c. split; [reflexivity|].
  apply (signed_string_unambiguous demo_request demo_request demo_v1 c); [..|exact E].
  all: apply List.Forall_forall; unfold one_line; vm_compute; intros x Hx;
    repeat (destruct Hx as [<-|Hx]; [reflexivity|]); destruct Hx.
Defined.
End AiAuthSafety.
