(* ===== verification/LeadCallbackAuth.v ===== *)
(** * Signed callbacks of the lead automation ([src/app/core/lead_callback_auth.py])

    The workflow engine calls back with a request signed under HMAC-V2: the
    client builds its headers with [sign_callback], the service checks them
    with [verify_callback] and keeps the nonces it accepted.  Texts are their
    UTF-8 bytes; instants are in microseconds.  [datetime.fromisoformat] is an
    argument. *)

From Stdlib Require Import Ascii.
From S2P Require Import Prelude PyText PyTime Sha256 Txn PyUnicode AiAuth.
Import AiAuth.
Local Open Scope string_scope.
Local Open Scope Z_scope.

Module LeadCallbackAuth.

Definition IDENTITY : string := "codestra-n8n-lead-automation".
Definition AUDIENCE : string := "codestra-middleware-lead-automation".
Definition SIGNATURE_VERSION : string := "HMAC-V2".
Definition CALLBACK_SCOPE : string := "lead-automation.results.write".
Definition CALLBACK_METHOD : string := "POST".
Definition CALLBACK_PATH : string := "/api/v1/lead-automation/results".

(** [CallbackAuthenticationError] is a [PermissionError]. *)
Definition CallbackAuthenticationError (msg : string) : exn := PermissionError msg.

(** [str.upper] of an ASCII text. *)
Definition upper_char (c : ascii) : ascii :=
  if is_lower c then ascii_of_N (N_of_ascii c - 32) else c.
Fixpoint str_upper (s : string) : string :=
  match s with
  | EmptyString => EmptyString
  | String c s' => String (upper_char c) (str_upper s')
  end.

Definition cr : ascii := ascii_of_N 13.

(** [not value or "\n" in value or "\r" in value], denied *)
Definition plain_value (v : string) : bool :=
  negb (bool_decide (v = "")) && negb (char_in nl v) && negb (char_in cr v).

(** The fields in the order in which they are signed. *)
Record material := mkMaterial {
  signature_version : string;
  method : string;
  path : string;
  timestamp : string;
  nonce : string;
  service_identity : string;
  service_audience : string;
  environment : string;
  scope : string;
  idempotency_key : string;
  body_sha256 : string;
}.
Definition values (m : material) : list string :=
  [signature_version m; method m; path m; timestamp m; nonce m; service_identity m;
   service_audience m; environment m; scope m; idempotency_key m; body_sha256 m].

Definition canonical_callback_material (m : material) : exn + string :=
  check (forallb plain_value (values m))
    (CallbackAuthenticationError "invalid callback signing material") ;;
  check (is_ascii (method m) && bool_decide (method m = str_upper (method m)))
    (CallbackAuthenticationError "invalid callback method") ;;
  check (is_ascii (path m) && negb (char_in "?" (path m)) && negb (char_in "#" (path m))
         && negb (char_in "%" (path m)))
    (CallbackAuthenticationError "invalid callback path") ;;
  check (HEX_64 (body_sha256 m))
    (CallbackAuthenticationError "invalid callback body hash format") ;;
  check (bool_decide (signature_version m = SIGNATURE_VERSION))
    (CallbackAuthenticationError "unsupported callback signature version") ;;
  encode_ascii (lines (values m)).

Definition headers := list (string * string).

(** [headers.get(name)]; an empty value is falsy like a missing one *)
Definition header (h : headers) (name : string) : string := coalesce (dict_get h name) "".

Definition sign_callback (body : string) (secret : list N)
    (timestamp nonce idempotency_key environment method path : string) : exn + headers :=
  let body_hash := sha256_hex body in
  material ← canonical_callback_material
    (mkMaterial SIGNATURE_VERSION method path timestamp nonce IDENTITY AUDIENCE environment
       CALLBACK_SCOPE idempotency_key body_hash);
  mret [("X-Codestra-Signature-Version", SIGNATURE_VERSION);
        ("X-Service-Identity", IDENTITY);
        ("X-Service-Audience", AUDIENCE);
        ("X-Codestra-Timestamp", timestamp);
        ("X-Codestra-Nonce", nonce);
        ("X-Codestra-Content-SHA256", body_hash);
        ("X-Codestra-Signature", hmac_hex secret material);
        ("Idempotency-Key", idempotency_key);
        ("X-Codestra-Environment", environment);
        ("X-Codestra-Scope", CALLBACK_SCOPE)].

Definition required : list string :=
  ["X-Codestra-Signature-Version"; "X-Service-Identity"; "X-Service-Audience";
   "X-Codestra-Timestamp"; "X-Codestra-Nonce"; "X-Codestra-Content-SHA256";
   "X-Codestra-Signature"; "Idempotency-Key"; "X-Codestra-Environment"; "X-Codestra-Scope"].

Definition nonce_key := (string * string * string * string)%type.

Record callback := mkCallback {
  cb_method : string;
  cb_path : string;
  cb_query_string : string;
  cb_body : string;
  cb_headers : headers;
}.

(** [occurred.astimezone(UTC)] raises outside the years 1 to 9999. *)
Definition utc_representable (t : datetime) : bool :=
  (seconds (-62135596800) <=? instant t) && (instant t <? seconds 253402300800).

Definition nonce_of (c : callback) (env : string) : nonce_key :=
  (env, CALLBACK_SCOPE, cb_path c, header (cb_headers c) "X-Codestra-Nonce").

(** The material as the verifier reads it from the request. *)
Definition received_material (c : callback) : material :=
  let h := header (cb_headers c) in
  mkMaterial (h "X-Codestra-Signature-Version") (cb_method c) (cb_path c)
    (h "X-Codestra-Timestamp") (h "X-Codestra-Nonce") (h "X-Service-Identity")
    (h "X-Service-Audience") (h "X-Codestra-Environment") (h "X-Codestra-Scope")
    (h "Idempotency-Key") (sha256_hex (cb_body c)).

Definition check_signature (c : callback) (secret : list N) : exn + unit :=
  m ← canonical_callback_material (received_material c);
  valid ← compare_digest (hmac_hex secret m) (header (cb_headers c) "X-Codestra-Signature");
  check valid (CallbackAuthenticationError "invalid callback signature").

Section verify.
(** [datetime.fromisoformat], [None] where it raises [ValueError]. *)
Context (fromisoformat : string -> option datetime).

(** The tests before the nonce, in the order of the code. *)
Definition check_callback (c : callback) (env : string) (now : Z) : exn + unit :=
  let h := header (cb_headers c) in
  check (forallb (fun name => negb (bool_decide (h name = ""))) required)
    (CallbackAuthenticationError "missing callback signature") ;;
  check (bool_decide (cb_method c = CALLBACK_METHOD))
    (CallbackAuthenticationError "callback method mismatch") ;;
  check (bool_decide (cb_path c = CALLBACK_PATH))
    (CallbackAuthenticationError "callback path mismatch") ;;
  check (bool_decide (cb_query_string c = ""))
    (CallbackAuthenticationError "callback query string is prohibited") ;;
  check (bool_decide (h "X-Codestra-Signature-Version" = SIGNATURE_VERSION))
    (CallbackAuthenticationError "unsupported callback signature version") ;;
  check (bool_decide (h "X-Service-Identity" = IDENTITY)
         && bool_decide (h "X-Service-Audience" = AUDIENCE))
    (CallbackAuthenticationError "callback identity binding mismatch") ;;
  check (bool_decide (h "X-Codestra-Environment" = env))
    (CallbackAuthenticationError "callback environment mismatch") ;;
  check (bool_decide (h "X-Codestra-Scope" = CALLBACK_SCOPE))
    (CallbackAuthenticationError "callback scope mismatch") ;;
  check (HEX_64 (h "X-Codestra-Content-SHA256"))
    (CallbackAuthenticationError "invalid callback body hash format") ;;
  same ← compare_digest (sha256_hex (cb_body c)) (h "X-Codestra-Content-SHA256");
  check same (CallbackAuthenticationError "callback body hash mismatch") ;;
  match fromisoformat (h "X-Codestra-Timestamp") with
  | None => inl (CallbackAuthenticationError "invalid callback timestamp")
  | Some occurred =>
      check (aware occurred) (CallbackAuthenticationError "expired callback timestamp") ;;
      check (utc_representable occurred) (OverflowError "date value out of range") ;;
      check (Z.abs (now - instant occurred) <=? seconds 300)
        (CallbackAuthenticationError "expired callback timestamp")
  end.

(** [used_nonces] is the set the caller passes in, mutated when the callback is
    accepted. *)
Definition verify_callback (c : callback) (secret : list N) (env : string) (now : Z)
    (used_nonces : gset nonce_key) : gset nonce_key * (exn + unit) :=
  let outcome :=
    check_callback c env now ;;
    check (bool_decide (nonce_of c env ∉ used_nonces))
      (CallbackAuthenticationError "reused callback nonce") ;;
    check_signature c secret in
  (match outcome with inr _ => {[nonce_of c env]} ∪ used_nonces | inl _ => used_nonces end,
   outcome).

End verify.

(** ** Which callbacks are accepted *)

Lemma hex_ascii s n : hex_text n s -> is_ascii s = true.
Proof.
  intros [_ Hs]. eapply str_forall_impl, Hs. intros c. unfold is_lower_hex, is_digit, in_range.
  rewrite !orb_true_iff, !andb_true_iff, !N.leb_le. lia.
Qed.

Lemma hex_64_text s : HEX_64 s = true <-> hex_text 64 s.
Proof.
  unfold HEX_64, fullmatch_class, hex_text. rewrite !andb_true_iff, !Nat.leb_le.
  split; [intros [[] ?]; split; [lia|done]|intros [-> ?]; done].
Qed.

Lemma compare_digest_hex a b : hex_text 64 a -> compare_digest a b = inr true <-> a = b.
Proof.
  intros Ha. unfold compare_digest. rewrite (hex_ascii _ _ Ha). cbn.
  split; [by case_match; [|done]; intros [= ?%bool_decide_eq_true]|intros <-].
  by rewrite (hex_ascii _ _ Ha), bool_decide_true.
Qed.

Lemma forallb_iff {A} (f : A -> bool) (P : A -> Prop) l :
  (forall x, f x = true <-> P x) -> forallb f l = true <-> Forall P l.
Proof.
  intros Hf. induction l as [|x l IH]; cbn; [by split|]. by rewrite andb_true_iff, Forall_cons, Hf, IH.
Qed.

Lemma check_signature_ok c secret :
  check_signature c secret = inr tt <->
  exists m, canonical_callback_material (received_material c) = inr m
    /\ header (cb_headers c) "X-Codestra-Signature" = hmac_hex secret m.
Proof.
  unfold check_signature. rewrite exn_bind_ok. f_equiv. intros m. apply Morphisms_Prop.and_iff_morphism; [done|].
  rewrite exn_bind_ok. transitivity (compare_digest (hmac_hex secret m)
    (header (cb_headers c) "X-Codestra-Signature") = inr true).
  - split; [|by eauto]. by intros ([] & ? & ?).
  - rewrite compare_digest_hex by apply hmac_hex_format. naive_solver.
Qed.

Lemma canonical_nonempty m b :
  canonical_callback_material m = inr b -> Forall (fun v => v <> "") (values m).
Proof.
  unfold canonical_callback_material. rewrite check_bind_ok. intros [Hv _].
  rewrite (forallb_iff _ (fun v => plain_value v = true)) in Hv by done.
  eapply Forall_impl; [exact Hv|]. intros v. unfold plain_value.
  rewrite !andb_true_iff, !negb_true_iff, bool_decide_eq_false. by intros [[? _] _].
Qed.

(** The values of the required headers, in their order. *)
Definition header_values (h : headers) : list string := header h <$> required.

Lemma sign_callback_ok body secret ts non key env meth pth hs :
  sign_callback body secret ts non key env meth pth = inr hs ->
  exists m, canonical_callback_material
      (mkMaterial SIGNATURE_VERSION meth pth ts non IDENTITY AUDIENCE env CALLBACK_SCOPE key
         (sha256_hex body)) = inr m
    /\ header_values hs = [SIGNATURE_VERSION; IDENTITY; AUDIENCE; ts; non; sha256_hex body;
                           hmac_hex secret m; key; env; CALLBACK_SCOPE].
Proof. unfold sign_callback. intros (m & Hm & E)%exn_bind_ok. exists m. split; [exact Hm|]. by injection E as <-. Qed.

Lemma sign_callback_defined body secret ts non key env meth pth m :
  canonical_callback_material
      (mkMaterial SIGNATURE_VERSION meth pth ts non IDENTITY AUDIENCE env CALLBACK_SCOPE key
         (sha256_hex body)) = inr m ->
  exists hs, sign_callback body secret ts non key env meth pth = inr hs.
Proof. intros Hm. unfold sign_callback. rewrite Hm. by eexists. Qed.

Section accepted.
Context (fromisoformat : string -> option datetime).
Notation check_callback := (check_callback fromisoformat).
Notation verify_callback := (verify_callback fromisoformat).

(** The timestamp is in the window of five minutes around [now]. *)
Definition in_window (ts : string) (now : Z) : Prop :=
  exists t, fromisoformat ts = Some t /\ aware t = true /\ utc_representable t = true
    /\ Z.abs (now - instant t) <= seconds 300.

Lemma check_callback_ok c env now :
  let h := header (cb_headers c) in
  check_callback c env now = inr tt <->
  Forall (fun name => h name <> "") required
  /\ cb_method c = CALLBACK_METHOD /\ cb_path c = CALLBACK_PATH /\ cb_query_string c = ""
  /\ h "X-Codestra-Signature-Version" = SIGNATURE_VERSION
  /\ h "X-Service-Identity" = IDENTITY /\ h "X-Service-Audience" = AUDIENCE
  /\ h "X-Codestra-Environment" = env /\ h "X-Codestra-Scope" = CALLBACK_SCOPE
  /\ h "X-Codestra-Content-SHA256" = sha256_hex (cb_body c)
  /\ in_window (h "X-Codestra-Timestamp") now.
Proof.
  cbn zeta. unfold check_callback, in_window. set (h := header (cb_headers c)).
  assert (Hd : forall k : exn + unit, (same ← compare_digest (sha256_hex (cb_body c)) (h "X-Codestra-Content-SHA256");
    check same (CallbackAuthenticationError "callback body hash mismatch") ;; k) = inr tt
    <-> sha256_hex (cb_body c) = h "X-Codestra-Content-SHA256" /\ k = inr tt).
  { intros k. rewrite <- compare_digest_hex by apply sha256_hex_format.
    destruct (compare_digest _ _) as [?|[]]; cbn; naive_solver. }
  rewrite !check_bind_ok, Hd, !andb_true_iff, !bool_decide_eq_true, hex_64_text.
  rewrite (forallb_iff _ (fun name => h name <> ""))
    by (intros name; by rewrite negb_true_iff, bool_decide_eq_false).
  assert (Ht : forall ts, match fromisoformat ts with
    | None => inl (CallbackAuthenticationError "invalid callback timestamp")
    | Some occurred =>
      check (aware occurred) (CallbackAuthenticationError "expired callback timestamp") ;;
      check (utc_representable occurred) (OverflowError "date value out of range") ;;
      check (Z.abs (now - instant occurred) <=? seconds 300)
        (CallbackAuthenticationError "expired callback timestamp")
    end = inr tt <-> in_window ts now).
  { intros ts. unfold in_window. destruct (fromisoformat ts); [|naive_solver].
    rewrite !check_bind_ok, check_ok, Z.leb_le. naive_solver. }
  rewrite Ht. split; [naive_solver|]. intros (? & ? & ? & ? & ? & ? & ? & ? & ? & E & ?).
  rewrite E. split_and!; solve [done|apply sha256_hex_format].
Qed.

Lemma verify_callback_ok c secret env now used :
  (verify_callback c secret env now used).2 = inr tt <->
  check_callback c env now = inr tt /\ nonce_of c env ∉ used /\ check_signature c secret = inr tt.
Proof.
  split.
  - intros ([] & Hc & [Hn%bool_decide_eq_true Hs]%check_bind_ok)%exn_bind_ok. done.
  - intros (Hc & Hn & Hs). apply exn_bind_ok. exists tt. split; [done|].
    apply check_bind_ok. by rewrite bool_decide_eq_true.
Qed.


(** The callback [c] carries the headers [sign_callback] computes for it. *)
Definition signed_for (c : callback) (secret : list N) (env : string) : Prop :=
  exists hs,
    sign_callback (cb_body c) secret (header (cb_headers c) "X-Codestra-Timestamp")
      (header (cb_headers c) "X-Codestra-Nonce") (header (cb_headers c) "Idempotency-Key") env
      CALLBACK_METHOD CALLBACK_PATH = inr hs
    /\ header_values (cb_headers c) = header_values hs.

Lemma accepted_is_signed c secret env now used :
  (verify_callback c secret env now used).2 = inr tt ->
  cb_method c = CALLBACK_METHOD /\ cb_path c = CALLBACK_PATH /\ cb_query_string c = ""
  /\ in_window (header (cb_headers c) "X-Codestra-Timestamp") now
  /\ nonce_of c env ∉ used /\ signed_for c secret env.
Proof.
  rewrite verify_callback_ok, check_callback_ok, check_signature_ok. unfold received_material.
  intros ((Hne & Hm & Hp & Hq & Hv & Hi & Ha & He & Hs & Hb & Hw) & Hn & m & Hc & Hsig).
  rewrite Hm, Hp, Hv, Hi, Ha, He, Hs in Hc. split_and!; [done..|].
  destruct (sign_callback_defined _ secret _ _ _ _ _ _ _ Hc) as [hs Hhs]. exists hs. split; [done|].
  destruct (sign_callback_ok _ _ _ _ _ _ _ _ _ Hhs) as (m' & Hm' & ->). replace m' with m by congruence.
  unfold header_values, required. cbn [fmap list_fmap]. by rewrite Hv, Hi, Ha, Hb, Hsig, He, Hs.
Qed.

Lemma signed_is_accepted c secret env now used :
  cb_method c = CALLBACK_METHOD -> cb_path c = CALLBACK_PATH -> cb_query_string c = "" ->
  in_window (header (cb_headers c) "X-Codestra-Timestamp") now ->
  nonce_of c env ∉ used -> signed_for c secret env ->
  (verify_callback c secret env now used).2 = inr tt.
Proof.
  intros Hm Hp Hq Hw Hn (hs & (m & Hc & E)%sign_callback_ok & Hh).
  rewrite verify_callback_ok, check_callback_ok, check_signature_ok. unfold received_material.
  pose proof (canonical_nonempty _ _ Hc) as Hne. rewrite E in Hh.
  assert (Hall : Forall (fun v => v <> "") (header_values (cb_headers c))).
  { rewrite Hh. unfold values in Hne. cbn in Hne. rewrite !Forall_cons in *.
    assert (hmac_hex secret m <> "")
      by (pose proof (hmac_hex_format secret m) as [Hl _]; by destruct (hmac_hex secret m)).
    tauto. }
  unfold header_values in Hh, Hall. rewrite Forall_fmap in Hall. unfold required in Hh.
  cbn [fmap list_fmap] in Hh. injection Hh as Hv Hi Ha Hb Hsig He Hs.
  rewrite Hm, Hp, Hv, Hi, Ha, He, Hs. split_and!; try done. by exists m.
Qed.

(** C23. The verifier accepts exactly what the signer produces: a callback is
    accepted if and only if it is a POST to the results path without a query,
    its timestamp is an aware one within five minutes of now, its nonce was not
    used, and each required header is the one [sign_callback] computes for the
    same body, timestamp, nonce and idempotency key under the same secret and
    environment. *)
Theorem callback_accepted_iff c secret env now used :
  (verify_callback c secret env now used).2 = inr tt <->
  cb_method c = CALLBACK_METHOD /\ cb_path c = CALLBACK_PATH /\ cb_query_string c = ""
  /\ in_window (header (cb_headers c) "X-Codestra-Timestamp") now
  /\ nonce_of c env ∉ used /\ signed_for c secret env.
Proof.
  split; [apply accepted_is_signed|]. intros (? & ? & ? & ? & ? & ?). by apply signed_is_accepted.
Qed.

(** The verifier of one environment over a run of callbacks, each arriving at
    its own time. *)
Definition verify_all (secret : list N) (env : string) (l : list (callback * Z))
    (used : gset nonce_key) : gset nonce_key :=
  fold_left (fun used x => (verify_callback x.1 secret env x.2 used).1) l used.

Lemma used_nonce_stays secret env l used k : k ∈ used -> k ∈ verify_all secret env l used.
Proof.
  revert used. induction l as [|x l IH]; intros used Hk; [done|]. apply IH.
  cbn. destruct (check_callback _ _ _ ;; _); set_solver.
Qed.

Lemma used_nonce_refused c secret env now used :
  nonce_of c env ∈ used ->
  exists e, verify_callback c secret env now used = (used, inl e)
    /\ (check_callback c env now = inr tt ->
        e = CallbackAuthenticationError "reused callback nonce").
Proof.
  intros Hin. unfold LeadCallbackAuth.verify_callback. destruct (check_callback c env now) as [e|[]].
  - exists e. by split.
  - rewrite bool_decide_false by (intros Hn; by apply Hn). by eexists.
Qed.

(** C24. A signed callback is accepted, once: the headers [sign_callback]
    returns for the results path, delivered with the body they sign within five
    minutes of their timestamp and with a fresh nonce, are accepted; after any
    run of further callbacks the same delivery is refused as reused while its
    timestamp is still in the window, whatever the body and the key a callback
    with that nonce carries. *)
Theorem signed_callback_accepted_once body secret ts non key env hs now used :
  sign_callback body secret ts non key env CALLBACK_METHOD CALLBACK_PATH = inr hs ->
  in_window ts now -> (env, CALLBACK_SCOPE, CALLBACK_PATH, non) ∉ used ->
  let c := mkCallback CALLBACK_METHOD CALLBACK_PATH "" body hs in
  let after := {[(env, CALLBACK_SCOPE, CALLBACK_PATH, non)]} ∪ used in
  verify_callback c secret env now used = (after, inr tt)
  /\ (forall l later, in_window ts later ->
        let used' := verify_all secret env l after in
        verify_callback c secret env later used'
        = (used', inl (CallbackAuthenticationError "reused callback nonce")))
  /\ (forall l later c',
        cb_path c' = CALLBACK_PATH -> header (cb_headers c') "X-Codestra-Nonce" = non ->
        exists e, (verify_callback c' secret env later (verify_all secret env l after)).2 = inl e).
Proof.
  intros Hsig Hw Hn c after. destruct (sign_callback_ok _ _ _ _ _ _ _ _ _ Hsig) as (m & Hm & Hh).
  pose proof Hh as Hv. unfold header_values, required in Hv. cbn [fmap list_fmap] in Hv.
  injection Hv as Hv1 Hv2 Hv3 Hv4 Hv5 Hv6 Hv7 Hv8 Hv9 Hv10.
  assert (Hnonce : nonce_of c env = (env, CALLBACK_SCOPE, CALLBACK_PATH, non))
    by (unfold nonce_of, c; cbn [cb_path cb_headers]; by rewrite Hv5).
  assert (Hok : forall later u, in_window ts later -> nonce_of c env ∉ u ->
    (verify_callback c secret env later u).2 = inr tt).
  { intros later u Hl Hu. apply signed_is_accepted; [done..| |done|]; unfold signed_for, c;
      cbn [cb_headers cb_body]; rewrite Hv4; [done|]. rewrite Hv5, Hv8. by exists hs. }
  split_and!.
  - assert (H := Hok now used Hw). rewrite Hnonce in H. specialize (H Hn).
    revert H. unfold LeadCallbackAuth.verify_callback. cbn [snd]. intros ->. by rewrite Hnonce.
  - intros l later Hl used'.
    destruct (used_nonce_refused c secret env later used') as (e & -> & He).
    { rewrite Hnonce. apply used_nonce_stays. set_solver. }
    rewrite He; [done|]. specialize (Hok later ∅ Hl ltac:(set_solver)).
    by apply verify_callback_ok in Hok as [? _].
  - intros l later c' Hp Hc'. destruct (used_nonce_refused c' secret env later
      (verify_all secret env l after)) as (e & -> & _); [|by exists e].
    unfold nonce_of. rewrite Hp, Hc'. apply used_nonce_stays. set_solver.
Qed.
End accepted.

(** ** A run *)

(** Timestamps of ten digits, in seconds of the epoch. *)
Definition demo_fromisoformat (s : string) : option datetime :=
  if fullmatch_class is_digit 10 10 s then Some (utc (seconds (decimal s))) else None.
Definition demo_secret : list N := bytes_of "lead-secret".

Lemma signed_callback_accepted_once_witness :
  exists hs,
    sign_callback "{}" demo_secret "1700000000" "nonce-1" "key-1" "staging" CALLBACK_METHOD
      CALLBACK_PATH = inr hs
    /\ (verify_callback demo_fromisoformat (mkCallback CALLBACK_METHOD CALLBACK_PATH "" "{}" hs)
          demo_secret "staging" (seconds 1700000300) ∅).2 = inr tt.
Proof.
  destruct (sign_callback "{}" demo_secret "1700000000" "nonce-1" "key-1" "staging"
    CALLBACK_METHOD CALLBACK_PATH) as [e|hs] eqn:E; [exfalso; revert E; vm_compute; discriminate|].
  exists hs. split; [reflexivity|].
  destruct (signed_callback_accepted_once demo_fromisoformat _ _ _ _ _ _ _ (seconds 1700000300) ∅ E)
    as [-> _]; [|apply not_elem_of_empty|reflexivity].
  exists (utc (seconds 1700000000)). split_and!; vm_compute; first [reflexivity|discriminate].
Defined.

(** A second too late, and a changed body. *)
Example late_callback_refused :
  (exists hs, sign_callback "{}" demo_secret "1700000000" "nonce-1" "key-1" "staging"
     CALLBACK_METHOD CALLBACK_PATH = inr hs
   /\ (verify_callback demo_fromisoformat (mkCallback CALLBACK_METHOD CALLBACK_PATH "" "{}" hs)
         demo_secret "staging" (seconds 1700000301) ∅).2
      = inl (CallbackAuthenticationError "expired callback timestamp")
   /\ (verify_callback demo_fromisoformat (mkCallback CALLBACK_METHOD CALLBACK_PATH "" "{ }" hs)
         demo_secret "staging" (seconds 1700000300) ∅).2
      = inl (CallbackAuthenticationError "callback body hash mismatch")).
Proof. eexists. split; [vm_compute; reflexivity|]. by vm_compute. Qed.
End LeadCallbackAuth.
