(* ===== verification/TelephonyContracts.v ===== *)
(** * Telephony commands: contracts

    [src/app/core/telephony_commands.py] and the extension audit and saga of
    [src/app/core/telephony.py]: command types and their endpoints, the payload
    and request models with their validators, the hashes and idempotency keys,
    and the normalisation of a readback.

    The validation library turns the decoded body into typed fields; that is
    the interface [CommandModels].  The constraints the models declare on the
    fields, and the validators written in the code, are definitions.  Texts are
    their UTF-8 bytes. *)

From Stdlib Require Import Ascii.
From S2P Require Import Prelude PyText PyTime Sha256 Txn PyUnicode.
Local Open Scope string_scope.
Local Open Scope Z_scope.

Module TelephonyContracts.

(** ** Decoded JSON as Python sees it *)

(** Equality of two decoded values without floats, with the members of both
    objects in the same order. *)
Fixpoint json_eqb (a b : json) {struct a} : bool :=
  match a, b with
  | JNull, JNull => true
  | JBool x, JBool y => Bool.eqb x y
  | JInt x, JInt y => x =? y
  | JFloat x, JFloat y | JStr x, JStr y => bool_decide (x = y)
  | JList l, JList l' =>
      (fix go (l l' : list json) : bool :=
         match l, l' with
         | [], [] => true
         | x :: r, y :: r' => json_eqb x y && go r r'
         | _, _ => false
         end) l l'
  | JObj m, JObj m' =>
      (fix go (m m' : list (string * json)) : bool :=
         match m, m' with
         | [], [] => true
         | (k, x) :: r, (k', y) :: r' => bool_decide (k = k') && json_eqb x y && go r r'
         | _, _ => false
         end) m m'
  | _, _ => false
  end.

(** [d[key] = value]: in place for a key that is there, else at the end. *)
Fixpoint dict_set {A} (key : string) (value : A) (d : list (string * A)) : list (string * A) :=
  match d with
  | [] => [(key, value)]
  | (k, v) :: d' => if bool_decide (k = key) then (k, value) :: d' else (k, v) :: dict_set key value d'
  end.
Definition dict_update {A} (d new : list (string * A)) : list (string * A) :=
  fold_left (fun d kv => dict_set kv.1 kv.2 d) new d.
Definition dict_del {A} (key : string) (d : list (string * A)) : list (string * A) :=
  List.filter (fun kv => negb (bool_decide (kv.1 = key))) d.

(** The elements of a value that is iterated over. *)
Definition py_iter (v : json) : exn + list json :=
  match v with
  | JList l => inr l
  | JStr s => inr (JStr <$> characters s)
  | JObj m => inr ((fun kv => JStr kv.1) <$> m)
  | _ => inl (TypeError "object is not iterable")
  end.
Definition py_hashable (v : json) : bool :=
  match v with JList _ | JObj _ => false | _ => true end.

(** [dict(v)]: of a mapping a copy, of any other iterable the dict of its
    pairs.  A key that is no text is never looked up and left out. *)
Definition py_dict (v : json) : exn + list (string * json) :=
  match v with
  | JObj m => inr m
  | _ =>
      items ← py_iter v;
      (fix go (items : list json) (acc : list (string * json)) : exn + list (string * json) :=
         match items with
         | [] => inr acc
         | item :: rest =>
             pair ← py_iter item;
             match pair with
             | [k; x] =>
                 check (py_hashable k) (TypeError "unhashable type") ;;
                 go rest (match k with JStr key => dict_set key x acc | _ => acc end)
             | _ => inl (ValueError "dictionary update sequence element has wrong length")
             end
         end) items []
  end.

(** [d[key]] and [d.pop(key)] *)
Definition get_item (d : list (string * json)) (key : string) : exn + json :=
  match dict_get d key with Some v => inr v | None => inl (LookupError key) end.
Definition pop (d : list (string * json)) (key : string) : exn + json * list (string * json) :=
  v ← get_item d key; mret (v, dict_del key d).

Definition is_str (v : json) (s : string) : bool :=
  match v with JStr x => bool_decide (x = s) | _ => false end.

(** [json.dumps(value, sort_keys=True, separators=(",", ":")).encode()] *)
Definition canonical_json (v : json) : string := json_dumps json_canonical v.
Definition payload_hash (v : json) : string := sha256_hex (canonical_json v).

(** A Python truth value of an optional text. *)
Definition filled (o : option string) : bool :=
  match o with Some s => negb (bool_decide (s = "")) | None => false end.

(** ** Command types *)

Inductive TelephonyCommandType :=
  | USER_APPLY | USER_DISABLE | PHONE_APPLY | PHONE_DISABLE | ENDPOINT_APPLY | ENDPOINT_DISABLE
  | CONTACT_REVOKE | CONTACTS_REVOKE_ALL | TARGET_RECONCILE | AGENT_RECONCILE | CAMPAIGN_RECONCILE.

#[export] Instance TelephonyCommandType_eq_dec : EqDecision TelephonyCommandType.
Proof. solve_decision. Defined.

Definition type_value (t : TelephonyCommandType) : string :=
  match t with
  | USER_APPLY => "telephony.vicidial.user.apply"
  | USER_DISABLE => "telephony.vicidial.user.disable"
  | PHONE_APPLY => "telephony.vicidial.phone.apply"
  | PHONE_DISABLE => "telephony.vicidial.phone.disable"
  | ENDPOINT_APPLY => "telephony.asterisk.endpoint.apply"
  | ENDPOINT_DISABLE => "telephony.asterisk.endpoint.disable"
  | CONTACT_REVOKE => "telephony.asterisk.contact.revoke"
  | CONTACTS_REVOKE_ALL => "telephony.asterisk.contacts.revoke_all"
  | TARGET_RECONCILE => "telephony.target.reconcile"
  | AGENT_RECONCILE => "telephony.agent.reconcile"
  | CAMPAIGN_RECONCILE => "telephony.campaign.reconcile"
  end.

(** States are stored as text.  ["CANCELLED"], which the API writes, is not a
    member of the enumeration. *)
Definition TelephonyCommandState : list string :=
  ["RECEIVED"; "VALIDATING"; "VALIDATED"; "POLICY_PENDING"; "POLICY_DENIED"; "POLICY_APPROVED";
   "JOURNALED"; "ROUTE_RESOLVED"; "TARGET_ATTESTED"; "AUTHORIZED"; "DISPATCHING"; "DISPATCHED";
   "OPERATION_REGISTERED"; "APPLYING"; "APPLIED"; "SUBMITTING"; "SUBMITTED"; "READBACK_PENDING";
   "READBACK_VERIFIED"; "ODOO_RESULT_PENDING"; "ODOO_RESULT_DELIVERED"; "RECONCILED"; "SUCCEEDED";
   "RECONCILIATION_REQUIRED"; "FAILED_TRANSIENT"; "FAILED_PERMANENT"].

Definition MUTATION_ENDPOINTS (t : TelephonyCommandType) : string :=
  match t with
  | USER_APPLY => "telephony.vicidial.users.apply"
  | USER_DISABLE => "telephony.vicidial.users.disable"
  | PHONE_APPLY => "telephony.vicidial.phones.apply"
  | PHONE_DISABLE => "telephony.vicidial.phones.disable"
  | ENDPOINT_APPLY => "telephony.asterisk.endpoints.apply"
  | ENDPOINT_DISABLE => "telephony.asterisk.endpoints.disable"
  | CONTACT_REVOKE => "telephony.asterisk.contacts.revoke"
  | CONTACTS_REVOKE_ALL => "telephony.asterisk.contacts.revoke_all"
  | TARGET_RECONCILE | AGENT_RECONCILE | CAMPAIGN_RECONCILE => "telephony.reconciliation.create"
  end.

Definition READBACK_ENDPOINTS (t : TelephonyCommandType) : string :=
  match t with
  | USER_APPLY | USER_DISABLE => "telephony.vicidial.users.read"
  | PHONE_APPLY | PHONE_DISABLE => "telephony.vicidial.phones.read"
  | ENDPOINT_APPLY | ENDPOINT_DISABLE => "telephony.asterisk.endpoints.read"
  | CONTACT_REVOKE | CONTACTS_REVOKE_ALL => "telephony.asterisk.contacts.list"
  | TARGET_RECONCILE | AGENT_RECONCILE | CAMPAIGN_RECONCILE => "telephony.reconciliation.read"
  end.

Definition LOGICAL_ENDPOINT_KEYS : list string :=
  ["telephony.vicidial.users.read"; "telephony.vicidial.users.apply";
   "telephony.vicidial.users.disable"; "telephony.vicidial.phones.read";
   "telephony.vicidial.phones.apply"; "telephony.vicidial.phones.disable";
   "telephony.vicidial.campaigns.read"; "telephony.vicidial.runtime.read";
   "telephony.asterisk.endpoints.read"; "telephony.asterisk.endpoints.apply";
   "telephony.asterisk.endpoints.disable"; "telephony.asterisk.contacts.list";
   "telephony.asterisk.contacts.revoke"; "telephony.asterisk.contacts.revoke_all";
   "telephony.asterisk.dialplan.read"; "telephony.asterisk.runtime.read";
   "telephony.reconciliation.create"; "telephony.reconciliation.read"; "telephony.service.attest"].

Definition FORBIDDEN_PAYLOAD_KEYS : list string :=
  ["extension"; "server_b_ip"; "adapter_base_url"; "ami_address"; "vicidial_database_host";
   "pjsip_context"; "context_name"; "trunk"; "trunk_name"; "telephone_number";
   "customer_number"; "destination_number"].

Definition US : ascii := ascii_of_N 31.
Definition sha256_prefix : string := "sha256:".

Definition stable_result_idempotency_key (command_public_id operation_public_id target_public_id : string)
    (observed_state_version : Z) (result_hash : string) : string :=
  sha256_hex (join (String US "")
    [command_public_id; operation_public_id; target_public_id; str_of_Z observed_state_version;
     removeprefix sha256_prefix result_hash]).

(** ** Patterns *)

(** The parts of a text around its first separator. *)
Fixpoint partition (sep : ascii) (s : string) : option (string * string) :=
  match s with
  | EmptyString => None
  | String c s' =>
      if Ascii.eqb c sep then Some (EmptyString, s')
      else p ← partition sep s'; Some (String c p.1, p.2)
  end.

(** [[first][rest]{lo,hi}] *)
Definition head_and_tail (first rest : ascii -> bool) (lo hi : nat) (s : string) : bool :=
  match s with
  | String c s' => first c && fullmatch_class rest lo hi s'
  | EmptyString => false
  end.

(** [^[A-Z][A-Z0-9_]{1,15}-[A-Za-z0-9][A-Za-z0-9._:-]{2,127}$]: the first part
    has no hyphen. *)
Definition PUBLIC_ID (s : string) : bool :=
  match partition "-" s with
  | Some (prefix, name) =>
      head_and_tail is_upper (fun c => is_upper c || is_digit c || Ascii.eqb c "_") 1 15 prefix
      && head_and_tail is_alnum (fun c => is_alnum c || char_in c "._:-") 2 127 name
  | None => false
  end.

Definition hex_hash (s : string) : bool := fullmatch_class is_lower_hex 64 64 s.
(** [^(?:sha256:)?[0-9a-f]{64}$] *)
Definition prefixed_hash (s : string) : bool := hex_hash s || (starts_with sha256_prefix s && hex_hash (removeprefix sha256_prefix s)).
(** [^[0-9a-f]{8}-[0-9a-f]{4}-[1-5][0-9a-f]{3}-[89ab][0-9a-f]{3}-[0-9a-f]{12}$] *)
Definition uuid_pattern (s : string) : bool :=
  match split_on "-" s with
  | [a; b; c; d; e] =>
      fullmatch_class is_lower_hex 8 8 a && fullmatch_class is_lower_hex 4 4 b
      && head_and_tail (fun c => in_range c 49 53) is_lower_hex 3 3 c
      && head_and_tail (fun c => char_in c "89ab") is_lower_hex 3 3 d
      && fullmatch_class is_lower_hex 12 12 e
  | _ => false
  end.
Definition length_between (lo hi : Z) (s : string) : bool := (lo <=? py_len s) && (py_len s <=? hi).
Definition if_given {A} (p : A -> bool) (o : option A) : bool :=
  match o with Some x => p x | None => true end.

(** ** The payload *)

Record TelephonyCommandPayload := mkPayload {
  endpoint_public_id : option string;
  source_endpoint_public_id : option string;
  destination_endpoint_public_id : option string;
  agent_public_id : option string;
  phone_public_id : option string;
  call_public_id : option string;
  contact_id : option string;
  allocation_reservation_id : string;
  desired_state_version : Z;
  enabled_state : bool;
  maximum_duration_seconds : option Z;
  purpose : option string;
  reservation_generation : option Z;
  reservation_hash : option string;
  desired_state_hash : option string;
  context_key : option string;
  external_route_allowed : bool;
  transfer_allowed : bool;
  (** the fields that were given, [model_fields_set] *)
  fields_set : list string;
}.

(** The constraints of the field declarations. *)
Definition payload_fields_ok (p : TelephonyCommandPayload) : bool :=
  let short := if_given (fun s => py_len s <=? 144) in
  short (endpoint_public_id p) && short (source_endpoint_public_id p)
  && short (destination_endpoint_public_id p) && short (agent_public_id p)
  && short (phone_public_id p) && short (call_public_id p)
  && if_given (fun s => py_len s <=? 128) (contact_id p)
  && length_between 4 144 (allocation_reservation_id p)
  && (1 <=? desired_state_version p)
  && if_given (fun n => (1 <=? n) && (n <=? 300)) (maximum_duration_seconds p)
  && if_given (fun s => py_len s <=? 128) (purpose p)
  && if_given (fun n => 1 <=? n) (reservation_generation p)
  && if_given prefixed_hash (reservation_hash p) && if_given prefixed_hash (desired_state_hash p)
  && if_given (fun s => py_len s <=? 128) (context_key p).

Definition target_ids (p : TelephonyCommandPayload) : list (option string) :=
  [endpoint_public_id p; source_endpoint_public_id p; destination_endpoint_public_id p;
   agent_public_id p; phone_public_id p; call_public_id p].

Definition validate_public_ids (p : TelephonyCommandPayload) : exn + unit :=
  check (existsb filled (target_ids p)) (ValueError "at least one target public ID is required") ;;
  check (forallb (fun v => negb (filled v) || if_given PUBLIC_ID v) (target_ids p))
    (ValueError "invalid target public ID").

Definition opt_str (o : option string) : json := match o with Some s => JStr s | None => JNull end.
Definition opt_int (o : option Z) : json := match o with Some n => JInt n | None => JNull end.

(** [payload.model_dump(mode="json")], in the order of the declarations *)
Definition payload_dump (p : TelephonyCommandPayload) : list (string * json) :=
  [("endpoint_public_id", opt_str (endpoint_public_id p));
   ("source_endpoint_public_id", opt_str (source_endpoint_public_id p));
   ("destination_endpoint_public_id", opt_str (destination_endpoint_public_id p));
   ("agent_public_id", opt_str (agent_public_id p));
   ("phone_public_id", opt_str (phone_public_id p));
   ("call_public_id", opt_str (call_public_id p));
   ("contact_id", opt_str (contact_id p));
   ("allocation_reservation_id", JStr (allocation_reservation_id p));
   ("desired_state_version", JInt (desired_state_version p));
   ("state", JStr (if enabled_state p then "ENABLED" else "DISABLED"));
   ("maximum_duration_seconds", opt_int (maximum_duration_seconds p));
   ("purpose", opt_str (purpose p));
   ("reservation_generation", opt_int (reservation_generation p));
   ("reservation_hash", opt_str (reservation_hash p));
   ("desired_state_hash", opt_str (desired_state_hash p));
   ("context_key", opt_str (context_key p));
   ("external_route_allowed", JBool (external_route_allowed p));
   ("transfer_allowed", JBool (transfer_allowed p))].
Definition not_none (kv : string * json) : bool := match kv.2 with JNull => false | _ => true end.
Definition payload_dump_set (p : TelephonyCommandPayload) : list (string * json) :=
  List.filter not_none (payload_dump p).

(** ** The request *)

Record TelephonyCommandRequest := mkCommand {
  command_public_id : option string;
  originating_outbox_public_id : option string;
  event_id : option string;
  command_type : TelephonyCommandType;
  aggregate_type : string;
  aggregate_public_id : string;
  aggregate_version : Z;
  environment : string;
  organization_public_id : string;
  business_unit_public_id : string;
  campaign_public_id : string;
  idempotency_key : string;
  correlation_id : string;
  causation_id : string;
  policy_decision_id : option string;
  policy_decision_hash : string;
  requested_at : option datetime;
  expires_at : option datetime;
  payload : TelephonyCommandPayload;
}.
#[export] Instance TelephonyCommandRequest_eta : Eta TelephonyCommandRequest := fun r =>
  mkCommand (command_public_id r) (originating_outbox_public_id r) (event_id r) (command_type r)
    (aggregate_type r) (aggregate_public_id r) (aggregate_version r) (environment r)
    (organization_public_id r) (business_unit_public_id r) (campaign_public_id r)
    (idempotency_key r) (correlation_id r) (causation_id r) (policy_decision_id r)
    (policy_decision_hash r) (requested_at r) (expires_at r) (payload r).

(** [schema_version] can only be ["1.0"]. *)
Definition request_fields_ok (r : TelephonyCommandRequest) : bool :=
  let id := length_between 4 144 in
  if_given id (command_public_id r) && if_given id (originating_outbox_public_id r)
  && if_given id (event_id r) && length_between 1 64 (aggregate_type r)
  && id (aggregate_public_id r) && (1 <=? aggregate_version r)
  && str_in (environment r) ["staging"; "test"; "production"]
  && (py_len (organization_public_id r) <=? 144) && id (business_unit_public_id r)
  && id (campaign_public_id r) && length_between 8 255 (idempotency_key r)
  && length_between 8 128 (correlation_id r) && length_between 1 128 (causation_id r)
  && if_given uuid_pattern (policy_decision_id r) && hex_hash (policy_decision_hash r).

Class CommandModels := {
  (** the typed fields of a decoded body, when every one is given, typed and known *)
  typed_fields : json -> option TelephonyCommandRequest;
  (** the text of a datetime in JSON *)
  dump_datetime : datetime -> string;
  (** [datetime.fromisoformat], [None] for [ValueError] *)
  fromisoformat : string -> option datetime;
  (** [datetime.isoformat] *)
  isoformat : datetime -> string;
  (** [str] of a decoded list or object *)
  str_of_container : json -> string;
}.

Section models.
Context `{CommandModels}.

(** [str(v)] of a decoded value *)
Definition py_str (v : json) : string :=
  match v with
  | JStr s => s
  | JInt n => str_of_Z n
  | JFloat r => r
  | JBool b => if b then "True" else "False"
  | JNull => "None"
  | JList _ | JObj _ => str_of_container v
  end.

(** The payload of a version-1 envelope. *)
Definition envelope_payload (aggregate target allocation desired : list (string * json)) : exn + json :=
  resource ← get_item target "resource_type";
  endpoint ← (if is_str resource "ENDPOINT" then get_item target "public_id" else inr JNull);
  agent ← (if is_str resource "USER" then get_item target "public_id"
           else
             kind ← get_item aggregate "type";
             if is_str kind "agent" then get_item aggregate "public_id" else inr JNull);
  phone ← (if is_str resource "PHONE" then get_item target "public_id" else inr JNull);
  reservation ← get_item allocation "reservation_public_id";
  generation ← get_item allocation "reservation_generation";
  reservation_hash ← get_item allocation "reservation_hash";
  version ← get_item desired "version";
  hash ← get_item desired "hash";
  let get key default := coalesce (dict_get desired key) default in
  mret (JObj
    [("endpoint_public_id", endpoint);
     ("agent_public_id", agent);
     ("phone_public_id", phone);
     ("allocation_reservation_id", reservation);
     ("reservation_generation", generation);
     ("reservation_hash", reservation_hash);
     ("desired_state_version", version);
     ("desired_state_hash", hash);
     ("state", JStr (if json_truthy (get "enabled" JNull) then "ENABLED" else "DISABLED"));
     ("context_key", get "context_key" JNull);
     ("external_route_allowed", get "external_route_allowed" (JBool false));
     ("transfer_allowed", get "transfer_allowed" (JBool false))]).

(** A missing key is a [KeyError], which the validation library does not turn
    into a validation error. *)
Definition normalize_v1_envelope (value : json) : exn + json :=
  match value with
  | JObj members =>
      if is_null (dict_get members "aggregate") then inr value
      else
        '(aggregate, data) ← pop members "aggregate";
        aggregate ← py_dict aggregate;
        '(target, data) ← pop data "target";
        target ← py_dict target;
        '(allocation, data) ← pop data "allocation";
        allocation ← py_dict allocation;
        '(desired, data) ← pop data "desired_state";
        desired ← py_dict desired;
        '(policy_hash, data) ← pop data "policy_hash";
        let policy_hash := removeprefix sha256_prefix (py_str policy_hash) in
        kind ← get_item aggregate "type";
        public_id ← get_item aggregate "public_id";
        version ← get_item aggregate "version";
        payload ← envelope_payload aggregate target allocation desired;
        mret (JObj (dict_update data
          [("aggregate_type", kind); ("aggregate_public_id", public_id);
           ("aggregate_version", version); ("policy_decision_hash", JStr policy_hash);
           ("payload", payload)]))
  | _ => inr value
  end.

Definition requirements (t : TelephonyCommandType) : list string :=
  match t with
  | USER_APPLY | USER_DISABLE => ["agent_public_id"]
  | PHONE_APPLY | PHONE_DISABLE => ["phone_public_id"]
  | ENDPOINT_APPLY | ENDPOINT_DISABLE => ["endpoint_public_id"]
  | CONTACT_REVOKE => ["endpoint_public_id"; "contact_id"]
  | CONTACTS_REVOKE_ALL => ["endpoint_public_id"]
  | TARGET_RECONCILE | AGENT_RECONCILE | CAMPAIGN_RECONCILE => []
  end.

(** [getattr(self.payload, field)] for the required fields *)
Definition required_field (p : TelephonyCommandPayload) (field : string) : option string :=
  if bool_decide (field = "agent_public_id") then agent_public_id p
  else if bool_decide (field = "phone_public_id") then phone_public_id p
  else if bool_decide (field = "endpoint_public_id") then endpoint_public_id p
  else if bool_decide (field = "contact_id") then contact_id p
  else None.

Definition missing_fields (r : TelephonyCommandRequest) : list string :=
  List.filter (fun f => negb (filled (required_field (payload r) f))) (requirements (command_type r)).

Definition check_times (r : TelephonyCommandRequest) (now : Z) : exn + unit :=
  match requested_at r, expires_at r with
  | Some requested, Some expires =>
      check (aware requested && aware expires)
        (ValueError "command timestamps must be timezone-aware") ;;
      check (instant requested <? instant expires)
        (ValueError "command expiry must follow request time") ;;
      check (now <? instant expires) (ValueError "command is expired")
  | _, _ => inr tt
  end.

Definition forbid_application_selected_resources (r : TelephonyCommandRequest) (now : Z) : exn + unit :=
  check_times r now ;;
  check (negb (existsb (fun kv => str_in kv.1 FORBIDDEN_PAYLOAD_KEYS) (payload_dump_set (payload r))))
    (ValueError "application-selected telephony resource is prohibited") ;;
  let missing := missing_fields r in
  check (match missing with [] => true | _ => false end)
    (ValueError (type_value (command_type r) +:+ " requires " +:+ join ", " (sorted_strings missing))).

(** [TelephonyCommandRequest.model_validate(value)]; the clock is read once. *)
Definition model_validate (value : json) (now : Z) : exn + TelephonyCommandRequest :=
  data ← normalize_v1_envelope value;
  match typed_fields data with
  | None => inl (ValueError "validation error")
  | Some r =>
      check (payload_fields_ok (payload r) && request_fields_ok r) (ValueError "validation error") ;;
      validate_public_ids (payload r) ;;
      forbid_application_selected_resources r now ;;
      mret r
  end.

Definition opt_datetime (o : option datetime) : json :=
  match o with Some t => JStr (dump_datetime t) | None => JNull end.

(** [command.model_dump(mode="json")] *)
Definition model_dump (r : TelephonyCommandRequest) : json :=
  JObj [("schema_version", JStr "1.0");
        ("command_public_id", opt_str (command_public_id r));
        ("originating_outbox_public_id", opt_str (originating_outbox_public_id r));
        ("event_id", opt_str (event_id r));
        ("command_type", JStr (type_value (command_type r)));
        ("aggregate_type", JStr (aggregate_type r));
        ("aggregate_public_id", JStr (aggregate_public_id r));
        ("aggregate_version", JInt (aggregate_version r));
        ("environment", JStr (environment r));
        ("organization_public_id", JStr (organization_public_id r));
        ("business_unit_public_id", JStr (business_unit_public_id r));
        ("campaign_public_id", JStr (campaign_public_id r));
        ("idempotency_key", JStr (idempotency_key r));
        ("correlation_id", JStr (correlation_id r));
        ("causation_id", JStr (causation_id r));
        ("policy_decision_id", opt_str (policy_decision_id r));
        ("policy_decision_hash", JStr (policy_decision_hash r));
        ("requested_at", opt_datetime (requested_at r));
        ("expires_at", opt_datetime (expires_at r));
        ("payload", JObj (payload_dump (payload r)))].

Definition request_hash (r : TelephonyCommandRequest) : string := payload_hash (model_dump r).

Definition policy_scope (r : TelephonyCommandRequest) : list (string * string) :=
  [("action", "sync"); ("subject", aggregate_public_id r); ("resource", type_value (command_type r));
   ("environment", environment r); ("business_unit", business_unit_public_id r);
   ("campaign", campaign_public_id r); ("agent", py_or (agent_public_id (payload r)) "")].

Definition desired_state (r : TelephonyCommandRequest) : list (string * json) :=
  List.filter (fun kv => str_in kv.1 (fields_set (payload r))) (payload_dump_set (payload r)).

Definition target_system (r : TelephonyCommandRequest) : string :=
  if starts_with "telephony.asterisk." (type_value (command_type r)) then "ASTERISK" else "VICIDIAL".

Definition target_public_id (r : TelephonyCommandRequest) : string :=
  py_or (endpoint_public_id (payload r))
    (py_or (phone_public_id (payload r))
       (py_or (agent_public_id (payload r)) (aggregate_public_id r))).

Definition idempotency_fields (r : TelephonyCommandRequest) : list string :=
  [environment r; type_value (command_type r); aggregate_public_id r;
   str_of_Z (desired_state_version (payload r)); target_system r; target_public_id r].
Definition stable_idempotency_key (r : TelephonyCommandRequest) : string :=
  sha256_hex (join (String US "") (idempotency_fields r)).

Definition normalized_actual_state (r : TelephonyCommandRequest) (actual : list (string * json)) :
    exn + list (string * json) :=
  match coalesce (dict_get actual "desired_state") (JObj actual) with
  | JObj candidate =>
      inr ((fun kv => (kv.1, coalesce (dict_get candidate kv.1) JNull)) <$> desired_state r)
  | _ => inl (ValueError "readback desired_state must be an object")
  end.
End models.
End TelephonyContracts.
