(* ===== verification/TelephonyTables.v ===== *)
(** * Telephony commands: the journals

    The tables [telephony_command_journal], [telephony_operation_journal],
    [telephony_operation_transition], [telephony_terminal_result],
    [telephony_reconciliation_run] and [policy_decision] of
    [src/app/db/models.py], with the constraints an [INSERT] is checked against,
    and [new_command_record] of [src/app/core/telephony_commands.py].  Columns
    that no code reads (the [created_at] of the operations, results and runs)
    are left out. *)

From Stdlib Require Import Ascii.
From S2P Require Import Prelude PyText PyTime Sha256 Txn PyUnicode TelephonyContracts.
Import TelephonyContracts.
Local Open Scope string_scope.
Local Open Scope Z_scope.

Module TelephonyTables.

Record command_row := mkCommandRow {
  cm_command_id : uuid;
  cm_command_public_id : string;
  cm_command_type : string;
  cm_aggregate_type : string;
  cm_aggregate_public_id : string;
  cm_aggregate_version : Z;
  cm_environment : string;
  cm_business_unit_public_id : string;
  cm_campaign_public_id : string;
  cm_idempotency_hash : string;
  cm_idempotency_key : string;
  cm_request_hash : string;
  cm_correlation_id : string;
  cm_causation_id : string;
  cm_policy_decision_id : string;
  cm_policy_decision_hash : string;
  cm_payload_json : list (string * json);
  cm_request_json : json;
  cm_state : string;
  cm_attempt_count : Z;
  cm_next_attempt_at : option Z;
  cm_lease_owner : option string;
  cm_created_at : Z;
  cm_updated_at : Z;
}.
#[export] Instance command_row_eta : Eta command_row := fun r =>
  mkCommandRow (cm_command_id r) (cm_command_public_id r) (cm_command_type r) (cm_aggregate_type r)
    (cm_aggregate_public_id r) (cm_aggregate_version r) (cm_environment r)
    (cm_business_unit_public_id r) (cm_campaign_public_id r) (cm_idempotency_hash r)
    (cm_idempotency_key r) (cm_request_hash r) (cm_correlation_id r) (cm_causation_id r)
    (cm_policy_decision_id r) (cm_policy_decision_hash r) (cm_payload_json r) (cm_request_json r)
    (cm_state r) (cm_attempt_count r) (cm_next_attempt_at r) (cm_lease_owner r) (cm_created_at r)
    (cm_updated_at r).

Record operation_row := mkOperationRow {
  op_operation_id : uuid;
  op_operation_public_id : string;
  op_command_id : uuid;
  op_state : string;
  op_adapter_service_key : string;
  op_adapter_operation_id : string;
  op_target_system : string;
  op_target_resource_type : string;
  op_target_public_id : string;
  op_desired_state_version : Z;
  op_idempotency_hash : string;
  op_transition_sequence : Z;
  op_endpoint_key : string;
  op_readback_endpoint_key : string;
  op_target_configuration_checksum : string;
  op_target_attested : bool;
  op_desired_hash : string;
  op_actual_hash : option string;
  op_readback_matches : option bool;
  op_correlation_id : string;
  op_response_json : json;
  op_completed_at : option Z;
}.
#[export] Instance operation_row_eta : Eta operation_row := fun r =>
  mkOperationRow (op_operation_id r) (op_operation_public_id r) (op_command_id r) (op_state r)
    (op_adapter_service_key r) (op_adapter_operation_id r) (op_target_system r)
    (op_target_resource_type r) (op_target_public_id r) (op_desired_state_version r)
    (op_idempotency_hash r) (op_transition_sequence r) (op_endpoint_key r)
    (op_readback_endpoint_key r) (op_target_configuration_checksum r) (op_target_attested r)
    (op_desired_hash r) (op_actual_hash r) (op_readback_matches r) (op_correlation_id r)
    (op_response_json r) (op_completed_at r).

Record transition_row := mkTransitionRow {
  tr_operation_id : uuid;
  tr_command_id : uuid;
  tr_sequence : Z;
  tr_from_state : string;
  tr_to_state : string;
  tr_transition_hash : string;
  tr_binding_json : json;
  tr_occurred_at : datetime;
}.

Record result_row := mkResultRow {
  rs_result_public_id : string;
  rs_operation_id : uuid;
  rs_command_id : uuid;
  rs_result_hash : string;
  rs_application_hash : string;
  rs_readback_hash : string;
  rs_policy_hash : string;
  rs_target_system : string;
  rs_target_resource_type : string;
  rs_target_public_id : string;
  rs_requested_state_version : Z;
  rs_applied_state_version : Z;
  rs_observed_state_version : Z;
  rs_application_status : string;
  rs_readback_status : string;
  rs_adapter_service_key : string;
  rs_adapter_configuration_checksum : string;
  rs_safe_summary : string;
  rs_applied_at : datetime;
  rs_readback_at : datetime;
  rs_odoo_callback_status : string;
  rs_status : string;
  rs_reconciliation_status : string;
  rs_correlation_id : string;
  rs_immutable_json : json;
}.
#[export] Instance result_row_eta : Eta result_row := fun r =>
  mkResultRow (rs_result_public_id r) (rs_operation_id r) (rs_command_id r) (rs_result_hash r)
    (rs_application_hash r) (rs_readback_hash r) (rs_policy_hash r) (rs_target_system r)
    (rs_target_resource_type r) (rs_target_public_id r) (rs_requested_state_version r)
    (rs_applied_state_version r) (rs_observed_state_version r) (rs_application_status r)
    (rs_readback_status r) (rs_adapter_service_key r) (rs_adapter_configuration_checksum r)
    (rs_safe_summary r) (rs_applied_at r) (rs_readback_at r) (rs_odoo_callback_status r)
    (rs_status r) (rs_reconciliation_status r) (rs_correlation_id r) (rs_immutable_json r).

Record run_row := mkRunRow {
  rr_run_public_id : string;
  rr_command_id : option uuid;
  rr_environment : string;
  rr_aggregate_type : string;
  rr_aggregate_public_id : string;
  rr_target_system : string;
  rr_status : string;
  rr_classification : string;
  rr_correlation_id : string;
  rr_evidence_json : list (string * json);
}.

Record decision_row := mkDecisionRow {
  pd_id : uuid;
  pd_policy : string;
  pd_allowed : bool;
  pd_reason : string;
  pd_correlation_id : string;
  pd_context : list (string * json);
  pd_created_at : Z;
}.

Record db := mkDb {
  commands : gmap uuid command_row;
  operations : gmap uuid operation_row;
  transitions : gmap uuid transition_row;
  results : gmap uuid result_row;
  runs : gmap uuid run_row;
  decisions : gmap uuid decision_row;
}.
#[export] Instance db_eta : Eta db := fun d =>
  mkDb (commands d) (operations d) (transitions d) (results d) (runs d) (decisions d).

Definition empty_db : db := mkDb ∅ ∅ ∅ ∅ ∅ ∅.

(** ** Queries *)

(** [select(...).where(p)] for one row, [choice] standing for the order in which
    the database returns several. *)
Definition some_where {V} (choice : nat) (p : V -> bool) (t : gmap uuid V) : option V :=
  let found := select_where p t in found !! (choice mod length found)%nat.
(** The same where a unique column makes it one row. *)
Definition one_where {V} (p : V -> bool) (t : gmap uuid V) : option V := head (select_where p t).

Definition by_public_id (id : string) (c : command_row) : bool := bool_decide (cm_command_public_id c = id).
Definition by_idempotency_hash (h : string) (c : command_row) : bool := bool_decide (cm_idempotency_hash c = h).
Definition op_by_public_id (id : string) (o : operation_row) : bool := bool_decide (op_operation_public_id o = id).
Definition op_of_command (id : uuid) (o : operation_row) : bool := bool_decide (op_command_id o = id).
Definition same_aggregate (env kind id : string) (c : command_row) : bool :=
  bool_decide (cm_environment c = env) && bool_decide (cm_aggregate_type c = kind)
  && bool_decide (cm_aggregate_public_id c = id).

(** [session.get(PolicyDecision, UUID(text))] *)
Definition get_decision (text : string) (d : db) : option decision_row :=
  one_where (fun p => bool_decide (uuid_str (pd_id p) = text)) (decisions d).
(** The latest decision of a correlation. *)
Definition latest_decision (correlation : string) (d : db) : option decision_row :=
  head (sort_by (fun a b => pd_created_at b <=? pd_created_at a)
    (select_where (fun p => bool_decide (pd_correlation_id p = correlation)) (decisions d))).

(** [select(func.max(aggregate_version)).where(...)] *)
Definition latest_version (env kind id : string) (d : db) : option Z :=
  fold_left (fun acc c => Some (match acc with Some v => Z.max v (cm_aggregate_version c)
                                          | None => cm_aggregate_version c end))
    (select_where (same_aggregate env kind id) (commands d)) None.

(** ** Inserts

    The constraints of each table, and the width of its integer columns. *)

Definition int4 (n : Z) : bool := (-2147483648 <=? n) && (n <=? 2147483647).
Definition out_of_range : exn := RuntimeError "integer out of range".

Definition absent {V} (p : V -> bool) (t : gmap uuid V) : bool :=
  match select_where p t with [] => true | _ => false end.

Lemma absent_true {V} (p : V -> bool) (t : gmap uuid V) :
  absent p t = true <-> forall id v, t !! id = Some v -> p v = false.
Proof.
  unfold absent. destruct (select_where p t) as [|v l] eqn:E; split; try done.
  - intros _ id v Hv. destruct (p v) eqn:Hp; [|done]. exfalso.
    assert (Hin : v ∈ select_where p t) by (apply elem_of_select_where; eauto).
    rewrite E in Hin. by apply not_elem_of_nil in Hin.
  - intros Hall. assert (Hin : v ∈ select_where p t) by (rewrite E; left).
    apply elem_of_select_where in Hin as [Hp [id Hid]]. by rewrite (Hall id v Hid) in Hp.
Qed.

Definition insert_command (c : command_row) (d : db) : option db :=
  if is_null (commands d !! cm_command_id c)
     && absent (by_public_id (cm_command_public_id c)) (commands d)
     && absent (by_idempotency_hash (cm_idempotency_hash c)) (commands d)
     && absent (fun x => same_aggregate (cm_environment c) (cm_aggregate_type c)
                           (cm_aggregate_public_id c) x
                         && (cm_aggregate_version x =? cm_aggregate_version c)) (commands d)
     && (1 <=? cm_aggregate_version c)
     && str_in (cm_environment c) ["staging"; "test"; "production"]
  then Some (d <| commands ::= <[cm_command_id c := c]> |>) else None.

Definition insert_operation (o : operation_row) (d : db) : option db :=
  if is_null (operations d !! op_operation_id o)
     && absent (op_by_public_id (op_operation_public_id o)) (operations d)
     && absent (op_of_command (op_command_id o)) (operations d)
     && absent (fun x => bool_decide (op_idempotency_hash x = op_idempotency_hash o)) (operations d)
     && negb (is_null (commands d !! op_command_id o))
  then Some (d <| operations ::= <[op_operation_id o := o]> |>) else None.

Definition insert_transition (id : uuid) (t : transition_row) (d : db) : option db :=
  if is_null (transitions d !! id)
     && absent (fun x => bool_decide (tr_operation_id x = tr_operation_id t)
                         && ((tr_sequence x =? tr_sequence t)
                             || bool_decide (tr_transition_hash x = tr_transition_hash t)))
          (transitions d)
     && negb (is_null (operations d !! tr_operation_id t))
     && negb (is_null (commands d !! tr_command_id t))
  then Some (d <| transitions ::= <[id := t]> |>) else None.

Definition insert_result (id : uuid) (r : result_row) (d : db) : option db :=
  if is_null (results d !! id)
     && absent (fun x => bool_decide (rs_result_public_id x = rs_result_public_id r)) (results d)
     && absent (fun x => bool_decide (rs_operation_id x = rs_operation_id r)) (results d)
     && negb (is_null (operations d !! rs_operation_id r))
     && negb (is_null (commands d !! rs_command_id r))
  then Some (d <| results ::= <[id := r]> |>) else None.

Definition insert_run (id : uuid) (r : run_row) (d : db) : option db :=
  if is_null (runs d !! id)
     && absent (fun x => bool_decide (rr_run_public_id x = rr_run_public_id r)) (runs d)
     && match rr_command_id r with Some c => negb (is_null (commands d !! c)) | None => true end
  then Some (d <| runs ::= <[id := r]> |>) else None.

(** ** New commands *)

(** The first [n] characters of an ASCII text. *)
Definition ascii_prefix (n : nat) (s : string) : string := String.substring 0 n s.

(** The row made of [new_command_record(command)]; [id] is the
    default of the primary key. *)
Definition new_command_record `{CommandModels} (id : uuid) (r : TelephonyCommandRequest) (now : Z) :
    command_row :=
  mkCommandRow id
    (py_or (command_public_id r) ("CMD-" +:+ ascii_prefix 32 (stable_idempotency_key r)))
    (type_value (command_type r)) (aggregate_type r) (aggregate_public_id r) (aggregate_version r)
    (environment r) (business_unit_public_id r) (campaign_public_id r) (stable_idempotency_key r)
    (idempotency_key r) (request_hash r) (correlation_id r) (causation_id r)
    (coalesce (policy_decision_id r) "") (policy_decision_hash r)
    (payload_dump_set (payload r)) (model_dump r) "POLICY_PENDING" 0 None None now now.
End TelephonyTables.
