(* ===== verification/TelephonyApi.v ===== *)
(** * Telephony commands: the API ([src/app/api/v1/commands.py])

    Every handler as a program over the journals: creation and cancellation of
    commands, registration and transitions of operations, terminal results,
    reconciliation runs, and the delivery of results to Odoo of
    [src/app/adapters/odoo/telephony_results.py].  Readings of the clock
    ([datetime.now(UTC)]) are arguments. *)

From Stdlib Require Import Ascii.
From S2P Require Import Prelude PyText PyTime Sha256 Txn PyUnicode TelephonyContracts TelephonyTables.
Import TelephonyContracts TelephonyTables.
Local Open Scope string_scope.
Local Open Scope Z_scope.

Module TelephonyApi.
Section api.
Context `{CommandModels}.

(** ** Commands *)

Record command_view := mkCommandView {
  v_command_id : uuid;
  v_command_public_id : string;
  v_command_type : string;
  v_aggregate_public_id : string;
  v_aggregate_version : Z;
  v_state : string;
  v_correlation_id : string;
  v_replayed : bool;
}.
Definition _command_view (replayed : bool) (r : command_row) : command_view :=
  mkCommandView (cm_command_id r) (cm_command_public_id r) (cm_command_type r)
    (cm_aggregate_public_id r) (cm_aggregate_version r) (cm_state r) (cm_correlation_id r) replayed.

(** [context.get("authorization_scope") == policy_scope()], on a stored object,
    whose keys are distinct *)
Definition scope_matches (stored : option json) (scope : list (string * string)) : bool :=
  match stored with
  | Some (JObj members) =>
      (length members =? length scope)%nat
      && forallb (fun kv => from_option (fun v => is_str v kv.2) false (dict_get members kv.1)) scope
  | _ => false
  end.

(** [context.get("enforced") is True] *)
Definition is_enforced (context : list (string * json)) : bool :=
  match dict_get context "enforced" with Some (JBool true) => true | _ => false end.

(** The checks of the decision, in their order; [now] is the clock. *)
Definition check_decision (body : TelephonyCommandRequest) (decision : decision_row) (now : Z) :
    exn + unit :=
  check (bool_decide (pd_correlation_id decision = correlation_id body))
    (HTTPException 409 "policy correlation mismatch") ;;
  check (bool_decide (payload_hash (JObj (pd_context decision)) = policy_decision_hash body))
    (HTTPException 409 "policy decision hash mismatch") ;;
  check (scope_matches (dict_get (pd_context decision) "authorization_scope") (policy_scope body))
    (HTTPException 409 "policy authorization scope mismatch") ;;
  match dict_get (pd_context decision) "expiration" with
  | Some (JStr expiration) =>
      match fromisoformat expiration with
      | None => inl (HTTPException 409 "policy expiration is invalid")
      | Some expires => check (aware expires && (now <? instant expires))
                          (HTTPException 409 "policy decision expired")
      end
  | _ => inl (HTTPException 409 "policy expiration is invalid")
  end.

Definition lift {A} (r : exn + A) : M db A := match r with inl e => raise e | inr a => mret a end.

Definition stale_version (body : TelephonyCommandRequest) (latest : option Z) : bool :=
  match latest with Some v => aggregate_version body <=? v | None => false end.
Definition stale : exn := HTTPException 409 "stale or duplicate aggregate version".
Definition latest_of (body : TelephonyCommandRequest) (d : db) : option Z :=
  latest_version (environment body) (aggregate_type body) (aggregate_public_id body) d.

(** What the [except IntegrityError] clause answers. *)
Definition after_conflict (body : TelephonyCommandRequest) (row : command_row) : M db command_view :=
  rollback ;;
  existing ← query (fun d => one_where (by_idempotency_hash (cm_idempotency_hash row)) (commands d));
  match existing with
  | Some r =>
      if bool_decide (cm_request_hash r = cm_request_hash row) then mret (_command_view true r)
      else
        latest ← query (latest_of body);
        guard_or (negb (stale_version body latest)) stale ;;
        raise (HTTPException 409 "concurrent command conflict")
  | None =>
      latest ← query (latest_of body);
      guard_or (negb (stale_version body latest)) stale ;;
      raise (HTTPException 409 "concurrent command conflict")
  end.

Definition create_command (body : TelephonyCommandRequest) (header_key : string) (t_record t_check : Z) :
    M db command_view :=
  guard_or (bool_decide (header_key = idempotency_key body))
    (HTTPException 400 "header and command idempotency keys must match") ;;
  found ← query (fun d => match policy_decision_id body with
                         | Some text => if bool_decide (text = "") then latest_decision (correlation_id body) d
                                        else get_decision text d
                         | None => latest_decision (correlation_id body) d
                         end);
  decision ← some_or found (HTTPException 422 "policy decision not found");
  let body := match policy_decision_id body with
              | None => body <| policy_decision_id := Some (uuid_str (pd_id decision)) |>
              | Some _ => body
              end in
  id ← uuid4;
  let values := new_command_record id body t_record in
  existing ← query (fun d => one_where (by_idempotency_hash (cm_idempotency_hash values)) (commands d));
  match existing with
  | Some r =>
      guard_or (bool_decide (cm_request_hash r = cm_request_hash values))
        (HTTPException 409 "idempotency key conflict") ;;
      mret (_command_view true r)
  | None =>
      lift (check_decision body decision t_check) ;;
      latest ← query (latest_of body);
      guard_or (negb (stale_version body latest)) stale ;;
      let row := values <| cm_state :=
        if pd_allowed decision && is_enforced (pd_context decision) then "AUTHORIZED"
        else "POLICY_DENIED" |> in
      try_except
        (guard_or (int4 (cm_aggregate_version row)) out_of_range ;;
         insert_or "telephony_command_journal" (insert_command row) ;;
         commit ;;
         mret (_command_view false row))
        (fun e => match e with IntegrityError _ => after_conflict body row | _ => raise e end)
  end.

(** The route: the framework validates the decoded body against the clock before
    the handler runs, at every request; a validation error is answered with
    422, another exception goes through. *)
Definition post_command (value : json) (header_key : string) (t_body t_record t_check : Z) :
    M db command_view :=
  match model_validate value t_body with
  | inr body => create_command body header_key t_record t_check
  | inl (ValueError msg) => raise (HTTPException 422 msg)
  | inl e => raise e
  end.

Lemma keeps_post_command (P : db -> Prop) value key t0 t1 t2 :
  (forall body, keeps P (create_command body key t1 t2)) -> keeps P (post_command value key t0 t1 t2).
Proof.
  intros Hc. unfold post_command. destruct (model_validate value t0) as [e|body]; [|done].
  destruct e; auto with mw.
Qed.

Definition get_command (public_id : string) : M db command_view :=
  found ← query (fun d => one_where (by_public_id public_id) (commands d));
  row ← some_or found (HTTPException 404 "command not found");
  mret (_command_view false row).

(** [UPDATE] of the loaded row. *)
Definition set_command (id : uuid) (f : command_row -> command_row) (d : db) : db :=
  d <| commands ::= alter f id |>.
Definition set_operation (id : uuid) (f : operation_row -> operation_row) (d : db) : db :=
  d <| operations ::= alter f id |>.

Definition cancelled_at (now : Z) (r : command_row) : command_row :=
  r <| cm_state := "CANCELLED" |> <| cm_lease_owner := None |>
    <| cm_next_attempt_at := None |> <| cm_updated_at := now |>.

Definition cancel_command (public_id : string) (t : Z) : M db command_view :=
  found ← query (fun d => one_where (by_public_id public_id) (commands d));
  row ← some_or found (HTTPException 404 "command not found");
  guard_or (negb (str_in (cm_state row) ["SUCCEEDED"; "RECONCILED"; "FAILED_PERMANENT"]))
    (HTTPException 409 "terminal command cannot be cancelled") ;;
  execute (set_command (cm_command_id row) (cancelled_at t)) ;;
  commit ;;
  mret (_command_view false (cancelled_at t row)).

(** ** Registration of operations *)

Record OperationRegistration := mkRegistration {
  g_operation_public_id : string;
  g_command_public_id : string;
  g_adapter_service_key : string;
  g_adapter_operation_id : string;
  g_target_system : string;
  g_target_resource_type : string;
  g_target_public_id : string;
  g_desired_state_version : Z;
  g_desired_state_hash : string;
  g_idempotency_key : string;
  g_correlation_id : string;
  g_registered_at : datetime;
}.

Definition registration_binds (b : OperationRegistration) (c : command_row) : bool :=
  bool_decide (cm_correlation_id c = g_correlation_id b)
  && match dict_get (cm_payload_json c) "desired_state_version" with
     | Some (JInt v) => v =? g_desired_state_version b
     | _ => false
     end
  && str_in (removeprefix sha256_prefix
               (py_str (coalesce (dict_get (cm_payload_json c) "desired_state_hash") (JStr ""))))
       [""; removeprefix sha256_prefix (g_desired_state_hash b)].

(** The row a registration makes: the [immutable] bindings and the constants. *)
Definition registered_row (id : uuid) (b : OperationRegistration) (command_id : uuid) : operation_row :=
  mkOperationRow id (g_operation_public_id b) command_id "REGISTERED" (g_adapter_service_key b)
    (g_adapter_operation_id b) (g_target_system b) (g_target_resource_type b) (g_target_public_id b)
    (g_desired_state_version b) (payload_hash (JStr (g_idempotency_key b))) 0
    "telephony.operation.registered" "telephony.operation.readback" "pending" true
    (removeprefix sha256_prefix (g_desired_state_hash b)) None None (g_correlation_id b) (JObj []) None.

(** [all(getattr(prior, key) == value for key, value in immutable.items())] *)
Definition same_binding (o : operation_row) (b : OperationRegistration) : bool :=
  bool_decide (op_operation_public_id o = g_operation_public_id b)
  && bool_decide (op_adapter_service_key o = g_adapter_service_key b)
  && bool_decide (op_adapter_operation_id o = g_adapter_operation_id b)
  && bool_decide (op_target_system o = g_target_system b)
  && bool_decide (op_target_resource_type o = g_target_resource_type b)
  && bool_decide (op_target_public_id o = g_target_public_id b)
  && (op_desired_state_version o =? g_desired_state_version b)
  && bool_decide (op_desired_hash o = removeprefix sha256_prefix (g_desired_state_hash b))
  && bool_decide (op_correlation_id o = g_correlation_id b).

Definition register_operation (b : OperationRegistration) (choice : nat) (t : Z) :
    M db (Z * string * string) :=
  found ← query (fun d => one_where (by_public_id (g_command_public_id b)) (commands d));
  command ← some_or found (HTTPException 404 "command not found");
  guard_or (registration_binds b command) (HTTPException 409 "operation correlation binding mismatch") ;;
  prior ← query (fun d => some_where choice
    (fun o => op_by_public_id (g_operation_public_id b) o || op_of_command (cm_command_id command) o
              || bool_decide (op_idempotency_hash o = payload_hash (JStr (g_idempotency_key b))))
    (operations d));
  match prior with
  | Some o =>
      guard_or (same_binding o b) (HTTPException 409 "immutable operation binding conflict") ;;
      mret (200, op_operation_public_id o, "DUPLICATE")
  | None =>
      id ← uuid4;
      let row := registered_row id b (cm_command_id command) in
      execute (set_command (cm_command_id command)
        (fun c => c <| cm_state := "OPERATION_REGISTERED" |> <| cm_updated_at := t |>)) ;;
      guard_or (int4 (op_desired_state_version row)) out_of_range ;;
      insert_or "telephony_operation_journal" (insert_operation row) ;;
      commit ;;
      mret (201, op_operation_public_id row, "NEW")
  end.

Definition get_operation (public_id : string) : M db operation_row :=
  found ← query (fun d => one_where (op_by_public_id public_id) (operations d));
  some_or found (HTTPException 404 "operation not found").

(** ** Transitions *)

Record OperationTransition := mkTransition {
  n_command_public_id : string;
  n_state : string;
  n_target_system : string;
  n_target_resource_type : string;
  n_target_public_id : string;
  n_desired_state_version : Z;
  n_adapter_service_key : string;
  n_environment : string;
  n_correlation_id : string;
  n_transition_sequence : Z;
  n_transition_hash : string;
  n_occurred_at : datetime;
}.

Definition _TRANSITIONS (state : string) : list string :=
  coalesce (dict_get
    [("REGISTERED", ["APPLYING"; "FAILED"]);
     ("APPLYING", ["APPLIED"; "FAILED"; "COMPENSATION_REQUIRED"]);
     ("APPLIED", ["READBACK_PENDING"; "COMPENSATION_REQUIRED"]);
     ("READBACK_PENDING", ["READBACK_VERIFIED"; "READBACK_MISMATCH"; "FAILED"]);
     ("READBACK_VERIFIED", ["SUCCEEDED"]);
     ("READBACK_MISMATCH", ["COMPENSATION_REQUIRED"; "FAILED"]);
     ("COMPENSATION_REQUIRED", ["COMPENSATED"; "FAILED"])] state) [].

(** [body.model_dump(mode="json", exclude={"transition_hash"})] *)
Definition transition_binding (b : OperationTransition) : json :=
  JObj [("schema_version", JStr "1.0");
        ("command_public_id", JStr (n_command_public_id b));
        ("state", JStr (n_state b));
        ("target_system", JStr (n_target_system b));
        ("target_resource_type", JStr (n_target_resource_type b));
        ("target_public_id", JStr (n_target_public_id b));
        ("desired_state_version", JInt (n_desired_state_version b));
        ("adapter_service_key", JStr (n_adapter_service_key b));
        ("environment", JStr (n_environment b));
        ("correlation_id", JStr (n_correlation_id b));
        ("transition_sequence", JInt (n_transition_sequence b));
        ("occurred_at", JStr (dump_datetime (n_occurred_at b)))].

Definition transition_binds (b : OperationTransition) (o : operation_row) (c : option command_row) : bool :=
  match c with
  | None => false
  | Some c =>
      bool_decide (cm_command_public_id c = n_command_public_id b)
      && bool_decide (cm_environment c = n_environment b)
      && bool_decide (op_correlation_id o = n_correlation_id b)
      && bool_decide (op_target_system o = n_target_system b)
      && bool_decide (op_target_resource_type o = n_target_resource_type b)
      && bool_decide (op_target_public_id o = n_target_public_id b)
      && (op_desired_state_version o =? n_desired_state_version b)
      && bool_decide (op_adapter_service_key o = n_adapter_service_key b)
      && bool_decide (payload_hash (transition_binding b) = removeprefix sha256_prefix (n_transition_hash b))
  end.

Definition transitioned (b : OperationTransition) (t : Z) (o : operation_row) : operation_row :=
  let o := o <| op_state := n_state b |> <| op_transition_sequence := n_transition_sequence b |> in
  if str_in (n_state b) ["SUCCEEDED"; "FAILED"; "COMPENSATED"] then o <| op_completed_at := Some t |>
  else o.

Definition transition_operation (public_id : string) (b : OperationTransition) (choice : nat) (t : Z) :
    M db (string * string * string) :=
  found ← query (fun d => one_where (op_by_public_id public_id) (operations d));
  row ← some_or found (HTTPException 404 "operation not found");
  command ← query (fun d => commands d !! op_command_id row);
  guard_or (transition_binds b row command) (HTTPException 409 "operation transition binding mismatch") ;;
  let hash := removeprefix sha256_prefix (n_transition_hash b) in
  prior ← query (fun d => some_where choice
    (fun x => bool_decide (tr_operation_id x = op_operation_id row)
              && ((tr_sequence x =? n_transition_sequence b) || bool_decide (tr_transition_hash x = hash)))
    (transitions d));
  match prior with
  | Some p =>
      guard_or (json_eqb (tr_binding_json p) (transition_binding b))
        (HTTPException 409 "conflicting operation transition") ;;
      mret (op_operation_public_id row, tr_to_state p, "DUPLICATE")
  | None =>
      guard_or (n_transition_sequence b =? op_transition_sequence row + 1)
        (HTTPException 409 "out-of-order operation transition") ;;
      guard_or (str_in (n_state b) (_TRANSITIONS (op_state row)))
        (HTTPException 409 "invalid operation transition") ;;
      id ← uuid4;
      guard_or (int4 (n_transition_sequence b)) out_of_range ;;
      insert_or "telephony_operation_transition" (fun d =>
        insert_transition id (mkTransitionRow (op_operation_id row) (op_command_id row)
           (n_transition_sequence b) (op_state row) (n_state b) hash (transition_binding b)
           (n_occurred_at b))
        (set_operation (op_operation_id row) (transitioned b t) d)) ;;
      commit ;;
      mret (op_operation_public_id row, n_state b, "NEW")
  end.

(** ** Terminal results *)

Record TerminalResultRequest := mkTerminalResult {
  f_result_public_id : string;
  f_operation_public_id : string;
  f_command_public_id : string;
  f_target_system : string;
  f_target_resource_type : string;
  f_target_public_id : string;
  f_application_status : string;
  f_readback_status : string;
  f_requested_state_version : Z;
  f_applied_state_version : Z;
  f_observed_state_version : Z;
  f_result_hash : string;
  f_application_hash : string;
  f_readback_hash : string;
  f_adapter_service_key : string;
  f_adapter_configuration_checksum : string;
  f_applied_at : datetime;
  f_readback_at : datetime;
  f_safe_summary : string;
  f_policy_hash : string;
  f_correlation_id : string;
}.

(** [body.model_dump(mode="json")] *)
Definition result_dump (b : TerminalResultRequest) : json :=
  JObj [("schema_version", JStr "1.0");
        ("result_public_id", JStr (f_result_public_id b));
        ("operation_public_id", JStr (f_operation_public_id b));
        ("command_public_id", JStr (f_command_public_id b));
        ("target_system", JStr (f_target_system b));
        ("target_resource_type", JStr (f_target_resource_type b));
        ("target_public_id", JStr (f_target_public_id b));
        ("application_status", JStr (f_application_status b));
        ("readback_status", JStr (f_readback_status b));
        ("requested_state_version", JInt (f_requested_state_version b));
        ("applied_state_version", JInt (f_applied_state_version b));
        ("observed_state_version", JInt (f_observed_state_version b));
        ("result_hash", JStr (f_result_hash b));
        ("application_hash", JStr (f_application_hash b));
        ("readback_hash", JStr (f_readback_hash b));
        ("adapter_service_key", JStr (f_adapter_service_key b));
        ("adapter_configuration_checksum", JStr (f_adapter_configuration_checksum b));
        ("applied_at", JStr (dump_datetime (f_applied_at b)));
        ("readback_at", JStr (dump_datetime (f_readback_at b)));
        ("safe_summary", JStr (f_safe_summary b));
        ("policy_hash", JStr (f_policy_hash b));
        ("correlation_id", JStr (f_correlation_id b))].

(** [row.immutable_json[key]] of a stored text *)
Definition immutable_text (r : result_row) (key : string) : string :=
  match json_get key (rs_immutable_json r) with Some (JStr s) => s | _ => "" end.

Record result_view := mkResultView {
  w_result_public_id : string;
  w_operation_public_id : string;
  w_command_public_id : string;
  w_application_status : string;
  w_readback_status : string;
  w_reconciliation_status : string;
  w_correlation_id : string;
  w_idempotency_status : string;
}.
Definition _result_view (r : result_row) (duplicate : bool) : result_view :=
  mkResultView (rs_result_public_id r) (immutable_text r "operation_public_id")
    (immutable_text r "command_public_id") (rs_application_status r) (rs_readback_status r)
    (rs_reconciliation_status r) (rs_correlation_id r) (if duplicate then "DUPLICATE" else "NEW").

Definition result_binds (b : TerminalResultRequest) (o : option operation_row) (c : option command_row) :
    bool :=
  match o, c with
  | Some o, Some c =>
      bool_decide (op_command_id o = cm_command_id c)
      && bool_decide (cm_correlation_id c = f_correlation_id b)
      && bool_decide (cm_policy_decision_hash c = removeprefix sha256_prefix (f_policy_hash b))
      && bool_decide (op_target_system o = f_target_system b)
      && bool_decide (op_target_resource_type o = f_target_resource_type b)
      && bool_decide (op_target_public_id o = f_target_public_id b)
      && (op_desired_state_version o =? f_requested_state_version b)
      && bool_decide (op_adapter_service_key o = f_adapter_service_key b)
  | _, _ => false
  end.

Definition result_of (b : TerminalResultRequest) (operation_id command_id : uuid) : result_row :=
  let bare := removeprefix sha256_prefix in
  mkResultRow (f_result_public_id b) operation_id command_id (bare (f_result_hash b))
    (bare (f_application_hash b)) (bare (f_readback_hash b)) (bare (f_policy_hash b))
    (f_target_system b) (f_target_resource_type b) (f_target_public_id b)
    (f_requested_state_version b) (f_applied_state_version b) (f_observed_state_version b)
    (f_application_status b) (f_readback_status b) (f_adapter_service_key b)
    (f_adapter_configuration_checksum b) (f_safe_summary b) (f_applied_at b) (f_readback_at b)
    "PENDING" (f_application_status b)
    (if bool_decide (f_readback_status b = "READBACK_VERIFIED") then "IN_SYNC"
     else "RECONCILIATION_REQUIRED")
    (f_correlation_id b) (result_dump b).

Definition by_result_id (id : string) (r : result_row) : bool := bool_decide (rs_result_public_id r = id).

Definition create_terminal_result (b : TerminalResultRequest) : M db result_view :=
  prior ← query (fun d => one_where (by_result_id (f_result_public_id b)) (results d));
  match prior with
  | Some r =>
      guard_or (json_eqb (rs_immutable_json r) (result_dump b))
        (HTTPException 409 "IMMUTABLE_RESULT_BINDING_CONFLICT") ;;
      mret (_result_view r true)
  | None =>
      operation ← query (fun d => one_where (op_by_public_id (f_operation_public_id b)) (operations d));
      command ← query (fun d => one_where (by_public_id (f_command_public_id b)) (commands d));
      match operation, command with
      | Some o, Some c =>
          guard_or (result_binds b (Some o) (Some c)) (HTTPException 409 "terminal result binding mismatch") ;;
          id ← uuid4;
          let row := result_of b (op_operation_id o) (cm_command_id c) in
          execute (set_operation (op_operation_id o) (fun o => o <| op_state :=
            if bool_decide (f_readback_status b = "READBACK_VERIFIED") then "ODOO_RESULT_PENDING"
            else "READBACK_MISMATCH" |>)) ;;
          guard_or (int4 (f_requested_state_version b) && int4 (f_applied_state_version b)
                    && int4 (f_observed_state_version b)) out_of_range ;;
          insert_or "telephony_terminal_result" (insert_result id row) ;;
          commit ;;
          mret (_result_view row false)
      | _, _ => raise (HTTPException 409 "terminal result binding mismatch")
      end
  end.

Definition get_terminal_result (public_id : string) : M db result_view :=
  found ← query (fun d => one_where (by_result_id public_id) (results d));
  row ← some_or found (HTTPException 404 "result not found");
  mret (_result_view row false).

(** ** Reconciliation runs *)

Record ReconciliationRunRequest := mkRunRequest {
  (** [None] when not given: the default is drawn *)
  u_run_public_id : option string;
  u_command_public_id : option string;
  u_environment : string;
  u_aggregate_type : string;
  u_aggregate_public_id : string;
  u_target_system : string;
  u_classification : string;
  u_correlation_id : string;
  u_evidence : list (string * json);
}.

(** [uuid4().hex] *)
Definition uuid_hex (u : uuid) : string := hex 32 u.

Definition create_reconciliation_run (b : ReconciliationRunRequest) : M db (string * string * string) :=
  default ← uuid4;
  let run_public_id := coalesce (u_run_public_id b) ("REC-" +:+ uuid_hex default) in
  prior ← query (fun d => one_where (fun r => bool_decide (rr_run_public_id r = run_public_id)) (runs d));
  match prior with
  | Some r => mret (rr_run_public_id r, rr_status r, "DUPLICATE")
  | None =>
      command_id ←
        (if filled (u_command_public_id b) then
           found ← query (fun d => one_where (by_public_id (coalesce (u_command_public_id b) "")) (commands d));
           c ← some_or found (HTTPException 404 "command not found");
           mret (Some (cm_command_id c))
         else mret None);
      id ← uuid4;
      insert_or "telephony_reconciliation_run"
        (insert_run id (mkRunRow run_public_id command_id (u_environment b) (u_aggregate_type b)
           (u_aggregate_public_id b) (u_target_system b) "REQUESTED" (u_classification b)
           (u_correlation_id b) (u_evidence b))) ;;
      commit ;;
      mret (run_public_id, "REQUESTED", "NEW")
  end.

Definition get_reconciliation_run (public_id : string) : M db run_row :=
  found ← query (fun d => one_where (fun r => bool_decide (rr_run_public_id r = public_id)) (runs d));
  some_or found (HTTPException 404 "reconciliation run not found").

(** ** Delivery of a result to Odoo

    [deliver_telephony_result] works in two transactions with the calls of the
    Odoo client between them: [begin_delivery] loads the rows and marks the
    result, [finish_delivery] writes what the answers say. *)

Definition OdooTelephonyResultError (msg : string) : exn := RuntimeError msg.

Record delivery := mkDelivery {
  dl_result_id : uuid;
  dl_result : result_row;
  dl_operation : operation_row;
  dl_command : command_row;
}.

Definition result_entry (public_id : string) (d : db) : option (uuid * result_row) :=
  List.find (fun kv => by_result_id public_id kv.2) (map_to_list (results d)).

(** [not request.get(key)] of the stored request *)
Definition request_text (c : command_row) (key : string) : bool :=
  from_option json_truthy false (json_get key (cm_request_json c)).

Definition set_result (id : uuid) (f : result_row -> result_row) (d : db) : db :=
  d <| results ::= alter f id |>.

Definition begin_delivery (public_id : string) : M db delivery :=
  found ← query (result_entry public_id);
  '(id, result) ← some_or found (OdooTelephonyResultError "telephony result not found");
  operation ← query (fun d => operations d !! rs_operation_id result);
  command ← query (fun d => commands d !! rs_command_id result);
  match operation, command with
  | Some o, Some c =>
      guard_or (request_text c "originating_outbox_public_id" && request_text c "event_id")
        (OdooTelephonyResultError "originating Odoo binding is incomplete") ;;
      guard_or (negb (is_null (dict_get (cm_payload_json c) "allocation_reservation_id")))
        (LookupError "allocation_reservation_id") ;;
      execute (set_result id (fun r => r <| rs_odoo_callback_status := "SUBMITTING" |>)) ;;
      commit ;;
      mret (mkDelivery id result o c)
  | _, _ => raise (OdooTelephonyResultError "telephony result source binding is incomplete")
  end.

(** [request.get(key, default)] of the stored request *)
Definition request_get (c : command_row) (key : string) (default : json) : json :=
  coalesce (json_get key (cm_request_json c)) default.

(** The body of the callback. *)
Definition delivery_body (dl : delivery) : json :=
  let r := dl_result dl in
  let c := dl_command dl in
  JObj [("schema_version", JStr "1.0");
        ("result_public_id", JStr (rs_result_public_id r));
        ("originating_outbox_public_id", request_get c "originating_outbox_public_id" JNull);
        ("event_id", request_get c "event_id" JNull);
        ("command_id", JStr (cm_command_public_id c));
        ("operation_public_id", JStr (op_operation_public_id (dl_operation dl)));
        ("adapter_result_id", JStr (rs_result_public_id r));
        ("correlation_id", JStr (rs_correlation_id r));
        ("environment", JStr (cm_environment c));
        ("organization_public_id", request_get c "organization_public_id" (JStr ""));
        ("business_unit_public_id", JStr (cm_business_unit_public_id c));
        ("campaign_public_id", JStr (cm_campaign_public_id c));
        ("result_domain", JStr "TELEPHONY");
        ("target_system", JStr (rs_target_system r));
        ("target_resource_type", JStr (rs_target_resource_type r));
        ("target_public_id", JStr (rs_target_public_id r));
        ("allocation_reservation_id",
          coalesce (dict_get (cm_payload_json c) "allocation_reservation_id") JNull);
        ("requested_state_version", JInt (rs_requested_state_version r));
        ("applied_state_version", JInt (rs_applied_state_version r));
        ("observed_state_version", JInt (rs_observed_state_version r));
        ("application_status", JStr (rs_application_status r));
        ("readback_status", JStr (rs_readback_status r));
        ("application_hash", JStr (sha256_prefix +:+ rs_application_hash r));
        ("readback_hash", JStr (sha256_prefix +:+ rs_readback_hash r));
        ("result_hash", JStr (sha256_prefix +:+ rs_result_hash r));
        ("policy_hash", JStr (sha256_prefix +:+ rs_policy_hash r));
        ("applied_at", JStr (isoformat (rs_applied_at r)));
        ("readback_at", JStr (isoformat (rs_readback_at r)));
        ("payload", JObj [("safe_summary", JStr (rs_safe_summary r))])].

Record request_kwargs := mkKwargs {
  k_idempotency_key : string;
  k_request_id : string;
  k_correlation_id : string;
  k_causation_id : string;
  k_traceparent : string;
}.
Definition _request_kwargs (r : result_row) (c : command_row) (drawn : uuid) : request_kwargs :=
  mkKwargs
    (stable_result_idempotency_key (cm_command_public_id c) (immutable_text r "operation_public_id")
       (rs_target_public_id r) (rs_observed_state_version r) (rs_result_hash r))
    ("REQ-" +:+ uuid_str drawn) (rs_correlation_id r) (rs_result_public_id r)
    ("00-" +:+ ascii_prefix 32 (rs_result_hash r) +:+ "-"
     +:+ ascii_prefix 16 (rs_application_hash r) +:+ "-01").

(** The answer to a call of the client. *)
Inductive answer :=
  | Timeout
  | Failure (e : exn)
  | Response (status : Z) (body : json).

(** The calls of one delivery: the answer to an operation with its payload. *)
Definition odoo_client := request_kwargs -> string -> json -> answer.

(** A call that must answer; [TimeoutException] is not caught here. *)
Definition answered (a : answer) : exn + (Z * json) :=
  match a with
  | Timeout => inl (RuntimeError "timeout")
  | Failure e => inl e
  | Response status body => inr (status, body)
  end.

(** [value.get(key)] of a decoded answer, which has to be an object *)
Definition answer_get (key : string) (v : json) : exn + json :=
  match v with
  | JObj m => inr (coalesce (dict_get m key) JNull)
  | _ => inl (TypeError "object has no attribute get")
  end.

(** [value == n] of a decoded number and a column *)
Definition equals_int (v : json) (n : Z) : bool :=
  match v with
  | JInt z => z =? n
  | JBool b => (if b then 1 else 0) =? n
  | JFloat r => bool_decide (r = str_of_Z n +:+ ".0")
  | _ => false
  end.

Definition read_one (client : string -> json -> answer) (operation : string) (payload : json) : exn + json :=
  '(status, body) ← answered (client operation payload);
  check (status =? 200) (OdooTelephonyResultError ("Odoo " +:+ operation +:+ " readback failed")) ;;
  mret body.

(** The calls after the first commit, up to the comparison: [true] when the
    projection and the mapping agree with the result. *)
Definition odoo_exchange (odoo : odoo_client) (dl : delivery) (drawn : uuid) : exn + bool :=
  let r := dl_result dl in
  let client := odoo (_request_kwargs r (dl_command dl) drawn) in
  let body := delivery_body dl in
  let ask := JObj [("result_public_id", JStr (rs_result_public_id r))] in
  '(status, accepted) ← (match client "results.create" body with
                         | Timeout => answered (client "results.read" ask)
                         | a => answered a
                         end);
  check (bool_decide (status ∈ [200; 201; 202])) (OdooTelephonyResultError "Odoo result callback failed") ;;
  echoed ← answer_get "result_public_id" accepted;
  check (is_str echoed (rs_result_public_id r))
    (OdooTelephonyResultError "Odoo result callback binding mismatch") ;;
  _ ← read_one client "results.read" ask;
  projection ← read_one client "telephony.projections.read"
    (JObj [("agent_public_id", JStr (cm_aggregate_public_id (dl_command dl)))]);
  mapping ← read_one client "telephony.mappings.read"
    (JObj [("target_public_id", JStr (rs_target_public_id r))]);
  _ ← read_one client "traces.read" (JObj [("correlation_id", JStr (rs_correlation_id r))]);
  drift ← answer_get "reconciliation_drift_public_id" projection;
  (if json_truthy drift then
     '(status, _) ← answered (client "reconciliation.drifts.read" (JObj [("drift_public_id", drift)]));
     check (status =? 200) (OdooTelephonyResultError "Odoo reconciliation drift readback failed")
   else mret tt) ;;
  version ← answer_get "observed_state_version" projection;
  if negb (equals_int version (rs_observed_state_version r)) then mret false
  else
    hash ← answer_get "observed_state_hash" projection;
    check (py_hashable hash) (TypeError "unhashable type") ;;
    if negb (is_str hash (rs_readback_hash r) || is_str hash (sha256_prefix +:+ rs_readback_hash r))
    then mret false
    else
      target ← answer_get "target_public_id" mapping;
      mret (is_str target (rs_target_public_id r)).

(** The second transaction; an attribute set to the value it was loaded with is
    not written. *)
Definition finish_delivery (dl : delivery) (agrees : bool) : M db unit :=
  let state := if agrees then "SUCCEEDED" else "READBACK_MISMATCH" in
  let command_state := if agrees then "RECONCILED" else "RECONCILIATION_REQUIRED" in
  execute (set_result (dl_result_id dl) (fun r => r <| rs_odoo_callback_status :=
    if agrees then "DELIVERED" else "RECONCILIATION_REQUIRED" |>)) ;;
  (if bool_decide (op_state (dl_operation dl) = state) then mret tt
   else execute (set_operation (op_operation_id (dl_operation dl)) (fun o => o <| op_state := state |>))) ;;
  (if bool_decide (cm_state (dl_command dl) = command_state) then mret tt
   else execute (set_command (cm_command_id (dl_command dl)) (fun c => c <| cm_state := command_state |>))) ;;
  commit ;;
  guard_or agrees (OdooTelephonyResultError "Odoo projection readback mismatch").
End api.
End TelephonyApi.
