(* ===== verification/TelephonyClient.v ===== *)
(** * Telephony commands: the adapter client ([src/app/adapters/telephony/client.py])

    [TelephonyServiceClient] and [RegistryTargetAttestor] as functions of what
    the endpoint registry resolves and of what the adapter answers. *)

From Stdlib Require Import Ascii.
From S2P Require Import Prelude PyText PyTime Sha256 Txn PyUnicode TelephonyContracts TelephonyTables.
Import TelephonyContracts TelephonyTables.
Local Open Scope string_scope.
Local Open Scope Z_scope.

Module TelephonyClient.

(** The exceptions the worker tells apart; [TelephonyReadbackPending] is a
    [TelephonyClientError]. *)
Inductive failure :=
  | TelephonyReadbackPending (msg : string)
  | TelephonyClientError (msg : string)
  | HTTPStatusError (status : Z)
  | OtherError (e : exn).

#[export] Instance failure_ret : MRet (sum failure) := fun _ a => inr a.
#[export] Instance failure_bind : MBind (sum failure) := fun _ _ k m =>
  match m with inl e => inl e | inr a => k a end.
Definition require (b : bool) (e : failure) : failure + unit := if b then inr tt else inl e.

Lemma require_ok b e : require b e = inr tt <-> b = true.
Proof. by destruct b. Qed.
Lemma require_bind_ok {B} b e (k : failure + B) r :
  (require b e ;; k) = inr r <-> b = true /\ k = inr r.
Proof. destruct b; cbn; naive_solver. Qed.
Lemma failure_bind_ok {A B} (m : failure + A) (k : A -> failure + B) b :
  (m ≫= k) = inr b <-> exists a, m = inr a /\ k a = inr b.
Proof. destruct m; cbn; naive_solver. Qed.

(** The outcome of one HTTP request; the body is [None] when it is no JSON. *)
Inductive http_answer :=
  | HttpTimeout
  | HttpFailure (e : failure)
  | HttpResponse (status : Z) (body : option json).

(** [response.raise_for_status(); response.json()] *)
Definition success_json (status : Z) (body : option json) : failure + json :=
  require ((200 <=? status) && (status <=? 299)) (HTTPStatusError status) ;;
  match body with
  | Some v => inr v
  | None => inl (OtherError (ValueError "JSONDecodeError"))
  end.

(** The fields of a resolved route that the client reads. *)
Record ResolvedEndpoint := mkRoute {
  rt_endpoint_id : string;
  rt_endpoint_version_id : string;
  rt_service_key : string;
  rt_endpoint_key : string;
  rt_method : string;
  rt_base_url : string;
  rt_path : string;
  rt_target_attestation_required : bool;
  rt_configuration_checksum : string;
}.

Record ResolutionRequest := mkResolution {
  rq_environment : string;
  rq_service_key : string;
  rq_endpoint_key : string;
  rq_business_unit_public_id : string;
  rq_campaign_public_id : string;
  rq_mutation : bool;
}.

(** What [dispatch] returns, and what the worker rebuilds from the journal; the
    last four are only there for a new submission. *)
Record operation := mkOperation {
  o_operation_public_id : string;
  o_adapter_operation_id : string;
  o_endpoint_key : string;
  o_readback_endpoint_key : string;
  o_target_configuration_checksum : string;
  o_target_attested : bool;
  o_desired_hash : string;
  o_adapter_service_key : string;
  o_endpoint_id : string;
  o_endpoint_version_id : string;
  o_ambiguous : bool;
}.

Record readback_result := mkReadback {
  b_actual : list (string * json);
  b_normalized_actual : list (string * json);
  b_actual_hash : string;
  b_readback_matches : bool;
}.

Section client.
Context `{CommandModels}.

Definition _route (c : TelephonyCommandRequest) (endpoint_key : string) (mutation : bool) :
    ResolutionRequest :=
  mkResolution (environment c) "telephony-adapter" endpoint_key (business_unit_public_id c)
    (campaign_public_id c) mutation.

Definition command_name (c : TelephonyCommandRequest) (command_id : string) : string :=
  py_or (command_public_id c) command_id.

Definition submission_key (name endpoint_id version_id : string) : string :=
  payload_hash (JObj [("command_public_id", JStr name); ("resolved_endpoint_id", JStr endpoint_id);
                      ("endpoint_configuration_version", JStr version_id)]).

(** The idempotency key of the request that submits the command. *)
Definition dispatch_key (c : TelephonyCommandRequest) (command_id : string) (route : ResolvedEndpoint) :
    string :=
  submission_key (command_name c command_id) (rt_endpoint_id route) (rt_endpoint_version_id route).

Definition dispatch_body (c : TelephonyCommandRequest) (command_id : string) : json :=
  match model_dump c with
  | JObj members => JObj (("command_id", JStr command_id) :: members)
  | v => v
  end.

Definition submitted (c : TelephonyCommandRequest) (route : ResolvedEndpoint)
    (public_id adapter_id : string) (ambiguous : bool) : operation :=
  mkOperation public_id adapter_id (MUTATION_ENDPOINTS (command_type c))
    (READBACK_ENDPOINTS (command_type c)) (rt_configuration_checksum route) true
    (payload_hash (JObj (desired_state c))) (rt_service_key route) (rt_endpoint_id route)
    (rt_endpoint_version_id route) ambiguous.

(** [resolve] and [attest] are asked first; [send] posts the body under the
    idempotency key. *)
Definition dispatch (command_id : string) (c : TelephonyCommandRequest)
    (resolve : ResolutionRequest -> failure + ResolvedEndpoint)
    (attest : ResolvedEndpoint -> string -> failure + bool)
    (send : ResolvedEndpoint -> json -> string -> http_answer) : failure + operation :=
  let endpoint_key := MUTATION_ENDPOINTS (command_type c) in
  route ← resolve (_route c endpoint_key true);
  require (rt_target_attestation_required route)
    (TelephonyClientError "telephony mutation route must require attestation") ;;
  attested ← attest route endpoint_key;
  require attested (TelephonyClientError "telephony target attestation failed") ;;
  let key := dispatch_key c command_id route in
  match send route (dispatch_body c command_id) key with
  | HttpTimeout => inr (submitted c route ("OPR-" +:+ ascii_prefix 32 key) key true)
  | HttpFailure e => inl e
  | HttpResponse status body =>
      result ← success_json status body;
      let acknowledged :=
        match result with JObj m => coalesce (dict_get m "operation_id") JNull | _ => JNull end in
      require (json_truthy acknowledged)
        (TelephonyClientError "invalid telephony operation acknowledgement") ;;
      let adapter_id := py_str acknowledged in
      require (py_len adapter_id <=? 144) (TelephonyClientError "telephony operation ID is invalid") ;;
      let public_id := "OPR-" +:+ ascii_prefix 32
        (payload_hash (JObj [("command_public_id", JStr (command_name c command_id));
                             ("adapter_operation_id", JStr adapter_id)])) in
      inr (submitted c route public_id adapter_id false)
  end.

Definition readback_body (c : TelephonyCommandRequest) (o : operation) : json :=
  JObj [("operation_id", JStr (o_operation_public_id o));
        ("aggregate_public_id", JStr (aggregate_public_id c));
        ("allocation_reservation_id", JStr (allocation_reservation_id (payload c)))].

(** [request] resolves the route and posts the body; a timeout is raised. *)
Definition readback (c : TelephonyCommandRequest) (o : operation)
    (request : ResolutionRequest -> json -> http_answer) : failure + readback_result :=
  match request (_route c (READBACK_ENDPOINTS (command_type c)) false) (readback_body c o) with
  | HttpTimeout => inl (OtherError (RuntimeError "timeout"))
  | HttpFailure e => inl e
  | HttpResponse status body =>
      require (negb (status =? 404))
        (TelephonyReadbackPending "acknowledged telephony operation is not yet visible") ;;
      value ← success_json status body;
      match value with
      | JObj actual =>
          match normalized_actual_state c actual with
          | inl (ValueError msg) => inl (TelephonyClientError msg)
          | inl e => inl (OtherError e)
          | inr normalized =>
              let actual_hash := payload_hash (JObj normalized) in
              inr (mkReadback actual normalized actual_hash
                     (bool_decide (actual_hash = o_desired_hash o)))
          end
      | _ => inl (TelephonyClientError "invalid telephony readback")
      end
  end.

(** ** The attestation of a route *)

Definition route_identity_hash (route : ResolvedEndpoint) : string :=
  payload_hash (JObj
    [("service_key", JStr (rt_service_key route));
     ("endpoint_key", JStr (rt_endpoint_key route));
     ("endpoint_id", JStr (rt_endpoint_id route));
     ("endpoint_version_id", JStr (rt_endpoint_version_id route));
     ("configuration_checksum", JStr (rt_configuration_checksum route));
     ("method", JStr (rt_method route));
     ("base_url_hash", JStr (payload_hash (JStr (rt_base_url route))));
     ("path_hash", JStr (payload_hash (JStr (rt_path route))))]).

(** [value.get(key) == text] *)
Definition member_is (v : json) (key text : string) : bool :=
  from_option (fun x => is_str x text) false (json_get key v).

Definition attest (route : ResolvedEndpoint) (environment endpoint_key configuration_checksum : string)
    (request : ResolutionRequest -> json -> http_answer) : failure + bool :=
  let identity := route_identity_hash route in
  match request
          (mkResolution environment "telephony-adapter" "telephony.service.attest" "" "" false)
          (JObj [("endpoint_key", JStr endpoint_key);
                 ("configuration_checksum", JStr configuration_checksum);
                 ("endpoint_version_id", JStr (rt_endpoint_version_id route));
                 ("route_identity_hash", JStr identity)]) with
  | HttpTimeout => inl (OtherError (RuntimeError "timeout"))
  | HttpFailure e => inl e
  | HttpResponse status body =>
      value ← success_json status body;
      inr (member_is value "service_key" "telephony-adapter"
           && member_is value "endpoint_key" endpoint_key
           && member_is value "configuration_checksum" configuration_checksum
           && member_is value "endpoint_version_id" (rt_endpoint_version_id route)
           && member_is value "route_identity_hash" identity)
  end.
End client.
End TelephonyClient.
