(* ===== verification/TelephonyWorker.v ===== *)
(** * Telephony commands: the worker ([src/app/workers/telephony_commands.py])

    The transactions of the worker as programs over the journals, and
    [dispatch_one] as a machine that takes one transaction or one call of the
    adapter at a time, so that other workers and the API run in between. *)

From Stdlib Require Import Ascii.
From S2P Require Import Prelude PyText PyTime Sha256 Txn PyUnicode TelephonyContracts TelephonyTables TelephonyApi TelephonyClient.
Import TelephonyContracts TelephonyTables TelephonyApi TelephonyClient.
Local Open Scope string_scope.
Local Open Scope Z_scope.

Module TelephonyWorker.

Definition LEASE_SECONDS : Z := 120.
Definition HEARTBEAT_SECONDS : Z := 20.
Definition MAX_ATTEMPTS : Z := 8.

(** ** Claims and leases *)

Definition claimable (env : string) (now : Z) (c : command_row) : bool :=
  bool_decide (cm_environment c = env)
  && (str_in (cm_state c) ["AUTHORIZED"; "FAILED_TRANSIENT"; "READBACK_PENDING"]
      && (is_null (cm_next_attempt_at c) || null_le (cm_next_attempt_at c) now)
      || bool_decide (cm_state c = "SUBMITTING") && null_le (cm_next_attempt_at c) now).

(** The oldest claimable row that no other transaction has [locked]; rows of the
    same age come in any order. *)
Definition next_claim (env : string) (locked : uuid -> bool) (now : Z) (d : db) : option command_row :=
  head (sort_by (fun a b => cm_created_at a <=? cm_created_at b)
    (select_where (fun c => claimable env now c && negb (locked (cm_command_id c))) (commands d))).

Definition claimed_by (owner : string) (now : Z) (c : command_row) : command_row :=
  c <| cm_state := "SUBMITTING" |> <| cm_attempt_count ::= Z.succ |> <| cm_lease_owner := Some owner |>
    <| cm_next_attempt_at := Some (now + seconds LEASE_SECONDS) |> <| cm_updated_at := now |>.

Definition claim_authorized (env : string) (locked : uuid -> bool) (now : Z) :
    M db (option (uuid * string)) :=
  found ← query (next_claim env locked now);
  match found with
  | None => mret None
  | Some row =>
      drawn ← uuid4;
      let owner := uuid_hex drawn in
      execute (set_command (cm_command_id row) (claimed_by owner now)) ;;
      commit ;;
      mret (Some (cm_command_id row, owner))
  end.

(** [row is not None and row.state == SUBMITTING and row.lease_owner == owner] *)
Definition holds_lease (owner : string) (c : option command_row) : bool :=
  match c with
  | Some c => bool_decide (cm_state c = "SUBMITTING") && bool_decide (cm_lease_owner c = Some owner)
  | None => false
  end.

(** One turn of the heartbeat; [false] when the task returns. *)
Definition _renew_lease (command_id : uuid) (owner : string) (t_lease t_update : Z) : M db bool :=
  row ← query (fun d => commands d !! command_id);
  if holds_lease owner row then
    execute (set_command command_id (fun c =>
      c <| cm_next_attempt_at := Some (t_lease + seconds LEASE_SECONDS) |>
        <| cm_updated_at := t_update |>)) ;;
    commit ;;
    mret true
  else mret false.

(** How the heartbeat task ended. *)
Inductive heartbeat_end := Stopped | Cancelled | Raised (f : failure).

(** The external work against the lease guard: the result of the work when it
    is there at the first wake-up, else what the guard raises. *)
Definition _run_while_lease {A} (work : option (failure + A)) (heartbeat : heartbeat_end) : failure + A :=
  match work with
  | Some r => r
  | None =>
      match heartbeat with
      | Stopped => inl (OtherError (RuntimeError "telephony command lease renewal stopped"))
      | Cancelled => inl (OtherError (RuntimeError "telephony command lease renewal was cancelled"))
      | Raised f => inl f
      end
  end.

(** ** Failures *)

Definition _permanent (f : failure) : bool :=
  match f with
  | TelephonyReadbackPending _ => false
  | TelephonyClientError _ => true
  | HTTPStatusError status =>
      (400 <=? status) && (status <? 500) && negb (bool_decide (status ∈ [408; 409; 425; 429]))
  | OtherError _ => false
  end.

Definition backoff_seconds (attempt_count : Z) : Z := Z.min 300 (2 ^ Z.min attempt_count 8).

Definition failed_row (f : failure) (t_next t_update : Z) (c : command_row) : command_row :=
  let permanent := _permanent f || (MAX_ATTEMPTS <=? cm_attempt_count c) in
  c <| cm_state := if permanent then "FAILED_PERMANENT" else "FAILED_TRANSIENT" |>
    <| cm_next_attempt_at :=
         if permanent then None else Some (t_next + seconds (backoff_seconds (cm_attempt_count c))) |>
    <| cm_lease_owner := None |> <| cm_updated_at := t_update |>.

Definition _record_failure (command_id : uuid) (owner : string) (f : failure) (t_next t_update : Z) :
    M db unit :=
  row ← query (fun d => commands d !! command_id);
  if holds_lease owner row then
    execute (set_command command_id (failed_row f t_next t_update)) ;;
    commit
  else mret tt.

Section worker.
Context `{CommandModels}.

Definition _validate_policy_for_dispatch (c : TelephonyCommandRequest) (decision : option decision_row)
    (now : Z) : failure + unit :=
  match decision with
  | None => inl (TelephonyClientError "telephony policy decision is unavailable")
  | Some decision =>
      require (bool_decide (pd_correlation_id decision = correlation_id c))
        (TelephonyClientError "telephony policy correlation changed") ;;
      require (bool_decide (payload_hash (JObj (pd_context decision)) = policy_decision_hash c))
        (TelephonyClientError "telephony policy decision changed") ;;
      require (scope_matches (dict_get (pd_context decision) "authorization_scope") (policy_scope c))
        (TelephonyClientError "telephony policy scope changed") ;;
      require (pd_allowed decision && is_enforced (pd_context decision))
        (TelephonyClientError "telephony policy no longer authorizes dispatch") ;;
      match dict_get (pd_context decision) "expiration" with
      | Some (JStr expiration) =>
          match fromisoformat expiration with
          | None => inl (TelephonyClientError "telephony policy expiration is invalid")
          | Some expires =>
              require (aware expires && (now <? instant expires))
                (TelephonyClientError "telephony policy authorization expired")
          end
      | _ => inl (TelephonyClientError "telephony policy expiration is invalid")
      end
  end.

(** ** The journal of submissions *)

Definition resource_type (c : TelephonyCommandRequest) : string :=
  if filled (endpoint_public_id (payload c)) then "ENDPOINT"
  else if filled (phone_public_id (payload c)) then "PHONE" else "USER".

Definition submission_row (id command_id : uuid) (c : TelephonyCommandRequest) (o : operation) :
    operation_row :=
  mkOperationRow id (o_operation_public_id o) command_id
    (if o_ambiguous o then "AMBIGUOUS" else "SUBMITTED") (o_adapter_service_key o)
    (o_adapter_operation_id o) (target_system c) (resource_type c) (target_public_id c)
    (desired_state_version (payload c))
    (submission_key (command_name c (uuid_str command_id)) (o_endpoint_id o) (o_endpoint_version_id o))
    0 (o_endpoint_key o) (o_readback_endpoint_key o) (o_target_configuration_checksum o)
    (o_target_attested o) (o_desired_hash o) None None (correlation_id c) (JObj []) None.

Definition _persist_submission (command_id : uuid) (owner : string) (c : TelephonyCommandRequest)
    (o : operation) (now : Z) : M db unit :=
  row ← query (fun d => commands d !! command_id);
  guard_or (holds_lease owner row) (RuntimeError "telephony command submission ownership conflict") ;;
  existing ← query (fun d => one_where (op_of_command command_id) (operations d));
  match existing with
  | None =>
      id ← uuid4;
      guard_or (int4 (desired_state_version (payload c))) out_of_range ;;
      insert_or "telephony_operation_journal" (insert_operation (submission_row id command_id c o))
  | Some e =>
      guard_or (bool_decide (op_operation_public_id e = o_operation_public_id o))
        (RuntimeError "adapter operation idempotency conflict")
  end ;;
  execute (set_command command_id (fun r =>
    r <| cm_state := "SUBMITTING" |> <| cm_next_attempt_at := Some (now + seconds LEASE_SECONDS) |>
      <| cm_lease_owner := Some owner |> <| cm_updated_at := now |>)) ;;
  commit.

(** ** [dispatch_one] *)

(** The operation rebuilt from the journal, without the fields of a new
    submission. *)
Definition journaled (e : operation_row) : operation :=
  mkOperation (op_operation_public_id e) (op_adapter_operation_id e) (op_endpoint_key e)
    (op_readback_endpoint_key e) (op_target_configuration_checksum e) (op_target_attested e)
    (op_desired_hash e) "" "" "" false.

(** The second session: the stored command, its operation and its decision. *)
Definition load_claim (command_id : uuid) (now : Z) :
    M db (TelephonyCommandRequest * option operation * option decision_row) :=
  found ← query (fun d => commands d !! command_id);
  row ← some_or found (RuntimeError "claimed telephony command disappeared");
  c ← lift (model_validate (cm_request_json row) now);
  existing ← query (fun d => one_where (op_of_command command_id) (operations d));
  match existing with
  | Some e => mret (c, Some (journaled e), None)
  | None =>
      decision_id ← some_or (policy_decision_id c) (TypeError "one of the hex arguments must be given");
      decision ← query (get_decision decision_id);
      mret (c, None, decision)
  end.

Definition final_state (rb : readback_result) : string :=
  if b_readback_matches rb then "ODOO_RESULT_PENDING" else "RECONCILIATION_REQUIRED".

Definition finalize (command_id : uuid) (owner : string) (rb : readback_result) (t_completed t_update : Z) :
    M db string :=
  row ← query (fun d => commands d !! command_id);
  operation ← query (fun d => one_where (op_of_command command_id) (operations d));
  guard_or (holds_lease owner row && negb (is_null operation))
    (RuntimeError "telephony command finalization state conflict") ;;
  match operation with
  | Some o => execute (set_operation (op_operation_id o) (fun x =>
      x <| op_state := final_state rb |> <| op_actual_hash := Some (b_actual_hash rb) |>
        <| op_readback_matches := Some (b_readback_matches rb) |>
        <| op_response_json := JObj (b_actual rb) |> <| op_completed_at := Some t_completed |>))
  | None => mret tt
  end ;;
  execute (set_command command_id (fun c =>
    c <| cm_state := final_state rb |> <| cm_next_attempt_at := None |> <| cm_lease_owner := None |>
      <| cm_updated_at := t_update |>)) ;;
  commit ;;
  mret (final_state rb).
End worker.
End TelephonyWorker.

(** * Telephony commands: the system

    The journals with the workers that are at some point of [dispatch_one], the
    results being delivered and the log of the adapter's dispatches.  A step is
    one transaction of the API, of the policy service or of a worker, one call
    of the adapter, or the end of a worker's process; transactions run one
    after another. *)

Import TelephonyContracts TelephonyTables TelephonyApi TelephonyClient TelephonyWorker.
Module TelephonySystem.

(** How far a claim got in [dispatch_one]. *)
Inductive phase :=
  | Claimed
  | Loaded (c : TelephonyCommandRequest) (existing : option operation) (decision : option decision_row)
  | Dispatched (c : TelephonyCommandRequest) (o : operation)
  | Submitted (c : TelephonyCommandRequest) (o : operation)
  | Failing (f : failure)
  | ReadBack (o : operation) (rb : readback_result)
  | Done.

Record worker := mkWorker { wk_command : uuid; wk_phase : phase }.

(** A call of [client.dispatch]: whose claim, for which command, under which
    decision and when. *)
Record dispatch_entry := mkEntry {
  e_owner : string;
  e_command : uuid;
  e_request : TelephonyCommandRequest;
  e_decision : decision_row;
  e_time : Z;
}.

(** A readback that came back: whose claim, for which command and operation, and
    what the adapter answered. *)
Record read_entry := mkRead {
  rd_owner : string;
  rd_command : uuid;
  rd_request : TelephonyCommandRequest;
  rd_operation : operation;
  rd_answer : http_answer;
}.

Record world := mkWorld {
  w_db : db;
  (** every claim that was made, by its owner *)
  w_workers : gmap string worker;
  w_deliveries : list delivery;
  w_log : list dispatch_entry;
  w_reads : list read_entry;
}.
#[export] Instance world_eta : Eta world := fun w =>
  mkWorld (w_db w) (w_workers w) (w_deliveries w) (w_log w) (w_reads w).

Definition initial : world := mkWorld empty_db ∅ [] [] [].

Definition to_phase (owner : string) (p : phase) (w : world) : world :=
  w <| w_workers ::= alter (fun k => mkWorker (wk_command k) p) owner |>.

Inductive api_request :=
  | ApiCreate (value : json) (key : string) (t_body t_record t_check : Z)
  | ApiCancel (public_id : string) (t : Z)
  | ApiRegister (b : OperationRegistration) (choice : nat) (t : Z)
  | ApiTransition (public_id : string) (b : OperationTransition) (choice : nat) (t : Z)
  | ApiResult (b : TerminalResultRequest)
  | ApiRun (b : ReconciliationRunRequest).

(** One transaction, with the UUIDs it draws. *)
Definition run {A} (ids : nat -> uuid) (m : M db A) (d : db) : db * (exn + A) :=
  with_session (fun _ => 0) ids m d.
Arguments run : simpl never.

Definition drop_body {A} (m : M db A) : M db unit := m ;; mret tt.

Section system.
Context `{CommandModels}.

Definition serve_api (r : api_request) : M db unit :=
  match r with
  | ApiCreate value key t_body t_record t_check => drop_body (post_command value key t_body t_record t_check)
  | ApiCancel public_id t => drop_body (cancel_command public_id t)
  | ApiRegister b choice t => drop_body (register_operation b choice t)
  | ApiTransition public_id b choice t => drop_body (transition_operation public_id b choice t)
  | ApiResult b => drop_body (create_terminal_result b)
  | ApiRun b => drop_body (create_reconciliation_run b)
  end.

(** Where the outcome of each part of [dispatch_one] leads. *)
Definition after_load
    (r : exn + TelephonyCommandRequest * option operation * option decision_row) : phase :=
  match r with
  | inl _ => Done
  | inr (c, existing, decision) => Loaded c existing decision
  end.
Definition after_dispatch (c : TelephonyCommandRequest) (r : failure + operation) : phase :=
  match r with inl f => Failing f | inr o => Dispatched c o end.
Definition after_persist (c : TelephonyCommandRequest) (o : operation) (r : exn + unit) : phase :=
  match r with inl e => Failing (OtherError e) | inr _ => Submitted c o end.
Definition after_readback (o : operation) (r : failure + readback_result) : phase :=
  match r with inl f => Failing f | inr rb => ReadBack o rb end.

(** The readback of a claim in the log. *)
Definition read_of (owner : string) (command : uuid) (c : TelephonyCommandRequest) (o : operation)
    (request : ResolutionRequest -> json -> http_answer) : read_entry :=
  mkRead owner command c o
    (request (_route c (READBACK_ENDPOINTS (command_type c)) false) (readback_body c o)).

(** The heartbeat task runs from the load to the end of the claim. *)
Definition beating (p : phase) : bool := match p with Claimed | Done => false | _ => true end.

Inductive wstep : world -> world -> Prop :=
| w_api ids r w :
    wstep w (w <| w_db := (run ids (serve_api r) (w_db w)).1 |>)
| w_decision id row w :
    decisions (w_db w) !! id = None -> pd_id row = id ->
    wstep w (w <| w_db := (w_db w) <| decisions ::= <[id := row]> |> |>)
| w_begin ids public_id dl w :
    (run ids (begin_delivery public_id) (w_db w)).2 = inr dl ->
    wstep w (w <| w_db := (run ids (begin_delivery public_id) (w_db w)).1 |>
               <| w_deliveries ::= cons dl |>)
| w_finish ids dl odoo drawn agrees w :
    dl ∈ w_deliveries w -> odoo_exchange odoo dl drawn = inr agrees ->
    wstep w (w <| w_db := (run ids (finish_delivery dl agrees) (w_db w)).1 |>)
| w_claim ids env locked now id owner w :
    (run ids (claim_authorized env locked now) (w_db w)).2 = inr (Some (id, owner)) ->
    w_workers w !! owner = None ->
    wstep w (w <| w_db := (run ids (claim_authorized env locked now) (w_db w)).1 |>
               <| w_workers ::= <[owner := mkWorker id Claimed]> |>)
| w_load ids owner id now w :
    w_workers w !! owner = Some (mkWorker id Claimed) ->
    wstep w (to_phase owner (after_load (run ids (load_claim id now) (w_db w)).2) w)
| w_renew ids owner k t_lease t_update w :
    w_workers w !! owner = Some k -> beating (wk_phase k) = true ->
    wstep w (w <| w_db := (run ids (_renew_lease (wk_command k) owner t_lease t_update) (w_db w)).1 |>)
| w_refuse owner id c decision now f w :
    w_workers w !! owner = Some (mkWorker id (Loaded c None decision)) ->
    _validate_policy_for_dispatch c decision now = inl f ->
    wstep w (to_phase owner (Failing f) w)
| w_dispatch owner id c decision now resolve attest send (finished : bool) heartbeat w :
    w_workers w !! owner = Some (mkWorker id (Loaded c None (Some decision))) ->
    _validate_policy_for_dispatch c (Some decision) now = inr tt ->
    wstep w (to_phase owner
      (after_dispatch c (_run_while_lease
         (if finished then Some (dispatch (uuid_str id) c resolve attest send) else None) heartbeat))
      (w <| w_log ::= cons (mkEntry owner id c decision now) |>))
| w_persist ids owner id c o now w :
    w_workers w !! owner = Some (mkWorker id (Dispatched c o)) ->
    wstep w (to_phase owner
      (after_persist c o (run ids (_persist_submission id owner c o now) (w_db w)).2)
      (w <| w_db := (run ids (_persist_submission id owner c o now) (w_db w)).1 |>))
| w_resume owner id c o decision w :
    w_workers w !! owner = Some (mkWorker id (Loaded c (Some o) decision)) ->
    wstep w (to_phase owner (Submitted c o) w)
| w_readback owner id c o request (finished : bool) heartbeat w :
    w_workers w !! owner = Some (mkWorker id (Submitted c o)) ->
    wstep w (to_phase owner
      (after_readback o (_run_while_lease
         (if finished then Some (readback c o request) else None) heartbeat))
      (w <| w_reads ::= (if finished then cons (read_of owner id c o request) else Datatypes.id) |>))
| w_fail ids owner id f t_next t_update w :
    w_workers w !! owner = Some (mkWorker id (Failing f)) ->
    wstep w (to_phase owner Done
      (w <| w_db := (run ids (_record_failure id owner f t_next t_update) (w_db w)).1 |>))
| w_finalize ids owner id o rb t_completed t_update w :
    w_workers w !! owner = Some (mkWorker id (ReadBack o rb)) ->
    wstep w (to_phase owner Done
      (w <| w_db := (run ids (finalize id owner rb t_completed t_update) (w_db w)).1 |>))
| w_crash owner w :
    wstep w (to_phase owner Done w).

Definition reachable_world (w : world) : Prop := rtc wstep initial w.
End system.
End TelephonySystem.
