(* ===== verification/TelephonySafety.v ===== *)
(** * Telephony commands: what the journals and the workers guarantee

    How every transaction may change the journals ([evolves]), the fence of the
    lease, and the invariants of the system: nothing is dispatched without an
    allowing decision, a claim dispatches at most once, a journaled operation
    stays, and only a matching readback completes a command. *)

From Stdlib Require Import Ascii.
From S2P Require Import Prelude PyText PyTime Sha256 Txn PyUnicode TelephonyContracts TelephonyTables TelephonyApi TelephonyClient TelephonyWorker.
Import TelephonyContracts TelephonyTables TelephonyApi TelephonyClient TelephonyWorker TelephonySystem.
Local Open Scope string_scope.
Local Open Scope Z_scope.

Module TelephonySafety.

(** ** How the journals evolve *)

(** The columns of a command that only its creation and its claims write. *)
Definition identity_of (c : command_row) : command_row :=
  c <| cm_state := "" |> <| cm_next_attempt_at := None |> <| cm_lease_owner := None |>
    <| cm_updated_at := 0 |>.
(** The columns of an operation that only its insertion writes. *)
Definition binding_of (o : operation_row) : operation_row :=
  o <| op_state := "" |> <| op_transition_sequence := 0 |> <| op_actual_hash := None |>
    <| op_readback_matches := None |> <| op_response_json := JNull |> <| op_completed_at := None |>.

Record evolves (d d' : db) : Prop := mkEvolves {
  ev_commands : (identity_of <$> commands d) ⊆ (identity_of <$> commands d');
  ev_new : forall id c, commands d' !! id = Some c -> commands d !! id = None ->
    cm_attempt_count c = 0 /\ cm_command_id c = id;
  ev_operations : (binding_of <$> operations d) ⊆ (binding_of <$> operations d');
  ev_registered : forall id o, operations d' !! id = Some o -> operations d !! id = None ->
    op_operation_id o = id;
  ev_transitions : transitions d ⊆ transitions d';
  ev_decisions : decisions d ⊆ decisions d';
}.

Lemma lookup_fmap_sub {V W} (f : V -> W) (m m' : gmap uuid V) :
  (f <$> m) ⊆ (f <$> m') <->
  forall k v, m !! k = Some v -> exists v', m' !! k = Some v' /\ f v' = f v.
Proof.
  rewrite map_subseteq_spec. setoid_rewrite lookup_fmap_Some. split.
  - intros Hs k v Hv. destruct (Hs k (f v)) as (v' & E & ?); eauto.
  - intros Hs k w (v & <- & Hv). destruct (Hs k v Hv) as (v' & ? & ?). eauto.
Qed.

Lemma fmap_alter_same {K V W} `{Countable K} (f : V -> W) (g : V -> V) (k : K) (m : gmap K V) :
  (forall v, f (g v) = f v) -> f <$> alter g k m = f <$> m.
Proof.
  intros Hg. apply map_eq. intros i. rewrite !lookup_fmap. destruct (decide (k = i)) as [->|].
  - rewrite lookup_alter_eq. destruct (m !! i); cbn; by rewrite ?Hg.
  - by rewrite lookup_alter_ne.
Qed.

#[export] Instance evolves_preorder : PreOrder evolves.
Proof.
  split; [intros d; split; try done; congruence|].
  intros d d' d'' [C N O R T P] [C' N' O' R' T' P']. split; try (by etrans).
  - intros id c Hc Hn. destruct (commands d' !! id) as [c'|] eqn:E; [|by eapply N'].
    rewrite lookup_fmap_sub in C'. destruct (C' id c' E) as (c2 & E2 & Hid).
    replace c with c2 by congruence. destruct (N id c' E Hn) as [<- <-].
    split; [by apply (f_equal cm_attempt_count) in Hid|by apply (f_equal cm_command_id) in Hid].
  - intros id o Ho Hn. destruct (operations d' !! id) as [o'|] eqn:E; [|by eapply R'].
    rewrite lookup_fmap_sub in O'. destruct (O' id o' E) as (o2 & E2 & Hid).
    replace o with o2 by congruence. rewrite <- (R id o' E Hn).
    by apply (f_equal op_operation_id) in Hid.
Qed.

(** Solves the parts of [evolves] about tables that are not written. *)
Ltac unchanged := split; cbn; try done; try (intros; congruence).

Lemma evolves_set_command id f d :
  (forall c, identity_of (f c) = identity_of c) -> evolves d (set_command id f d).
Proof.
  intros Hf. unchanged; [by rewrite fmap_alter_same|].
  intros id' c Hc Hn. apply lookup_alter_Some in Hc as [(-> & c0 & ? & _)|[_ ?]]; congruence.
Qed.
Lemma evolves_set_operation id f d :
  (forall o, binding_of (f o) = binding_of o) -> evolves d (set_operation id f d).
Proof.
  intros Hf. unchanged; [by rewrite fmap_alter_same|].
  intros id' o Ho Hn. apply lookup_alter_Some in Ho as [(-> & o0 & ? & _)|[_ ?]]; congruence.
Qed.
Lemma evolves_set_result id f d : evolves d (set_result id f d).
Proof. unchanged. Qed.

Lemma null_lookup {V} (o : option V) : is_null o = true -> o = None.
Proof. by destruct o. Qed.

Lemma insert_new_sub {V W} (f : V -> W) (k : uuid) v (m : gmap uuid V) :
  m !! k = None -> (f <$> m) ⊆ (f <$> <[k := v]> m).
Proof. intros E. rewrite fmap_insert. apply insert_subseteq. by rewrite lookup_fmap, E. Qed.

Lemma evolves_insert_command c d d' :
  cm_attempt_count c = 0 -> insert_command c d = Some d' -> evolves d d'.
Proof.
  intros Hz. unfold insert_command. destruct (is_null _) eqn:E; [|done].
  apply null_lookup in E. case_match; [|done]. intros [= <-]. unchanged; [by apply insert_new_sub|].
  intros id x Hx Hn. apply lookup_insert_Some in Hx as [[? ?]|[_ ?]]; [by subst|congruence].
Qed.
Lemma evolves_insert_operation o d d' : insert_operation o d = Some d' -> evolves d d'.
Proof.
  unfold insert_operation. destruct (is_null _) eqn:E; [|done].
  apply null_lookup in E. case_match; [|done]. intros [= <-]. unchanged; [by apply insert_new_sub|].
  intros id x Hx Hn. apply lookup_insert_Some in Hx as [[? ?]|[_ ?]]; [by subst|congruence].
Qed.
Lemma evolves_insert_transition id t d d' : insert_transition id t d = Some d' -> evolves d d'.
Proof.
  unfold insert_transition. destruct (is_null _) eqn:E; [|done].
  apply null_lookup in E. case_match; [|done]. intros [= <-]. unchanged. by apply insert_subseteq.
Qed.
Lemma evolves_insert_result id r d d' : insert_result id r d = Some d' -> evolves d d'.
Proof. unfold insert_result. case_match; [|done]. intros [= <-]. unchanged. Qed.
Lemma evolves_insert_run id r d d' : insert_run id r d = Some d' -> evolves d d'.
Proof. unfold insert_run. case_match; [|done]. intros [= <-]. unchanged. Qed.
Lemma evolves_decision id row d :
  decisions d !! id = None -> evolves d (d <| decisions ::= <[id := row]> |>).
Proof. intros Hn. unchanged. by apply insert_subseteq. Qed.

Create HintDb telephony.
#[export] Hint Resolve evolves_set_command evolves_set_operation evolves_set_result
  evolves_insert_operation evolves_insert_transition evolves_insert_result evolves_insert_run
  : telephony.

Section evolution.
Context `{CommandModels} (d0 : db).
Notation follows := (keeps (evolves d0)).

Lemma follows_execute f : (forall d, evolves d (f d)) -> follows (execute f).
Proof. intros Hf. apply keeps_execute. intros d Hd. by etrans. Qed.
Lemma follows_insert c f : (forall d d', f d = Some d' -> evolves d d') -> follows (insert_or c f).
Proof. intros Hf. apply keeps_insert_or. intros d d' Hd E. etrans; [done|]. eauto. Qed.
Lemma follows_lift {A} (r : exn + A) : follows (lift r).
Proof. destruct r; [apply keeps_raise|apply keeps_ret]. Qed.

Ltac follow :=
  repeat match goal with
  | |- keeps _ (execute _) => apply follows_execute; intros ?; auto with telephony
  | |- keeps _ (insert_or _ _) => apply follows_insert; intros ? ?; eauto with telephony
  | |- keeps _ (lift _) => apply follows_lift
  | |- keeps _ (guard_or _ _ ;; _) => apply keeps_bind; [auto with mw|intros ?]
  | _ => keeps_step
  end.

Lemma create_command_follows body key t1 t2 : follows (create_command body key t1 t2).
Proof.
  unfold create_command, after_conflict. follow.
  intros E. eapply evolves_insert_command, E. done.
Qed.
Lemma cancel_command_follows public_id t : follows (cancel_command public_id t).
Proof. unfold cancel_command. follow. Qed.
Lemma register_operation_follows b choice t : follows (register_operation b choice t).
Proof. unfold register_operation. follow. Qed.
Lemma transition_operation_follows public_id b choice t :
  follows (transition_operation public_id b choice t).
Proof.
  unfold transition_operation. follow. intros E%evolves_insert_transition.
  etrans; [|exact E]. apply evolves_set_operation. intros o. unfold transitioned. by case_match.
Qed.
Lemma create_terminal_result_follows b : follows (create_terminal_result b).
Proof. unfold create_terminal_result. follow. Qed.
Lemma create_reconciliation_run_follows b : follows (create_reconciliation_run b).
Proof. unfold create_reconciliation_run. follow. Qed.
Lemma serve_api_follows r : follows (serve_api r).
Proof.
  destruct r; apply keeps_bind; auto with mw;
    auto using keeps_post_command, create_command_follows, cancel_command_follows, register_operation_follows,
      transition_operation_follows, create_terminal_result_follows, create_reconciliation_run_follows.
Qed.
Lemma begin_delivery_follows public_id : follows (begin_delivery public_id).
Proof. unfold begin_delivery. follow. Qed.
Lemma finish_delivery_follows dl agrees : follows (finish_delivery dl agrees).
Proof. unfold finish_delivery. follow. Qed.
Lemma renew_lease_follows id owner t1 t2 : follows (_renew_lease id owner t1 t2).
Proof. unfold _renew_lease. follow. Qed.
Lemma record_failure_follows id owner f t1 t2 : follows (_record_failure id owner f t1 t2).
Proof. unfold _record_failure. follow. Qed.
Lemma persist_submission_follows id owner c o t : follows (_persist_submission id owner c o t).
Proof. unfold _persist_submission. follow. Qed.
Lemma finalize_follows id owner rb t1 t2 : follows (finalize id owner rb t1 t2).
Proof. unfold finalize. follow. Qed.
End evolution.

(** ** Claims *)

Section claims.
Context `{CommandModels}.

Lemma next_claim_spec env locked now d c :
  next_claim env locked now d = Some c ->
  claimable env now c = true /\ locked (cm_command_id c) = false
  /\ (exists id, commands d !! id = Some c)
  /\ (forall id c', commands d !! id = Some c' -> claimable env now c' = true ->
        locked (cm_command_id c') = false -> cm_created_at c <= cm_created_at c').
Proof.
  unfold next_claim. intros Hc.
  assert (Hmem : forall x, x ∈ select_where (fun c => claimable env now c && negb (locked (cm_command_id c)))
      (commands d) <-> (claimable env now x = true /\ locked (cm_command_id x) = false)
                       /\ exists id, commands d !! id = Some x).
  { intros x. rewrite elem_of_select_where, andb_true_iff, negb_true_iff. naive_solver. }
  pose proof (head_sort_by (fun a b => cm_created_at a <=? cm_created_at b) _ c
    ltac:(intros a b; rewrite !Z.leb_le; lia)
    ltac:(intros a b e; rewrite !Z.leb_le; lia) Hc) as Hmin.
  apply head_Some_elem_of in Hc. rewrite sort_by_perm, Hmem in Hc. destruct Hc as [[? ?] ?].
  split_and!; [done..|]. intros id c' Hc' ? ?. apply Z.leb_le, Hmin, Hmem. eauto.
Qed.

Lemma run_claim ids env locked now d :
  run ids (claim_authorized env locked now) d =
  match next_claim env locked now d with
  | Some c => (set_command (cm_command_id c) (claimed_by (uuid_hex (ids O)) now) d,
               inr (Some (cm_command_id c, uuid_hex (ids O))))
  | None => (d, inr None)
  end.
Proof.
  unfold run, with_session, claim_authorized, mbind, M_bind, query. cbn [working].
  by destruct (next_claim env locked now d).
Qed.

(** A step either follows [evolves] and leaves the claims alone, or is a claim. *)
Definition is_claim (w w' : world) : Prop :=
  exists env locked now owner c,
    next_claim env locked now (w_db w) = Some c /\ w_workers w !! owner = None
    /\ w' = mkWorld (set_command (cm_command_id c) (claimed_by owner now) (w_db w))
              (<[owner := mkWorker (cm_command_id c) Claimed]> (w_workers w)) (w_deliveries w) (w_log w) (w_reads w).

Lemma wstep_cases w w' :
  wstep w w' ->
  is_claim w w'
  \/ evolves (w_db w) (w_db w') /\ wk_command <$> w_workers w' = wk_command <$> w_workers w.
Proof.
  assert (Hrun : forall A ids (m : M db A) d, (forall d0, keeps (evolves d0) m) -> evolves d (run ids m d).1)
    by (intros A ids m d Hm; unfold run; by apply (keeps_with_session (evolves d))).
  assert (Hph : forall (owner : string) p wks, wk_command <$> alter (fun k => mkWorker (wk_command k) p) owner wks
    = wk_command <$> wks) by (intros; by apply fmap_alter_same).
  destruct 1 as [| | | |ids env locked now id owner w Hc Hf| | | | | | | | | |];
    try (right; split; [|solve [reflexivity|apply Hph]];
      first [reflexivity|by apply evolves_decision|apply (Hrun _ _ _ (w_db _))];
      auto using serve_api_follows, begin_delivery_follows,
        finish_delivery_follows, renew_lease_follows, record_failure_follows,
        persist_submission_follows, finalize_follows; done).
  left. rewrite run_claim in Hc |- *. destruct (next_claim env locked now (w_db w)) as [c|] eqn:E; [|done].
  cbn in Hc. injection Hc as <- <-. exists env, locked, now, (uuid_hex (ids O)), c. done.
Qed.

(** ** Claims and attempts *)

(** The claims made of a command, by their owners. *)
Definition claims_of (id : uuid) (w : world) : gmap string uuid :=
  filter (fun kv => kv.2 = id) (wk_command <$> w_workers w).

Record claims_inv (w : world) : Prop := mkClaimsInv {
  ci_keyed : forall id c, commands (w_db w) !! id = Some c -> cm_command_id c = id;
  ci_attempts : forall id c, commands (w_db w) !! id = Some c ->
    cm_attempt_count c = Z.of_nat (size (claims_of id w));
  ci_known : forall owner id, (wk_command <$> w_workers w) !! owner = Some id ->
    is_Some (commands (w_db w) !! id);
}.

Lemma evolves_command d d' id c :
  evolves d d' -> commands d !! id = Some c ->
  exists c', commands d' !! id = Some c' /\ identity_of c' = identity_of c.
Proof. intros [Hc _ _ _ _ _] E. rewrite lookup_fmap_sub in Hc. eauto. Qed.

(** The commands after a step come from those before, or are new. *)
Lemma evolves_command_back d d' id c' :
  evolves d d' -> commands d' !! id = Some c' ->
  (exists c, commands d !! id = Some c /\ identity_of c' = identity_of c)
  \/ commands d !! id = None /\ cm_attempt_count c' = 0 /\ cm_command_id c' = id.
Proof.
  intros He Hc'. destruct (commands d !! id) as [c|] eqn:E.
  - left. destruct (evolves_command _ _ _ _ He E) as (c2 & ? & ?). exists c. split; congruence.
  - right. split; [done|]. by eapply ev_new.
Qed.

Lemma claim_lookup id c owner now d id' c' :
  commands (set_command id (claimed_by owner now) d) !! id' = Some c' ->
  commands d !! id = Some c ->
  id' = id /\ c' = claimed_by owner now c \/ id' <> id /\ commands d !! id' = Some c'.
Proof.
  intros Hc' Hc. cbn in Hc'. apply lookup_alter_Some in Hc' as [(-> & c0 & E & ->)|[? ?]].
  - left. split; congruence.
  - right. by split.
Qed.

Lemma claims_of_insert id owner id' w d ds l rd :
  w_workers w !! owner = None ->
  size (claims_of id (mkWorld d (<[owner := mkWorker id' Claimed]> (w_workers w)) ds l rd))
  = ((if bool_decide (id' = id) then 1 else 0) + size (claims_of id w))%nat.
Proof.
  intros Hn. unfold claims_of. cbn [w_workers]. rewrite fmap_insert. cbn [wk_command].
  case_bool_decide.
  - rewrite map_filter_insert_True by done. rewrite map_size_insert_None; [done|].
    by rewrite map_lookup_filter, lookup_fmap, Hn.
  - rewrite map_filter_insert_False by done. rewrite delete_id; [done|]. by rewrite lookup_fmap, Hn.
Qed.

Lemma claims_inv_step w w' : wstep w w' -> claims_inv w -> claims_inv w'.
Proof.
  intros Hs [Hk Ha Hw].
  destruct (wstep_cases _ _ Hs) as [(env & locked & now & owner & c & Hc & Hn & ->)|[He Hwk]].
  - apply next_claim_spec in Hc as (_ & _ & [id Hid] & _). pose proof (Hk _ _ Hid) as Hkey.
    rewrite Hkey in *. split.
    + intros id' c' [[-> ->]|[_ E]]%(claim_lookup _ c); [done|by apply Hk|done].
    + intros id' c' Hc'. rewrite claims_of_insert by done.
      destruct (claim_lookup _ c _ _ _ _ _ Hc' Hid) as [[-> ->]|[Hne E]].
      * rewrite bool_decide_true by done. cbn. rewrite (Ha _ _ Hid). lia.
      * rewrite bool_decide_false by done. by apply Ha.
    + intros owner' id' Ho. cbn in *. rewrite lookup_alter_is_Some. rewrite fmap_insert in Ho.
      apply lookup_insert_Some in Ho as [[_ <-]|[_ Ho]]; [by eexists|by eapply Hw].
  - split.
    + intros id c' Hc'. destruct (evolves_command_back _ _ _ _ He Hc') as [(c & Hc & Hid)|(_ & _ & ?)]; [|done].
      rewrite <- (Hk _ _ Hc). by apply (f_equal cm_command_id) in Hid.
    + intros id c' Hc'. unfold claims_of. rewrite Hwk.
      destruct (evolves_command_back _ _ _ _ He Hc') as [(c & Hc & Hid)|(Hnone & -> & _)].
      * apply (f_equal cm_attempt_count) in Hid. cbn in Hid. rewrite Hid. by apply Ha.
      * rewrite map_empty_filter_2; [done|].
        intros owner id' Ho. cbn. intros ->. destruct (Hw _ _ Ho). congruence.
    + intros owner id. rewrite Hwk. intros Ho. destruct (Hw _ _ Ho) as [c Hc].
      destruct (evolves_command _ _ _ _ He Hc) as (? & ? & _). by eexists.
Qed.

Lemma claims_inv_initial : claims_inv initial.
Proof. split; intros ? ?; cbn; rewrite ?fmap_empty, lookup_empty; done. Qed.

Lemma reachable_claims_inv w : reachable_world w -> claims_inv w.
Proof.
  intros Hr. unfold reachable_world in Hr. apply rtc_ind_r with (P := claims_inv) in Hr; [done| |].
  - apply claims_inv_initial.
  - intros w1 w2 _ Hs Hi. by eapply claims_inv_step.
Qed.

(** ** The log of dispatches *)

Definition dispatched_phase (p : phase) : bool :=
  match p with Claimed | Loaded _ _ _ => false | _ => true end.

(** The claim an entry names is past its dispatch. *)
Definition entry_ok (wks : gmap string worker) (e : dispatch_entry) : Prop :=
  exists p, wks !! e_owner e = Some (mkWorker (e_command e) p) /\ dispatched_phase p = true.

Record log_inv (w : world) : Prop := mkLogInv {
  li_once : NoDup (e_owner <$> w_log w);
  li_entries : Forall (entry_ok (w_workers w)) (w_log w);
}.

Notation moved owner p := (alter (fun k => mkWorker (wk_command k) p) owner).

Lemma entry_ok_moved owner p wks e :
  dispatched_phase p = true -> entry_ok wks e -> entry_ok (moved owner p wks) e.
Proof.
  intros Hp (q & Hq & Hd). unfold entry_ok. destruct (decide (owner = e_owner e)) as [->|].
  - exists p. by rewrite lookup_alter_eq, Hq.
  - exists q. by rewrite lookup_alter_ne.
Qed.
Lemma entry_ok_other owner p wks e k :
  wks !! owner = Some k -> dispatched_phase (wk_phase k) = false ->
  entry_ok wks e -> entry_ok (moved owner p wks) e /\ e_owner e <> owner.
Proof.
  intros Hk Hn (q & Hq & Hd). assert (e_owner e <> owner) by (intros <-; rewrite Hk in Hq; injection Hq as ->; cbn in Hn; congruence).
  split; [|done]. exists q. by rewrite lookup_alter_ne.
Qed.
Lemma entry_ok_insert owner k wks e :
  wks !! owner = None -> entry_ok wks e -> entry_ok (<[owner := k]> wks) e.
Proof. intros Hn (q & Hq & Hd). exists q. rewrite lookup_insert_ne by congruence. done. Qed.

Lemma log_inv_step w w' : wstep w w' -> log_inv w -> log_inv w'.
Proof.
  intros Hs [Ho He]. destruct Hs; try done;
    try (split; [done|]; eapply Forall_impl; [exact He|]; intros e; cbn;
         first [by apply entry_ok_insert
               |apply entry_ok_moved; unfold after_persist, after_readback; repeat case_match; done
               |intros Hok; by eapply entry_ok_other]; fail).
  assert (Hne : forall e, entry_ok (w_workers w) e -> e_owner e <> owner)
    by (intros e Hok; by eapply (entry_ok_other owner Done)).
  split.
  - cbn. apply NoDup_cons. split; [|done]. intros (e & -> & Hin)%list_elem_of_fmap.
    rewrite Forall_forall in He. by apply (Hne e); [apply He|].
  - cbn. constructor.
    + eexists. cbn. rewrite lookup_alter_eq. split; [by erewrite H0|]. unfold after_dispatch. by case_match.
    + eapply Forall_impl; [exact He|]. intros e. apply entry_ok_moved. unfold after_dispatch. by case_match.
Qed.

Lemma reachable_log_inv w : reachable_world w -> log_inv w.
Proof.
  intros Hr. unfold reachable_world in Hr. apply rtc_ind_r with (P := log_inv) in Hr; [done| |].
  - split; [apply NoDup_nil_2|constructor].
  - intros w1 w2 _ Hs Hi. by eapply log_inv_step.
Qed.

(** ** What stays in the tables *)

Definition stored_request (id : uuid) (c : TelephonyCommandRequest) (d : db) : Prop :=
  exists row t, commands d !! id = Some row /\ model_validate (cm_request_json row) t = inr c.
Definition stored_decision (p : decision_row) (d : db) : Prop := exists id, decisions d !! id = Some p.

(** The request of a command, the decisions and the bindings of the operations
    outlive every step. *)
Definition retains (d d' : db) : Prop :=
  (forall id c, stored_request id c d -> stored_request id c d')
  /\ (forall p, stored_decision p d -> stored_decision p d')
  /\ (binding_of <$> operations d) ⊆ (binding_of <$> operations d').

Lemma evolves_retains d d' : evolves d d' -> retains d d'.
Proof.
  intros He. split_and!; [| |apply He].
  - intros id c (row & t & Hr & Hv). destruct (evolves_command _ _ _ _ He Hr) as (row' & Hr' & Hid).
    exists row', t. split; [done|]. apply (f_equal cm_request_json) in Hid. cbn in Hid. by rewrite Hid.
  - intros p [id Hid]. exists id. eapply lookup_weaken; [done|apply He].
Qed.

Lemma wstep_retains w w' : wstep w w' -> retains (w_db w) (w_db w').
Proof.
  intros [(env & locked & now & owner & c & _ & _ & ->)|[He _]]%wstep_cases; [|by apply evolves_retains].
  split_and!; [|done|done]. intros id r (row & t & Hr & Hv). cbn [w_db].
  destruct (decide (cm_command_id c = id)) as [->|Hne].
  - exists (claimed_by owner now row), t. split; [|done]. cbn. by rewrite lookup_alter_eq, Hr.
  - exists row, t. cbn. by rewrite lookup_alter_ne.
Qed.

(** What [_validate_policy_for_dispatch] lets through. *)
Definition authorizes (c : TelephonyCommandRequest) (p : decision_row) (now : Z) : Prop :=
  pd_allowed p = true /\ is_enforced (pd_context p) = true
  /\ pd_correlation_id p = correlation_id c
  /\ payload_hash (JObj (pd_context p)) = policy_decision_hash c
  /\ scope_matches (dict_get (pd_context p) "authorization_scope") (policy_scope c) = true
  /\ exists text expires, dict_get (pd_context p) "expiration" = Some (JStr text)
       /\ fromisoformat text = Some expires /\ aware expires = true /\ now < instant expires.

Lemma validate_policy_ok c p now :
  _validate_policy_for_dispatch c (Some p) now = inr tt <-> authorizes c p now.
Proof.
  unfold _validate_policy_for_dispatch, authorizes. rewrite !require_bind_ok, !andb_true_iff, !bool_decide_eq_true.
  destruct (dict_get (pd_context p) "expiration") as [[| | | |text| |]|];
    try (split; [by intros (_ & _ & _ & _ & ?)|by intros (_ & _ & _ & _ & _ & ? & ? & ? & _)]).
  destruct (fromisoformat text) as [e|] eqn:Ee.
  - rewrite require_ok, andb_true_iff, Z.ltb_lt. split.
    + intros (? & ? & ? & [? ?] & ? & ?). split_and!; try done. by exists text, e.
    + intros (? & ? & ? & ? & ? & text' & e' & [= <-] & Ee' & ? & ?). by simplify_eq.
  - split; [by intros (_ & _ & _ & _ & ?)|].
    intros (_ & _ & _ & _ & _ & text' & e' & [= <-] & Ee' & _). congruence.
Qed.

Record policy_inv (w : world) : Prop := mkPolicyInv {
  pi_loaded : forall owner id c existing decision,
    w_workers w !! owner = Some (mkWorker id (Loaded c existing decision)) ->
    stored_request id c (w_db w) /\ (forall p, decision = Some p -> stored_decision p (w_db w));
  pi_entries : Forall (fun e => stored_request (e_command e) (e_request e) (w_db w)
      /\ stored_decision (e_decision e) (w_db w)
      /\ authorizes (e_request e) (e_decision e) (e_time e)) (w_log w);
}.

Lemma run_load ids id now d :
  match (run ids (load_claim id now) d).2 with
  | inr (c, existing, decision) =>
      stored_request id c d /\ (forall p, decision = Some p -> stored_decision p d)
      /\ (existing = None -> one_where (op_of_command id) (operations d) = None)
  | inl _ => True
  end.
Proof.
  change (wp (load_claim id now) (fun _ r => match r with
    | inr (c, existing, decision) =>
        stored_request id c d /\ (forall p, decision = Some p -> stored_decision p d)
        /\ (existing = None -> one_where (op_of_command id) (operations d) = None)
    | inl _ => True
    end) (Session d d (fun _ => 0) ids)).
  unfold load_claim, lift. wp_run; try done.
  - split_and!; [|done|done]. by eexists _, _.
  - split_and!; [by eexists _, _| |done]. intros p Hp.
    unfold get_decision, one_where in Hp. apply head_Some_elem_of, elem_of_select_where in Hp as [_ [k Hk]].
    by exists k.
Qed.

(** The phases after a step that is not a load: [Loaded] only stays. *)
Lemma loaded_back w w' owner id c existing decision :
  wstep w w' ->
  w_workers w' !! owner = Some (mkWorker id (Loaded c existing decision)) ->
  w_workers w !! owner = Some (mkWorker id (Loaded c existing decision))
  \/ w_workers w !! owner = Some (mkWorker id Claimed) /\ w_db w' = w_db w
     /\ exists ids now, (run ids (load_claim id now) (w_db w)).2 = inr (c, existing, decision).
Proof.
  intros Hs Hl. destruct Hs; cbn in Hl; try (by left);
    try (apply lookup_alter_Some in Hl as [(-> & k & Hk & E)|[_ ?]]; [|by left]).
  all: try (unfold after_dispatch, after_persist, after_readback in E; repeat case_match; discriminate).
  - apply lookup_insert_Some in Hl as [[_ ?]|[_ ?]]; [done|by left].
  - right. unfold after_load in E. repeat case_match; try discriminate. injection E as -> -> -> ->.
    rewrite Hk in H0. injection H0 as ->. split_and!; eauto.
Qed.

Lemma policy_inv_step w w' : wstep w w' -> policy_inv w -> policy_inv w'.
Proof.
  intros Hs [Hl He]. destruct (wstep_retains _ _ Hs) as (Hreq & Hdec & _). split.
  - intros owner id c existing decision Hk.
    destruct (loaded_back _ _ _ _ _ _ _ Hs Hk) as [Hk0|(_ & Hdb & ids & now & Hload)].
    + destruct (Hl _ _ _ _ _ Hk0) as [? ?]. split; eauto.
    + pose proof (run_load ids id now (w_db w)) as Hr. rewrite Hload in Hr.
      rewrite Hdb. by destruct Hr as (? & ? & _).
  - assert (Hold : Forall (fun e => stored_request (e_command e) (e_request e) (w_db w')
      /\ stored_decision (e_decision e) (w_db w')
      /\ authorizes (e_request e) (e_decision e) (e_time e)) (w_log w)).
    { eapply Forall_impl; [exact He|]. intros e (? & ? & ?). auto. }
    destruct Hs; try exact Hold. constructor; [|exact Hold]. cbn in *.
    destruct (Hl _ _ _ _ _ H0) as [? ?]. split_and!; eauto. by apply validate_policy_ok.
Qed.

Lemma reachable_policy_inv w : reachable_world w -> policy_inv w.
Proof.
  intros Hr. unfold reachable_world in Hr. apply rtc_ind_r with (P := policy_inv) in Hr; [done| |].
  - split; [intros ? ?; cbn; by rewrite lookup_empty|constructor].
  - intros w1 w2 _ Hs Hi. by eapply policy_inv_step.
Qed.

(** C9. Nothing reaches the adapter without policy: each time a worker calls
    [client.dispatch], the command is the one stored in the journal under its
    id, and a decision stored in the policy table allows it, is enforced, bears
    the correlation id of the command and the hash the command was created
    with, covers exactly the command's scope, and has not expired at that
    moment. *)
Theorem dispatch_authorized w e :
  reachable_world w -> e ∈ w_log w ->
  (exists row t, commands (w_db w) !! e_command e = Some row
     /\ model_validate (cm_request_json row) t = inr (e_request e))
  /\ (exists id, decisions (w_db w) !! id = Some (e_decision e))
  /\ authorizes (e_request e) (e_decision e) (e_time e).
Proof. intros Hr Hin. destruct (reachable_policy_inv w Hr) as [_ He]. rewrite Forall_forall in He. by apply He. Qed.

Lemma size_length_le (l : list string) (m : gmap string uuid) :
  NoDup l -> (forall x, x ∈ l -> is_Some (m !! x)) -> (length l <= size m)%nat.
Proof.
  intros Hn Hl. rewrite <- size_dom. rewrite <- (size_list_to_set (C:=gset string) l) by done.
  apply subseteq_size. intros x Hx%elem_of_list_to_set. apply elem_of_dom. by apply Hl.
Qed.

(** A claim dispatches at most once, and a command is dispatched at most as
    often as it was claimed: the calls of the adapter for it never outnumber
    its [attempt_count]. *)
Theorem dispatches_bounded w id c :
  reachable_world w -> commands (w_db w) !! id = Some c ->
  NoDup (e_owner <$> w_log w)
  /\ Z.of_nat (length (filter (fun e => e_command e = id) (w_log w))) <= cm_attempt_count c.
Proof.
  intros Hr Hc. destruct (reachable_log_inv w Hr) as [Ho He]. split; [done|].
  rewrite (ci_attempts _ (reachable_claims_inv w Hr) _ _ Hc). apply Nat2Z.inj_le.
  rewrite <- (length_fmap e_owner). apply size_length_le.
  - eapply sublist_NoDup; [exact Ho|]. apply fmap_sublist, sublist_filter.
  - intros owner (e & -> & Hin)%list_elem_of_fmap.
    apply list_elem_of_filter in Hin as [E Hin].
    rewrite Forall_forall in He. destruct (He e Hin) as (p & Hp & _).
    unfold claims_of. exists id. apply map_lookup_filter_Some. split; [|done].
    rewrite lookup_fmap, Hp. cbn. by rewrite E.
Qed.

(** ** Journaled operations *)

Definition journaled_for (cid : uuid) (d : db) : Prop :=
  exists oid o, operations d !! oid = Some o /\ op_command_id o = cid.

Lemma journaled_found cid d :
  journaled_for cid d -> one_where (op_of_command cid) (operations d) <> None.
Proof.
  intros (oid & o & Ho & Hc) Hnone. unfold one_where in Hnone.
  assert (Hin : o ∈ select_where (op_of_command cid) (operations d)).
  { apply elem_of_select_where. split; [by apply bool_decide_eq_true|by exists oid]. }
  destruct (select_where _ _); [by apply elem_of_nil in Hin|done].
Qed.

Lemma steps_retain w w' : rtc wstep w w' -> retains (w_db w) (w_db w').
Proof.
  induction 1 as [|w1 w2 w3 Hs _ (R1 & R2 & R3)]; [done|].
  destruct (wstep_retains _ _ Hs) as (S1 & S2 & S3). split_and!; [auto..|by etrans].
Qed.

Lemma retains_operation d d' oid o :
  retains d d' -> operations d !! oid = Some o ->
  exists o', operations d' !! oid = Some o' /\ binding_of o' = binding_of o.
Proof. intros (_ & _ & Hb) Ho. rewrite lookup_fmap_sub in Hb. eauto. Qed.

Lemma steps_journaled w w' cid : rtc wstep w w' -> journaled_for cid (w_db w) -> journaled_for cid (w_db w').
Proof.
  intros Hs (oid & o & Ho & Hc). destruct (retains_operation _ _ _ _ (steps_retain _ _ Hs) Ho) as (o' & Ho' & E).
  exists oid, o'. split; [done|]. rewrite <- Hc. by apply (f_equal op_command_id) in E.
Qed.

Lemma loaded_before w w' cid owner c decision :
  rtc wstep w w' -> journaled_for cid (w_db w) ->
  w_workers w' !! owner = Some (mkWorker cid (Loaded c None decision)) ->
  w_workers w !! owner = Some (mkWorker cid (Loaded c None decision)).
Proof.
  intros Hs Hj. revert w' Hs. refine (rtc_ind_r _ w _ _); [done|]. intros w' w'' Hs Hlast IH Hk.
  destruct (loaded_back _ _ _ _ _ _ _ Hlast Hk) as [?|(_ & _ & ids & now & Hload)]; [by apply IH|].
  pose proof (run_load ids cid now (w_db w')) as Hr. rewrite Hload in Hr.
  destruct Hr as (_ & _ & Hn). by destruct (journaled_found cid (w_db w')); [eapply steps_journaled|apply Hn].
Qed.

(** An operation, once journaled, stays with its bindings (ids, adapter,
    target, desired state, idempotency hash), and ends the dispatching of its
    command: the only claims that may still call [client.dispatch] for it are
    those that had loaded the command before, without an operation. *)
Theorem journaled_operation_final w w' oid o :
  rtc wstep w w' -> operations (w_db w) !! oid = Some o ->
  (exists o', operations (w_db w') !! oid = Some o' /\ binding_of o' = binding_of o)
  /\ forall e, e ∈ w_log w' -> e_command e = op_command_id o ->
     e ∈ w_log w
     \/ w_workers w !! e_owner e
        = Some (mkWorker (e_command e) (Loaded (e_request e) None (Some (e_decision e)))).
Proof.
  intros Hs Ho. split; [eapply retains_operation; [by apply steps_retain|done]|].
  assert (Hj : journaled_for (op_command_id o) (w_db w)) by by exists oid, o.
  revert w' Hs. refine (rtc_ind_r _ w _ _); [by left|].
  intros w' w'' Hs Hlast IH e Hin Hc. destruct Hlast; try (by apply IH).
  cbn in Hin. apply elem_of_cons in Hin as [->|Hin]; [|by apply IH].
  right. cbn in Hc. rewrite Hc in *. eapply loaded_before; [|exact Hj|done]. done.
Qed.

(** ** The fence of the lease *)

Lemma lease_not_held owner row :
  (forall r, row = Some r -> cm_state r = "SUBMITTING" -> cm_lease_owner r <> Some owner) -> holds_lease owner row = false.
Proof.
  intros Hn. destruct row as [r|]; [cbn|done]. apply andb_false_iff.
  destruct (decide (cm_state r = "SUBMITTING")); [right|left]; apply bool_decide_eq_false; eauto.
Qed.

(** C11. A worker that lost its lease changes nothing: if the command is not
    [SUBMITTING] under the worker's owner, renewing, recording a failure,
    persisting a submission and finalizing leave every table as it is, and the
    last two raise. *)
Theorem stale_worker_harmless ids d id owner c o rb f t1 t2 :
  (forall r, commands d !! id = Some r -> cm_state r = "SUBMITTING" -> cm_lease_owner r <> Some owner) ->
  run ids (_renew_lease id owner t1 t2) d = (d, inr false)
  /\ run ids (_record_failure id owner f t1 t2) d = (d, inr tt)
  /\ run ids (_persist_submission id owner c o t1) d
     = (d, inl (RuntimeError "telephony command submission ownership conflict"))
  /\ run ids (finalize id owner rb t1 t2) d
     = (d, inl (RuntimeError "telephony command finalization state conflict")).
Proof.
  intros Hl%lease_not_held. unfold run, with_session, _renew_lease, _record_failure, _persist_submission, finalize.
  unfold mbind, M_bind, query, guard_or. cbn [working]. rewrite Hl. done.
Qed.
End claims.
End TelephonySafety.
