(* ===== verification/TelephonyLifecycle.v ===== *)
(** * Telephony commands: life cycle

    How a command is created, retried and completed, and how an operation moves
    through its transitions: functional theorems of the API, the bound on
    attempts, and the cases in which the life cycle is not respected. *)

From Stdlib Require Import Ascii.
From S2P Require Import Prelude PyText PyTime Sha256 Txn PyUnicode TelephonyContracts TelephonyTables TelephonyApi TelephonyClient TelephonyWorker TelephonySafety.
Import TelephonyContracts TelephonyTables TelephonyApi TelephonyClient TelephonyWorker
  TelephonySystem TelephonySafety.
Local Open Scope string_scope.
Local Open Scope Z_scope.

Module TelephonyLifecycle.

(** ** Completion *)

Notation PENDING := "ODOO_RESULT_PENDING".

(** No command becomes [PENDING] from [d] to [d']. *)
Definition completes_none (d d' : db) : Prop :=
  forall id c', commands d' !! id = Some c' -> cm_state c' = PENDING ->
  exists c, commands d !! id = Some c /\ cm_state c = PENDING.

#[export] Instance completes_none_preorder : PreOrder completes_none.
Proof.
  split; [intros d id c ? ?; by exists c|]. intros d d' d'' H1 H2 id c Hc Hp.
  destruct (H2 id c Hc Hp) as (c' & Hc' & Hp'). by eapply H1.
Qed.

Lemma completes_none_set_command id f d :
  (forall c, cm_state (f c) = PENDING -> cm_state c = PENDING) -> completes_none d (set_command id f d).
Proof.
  intros Hf id' c Hc Hp. cbn in Hc. apply lookup_alter_Some in Hc as [(-> & c0 & Hc0 & ->)|[_ Hc]]; eauto.
Qed.
Lemma completes_none_commands d d' : commands d' = commands d -> completes_none d d'.
Proof. intros E id c Hc Hp. rewrite E in Hc. by exists c. Qed.
Lemma completes_none_insert_command c d d' :
  cm_state c <> PENDING -> insert_command c d = Some d' -> completes_none d d'.
Proof.
  intros Hs. unfold insert_command. case_match; [|done]. intros [= <-] id x Hx Hp. cbn in Hx.
  apply lookup_insert_Some in Hx as [[_ <-]|[_ Hx]]; [done|by exists x].
Qed.
Lemma insert_keeps_commands :
  (forall o d d', insert_operation o d = Some d' -> commands d' = commands d)
  /\ (forall id t d d', insert_transition id t d = Some d' -> commands d' = commands d)
  /\ (forall id r d d', insert_result id r d = Some d' -> commands d' = commands d)
  /\ (forall id r d d', insert_run id r d = Some d' -> commands d' = commands d).
Proof.
  unfold insert_operation, insert_transition, insert_result, insert_run.
  split_and!; intros *; (case_match; [|done]); by intros [= <-].
Qed.

Section completion.
Context `{CommandModels} (d0 : db).
Notation quiet := (keeps (completes_none d0)).

Lemma quiet_execute f : (forall d, completes_none d (f d)) -> quiet (execute f).
Proof. intros Hf. apply keeps_execute. intros d Hd. by etrans. Qed.
Lemma quiet_insert c f : (forall d d', f d = Some d' -> completes_none d d') -> quiet (insert_or c f).
Proof. intros Hf. apply keeps_insert_or. intros d d' Hd E. etrans; [done|]. eauto. Qed.
Lemma quiet_lift {A} (r : exn + A) : quiet (lift r).
Proof. destruct r; [apply keeps_raise|apply keeps_ret]. Qed.

Ltac calm :=
  repeat match goal with
  | |- keeps _ (execute (set_command _ _)) =>
      apply quiet_execute; intros ?; apply completes_none_set_command; intros ?; cbn; try done
  | |- keeps _ (execute _) => apply quiet_execute; intros ?; by apply completes_none_commands
  | |- keeps _ (insert_or _ _) =>
      apply quiet_insert; intros ? ?;
      try (intros ?%insert_keeps_commands; by apply completes_none_commands)
  | |- keeps _ (lift _) => apply quiet_lift
  | |- keeps _ (guard_or _ _ ;; _) => apply keeps_bind; [auto with mw|intros ?]
  | _ => keeps_step
  end.

Lemma serve_api_quiet r : quiet (serve_api r).
Proof.
  destruct r; apply keeps_bind; auto with mw.
  - apply keeps_post_command. intros body. unfold create_command, after_conflict. calm.
    intros E. eapply completes_none_insert_command, E. cbn. by case_match.
  - unfold cancel_command. calm.
  - unfold register_operation. calm.
  - unfold transition_operation. calm.
  - unfold create_terminal_result. calm.
  - unfold create_reconciliation_run. calm.
Qed.
Lemma begin_delivery_quiet public_id : quiet (begin_delivery public_id).
Proof. unfold begin_delivery. calm. Qed.
Lemma finish_delivery_quiet dl agrees : quiet (finish_delivery dl agrees).
Proof. unfold finish_delivery. calm. by destruct agrees. Qed.
Lemma renew_lease_quiet id owner t1 t2 : quiet (_renew_lease id owner t1 t2).
Proof. unfold _renew_lease. calm. Qed.
Lemma record_failure_quiet id owner f t1 t2 : quiet (_record_failure id owner f t1 t2).
Proof. unfold _record_failure. calm. unfold failed_row. cbn. by case_match. Qed.
Lemma persist_submission_quiet id owner c o t : quiet (_persist_submission id owner c o t).
Proof. unfold _persist_submission. calm. Qed.
Lemma claim_authorized_quiet env locked now : quiet (claim_authorized env locked now).
Proof. unfold claim_authorized. calm. Qed.
End completion.

Section lifecycle.
Context `{CommandModels}.

(** What finalizing writes, when the worker holds the lease. *)
Lemma run_finalize ids id owner rb t1 t2 d :
  (run ids (finalize id owner rb t1 t2) d).1 = d
  \/ holds_lease owner (commands d !! id) = true
     /\ commands (run ids (finalize id owner rb t1 t2) d).1
        = alter (fun c => c <| cm_state := final_state rb |> <| cm_next_attempt_at := None |>
                            <| cm_lease_owner := None |> <| cm_updated_at := t2 |>) id (commands d).
Proof.
  unfold run, with_session, finalize, mbind, M_bind, query, guard_or. cbn [working].
  destruct (holds_lease owner (commands d !! id)); [|by left].
  destruct (one_where _ _); [right|left]; done.
Qed.

(** ** What a worker knows of its command

    The hash an operation is compared with is that of the desired state of the
    request, or the one an operation of the command was journaled with. *)
Definition hash_known (id : uuid) (c : TelephonyCommandRequest) (o : operation) (d : db) : Prop :=
  o_desired_hash o = payload_hash (JObj (desired_state c))
  \/ exists oid row, operations d !! oid = Some row /\ op_command_id row = id
       /\ op_desired_hash row = o_desired_hash o.
Definition known (id : uuid) (c : TelephonyCommandRequest) (o : operation) (d : db) : Prop :=
  stored_request id c d /\ hash_known id c o d.

(** The readback a worker is about to write is one the adapter gave it. *)
Definition read_by (w : world) (owner : string) (id : uuid) (o : operation) (rb : readback_result) : Prop :=
  exists c request, read_of owner id c o request ∈ w_reads w /\ known id c o (w_db w)
    /\ readback c o request = inr rb.
Definition phase_known (w : world) (owner : string) (id : uuid) (p : phase) : Prop :=
  match p with
  | Loaded c (Some o) _ | Dispatched c o | Submitted c o => known id c o (w_db w)
  | ReadBack o rb => read_by w owner id o rb
  | Loaded c None _ => stored_request id c (w_db w)
  | _ => True
  end.
Definition readback_inv (w : world) : Prop :=
  forall owner k, w_workers w !! owner = Some k -> phase_known w owner (wk_command k) (wk_phase k).

Lemma known_retains id c o d d' : retains d d' -> known id c o d -> known id c o d'.
Proof.
  intros Hr [Hs Hh]. split; [by apply Hr|]. destruct Hh as [?|(oid & row & Ho & Hc & Hd)]; [by left|right].
  destruct (retains_operation _ _ _ _ Hr Ho) as (row' & Ho' & E). exists oid, row'.
  rewrite <- Hc, <- Hd.
  split_and!; [done|by apply (f_equal op_command_id) in E|by apply (f_equal op_desired_hash) in E].
Qed.

Lemma phase_known_step w w' owner id p :
  retains (w_db w) (w_db w') -> w_reads w ⊆ w_reads w' ->
  phase_known w owner id p -> phase_known w' owner id p.
Proof.
  intros Hr Hsub. destruct p as [|c [o|] ?|c o|c o| |o rb|]; cbn; try done;
    try (by apply known_retains); [by apply Hr|].
  intros (c & request & Hin & Hk & Hrb). exists c, request. split_and!; [by apply Hsub|by eapply known_retains|done].
Qed.

Lemma dispatch_hash id c resolve attest send o :
  dispatch id c resolve attest send = inr o -> o_desired_hash o = payload_hash (JObj (desired_state c)).
Proof.
  unfold dispatch. intros (route & _ & Hv)%failure_bind_ok. apply require_bind_ok in Hv as [_ Hv].
  apply failure_bind_ok in Hv as (b & _ & Hv). apply require_bind_ok in Hv as [_ Hv].
  destruct (send _ _ _); [by injection Hv as <-|done|].
  apply failure_bind_ok in Hv as (v & _ & Hv). apply require_bind_ok in Hv as [_ Hv].
  apply require_bind_ok in Hv as [_ Hv]. by injection Hv as <-.
Qed.

(** What a worker loads. *)
Lemma load_known ids id now w owner :
  phase_known w owner id (after_load (run ids (load_claim id now) (w_db w)).2).
Proof.
  change (wp (load_claim id now) (fun _ r => phase_known w owner id (after_load r))
    (Session (w_db w) (w_db w) (fun _ => 0) ids)).
  unfold load_claim, lift. wp_run; try done; [|by eexists _, _].
  split; [by eexists _, _|]. right.
  match goal with Hq : one_where _ _ = Some ?e |- _ =>
    apply head_Some_elem_of, elem_of_select_where in Hq as [Hc%bool_decide_eq_true [oid Ho]];
    exists oid, e; done end.
Qed.

Lemma while_lease_ok {A} (finished : bool) (r : failure + A) heartbeat v :
  _run_while_lease (if finished then Some r else None) heartbeat = inr v -> finished = true /\ r = inr v.
Proof. destruct finished; [done|]. by destruct heartbeat. Qed.

(** A worker moved to a phase that is known, while the others stay. *)
Lemma readback_inv_moved w w' owner id q p :
  w_workers w !! owner = Some (mkWorker id q) ->
  retains (w_db w) (w_db w') -> w_reads w ⊆ w_reads w' ->
  w_workers w' = alter (fun k => mkWorker (wk_command k) p) owner (w_workers w) ->
  (phase_known w owner id q -> phase_known w' owner id p) ->
  readback_inv w -> readback_inv w'.
Proof.
  intros Hq Hr Hsub Hw Hp Hi owner' k Hk. rewrite Hw in Hk.
  apply lookup_alter_Some in Hk as [(-> & k' & Hk' & ->)|[_ Hk]]; [|by eapply phase_known_step, Hi].
  rewrite Hq in Hk'. injection Hk' as <-. apply Hp. exact (Hi _ _ Hq).
Qed.

Lemma readback_inv_step w w' : wstep w w' -> readback_inv w -> readback_inv w'.
Proof.
  intros Hs Hi. pose proof (wstep_retains _ _ Hs) as Hr.
  assert (Hsub : w_reads w ⊆ w_reads w')
    by (destruct Hs; try done; destruct finished; cbn; set_solver).
  destruct Hs;
    try (by intros owner' k' Hk; apply (phase_known_step _ _ _ _ _ Hr Hsub), (Hi _ _ Hk));
    try (eapply readback_inv_moved; [eassumption|exact Hr|exact Hsub|reflexivity| |exact Hi];
         try (intros _; exact I)).
  - intros owner' k Hk. cbn in Hk. apply lookup_insert_Some in Hk as [[<- <-]|[_ Hk]]; [done|].
    by eapply phase_known_step, Hi.
  - intros _. eapply (phase_known_step w); [exact Hr|exact Hsub|apply load_known].
  - intros Hc. unfold after_dispatch. destruct (_run_while_lease _ _) as [?|o] eqn:E; [done|]. apply while_lease_ok in E as [_ E].
    split; [exact Hc|]. left. by eapply dispatch_hash.
  - intros Hk. unfold after_persist. destruct (run _ _ _).2; [done|]. by eapply known_retains.
  - done.
  - intros Hk. unfold after_readback. destruct (_run_while_lease _ _) as [?|rb] eqn:E; [done|]. apply while_lease_ok in E as [-> E].
    exists c, request. split_and!; [cbn; set_solver|exact Hk|exact E].
  - intros owner' k Hk. cbn in Hk. apply lookup_alter_Some in Hk as [(-> & k' & Hk' & ->)|[_ Hk]]; [done|by apply Hi].
Qed.

Lemma reachable_readback_inv w : reachable_world w -> readback_inv w.
Proof.
  intros Hr. unfold reachable_world in Hr. apply rtc_ind_r with (P := readback_inv) in Hr; [done| |].
  - intros ? ?. cbn. by rewrite lookup_empty.
  - intros w1 w2 _ Hs Hi. by eapply readback_inv_step.
Qed.

(** ** What a readback reports *)

(** The members of the state an adapter reports: those under [desired_state], or
    those of the answer itself. *)
Definition reported_state (actual : list (string * json)) : option (list (string * json)) :=
  match dict_get actual "desired_state" with
  | None => Some actual
  | Some (JObj members) => Some members
  | Some _ => None
  end.

(** The answer is a success that reports, for each field of the request's
    desired state, a value (null when it is not reported), and these together
    have the hash [h]. *)
Definition reports (answer : http_answer) (c : TelephonyCommandRequest) (h : string) : Prop :=
  exists status actual members,
    answer = HttpResponse status (Some (JObj actual)) /\ 200 <= status <= 299
    /\ reported_state actual = Some members
    /\ payload_hash (JObj ((fun field => (field, coalesce (dict_get members field) JNull))
                             <$> (desired_state c).*1)) = h.

Lemma matching_readback_reports owner id c o request rb :
  readback c o request = inr rb -> b_readback_matches rb = true ->
  reports (rd_answer (read_of owner id c o request)) c (o_desired_hash o).
Proof.
  unfold readback, read_of. cbn [rd_answer]. destruct (request _ _) as [| |status body]; [done..|].
  intros [_ Hv]%require_bind_ok Hm. apply failure_bind_ok in Hv as (v & Hs & Hv).
  unfold success_json in Hs. apply require_bind_ok in Hs as [Hst Hb].
  apply andb_true_iff in Hst as [?%Z.leb_le ?%Z.leb_le]. destruct body as [v'|]; [|done]. injection Hb as ->.
  destruct v as [| | | | | |actual]; try done. exists status, actual.
  unfold normalized_actual_state in Hv. unfold reported_state.
  destruct (dict_get actual "desired_state") as [[| | | | | |members]|]; cbn [coalesce] in Hv;
    try discriminate Hv; injection Hv as <-; cbn [b_readback_matches] in Hm;
    apply bool_decide_eq_true in Hm; rewrite <- Hm; eexists;
    (split; [reflexivity|]); (split; [lia|]); (split; [reflexivity|]);
    exact (f_equal (fun m => payload_hash (JObj m)) (eq_sym (list_fmap_compose _ _ _))).
Qed.

Lemma wstep_completes w w' :
  wstep w w' -> completes_none (w_db w) (w_db w')
  \/ exists ids owner id o rb t1 t2, w_workers w !! owner = Some (mkWorker id (ReadBack o rb))
     /\ w_db w' = (run ids (finalize id owner rb t1 t2) (w_db w)).1.
Proof.
  assert (Hrun : forall A ids (m : M db A) d, (forall d0, keeps (completes_none d0) m) ->
    completes_none d (run ids m d).1)
    by (intros A ids m d Hm; unfold run; by apply (keeps_with_session (completes_none d))).
  destruct 1; try (right; by eauto 10); left;
    first [reflexivity|by apply completes_none_commands|apply (Hrun _ _ _ (w_db _))];
    auto using serve_api_quiet, begin_delivery_quiet, finish_delivery_quiet, renew_lease_quiet,
      record_failure_quiet, persist_submission_quiet, claim_authorized_quiet.
Qed.

(** C13. Only a verified readback completes a command: when a step makes a
    command [ODOO_RESULT_PENDING], it is the finalization of the worker that
    holds the command's lease, and that worker was given a successful answer by
    the adapter for the stored request: its values for the fields of the desired
    state together have the hash of the desired state of the request, or the one
    the command's operation was journaled with. *)
Theorem completed_only_on_match w w' id c' :
  reachable_world w -> wstep w w' ->
  commands (w_db w') !! id = Some c' -> cm_state c' = "ODOO_RESULT_PENDING" ->
  (exists c, commands (w_db w) !! id = Some c /\ cm_state c = "ODOO_RESULT_PENDING")
  \/ exists e c,
       e ∈ w_reads w /\ rd_command e = id
       /\ commands (w_db w) !! id = Some c /\ cm_state c = "SUBMITTING"
       /\ cm_lease_owner c = Some (rd_owner e)
       /\ stored_request id (rd_request e) (w_db w)
       /\ reports (rd_answer e) (rd_request e) (o_desired_hash (rd_operation e))
       /\ (o_desired_hash (rd_operation e) = payload_hash (JObj (desired_state (rd_request e)))
           \/ exists oid row, operations (w_db w) !! oid = Some row /\ op_command_id row = id
                /\ op_desired_hash row = o_desired_hash (rd_operation e)).
Proof.
  intros Hr Hs Hc' Hp.
  destruct (wstep_completes _ _ Hs) as [Hq|(ids & owner & id0 & o & rb & t1 & t2 & Hk & Hdb)];
    [left; by eapply Hq|].
  rewrite Hdb in Hc'. destruct (run_finalize ids id0 owner rb t1 t2 (w_db w)) as [E|[Hl E]];
    rewrite E in Hc'; [left; by exists c'|].
  apply lookup_alter_Some in Hc' as [(-> & c & Hc & ->)|[_ Hc]]; [right|left; by exists c'].
  rewrite Hc in Hl. cbn in Hl, Hp.
  apply andb_true_iff in Hl as [?%bool_decide_eq_true ?%bool_decide_eq_true].
  destruct (reachable_readback_inv w Hr _ _ Hk) as (cmd & request & Hin & [Hst Hh] & Hrb).
  exists (read_of owner id cmd o request), c. split_and!; try done.
  eapply matching_readback_reports; [exact Hrb|]. unfold final_state in Hp. by destruct (b_readback_matches rb).
Qed.

(** ** Retries end *)

(** One attempt that fails: a worker claims, and records its failure. *)
Record attempt := mkAttempt {
  at_ids : nat -> uuid;
  at_environment : string;
  at_locked : uuid -> bool;
  at_claimed : Z;
  at_failure : failure;
  at_next : Z;
  at_updated : Z;
}.
(** [None] when the claim does not get the command. *)
Definition failed_attempt (id : uuid) (a : attempt) (d : db) : option db :=
  match run (at_ids a) (claim_authorized (at_environment a) (at_locked a) (at_claimed a)) d with
  | (d', inr (Some (id', owner))) =>
      if bool_decide (id' = id)
      then Some (run (at_ids a) (_record_failure id owner (at_failure a) (at_next a) (at_updated a)) d').1
      else None
  | _ => None
  end.
Fixpoint failed_attempts (id : uuid) (l : list attempt) (d : db) : option db :=
  match l with
  | [] => Some d
  | a :: l' => d' ← failed_attempt id a d; failed_attempts id l' d'
  end.

(** A failure that no retry mends: a contract violation the client found, or an
    HTTP answer that blames the request, other than a timeout, a conflict, a
    request sent too early or too often. *)
Definition permanent_failure (f : failure) : Prop :=
  match f with
  | TelephonyClientError _ => True
  | HTTPStatusError status => 400 <= status < 500 /\ status ∉ [408; 409; 425; 429]
  | TelephonyReadbackPending _ | OtherError _ => False
  end.

Lemma permanent_iff f : _permanent f = true <-> permanent_failure f.
Proof.
  destruct f; cbn; [done| | |done].
  - done.
  - rewrite !andb_true_iff, negb_true_iff, bool_decide_eq_false, Z.leb_le, Z.ltb_lt. tauto.
Qed.

(** Where an attempt leaves the command. *)
Definition retry_state (c : command_row) : Prop :=
  cm_state c = "FAILED_PERMANENT"
  \/ cm_state c = "FAILED_TRANSIENT" /\ cm_attempt_count c < MAX_ATTEMPTS.

Lemma run_record_failure ids id owner f t1 t2 d c :
  commands d !! id = Some c -> holds_lease owner (Some c) = true ->
  (run ids (_record_failure id owner f t1 t2) d).1 = set_command id (failed_row f t1 t2) d.
Proof.
  intros Hc Hl. unfold run, with_session, _record_failure, mbind, M_bind, query. cbn [working].
  by rewrite Hc, Hl.
Qed.

Definition keyed_commands (d : db) : Prop :=
  forall id c, commands d !! id = Some c -> cm_command_id c = id.

Lemma keyed_set_command d id f :
  (forall c, cm_command_id (f c) = cm_command_id c) -> keyed_commands d -> keyed_commands (set_command id f d).
Proof.
  intros Hf Hk id' c Hc. cbn in Hc. apply lookup_alter_Some in Hc as [(-> & c0 & Hc0 & ->)|[_ ?]];
    [rewrite Hf|]; by apply Hk.
Qed.

Lemma failed_attempt_spec id a d d' c :
  keyed_commands d -> commands d !! id = Some c -> failed_attempt id a d = Some d' ->
  cm_state c <> "FAILED_PERMANENT" /\ keyed_commands d'
  /\ exists c', commands d' !! id = Some c'
     /\ cm_attempt_count c' = cm_attempt_count c + 1 /\ retry_state c'
     /\ (cm_state c' = "FAILED_PERMANENT" <->
           permanent_failure (at_failure a) \/ MAX_ATTEMPTS <= cm_attempt_count c').
Proof.
  intros Hk Hc. unfold failed_attempt. rewrite run_claim.
  destruct (next_claim _ _ _ d) as [x|] eqn:Hx; [|done].
  apply next_claim_spec in Hx as (Hcl & _ & [k Hxk] & _). rewrite (Hk _ _ Hxk).
  case_bool_decide as E; [|done]. subst k. replace x with c in * by congruence.
  set (owner := uuid_hex _).
  assert (Hn : commands (set_command id (claimed_by owner (at_claimed a)) d) !! id
    = Some (claimed_by owner (at_claimed a) c)) by (cbn; by rewrite lookup_alter_eq, Hc).
  rewrite (run_record_failure _ _ _ _ _ _ _ _ Hn) by (cbn; by rewrite !bool_decide_true).
  intros [= <-].
  split_and!.
  - intros E. unfold claimable in Hcl. rewrite E in Hcl. by rewrite andb_false_r in Hcl.
  - apply keyed_set_command; [done|]. by apply keyed_set_command.
  - eexists. split; [cbn; rewrite lookup_alter_eq, lookup_alter_eq, Hc; done|].
    split; [done|]. unfold retry_state, failed_row. cbn. rewrite <- permanent_iff, <- Z.leb_le.
    destruct (_permanent _); [split; [by left|split; [intros _; by left|done]]|].
    destruct (MAX_ATTEMPTS <=? _) eqn:Hm; cbn; [split; [by left|split; [intros _; by right|done]]|].
    apply Z.leb_gt in Hm. split; [by right|]. split; [done|]. by intros [?|?].
Qed.

Lemma failed_attempts_first id l d d' c :
  keyed_commands d -> commands d !! id = Some c -> l <> [] -> failed_attempts id l d = Some d' ->
  cm_state c <> "FAILED_PERMANENT".
Proof.
  intros Hk Hc Hne Hl. destruct l as [|a l]; [done|]. cbn in Hl.
  destruct (failed_attempt id a d) as [d1|] eqn:E; [|done].
  by destruct (failed_attempt_spec _ _ _ _ _ Hk Hc E) as [? _].
Qed.

(** Each attempt of a run counts, and only the last may be the permanent one. *)
Lemma failed_attempts_spec id l a d d' c :
  keyed_commands d -> commands d !! id = Some c -> failed_attempts id (l ++ [a]) d = Some d' ->
  exists c', keyed_commands d' /\ commands d' !! id = Some c'
    /\ cm_attempt_count c' = cm_attempt_count c + Z.of_nat (S (length l)) /\ retry_state c'
    /\ (cm_state c' = "FAILED_PERMANENT" <->
          permanent_failure (at_failure a) \/ MAX_ATTEMPTS <= cm_attempt_count c')
    /\ (l <> [] -> cm_attempt_count c + Z.of_nat (length l) < MAX_ATTEMPTS)
    /\ Forall (fun b => ~ permanent_failure (at_failure b)) l.
Proof.
  revert d c. induction l as [|b l IH]; intros d c Hk Hc Hl; cbn in Hl.
  - destruct (failed_attempt id a d) as [d1|] eqn:E; [|done]. injection Hl as <-.
    destruct (failed_attempt_spec _ _ _ _ _ Hk Hc E) as (_ & Hk1 & c1 & Hc1 & Ha & Hr1 & Hp).
    exists c1. split_and!; done.
  - destruct (failed_attempt id b d) as [d1|] eqn:E; [|done]. cbn in Hl.
    destruct (failed_attempt_spec _ _ _ _ _ Hk Hc E) as (_ & Hk1 & c1 & Hc1 & Ha & _ & Hp1).
    assert (Hne : (l ++ [a])%list <> []) by (by destruct l).
    pose proof (failed_attempts_first _ _ _ _ _ Hk1 Hc1 Hne Hl) as Hs.
    destruct (IH d1 c1 Hk1 Hc1 Hl) as (c' & Hk' & Hc' & Ha' & Hr' & Hp & Hlt & Hf).
    rewrite Hp1 in Hs. exists c'. split_and!; try done; [cbn [length] in *; lia| |constructor; tauto].
    intros _. destruct l as [|x l]; [cbn; lia|]. specialize (Hlt ltac:(done)). cbn [length] in *. lia.
Qed.

(** C14. Retrying ends: however its attempts fail, a new command is claimed for
    at most eight attempts whose failures are recorded.  After the last of them
    the command is [FAILED_PERMANENT] when that failure was permanent or was the
    eighth, and then no claim takes it; in every other case it is
    [FAILED_TRANSIENT].  No attempt before the last failed permanently. *)
Theorem retries_end id l d d' c :
  keyed_commands d -> commands d !! id = Some c -> cm_state c = "AUTHORIZED" ->
  cm_attempt_count c = 0 -> failed_attempts id l d = Some d' ->
  Z.of_nat (length l) <= MAX_ATTEMPTS
  /\ (forall before a, l = (before ++ [a])%list -> exists c', commands d' !! id = Some c'
        /\ cm_attempt_count c' = Z.of_nat (length l) /\ retry_state c'
        /\ (cm_state c' = "FAILED_PERMANENT" <->
              permanent_failure (at_failure a) \/ Z.of_nat (length l) = MAX_ATTEMPTS)
        /\ (cm_state c' = "FAILED_PERMANENT" -> forall a, failed_attempt id a d' = None)
        /\ Forall (fun b => ~ permanent_failure (at_failure b)) before).
Proof.
  intros Hk Hc _ Hz Hl.
  assert (Hlen : forall before a, l = (before ++ [a])%list -> Z.of_nat (length l) <= MAX_ATTEMPTS).
  { intros before a ->. destruct (failed_attempts_spec _ _ _ _ _ _ Hk Hc Hl) as (c' & _ & _ & _ & _ & _ & Hlt & _).
    rewrite length_app, Nat.add_comm. destruct before; [done|]. specialize (Hlt ltac:(done)). cbn [length Nat.add] in *. lia. }
  split. { destruct l as [|a l _] using rev_ind; [done|by eapply Hlen]. }
  intros before a ->. pose proof (Hlen _ _ eq_refl) as Hle.
  destruct (failed_attempts_spec _ _ _ _ _ _ Hk Hc Hl) as (c' & Hk' & Hc' & Ha & Hr & Hp & _ & Hf).
  rewrite length_app, Nat.add_comm in *. cbn [length Nat.add] in *. rewrite Hz, Z.add_0_l in Ha.
  exists c'. split_and!; [done..| | |done].
  - rewrite Hp, Ha. split; (intros [?|?]; [by left|right; lia]).
  - intros Hfp b. destruct (failed_attempt id b d') as [d2|] eqn:E; [|done].
    by destruct (failed_attempt_spec _ _ _ _ _ Hk' Hc' E) as [? _].
Qed.

(** ** Expired commands *)

(** Every other row is locked, or there is none. *)
Definition others (id x : uuid) : bool := negb (x =? id)%N.

Lemma claim_only id env now d c :
  keyed_commands d -> commands d !! id = Some c -> claimable env now c = true ->
  next_claim env (others id) now d = Some c.
Proof.
  intros Hk Hc Hcl. destruct (next_claim env (others id) now d) as [x|] eqn:E.
  - apply next_claim_spec in E as (_ & Hx & [k Hxk] & _). rewrite (Hk _ _ Hxk) in Hx.
    unfold others in Hx. apply negb_false_iff, N.eqb_eq in Hx as ->. congruence.
  - unfold next_claim in E. apply head_None in E. exfalso.
    assert (Hin : c ∈ select_where (fun c => claimable env now c && negb (others id (cm_command_id c)))
      (commands d)).
    { apply elem_of_select_where. split; [|by exists id]. rewrite Hcl, (Hk _ _ Hc). unfold others.
      by rewrite N.eqb_refl. }
    rewrite <- sort_by_perm, E in Hin. by apply elem_of_nil in Hin.
Qed.

(** [n] claims of the command, each when the lease of the one before runs out. *)
Fixpoint lapsed_claims (ids : nat -> uuid) (env : string) (id : uuid) (t : Z) (n : nat) (d : db) : db :=
  match n with
  | O => d
  | S m => let d' := lapsed_claims ids env id t m d in
           (run ids (claim_authorized env (others id) (t + seconds (LEASE_SECONDS * Z.of_nat m))) d').1
  end.

(** An expired command is retried for ever: the stored request is validated
    again after each claim, outside the part of [dispatch_one] that records
    failures, so an expired command that can be claimed stays [SUBMITTING], is
    claimed again whenever the lease runs out, and its attempts grow beyond
    every bound, [MAX_ATTEMPTS] included. *)
Theorem expired_command_never_fails ids env id t d c e :
  keyed_commands d -> commands d !! id = Some c -> claimable env t c = true ->
  (forall now, t <= now -> model_validate (cm_request_json c) now = inl e) ->
  forall n, exists c', commands (lapsed_claims ids env id t (S n) d) !! id = Some c'
    /\ cm_state c' = "SUBMITTING" /\ cm_attempt_count c' = cm_attempt_count c + Z.of_nat (S n)
    /\ forall now, t <= now ->
         run ids (load_claim id now) (lapsed_claims ids env id t (S n) d)
         = (lapsed_claims ids env id t (S n) d, inl e).
Proof.
  intros Hk Hc Hcl Hv n.
  assert (Hmain : forall m, keyed_commands (lapsed_claims ids env id t m d)
    /\ exists c', commands (lapsed_claims ids env id t m d) !! id = Some c'
      /\ claimable env (t + seconds (LEASE_SECONDS * Z.of_nat m)) c' = true
      /\ cm_attempt_count c' = cm_attempt_count c + Z.of_nat m
      /\ cm_request_json c' = cm_request_json c /\ cm_environment c' = env
      /\ (m <> O -> cm_state c' = "SUBMITTING")).
  { induction m as [|m (IHk & c' & IHc & IHcl & IHa & IHr & IHe & _)].
    - split; [done|]. exists c. rewrite Z.add_0_r. split_and!; [done|done|cbn; lia|done| |done].
      unfold claimable in Hcl. apply andb_true_iff in Hcl as [?%bool_decide_eq_true _]. done.
    - cbn [lapsed_claims]. rewrite run_claim, (claim_only _ _ _ _ _ IHk IHc IHcl), (IHk _ _ IHc). cbn [fst].
      split; [by apply keyed_set_command|]. eexists. split; [cbn; by rewrite lookup_alter_eq, IHc|].
      cbn [fmap]. split_and!; [|cbn; lia|done|done|done].
      unfold claimable. cbn. rewrite IHe, bool_decide_true by done. cbn. apply Z.leb_le.
      unfold seconds, LEASE_SECONDS. lia. }
  destruct (Hmain (S n)) as (_ & c' & Hc' & _ & Ha & Hr & _ & Hs). exists c'.
  split_and!; [done|by apply Hs|done|]. intros now Hnow.
  unfold run, with_session, load_claim, mbind, M_bind, query. cbn [working]. rewrite Hc'. cbn.
  by rewrite Hr, Hv.
Qed.

(** ** Creation *)

Lemma latest_version_bound env kind id d x k :
  commands d !! k = Some x -> same_aggregate env kind id x = true ->
  exists v, latest_version env kind id d = Some v /\ cm_aggregate_version x <= v.
Proof.
  intros Hx Hs. assert (Hin : x ∈ select_where (same_aggregate env kind id) (commands d))
    by (apply elem_of_select_where; eauto).
  unfold latest_version. revert Hin. generalize (select_where (same_aggregate env kind id) (commands d)).
  intros l. set (f := fun acc c => _).
  assert (Hgrow : forall l v, exists v', fold_left f l (Some v) = Some v' /\ v <= v').
  { induction l0 as [|y l0 IH]; intros v; cbn; [by exists v|].
    destruct (IH (Z.max v (cm_aggregate_version y))) as (v' & ? & ?). exists v'. split; [done|lia]. }
  assert (Hacc : forall l acc, x ∈ l -> exists v, fold_left f l acc = Some v /\ cm_aggregate_version x <= v).
  { induction l0 as [|y l0 IH]; intros acc Hin; [by apply elem_of_nil in Hin|].
    apply elem_of_cons in Hin as [<-|Hin]; [|by apply IH].
    cbn. destruct (Hgrow l0 (match acc with Some v => Z.max v (cm_aggregate_version x)
      | None => cm_aggregate_version x end)) as (v & Hv & Hle).
    exists v. split; [done|]. destruct acc; lia. }
  intros Hin. by apply Hacc.
Qed.

(** The request with the decision it is bound to. *)
Definition bound_to (decision : decision_row) (body : TelephonyCommandRequest) : TelephonyCommandRequest :=
  match policy_decision_id body with
  | None => body <| policy_decision_id := Some (uuid_str (pd_id decision)) |>
  | Some _ => body
  end.

(** What a successful creation did. *)
Definition created (body : TelephonyCommandRequest) (now : Z) (d d' : db) (v : command_view) : Prop :=
  exists decision,
    stored_decision decision d
    /\ let body := bound_to decision body in
    (v_replayed v = true /\ d' = d
     /\ exists id row, commands d !! id = Some row /\ v = _command_view true row
          /\ cm_idempotency_hash row = stable_idempotency_key body
          /\ cm_request_hash row = request_hash body)
    \/ (v_replayed v = false
        /\ check_decision body decision now = inr tt
        /\ exists id row, commands d !! id = None /\ d' = d <| commands ::= <[id := row]> |>
             /\ v = _command_view false row
             /\ cm_request_json row = model_dump body /\ cm_request_hash row = request_hash body
             /\ cm_idempotency_hash row = stable_idempotency_key body
             /\ cm_state row = (if pd_allowed decision && is_enforced (pd_context decision)
                                then "AUTHORIZED" else "POLICY_DENIED")
             /\ (forall k x, commands d !! k = Some x ->
                   same_aggregate (environment body) (aggregate_type body) (aggregate_public_id body) x
                   = true -> cm_aggregate_version x < cm_aggregate_version row)).

Lemma found_decision body d p :
  match policy_decision_id body with
  | Some text => if bool_decide (text = "") then latest_decision (correlation_id body) d
                 else get_decision text d
  | None => latest_decision (correlation_id body) d
  end = Some p -> stored_decision p d.
Proof.
  assert (Hl : forall c, latest_decision c d = Some p -> stored_decision p d).
  { intros c Hp. unfold latest_decision in Hp. apply head_Some_elem_of in Hp.
    rewrite sort_by_perm in Hp. by apply elem_of_select_where in Hp as [_ ?]. }
  intros Hp. repeat case_match; eauto. unfold get_decision, one_where in Hp.
  by apply head_Some_elem_of, elem_of_select_where in Hp as [_ ?].
Qed.

Lemma one_where_some {V} (q : V -> bool) (t : gmap uuid V) v :
  one_where q t = Some v -> q v = true /\ exists id, t !! id = Some v.
Proof. intros Hv. by apply head_Some_elem_of, elem_of_select_where in Hv. Qed.

Lemma not_stale_above body d row :
  negb (stale_version body (latest_of body d)) = true -> cm_aggregate_version row = aggregate_version body ->
  forall k x, commands d !! k = Some x ->
    same_aggregate (environment body) (aggregate_type body) (aggregate_public_id body) x = true ->
    cm_aggregate_version x < cm_aggregate_version row.
Proof.
  intros Hn Hrow k x Hx Hs. destruct (latest_version_bound _ _ _ _ _ _ Hx Hs) as (v & Hv & Hle).
  unfold latest_of in Hn. rewrite Hv in Hn. cbn in Hn. apply negb_true_iff, Z.leb_gt in Hn. lia.
Qed.

Lemma insert_command_some c d d' :
  insert_command c d = Some d' ->
  commands d !! cm_command_id c = None /\ d' = d <| commands ::= <[cm_command_id c := c]> |>.
Proof.
  unfold insert_command. destruct (is_null _) eqn:E; [|done]. apply null_lookup in E.
  case_match; [|done]. by intros [= <-].
Qed.

(** The answer of the [except IntegrityError] clause leaves the stored tables. *)
Lemma after_conflict_wp body row s :
  wp (after_conflict body row) (fun s' r => committed s' = committed s
    /\ forall v, r = inr v -> exists id x, commands (committed s) !! id = Some x
         /\ v = _command_view true x /\ cm_idempotency_hash x = cm_idempotency_hash row
         /\ cm_request_hash x = cm_request_hash row) s.
Proof.
  unfold after_conflict. apply wp_bind. unfold wp at 1, rollback. cbn. wp_run; try done; cbn.
  all: split; [done|]; intros v [= <-].
  destruct (one_where_some _ _ _ Heqo) as [Hh%bool_decide_eq_true [id Hid]]. exists id, c.
  apply bool_decide_eq_true in Heqb. done.
Qed.

Lemma create_command_created ids body key t_record t_check d d' v :
  run ids (create_command body key t_record t_check) d = (d', inr v) ->
  key = idempotency_key body /\ created body t_check d d' v.
Proof.
  intros E. assert (Hwp : wp (create_command body key t_record t_check)
    (fun s r => forall v, r = inr v -> key = idempotency_key body /\ created body t_check d (committed s) v)
    (Session d d (fun _ => 0) ids)).
  { clear E d' v. unfold create_command. apply wp_bind, wp_guard_or; [intros Hkey|done].
    apply bool_decide_eq_true in Hkey. apply wp_bind, wp_query. wp_simpl.
    apply wp_bind, wp_some_or; [intros p Hp%found_decision|done]. wp_simpl.
    change (match policy_decision_id body with
      | Some _ => body | None => _ end) with (bound_to p body).
    apply wp_bind, wp_uuid4. wp_simpl. set (values := new_command_record _ _ _).
    apply wp_bind, wp_query. wp_simpl.
    destruct (one_where _ (commands d)) as [x|] eqn:Hx.
    { destruct (one_where_some _ _ _ Hx) as [Hh%bool_decide_eq_true [id Hid]].
      apply wp_bind, wp_guard_or; [intros Hr%bool_decide_eq_true|done]. apply wp_ret. cbn. intros v [= <-].
      split; [done|]. exists p. split; [done|]. left. split_and!; try done. by exists id, x. }
    apply wp_bind. unfold lift. destruct (check_decision _ p t_check) as [e|[]] eqn:Hcd; [done|].
    apply wp_ret. apply wp_bind, wp_query. wp_simpl.
    apply wp_bind, wp_guard_or; [intros Hst|done]. wp_simpl. cbv zeta.
    set (row := values <| cm_state := _ |>).
    apply wp_try, wp_bind, wp_guard_or; [intros _|done]. apply wp_bind, wp_insert_or.
    - intros d2 [Hn ->]%insert_command_some. apply wp_bind, wp_commit, wp_ret. wp_simpl. intros v [= <-].
      split; [done|]. exists p. split; [done|]. right. split_and!; [done|done|].
      exists (cm_command_id row), row. split_and!; try done. by eapply not_stale_above.
    - intros _. eapply wp_mono; [|apply after_conflict_wp]. cbn. intros s' r [Hs Hr] v ->.
      destruct (Hr v eq_refl) as (id & x & Hid & -> & Hh & Hq). split; [done|]. exists p. split; [done|].
      left. split_and!; try done. by exists id, x. }
  specialize (Hwp v). unfold run, with_session in E. injection E as <- Hr. by apply Hwp.
Qed.
(** Creating a command: a successful call either returns the command
    already journaled under the same idempotency hash and with the same request,
    leaving the tables as they are; or it journals one new row whose stored
    decision has the command's correlation id and hash, covers its scope and has
    not expired, which is [AUTHORIZED] exactly when that decision allows and is
    enforced, and whose version is above that of every command of the aggregate. *)
Theorem create_command_spec ids body key t_record t_check d d' v :
  run ids (create_command body key t_record t_check) d = (d', inr v) ->
  (v_replayed v = true /\ d' = d
   /\ exists id row, commands d !! id = Some row /\ v = _command_view true row
        /\ cm_idempotency_hash row = stable_idempotency_key body)
  \/ (v_replayed v = false
      /\ exists decision id row,
          let body := bound_to decision body in
          stored_decision decision d /\ check_decision body decision t_check = inr tt
          /\ commands d !! id = None /\ d' = d <| commands ::= <[id := row]> |>
          /\ v = _command_view false row /\ cm_request_json row = model_dump body
          /\ (cm_state row = "AUTHORIZED" <->
                pd_allowed decision = true /\ is_enforced (pd_context decision) = true)
          /\ (cm_state row = "AUTHORIZED" \/ cm_state row = "POLICY_DENIED")
          /\ forall k x, commands d !! k = Some x ->
               same_aggregate (environment body) (aggregate_type body) (aggregate_public_id body) x = true ->
               cm_aggregate_version x < cm_aggregate_version row).
Proof.
  intros (_ & p & Hp & [(Hv & Hd & id & row & ? & ? & Hh & _)|(Hv & Hc & id & row & ? & ? & ? & ? & _ & _ & Hs & ?)])
    %create_command_created.
  - left. split_and!; [done..|]. exists id, row. split_and!; [done..|].
    rewrite Hh. unfold bound_to. by destruct (policy_decision_id body).
  - right. split; [done|]. exists p, id, row. split_and!; try done.
    + rewrite Hs, <- andb_true_iff. by destruct (_ && _).
    + rewrite Hs. destruct (_ && _); auto.
Qed.
End lifecycle.
End TelephonyLifecycle.
