(* ===== verification/TelephonyJournal.v ===== *)
(** * Telephony commands: the journals stay consistent

    Idempotency hashes stay unique, so a repeated creation finds the command
    made by the first; and the transitions of an operation are numbered without
    gap and follow the table of moves. *)

From Stdlib Require Import Ascii.
From S2P Require Import Prelude PyText PyTime Sha256 Txn PyUnicode TelephonyContracts TelephonyTables TelephonyApi TelephonyClient TelephonyWorker TelephonySafety TelephonyLifecycle.
Import TelephonyContracts TelephonyTables TelephonyApi TelephonyClient TelephonyWorker
  TelephonySystem TelephonySafety TelephonyLifecycle.
Local Open Scope string_scope.
Local Open Scope Z_scope.

Module TelephonyJournal.

Record journal_inv (d : db) : Prop := mkJournalInv {
  (** one command per idempotency hash *)
  ji_unique : forall k k' c c', commands d !! k = Some c -> commands d !! k' = Some c' ->
    cm_idempotency_hash c = cm_idempotency_hash c' -> k = k';
  ji_keyed : forall oid o, operations d !! oid = Some o ->
    op_operation_id o = oid /\ 0 <= op_transition_sequence o;
  (** each transition is a move of the table, within the operation's count *)
  ji_known : forall tid t, transitions d !! tid = Some t ->
    exists o, operations d !! tr_operation_id t = Some o
      /\ 1 <= tr_sequence t <= op_transition_sequence o
      /\ tr_to_state t ∈ _TRANSITIONS (tr_from_state t);
  (** every number up to the count is there, once *)
  ji_complete : forall oid o n, operations d !! oid = Some o -> 1 <= n <= op_transition_sequence o ->
    exists tid t, transitions d !! tid = Some t /\ tr_operation_id t = oid /\ tr_sequence t = n;
  ji_once : forall tid tid' t t', transitions d !! tid = Some t -> transitions d !! tid' = Some t' ->
    tr_operation_id t = tr_operation_id t' -> tr_sequence t = tr_sequence t' -> tid = tid';
}.

Lemma absent_spec {V} (p : V -> bool) (t : gmap uuid V) k v :
  absent p t = true -> t !! k = Some v -> p v = false.
Proof. rewrite absent_true. eauto. Qed.

Lemma journal_inv_same d d' :
  commands d' = commands d -> operations d' = operations d -> transitions d' = transitions d ->
  journal_inv d -> journal_inv d'.
Proof. intros E1 E2 E3 [U K N C O]. by split; rewrite ?E1, ?E2, ?E3. Qed.

Lemma journal_inv_set_command d id f :
  (forall c, cm_idempotency_hash (f c) = cm_idempotency_hash c) ->
  journal_inv d -> journal_inv (set_command id f d).
Proof.
  intros Hf [U K N C O]. split; [|done..]. intros k k' c c' Hc Hc'. cbn in Hc, Hc'.
  apply lookup_alter_Some in Hc as [(-> & c1 & Hc & ->)|[_ Hc]];
    apply lookup_alter_Some in Hc' as [(-> & c2 & Hc' & ->)|[_ Hc']]; rewrite ?Hf; eauto.
Qed.

Lemma journal_inv_set_operation d id f :
  (forall o, op_operation_id (f o) = op_operation_id o) ->
  (forall o, op_transition_sequence (f o) = op_transition_sequence o) ->
  journal_inv d -> journal_inv (set_operation id f d).
Proof.
  intros Hf Hg [U K N C O]. split; [done| | | |done].
  - intros oid o Ho. cbn in Ho.
    apply lookup_alter_Some in Ho as [(-> & o1 & Ho & ->)|[_ Ho]]; rewrite ?Hf, ?Hg; by apply K.
  - intros tid t Ht. destruct (N tid t Ht) as (o & Ho & Hs & Hm). cbn.
    destruct (decide (id = tr_operation_id t)) as [->|].
    + exists (f o). rewrite lookup_alter_eq, Ho, Hg. done.
    + exists o. by rewrite lookup_alter_ne.
  - intros oid o n Ho. cbn in Ho.
    apply lookup_alter_Some in Ho as [(-> & o1 & Ho & ->)|[_ Ho]]; rewrite ?Hg; by apply C.
Qed.

Lemma journal_inv_insert_command c d d' : insert_command c d = Some d' -> journal_inv d -> journal_inv d'.
Proof.
  unfold insert_command. case_match eqn:Hok; [|done]. intros [= <-] [U K N C O].
  rewrite !andb_true_iff in Hok. destruct Hok as (((((_ & _) & Ha) & _) & _) & _).
  split; [|done..]. intros k k' x x' Hx Hx' E. cbn in Hx, Hx'.
  assert (Hne : forall k y, commands d !! k = Some y -> cm_idempotency_hash y <> cm_idempotency_hash c).
  { intros k0 y Hy. by apply (absent_spec _ _ _ _ Ha), bool_decide_eq_false in Hy. }
  apply lookup_insert_Some in Hx as [[<- <-]|[_ Hx]]; apply lookup_insert_Some in Hx' as [[<- <-]|[_ Hx']];
    [done| | |by eapply U]; exfalso; eapply Hne; eauto.
Qed.

Lemma journal_inv_insert_operation o d d' :
  op_transition_sequence o = 0 -> insert_operation o d = Some d' -> journal_inv d -> journal_inv d'.
Proof.
  intros Hz. unfold insert_operation. destruct (is_null _) eqn:E; [|done]. apply null_lookup in E.
  case_match; [|done]. intros [= <-] [U K N C O]. split; [done| | | |done].
  - intros oid x Hx. cbn in Hx. apply lookup_insert_Some in Hx as [[<- <-]|[_ Hx]]; [lia|by apply K].
  - intros tid t Ht. destruct (N tid t Ht) as (x & Hx & Hr). exists x. split; [|done].
    cbn. rewrite lookup_insert_ne; [done|congruence].
  - intros oid x n Hx Hn. cbn in Hx. apply lookup_insert_Some in Hx as [[<- <-]|[_ Hx]]; [lia|by eapply C].
Qed.

Lemma journal_inv_insert_result id r d d' : journal_inv d -> insert_result id r d = Some d' -> journal_inv d'.
Proof. intros Hj. unfold insert_result. case_match; [|done]. intros [= <-]. by apply (journal_inv_same d). Qed.
Lemma journal_inv_insert_run id r d d' : journal_inv d -> insert_run id r d = Some d' -> journal_inv d'.
Proof. intros Hj. unfold insert_run. case_match; [|done]. intros [= <-]. by apply (journal_inv_same d). Qed.

(** The one change that numbers a transition: the operation's count grows by
    one as the row of that number is inserted. *)
Lemma journal_inv_transition id t f o d d' :
  operations d !! tr_operation_id t = Some o ->
  tr_sequence t = op_transition_sequence o + 1 ->
  tr_to_state t ∈ _TRANSITIONS (tr_from_state t) ->
  (forall x, op_operation_id (f x) = op_operation_id x /\ op_transition_sequence (f x) = tr_sequence t) ->
  insert_transition id t (set_operation (tr_operation_id t) f d) = Some d' ->
  journal_inv d -> journal_inv d'.
Proof.
  intros Ho Hseq Hmove Hf. unfold insert_transition. destruct (is_null _) eqn:E; [|done].
  apply null_lookup in E. cbn in E. case_match; [|done]. intros [= <-] [U K N C O].
  destruct (K _ _ Ho) as [Hid Hnn].
  assert (Hops : forall oid x, alter f (tr_operation_id t) (operations d) !! oid = Some x ->
    oid = tr_operation_id t /\ x = f o \/ oid <> tr_operation_id t /\ operations d !! oid = Some x).
  { intros oid x Hx. apply lookup_alter_Some in Hx as [(Hi & x0 & Hx & ->)|[? ?]]; [left|by right].
    subst oid. split; congruence. }
  split; [done| | | |].
  - intros oid x [[-> ->]|[_ Hx]]%Hops; [|by apply K]. destruct (Hf o) as [-> ->]. split; [done|lia].
  - intros tid x Hx. cbn in Hx |- *. apply lookup_insert_Some in Hx as [[_ <-]|[_ Hx]].
    + exists (f o). rewrite lookup_alter_eq, Ho. destruct (Hf o) as [_ ->]. split_and!; [done|lia|lia|done].
    + destruct (N _ _ Hx) as (y & Hy & [? ?] & ?). destruct (decide (tr_operation_id t = tr_operation_id x)) as [e|].
      * exists (f o). rewrite <- e, lookup_alter_eq, Ho. rewrite <- e in Hy. simplify_eq.
        destruct (Hf o) as [_ ->]. split_and!; [done|lia|lia|done].
      * exists y. by rewrite lookup_alter_ne.
  - intros oid x n [[-> ->]|[Hne Hx]]%Hops Hn; cbn.
    + destruct (Hf o) as [_ Hfo]. rewrite Hfo in Hn. destruct (decide (n = tr_sequence t)) as [->|].
      * exists id, t. by rewrite lookup_insert_eq.
      * destruct (C _ _ n Ho) as (tid & y & Hy & ? & ?); [lia|]. exists tid, y.
        rewrite lookup_insert_ne; [done|congruence].
    + destruct (C _ _ n Hx Hn) as (tid & y & Hy & ? & ?). exists tid, y.
      rewrite lookup_insert_ne; [done|congruence].
  - assert (Hnew : forall tid x, transitions d !! tid = Some x -> tr_operation_id x = tr_operation_id t ->
      tr_sequence x <> tr_sequence t).
    { intros tid x Hx Hox. destruct (N _ _ Hx) as (y & Hy & [_ ?] & _). rewrite Hox, Ho in Hy.
      injection Hy as <-. lia. }
    intros tid tid' x x' Hx Hx' Eo Es. cbn in Hx, Hx'.
    apply lookup_insert_Some in Hx as [[<- <-]|[_ Hx]]; apply lookup_insert_Some in Hx' as [[<- <-]|[_ Hx']];
      [done| | |by eapply O]; exfalso; eapply Hnew; eauto.
Qed.

Section kept.
Context `{CommandModels}.
Notation tidy := (keeps journal_inv).

Lemma tidy_lift {A} (r : exn + A) : tidy (lift r).
Proof. destruct r; [apply keeps_raise|apply keeps_ret]. Qed.

Ltac tidy_walk :=
  repeat match goal with
  | |- keeps _ (execute (set_command _ _)) =>
      apply keeps_execute; intros ?; apply journal_inv_set_command; done
  | |- keeps _ (execute (set_operation _ _)) =>
      apply keeps_execute; intros ?; apply journal_inv_set_operation; done
  | |- keeps _ (execute _) => apply keeps_execute; intros ?; by apply journal_inv_same
  | |- keeps _ (insert_or _ (insert_operation _)) =>
      apply keeps_insert_or; intros ? ? Hj Hi;
      eapply journal_inv_insert_operation; [|exact Hi|exact Hj]; reflexivity
  | |- keeps _ (insert_or _ (insert_command _)) =>
      apply keeps_insert_or; intros ? ? Hj Hi;
      eapply journal_inv_insert_command; [exact Hi|exact Hj]
  | |- keeps _ (insert_or _ _) =>
      apply keeps_insert_or; intros ? ? Hj Hi;
      first [exact (journal_inv_insert_result _ _ _ _ Hj Hi)|exact (journal_inv_insert_run _ _ _ _ Hj Hi)]
  | |- keeps _ (lift _) => apply tidy_lift
  | |- keeps _ (guard_or _ _ ;; _) => apply keeps_bind; [auto with mw|intros ?]
  | _ => keeps_step
  end.

Lemma create_command_tidy body key t1 t2 : tidy (create_command body key t1 t2).
Proof. unfold create_command, after_conflict. tidy_walk. Qed.
Lemma cancel_command_tidy public_id t : tidy (cancel_command public_id t).
Proof. unfold cancel_command. tidy_walk. Qed.
Lemma register_operation_tidy b choice t : tidy (register_operation b choice t).
Proof. unfold register_operation. tidy_walk. Qed.
Lemma create_terminal_result_tidy b : tidy (create_terminal_result b).
Proof. unfold create_terminal_result. tidy_walk. Qed.
Lemma create_reconciliation_run_tidy b : tidy (create_reconciliation_run b).
Proof. unfold create_reconciliation_run. tidy_walk. Qed.
Lemma begin_delivery_tidy public_id : tidy (begin_delivery public_id).
Proof. unfold begin_delivery. tidy_walk. Qed.
Lemma finish_delivery_tidy dl agrees : tidy (finish_delivery dl agrees).
Proof. unfold finish_delivery. tidy_walk. Qed.
Lemma claim_authorized_tidy env locked now : tidy (claim_authorized env locked now).
Proof. unfold claim_authorized. tidy_walk. Qed.
Lemma renew_lease_tidy id owner t1 t2 : tidy (_renew_lease id owner t1 t2).
Proof. unfold _renew_lease. tidy_walk. Qed.
Lemma record_failure_tidy id owner f t1 t2 : tidy (_record_failure id owner f t1 t2).
Proof. unfold _record_failure. tidy_walk. Qed.
Lemma persist_submission_tidy id owner c o t : tidy (_persist_submission id owner c o t).
Proof. unfold _persist_submission. tidy_walk. Qed.
Lemma finalize_tidy id owner rb t1 t2 : tidy (finalize id owner rb t1 t2).
Proof. unfold finalize. tidy_walk. Qed.

(** The transition handler, from the tables it starts on. *)
Lemma run_transition_tidy ids public_id b choice t d :
  journal_inv d -> journal_inv (run ids (serve_api (ApiTransition public_id b choice t)) d).1.
Proof.
  intros Hj. change (wp (drop_body (transition_operation public_id b choice t))
    (fun s _ => journal_inv (committed s)) (Session d d (fun _ => 0) ids)).
  unfold drop_body, transition_operation. repeat wp_step; try done; cbn.
  destruct (one_where_some _ _ _ H0) as [_ [oid Hrow]]. destruct (ji_keyed _ Hj _ _ Hrow) as [<- _].
  match type of H5 with insert_transition _ ?row _ = _ =>
    refine (journal_inv_transition _ row _ a _ _ Hrow _ _ _ H5 Hj); cbn end.
  - by apply Z.eqb_eq.
  - by apply bool_decide_eq_true in H3.
  - intros x. unfold transitioned. by case_match.
Qed.

Lemma wstep_tidy w w' : wstep w w' -> journal_inv (w_db w) -> journal_inv (w_db w').
Proof.
  assert (Hrun : forall A ids (m : M db A) d, tidy m -> journal_inv d -> journal_inv (run ids m d).1)
    by (intros A ids m d Hm Hd; unfold run; by apply keeps_with_session).
  intros Hs Hj. destruct Hs; try exact Hj;
    try (apply Hrun; [|exact Hj]; auto using begin_delivery_tidy, finish_delivery_tidy,
      claim_authorized_tidy, renew_lease_tidy, record_failure_tidy, persist_submission_tidy,
      finalize_tidy; fail).
  - destruct r; try (apply run_transition_tidy; exact Hj); apply Hrun; try exact Hj;
      (apply keeps_bind; [|intros ?; auto with mw]); auto using keeps_post_command, create_command_tidy,
      cancel_command_tidy, register_operation_tidy, create_terminal_result_tidy,
      create_reconciliation_run_tidy.
  - by apply (journal_inv_same (w_db w)).
Qed.

Lemma reachable_journal_inv w : reachable_world w -> journal_inv (w_db w).
Proof.
  intros Hr. unfold reachable_world in Hr.
  apply rtc_ind_r with (P := fun w => journal_inv (w_db w)) in Hr; [done| |].
  - split; cbn; intros *; rewrite ?lookup_empty; done.
  - intros w1 w2 _ Hs Hi. by eapply wstep_tidy.
Qed.

(** The transitions of an operation are its history: they are numbered from
    1 to the operation's [transition_sequence] without gap or repetition, and
    each moves along [_TRANSITIONS]. *)
Theorem transitions_contiguous w oid o :
  reachable_world w -> operations (w_db w) !! oid = Some o ->
  (forall n, 1 <= n <= op_transition_sequence o <->
     exists tid t, transitions (w_db w) !! tid = Some t /\ tr_operation_id t = oid /\ tr_sequence t = n)
  /\ (forall tid tid' t t', transitions (w_db w) !! tid = Some t -> transitions (w_db w) !! tid' = Some t' ->
        tr_operation_id t = oid -> tr_operation_id t' = oid -> tr_sequence t = tr_sequence t' -> tid = tid')
  /\ (forall tid t, transitions (w_db w) !! tid = Some t -> tr_operation_id t = oid ->
        tr_to_state t ∈ _TRANSITIONS (tr_from_state t)).
Proof.
  intros Hr Ho. destruct (reachable_journal_inv w Hr) as [_ K N C O]. split_and!.
  - intros n. split; [by apply C|]. intros (tid & t & Ht & <- & <-).
    destruct (N _ _ Ht) as (x & Hx & ? & _). by simplify_eq.
  - intros tid tid' t t' Ht Ht' E E'. eapply O; [done..|congruence].
  - intros tid t Ht _. by destruct (N _ _ Ht) as (_ & _ & _ & ?).
Qed.

(** ** Repeated creations *)

Lemma create_replay ids body key text t1 t2 d p x :
  key = idempotency_key body -> policy_decision_id body = Some text -> text <> "" ->
  get_decision text d = Some p ->
  one_where (by_idempotency_hash (stable_idempotency_key body)) (commands d) = Some x ->
  cm_request_hash x = request_hash body ->
  run ids (create_command body key t1 t2) d = (d, inr (_command_view true x)).
Proof.
  intros -> Ht Hne Hp Hx Hr. unfold run, with_session, create_command, mbind, M_bind, query, guard_or.
  rewrite Ht, bool_decide_true by done. cbn [working committed mret M_ret]. unfold mret, M_ret.
  rewrite bool_decide_false by done. cbn [working committed]. rewrite Hp. cbn -[one_where bool_decide].
  change (cm_idempotency_hash (new_command_record (ids O) body t1)) with (stable_idempotency_key body).
  rewrite Hx. cbn -[bool_decide]. rewrite bool_decide_true by done. done.
Qed.

Lemma create_needs_decision ids body key text t1 t2 d d' v :
  policy_decision_id body = Some text -> text <> "" ->
  run ids (create_command body key t1 t2) d = (d', inr v) -> is_Some (get_decision text d).
Proof.
  intros Ht Hne. destruct (get_decision text d) as [p|] eqn:Hp; [by eexists|].
  unfold run, with_session, create_command, mbind, M_bind, query, guard_or.
  destruct (bool_decide (key = _)); [|done]. unfold mret, M_ret. cbn [working committed].
  rewrite Ht, bool_decide_false by done. by rewrite Hp.
Qed.

(** A command keeps its identity through every step. *)
Lemma steps_command w w' id c :
  rtc wstep w w' -> commands (w_db w) !! id = Some c ->
  exists c', commands (w_db w') !! id = Some c' /\ cm_command_id c' = cm_command_id c
    /\ cm_idempotency_hash c' = cm_idempotency_hash c /\ cm_request_hash c' = cm_request_hash c.
Proof.
  intros Hs. revert c. induction Hs as [|w1 w2 w3 Hs _ IH]; intros c Hc; [by exists c|].
  assert (Hone : exists c', commands (w_db w2) !! id = Some c' /\ cm_command_id c' = cm_command_id c
    /\ cm_idempotency_hash c' = cm_idempotency_hash c /\ cm_request_hash c' = cm_request_hash c).
  { destruct (wstep_cases _ _ Hs) as [(env & locked & now & owner & x & _ & _ & ->)|[He _]].
    - cbn. destruct (decide (cm_command_id x = id)) as [->|].
      + exists (claimed_by owner now c). by rewrite lookup_alter_eq, Hc.
      + exists c. by rewrite lookup_alter_ne.
    - destruct (evolves_command _ _ _ _ He Hc) as (c' & Hc' & E). exists c'. split; [done|].
      split_and!; [by apply (f_equal cm_command_id) in E|by apply (f_equal cm_idempotency_hash) in E
                  |by apply (f_equal cm_request_hash) in E]. }
  destruct Hone as (c2 & Hc2 & E1 & E2 & E3). destruct (IH c2 Hc2) as (c3 & ? & ? & ? & ?).
  exists c3. split_and!; congruence.
Qed.

Lemma get_decision_stays w w' text p :
  rtc wstep w w' -> get_decision text (w_db w) = Some p -> is_Some (get_decision text (w_db w')).
Proof.
  intros Hs Hp. destruct (one_where_some _ _ _ Hp) as [Hq Hst].
  destruct (steps_retain _ _ Hs) as (_ & Hd & _). destruct (Hd p Hst) as [k Hk].
  unfold get_decision, one_where. destruct (select_where _ (decisions (w_db w'))) eqn:E; [|by eexists].
  assert (Hin : p ∈ select_where (fun p => bool_decide (uuid_str (pd_id p) = text)) (decisions (w_db w')))
    by (apply elem_of_select_where; eauto). rewrite E in Hin. by apply elem_of_nil in Hin.
Qed.

(** The stored command of a creation, new or replayed. *)
Lemma created_stored body now d d' v text :
  policy_decision_id body = Some text -> created body now d d' v ->
  exists id row, commands d' !! id = Some row /\ v_command_id v = cm_command_id row
    /\ cm_idempotency_hash row = stable_idempotency_key body /\ cm_request_hash row = request_hash body.
Proof.
  intros Ht (p & _ & Hc). unfold bound_to in Hc. rewrite Ht in Hc.
  destruct Hc as [(_ & -> & id & row & Hid & -> & Hh & Hr)|(_ & _ & id & row & _ & -> & -> & _ & Hr & Hh & _)].
  - by exists id, row.
  - exists id, row. cbn. by rewrite lookup_insert_eq.
Qed.

(** A body that names both its times, and whose expiry has come. *)
Definition expired_at (r : TelephonyCommandRequest) (now : Z) : bool :=
  match requested_at r, expires_at r with
  | Some _, Some expires => instant expires <=? now
  | _, _ => false
  end.

(** A body that was valid once is valid until it expires. *)
Lemma model_validate_later value t t' body :
  model_validate value t = inr body ->
  model_validate value t' = if expired_at body t' then inl (ValueError "command is expired") else inr body.
Proof.
  unfold model_validate. destruct (normalize_v1_envelope value) as [e|data]; [done|]. cbn [mbind exn_bind].
  destruct (typed_fields data) as [r|]; [|done].
  destruct (payload_fields_ok _ && request_fields_ok r); [|done]. cbn [check mbind exn_bind].
  destruct (validate_public_ids _) as [e|[]]; [done|]. cbn [mbind exn_bind].
  unfold forbid_application_selected_resources.
  set (rest := mbind _ (check (negb _) _)). clearbody rest.
  intros (? & Hv & [= <-])%exn_bind_ok. apply exn_bind_ok in Hv as (? & Ht & ->). revert Ht.
  unfold check_times, expired_at. destruct (requested_at r) as [q|], (expires_at r) as [until|]; try done.
  intros [Ha Ht]%check_bind_ok. apply check_bind_ok in Ht as [Hq _]. rewrite Ha, Hq.
  rewrite Z.leb_antisym. cbn. by destruct (t' <? instant until).
Qed.

(** The handler of a validated body. *)
Lemma run_post_valid ids value body key t0 t1 t2 d :
  model_validate value t0 = inr body ->
  run ids (post_command value key t0 t1 t2) d = run ids (create_command body key t1 t2) d.
Proof. intros Hv. unfold post_command. by rewrite Hv. Qed.

(** A creation that succeeded is found by the same request ever after. *)
Lemma creation_replayed w w' ids ids' value body key text t0 t1 t2 t1' t2' d v :
  reachable_world w -> model_validate value t0 = inr body ->
  policy_decision_id body = Some text -> text <> "" ->
  run ids (post_command value key t0 t1 t2) (w_db w) = (d, inr v) ->
  rtc wstep (w <| w_db := d |>) w' ->
  exists row, run ids' (create_command body key t1' t2') (w_db w')
      = (w_db w', inr (_command_view true row)) /\ cm_command_id row = v_command_id v.
Proof.
  intros Hr Hval Ht Hne Hrun Hs.
  assert (Hstep : wstep w (w <| w_db := d |>)).
  { replace d with (run ids (serve_api (ApiCreate value key t0 t1 t2)) (w_db w)).1; [by constructor|].
    unfold run, with_session in *. injection Hrun as Hd Hv. cbn.
    unfold drop_body, mbind, M_bind. destruct (post_command _ _ _ _ _ _) as [s r]. cbn in *. by subst. }
  rewrite (run_post_valid _ _ _ _ _ _ _ _ Hval) in Hrun.
  assert (Hr' : reachable_world w') by (unfold reachable_world; etrans; [exact Hr|by eapply rtc_l]).
  destruct (create_needs_decision _ _ _ _ _ _ _ _ _ Ht Hne Hrun) as [p Hp].
  destruct (get_decision_stays _ _ _ _ (rtc_l _ _ _ _ Hstep Hs) Hp) as [p' Hp'].
  destruct (create_command_created _ _ _ _ _ _ _ _ Hrun) as [Hkey Hc].
  destruct (created_stored _ _ _ _ _ _ Ht Hc) as (id & row & Hrow & Hv & Hh & Hq).
  destruct (steps_command (w <| w_db := d |>) w' id row Hs Hrow) as (row' & Hrow' & E1 & E2 & E3).
  destruct (one_where (by_idempotency_hash (stable_idempotency_key body)) (commands (w_db w'))) as [x|] eqn:Hx.
  - destruct (one_where_some _ _ _ Hx) as [Hhx%bool_decide_eq_true [k Hk]].
    assert (k = id) as -> by (eapply (ji_unique _ (reachable_journal_inv w' Hr')); [done..|congruence]).
    replace x with row' in * by congruence. exists row'. split; [|congruence].
    eapply create_replay; [done..|congruence].
  - exfalso. assert (Hin : row' ∈ select_where (by_idempotency_hash (stable_idempotency_key body)) (commands (w_db w'))).
    { apply elem_of_select_where. split; [|by exists id]. apply bool_decide_eq_true. congruence. }
    unfold one_where in Hx. apply head_None in Hx. rewrite Hx in Hin. by apply elem_of_nil in Hin.
Qed.

End kept.
End TelephonyJournal.
