(* ===== verification/TelephonyDemo.v ===== *)
(** * Telephony commands: a run

    A concrete instance of the validation library's interface, one command with
    its decision, and the worlds a worker takes it through: witnesses for the
    theorems about the system. *)

From Stdlib Require Import Ascii.
From S2P Require Import Prelude PyText PyTime Sha256 Txn PyUnicode TelephonyContracts TelephonyTables TelephonyApi TelephonyClient TelephonyWorker TelephonySafety TelephonyLifecycle TelephonyJournal.
Import TelephonyContracts TelephonyTables TelephonyApi TelephonyClient TelephonyWorker
  TelephonySystem TelephonySafety TelephonyLifecycle TelephonyJournal.
Local Open Scope string_scope.
Local Open Scope Z_scope.

Module TelephonyDemo.

(** Instants are ten digits, in seconds of the epoch. *)
Fixpoint digits_from (acc : Z) (s : string) : Z :=
  match s with
  | String c s' => digits_from (10 * acc + Z.of_N (N_of_ascii c) - 48) s'
  | EmptyString => acc
  end.
Definition demo_dump (t : datetime) : string := str_of_Z (instant t / 1000000).
Definition demo_fromisoformat (s : string) : option datetime :=
  if fullmatch_class is_digit 10 10 s then Some (utc (seconds (digits_from 0 s))) else None.

Definition dump_only : CommandModels := {|
  typed_fields _ := None;
  dump_datetime := demo_dump;
  fromisoformat := demo_fromisoformat;
  isoformat := demo_dump;
  str_of_container _ := "[]";
|}.

Definition demo_decision_id : uuid := 0x40008000000000000007%N.
Definition demo_context : list (string * json) :=
  [("enforced", JBool true);
   ("expiration", JStr "1900000000");
   ("authorization_scope", JObj
      [("action", JStr "sync"); ("subject", JStr "AGENT-1"); ("resource", JStr "telephony.asterisk.endpoint.apply");
       ("environment", JStr "test"); ("business_unit", JStr "BU-1"); ("campaign", JStr "CAMP-1");
       ("agent", JStr "")])].
Definition demo_decision : decision_row :=
  mkDecisionRow demo_decision_id "2026" true "ok" "corr-0001" demo_context 0.

Definition demo_payload : TelephonyCommandPayload :=
  mkPayload (Some "EP-one") None None None None None None "RES-1" 3 true None None None None None None
    false false ["endpoint_public_id"; "allocation_reservation_id"; "desired_state_version"; "state"].
Definition demo_hash : string := Eval vm_compute in payload_hash (JObj demo_context).
Definition demo_command_until (expires : Z) : TelephonyCommandRequest :=
  mkCommand None (Some "OUT-1") (Some "EVT-1") ENDPOINT_APPLY "agent" "AGENT-1" 1 "test" "" "BU-1" "CAMP-1"
    "idem-0001" "corr-0001" "cause-1" (Some (uuid_str demo_decision_id))
    demo_hash (Some (utc (seconds 1700000000))) (Some (utc (seconds expires)))
    demo_payload.
Definition demo_command : TelephonyCommandRequest := demo_command_until 1800000000.

(** Decoding knows the two forms the command is stored in. *)
#[export] Instance demo_models : CommandModels := {|
  typed_fields v :=
    List.find (fun r => json_eqb v (@model_dump dump_only r)) [demo_command; demo_command_until 1700000100];
  dump_datetime := demo_dump;
  fromisoformat := demo_fromisoformat;
  isoformat := demo_dump;
  str_of_container _ := "[]";
|}.

Definition ids_from (n : N) : nat -> uuid := fun k => (n + N.of_nat k)%N.
Definition at_ (s : Z) : Z := seconds (1700000000 + s).

Definition cmd : uuid := 100%N.
Definition w1 : world := initial <| w_db := (w_db initial) <| decisions ::= <[demo_decision_id := demo_decision]> |> |>.
(** The worlds are evaluated once, step by step. *)
Definition created := Eval vm_compute in
  run (ids_from cmd) (post_command (model_dump demo_command) "idem-0001" (at_ 1) (at_ 1) (at_ 1)) (w_db w1).
Lemma created_eq :
  run (ids_from cmd) (post_command (model_dump demo_command) "idem-0001" (at_ 1) (at_ 1) (at_ 1)) (w_db w1) = created.
Proof. vm_compute. reflexivity. Qed.
Definition w2 : world := w1 <| w_db := created.1 |>.

(** A request of the API leaves what its handler leaves. *)
Lemma run_drop_body {A} ids (m : M db A) d : (run ids (drop_body m) d).1 = (run ids m d).1.
Proof. unfold run, with_session, drop_body, mbind, M_bind. by destruct (m _) as [s [e|a]]. Qed.

Definition owner : string := uuid_hex 200%N.
Definition claim_run : db * (exn + option (uuid * string)) := Eval vm_compute in
  run (ids_from 200) (claim_authorized "test" (fun _ => false) (at_ 2)) (w_db w2).
Definition w3 : world :=
  w2 <| w_db := claim_run.1 |> <| w_workers ::= <[owner := mkWorker cmd Claimed]> |>.
Definition w4 : world := Eval vm_compute in
  to_phase owner (after_load (run (ids_from 300) (load_claim cmd (at_ 3)) (w_db w3)).2) w3.

Definition demo_route : ResolvedEndpoint :=
  mkRoute "end-1" "ver-1" "telephony-adapter" "telephony.asterisk.endpoints.apply" "POST" "https://adapter"
    "/apply" true "sha256:0".
Definition demo_resolve (_ : ResolutionRequest) : failure + ResolvedEndpoint := inr demo_route.
Definition demo_attest (_ : ResolvedEndpoint) (_ : string) : failure + bool := inr true.
Definition demo_send (_ : ResolvedEndpoint) (_ : json) (_ : string) : http_answer :=
  HttpResponse 202 (Some (JObj [("operation_id", JStr "op-77")])).
Definition dispatched := Eval vm_compute in
  dispatch (uuid_str cmd) demo_command demo_resolve demo_attest demo_send.
Lemma dispatched_eq : dispatch (uuid_str cmd) demo_command demo_resolve demo_attest demo_send = dispatched.
Proof. vm_compute. reflexivity. Qed.
Definition w5 : world := to_phase owner (after_dispatch demo_command dispatched)
  (w4 <| w_log ::= cons (mkEntry owner cmd demo_command demo_decision (at_ 4)) |>).

Lemma demo_loaded : w_workers w4 !! owner = Some (mkWorker cmd (Loaded demo_command None (Some demo_decision))).
Proof. vm_compute. reflexivity. Qed.

Lemma reach_w2 : rtc wstep initial w2.
Proof.
  eapply rtc_l. { apply (w_decision demo_decision_id demo_decision); reflexivity. }
  unfold w2. rewrite <- created_eq, <- run_drop_body. apply rtc_once.
  exact (w_api (ids_from cmd) (ApiCreate (model_dump demo_command) "idem-0001" (at_ 1) (at_ 1) (at_ 1)) w1).
Qed.
Lemma claim_run_eq :
  run (ids_from 200) (claim_authorized "test" (fun _ => false) (at_ 2)) (w_db w2) = claim_run.
Proof. vm_compute. reflexivity. Qed.
Lemma step_w3 : wstep w2 w3.
Proof.
  unfold w3. rewrite <- claim_run_eq.
  apply (w_claim (ids_from 200) "test" (fun _ => false) (at_ 2) cmd owner w2); [rewrite claim_run_eq|];
    vm_compute; reflexivity.
Qed.
Lemma step_w4 : wstep w3 w4.
Proof.
  assert (E : to_phase owner (after_load (run (ids_from 300) (load_claim cmd (at_ 3)) (w_db w3)).2) w3 = w4)
    by (vm_compute; reflexivity).
  rewrite <- E. apply (w_load (ids_from 300) owner cmd (at_ 3) w3). vm_compute. reflexivity.
Qed.
Lemma step_w5 : wstep w4 w5.
Proof.
  unfold w5. rewrite <- dispatched_eq.
  apply (w_dispatch owner cmd demo_command demo_decision (at_ 4) demo_resolve demo_attest demo_send true Stopped w4);
    [exact demo_loaded|vm_compute; reflexivity].
Qed.
Lemma w2_to_w5 : rtc wstep w2 w5.
Proof. eapply rtc_l; [exact step_w3|]. eapply rtc_l; [exact step_w4|]. apply rtc_once. exact step_w5. Qed.
Lemma reach_w5 : rtc wstep initial w5.
Proof. etrans; [exact reach_w2|exact w2_to_w5]. Qed.

Lemma dispatch_authorized_witness :
  exists e, e ∈ w_log w5 /\ e_command e = cmd /\ authorizes (e_request e) (e_decision e) (e_time e).
Proof.
  exists (mkEntry owner cmd demo_command demo_decision (at_ 4)). split; [apply list_elem_of_here|].
  split; [reflexivity|]. apply (dispatch_authorized w5 _ reach_w5). apply list_elem_of_here.
Defined.

Lemma dispatches_bounded_witness :
  exists c, commands (w_db w5) !! cmd = Some c
    /\ Z.of_nat (length (filter (fun e => e_command e = cmd) (w_log w5))) <= cm_attempt_count c.
Proof.
  destruct (commands (w_db w5) !! cmd) as [c|] eqn:E; [|exfalso; revert E; vm_compute; discriminate].
  exists c. split; [reflexivity|]. apply (dispatches_bounded w5 cmd c reach_w5 E).
Defined.

(** The submission is journaled. *)
Definition ok_or {A B} (default : B) (r : A + B) : B := match r with inr b => b | inl _ => default end.
Definition demo_op : operation := Eval vm_compute in
  ok_or (mkOperation "" "" "" "" "" false "" "" "" "" false) dispatched.
Definition persisted := Eval vm_compute in
  run (ids_from 400) (_persist_submission cmd owner demo_command demo_op (at_ 5)) (w_db w5).
Lemma persisted_eq : run (ids_from 400) (_persist_submission cmd owner demo_command demo_op (at_ 5)) (w_db w5) = persisted.
Proof. vm_compute. reflexivity. Qed.
Definition w6 : world :=
  to_phase owner (after_persist demo_command demo_op persisted.2) (w5 <| w_db := persisted.1 |>).

(** The adapter answers with the desired state and more. *)
Definition demo_request (_ : ResolutionRequest) (_ : json) : http_answer :=
  HttpResponse 200 (Some (JObj [("desired_state", JObj (("extension", JStr "1001") :: desired_state demo_command))])).
Definition read_back := Eval vm_compute in readback demo_command demo_op demo_request.
Lemma read_back_eq : readback demo_command demo_op demo_request = read_back.
Proof. vm_compute. reflexivity. Qed.
Definition demo_readback : readback_result := Eval vm_compute in ok_or (mkReadback [] [] "" false) read_back.
Definition w7 : world := to_phase owner (after_readback demo_op read_back)
  (w6 <| w_reads ::= cons (read_of owner cmd demo_command demo_op demo_request) |>).
Definition finalized := Eval vm_compute in
  run (ids_from 500) (finalize cmd owner demo_readback (at_ 7) (at_ 7)) (w_db w7).
Lemma finalized_eq : run (ids_from 500) (finalize cmd owner demo_readback (at_ 7) (at_ 7)) (w_db w7) = finalized.
Proof. vm_compute. reflexivity. Qed.
Definition w8 : world := to_phase owner Done (w7 <| w_db := finalized.1 |>).

Lemma demo_dispatched : w_workers w5 !! owner = Some (mkWorker cmd (Dispatched demo_command demo_op)).
Proof. vm_compute. reflexivity. Qed.
Lemma demo_submitted : w_workers w6 !! owner = Some (mkWorker cmd (Submitted demo_command demo_op)).
Proof. vm_compute. reflexivity. Qed.
Lemma demo_read : w_workers w7 !! owner = Some (mkWorker cmd (ReadBack demo_op demo_readback)).
Proof. vm_compute. reflexivity. Qed.

Lemma step_w6 : wstep w5 w6.
Proof.
  unfold w6. rewrite <- persisted_eq.
  exact (w_persist (ids_from 400) owner cmd demo_command demo_op (at_ 5) w5 demo_dispatched).
Qed.
Lemma step_w7 : wstep w6 w7.
Proof.
  unfold w7. rewrite <- read_back_eq.
  exact (w_readback owner cmd demo_command demo_op demo_request true Stopped w6 demo_submitted).
Qed.
Lemma step_w8 : wstep w7 w8.
Proof.
  unfold w8. rewrite <- finalized_eq.
  exact (w_finalize (ids_from 500) owner cmd demo_op demo_readback (at_ 7) (at_ 7) w7 demo_read).
Qed.
Lemma reach_w6 : rtc wstep initial w6.
Proof. eapply rtc_r; [exact reach_w5|exact step_w6]. Qed.
Lemma reach_w7 : rtc wstep initial w7.
Proof. eapply rtc_r; [exact reach_w6|exact step_w7]. Qed.

Lemma journaled_operation_final_witness :
  exists o o', operations (w_db w6) !! 400%N = Some o /\ op_command_id o = cmd
    /\ operations (w_db w8) !! 400%N = Some o' /\ op_operation_public_id o' = op_operation_public_id o
    /\ op_state o' = "ODOO_RESULT_PENDING".
Proof.
  destruct (operations (w_db w6) !! 400%N) as [o|] eqn:E; [|exfalso; revert E; vm_compute; discriminate].
  destruct (journaled_operation_final w6 w8 400%N o (rtc_l _ _ _ _ step_w7 (rtc_once _ _ step_w8)) E)
    as [(o' & Ho' & Hb) _].
  exists o, o'. split; [reflexivity|]. split; [revert E; vm_compute; intros [= <-]; reflexivity|].
  split; [exact Ho'|]. split; [exact (f_equal op_operation_public_id Hb)|].
  revert Ho'. vm_compute. intros [= <-]. reflexivity.
Defined.

Lemma completed_only_on_match_witness :
  cm_state <$> commands (w_db w8) !! cmd = Some "ODOO_RESULT_PENDING"
  /\ exists e, e ∈ w_reads w7 /\ rd_owner e = owner
       /\ reports (rd_answer e) (rd_request e) (o_desired_hash (rd_operation e)).
Proof.
  assert (Hs8 : cm_state <$> commands (w_db w8) !! cmd = Some "ODOO_RESULT_PENDING") by (vm_compute; reflexivity).
  assert (H7 : (fun c => (cm_state c, cm_lease_owner c)) <$> commands (w_db w7) !! cmd
    = Some ("SUBMITTING", Some owner)) by (vm_compute; reflexivity).
  split; [exact Hs8|].
  destruct (commands (w_db w8) !! cmd) as [c'|] eqn:E; [|discriminate]. injection Hs8 as Hs8.
  destruct (completed_only_on_match w7 w8 cmd c' reach_w7 step_w8 E Hs8)
    as [(c & Hc & Hs)|(e & c & Hin & _ & Hc & _ & Hl & _ & Hrep & _)]; rewrite Hc in H7; cbn in H7.
  - exfalso. rewrite Hs in H7. discriminate.
  - injection H7 as _ Ho. rewrite Hl in Ho. injection Ho as Ho. exists e. split; [exact Hin|]. split; [exact Ho|exact Hrep].
Defined.

(** A worker whose claim is over, against the finished command. *)
Lemma stale_worker_harmless_witness :
  holds_lease owner (commands (w_db w8) !! cmd) = false
  /\ run (ids_from 600) (_record_failure cmd owner (HTTPStatusError 500) (at_ 9) (at_ 9)) (w_db w8)
     = (w_db w8, inr tt).
Proof.
  split; [vm_compute; reflexivity|].
  apply (stale_worker_harmless (ids_from 600) (w_db w8) cmd owner demo_command demo_op demo_readback
           (HTTPStatusError 500) (at_ 9) (at_ 9)).
  intros r Hr. vm_compute in Hr. injection Hr as <-. vm_compute. discriminate.
Defined.

(** ** Creation *)

Definition demo_view : command_view := Eval vm_compute in ok_or (mkCommandView 0%N "" "" "" 0 "" "" true) created.2.
Lemma demo_posted :
  run (ids_from cmd) (post_command (model_dump demo_command) "idem-0001" (at_ 1) (at_ 1) (at_ 1)) (w_db w1)
  = (w_db w2, inr demo_view).
Proof. rewrite created_eq. vm_compute. reflexivity. Qed.
Lemma demo_valid : model_validate (model_dump demo_command) (at_ 1) = inr demo_command.
Proof. vm_compute. reflexivity. Qed.
Lemma demo_created :
  run (ids_from cmd) (create_command demo_command "idem-0001" (at_ 1) (at_ 1)) (w_db w1)
  = (w_db w2, inr demo_view).
Proof. rewrite <- (run_post_valid _ _ _ _ _ _ _ _ demo_valid). exact demo_posted. Qed.

Lemma create_command_spec_witness :
  v_replayed demo_view = false /\ v_state demo_view = "AUTHORIZED"
  /\ exists decision, stored_decision decision (w_db w1)
       /\ check_decision (bound_to decision demo_command) decision (at_ 1) = inr tt.
Proof.
  split; [vm_compute; reflexivity|]. split; [vm_compute; reflexivity|].
  destruct (create_command_spec _ _ _ _ _ _ _ _ demo_created) as [[H _]|(_ & p & id & row & Hp & Hc & _)].
  - exfalso. revert H. vm_compute. discriminate.
  - exists p. split; [exact Hp|exact Hc].
Defined.


(** ** Retries *)

(** The adapter answers 503 every time; the claims are ten minutes apart. *)
Definition outage (n : nat) : attempt :=
  mkAttempt (ids_from (1000 + N.of_nat n)) "test" (fun _ => false) (at_ (600 * Z.of_nat (S n)))
    (HTTPStatusError 503) (at_ (600 * Z.of_nat (S n) + 1)) (at_ (600 * Z.of_nat (S n) + 1)).

Lemma w2_keyed : keyed_commands (w_db w2).
Proof. exact (ci_keyed w2 (reachable_claims_inv w2 reach_w2)). Qed.

Lemma retries_end_witness :
  exists d c', failed_attempts cmd (outage <$> seq 0 8) (w_db w2) = Some d
    /\ commands d !! cmd = Some c' /\ cm_state c' = "FAILED_PERMANENT" /\ cm_attempt_count c' = 8
    /\ ~ permanent_failure (HTTPStatusError 503).
Proof.
  destruct (failed_attempts cmd (outage <$> seq 0 8) (w_db w2)) as [d|] eqn:E;
    [|exfalso; revert E; vm_compute; discriminate].
  destruct (commands (w_db w2) !! cmd) as [c|] eqn:Hc; [|exfalso; revert Hc; vm_compute; discriminate].
  destruct (retries_end cmd (outage <$> seq 0 8) (w_db w2) d c w2_keyed Hc) as [_ Hn].
  - revert Hc. vm_compute. intros [= <-]. reflexivity.
  - revert Hc. vm_compute. intros [= <-]. reflexivity.
  - exact E.
  - assert (El : outage <$> seq 0 8 = ((outage <$> seq 0 7) ++ [outage 7])%list) by (cbn; reflexivity).
    destruct (Hn _ _ El) as (c' & Hc' & Ha & _ & Hp & _ & Hf). exists d, c'.
    split; [reflexivity|]. split; [exact Hc'|]. split; [apply Hp; right; reflexivity|]. split; [exact Ha|].
    intros [[_ H] _]. lia.
Defined.

(** ** An expired command *)

Definition brief_command : TelephonyCommandRequest := demo_command_until 1700000100.
Definition brief_created := Eval vm_compute in
  run (ids_from cmd) (post_command (model_dump brief_command) "idem-0001" (at_ 1) (at_ 1) (at_ 1)) (w_db w1).
Lemma brief_created_eq :
  run (ids_from cmd) (post_command (model_dump brief_command) "idem-0001" (at_ 1) (at_ 1) (at_ 1)) (w_db w1)
  = brief_created.
Proof. vm_compute. reflexivity. Qed.
Definition x2 : world := w1 <| w_db := brief_created.1 |>.
Lemma reach_x2 : rtc wstep initial x2.
Proof.
  eapply rtc_l. { apply (w_decision demo_decision_id demo_decision); reflexivity. }
  unfold x2. rewrite <- brief_created_eq, <- run_drop_body. apply rtc_once.
  exact (w_api (ids_from cmd) (ApiCreate (model_dump brief_command) "idem-0001" (at_ 1) (at_ 1) (at_ 1)) w1).
Qed.

Lemma brief_expired now :
  at_ 200 <= now -> model_validate (model_dump brief_command) now = inl (ValueError "command is expired").
Proof.
  intros Hn.
  assert (En : normalize_v1_envelope (model_dump brief_command) = inr (model_dump brief_command))
    by (vm_compute; reflexivity).
  assert (Et : typed_fields (model_dump brief_command) = Some brief_command) by (vm_compute; reflexivity).
  assert (Ef : payload_fields_ok (payload brief_command) && request_fields_ok brief_command = true)
    by (vm_compute; reflexivity).
  assert (Ep : validate_public_ids (payload brief_command) = inr tt) by (vm_compute; reflexivity).
  unfold model_validate. rewrite En. cbn [mbind exn_bind]. rewrite Et, Ef, Ep.
  unfold forbid_application_selected_resources, check_times. cbn [brief_command demo_command_until requested_at expires_at].
  replace (now <? instant (utc (seconds 1700000100))) with false; [vm_compute; reflexivity|].
  symmetry. apply Z.ltb_ge. etrans; [|exact Hn]. vm_compute. discriminate.
Qed.

Lemma expired_command_never_fails_witness :
  exists c', commands (lapsed_claims (ids_from 900) "test" cmd (at_ 200) 20 (w_db x2)) !! cmd = Some c'
    /\ cm_state c' = "SUBMITTING" /\ cm_attempt_count c' = 20.
Proof.
  destruct (commands (w_db x2) !! cmd) as [c|] eqn:Hc; [|exfalso; revert Hc; vm_compute; discriminate].
  assert (Hk : keyed_commands (w_db x2)) by exact (ci_keyed x2 (reachable_claims_inv x2 reach_x2)).
  assert (Hj : cm_request_json c = model_dump brief_command)
    by (revert Hc; vm_compute; intros [= <-]; reflexivity).
  destruct (expired_command_never_fails (ids_from 900) "test" cmd (at_ 200) (w_db x2) c
    (ValueError "command is expired") Hk Hc) with (n := 19%nat) as (c' & Hc' & Hs & Ha & _).
  - assert (Hcl : claimable "test" (at_ 200) <$> commands (w_db x2) !! cmd = Some true)
      by (vm_compute; reflexivity). rewrite Hc in Hcl. by injection Hcl.
  - intros now Hn. rewrite Hj. by apply brief_expired.
  - exists c'. split; [exact Hc'|]. split; [exact Hs|]. rewrite Ha.
    assert (Hat : cm_attempt_count <$> commands (w_db x2) !! cmd = Some 0) by (vm_compute; reflexivity).
    rewrite Hc in Hat. injection Hat as ->. reflexivity.
Defined.

(** ** Registered operations *)

Definition demo_registration : OperationRegistration := Eval vm_compute in
  mkRegistration "OPR-1" (v_command_public_id demo_view) "telephony-adapter" "op-77" "ASTERISK" "ENDPOINT" "EP-one"
    3 (sha256_hex "desired") "register-1" "corr-0001" (utc (at_ 3)).
Definition demo_transition_with (hash : string) : OperationTransition :=
  mkTransition (v_command_public_id demo_view) "APPLYING" "ASTERISK" "ENDPOINT" "EP-one" 3 "telephony-adapter"
    "test" "corr-0001" 1 hash (utc (at_ 4)).
Definition demo_transition : OperationTransition := Eval vm_compute in
  demo_transition_with (payload_hash (transition_binding (demo_transition_with ""))).

Definition registered := Eval vm_compute in run (ids_from 800) (register_operation demo_registration 0 (at_ 3)) (w_db w2).
Lemma registered_eq : run (ids_from 800) (register_operation demo_registration 0 (at_ 3)) (w_db w2) = registered.
Proof. vm_compute. reflexivity. Qed.
Definition r3 : world := w2 <| w_db := registered.1 |>.
Definition moved := Eval vm_compute in
  run (ids_from 810) (transition_operation "OPR-1" demo_transition 0 (at_ 4)) (w_db r3).
Lemma moved_eq : run (ids_from 810) (transition_operation "OPR-1" demo_transition 0 (at_ 4)) (w_db r3) = moved.
Proof. vm_compute. reflexivity. Qed.
Definition r4 : world := r3 <| w_db := moved.1 |>.
Lemma reach_r4 : rtc wstep initial r4.
Proof.
  transitivity w2; [exact reach_w2|]. eapply (rtc_l _ _ r3).
  - unfold r3. rewrite <- registered_eq, <- run_drop_body.
    exact (w_api (ids_from 800) (ApiRegister demo_registration 0 (at_ 3)) w2).
  - apply rtc_once. unfold r4. rewrite <- moved_eq, <- run_drop_body.
    exact (w_api (ids_from 810) (ApiTransition "OPR-1" demo_transition 0 (at_ 4)) r3).
Qed.

Lemma transitions_contiguous_witness :
  exists o tid t, operations (w_db r4) !! 800%N = Some o /\ op_state o = "APPLYING"
    /\ op_transition_sequence o = 1 /\ transitions (w_db r4) !! tid = Some t /\ tr_sequence t = 1.
Proof.
  destruct (operations (w_db r4) !! 800%N) as [o|] eqn:Ho; [|exfalso; revert Ho; vm_compute; discriminate].
  assert (Hs : (fun o => (op_state o, op_transition_sequence o)) <$> operations (w_db r4) !! 800%N
    = Some ("APPLYING", 1)) by (vm_compute; reflexivity).
  rewrite Ho in Hs. cbn in Hs. injection Hs as Hst Hseq.
  destruct (transitions_contiguous r4 800%N o reach_r4 Ho) as [Hn _].
  destruct (proj1 (Hn 1)) as (tid & t & Ht & _ & Hseq'); [rewrite Hseq; lia|]. exists o, tid, t.
  split; [reflexivity|]. split; [exact Hst|]. split; [exact Hseq|]. split; [exact Ht|exact Hseq'].
Defined.

(** ** A denied command that ends reconciled

    Neither the registration of an operation nor the delivery of a result looks
    at the state of the command: one that policy denied is registered, and its
    result makes it [RECONCILED]. *)

Definition denied : world :=
  initial <| w_db := (w_db initial) <| decisions ::=
    <[demo_decision_id := mkDecisionRow demo_decision_id "2026" false "dnc" "corr-0001" demo_context 0]> |> |>.
Definition n2 : db :=
  (run (ids_from cmd) (serve_api (ApiCreate (model_dump demo_command) "idem-0001" (at_ 1) (at_ 1) (at_ 1))) (w_db denied)).1.
Definition n3 : db := (run (ids_from 800) (serve_api (ApiRegister demo_registration 0 (at_ 3))) n2).1.
Definition demo_result : TerminalResultRequest := Eval vm_compute in
  mkTerminalResult "RES-1" "OPR-1" (v_command_public_id demo_view) "ASTERISK" "ENDPOINT" "EP-one" "APPLIED"
    "READBACK_VERIFIED" 3 3 3 (sha256_hex "r") (sha256_hex "a") (sha256_hex "b") "telephony-adapter"
    ("sha256:" +:+ sha256_hex "c") (utc (at_ 5)) (utc (at_ 6)) "done" demo_hash "corr-0001".
Definition n4 : db := (run (ids_from 820) (serve_api (ApiResult demo_result)) n3).1.
Definition demo_odoo (_ : request_kwargs) (operation : string) (_ : json) : answer :=
  Response 200 (JObj [("result_public_id", JStr "RES-1"); ("observed_state_version", JInt 3);
                      ("observed_state_hash", JStr (sha256_hex "b")); ("target_public_id", JStr "EP-one")]).
Definition deliver_all (d : db) : db :=
  let begun := run (ids_from 830) (begin_delivery "RES-1") d in
  match begun.2 with
  | inr dl =>
      match odoo_exchange demo_odoo dl 1%N with
      | inr agrees => (run (ids_from 840) (finish_delivery dl agrees) begun.1).1
      | inl _ => begun.1
      end
  | inl _ => begun.1
  end.
Definition n5 : db := deliver_all n4.

Example denied_command_reconciled :
  (cm_state <$> commands n2 !! cmd, cm_state <$> commands n3 !! cmd, cm_state <$> commands n5 !! cmd)
  = (Some "POLICY_DENIED", Some "OPERATION_REGISTERED", Some "RECONCILED").
Proof. vm_compute. reflexivity. Qed.
End TelephonyDemo.
