(* ===== verification/CallPolicy.v ===== *)
(** * The default-deny call policy ([src/app/core/webrtc_production_policy.py])

    [authorize] with every refusal in its order, the checks a policy must pass
    before it can allow anything, and the capacity counter.  The zone database
    and the digits outside ASCII are parameters; a naive datetime is read as
    UTC.  Reading the policy file is not modelled: a [Policy] is the value
    [from_file] returns. *)

From Stdlib Require Import Ascii.
From S2P Require Import Prelude PyText PyTime Txn PyUnicode.
Local Open Scope string_scope.
Local Open Scope Z_scope.

Module CallPolicy.

Inductive Decision :=
  | ALLOW | DENY | DENY_NO_CONSENT | DENY_OUTSIDE_CALLING_HOURS | DENY_EMERGENCY | DENY_PREMIUM
  | DENY_PROHIBITED | DENY_UNSUPPORTED_COUNTRY | DENY_UNAUTHORIZED_AGENT | DENY_UNAUTHORIZED_CAMPAIGN
  | DENY_UNAUTHORIZED_CALLER_ID | DENY_OUTSIDE_PILOT_WINDOW | DENY_CAPACITY.

#[export] Instance Decision_eq_dec : EqDecision Decision.
Proof. solve_decision. Defined.

Definition decision_value (x : Decision) : string :=
  match x with
  | ALLOW => "ALLOW" | DENY => "DENY" | DENY_NO_CONSENT => "DENY_NO_CONSENT"
  | DENY_OUTSIDE_CALLING_HOURS => "DENY_OUTSIDE_CALLING_HOURS"
  | DENY_EMERGENCY => "DENY_EMERGENCY" | DENY_PREMIUM => "DENY_PREMIUM"
  | DENY_PROHIBITED => "DENY_PROHIBITED" | DENY_UNSUPPORTED_COUNTRY => "DENY_UNSUPPORTED_COUNTRY"
  | DENY_UNAUTHORIZED_AGENT => "DENY_UNAUTHORIZED_AGENT"
  | DENY_UNAUTHORIZED_CAMPAIGN => "DENY_UNAUTHORIZED_CAMPAIGN"
  | DENY_UNAUTHORIZED_CALLER_ID => "DENY_UNAUTHORIZED_CALLER_ID"
  | DENY_OUTSIDE_PILOT_WINDOW => "DENY_OUTSIDE_PILOT_WINDOW" | DENY_CAPACITY => "DENY_CAPACITY"
  end.

Record Consent := mkConsent {
  status : string;
  consent_scope : string;
  timestamp : option datetime;
  expiration : option datetime;
  source : string;
  reference : string;
}.

Record CallRequest := mkCallRequest {
  correlation_id : string;
  agent_subject : string;
  tenant : string;
  business_unit : string;
  campaign : string;
  extension : string;
  caller_id : string;
  destination : string;
  destination_class : string;
  destination_country : string;
  destination_timezone : string;
  recording_requested : bool;
  consent : option Consent;
  requested_at : datetime;
}.

Record RecordingPolicy := mkRecording {
  mode : string;
  notice_required : bool;
  recording_consent_required : bool;
  retention_class : option string;
}.

Record Policy := mkPolicy {
  version : string;
  enabled : bool;
  kill_switch : bool;
  allowed_campaign : option string;
  allowed_business_unit : option string;
  allowed_agent : option string;
  allowed_extension : option string;
  allowed_caller_id : option string;
  allowed_destination : option string;
  allowed_destination_classes : list string;
  allowed_countries : list string;
  prohibited_destinations : list string;
  timezone : option string;
  calling_start : option Z;
  calling_end : option Z;
  allowed_weekdays : list Z;
  pilot_start : option datetime;
  pilot_end : option datetime;
  max_concurrent_calls : Z;
  max_call_attempts : Z;
  recording : RecordingPolicy;
  emergency_blocking : bool;
  premium_blocking : bool;
  consent_required : bool;
}.

(** [f"missing_{name}" ... if value is None] *)
Definition missing {A} (name : string) (o : option A) : list string :=
  if is_null o then ["missing_" +:+ name] else [].
Definition unless (b : bool) (error : string) : list string := if b then [] else [error].

Definition validate_for_activation (p : Policy) : list string :=
  app (missing "allowed_campaign" (allowed_campaign p))
 (app (missing "allowed_business_unit" (allowed_business_unit p))
 (app (missing "allowed_agent" (allowed_agent p))
 (app (missing "allowed_extension" (allowed_extension p))
 (app (missing "allowed_caller_id" (allowed_caller_id p))
 (app (missing "allowed_destination" (allowed_destination p))
 (app (missing "timezone" (timezone p))
 (app (missing "calling_start" (calling_start p))
 (app (missing "calling_end" (calling_end p))
 (app (missing "pilot_start" (pilot_start p))
 (app (missing "pilot_end" (pilot_end p))
 (app (unless (emergency_blocking p) "emergency_blocking_required")
 (app (unless (premium_blocking p) "premium_blocking_required")
 (app (unless (consent_required p) "consent_engine_required")
 (app (unless (negb (bool_decide (allowed_countries p = []))) "country_allowlist_required")
 (app (unless (negb (bool_decide (allowed_destination_classes p = []))) "destination_class_allowlist_required")
 (app (unless (max_concurrent_calls p =? 1) "max_concurrent_calls_must_equal_1")
 (app (unless (max_call_attempts p =? 1) "max_call_attempts_must_equal_1")
      (unless (str_in (mode (recording p)) ["disabled"; "allowed"; "required"])
         "invalid_recording_mode")))))))))))))))))).

(** [^\+[1-9][0-9]{7,14}$] *)
Definition E164 (s : string) : bool :=
  match s with
  | String plus (String c rest) =>
      Ascii.eqb plus "+" && in_range c 49 57 && fullmatch_class is_digit 7 14 rest
  | _ => false
  end.

(** ** Capacity *)

Record Capacity := mkCapacity { active : Z; attempts : Z }.
Definition new_capacity : Capacity := mkCapacity 0 0.
Definition reserve (c : Capacity) (p : Policy) : Capacity * bool :=
  if (max_concurrent_calls p <=? active c) || (max_call_attempts p <=? attempts c) then (c, false)
  else (mkCapacity (active c + 1) (attempts c + 1), true).
Definition release (c : Capacity) : Capacity := mkCapacity (Z.max 0 (active c - 1)) (attempts c).

(** ** The decision *)

Section authorize.
(** [c.isdigit()] of a character outside ASCII, and [ZoneInfo(key)]. *)
Context (unicode_digit : string -> bool) (zones : string -> zone).

Definition is_digit_char (c : string) : bool :=
  match c with
  | String a EmptyString => is_digit a
  | _ => unicode_digit c
  end.
Definition _digits (value : string) : string :=
  String.concat "" (List.filter is_digit_char (characters value)).

Definition nanp (country : string) : bool := str_in country ["US"; "CA"; "DO"].
Definition national (dest country : string) : string :=
  let digits := _digits dest in
  if nanp country && starts_with "1" digits then removeprefix "1" digits else digits.
Definition _is_emergency (dest country : string) : bool :=
  str_in (national dest country) ["911"; "112"; "999"; "000"; "110"; "118"; "119"].
Definition _is_premium (dest country : string) : bool :=
  nanp country && starts_with "900" (national dest country)
  || bool_decide (country = "GB") && starts_with "9" (national dest country).

(** [datetime.weekday()]: the epoch is a Thursday. *)
Definition weekday (t : datetime) : Z := (wall t / day + 3) mod 7.

(** The condition of [DENY_NO_CONSENT]; an expiration without zone cannot be
    compared with [now]. *)
Definition lacks_consent (c : option Consent) (now : Z) : exn + bool :=
  match c with
  | None => inr true
  | Some c =>
      if negb (bool_decide (status c = "granted")) || bool_decide (reference c = "")
         || negb (bool_decide (consent_scope c = "production-webrtc-pilot")) || is_null (timestamp c)
      then inr true
      else
        match expiration c with
        | None => inr false
        | Some e =>
            if aware e then inr (instant e <=? now)
            else inl (TypeError "can't compare offset-naive and offset-aware datetimes")
        end
  end.

(** The hours, and then the capacity when there is a counter. *)
Definition in_calling_hours (p : Policy) (zone_key : string) (local : datetime) : bool :=
  bool_decide (Some zone_key = timezone p) && bool_decide (weekday local ∈ allowed_weekdays p)
  && match calling_start p, calling_end p with
     | Some s, Some e => (s <=? time_of_day local) && (time_of_day local <? e)
     | _, _ => false
     end.

Definition with_capacity (p : Policy) (c : option Capacity) : option Capacity * Decision :=
  match c with
  | None => (None, ALLOW)
  | Some c => let r := reserve c p in (Some r.1, if r.2 then ALLOW else DENY_CAPACITY)
  end.

(** The refusals before the consent, in their order; [None] when none applies. *)
Definition early_refusal (p : Policy) (r : CallRequest) : option Decision :=
  let now := instant (requested_at r) in
  if negb (enabled p) || kill_switch p || negb (bool_decide (validate_for_activation p = []))
  then Some DENY
  else if negb (bool_decide (Some (campaign r) = allowed_campaign p))
          || negb (bool_decide (Some (business_unit r) = allowed_business_unit p))
  then Some DENY_UNAUTHORIZED_CAMPAIGN
  else if negb (bool_decide (Some (agent_subject r) = allowed_agent p))
          || negb (bool_decide (Some (extension r) = allowed_extension p))
          || bool_decide (tenant r = "")
  then Some DENY_UNAUTHORIZED_AGENT
  else if negb (bool_decide (Some (caller_id r) = allowed_caller_id p))
  then Some DENY_UNAUTHORIZED_CALLER_ID
  else if _is_emergency (destination r) (destination_country r) then Some DENY_EMERGENCY
  else if _is_premium (destination r) (destination_country r) then Some DENY_PREMIUM
  else if negb (E164 (destination r)) || negb (bool_decide (Some (destination r) = allowed_destination p))
          || str_in (destination r) (prohibited_destinations p)
          || negb (str_in (destination_class r) (allowed_destination_classes p))
  then Some DENY_PROHIBITED
  else if negb (str_in (destination_country r) (allowed_countries p)) then Some DENY_UNSUPPORTED_COUNTRY
  else
    match pilot_start p, pilot_end p with
    | Some s, Some e => if (now <? instant s) || (instant e <=? now) then Some DENY_OUTSIDE_PILOT_WINDOW else None
    | _, _ => None
    end.

Definition authorize (p : Policy) (r : CallRequest) (capacity : option Capacity) :
    option Capacity * (exn + Decision) :=
  let now := instant (requested_at r) in
  match early_refusal p r with
  | Some x => (capacity, inr x)
  | None =>
      match (if consent_required p then lacks_consent (consent r) now else inr false) with
      | inl e => (capacity, inl e)
      | inr true => (capacity, inr DENY_NO_CONSENT)
      | inr false =>
          if bool_decide (mode (recording p) = "disabled") && recording_requested r then (capacity, inr DENY)
          else if bool_decide (mode (recording p) = "required") && negb (recording_requested r)
          then (capacity, inr DENY)
          else
            match zones (destination_timezone r) with
            | zone_bad_key => (capacity, inl (ValueError "malformed zone key"))
            | zone_not_found => (capacity, inr DENY_OUTSIDE_CALLING_HOURS)
            | zone_found offset_at =>
                if in_calling_hours p (destination_timezone r) (in_zone offset_at (astimezone_utc (requested_at r)))
                then let x := with_capacity p capacity in (x.1, inr x.2)
                else (capacity, inr DENY_OUTSIDE_CALLING_HOURS)
            end
      end
  end.
End authorize.

(** ** What is allowed *)

Section allowed.
Context (unicode_digit : string -> bool) (zones : string -> zone).

(** The call is one the policy names. *)
Definition named (p : Policy) (r : CallRequest) : Prop :=
  enabled p = true /\ kill_switch p = false /\ validate_for_activation p = []
  /\ allowed_campaign p = Some (campaign r) /\ allowed_business_unit p = Some (business_unit r)
  /\ allowed_agent p = Some (agent_subject r) /\ allowed_extension p = Some (extension r)
  /\ tenant r <> "" /\ allowed_caller_id p = Some (caller_id r)
  /\ _is_emergency unicode_digit (destination r) (destination_country r) = false
  /\ _is_premium unicode_digit (destination r) (destination_country r) = false
  /\ E164 (destination r) = true /\ allowed_destination p = Some (destination r)
  /\ destination r ∉ prohibited_destinations p
  /\ destination_class r ∈ allowed_destination_classes p
  /\ destination_country r ∈ allowed_countries p
  /\ exists s e, pilot_start p = Some s /\ pilot_end p = Some e
       /\ instant s <= instant (requested_at r) < instant e.

(** A consent for the pilot is granted and not expired. *)
Definition consented (c : option Consent) (now : Z) : Prop :=
  exists x, c = Some x /\ status x = "granted" /\ reference x <> ""
    /\ consent_scope x = "production-webrtc-pilot" /\ timestamp x <> None
    /\ forall e, expiration x = Some e -> aware e = true /\ now < instant e.

(** The day and hour at the destination are calling hours. *)
Definition in_hours (p : Policy) (r : CallRequest) : Prop :=
  exists offset_at start end_,
    zones (destination_timezone r) = zone_found offset_at
    /\ timezone p = Some (destination_timezone r)
    /\ calling_start p = Some start /\ calling_end p = Some end_
    /\ let local := in_zone offset_at (astimezone_utc (requested_at r)) in
       weekday local ∈ allowed_weekdays p /\ start <= time_of_day local < end_.

(** The calls a policy permits. *)
Definition permitted (p : Policy) (r : CallRequest) : Prop :=
  named p r /\ consented (consent r) (instant (requested_at r))
  /\ (mode (recording p) = "disabled" -> recording_requested r = false)
  /\ (mode (recording p) = "required" -> recording_requested r = true)
  /\ in_hours p r.

Lemma if_none {A} (b : bool) (x : A) k : (if b then Some x else k) = None <-> b = false /\ k = None.
Proof. destruct b; naive_solver. Qed.

Lemma validated_fields p :
  validate_for_activation p = [] ->
  is_Some (pilot_start p) /\ is_Some (pilot_end p) /\ is_Some (calling_start p) /\ is_Some (calling_end p)
  /\ consent_required p = true /\ max_concurrent_calls p = 1 /\ max_call_attempts p = 1.
Proof.
  unfold validate_for_activation, missing, unless.
  destruct (pilot_start p), (pilot_end p), (calling_start p), (calling_end p), (consent_required p),
    (max_concurrent_calls p =? 1) eqn:E1, (max_call_attempts p =? 1) eqn:E2; cbn;
    intros Hv; repeat (apply app_nil in Hv as [? Hv]); try discriminate.
  apply Z.eqb_eq in E1, E2. split_and!; eauto.
Qed.

Lemma lacks_consent_false c now :
  lacks_consent c now = inr false <-> consented c now.
Proof.
  unfold consented. destruct c as [x|]; cbn; [|naive_solver].
  destruct (_ || _) eqn:E.
  - split; [done|]. intros (y & [= <-] & H1 & H2 & H3 & H4 & _). rewrite H1, H3 in E.
    rewrite !bool_decide_true, bool_decide_false in E by done. by destruct (timestamp x).
  - rewrite !orb_false_iff, !negb_false_iff, !bool_decide_eq_true, bool_decide_eq_false, is_null_false in E.
    destruct E as [[[E1 E2] E3] [t E4]].
    assert (Hne : timestamp x <> None) by congruence.
    destruct (expiration x) as [e|] eqn:Ee.
    + destruct (aware e) eqn:Ea.
      * split.
        -- intros [= Hlt%Z.leb_gt]. exists x. split_and!; try done. intros e0 He0. by simplify_eq.
        -- intros (y & [= <-] & _ & _ & _ & _ & He). destruct (He e Ee) as [_ ?]. f_equal. by apply Z.leb_gt.
      * split; [done|]. intros (y & [= <-] & _ & _ & _ & _ & He). destruct (He e Ee) as [? _]. congruence.
    + split; [|done]. intros _. exists x. split_and!; try done. congruence.
Qed.

Lemma early_refusal_none p r :
  early_refusal unicode_digit p r = None <-> named p r.
Proof.
  unfold named, early_refusal, str_in. rewrite !if_none, !orb_false_iff, !negb_false_iff, !bool_decide_eq_true,
    !bool_decide_eq_false.
  assert (Hp : validate_for_activation p = [] ->
    match pilot_start p, pilot_end p with
    | Some s, Some e => if (instant (requested_at r) <? instant s) || (instant e <=? instant (requested_at r))
                        then Some DENY_OUTSIDE_PILOT_WINDOW else None
    | _, _ => None
    end = None <-> exists s e, pilot_start p = Some s /\ pilot_end p = Some e
       /\ instant s <= instant (requested_at r) < instant e).
  { intros ((s & ->) & (e & ->) & _)%validated_fields. rewrite if_none, orb_false_iff, Z.ltb_ge, Z.leb_gt.
    split; [intros [[? ?] _]; by exists s, e|]. by intros (? & ? & [= <-] & [= <-] & ? & ?). }
  split.
  - intros ([[? ?] Hv] & [? ?] & [[? ?] ?] & ? & ? & ? & [[[? ?] ?] ?] & ? & Hl). rewrite (Hp Hv) in Hl.
    split_and!; done.
  - intros (? & ? & Hv & ? & ? & ? & ? & ? & ? & ? & ? & ? & ? & ? & ? & ? & Hl). rewrite <- (Hp Hv) in Hl.
    split_and!; done.
Qed.

Lemma with_capacity_allow p cap :
  max_concurrent_calls p = 1 -> max_call_attempts p = 1 ->
  (with_capacity p cap).2 = ALLOW <-> forall c, cap = Some c -> active c < 1 /\ attempts c < 1.
Proof.
  intros H1 H2. destruct cap as [c|]; cbn; [|naive_solver]. unfold reserve. rewrite H1, H2.
  destruct (1 <=? active c) eqn:E1, (1 <=? attempts c) eqn:E2; cbn;
    rewrite ?Z.leb_le, ?Z.leb_gt in *; split; try done; try (intros Hc; specialize (Hc c eq_refl); lia).
  intros _ ? [= <-]. lia.
Qed.

Lemma in_calling_hours_true p key local :
  in_calling_hours p key local = true <->
  exists start end_, timezone p = Some key /\ calling_start p = Some start /\ calling_end p = Some end_
    /\ weekday local ∈ allowed_weekdays p /\ start <= time_of_day local < end_.
Proof.
  unfold in_calling_hours. rewrite !andb_true_iff, !bool_decide_eq_true.
  destruct (calling_start p) as [a|], (calling_end p) as [b|];
    try (split; [by intros [_ ?]|by intros (? & ? & ? & ? & ? & _)]).
  rewrite andb_true_iff, Z.leb_le, Z.ltb_lt. split.
  - intros [[? ?] [? ?]]. by exists a, b.
  - intros (? & ? & ? & [= <-] & [= <-] & ? & ? & ?). done.
Qed.

Lemma in_hours_iff p r :
  in_hours p r <->
  exists offset_at, zones (destination_timezone r) = zone_found offset_at
    /\ in_calling_hours p (destination_timezone r) (in_zone offset_at (astimezone_utc (requested_at r))) = true.
Proof.
  unfold in_hours. setoid_rewrite in_calling_hours_true. cbv zeta. split.
  - intros (o & a & b & ? & ? & ? & ? & ? & ?). exists o. split; [done|]. by exists a, b.
  - intros (o & ? & a & b & ? & ? & ? & ? & ?). by exists o, a, b.
Qed.

(** The recording mode agrees with the request. *)
Lemma recording_agrees p r :
  bool_decide (mode (recording p) = "disabled") && recording_requested r = false ->
  bool_decide (mode (recording p) = "required") && negb (recording_requested r) = false <->
  (mode (recording p) = "disabled" -> recording_requested r = false)
  /\ (mode (recording p) = "required" -> recording_requested r = true).
Proof.
  intros Hd. destruct (recording_requested r); cbn in *; rewrite ?andb_true_r, ?andb_false_r in *.
  - apply bool_decide_eq_false in Hd. tauto.
  - rewrite bool_decide_eq_false. split; [intros ?; split; [done|tauto]|]. intros [_ Hx] E. by specialize (Hx E).
Qed.

Lemma authorize_allow p r cap :
  (authorize unicode_digit zones p r cap).2 = inr ALLOW <->
  permitted p r /\ forall c, cap = Some c -> active c < 1 /\ attempts c < 1.
Proof.
  unfold authorize, permitted. cbv zeta.
  destruct (early_refusal unicode_digit p r) as [x|] eqn:Er.
  - split.
    + cbn. intros [= ->]. exfalso. revert Er. unfold early_refusal. repeat case_match; discriminate.
    + intros [[Hn%early_refusal_none _] _]. congruence.
  - apply early_refusal_none in Er. pose proof Er as (_ & _ & Hv & _).
    destruct (validated_fields p Hv) as (_ & _ & _ & _ & -> & Hm1 & Hm2).
    rewrite <- lacks_consent_false, <- (with_capacity_allow p cap Hm1 Hm2).
    destruct (lacks_consent _ _) as [e|[]]; cbn; [split; [done|by intros [(_ & ? & _) _]]..|].
    destruct (bool_decide (mode (recording p) = "disabled") && recording_requested r) eqn:Hd.
    { split; [done|]. intros [(_ & _ & Hdis & _) _]. exfalso.
      apply andb_true_iff in Hd as [Hd%bool_decide_eq_true Hr]. rewrite (Hdis Hd) in Hr. done. }
    pose proof (recording_agrees p r Hd) as Hrec. rewrite in_hours_iff.
    destruct (bool_decide (mode (recording p) = "required") && negb (recording_requested r)).
    { split; [done|]. intros [(_ & _ & Hx & Hy & _) _]. pose proof (proj2 Hrec (conj Hx Hy)). discriminate. }
    destruct (proj1 Hrec eq_refl) as [Hx Hy].
    destruct (zones (destination_timezone r)) as [o| |] eqn:Hz;
      [|split; [done|intros [(_ & _ & _ & _ & ? & ? & _) _]; discriminate]..].
    destruct (in_calling_hours p _ _) eqn:Hh; cbn.
    + split; [intros [= Ha]|intros [_ Ha]; by f_equal]. split; [|done]. split_and!; try done. by exists o.
    + split; [done|]. intros [(_ & _ & _ & _ & o' & [= <-] & Hh') _]. congruence.
Qed.

(** C20. The policy is closed by default, and exactly this is open: a call is
    allowed if and only if an enabled, complete policy without kill switch
    names its campaign, unit, agent, extension, caller id and destination, the
    destination is an E.164 number that is no emergency, premium or prohibited
    one, of an allowed class and country, the pilot is running, a granted and
    unexpired consent for the pilot is on file, the recording mode agrees, the
    local day and hour of the destination are calling hours, and, where calls
    are counted, none was attempted before. *)
Theorem allowed_iff_permitted p r cap :
  (authorize unicode_digit zones p r cap).2 = inr ALLOW <->
  permitted p r /\ forall c, cap = Some c -> active c < 1 /\ attempts c < 1.
Proof. apply authorize_allow. Qed.

(** A process that counts its calls: requests are decided and calls end. *)
Inductive call_event := Ask (p : Policy) (r : CallRequest) | End_.
Definition on_call (c : Capacity) (e : call_event) : Capacity * list Decision :=
  match e with
  | Ask p r =>
      match authorize unicode_digit zones p r (Some c) with
      | (c', inr x) => (coalesce c' c, [x])
      | (c', inl _) => (coalesce c' c, [])
      end
  | End_ => (release c, [])
  end.
Fixpoint decisions (l : list call_event) (c : Capacity) : list Decision :=
  match l with
  | [] => []
  | e :: l' => let r := on_call c e in app r.2 (decisions l' r.1)
  end.

Lemma authorize_capacity p r c :
  (exists x, authorize unicode_digit zones p r (Some c) = (Some c, x) /\ x <> inr ALLOW)
  \/ attempts c < 1 /\ authorize unicode_digit zones p r (Some c)
     = (Some (mkCapacity (active c + 1) (attempts c + 1)), inr ALLOW).
Proof.
  unfold authorize. cbv zeta. destruct (early_refusal unicode_digit p r) as [x|] eqn:Er.
  { left. eexists. split; [done|]. intros [= ->]. revert Er. unfold early_refusal. repeat case_match; discriminate. }
  apply early_refusal_none in Er. pose proof Er as (_ & _ & Hv & _).
  destruct (validated_fields p Hv) as (_ & _ & _ & _ & _ & Hm1 & Hm2).
  destruct (if consent_required p then _ else _) as [e|[]]; [left; by eexists..|].
  destruct (_ && recording_requested r); [left; by eexists|].
  destruct (_ && negb (recording_requested r)); [left; by eexists|].
  destruct (zones (destination_timezone r)) as [o| |]; [|left; by eexists..].
  destruct (in_calling_hours _ _ _); [|left; by eexists].
  cbn. unfold reserve. rewrite Hm1, Hm2.
  destruct (_ || _) eqn:E; cbn; [left; by eexists|right].
  apply orb_false_iff in E as [_ E%Z.leb_gt]. done.
Qed.

Lemma none_allowed_after l c : 1 <= attempts c -> ALLOW ∉ decisions l c.
Proof.
  revert c. induction l as [|e l IH]; intros c Hc; cbn; [apply not_elem_of_nil|].
  destruct e as [p r|]; cbn.
  - destruct (authorize_capacity p r c) as [(x & -> & Hx)|[? _]]; [|lia].
    destruct x as [e|x]; cbn; [by apply IH|]. apply not_elem_of_cons. split; [congruence|by apply IH].
  - apply IH. cbn. done.
Qed.

Definition allowances (l : list Decision) : nat := length (List.filter (fun x => bool_decide (x = ALLOW)) l).

Lemma no_allowance l : ALLOW ∉ l -> allowances l = 0%nat.
Proof.
  induction l as [|x l IH]; [done|]. intros [Hx Hl]%not_elem_of_cons. unfold allowances in *. cbn.
  rewrite bool_decide_false by congruence. by apply IH.
Qed.

(** A process that counts its calls allows one call, ever: whatever
    policies, requests and ends of calls it sees, from a new counter on at most
    one decision is [ALLOW]. *)
Theorem at_most_one_call_allowed l : (allowances (decisions l new_capacity) <= 1)%nat.
Proof.
  assert (Hz : attempts new_capacity = 0) by done. revert Hz. generalize new_capacity.
  induction l as [|e l IH]; intros c Hc; [cbn; lia|]; cbn. destruct e as [p r|]; cbn; [|by apply IH].
  destruct (authorize_capacity p r c) as [(x & -> & Hx)|[_ ->]]; cbn.
  - destruct x as [e|x]; cbn; [by apply IH|]. unfold allowances in *. cbn.
    rewrite bool_decide_false by congruence. by apply IH.
  - unfold allowances. cbn. apply le_n_S, Nat.eq_le_incl, no_allowance, none_allowed_after. cbn. lia.
Qed.

End allowed.
End CallPolicy.
