(* ===== verification/EdgeClient.v ===== *)
(** * The private edge client ([src/app/adapters/vicidial/mtls_client.py])

    [VicidialMtlsClient]: its construction, the three operations with their
    switches, and the request they share, with every check before a byte leaves
    and every way the answer can be refused.  URL splitting, name resolution,
    the address classes, the TLS files and context, the transport and the JSON
    decoder are parameters.  A payload is a decoded JSON value, so it can always
    be serialised. *)

From S2P Require Import Prelude PyText Txn.
Local Open Scope string_scope.
Local Open Scope Z_scope.

Module EdgeClient.

Definition VICIDIAL_PRIVATE_HOSTS : list string :=
  ["authorization.internal.codestra.agency"; "edge.internal.codestra.agency"].
Definition VICIDIAL_PRIVATE_PORT : Z := 8443.
Definition MAX_PAYLOAD_BYTES : Z := 64 * 1024.
Definition MAX_RESPONSE_BYTES : Z := 64 * 1024.

Definition APPROVED_ROUTES : list (string * string * string) :=
  [("POST", "authorization.internal.codestra.agency", "/api/v1/transfers/authorize");
   ("POST", "edge.internal.codestra.agency", "/v1/transfers/execute");
   ("POST", "edge.internal.codestra.agency", "/v1/calls/originate")].

(** The settings the client reads. *)
Record Settings := mkSettings {
  transfer_control_enabled : bool;
  vicidial_read_enabled : bool;
  vicidial_write_enabled : bool;
  live_writes_enabled : bool;
  external_dial_enabled : bool;
  vicidial_authorization_url : string;
  vicidial_edge_url : string;
  vicidial_ca_file : string;
  vicidial_client_cert_file : string;
  vicidial_client_key_file : string;
  vicidial_crl_file : string;
}.

Definition vicidial_mtls_configured (s : Settings) : bool :=
  forallb (fun v => negb (bool_decide (v = "")))
    [vicidial_authorization_url s; vicidial_edge_url s; vicidial_ca_file s;
     vicidial_client_cert_file s; vicidial_client_key_file s].

(** [VicidialMtlsError], or an exception the client lets through. *)
Inductive failure := VicidialMtlsError (msg : string) | Propagated (e : exn).

(** [urlsplit(url)]; reading [port] may raise. *)
Record url_parts := mkUrl {
  scheme : string;
  hostname : option string;
  port : exn + option Z;
  path : string;
  username : option string;
  password : option string;
  url_query : string;
  fragment : string;
}.

(** What the transport does with a request: a timeout or network error, which
    the client catches, another exception, or a response whose chunks may break
    off with one of those. *)
Inductive transport_end := Complete | Broken (caught : bool) (e : exn).
Inductive transport :=
  | NoResponse (caught : bool) (e : exn)
  | Response (status_code : Z) (chunks : list string) (ending : transport_end).

(** One request as it leaves the process. *)
Record sent := mkSent { s_url : string; s_body : string; s_correlation : string; s_request : string }.

Section client.
Context (upper : string -> string) (urlsplit : string -> exn + url_parts)
  (resolver : string -> exn + list string) (is_private : string -> exn + bool)
  (is_file : string -> bool) (load_credentials load_crl : Settings -> bool)
  (json_loads : string -> option json).
(** What the peer does with each request. *)
Context (peer : sent -> transport).

(** ** Construction *)

Definition _required_file (value label : string) : failure + unit :=
  if is_file value then inr tt else inl (VicidialMtlsError ("VICidial " +:+ label +:+ " is missing")).

(** [load_credentials] and [load_crl] say whether [ssl] accepts the files; its
    [OSError] or [SSLError] becomes one refusal. *)
Definition invalid_credentials : failure :=
  VicidialMtlsError "VICidial mTLS credentials are invalid or unreadable".
Definition _build_ssl_context (s : Settings) : failure + unit :=
  match _required_file (vicidial_ca_file s) "CA bundle" with
  | inl e => inl e
  | inr _ =>
      match _required_file (vicidial_client_cert_file s) "client certificate" with
      | inl e => inl e
      | inr _ =>
          match _required_file (vicidial_client_key_file s) "client key" with
          | inl e => inl e
          | inr _ =>
              if negb (load_credentials s) then inl invalid_credentials
              else if bool_decide (vicidial_crl_file s = "") then inr tt
              else
                match _required_file (vicidial_crl_file s) "CRL" with
                | inl e => inl e
                | inr _ => if load_crl s then inr tt else inl invalid_credentials
                end
          end
      end
  end.

Definition new_client (s : Settings) : failure + unit :=
  if vicidial_mtls_configured s then _build_ssl_context s
  else inl (VicidialMtlsError "VICidial private mTLS is not configured").

(** ** One request *)

(** The addresses of the host, all of them parsed before one is judged. *)
Fixpoint parse_addresses (l : list string) : exn + list bool :=
  match l with
  | [] => inr []
  | a :: l' =>
      match is_private a with
      | inl e => inl e
      | inr b => match parse_addresses l' with inl e => inl e | inr bs => inr (b :: bs) end
      end
  end.
Definition _assert_private_resolution (host : string) : failure + unit :=
  match resolver host with
  | inl _ => inl (VicidialMtlsError "VICidial private DNS resolution failed closed")
  | inr addresses =>
      match parse_addresses addresses with
      | inl _ => inl (VicidialMtlsError "VICidial private DNS resolution failed closed")
      | inr parsed =>
          if bool_decide (parsed = []) || existsb negb parsed
          then inl (VicidialMtlsError "VICidial hostname did not resolve exclusively to the private IP")
          else inr tt
      end
  end.

Definition not_approved : failure := VicidialMtlsError "VICIdial method or route is not approved".

(** The route, in the order of the tests; the port is read after the scheme. *)
Definition check_route (method url : string) : failure + string :=
  match urlsplit url with
  | inl e => inl (Propagated e)
  | inr p =>
      let host := coalesce (hostname p) "" in
      if negb (bool_decide ((upper method, host, path p) ∈ APPROVED_ROUTES))
         || negb (bool_decide (scheme p = "https"))
      then inl not_approved
      else
        match port p with
        | inl e => inl (Propagated e)
        | inr n =>
            if bool_decide (n = Some VICIDIAL_PRIVATE_PORT)
               && match hostname p with Some h => str_in h VICIDIAL_PRIVATE_HOSTS | None => false end
               && is_null (username p) && is_null (password p)
               && bool_decide (url_query p = "") && bool_decide (fragment p = "")
            then inr host else inl not_approved
        end
  end.

(** The size of the body is tested chunk by chunk. *)
Fixpoint read_chunks (l : list string) (size : Z) (ending : transport_end) : failure + string :=
  match l with
  | [] =>
      match ending with
      | Complete => inr ""
      | Broken true _ => inl (VicidialMtlsError "VICidial private request failed closed")
      | Broken false e => inl (Propagated e)
      end
  | c :: l' =>
      if MAX_RESPONSE_BYTES <? size + byte_len c
      then inl (VicidialMtlsError "VICidial response exceeds the configured limit")
      else match read_chunks l' (size + byte_len c) ending with
           | inl e => inl e
           | inr rest => inr (c +:+ rest)
           end
  end.

Definition receive (t : transport) : failure + list (string * json) :=
  match t with
  | NoResponse true _ => inl (VicidialMtlsError "VICidial private request failed closed")
  | NoResponse false e => inl (Propagated e)
  | Response status chunks ending =>
      if negb ((200 <=? status) && (status <? 300))
      then inl (VicidialMtlsError "VICidial private request failed closed")
      else
        match read_chunks chunks 0 ending with
        | inl e => inl e
        | inr body =>
            match json_loads body with
            | None => inl (VicidialMtlsError "VICidial response is not valid JSON")
            | Some (JObj members) => inr members
            | Some _ => inl (VicidialMtlsError "VICidial response must be a JSON object")
            end
        end
  end.

(** What left the process, and the answer; [drawn] are the identifiers the
    client makes up when it is given none. *)
Definition request (method url : string) (payload : json) (correlation_id request_id : option string)
    (drawn : string * string) : option sent * (failure + list (string * json)) :=
  match check_route method url with
  | inl e => (None, inl e)
  | inr host =>
      match _assert_private_resolution host with
      | inl e => (None, inl e)
      | inr _ =>
          let body := json_dumps json_canonical payload in
          if MAX_PAYLOAD_BYTES <? byte_len body
          then (None, inl (VicidialMtlsError "VICidial payload exceeds the configured limit"))
          else
            let s := mkSent url body (py_or correlation_id drawn.1) (py_or request_id drawn.2) in
            (Some s, receive (peer s))
      end
  end.

(** ** The operations *)

Definition authorize (s : Settings) (payload : json) correlation_id request_id drawn :=
  if negb (transfer_control_enabled s) || negb (vicidial_read_enabled s)
  then (None, inl (VicidialMtlsError "VICidial authorization is disabled"))
  else request "POST" (vicidial_authorization_url s +:+ "/api/v1/transfers/authorize") payload
         correlation_id request_id drawn.

Definition execute (s : Settings) (payload : json) correlation_id request_id drawn :=
  if negb (transfer_control_enabled s && vicidial_write_enabled s && live_writes_enabled s)
  then (None, inl (VicidialMtlsError "VICIdial transfer execution is disabled"))
  else request "POST" (vicidial_edge_url s +:+ "/v1/transfers/execute") payload
         correlation_id request_id drawn.

Definition originate (s : Settings) (payload : json) correlation_id request_id drawn :=
  if negb (external_dial_enabled s && vicidial_write_enabled s && live_writes_enabled s)
  then (None, inl (VicidialMtlsError "VICIdial call origination is disabled"))
  else request "POST" (vicidial_edge_url s +:+ "/v1/calls/originate") payload
         correlation_id request_id drawn.

(** ** What leaves the process *)

(** A URL of the private network: an approved route, over TLS, on the private
    port, with no credentials, query or fragment, whose host resolves to private
    addresses only. *)
Definition private_url (method url : string) : Prop :=
  exists p h addresses, urlsplit url = inr p /\ hostname p = Some h
    /\ (upper method, h, path p) ∈ APPROVED_ROUTES /\ scheme p = "https"
    /\ port p = inr (Some VICIDIAL_PRIVATE_PORT) /\ h ∈ VICIDIAL_PRIVATE_HOSTS
    /\ username p = None /\ password p = None /\ url_query p = "" /\ fragment p = ""
    /\ resolver h = inr addresses /\ addresses <> [] /\ forall a, a ∈ addresses -> is_private a = inr true.

Lemma check_route_ok method url h :
  check_route method url = inr h ->
  exists p, urlsplit url = inr p /\ hostname p = Some h
    /\ (upper method, h, path p) ∈ APPROVED_ROUTES /\ scheme p = "https"
    /\ port p = inr (Some VICIDIAL_PRIVATE_PORT) /\ h ∈ VICIDIAL_PRIVATE_HOSTS
    /\ username p = None /\ password p = None /\ url_query p = "" /\ fragment p = "".
Proof.
  unfold check_route. destruct (urlsplit url) as [e|p]; [done|]. destruct (_ || _) eqn:E1; [done|].
  destruct (port p) as [e|n] eqn:Ep; [done|]. destruct (_ && _) eqn:E2; [|done]. intros [= <-].
  rewrite orb_false_iff, !negb_false_iff, !bool_decide_eq_true in E1. destruct E1 as [E1 E1'].
  rewrite !andb_true_iff, !bool_decide_eq_true, !is_null_true in E2.
  destruct E2 as [[[[[-> Eh] Eu] Epw] Eq] Ef]. destruct (hostname p) as [h|] eqn:Hh; [|done]. cbn in *.
  apply bool_decide_eq_true in Eh. exists p. split_and!; done.
Qed.

Lemma parse_addresses_private l bs :
  parse_addresses l = inr bs -> existsb negb bs = false -> length bs = length l /\ forall a, a ∈ l -> is_private a = inr true.
Proof.
  revert bs. induction l as [|a l IH]; cbn; intros bs.
  - intros [= <-] _. split; [done|]. intros a Ha. by apply not_elem_of_nil in Ha.
  - destruct (is_private a) as [e|b] eqn:Ea; [done|]. destruct (parse_addresses l) as [e|bs'] eqn:El; [done|].
    intros [= <-]. cbn. intros [Hb Hbs]%orb_false_iff. apply negb_false_iff in Hb as ->.
    destruct (IH bs' eq_refl Hbs) as [Hlen Hall]. split; [by rewrite Hlen|].
    intros x [->|Hx]%elem_of_cons; [done|by apply Hall].
Qed.

Lemma resolution_private h :
  _assert_private_resolution h = inr tt ->
  exists addresses, resolver h = inr addresses /\ addresses <> []
    /\ forall a, a ∈ addresses -> is_private a = inr true.
Proof.
  unfold _assert_private_resolution. destruct (resolver h) as [e|l]; [done|].
  destruct (parse_addresses l) as [e|bs] eqn:El; [done|]. destruct (_ || _) eqn:E; [done|]. intros _.
  apply orb_false_iff in E as [Hne%bool_decide_eq_false Hp].
  destruct (parse_addresses_private l bs El Hp) as [Hlen Hall]. exists l. split_and!; [done| |done].
  intros ->. by apply Hne, length_zero_iff_nil.
Qed.

Lemma request_sent method url payload cor rid drawn s r :
  request method url payload cor rid drawn = (Some s, r) ->
  private_url method url /\ s_url s = url /\ s_body s = json_dumps json_canonical payload
  /\ byte_len (s_body s) <= MAX_PAYLOAD_BYTES /\ r = receive (peer s).
Proof.
  unfold request. destruct (check_route method url) as [e|h] eqn:Er; [done|].
  destruct (_assert_private_resolution h) as [e|[]] eqn:Ea; [done|].
  destruct (MAX_PAYLOAD_BYTES <? _) eqn:Eb; [done|]. intros [= <- <-]. cbn.
  apply check_route_ok in Er as (p & ? & ? & ? & ? & ? & ? & ? & ? & ? & ?).
  apply resolution_private in Ea as (l & ? & ? & ?). apply Z.ltb_ge in Eb.
  split_and!; try done. exists p, h, l. split_and!; done.
Qed.

(** What is read of an answer is bounded, whatever the peer sends. *)
Lemma read_chunks_bounded l size ending body :
  read_chunks l size ending = inr body -> l <> [] -> size + byte_len body <= MAX_RESPONSE_BYTES.
Proof.
  revert size body. induction l as [|c l IH]; cbn; intros size body; [done|].
  destruct (Z.ltb_spec MAX_RESPONSE_BYTES (size + byte_len c)) as [|Hle]; [done|].
  destruct (read_chunks l _ ending) as [e|rest] eqn:E; [done|]. intros [= <-] _.
  assert (Happ : byte_len (c +:+ rest) = byte_len c + byte_len rest)
    by (unfold byte_len; rewrite string_length_app; lia).
  rewrite Happ. destruct l as [|c' l'].
  - cbn in E. repeat case_match; simplify_eq. change (byte_len EmptyString) with 0. lia.
  - specialize (IH _ _ E ltac:(done)). lia.
Qed.
End client.
End EdgeClient.
