(* ===== verification/Extensions.v ===== *)
(** * Extension allocation and provisioning

    [src/app/core/telephony.py] (the audit of an extension against its
    authoritative sources, the provisioning saga's transition table) and the
    allocation half of [src/app/api/v1/telephony.py], on the tables
    [telephony_extension_pool], [telephony_extension_reservation] and
    [telephony_provisioning_saga] of [src/app/db/models.py].  [str.upper] is a
    parameter.  Columns that no code reads or writes beyond their default are
    left out.  A request is a value its model has accepted. *)

From S2P Require Import Prelude PyText PyTime Sha256 Txn Machines TelephonyContracts TelephonyTables.
Import TelephonyContracts (filled) TelephonyTables (absent).
Local Open Scope string_scope.
Local Open Scope Z_scope.

Module Extensions.

(** ** The audit of one extension *)

Inductive ExtensionState :=
  | AVAILABLE | RESERVED | ASSIGNED | ACTIVE | COOLDOWN | HISTORICAL_HOLD | COLLISION | EXCLUDED
  | UNKNOWN_REQUIRES_REVIEW.
#[export] Instance ExtensionState_eq_dec : EqDecision ExtensionState.
Proof. solve_decision. Defined.

Definition AUTHORITATIVE_SOURCES : list string :=
  ["pjsip_endpoint"; "pjsip_auth"; "pjsip_aor"; "pjsip_contact"; "chan_sip_peer"; "vicidial_phone";
   "vicidial_user"; "vicidial_session"; "asterisk_channel"; "registration"; "voicemail"; "dialplan";
   "configuration_include"; "static_queue"; "historical_reservation"; "call_history";
   "odoo_assignment"; "odoo_provisioning_request"; "middleware_reservation"; "postgres_lease";
   "redis_lease"; "deprovisioning_record"; "cooldown"].
Definition CLEAR_MARKERS : list string := ["AVAILABLE"; "ABSENT"; "CLEAR"; "NONE"].
Definition ACTIVE_MARKERS : list string := ["ACTIVE"].
Definition COLLISION_MARKERS : list string := ["COLLISION"; "CONFLICT"].
Definition ASSIGNED_MARKERS : list string := ["ASSIGNED"; "PRESENT"].
Definition RESERVED_MARKERS : list string := ["RESERVED"; "LEASED"].
Definition HISTORICAL_MARKERS : list string := ["HISTORICAL_HOLD"; "AMBIGUOUS"].
Definition excluded (extension : Z) : bool := (extension =? 1001) || (extension =? 6101).

(** A dict of texts, in its order, each key once. *)
Definition evidence := list (string * string).

Record AuditResult := mkAudit {
  au_extension : Z;
  classification : ExtensionState;
  evidence_hash : string;
  missing_sources : list string;
  collision_sources : list string;
}.

Section audit.
Context (upper : string -> string).

Definition normalized (e : evidence) : evidence := (fun kv => (kv.1, upper kv.2)) <$> e.
Definition missing (e : evidence) : list string :=
  sorted_strings (List.filter (fun s => negb (str_in s (e.*1))) AUTHORITATIVE_SOURCES).
Definition collisions (e : evidence) : list string :=
  sorted_strings ((List.filter (fun kv => negb (str_in kv.2 CLEAR_MARKERS)) e).*1).
(** [any(normalized[key] in markers for key in collisions)] *)
Definition marked (e : evidence) (markers : list string) : bool :=
  existsb (fun key => match dict_get e key with Some v => str_in v markers | None => false end)
    (collisions e).

Definition classify (extension : Z) (e : evidence) : ExtensionState :=
  if excluded extension then EXCLUDED
  else if negb (bool_decide (missing e = [])) then UNKNOWN_REQUIRES_REVIEW
  else if marked e ACTIVE_MARKERS then ACTIVE
  else if marked e COLLISION_MARKERS then COLLISION
  else if marked e HISTORICAL_MARKERS then HISTORICAL_HOLD
  else if negb (match dict_get e "cooldown" with Some v => str_in v CLEAR_MARKERS | None => false end)
  then COOLDOWN
  else if marked e RESERVED_MARKERS then RESERVED
  else if marked e ASSIGNED_MARKERS then ASSIGNED
  else AVAILABLE.

Definition audit_extension (extension : Z) (given : evidence) : AuditResult :=
  let e := normalized given in
  let document := JObj [("extension", JInt extension);
                        ("evidence", JObj ((fun kv => (kv.1, JStr kv.2)) <$> e))] in
  mkAudit extension (classify extension e) (sha256_hex (json_dumps json_canonical document))
    (missing e) (collisions e).
End audit.

(** ** The saga's life cycle *)

Definition SAGA_TRANSITIONS : table :=
  [("DRAFT", ["PENDING_APPROVAL"]);
   ("PENDING_APPROVAL", ["APPROVED"; "FAILED"]);
   ("APPROVED", ["INVENTORY_CHECK"; "FAILED"]);
   ("INVENTORY_CHECK", ["RESERVED"; "FAILED"]);
   ("RESERVED", ["PROVISIONING"; "ROLLED_BACK"]);
   ("PROVISIONING", ["DISABLED_READY"; "FAILED"; "ROLLED_BACK"]);
   ("DISABLED_READY", ["ACTIVATION_PENDING"; "SUSPENDING"; "DEPROVISIONING"]);
   ("ACTIVATION_PENDING", ["ACTIVE"; "FAILED"; "ROLLED_BACK"]);
   ("ACTIVE", ["SUSPENDING"; "DEPROVISIONING"]);
   ("FAILED", ["ROLLED_BACK"]);
   ("SUSPENDING", ["SUSPENDED"; "FAILED"]);
   ("SUSPENDED", ["ACTIVATION_PENDING"; "DEPROVISIONING"]);
   ("DEPROVISIONING", ["COOLDOWN"; "FAILED"]);
   ("COOLDOWN", []);
   ("ROLLED_BACK", [])].
Definition transition_allowed (current target : string) : bool :=
  str_in target (successors SAGA_TRANSITIONS current).

(** ** Tables *)

Record pool_row := mkPool {
  pl_id : uuid;
  pl_code : string;
  pl_business_unit : string;
  pl_role_class : string;
  pl_range_start : Z;
  pl_range_end : Z;
  pl_active : bool;
}.

Record reservation_row := mkReservation {
  rv_id : uuid;
  rv_extension : Z;
  rv_employee_id : string;
  rv_request_id : string;
  rv_pool_id : uuid;
  rv_state : string;
  rv_idempotency_hash : string;
  rv_evidence_hash : string;
  rv_expires_at : Z;
}.

Record saga_row := mkSaga {
  sg_id : uuid;
  sg_request_id : string;
  sg_employee_id : string;
  sg_business_unit : string;
  sg_campaign : string;
  sg_role : string;
  sg_extension : option Z;
  sg_state : string;
  sg_idempotency_hash : string;
  sg_correlation_id : string;
  sg_record_environment : string;
  sg_test_run_id : option string;
  sg_causation_id : option string;
  sg_policy_hash : option string;
  sg_approved_odoo_request : bool;
  sg_completed_steps : list string;
  sg_version : Z;
}.

Record db := mkDb {
  pool_table : gmap uuid pool_row;
  reservation_table : gmap uuid reservation_row;
  saga_table : gmap uuid saga_row;
}.
#[export] Instance db_eta : Eta db := fun d => mkDb (pool_table d) (reservation_table d) (saga_table d).

(** The states that hold an extension, and those that hold an employee. *)
Definition holding_states : list string := ["RESERVED"; "DISABLED_READY"; "ACTIVE"; "SUSPENDED"; "COOLDOWN"].
Definition holds_extension (r : reservation_row) : bool := str_in (rv_state r) holding_states.
Definition holds_employee (r : reservation_row) : bool :=
  str_in (rv_state r) ["RESERVED"; "DISABLED_READY"; "ACTIVE"; "SUSPENDED"].

Definition insert_reservation (r : reservation_row) (d : db) : option db :=
  if is_null (reservation_table d !! rv_id r)
     && absent (fun x => bool_decide (rv_idempotency_hash x = rv_idempotency_hash r)) (reservation_table d)
     && negb (excluded (rv_extension r))
     && str_in (rv_state r)
          ["RESERVED"; "DISABLED_READY"; "ACTIVE"; "SUSPENDED"; "RELEASED"; "EXPIRED"; "COOLDOWN"]
     && negb (is_null (pool_table d !! rv_pool_id r))
     && (negb (holds_extension r)
         || absent (fun x => holds_extension x && (rv_extension x =? rv_extension r)) (reservation_table d))
     && (negb (holds_employee r)
         || absent (fun x => holds_employee x && bool_decide (rv_employee_id x = rv_employee_id r))
              (reservation_table d))
  then Some (d <| reservation_table ::= <[rv_id r := r]> |>) else None.

Definition test_binding (s : saga_row) : bool :=
  bool_decide (sg_record_environment s = "PRODUCTION") && is_null (sg_test_run_id s)
  || str_in (sg_record_environment s) ["STAGING"; "TEST"]
     && negb (is_null (sg_test_run_id s)) && negb (is_null (sg_causation_id s))
     && negb (is_null (sg_policy_hash s)).

Definition insert_saga (s : saga_row) (d : db) : option db :=
  if is_null (saga_table d !! sg_id s)
     && absent (fun x => bool_decide (sg_request_id x = sg_request_id s)) (saga_table d)
     && absent (fun x => bool_decide (sg_idempotency_hash x = sg_idempotency_hash s)) (saga_table d)
     && absent (fun x => bool_decide (sg_correlation_id x = sg_correlation_id s)) (saga_table d)
     && (1 <=? sg_version s)
     && str_in (sg_record_environment s) ["PRODUCTION"; "STAGING"; "TEST"]
     && test_binding s
     && str_in (sg_state s) (SAGA_TRANSITIONS.*1)
  then Some (d <| saga_table ::= <[sg_id s := s]> |>) else None.

(** [scalar_one_or_none()]: several rows raise. *)
Definition scalar_one_or_none {A} (l : list A) : M db (option A) :=
  match l with
  | [] => mret None
  | [x] => mret (Some x)
  | _ => raise (RuntimeError "MultipleResultsFound")
  end.

(** ** Handlers *)

Record ReserveRequest := mkReserve {
  q_employee_id : string;
  q_request_id : string;
  q_business_unit : string;
  q_role_class : string;
  q_idempotency_key : string;
  q_evidence_by_extension : gmap Z evidence;
  q_ttl_seconds : Z;
}.

Record ProvisionRequest := mkProvision {
  p_request_id : string;
  p_employee_id : string;
  p_business_unit : string;
  p_campaign : string;
  p_role : string;
  p_idempotency_key : string;
  p_approved_odoo_request : bool;
  p_record_environment : string;
  p_test_run_id : option string;
  p_causation_id : option string;
  p_policy_hash : option string;
}.

Definition _hash (value : string) : string := sha256_hex value.

Definition validate_trace_binding (p : ProvisionRequest) : exn + unit :=
  if str_in (p_record_environment p) ["TEST"; "STAGING"] then
    check (bool_decide (p_business_unit p = "BU-400-COD") && bool_decide (p_campaign p = "CMP-400-COD"))
      (HTTPException 422 "test trace scope mismatch") ;;
    check (filled (p_test_run_id p) && filled (p_causation_id p) && filled (p_policy_hash p))
      (HTTPException 422 "complete test trace binding required")
  else
    check (negb (filled (p_test_run_id p) || filled (p_causation_id p) || filled (p_policy_hash p)))
      (HTTPException 422 "test trace binding is prohibited in production").

Definition pools : M db (list pool_row) :=
  query (fun d => sort_by (fun a b => pl_range_start a <=? pl_range_start b)
                    (select_where pl_active (pool_table d))).

Record availability_view := mkAvailability {
  av_extension : Z; av_classification : ExtensionState; av_evidence_complete : bool }.
Definition availability (extension : Z) (evidence_complete : bool) : availability_view :=
  mkAvailability extension (if excluded extension then EXCLUDED else UNKNOWN_REQUIRES_REVIEW)
    (evidence_complete && false).

Record reserve_view := mkReserveView {
  vw_reservation_id : uuid; vw_extension : Z; vw_state : string; vw_replayed : bool }.
Record provision_view := mkProvisionView {
  pv_request_id : string; pv_state : string; pv_correlation_id : string; pv_replayed : bool;
  pv_production_mutation : option bool }.
Record action_view := mkActionView {
  ac_request_id : string; ac_state : string; ac_action : string; ac_accepted : bool }.

Section handlers.
Context (upper : string -> string).

(** The extensions that live reservations hold in a range. *)
Definition taken (p : pool_row) (d : db) : list Z :=
  rv_extension <$> select_where
    (fun r => (pl_range_start p <=? rv_extension r) && (rv_extension r <=? pl_range_end p)
              && holds_extension r) (reservation_table d).

(** The loop: the first extension that is free and audited available. *)
Fixpoint first_available (b : ReserveRequest) (active candidates : list Z) : option (Z * string) :=
  match candidates with
  | [] => None
  | extension :: rest =>
      if bool_decide (extension ∈ active) || excluded extension then first_available b active rest
      else
        let result := audit_extension upper extension
                        (coalesce (q_evidence_by_extension b !! extension) []) in
        if bool_decide (classification result = AVAILABLE) then Some (extension, evidence_hash result)
        else first_available b active rest
  end.

Definition pool_range (p : pool_row) : list Z := seqZ (pl_range_start p) (pl_range_end p + 1 - pl_range_start p).

Definition matching_pool (b : ReserveRequest) (p : pool_row) : bool :=
  bool_decide (pl_business_unit p = q_business_unit b) && bool_decide (pl_role_class p = q_role_class b)
  && pl_active p.

(** [t] is [datetime.now(UTC)]. *)
Definition reserve (b : ReserveRequest) (t : Z) : M db reserve_view :=
  let key_hash := _hash (q_idempotency_key b) in
  found ← query (fun d => select_where (fun r => bool_decide (rv_idempotency_hash r = key_hash))
                            (reservation_table d));
  replay ← scalar_one_or_none found;
  match replay with
  | Some r => mret (mkReserveView (rv_id r) (rv_extension r) (rv_state r) true)
  | None =>
      matching ← query (fun d => select_where (matching_pool b) (pool_table d));
      found ← scalar_one_or_none matching;
      pool ← some_or found (HTTPException 422 "no matching active extension pool");
      active ← query (taken pool);
      selected ← some_or (first_available b active (pool_range pool))
        (HTTPException 409 "no fully-audited extension is available");
      id ← uuid4;
      let row := mkReservation id selected.1 (q_employee_id b) (q_request_id b) (pl_id pool) "RESERVED"
                   key_hash selected.2 (t + seconds (q_ttl_seconds b)) in
      try_except (insert_or "telephony_extension_reservation" (insert_reservation row) ;; commit)
        (fun e => match e with
                  | IntegrityError _ =>
                      rollback ;; raise (HTTPException 409 "concurrent reservation conflict; retry safely")
                  | _ => raise e
                  end) ;;
      mret (mkReserveView id selected.1 (rv_state row) false)
  end.

Definition lift {A} (r : exn + A) : M db A := match r with inl e => raise e | inr a => mret a end.

(** [correlation] is the one the middleware put on the request, if any. *)
Definition provision (b : ProvisionRequest) (correlation : option string) (live_writes_enabled : bool) :
    M db provision_view :=
  guard_or (p_approved_odoo_request b) (HTTPException 403 "approved Odoo request required") ;;
  lift (validate_trace_binding b) ;;
  let key_hash := _hash (p_idempotency_key b) in
  found ← query (fun d => select_where (fun s => bool_decide (sg_idempotency_hash s = key_hash))
                            (saga_table d));
  existing ← scalar_one_or_none found;
  match existing with
  | Some s => mret (mkProvisionView (sg_request_id s) (sg_state s) (sg_correlation_id s) true None)
  | None =>
      drawn ← uuid4;
      id ← uuid4;
      let row := mkSaga id (p_request_id b) (p_employee_id b) (p_business_unit b) (p_campaign b) (p_role b)
                   None "APPROVED" key_hash (coalesce correlation (uuid_str drawn))
                   (p_record_environment b) (p_test_run_id b) (p_causation_id b) (p_policy_hash b)
                   true [] 1 in
      insert_or "telephony_provisioning_saga" (insert_saga row) ;;
      commit ;;
      mret (mkProvisionView (sg_request_id row) (sg_state row) (sg_correlation_id row) false
              (Some live_writes_enabled))
  end.

Definition saga_of (request_id : string) : M db saga_row :=
  found ← query (fun d => select_where (fun s => bool_decide (sg_request_id s = request_id)) (saga_table d));
  row ← scalar_one_or_none found;
  some_or row (HTTPException 404 "provisioning request not found").

Definition status (request_id : string) : M db saga_row := saga_of request_id.

Definition _fail_closed_action (request_id action : string) (live_writes_enabled : bool) : M db action_view :=
  row ← saga_of request_id;
  guard_or (negb (str_in action ["activate"; "deprovision"]) || live_writes_enabled)
    (HTTPException 503 (action +:+ " kill switch is closed")) ;;
  mret (mkActionView request_id (sg_state row) action false).

Definition activate (request_id : string) := _fail_closed_action request_id "activate".
Definition suspend (request_id : string) := _fail_closed_action request_id "suspend".
Definition deprovision (request_id : string) := _fail_closed_action request_id "deprovision".
Definition rollback_request (request_id : string) := _fail_closed_action request_id "rollback".
End handlers.
End Extensions.
