(* ===== verification/ExtensionSafety.v ===== *)
(** * Extension allocation: what the audit admits and what a reservation gives

    What makes an extension available, the reservation of the least eligible
    extension of the pool with every way it is refused, and the permanence of
    reservations under all requests of the API. *)

From S2P Require Import Prelude PyText PyTime Sha256 Txn Machines TelephonyTables Extensions.
Import TelephonyTables (absent, absent_true) Extensions.
Local Open Scope string_scope.
Local Open Scope Z_scope.

Module ExtensionSafety.

(** ** The audit *)

(** The markers that keep an extension from being available. *)
Definition blocking_markers : list string :=
  app ACTIVE_MARKERS (app COLLISION_MARKERS (app HISTORICAL_MARKERS (app RESERVED_MARKERS ASSIGNED_MARKERS))).

Section audit.
Context (upper : string -> string).

Lemma absent_from_nil (l keys : list string) :
  sorted_strings (List.filter (fun s => negb (str_in s keys)) l) = [] <-> forall s, s ∈ l -> s ∈ keys.
Proof.
  assert (Hin : forall s, s ∈ sorted_strings (List.filter (fun s => negb (str_in s keys)) l)
                          <-> s ∈ l /\ s ∉ keys).
  { intros s. rewrite elem_of_sorted_strings, !list_elem_of_In, filter_In, negb_true_iff.
    unfold str_in. by rewrite bool_decide_eq_false, list_elem_of_In. }
  split.
  - intros Hnil s Hs. destruct (decide (s ∈ keys)) as [|Hni]; [done|]. exfalso.
    pose proof (proj2 (Hin s) (conj Hs Hni)) as Hx. rewrite Hnil in Hx. by apply not_elem_of_nil in Hx.
  - intros Hall. destruct (sorted_strings _) as [|s l'] eqn:E; [done|].
    destruct (proj1 (Hin s) ltac:(left)) as [Hs Hni]. by apply Hall in Hs.
Qed.

Lemma missing_nil e : missing e = [] <-> forall s, s ∈ AUTHORITATIVE_SOURCES -> s ∈ e.*1.
Proof. apply absent_from_nil. Qed.

Lemma elem_of_collisions e k :
  k ∈ collisions e <-> exists v, (k, v) ∈ e /\ v ∉ CLEAR_MARKERS.
Proof.
  unfold collisions. rewrite elem_of_sorted_strings, list_elem_of_fmap. split.
  - intros ([k' v] & -> & Hin). apply list_elem_of_In, filter_In in Hin as [Hin Hv].
    exists v. split; [by apply list_elem_of_In|]. cbn in Hv. by apply negb_true_iff, bool_decide_eq_false in Hv.
  - intros (v & Hin & Hv). exists (k, v). split; [done|]. apply list_elem_of_In, filter_In.
    split; [by apply list_elem_of_In|]. cbn. by apply negb_true_iff, bool_decide_eq_false.
Qed.

(** No source reports one of the markers. *)
Definition free_of (e : evidence) (markers : list string) : Prop := forall k v, (k, v) ∈ e -> v ∉ markers.

Lemma marked_false e markers :
  NoDup (e.*1) -> (forall v, v ∈ markers -> v ∉ CLEAR_MARKERS) ->
  marked e markers = false <-> free_of e markers.
Proof.
  intros Hnd Hdis. unfold marked. rewrite <- not_true_iff_false, existsb_exists. split.
  - intros Hno k v Hin Hv. apply Hno. exists k. split.
    + apply list_elem_of_In, elem_of_collisions. eauto.
    + rewrite (proj2 (dict_get_iff e k v Hnd) Hin). by apply bool_decide_eq_true.
  - intros Hfree (k & Hk & Hm). destruct (dict_get e k) as [v|] eqn:Hg; [|done].
    apply dict_get_iff in Hg; [|done]. apply bool_decide_eq_true in Hm. by eapply Hfree.
Qed.

Lemma free_of_app e l1 l2 : free_of e (app l1 l2) <-> free_of e l1 /\ free_of e l2.
Proof. unfold free_of. setoid_rewrite not_elem_of_app. firstorder. Qed.

Lemma if_other {A} (b : bool) (x y : A) k : x <> y -> (if b then x else k) = y <-> b = false /\ k = y.
Proof. destruct b; naive_solver. Qed.

Lemma classify_available n e :
  NoDup (e.*1) ->
  classify n e = AVAILABLE <->
  excluded n = false /\ (forall s, s ∈ AUTHORITATIVE_SOURCES -> s ∈ e.*1)
  /\ (exists v, ("cooldown", v) ∈ e /\ v ∈ CLEAR_MARKERS) /\ free_of e blocking_markers.
Proof.
  intros Hnd. unfold blocking_markers. rewrite !free_of_app, <- missing_nil.
  assert (Hm : forall l, bool_decide (Forall (fun v => v ∉ CLEAR_MARKERS) l) = true ->
                 marked e l = false <-> free_of e l).
  { intros l Hl. apply marked_false; [done|]. apply bool_decide_eq_true in Hl. by apply Forall_forall. }
  rewrite <- !Hm by reflexivity. unfold classify.
  assert (Hc : (match dict_get e "cooldown" with Some v => str_in v CLEAR_MARKERS | None => false end) = true
               <-> exists v, ("cooldown", v) ∈ e /\ v ∈ CLEAR_MARKERS).
  { setoid_rewrite <- (dict_get_iff e _ _ Hnd). unfold str_in. destruct (dict_get e "cooldown") as [v|].
    - rewrite bool_decide_eq_true. split; [eauto|]. intros (v' & [= <-] & ?). done.
    - split; [done|]. by intros (v' & ? & _). }
  rewrite <- Hc, !if_other, !negb_false_iff, bool_decide_eq_true by done. tauto.
Qed.

Lemma elem_of_normalized (e : evidence) k v : (k, v) ∈ normalized upper e <-> exists v0, (k, v0) ∈ e /\ v = upper v0.
Proof.
  unfold normalized. rewrite list_elem_of_fmap. split.
  - intros ([k' v0] & [= -> ->] & Hin). eauto.
  - intros (v0 & Hin & ->). by exists (k, v0).
Qed.

Lemma normalized_keys (e : evidence) : (normalized upper e).*1 = e.*1.
Proof. unfold normalized. rewrite <- list_fmap_compose. by apply list_fmap_ext. Qed.

(** What the audit calls available: an extension that is not excluded,
    about which every authoritative source has answered, whose cooldown source
    is clear, and on which no source reports one of the nine markers the audit
    knows.  The markers are compared in upper case.  A source that reports
    anything else does not stand in the way, which is more than the documented
    rule, every source clear, admits. *)
Theorem audit_available_iff n given :
  NoDup (given.*1) ->
  classification (audit_extension upper n given) = AVAILABLE <->
  excluded n = false /\ (forall s, s ∈ AUTHORITATIVE_SOURCES -> s ∈ given.*1)
  /\ (exists v, ("cooldown", v) ∈ given /\ upper v ∈ CLEAR_MARKERS)
  /\ (forall k v, (k, v) ∈ given -> upper v ∉ blocking_markers).
Proof.
  intros Hnd. cbn [audit_extension classification].
  rewrite classify_available by by rewrite normalized_keys. rewrite normalized_keys. unfold free_of.
  setoid_rewrite elem_of_normalized. split; intros (H1 & H2 & (v & H3 & H4) & H5); split_and!; try done.
  - destruct H3 as (v0 & H3 & ->). eauto.
  - intros k w Hw. eapply H5. eauto.
  - eauto.
  - intros k w (w0 & Hw & ->). by eapply H5.
Qed.
End audit.

Definition ascii_upper (s : string) : string := s.
Definition clear_evidence : evidence := (fun s => (s, "CLEAR")) <$> AUTHORITATIVE_SOURCES.
Definition registered_evidence : evidence :=
  (fun kv => if bool_decide (kv.1 = "registration") then (kv.1, "REGISTERED") else kv) <$> clear_evidence.

(** An extension whose registration source reports [REGISTERED] is available. *)
Lemma audit_available_iff_witness :
  ("registration", "REGISTERED") ∈ registered_evidence
  /\ classification (audit_extension ascii_upper 6200 registered_evidence) = AVAILABLE.
Proof.
  split; [by_compute|].
  apply audit_available_iff; [by_compute|]. split_and!; [done| | |].
  - intros s Hs. revert s Hs. apply Forall_forall. by_compute.
  - exists "CLEAR". split; by_compute.
  - intros k v Hin. change ((fun kv => ascii_upper kv.2 ∉ blocking_markers) (k, v)). revert Hin.
    generalize (k, v). apply Forall_forall. by_compute.
Defined.
(** ** Reservations *)

Section reserve.
Context (upper : string -> string).

(** An extension a request may get from a pool. *)
Definition eligible (b : ReserveRequest) (active : list Z) (n : Z) : Prop :=
  n ∉ active /\ excluded n = false
  /\ classification (audit_extension upper n (coalesce (q_evidence_by_extension b !! n) [])) = AVAILABLE.

Lemma first_available_least b active len start :
  match first_available upper b active (seqZ start (Z.of_nat len)) with
  | Some (n, h) =>
      start <= n < start + Z.of_nat len /\ eligible b active n
      /\ h = evidence_hash (audit_extension upper n (coalesce (q_evidence_by_extension b !! n) []))
      /\ forall m, start <= m -> eligible b active m -> n <= m
  | None => forall m, start <= m < start + Z.of_nat len -> ~ eligible b active m
  end.
Proof.
  revert start. induction len as [|len IH]; intros start; [rewrite seqZ_nil by lia; cbn; intros; lia|].
  rewrite seqZ_cons by lia. replace (Z.pred (Z.of_nat (S len))) with (Z.of_nat len) by lia.
  cbn [first_available]. specialize (IH (Z.succ start)).
  assert (Hskip : ~ eligible b active start ->
    match first_available upper b active (seqZ (Z.succ start) (Z.of_nat len)) with
    | Some (n, h) =>
        start <= n < start + Z.of_nat (S len) /\ eligible b active n
        /\ h = evidence_hash (audit_extension upper n (coalesce (q_evidence_by_extension b !! n) []))
        /\ forall m, start <= m -> eligible b active m -> n <= m
    | None => forall m, start <= m < start + Z.of_nat (S len) -> ~ eligible b active m
    end).
  { intros Hno. destruct (first_available _ _ _ _) as [[n h]|].
    - destruct IH as (Hr & He & Hh & Hleast). split_and!; [lia|lia|done|done|]. intros m Hm Hem.
      apply Hleast; [|done]. destruct (decide (m = start)) as [->|]; [done|lia].
    - intros m Hm. destruct (decide (m = start)) as [->|]; [done|]. apply IH. lia. }
  destruct (bool_decide (start ∈ active)) eqn:Ea; cbn [orb].
  { apply Hskip. apply bool_decide_eq_true in Ea. by intros [? _]. }
  apply bool_decide_eq_false in Ea. destruct (excluded start) eqn:Ex.
  { apply Hskip. intros (_ & ? & _). congruence. }
  cbv zeta. case_bool_decide as Ec.
  - split_and!; [lia|lia|done|done|]. by intros m Hm _.
  - apply Hskip. by intros (_ & _ & ?).
Qed.

(** Every pool is stored under its identifier. *)
Definition pools_keyed (d : db) : Prop := forall id p, pool_table d !! id = Some p -> pl_id p = id.

Lemma scalar_one_or_none_ok {A} (l : list A) (s : session db) :
  scalar_one_or_none l s = (s, match l with
                               | [] => inr None
                               | [x] => inr (Some x)
                               | _ => inl (RuntimeError "MultipleResultsFound")
                               end).
Proof. by destruct l as [|x [|y l]]. Qed.

(** The employee holds a reservation already. *)
Definition employee_holds (employee : string) (d : db) : Prop :=
  exists id r, reservation_table d !! id = Some r /\ holds_employee r = true /\ rv_employee_id r = employee.

(** What a grant leaves behind. *)
Definition granted (b : ReserveRequest) (t : Z) (p : pool_row) (d : db) (v : reserve_view) : reservation_row :=
  mkReservation (vw_reservation_id v) (vw_extension v) (q_employee_id b) (q_request_id b) (pl_id p)
    "RESERVED" (_hash (q_idempotency_key b))
    (evidence_hash (audit_extension upper (vw_extension v)
       (coalesce (q_evidence_by_extension b !! vw_extension v) [])))
    (t + seconds (q_ttl_seconds b)).

Definition in_pool (p : pool_row) (n : Z) : Prop := pl_range_start p <= n <= pl_range_end p.

Lemma pool_first b p active :
  match first_available upper b active (pool_range p) with
  | Some (n, h) =>
      in_pool p n /\ eligible b active n
      /\ h = evidence_hash (audit_extension upper n (coalesce (q_evidence_by_extension b !! n) []))
      /\ forall m, in_pool p m -> eligible b active m -> n <= m
  | None => forall m, in_pool p m -> ~ eligible b active m
  end.
Proof.
  unfold pool_range, in_pool.
  pose proof (first_available_least b active (Z.to_nat (pl_range_end p + 1 - pl_range_start p))
    (pl_range_start p)) as H.
  assert (E : seqZ (pl_range_start p) (Z.of_nat (Z.to_nat (pl_range_end p + 1 - pl_range_start p)))
              = seqZ (pl_range_start p) (pl_range_end p + 1 - pl_range_start p))
    by (unfold seqZ; by rewrite Nat2Z.id).
  rewrite E in H. destruct (first_available _ _ _ _) as [[n h]|].
  - destruct H as (Hr & He & Hh & Hl). split_and!; [lia|lia|done|done|]. intros m [Hm _]. by apply Hl.
  - intros m Hm. apply H. lia.
Qed.

(** The extension that was selected is free: only the employee or the row's
    identifier can be refused. *)
Lemma insert_reservation_granted b t p d id n h active :
  pools_keyed d -> (exists k, pool_table d !! k = Some p) ->
  absent (fun r => bool_decide (rv_idempotency_hash r = _hash (q_idempotency_key b))) (reservation_table d) = true ->
  active = taken p d -> in_pool p n -> eligible b active n ->
  insert_reservation (mkReservation id n (q_employee_id b) (q_request_id b) (pl_id p) "RESERVED"
    (_hash (q_idempotency_key b)) h (t + seconds (q_ttl_seconds b))) d = None ->
  employee_holds (q_employee_id b) d \/ is_Some (reservation_table d !! id).
Proof.
  intros Hk [k Hp] Hkey -> [Hlo Hhi] (Hfree & Hex & _). unfold insert_reservation. cbn. rewrite Hkey, Hex. cbn.
  rewrite (Hk _ _ Hp), Hp. cbn. change (str_in "RESERVED" _) with true. cbn.
  assert (Ha : absent (fun x => holds_extension x && (rv_extension x =? n)) (reservation_table d) = true).
  { apply absent_true. intros i x Hx. destruct (holds_extension x) eqn:Hh; [|done]. cbn.
    apply Z.eqb_neq. intros <-. apply Hfree. unfold taken. apply list_elem_of_fmap. exists x. split; [done|].
    apply elem_of_select_where. split; [|eauto]. rewrite Hh.
    rewrite (proj2 (Z.leb_le _ _) Hlo), (proj2 (Z.leb_le _ _) Hhi). done. }
  rewrite Ha, orb_true_r. destruct (reservation_table d !! id) eqn:Hid; [eauto|]. cbn.
  destruct (negb _ || absent _ _) eqn:He; [done|]. apply orb_false_iff in He as [_ He]. intros _. left. unfold absent in He.
  destruct (select_where _ _) as [|x l] eqn:Es; [done|].
  assert (Hin : x ∈ x :: l) by left. rewrite <- Es in Hin. apply elem_of_select_where in Hin as [Hb [i Hi]].
  apply andb_true_iff in Hb as [Hb1 Hb2%bool_decide_eq_true]. by exists i, x.
Qed.

(** C21. What a new reservation request gets.  With its key unused and one pool
    for its unit and role, it is granted the least extension of the pool that
    no live reservation holds, that is not excluded and that the audit of the
    submitted evidence calls available; exactly one row is stored, for that
    extension, employee and pool, and the employee held none.  It is refused,
    with nothing stored, only when the pool has no such extension, or when the
    employee already holds a reservation (or the drawn identifier is taken). *)
Theorem reserve_grants_least clk ids b t d p :
  pools_keyed d ->
  select_where (fun r => bool_decide (rv_idempotency_hash r = _hash (q_idempotency_key b)))
    (reservation_table d) = [] ->
  select_where (matching_pool b) (pool_table d) = [p] ->
  let ok n := in_pool p n /\ eligible b (taken p d) n in
  let r := with_session clk ids (reserve upper b t) d in
  match r.2 with
  | inr v =>
      vw_replayed v = false /\ ok (vw_extension v) /\ (forall m, ok m -> vw_extension v <= m)
      /\ ~ employee_holds (q_employee_id b) d
      /\ r.1 = d <| reservation_table ::= <[vw_reservation_id v := granted b t p d v]> |>
  | inl e =>
      r.1 = d
      /\ (e = HTTPException 409 "no fully-audited extension is available" /\ (forall m, ~ ok m)
          \/ e = HTTPException 409 "concurrent reservation conflict; retry safely"
             /\ (employee_holds (q_employee_id b) d \/ is_Some (reservation_table d !! ids O)))
  end.
Proof.
  intros Hk Hkey Hpool. cbv zeta.
  assert (Hin : exists k, pool_table d !! k = Some p).
  { assert (Hp : p ∈ [p]) by left. rewrite <- Hpool in Hp. by apply elem_of_select_where in Hp as [_ ?]. }
  pose proof (pool_first b p (taken p d)) as Hfirst.
  unfold with_session, reserve, mbind, M_bind, query. cbn [working]. rewrite Hkey. cbn. rewrite Hpool. cbn.
  destruct (first_available upper b (taken p d) (pool_range p)) as [[n h]|]; cbn.
  - destruct Hfirst as (Hn & He & -> & Hl). unfold try_except, insert_or. cbn [working committed clock supply].
    destruct (insert_reservation _ d) as [d'|] eqn:Ei; cbn.
    + split_and!; try done. { by intros m [??]; apply Hl. }
      * intros (i & r & Hi & Hh & Hem). revert Ei. unfold insert_reservation. case_match eqn:E; [|done].
        intros _. rewrite !andb_true_iff in E. destruct E as [_ E]. apply orb_true_iff in E as [E|E]; [by vm_compute in E|]. cbn in E.
        rewrite absent_true in E. specialize (E i r Hi). by rewrite Hh, bool_decide_true in E.
      * revert Ei. unfold insert_reservation. case_match; [|done]. by intros [= <-].
    + split; [done|]. right. split; [done|].
      eapply insert_reservation_granted; [done|done| |done|done|done|exact Ei]. unfold absent. by rewrite Hkey.
  - split; [done|]. left. split; [done|]. intros m [??]. by eapply Hfirst.
Qed.

(** ** The API as a whole *)

Inductive request :=
  | RqReserve (b : ReserveRequest) (t : Z)
  | RqProvision (b : ProvisionRequest) (correlation : option string) (live_writes_enabled : bool)
  | RqStatus (request_id : string)
  | RqActivate (request_id : string) (live_writes_enabled : bool)
  | RqSuspend (request_id : string) (live_writes_enabled : bool)
  | RqDeprovision (request_id : string) (live_writes_enabled : bool)
  | RqRollback (request_id : string) (live_writes_enabled : bool)
  | RqPools.

Definition serve (r : request) : M db unit :=
  match r with
  | RqReserve b t => reserve upper b t ;; mret tt
  | RqProvision b c live => provision b c live ;; mret tt
  | RqStatus id => status id ;; mret tt
  | RqActivate id live => activate id live ;; mret tt
  | RqSuspend id live => suspend id live ;; mret tt
  | RqDeprovision id live => deprovision id live ;; mret tt
  | RqRollback id live => rollback_request id live ;; mret tt
  | RqPools => pools ;; mret tt
  end.

Inductive step : db -> db -> Prop :=
| step_serve clk ids r d : step d (with_session clk ids (serve r) d).1.

(** Reservations and sagas are only ever added. *)
Definition extends (d0 d : db) : Prop :=
  reservation_table d0 ⊆ reservation_table d /\ saga_table d0 ⊆ saga_table d.

Lemma insert_reservation_extends d0 row d d' :
  extends d0 d -> insert_reservation row d = Some d' -> extends d0 d'.
Proof.
  intros [Hr Hs]. unfold insert_reservation. case_match eqn:E; [|done]. intros [= <-]. split; [|done]. cbn.
  rewrite !andb_true_iff, is_null_true in E. destruct E as [[[[[[E _] _] _] _] _] _].
  etrans; [exact Hr|]. by apply insert_subseteq.
Qed.

Lemma insert_saga_extends d0 row d d' :
  extends d0 d -> insert_saga row d = Some d' -> extends d0 d'.
Proof.
  intros [Hr Hs]. unfold insert_saga. case_match eqn:E; [|done]. intros [= <-]. split; [done|]. cbn.
  rewrite !andb_true_iff, is_null_true in E. destruct E as [[[[[[[E _] _] _] _] _] _] _].
  etrans; [exact Hs|]. by apply insert_subseteq.
Qed.

Lemma keeps_scalar (I : db -> Prop) {A} (l : list A) : keeps I (scalar_one_or_none l).
Proof. destruct l as [|x [|y l]]; eauto with mw. Qed.
Hint Resolve keeps_scalar : mw.

Lemma serve_extends d0 r : keeps (extends d0) (serve r).
Proof.
  destruct r; unfold serve, reserve, provision, status, activate, suspend, deprovision, rollback_request,
    _fail_closed_action, saga_of, pools, lift; keeps_walk.
  - eauto using insert_reservation_extends.
  - eauto using insert_saga_extends.
Qed.

Lemma steps_extend d d' : rtc step d d' -> extends d d'.
Proof.
  intros Hr. enough (H : forall d0, extends d0 d -> extends d0 d') by by apply H.
  induction Hr as [|d _ d' [clk ids r d1] _ IH]; intros d0 H0; [done|].
  apply IH. by apply keeps_with_session; [apply serve_extends|].
Qed.

(** A request that gets a new reservation. *)
Lemma reserve_new clk ids b t d d' v :
  with_session clk ids (reserve upper b t) d = (d', inr v) -> vw_replayed v = false ->
  exists p, in_pool p (vw_extension v) /\ eligible b (taken p d) (vw_extension v).
Proof.
  unfold with_session, reserve, mbind, M_bind, query. cbn [working]. rewrite scalar_one_or_none_ok.
  destruct (select_where _ _) as [|x [|y l]]; cbn; [|by intros [= <- <-]|done].
  rewrite scalar_one_or_none_ok. destruct (select_where _ _) as [|p [|y l]]; cbn; [done| |done].
  pose proof (pool_first b p (taken p d)) as Hfirst.
  destruct (first_available upper b (taken p d) (pool_range p)) as [[n h]|]; cbn; [|done].
  destruct Hfirst as (Hn & He & _ & _). unfold try_except, insert_or. cbn.
  destruct (insert_reservation _ d) as [d1|]; cbn; [|done]. intros [= <- <-] _. by exists p.
Qed.

(** Reservations do not expire.  Whatever the API serves after a
    reservation, and however long ago its time to live ended, no other request
    is granted its extension: the expiry that is stored is never looked at. *)
Theorem expired_reservation_holds d d' id r clk ids b t d'' v :
  rtc step d d' -> reservation_table d !! id = Some r -> holds_extension r = true ->
  rv_expires_at r < t -> with_session clk ids (reserve upper b t) d' = (d'', inr v) ->
  vw_replayed v = false -> vw_extension v <> rv_extension r.
Proof.
  intros Hsteps Hr Hh _ Hres Hnew. apply steps_extend in Hsteps as [Hsub _].
  destruct (reserve_new _ _ _ _ _ _ _ Hres Hnew) as (p & [Hlo Hhi] & Hfree & _). intros Heq.
  apply Hfree. rewrite Heq in *. apply list_elem_of_fmap. exists r. split; [done|].
  apply elem_of_select_where. split.
  - rewrite Hh. by rewrite (proj2 (Z.leb_le _ _) Hlo), (proj2 (Z.leb_le _ _) Hhi).
  - exists id. by eapply lookup_weaken.
Qed.

End reserve.

(** ** Concrete requests *)

Definition demo_pool : pool_row := mkPool 1%N "P-1" "BU-400-COD" "agent" 6200 6202 true.
Definition demo_db : db := mkDb {[1%N := demo_pool]} ∅ ∅.
Definition demo_ids (n : nat) : uuid := N.of_nat (10 + n).
(** Evidence for the second and third extension of the pool only. *)
Definition demo_request (employee key : string) : ReserveRequest :=
  mkReserve employee "REQ-1" "BU-400-COD" "agent" key
    {[6201 := clear_evidence; 6202 := clear_evidence]} 900.

Definition demo_first := with_session (fun _ => 0) demo_ids (reserve ascii_upper (demo_request "E-1" "key-one-0123456789") 0) demo_db.

Lemma reserve_grants_least_witness :
  demo_first.2 = inr (mkReserveView 10%N 6201 "RESERVED" false)
  /\ forall m, in_pool demo_pool m /\ eligible ascii_upper (demo_request "E-1" "key-one-0123456789") (taken demo_pool demo_db) m ->
       6201 <= m.
Proof.
  assert (E : demo_first.2 = inr (mkReserveView 10%N 6201 "RESERVED" false)) by by vm_compute.
  split; [exact E|].
  pose proof (reserve_grants_least ascii_upper (fun _ => 0) demo_ids (demo_request "E-1" "key-one-0123456789") 0
    demo_db demo_pool) as H. cbv zeta in H. unfold demo_first in E. rewrite E in H.
  apply H; [|by vm_compute|by vm_compute]. intros id p Hp. cbn [pool_table demo_db] in Hp. by apply lookup_singleton_Some in Hp as [<- <-].
Defined.

(** A day later the extension of the first reservation is still held: a second
    employee gets the next one. *)
Lemma expired_reservation_holds_witness :
  exists r v, reservation_table demo_first.1 !! 10%N = Some r /\ rv_expires_at r < hours 24
    /\ (with_session (fun _ => 0) (fun n => demo_ids (S n))
          (reserve ascii_upper (demo_request "E-2" "key-two-0123456789") (hours 24)) demo_first.1).2 = inr v
    /\ vw_extension v <> rv_extension r.
Proof.
  eexists _, _. split; [by vm_compute|]. split; [by vm_compute|]. split; [by vm_compute|].
  eapply (expired_reservation_holds ascii_upper demo_first.1 demo_first.1 10%N _ (fun _ => 0)
    (fun n => demo_ids (S n)) (demo_request "E-2" "key-two-0123456789") (hours 24)).
  - apply rtc_refl.
  - by vm_compute.
  - by vm_compute.
  - by vm_compute.
  - by vm_compute.
  - by vm_compute.
Defined.
End ExtensionSafety.
