(* ===== verification/Originate.v ===== *)
(** * Click-to-call origination

    [originate_call] of [src/app/api/v1/telephony.py] with its rate limiter and
    the identity lookup, on the call policy ([CallPolicy]) and the edge client
    ([EdgeClient]).  The handler is cut at its awaits, where other requests can
    come between: [replay] is the lookup of the key, [enter] the limiter, which
    runs before the identity service is awaited, [dial] goes from its answer
    through the policy to the call of the adapter, and [finish] is the commit;
    [begin_] and [originate_call] run them with nothing in between.  What the process has besides its tables, the limiter's buckets
    and the requests that left it, is never rolled back.

    Quoting and splitting of URLs, [str] of a container, the file system, the
    identity service and the clocks are parameters.  [request_hash], which is
    stored and never read, is left out, and so is the log. *)

From Stdlib Require Import Ascii.
From S2P Require Import Prelude PyText PyTime Sha256 Txn PyUnicode EdgeClient CallPolicy.
Import CallPolicy.
Local Open Scope string_scope.
Local Open Scope Z_scope.

Module Originate.

Record OriginateCallRequest := mkOriginate {
  idempotency_key : string;
  employee_id : string;
  o_campaign : string;
  o_business_unit : string;
  o_destination : string;
  o_destination_class : string;
  o_destination_country : string;
  o_destination_timezone : string;
  o_caller_id : string;
  lead_model : string;
  lead_id : Z;
  o_recording_requested : bool;
  o_consent : option Consent;
}.

(** ** The rate limiter *)

Definition _ORIGINATE_RATE_LIMIT_PER_MINUTE : nat := 10.

(** The deque of one key, oldest first, in microseconds of the monotonic clock. *)
Fixpoint drop_old (now : Z) (bucket : list Z) : list Z :=
  match bucket with
  | t :: rest => if t <? now - seconds 60 then drop_old now rest else bucket
  | [] => []
  end.

Definition rate_limited : exn := HTTPException 429 "call origination rate limit exceeded".

Definition _rate_limit_originate (bucket : list Z) (now : Z) : list Z * (exn + unit) :=
  let b := drop_old now bucket in
  if (_ORIGINATE_RATE_LIMIT_PER_MINUTE <=? length b)%nat then (b, inl rate_limited)
  else (app b [now], inr tt).

(** ** The identity lookup *)

Inductive file_read := FileText (s : string) | FileOSError | FileRaises (e : exn).
(** An HTTP error of the client, another exception, or a response with its
    decoded body, [None] when it is no JSON. *)
Inductive identity_answer :=
  | IdentityHttpError
  | IdentityRaises (e : exn)
  | IdentityResponse (status_code : Z) (body : option json).

(** Library functions, and the platform's files, names and certificates. *)
Class Platform := {
  upper : string -> string;
  quote : string -> string;
  urlencode : string -> string -> string;
  urlsplit : string -> exn + EdgeClient.url_parts;
  py_strip : string -> string;
  container_str : json -> string;
  unicode_digit : string -> bool;
  zones : string -> zone;
  resolver : string -> exn + list string;
  is_private : string -> exn + bool;
  is_file : string -> bool;
  load_credentials : EdgeClient.Settings -> bool;
  load_crl : EdgeClient.Settings -> bool;
  json_loads : string -> option json;
}.

(** What one request meets: the settings, the files and services it reads, the
    clocks, the identifiers it draws and what the edge does. *)
Record Env := mkEnv {
  edge_settings : EdgeClient.Settings;
  allow_non_test_campaigns : bool;
  odoo_identity_lookup_url : string;
  odoo_identity_lookup_hmac_file : string;
  secret_file : file_read;
  identity_service : string -> string -> string -> identity_answer;
  policy_file : exn + Policy;
  monotonic : Z;
  unix_time : Z;
  now_utc : Z;
  later_utc : Z;
  drawn_correlation : uuid;
  drawn_call : uuid;
  edge : EdgeClient.sent -> EdgeClient.transport;
}.

(** [s.rstrip("/")] *)
Fixpoint rstrip_slash (s : string) : string :=
  match s with
  | String c s' =>
      let t := rstrip_slash s' in
      if Ascii.eqb c "/" && bool_decide (t = "") then "" else String c t
  | EmptyString => ""
  end.

Definition identity_unavailable : exn := HTTPException 503 "identity service unavailable".

Section handler.
Context `{Platform}.

(** The signed text: the time and the path with its query. *)
Definition canonical (t : Z) (p : EdgeClient.url_parts) : string :=
  str_of_Z t +:+ "." +:+ EdgeClient.path p
  +:+ (if bool_decide (EdgeClient.url_query p = "") then "" else "?" +:+ EdgeClient.url_query p).

Definition _lookup_agent_assignment (env : Env) (employee campaign : string) :
    exn + list (string * json) :=
  if bool_decide (odoo_identity_lookup_url env = "") || bool_decide (odoo_identity_lookup_hmac_file env = "")
  then inl identity_unavailable
  else
    match secret_file env with
    | FileOSError => inl identity_unavailable
    | FileRaises e => inl e
    | FileText text =>
        let secret := py_strip text in
        let url := rstrip_slash (odoo_identity_lookup_url env) +:+ "/" +:+ quote employee +:+ "?"
                   +:+ urlencode "campaign_id" campaign in
        parts ← urlsplit url;
        let timestamp := str_of_Z (unix_time env) in
        let signature := hmac_hex (bytes_of secret) (canonical (unix_time env) parts) in
        match identity_service env url timestamp ("sha256=" +:+ signature) with
        | IdentityHttpError => inl identity_unavailable
        | IdentityRaises e => inl e
        | IdentityResponse status body =>
            if 400 <=? status
            then inl (HTTPException (if (status =? 401) || (status =? 403) then status else 503)
                        "employee identity not authorized")
            else
              match body with
              | None => inl identity_unavailable
              | Some (JObj members) => inr members
              | Some _ => inl (HTTPException 503 "invalid identity response")
              end
        end
    end.

(** [str(value)] of a decoded value. *)
Definition py_str (v : json) : string :=
  match v with
  | JNull => "None"
  | JBool b => if b then "True" else "False"
  | JInt z => str_of_Z z
  | JFloat r => r
  | JStr s => s
  | _ => container_str v
  end.

Definition isdigit (s : string) : bool :=
  negb (bool_decide (s = "")) && forallb (is_digit_char unicode_digit) (characters s).

(** The agent the identity service vouches for. *)
Record agent := mkAgent { endpoint : string; vicidial_username : string; business_unit_id : string }.

Definition authorized_agent (b : OriginateCallRequest) (identity : list (string * json)) : option agent :=
  match dict_get identity "campaign_ids", dict_get identity "endpoint",
        dict_get identity "vicidial_username", dict_get identity "business_unit_id" with
  | Some (JList campaigns), Some (JStr e), Some (JStr u), Some unit_id =>
      if existsb (fun c => match c with JStr s => bool_decide (s = o_campaign b) | _ => false end) campaigns
         && isdigit e && negb (bool_decide (u = "")) && json_truthy unit_id
         && bool_decide (py_str unit_id = o_business_unit b)
      then Some (mkAgent e u (py_str unit_id)) else None
  | _, _, _, _ => None
  end.

Definition policy_request (b : OriginateCallRequest) (a : agent) (correlation : string) (now : Z) : CallRequest :=
  mkCallRequest correlation (vicidial_username a) (business_unit_id a) (o_business_unit b) (o_campaign b)
    (endpoint a) (o_caller_id b) (o_destination b) (o_destination_class b) (o_destination_country b)
    (o_destination_timezone b) (o_recording_requested b) (o_consent b) (utc now).

(** ** Tables *)

Record lifecycle_row := mkLifecycle {
  lc_id : uuid;
  lc_correlation_id : string;
  lc_primary_unique_id : string;
  lc_lifecycle_state : string;
  lc_started_at : option Z;
  lc_ended_at : option Z;
  lc_hangup_cause : option string;
  lc_source_extension : string;
  lc_destination : string;
  lc_dialplan_context : string;
}.
Record audit_row := mkAudit {
  ad_action : string;
  ad_subject : string;
  ad_correlation_id : string;
  ad_decision : string;
  ad_redacted_payload : json;
}.
Record outbox_row := mkOutbox { ob_topic : string; ob_payload : json; ob_correlation_id : string }.
Record call_response := mkResponse {
  rp_call_id : string;
  rp_correlation_id : string;
  rp_lifecycle_state : string;
  rp_dialing : string;
  rp_reason : string;
  rp_policy_decision : string;
}.

(** The idempotency records are those of the scope
    [telephony/calls/originate], by the hash of their key. *)
Record db := mkDb {
  lifecycles : gmap uuid lifecycle_row;
  audits : list audit_row;
  outbox : list outbox_row;
  records : gmap string call_response;
}.

(** ** Up to the adapter *)

(** What a request has added to its session when it commits. *)
Record pending := mkPending {
  pd_key_hash : string;
  pd_lifecycle : lifecycle_row;
  pd_audit : audit_row;
  pd_outbox : outbox_row;
  pd_response : call_response;
}.

Definition dial_payload (b : OriginateCallRequest) (a : agent) (call_id correlation : string) : json :=
  JObj [("call_id", JStr call_id); ("correlation_id", JStr correlation); ("extension", JStr (endpoint a));
        ("vicidial_username", JStr (vicidial_username a)); ("campaign", JStr (o_campaign b));
        ("destination", JStr (o_destination b)); ("caller_id", JStr (o_caller_id b))].

(** The adapter: what left the process, and [dialing_status] with
    [dial_reason]; an exception other than the adapter's own goes through, and
    so does its own when the client cannot be built. *)
Definition call_adapter (env : Env) (b : OriginateCallRequest) (a : agent) (correlation : string) :
    option EdgeClient.sent * (exn + (string * string)) :=
  match EdgeClient.new_client is_file load_credentials load_crl (edge_settings env) with
  | inl (EdgeClient.VicidialMtlsError m) => (None, inl (RuntimeError m))
  | inl (EdgeClient.Propagated e) => (None, inl e)
  | inr _ =>
      let call_id := uuid_str (drawn_call env) in
      let r := EdgeClient.originate upper urlsplit resolver is_private json_loads (edge env)
                 (edge_settings env) (dial_payload b a call_id correlation) (Some correlation) (Some call_id)
                 ("", "") in
      (r.1, match r.2 with
            | inr _ => inr ("attempting", "accepted")
            | inl (EdgeClient.VicidialMtlsError m) => inr ("blocked", m)
            | inl (EdgeClient.Propagated e) => inl e
            end)
  end.

Definition record_call (env : Env) (b : OriginateCallRequest) (a : agent) (correlation : string)
    (decision : Decision) (dialing reason : string) : pending :=
  let call_id := uuid_str (drawn_call env) in
  let failed := bool_decide (decision = ALLOW) && bool_decide (dialing = "blocked") in
  let state := if failed then "ENDED" else "STARTED" in
  mkPending (sha256_hex (idempotency_key b))
    (mkLifecycle (drawn_call env) correlation ("click-to-call:" +:+ call_id) state (Some (now_utc env))
       (if failed then Some (later_utc env) else None) (if failed then Some "adapter_error" else None)
       (endpoint a) (o_destination b) "click-to-call")
    (mkAudit "telephony.calls.originate" call_id correlation (decision_value decision)
       (JObj [("employee_id", JStr (employee_id b)); ("campaign", JStr (o_campaign b));
              ("business_unit", JStr (o_business_unit b)); ("lead_model", JStr (lead_model b));
              ("lead_id", JInt (lead_id b));
              ("destination_reference", JStr (String.substring 0 16 (sha256_hex (o_destination b))))]))
    (mkOutbox "call.state.started"
       (JObj [("call_id", JStr call_id); ("correlation_id", JStr correlation);
              ("lead_model", JStr (lead_model b)); ("lead_id", JInt (lead_id b));
              ("business_unit", JStr (o_business_unit b)); ("campaign", JStr (o_campaign b));
              ("state", JStr state); ("dialing", JStr dialing)]) correlation)
    (mkResponse call_id correlation state dialing reason (decision_value decision)).

(** The gates between the limiter and the policy. *)
Definition gates (env : Env) (b : OriginateCallRequest) : exn + agent :=
  check (bool_decide (o_campaign b = "TEST_SYN") || allow_non_test_campaigns env)
    (HTTPException 403 "production campaigns are disabled") ;;
  identity ← _lookup_agent_assignment env (employee_id b) (o_campaign b);
  match authorized_agent b identity with
  | None => inl (HTTPException 403 "agent is not authorized for this campaign")
  | Some a =>
      check (E164 (o_destination b)) (HTTPException 422 "destination must be a valid E.164 number") ;;
      mret a
  end.

Definition decide_call (env : Env) (b : OriginateCallRequest) (a : agent) (correlation : string) : exn + Decision :=
  policy ← policy_file env;
  (authorize unicode_digit zones policy (policy_request b a correlation (now_utc env)) None).2.

(** After the limiter: what left the process, and what is to be committed. *)
Definition attempt (env : Env) (b : OriginateCallRequest) (correlation : string) :
    option EdgeClient.sent * (exn + pending) :=
  match gates env b with
  | inl e => (None, inl e)
  | inr a =>
      match decide_call env b a correlation with
      | inl e => (None, inl e)
      | inr decision =>
          if bool_decide (decision = ALLOW) then
            match call_adapter env b a correlation with
            | (s, inl e) => (s, inl e)
            | (s, inr (dialing, reason)) => (s, inr (record_call env b a correlation decision dialing reason))
            end
          else
            (None, inr (record_call env b a correlation decision "blocked"
                          ("policy_decision:" +:+ decision_value decision)))
      end
  end.

Record world := mkWorld {
  w_db : db;
  w_buckets : gmap string (list Z);
  (** the requests to the edge, each with the key hash it was made for *)
  w_dials : list (string * EdgeClient.sent);
}.
#[export] Instance world_eta : Eta world := fun w => mkWorld (w_db w) (w_buckets w) (w_dials w).
#[export] Instance db_eta : Eta db := fun d => mkDb (lifecycles d) (audits d) (outbox d) (records d).

(** ** The parts of the handler between its awaits *)

Definition key_hash_of (b : OriginateCallRequest) : string := sha256_hex (idempotency_key b).

(** The stored response of the key, if there is one. *)
Definition replay (b : OriginateCallRequest) (w : world) : option call_response :=
  records (w_db w) !! key_hash_of b.

Definition enter (env : Env) (b : OriginateCallRequest) (w : world) : world * (exn + unit) :=
  let l := _rate_limit_originate (coalesce (w_buckets w !! employee_id b) []) (monotonic env) in
  (w <| w_buckets ::= <[employee_id b := l.1]> |>, l.2).

Definition dial (env : Env) (b : OriginateCallRequest) (header : option string) (w : world) :
    world * (exn + pending) :=
  let x := attempt env b (py_or header (uuid_str (drawn_correlation env))) in
  (match x.1 with
   | Some s => w <| w_dials ::= (fun l => app l [(key_hash_of b, s)]) |>
   | None => w
   end, x.2).

(** An answer, or what is to be committed. *)
Inductive begun := Answered (r : exn + call_response) | ToCommit (p : pending).

Definition begin_ (env : Env) (b : OriginateCallRequest) (header : option string) (w : world) : world * begun :=
  match replay b w with
  | Some r => (w, Answered (inr r))
  | None =>
      match enter env b w with
      | (w, inl e) => (w, Answered (inl e))
      | (w, inr _) =>
          match dial env b header w with
          | (w, inl e) => (w, Answered (inl e))
          | (w, inr p) => (w, ToCommit p)
          end
      end
  end.

(** ** The commit *)

Definition conflict : exn := HTTPException 409 "concurrent origination conflict; retry safely".

(** The widest text a client controls; the database refuses a longer one. *)
Definition fits (p : pending) : bool :=
  (py_len (lc_correlation_id (pd_lifecycle p)) <=? 128) && (py_len (lc_source_extension (pd_lifecycle p)) <=? 32).

Definition insert_all (p : pending) (d : db) : option db :=
  let lc := pd_lifecycle p in
  if is_null (lifecycles d !! lc_id lc)
     && forallb (fun x => negb (bool_decide (lc_correlation_id x = lc_correlation_id lc))) (rows (lifecycles d))
     && is_null (records d !! pd_key_hash p)
  then Some (mkDb (<[lc_id lc := lc]> (lifecycles d)) (app (audits d) [pd_audit p])
               (app (outbox d) [pd_outbox p]) (<[pd_key_hash p := pd_response p]> (records d)))
  else None.

Definition finish (p : pending) (d : db) : db * (exn + call_response) :=
  if negb (fits p) then (d, inl (RuntimeError "DataError"))
  else match insert_all p d with
       | Some d' => (d', inr (pd_response p))
       | None => (d, inl conflict)
       end.

(** The handler with nothing in between. *)
Definition originate_call (env : Env) (b : OriginateCallRequest) (header : option string) (w : world) :
    world * (exn + call_response) :=
  match begin_ env b header w with
  | (w', Answered r) => (w', r)
  | (w', ToCommit p) => let r := finish p (w_db w') in (w' <| w_db := r.1 |>, r.2)
  end.

(** ** Requests in flight

    The requests that wait: for the answer to their lookup, for the identity
    service, or for their commit. *)
Record request := mkRequest {
  rq_env : Env;
  rq_body : OriginateCallRequest;
  rq_header : option string;
}.
Inductive stage := Looked | Entered | Committing (p : pending).
Definition flight : Type := request * stage.

Inductive ostep : world * list flight -> world * list flight -> Prop :=
| o_replay q w o r :
    replay (rq_body q) w = Some r -> ostep (w, o) (w, o)
| o_look q w o :
    replay (rq_body q) w = None -> ostep (w, o) (w, (q, Looked) :: o)
| o_enter q w w' r o o' :
    o ≡ₚ (q, Looked) :: o' -> enter (rq_env q) (rq_body q) w = (w', r) ->
    ostep (w, o) (w', match r with inr _ => (q, Entered) :: o' | inl _ => o' end)
| o_dial q w w' r o o' :
    o ≡ₚ (q, Entered) :: o' -> dial (rq_env q) (rq_body q) (rq_header q) w = (w', r) ->
    ostep (w, o) (w', match r with inr p => (q, Committing p) :: o' | inl _ => o' end)
| o_finish q p w o o' :
    o ≡ₚ (q, Committing p) :: o' -> ostep (w, o) (w <| w_db := (finish p (w_db w)).1 |>, o')
| o_crash f w o o' :
    o ≡ₚ f :: o' -> ostep (w, o) (w, o').
End handler.
End Originate.
