(* ===== verification/OriginateSafety.v ===== *)
(** * Click-to-call origination: what can dial, how often, and how it is recorded

    The limiter lets at most ten calls of an employee through in a minute; a
    request leaves for the edge only after every gate; once a key is recorded
    only the requests that had looked it up before can still dial, each once; and
    a request that reuses a correlation id dials and then fails, as often as it
    is retried. *)

From Stdlib Require Import Ascii.
From S2P Require Import Prelude PyText PyTime Sha256 Txn PyUnicode EdgeClient CallPolicy Originate.
Import CallPolicy Originate.
Local Open Scope string_scope.
Local Open Scope Z_scope.

Module OriginateSafety.

(** ** The limiter *)

(** The requests of one key that the limiter lets through, of those that reach
    it at the given times. *)
Fixpoint let_through (bucket : list Z) (times : list Z) : list Z :=
  match times with
  | [] => []
  | now :: rest =>
      let r := _rate_limit_originate bucket now in
      match r.2 with
      | inr _ => now :: let_through r.1 rest
      | inl _ => let_through r.1 rest
      end
  end.

(** How many of them fall into the minute from [x] on, ends included. *)
Definition in_minute (x : Z) (l : list Z) : nat :=
  length (List.filter (fun t => (x <=? t) && (t <=? x + seconds 60)) l).

Lemma in_minute_app x l1 l2 : in_minute x (app l1 l2) = (in_minute x l1 + in_minute x l2)%nat.
Proof. unfold in_minute. by rewrite List.filter_app, length_app. Qed.

Lemma in_minute_length x l : (in_minute x l <= length l)%nat.
Proof. apply List.filter_length_le. Qed.

Lemma in_minute_old x now l : now - seconds 60 <= x -> Forall (fun t => t < now - seconds 60) l -> in_minute x l = 0%nat.
Proof.
  intros Hx Hl. unfold in_minute. induction Hl as [|t l Ht _ IH]; [done|]. cbn.
  rewrite (proj2 (Z.leb_gt x t)) by lia. done.
Qed.

Lemma drop_old_split now bucket :
  exists old, bucket = app old (drop_old now bucket) /\ Forall (fun t => t < now - seconds 60) old.
Proof.
  induction bucket as [|t b IH]; cbn; [by exists []|]. destruct (Z.ltb_spec t (now - seconds 60)).
  - destruct IH as (old & E & Hold). exists (t :: old). split; [by rewrite E at 1|by constructor].
  - by exists [].
Qed.

(** The bucket holds the end of what was let through; the rest is older than a
    minute. *)
Definition covers (past bucket : list Z) (now : Z) : Prop :=
  exists old, past = app old bucket /\ Forall (fun t => t < now - seconds 60) old.

Lemma covers_drop past bucket last now :
  last <= now -> covers past bucket last -> covers past (drop_old now bucket) now.
Proof.
  intros Hle (old & -> & Hold). destruct (drop_old_split now bucket) as (old' & E & Hold').
  exists (app old old'). split; [by rewrite <- app_assoc, <- E|]. apply Forall_app. split; [|done].
  eapply Forall_impl; [exact Hold|]. cbn. intros. lia.
Qed.

Lemma let_through_bounded times past bucket last :
  Sorted Z.le (last :: times) -> covers past bucket last ->
  (forall x, (in_minute x past <= _ORIGINATE_RATE_LIMIT_PER_MINUTE)%nat) ->
  forall x, (in_minute x (app past (let_through bucket times)) <= _ORIGINATE_RATE_LIMIT_PER_MINUTE)%nat.
Proof.
  revert past bucket last. induction times as [|now rest IH]; intros past bucket last Hs Hc Hb; cbn.
  { by rewrite app_nil_r. }
  apply Sorted_inv in Hs as [Hs Hhd%HdRel_inv].
  pose proof (covers_drop _ _ _ _ Hhd Hc) as Hc'. unfold _rate_limit_originate.
  destruct (_ <=? _)%nat eqn:El; cbn.
  - by apply (IH past _ now).
  - apply Nat.leb_gt in El. intros x. rewrite cons_middle, app_assoc.
    apply (IH _ _ now); [done| |].
    + destruct Hc' as (old & -> & Hold). exists old. by rewrite <- app_assoc.
    + intros y. rewrite in_minute_app. destruct (decide (now - seconds 60 <= y)) as [Hy|Hy].
      * destruct Hc' as (old & -> & Hold). rewrite in_minute_app, (in_minute_old y now old) by done.
        pose proof (in_minute_length y (drop_old now bucket)).
        assert (in_minute y [now] <= 1)%nat by apply (in_minute_length y [now]). lia.
      * specialize (Hb y). unfold in_minute at 2. cbn. rewrite (proj2 (Z.leb_gt now _)) by lia.
        rewrite andb_false_r. cbn. lia.
Qed.

(** C19. The rate limit holds over every minute, not only from the time of the
    check back: of the requests of one employee that reach the limiter in the
    order of the clock, at most ten are let through within any 60 seconds, ends
    included. *)
Theorem ten_calls_a_minute times x :
  Sorted Z.le times -> (in_minute x (let_through [] times) <= 10)%nat.
Proof.
  intros Hs. destruct times as [|t times]; [cbn; lia|].
  apply (let_through_bounded (t :: times) [] [] t); [|by exists []|cbn; lia].
  constructor; [done|]. by constructor.
Qed.

Definition busy_minute : list Z := List.map seconds [0; 1; 2; 3; 4; 5; 6; 7; 8; 9; 10; 60; 61; 62].

Lemma ten_calls_a_minute_witness :
  in_minute 0 (let_through [] busy_minute) = 10%nat
  /\ (in_minute (seconds 2) (let_through [] busy_minute) <= 10)%nat.
Proof.
  split; [by vm_compute|]. apply ten_calls_a_minute. unfold busy_minute. cbn.
  repeat constructor; apply Z.leb_le; by vm_compute.
Defined.
Section origination.
Context `{Platform}.

(** ** What can dial *)

(** The identity service vouches for the agent, the campaign and the unit. *)
Definition vouched (env : Env) (b : OriginateCallRequest) (a : agent) : Prop :=
  exists identity, _lookup_agent_assignment env (employee_id b) (o_campaign b) = inr identity
    /\ authorized_agent b identity = Some a.

Definition edge_enabled (s : EdgeClient.Settings) : Prop :=
  EdgeClient.external_dial_enabled s = true /\ EdgeClient.vicidial_write_enabled s = true
  /\ EdgeClient.live_writes_enabled s = true.

Definition dial_url (env : Env) : string := EdgeClient.vicidial_edge_url (edge_settings env) +:+ "/v1/calls/originate".

Lemma gates_ok env b a :
  gates env b = inr a ->
  (o_campaign b = "TEST_SYN" \/ allow_non_test_campaigns env = true) /\ vouched env b a
  /\ E164 (o_destination b) = true.
Proof.
  unfold gates. rewrite check_bind_ok, orb_true_iff, bool_decide_eq_true. intros [Hc Hi]. split; [done|].
  apply exn_bind_ok in Hi as (identity & Hl & Hi). destruct (authorized_agent b identity) as [a'|] eqn:Ha; [|done].
  apply check_bind_ok in Hi as [He [= <-]]. split; [by exists identity|done].
Qed.

Lemma call_adapter_sent env b a c s r :
  call_adapter env b a c = (Some s, r) ->
  edge_enabled (edge_settings env) /\ EdgeClient.private_url upper urlsplit resolver is_private "POST" (dial_url env)
  /\ EdgeClient.s_url s = dial_url env
  /\ EdgeClient.s_body s = json_dumps json_canonical (dial_payload b a (uuid_str (drawn_call env)) c).
Proof.
  unfold call_adapter. destruct (EdgeClient.new_client _ _ _ _) as [[m|e]|[]]; [done..|].
  unfold EdgeClient.originate. destruct (negb _) eqn:Ef; [done|].
  apply negb_false_iff in Ef. rewrite !andb_true_iff in Ef. destruct Ef as [[? ?] ?].
  destruct (EdgeClient.request _ _ _ _ _ _ _ _ _ _ _ _) as [s' r'] eqn:Er. cbn. intros [= -> _].
  apply EdgeClient.request_sent in Er as (? & ? & ? & _). split_and!; done.
Qed.

(** What the part of the handler that dials went through. *)
Record dial_gated (env : Env) (b : OriginateCallRequest) (c : string) (s : EdgeClient.sent) : Prop := mkDialGated {
  dg_campaign : o_campaign b = "TEST_SYN" \/ allow_non_test_campaigns env = true;
  dg_policy : exists a policy, vouched env b a /\ policy_file env = inr policy
    /\ permitted unicode_digit zones policy (policy_request b a c (now_utc env))
    /\ EdgeClient.s_body s = json_dumps json_canonical (dial_payload b a (uuid_str (drawn_call env)) c);
  dg_switches : edge_enabled (edge_settings env);
  dg_private : EdgeClient.private_url upper urlsplit resolver is_private "POST" (dial_url env);
  dg_url : EdgeClient.s_url s = dial_url env;
}.

Lemma attempt_gated env b c s r : attempt env b c = (Some s, r) -> dial_gated env b c s.
Proof.
  unfold attempt. destruct (gates env b) as [e|a] eqn:Hg; [done|].
  destruct (decide_call env b a c) as [e|decision] eqn:Hd; [done|].
  case_bool_decide as Hallow; [subst decision|done].
  destruct (call_adapter env b a c) as [s' r'] eqn:Ha. intros Hs.
  assert (s' = Some s) as -> by (destruct r' as [e|[dg rs]]; by injection Hs).
  apply gates_ok in Hg as (Hc & Hv & _). apply exn_bind_ok in Hd as (policy & Hp & Hd).
  apply authorize_allow in Hd as [Hperm _]. apply call_adapter_sent in Ha as (? & ? & ? & ?).
  split; try done. by exists a, policy.
Qed.

Lemma no_growth {A} (l : list A) y : l <> app l [y].
Proof. intros E. apply (f_equal length) in E. rewrite length_app in E. cbn in E. lia. Qed.

Lemma dial_sends env b header w w' r k s :
  dial env b header w = (w', r) -> w_dials w' = app (w_dials w) [(k, s)] ->
  k = key_hash_of b /\ dial_gated env b (py_or header (uuid_str (drawn_correlation env))) s.
Proof.
  unfold dial. destruct (attempt _ _ _) as [[s'|] r'] eqn:Ha; cbn; intros [= <- _] E; [|by apply no_growth in E].
  cbn in E. apply app_inj_tail in E as [_ [= -> ->]]. split; [done|]. by eapply attempt_gated.
Qed.

(** ** How requests in flight got there *)

(** From [x] through a state that satisfies [P] to [z]. *)
Definition passed (P : world -> Prop) (x y : world * list flight) : Prop :=
  exists m, rtc ostep x m /\ rtc ostep m y /\ P m.1.
Definition unrecorded (b : OriginateCallRequest) (w : world) : Prop := records (w_db w) !! key_hash_of b = None.
Definition below_limit (env : Env) (b : OriginateCallRequest) (w : world) : Prop :=
  (_rate_limit_originate (coalesce (w_buckets w !! employee_id b) []) (monotonic env)).2 = inr tt.
(** First the lookup found no record, then the limiter let the request through. *)
Definition looked (q : request) (x y : world * list flight) : Prop := passed (unrecorded (rq_body q)) x y.
Definition entered (q : request) (x y : world * list flight) : Prop :=
  exists m, looked q x m /\ passed (below_limit (rq_env q) (rq_body q)) m y.

Lemma passed_step P x y z : passed P x y -> ostep y z -> passed P x z.
Proof. intros (m & ? & ? & ?) Hs. exists m. split_and!; [done|by eapply rtc_r|done]. Qed.
Lemma entered_step q x y z : entered q x y -> ostep y z -> entered q x z.
Proof. intros (m & Hm & Hp) Hs. exists m. split; [done|]. by eapply passed_step. Qed.

Definition flight_ok (x y : world * list flight) (f : flight) : Prop :=
  match f.2 with
  | Looked => looked f.1 x y
  | Entered | Committing _ => entered f.1 x y
  end.

Lemma flight_ok_step x y z f : flight_ok x y f -> ostep y z -> flight_ok x z f.
Proof.
  destruct f as [q []]; cbn; intros Hf Hs; [by eapply passed_step|by eapply entered_step|by eapply entered_step].
Qed.

Lemma Forall_taken {A} (P : A -> Prop) (l l' : list A) a : l ≡ₚ a :: l' -> Forall P l -> P a /\ Forall P l'.
Proof. intros Hp Hl. rewrite Hp in Hl. by apply Forall_cons in Hl. Qed.

Lemma flights_ok_step x y z :
  rtc ostep x y -> Forall (flight_ok x y) y.2 -> ostep y z -> Forall (flight_ok x z) z.2.
Proof.
  intros Hr Ho Hs. assert (Hold : Forall (flight_ok x z) y.2)
    by (eapply Forall_impl; [exact Ho|]; intros f Hf; by eapply flight_ok_step).
  assert (Hz : rtc ostep x z) by (by eapply rtc_r).
  pose proof Hs as Hs'.
  destruct Hs as [|q w o Hn|q w w' r o o' Hp Ha|q w w' r o o' Hp Ha|q p w o o' Hp|f w o o' Hp]; cbn in *; [done|..];
    try (destruct (Forall_taken _ _ _ _ Hp Ho) as [Hf _]; destruct (Forall_taken _ _ _ _ Hp Hold) as [Hf' Hold']).
  - constructor; [|done]. exists (w, o). split_and!; [done|by apply rtc_once|done].
  - destruct r as [e|[]]; [done|]. constructor; [|done]. exists (w, o). split; [exact Hf|].
    exists (w, o). split_and!; [done|by apply rtc_once|]. unfold enter in Ha. by injection Ha.
  - destruct r as [e|p]; [done|]. by constructor.
  - done.
  - done.
Qed.

Lemma flights_ok w0 y : rtc ostep (w0, []) y -> Forall (flight_ok (w0, []) y) y.2.
Proof.
  intros Hr. apply rtc_ind_r with (P := fun y => rtc ostep (w0, []) y /\ Forall (flight_ok (w0, []) y) y.2) in Hr as [_ ?];
    [done|by split|].
  intros y1 y2 _ Hs [Hr1 Ho]. split; [by eapply rtc_r|]. by eapply flights_ok_step.
Qed.

Lemma enter_dials env b w w' r : enter env b w = (w', r) -> w_dials w' = w_dials w.
Proof. by intros [= <- _]. Qed.

(** C17. Nothing dials unless every gate is open.  Requests are interleaved in
    any way, from a state in which none is in flight.  What leaves for the edge
    was sent by a request that, on its way, first found its key unrecorded, then
    was let through by the limiter, and then passed every other gate: the
    campaign is the test campaign or production campaigns are enabled, the
    identity service vouches for the agent, campaign and unit, the policy on
    file permits the call with the agent's own extension and name, the three
    dialling switches are on, and the URL is the approved private one; and it
    carries the number and caller id of the request and the extension and name
    the identity service gave. *)
Theorem dial_needs_every_gate w0 w o w' o' k s :
  rtc ostep (w0, []) (w, o) -> ostep (w, o) (w', o') -> w_dials w' = app (w_dials w) [(k, s)] ->
  exists q w1 o1 w2 o2 a policy,
    let env := rq_env q in
    let b := rq_body q in
    let c := py_or (rq_header q) (uuid_str (drawn_correlation env)) in
    k = sha256_hex (idempotency_key b)
    /\ rtc ostep (w0, []) (w1, o1) /\ records (w_db w1) !! k = None
    /\ rtc ostep (w1, o1) (w2, o2)
    /\ (_rate_limit_originate (coalesce (w_buckets w2 !! employee_id b) []) (monotonic env)).2 = inr tt
    /\ rtc ostep (w2, o2) (w, o)
    /\ (o_campaign b = "TEST_SYN" \/ allow_non_test_campaigns env = true)
    /\ vouched env b a /\ policy_file env = inr policy
    /\ permitted unicode_digit zones policy (policy_request b a c (now_utc env))
    /\ edge_enabled (edge_settings env)
    /\ EdgeClient.private_url upper urlsplit resolver is_private "POST" (dial_url env)
    /\ EdgeClient.s_url s = dial_url env
    /\ EdgeClient.s_body s = json_dumps json_canonical (dial_payload b a (uuid_str (drawn_call env)) c).
Proof.
  intros Hr Hs Hd. pose proof (flights_ok _ _ Hr) as Ho. cbn in Ho. revert Hd.
  inversion Hs as [| |q ? ? r ? ? Hp Ha|q ? ? r ? ? Hp Ha| |]; subst; cbn; intros Hd;
    try (rewrite (enter_dials _ _ _ _ _ Ha) in Hd); try (by apply no_growth in Hd).
  destruct (dial_sends _ _ _ _ _ _ _ _ Ha Hd) as [-> [Hcam (a & policy & ? & ? & ? & ?) ? ? ?]].
  destruct (Forall_taken _ _ _ _ Hp Ho) as [(m & ([w1 o1] & ? & ? & ?) & ([w2 o2] & ? & ? & ?)) _].
  exists q, w1, o1, w2, o2, a, policy. split_and!; try done. by etrans.
Qed.

(** ** Recorded calls *)

Definition dials_of (k : string) (w : world) : list (string * EdgeClient.sent) :=
  List.filter (fun x => bool_decide (x.1 = k)) (w_dials w).

(** The requests with the key [k] that are past their lookup and have not
    dialled yet. *)
Definition may_dial (k : string) (f : flight) : bool :=
  bool_decide (key_hash_of (rq_body f.1) = k) && match f.2 with Committing _ => false | _ => true end.
Definition undialled (k : string) (o : list flight) : nat := length (List.filter (may_dial k) o).
Arguments undialled : simpl never.

#[global] Instance undialled_proper k : Proper ((≡ₚ) ==> eq) (undialled k).
Proof.
  intros o1 o2 Hp. unfold undialled. induction Hp as [|f o1 o2 _ IH|f g o|o1 o2 o3 _ IH1 _ IH2]; cbn; [done| | |congruence].
  - destruct (may_dial k f); cbn; by rewrite IH.
  - by destruct (may_dial k f), (may_dial k g).
Qed.

Lemma undialled_cons k f o : undialled k (f :: o) = ((if may_dial k f then 1 else 0) + undialled k o)%nat.
Proof. unfold undialled. cbn. by destruct (may_dial k f). Qed.

Lemma finish_keeps p d k r :
  records d !! k = Some r -> records (finish p d).1 !! k = Some r.
Proof.
  intros Hr. unfold finish. destruct (negb (fits p)); [done|].
  destruct (insert_all p d) as [d'|] eqn:Ei; [|done]. revert Ei. unfold insert_all. case_match eqn:E; [|done].
  intros [= <-]. cbn. rewrite !andb_true_iff in E. destruct E as [_ E%is_null_true].
  rewrite lookup_insert_ne; [done|]. congruence.
Qed.

(** What the dialling part adds to the calls of a key. *)
Lemma dial_adds env b header w w' r k :
  dial env b header w = (w', r) ->
  w_db w' = w_db w /\ exists new, dials_of k w' = app (dials_of k w) new
    /\ (length new <= if bool_decide (key_hash_of b = k) then 1 else 0)%nat.
Proof.
  unfold dial, dials_of. destruct (attempt _ _ _) as [[s|] r']; cbn; intros [= <- _]; (split; [done|]).
  - cbn. rewrite List.filter_app. cbn. eexists. split; [reflexivity|]. by case_bool_decide.
  - exists []. rewrite app_nil_r. split; [done|]. cbn. lia.
Qed.

(** The calls of [k] that left between two states, against the requests that
    could still make one. *)
Definition spends (k : string) (x y : world * list flight) : Prop :=
  exists late, dials_of k y.1 = app (dials_of k x.1) late
    /\ (length late + undialled k y.2 <= undialled k x.2)%nat.

#[global] Instance spends_preorder k : PreOrder (spends k).
Proof.
  split.
  - intros x. exists []. rewrite app_nil_r. split; [done|]. cbn. lia.
  - intros x y z (l1 & E1 & H1) (l2 & E2 & H2). exists (app l1 l2). rewrite E2, E1, <- app_assoc, length_app.
    split; [done|lia].
Qed.

Lemma spends_quiet k x y :
  w_dials y.1 = w_dials x.1 -> (undialled k y.2 <= undialled k x.2)%nat -> spends k x y.
Proof. intros E Hu. exists []. unfold dials_of. rewrite E, app_nil_r. split; [done|]. cbn. lia. Qed.

Lemma ostep_recorded x y k r :
  ostep x y -> records (w_db x.1) !! k = Some r -> records (w_db y.1) !! k = Some r /\ spends k x y.
Proof.
  destruct 1 as [|q w o Hn|q w w' ret o o' Hp Ha|q w w' ret o o' Hp Ha|q p w o o' Hp|f w o o' Hp]; cbn; intros Hr.
  - by split.
  - split; [done|]. apply spends_quiet; [done|]. cbn. rewrite undialled_cons. unfold may_dial. cbn.
    rewrite bool_decide_false; [cbn; lia|]. unfold replay in Hn. congruence.
  - split; [by injection Ha as <- _|]. apply spends_quiet; [by eapply enter_dials|]. cbn.
    rewrite Hp, undialled_cons. destruct ret; [lia|]. rewrite undialled_cons. done.
  - destruct (dial_adds _ _ _ _ _ _ k Ha) as [-> (new & E & Hl)]. split; [done|]. exists new.
    split; [done|]. cbn. rewrite Hp, undialled_cons. unfold may_dial. cbn. rewrite andb_true_r.
    destruct ret; rewrite ?undialled_cons; unfold may_dial; cbn; rewrite ?andb_false_r; cbn;
      destruct (bool_decide _); lia.
  - split; [by apply finish_keeps|]. apply spends_quiet; [done|]. cbn. rewrite Hp, undialled_cons. lia.
  - split; [done|]. apply spends_quiet; [done|]. cbn. rewrite Hp, undialled_cons. lia.
Qed.

(** C18. A recorded call is final.  From the commit of a key's record on, through
    whatever interleaving of requests, commits and crashes follows, the record
    stays, and every request with that key that starts is answered with the
    recorded response, with no effect at all.  What may still leave for the edge
    under that key are the calls of requests that had looked the key up before
    the record was there, at most one for each: none when no such request was in
    flight. *)
Theorem recorded_call_final w o w' o' k r :
  rtc ostep (w, o) (w', o') -> records (w_db w) !! k = Some r ->
  records (w_db w') !! k = Some r
  /\ (forall env b header, sha256_hex (idempotency_key b) = k -> originate_call env b header w' = (w', inr r))
  /\ exists late, dials_of k w' = app (dials_of k w) late
       /\ (length late + undialled k o' <= undialled k o)%nat.
Proof.
  intros Hsteps Hr. enough (Hk : records (w_db (w', o').1) !! k = Some r /\ spends k (w, o) (w', o')).
  { destruct Hk as [Hk Hs]. split; [done|]. split; [|exact Hs]. intros env b header <-.
    unfold originate_call, begin_, replay, key_hash_of. cbn in Hk. by rewrite Hk. }
  change w with (w, o).1 in Hr. induction Hsteps as [x|x y z Hs _ IH]; [done|].
  destruct (ostep_recorded _ _ _ _ Hs Hr) as [Hy Hxy]. destruct (IH Hy) as [? Hyz]. split; [done|by etrans].
Qed.

(** ** Conflicts *)

Lemma insert_all_conflict p d id row :
  lifecycles d !! id = Some row -> lc_correlation_id row = lc_correlation_id (pd_lifecycle p) ->
  insert_all p d = None.
Proof.
  intros Hid Hc. unfold insert_all. case_match eqn:E; [|done].
  rewrite !andb_true_iff, forallb_forall in E. destruct E as [[_ E] _].
  specialize (E row (proj1 (list_elem_of_In _ _) (proj2 (elem_of_rows _ _) (ex_intro _ _ Hid)))).
  by rewrite Hc, bool_decide_true in E.
Qed.

Lemma attempt_correlation env b c s p : attempt env b c = (s, inr p) -> lc_correlation_id (pd_lifecycle p) = c.
Proof.
  unfold attempt. destruct (gates env b) as [|a]; [done|]. destruct (decide_call _ _ _ _) as [|x]; [done|].
  case_bool_decide; [destruct (call_adapter _ _ _ _) as [s' [e|[dg rs]]]; [done|]|]; by intros [= _ <-].
Qed.

(** A request that carries the correlation id of an earlier call is lost
    after it dialled.  Once it is past the limiter it does everything a fresh
    call does, and whatever left for the edge has left; the commit is then
    refused, no trace of the call is stored, and since the key is not recorded
    either, the next retry of the same request does it all again. *)
Theorem reused_correlation_dials_unrecorded env b h w id row :
  lifecycles (w_db w) !! id = Some row -> lc_correlation_id row = h -> h <> "" ->
  records (w_db w) !! sha256_hex (idempotency_key b) = None ->
  (_rate_limit_originate (coalesce (w_buckets w !! employee_id b) []) (monotonic env)).2 = inr tt ->
  let r := originate_call env b (Some h) w in
  w_db r.1 = w_db w /\ (forall x, r.2 <> inr x)
  /\ w_dials r.1 = app (w_dials w) (match (attempt env b h).1 with
                                    | Some s => [(sha256_hex (idempotency_key b), s)]
                                    | None => []
                                    end).
Proof.
  intros Hrow Hc Hh Hrec Hl. cbv zeta. unfold originate_call, begin_, replay, enter, dial, key_hash_of. rewrite Hrec.
  destruct (_rate_limit_originate _ _) as [bk [e|[]]]; [done|]. cbn [fst snd].
  assert (Hpy : py_or (Some h) (uuid_str (drawn_correlation env)) = h) by (unfold py_or; by rewrite bool_decide_false).
  rewrite Hpy. destruct (attempt env b h) as [s [e|p]] eqn:Ha; cbn [fst snd].
  - destruct s; cbn; rewrite ?app_nil_r; done.
  - apply attempt_correlation in Ha.
    assert (Hf : forall d, lifecycles d = lifecycles (w_db w) -> finish p d = (d, (finish p d).2) /\ forall x, (finish p d).2 <> inr x).
    { intros d Hd. unfold finish. destruct (negb (fits p)); [done|].
      rewrite (insert_all_conflict p d id row); [done|by rewrite Hd|congruence]. }
    destruct (Hf (w_db w) eq_refl) as [E1 E2].
    destruct s; cbn; rewrite ?app_nil_r; rewrite E1; done.
Qed.
End origination.
End OriginateSafety.

(** * Click-to-call origination: concrete calls

    A platform with one private edge, a policy that permits one call, and
    requests that dial, replay and conflict. *)

Import CallPolicy Originate OriginateSafety.
Module OriginateDemo.

Definition edge_host : string := "edge.internal.codestra.agency".
Definition edge_base : string := "https://edge.internal.codestra.agency:8443".
Definition demo_url (url : string) : EdgeClient.url_parts :=
  if bool_decide (url = edge_base +:+ "/v1/calls/originate")
  then EdgeClient.mkUrl "https" (Some edge_host) (inr (Some 8443)) "/v1/calls/originate" None None "" ""
  else EdgeClient.mkUrl "https" (Some "odoo.internal") (inr None) "/identity/E-1" None None "campaign_id=TEST_SYN" "".

#[local] Instance demo_platform : Platform := {
  upper := fun s => s;
  quote := fun s => s;
  urlencode := fun k v => k +:+ "=" +:+ v;
  urlsplit := fun url => inr (demo_url url);
  py_strip := fun s => s;
  container_str := fun _ => "";
  unicode_digit := fun _ => false;
  zones := fun key => if bool_decide (key = "UTC") then zone_found (fun _ => 0) else zone_not_found;
  resolver := fun _ => inr ["10.0.0.5"];
  is_private := fun _ => inr true;
  is_file := fun _ => true;
  load_credentials := fun _ => true;
  load_crl := fun _ => true;
  json_loads := fun _ => Some (JObj [("accepted", JBool true)]);
}.

Definition demo_settings : EdgeClient.Settings :=
  EdgeClient.mkSettings false false true true true "https://authorization.internal.codestra.agency:8443"
    edge_base "/run/secrets/ca" "/run/secrets/cert" "/run/secrets/key" "".
Definition demo_identity : json :=
  JObj [("campaign_ids", JList [JStr "TEST_SYN"]); ("endpoint", JStr "6201");
        ("vicidial_username", JStr "agent1"); ("business_unit_id", JStr "BU-400-COD")].
Definition noon : Z := hours 12.
Definition demo_policy : Policy :=
  mkPolicy "1" true false (Some "TEST_SYN") (Some "BU-400-COD") (Some "agent1") (Some "6201")
    (Some "+18095550100") (Some "+18095550123") ["mobile"] ["DO"] [] (Some "UTC") (Some (hours 9)) (Some (hours 17))
    [3] (Some (utc 0)) (Some (utc (hours 24))) 1 1 (mkRecording "disabled" false false None) true true true.
Definition demo_env (n : N) (t : Z) : Env :=
  mkEnv demo_settings false "https://odoo.internal/identity" "/run/secrets/identity" (FileText "secret")
    (fun _ _ _ => IdentityResponse 200 (Some demo_identity)) (inr demo_policy) t 43200 noon noon
    (2 * n)%N (2 * n + 1)%N (fun _ => EdgeClient.Response 200 ["ok"] EdgeClient.Complete).
Definition demo_call (key : string) : OriginateCallRequest :=
  mkOriginate key "E-1" "TEST_SYN" "BU-400-COD" "+18095550123" "mobile" "DO" "UTC" "+18095550100" "crm.lead" 7
    false (Some (mkConsent "granted" "production-webrtc-pilot" (Some (utc 0)) None "web" "C-1")).

Definition empty_world : world := mkWorld (mkDb ∅ [] [] ∅) ∅ [].
Definition first_key : string := "first-key-0123456789".
Definition second_key : string := "second-key-012345678".

(** The first call dials and is recorded. *)
Definition after_first := originate_call (demo_env 1 0) (demo_call first_key) (Some "corr-1") empty_world.

(** Two requests with one key, interleaved: both look the key up before either
    is recorded; the first dials and is recorded, and then the second dials. *)
Definition request1 : request := mkRequest (demo_env 1 0) (demo_call first_key) (Some "corr-1").
Definition request2 : request := mkRequest (demo_env 2 (seconds 1)) (demo_call first_key) (Some "corr-2").
Definition enter_of (q : request) (w : world) := enter (rq_env q) (rq_body q) w.
Definition dial_of (q : request) (w : world) := dial (rq_env q) (rq_body q) (rq_header q) w.

Definition entered1 : world := Eval vm_compute in (enter_of request1 empty_world).1.
Definition dialled1 : world * (exn + pending) := Eval vm_compute in dial_of request1 entered1.
Definition no_call : pending := record_call (demo_env 0 0) (demo_call "") (mkAgent "" "" "") "" DENY "" "".
Definition pending_of (r : exn + pending) : pending := match r with inr p => p | inl _ => no_call end.
Definition recorded1 : world := Eval vm_compute in
  dialled1.1 <| w_db := (finish (pending_of dialled1.2) (w_db dialled1.1)).1 |>.
Definition entered2 : world := Eval vm_compute in (enter_of request2 recorded1).1.
Definition dialled2 : world * (exn + pending) := Eval vm_compute in dial_of request2 entered2.

Definition both_looked : list flight := [(request2, Looked); (request1, Looked)].
Definition one_entered : list flight := [(request1, Entered); (request2, Looked)].
Definition one_committing : list flight := [(request1, Committing (pending_of dialled1.2)); (request2, Looked)].
Definition both_committed : list flight := [(request2, Committing (pending_of dialled2.2))].

Lemma enter1_eq : enter_of request1 empty_world = (entered1, inr tt).
Proof. vm_compute. reflexivity. Qed.
Lemma dial1_eq : dial_of request1 entered1 = (dialled1.1, inr (pending_of dialled1.2)).
Proof. vm_compute. reflexivity. Qed.
Lemma finish1_eq :
  dialled1.1 <| w_db := (finish (pending_of dialled1.2) (w_db dialled1.1)).1 |> = recorded1.
Proof. vm_compute. reflexivity. Qed.
Lemma enter2_eq : enter_of request2 recorded1 = (entered2, inr tt).
Proof. vm_compute. reflexivity. Qed.
Lemma dial2_eq : dial_of request2 entered2 = (dialled2.1, inr (pending_of dialled2.2)).
Proof. vm_compute. reflexivity. Qed.

Lemma run_entered1 : rtc ostep (empty_world, []) (entered1, one_entered).
Proof.
  eapply rtc_l; [by apply (o_look request1)|]. eapply rtc_l; [by apply (o_look request2)|]. apply rtc_once.
  apply (o_enter request1 empty_world entered1 (inr tt) both_looked [(request2, Looked)]); [|exact enter1_eq].
  apply Permutation_swap.
Qed.
Lemma step_dialled1 : ostep (entered1, one_entered) (dialled1.1, one_committing).
Proof.
  exact (o_dial request1 entered1 dialled1.1 (inr (pending_of dialled1.2)) one_entered [(request2, Looked)]
    (reflexivity _) dial1_eq).
Qed.
Lemma run_recorded1 : rtc ostep (empty_world, []) (recorded1, [(request2, Looked)]).
Proof.
  eapply rtc_r; [eapply rtc_r; [exact run_entered1|exact step_dialled1]|]. rewrite <- finish1_eq.
  by apply (o_finish request1 (pending_of dialled1.2)).
Qed.
Lemma run_dialled2 : rtc ostep (recorded1, [(request2, Looked)]) (dialled2.1, both_committed).
Proof.
  eapply rtc_l; [exact (o_enter request2 recorded1 entered2 (inr tt) [(request2, Looked)] [] (reflexivity _) enter2_eq)|].
  apply rtc_once.
  exact (o_dial request2 entered2 dialled2.1 (inr (pending_of dialled2.2)) [(request2, Entered)] [] (reflexivity _) dial2_eq).
Qed.

Lemma dial_needs_every_gate_witness :
  exists s q a policy, w_dials dialled1.1 = [(sha256_hex first_key, s)]
     /\ vouched (rq_env q) (rq_body q) a /\ policy_file (rq_env q) = inr policy
     /\ permitted unicode_digit zones policy (policy_request (rq_body q) a
          (py_or (rq_header q) (uuid_str (drawn_correlation (rq_env q)))) (now_utc (rq_env q)))
     /\ EdgeClient.s_url s = dial_url (rq_env q).
Proof.
  assert (Hd : exists s, w_dials dialled1.1 = [(sha256_hex first_key, s)]) by (eexists; vm_compute; reflexivity).
  destruct Hd as [s Hs].
  destruct (dial_needs_every_gate empty_world entered1 one_entered dialled1.1 one_committing (sha256_hex first_key) s
    run_entered1 step_dialled1 Hs) as (q & w1 & o1 & w2 & o2 & a & policy & _ & _ & _ & _ & _ & _ & _ & Hv & Hp & Hperm & _ & _ & Hu & _).
  exists s, q, a, policy. split; [exact Hs|]. split; [exact Hv|]. split; [exact Hp|]. split; [exact Hperm|exact Hu].
Defined.

(** After the record of the first key a request of it has no effect, and the one
    that had looked it up dials once more. *)
Lemma recorded_call_final_witness :
  exists r late, records (w_db recorded1) !! sha256_hex first_key = Some r
  /\ originate_call (demo_env 5 (seconds 5)) (demo_call first_key) (Some "corr-5") dialled2.1 = (dialled2.1, inr r)
  /\ dials_of (sha256_hex first_key) dialled2.1 = app (dials_of (sha256_hex first_key) recorded1) late
  /\ (length late <= 1)%nat.
Proof.
  destruct (records (w_db recorded1) !! sha256_hex first_key) as [r|] eqn:E; [|exfalso; revert E; vm_compute; discriminate].
  destruct (recorded_call_final recorded1 [(request2, Looked)] dialled2.1 both_committed (sha256_hex first_key) r
    run_dialled2 E) as (_ & Hans & late & Hl & Hu).
  exists r, late. split; [reflexivity|]. split; [apply Hans; reflexivity|]. split; [exact Hl|].
  assert (H1 : undialled (sha256_hex first_key) [(request2, Looked)] = 1%nat) by (vm_compute; reflexivity).
  rewrite H1 in Hu. lia.
Defined.

(** The lookup of the key does not keep out a request that runs beside another:
    one key dials twice, the second time when the first call is already
    recorded; only the commit of the second is refused, after it dialled. *)
Example concurrent_key_dials_twice :
  rtc ostep (empty_world, []) (recorded1, [(request2, Looked)])
  /\ rtc ostep (recorded1, [(request2, Looked)]) (dialled2.1, both_committed)
  /\ is_Some (records (w_db recorded1) !! sha256_hex first_key)
  /\ length (dials_of (sha256_hex first_key) recorded1) = 1%nat
  /\ length (dials_of (sha256_hex first_key) dialled2.1) = 2%nat
  /\ (finish (pending_of dialled2.2) (w_db dialled2.1)).2 = inl conflict.
Proof.
  split; [exact run_recorded1|]. split; [exact run_dialled2|]. split; [eexists; vm_compute; reflexivity|].
  split; [vm_compute; reflexivity|]. split; vm_compute; reflexivity.
Qed.

(** A second call with the correlation id of the first: it dials, is refused,
    and is retried with the same result. *)
Definition after_second := originate_call (demo_env 3 (seconds 2)) (demo_call second_key) (Some "corr-1") after_first.1.
Definition after_third := originate_call (demo_env 4 (seconds 3)) (demo_call second_key) (Some "corr-1") after_second.1.

Lemma reused_correlation_dials_unrecorded_witness :
  after_second.2 = inl conflict /\ after_third.2 = inl conflict
  /\ length (dials_of (sha256_hex second_key) after_third.1) = 2%nat
  /\ w_db after_second.1 = w_db after_first.1.
Proof.
  split; [by vm_compute|]. split; [by vm_compute|]. split; [by vm_compute|].
  assert (Hrow : exists row, lifecycles (w_db after_first.1) !! 3%N = Some row /\ lc_correlation_id row = "corr-1")
    by (eexists; split; by vm_compute).
  destruct Hrow as (row & Hrow & Hc).
  apply (reused_correlation_dials_unrecorded (demo_env 3 (seconds 2)) (demo_call second_key) "corr-1"
    after_first.1 3%N row Hrow Hc); by vm_compute.
Defined.
End OriginateDemo.
