(* ===== verification/PyParse.v ===== *)
(** * Numbers, UUIDs and dates read from and written as text

    [int(s, base)], [UUID(s)] and [datetime.isoformat()] as the social
    publishing code uses them.  Texts are UTF-8; of the digits and white space
    that Python accepts outside ASCII none is modelled. *)

From Stdlib Require Import Ascii.
From S2P Require Import Prelude PyText Sha256 PyTime PyUnicode.
Local Open Scope string_scope.
Local Open Scope Z_scope.

(** ** [int(s, base)] *)

Definition digit_value (c : ascii) : option N :=
  if is_digit c then Some (N_of_ascii c - 48)%N
  else if is_lower c then Some (N_of_ascii c - 87)%N
  else if is_upper c then Some (N_of_ascii c - 55)%N
  else None.

(** Digits with single underscores between them; [ok] tells whether the text
    may end, or an underscore come, here. *)
Fixpoint digits (base : N) (ok : bool) (acc : N) (s : string) : option N :=
  match s with
  | EmptyString => if ok then Some acc else None
  | String c s' =>
      if Ascii.eqb c "_" then if ok then digits base false acc s' else None
      else match digit_value c with
           | Some d => if (d <? base)%N then digits base true (acc * base + d)%N s' else None
           | None => None
           end
  end.

(** The digits after the sign: base 16 allows a prefix [0x], which an
    underscore may follow. *)
Definition unsigned (base : N) (s : string) : option N :=
  match s with
  | String z (String x rest) =>
      if (base =? 16)%N && Ascii.eqb z "0" && (Ascii.eqb x "x" || Ascii.eqb x "X")
         && negb (bool_decide (rest = "")) then digits base true 0 rest
      else digits base false 0 s
  | _ => digits base false 0 s
  end.

Definition py_int (base : N) (s : string) : option Z :=
  match strip s with
  | EmptyString => None
  | String c rest =>
      if Ascii.eqb c "-" then (fun n => - Z.of_N n) <$> unsigned base rest
      else if Ascii.eqb c "+" then Z.of_N <$> unsigned base rest
      else Z.of_N <$> unsigned base (strip s)
  end.

(** ** [UUID(s)] *)

(** [s.replace(sub, "")] for a [sub] that is not empty; [skip] counts the
    characters of an occurrence that are still to be dropped. *)
Fixpoint remove_from (sub : string) (skip : nat) (s : string) : string :=
  match s with
  | EmptyString => EmptyString
  | String c s' =>
      match skip with
      | S k => remove_from sub k s'
      | O => if starts_with sub s then remove_from sub (String.length sub - 1) s'
             else String c (remove_from sub 0 s')
      end
  end.
Definition remove_all (sub s : string) : string := remove_from sub 0 s.

(** [s.strip("{}")] *)
Definition is_brace (c : ascii) : bool := Ascii.eqb c "{" || Ascii.eqb c "}".
Fixpoint lstrip_braces (s : string) : string :=
  match s with
  | String c s' => if is_brace c then lstrip_braces s' else s
  | EmptyString => ""
  end.
Fixpoint rstrip_braces (s : string) : string :=
  match s with
  | String c s' =>
      let t := rstrip_braces s' in
      if is_brace c && bool_decide (t = "") then "" else String c t
  | EmptyString => ""
  end.

Definition uuid_digits (s : string) : string :=
  remove_all "-" (rstrip_braces (lstrip_braces (remove_all "uuid:" (remove_all "urn:" s)))).

(** [None] where [UUID(s)] raises [ValueError]. *)
Definition parse_uuid (s : string) : option uuid :=
  let h := uuid_digits s in
  if negb (py_len h =? 32) then None
  else match py_int 16 h with
       | Some n => if 0 <=? n then Some (Z.to_N n) else None
       | None => None
       end.

(** ** [datetime.isoformat()] *)

(** The [width] low decimal digits of [n]. *)
Fixpoint dec (width : nat) (n : Z) : string :=
  match width with
  | O => ""
  | S w => dec w (n / 10) +:+ chr (Z.to_N (48 + n mod 10))
  end.

(** The proleptic Gregorian date of a day counted from 1970-01-01: years are
    counted from March, in cycles of 400. *)
Definition civil (days : Z) : Z * Z * Z :=
  let z := days + 719468 in
  let era := z / 146097 in
  let doe := z mod 146097 in
  let yoe := (doe - doe / 1460 + doe / 36524 - doe / 146096) / 365 in
  let doy := doe - (365 * yoe + yoe / 4 - yoe / 100) in
  let mp := (5 * doy + 2) / 153 in
  let m := if mp <? 10 then mp + 3 else mp - 9 in
  (yoe + era * 400 + (if m <=? 2 then 1 else 0), m, doy - (153 * mp + 2) / 5 + 1).

Definition micros (n : Z) : string :=
  if n mod 1000000 =? 0 then "" else "." +:+ dec 6 (n mod 1000000).

Definition offset_text (o : Z) : string :=
  let a := Z.abs o in
  let sec := a / 1000000 in
  (if o <? 0 then "-" else "+") +:+ dec 2 (sec / 3600) +:+ ":" +:+ dec 2 (sec / 60 mod 60)
    +:+ (if (sec mod 60 =? 0) && (a mod 1000000 =? 0) then ""
         else ":" +:+ dec 2 (sec mod 60) +:+ micros a).

Definition isoformat (t : datetime) : string :=
  let '(y, m, d) := civil (wall t / day) in
  let sec := wall t mod day / 1000000 in
  dec 4 y +:+ "-" +:+ dec 2 m +:+ "-" +:+ dec 2 d +:+ "T"
    +:+ dec 2 (sec / 3600) +:+ ":" +:+ dec 2 (sec / 60 mod 60) +:+ ":" +:+ dec 2 (sec mod 60)
    +:+ micros (wall t)
    +:+ match utcoffset t with Some o => offset_text o | None => "" end.

(** ** Facts *)

Example py_int_examples :
  py_int 10 " 1700000000 " = Some 1700000000 /\ py_int 10 "-1_0" = Some (-10)
  /\ py_int 10 "1__0" = None /\ py_int 10 "0x1" = None /\ py_int 10 "" = None /\ py_int 10 "1.5" = None
  /\ py_int 16 "0x_fF" = Some 255 /\ py_int 16 "0x" = None.
Proof. by_compute. Qed.

Example isoformat_examples :
  isoformat (utc (seconds 1709210096)) = "2024-02-29T12:34:56+00:00"
  /\ isoformat (Datetime (seconds 1709210096 + 7) None) = "2024-02-29T12:34:56.000007"
  /\ isoformat (Datetime (-1) (Some (- minutes 210))) = "1969-12-31T23:59:59.999999-03:30".
Proof. by_compute. Qed.

Lemma remove_from_absent sub c0 (p : ascii -> bool) s :
  p c0 = false -> str_forall p s = true -> remove_all (String c0 sub) s = s.
Proof.
  intros Hc. unfold remove_all. induction s as [|c s IH]; [done|]. cbn [str_forall]. intros [Hp Hs]%andb_true_iff.
  cbn -[Ascii.eqb]. unfold starts_with. cbn -[Ascii.eqb].
  destruct (Ascii.eqb c0 c) eqn:E; cbn; [|by rewrite IH].
  apply Ascii.eqb_eq in E as ->. congruence.
Qed.

Lemma remove_dash_app (a b : string) : remove_all "-" (a +:+ b) = remove_all "-" a +:+ remove_all "-" b.
Proof.
  induction a as [|c a IH]; [done|]. change (String c a +:+ b) with (String c (a +:+ b)).
  unfold remove_all in *. cbn -[Ascii.eqb]. unfold starts_with. cbn -[Ascii.eqb].
  destruct (Ascii.eqb "-" c); cbn; by rewrite IH.
Qed.

Lemma lstrip_braces_clean s : str_forall (fun c => negb (is_brace c)) s = true -> lstrip_braces s = s.
Proof. destruct s as [|c s]; [done|]. cbn. by destruct (is_brace c). Qed.

Lemma rstrip_braces_clean s : str_forall (fun c => negb (is_brace c)) s = true -> rstrip_braces s = s.
Proof.
  induction s as [|c s IH]; [done|]. cbn. intros [Hc%negb_true_iff Hs]%andb_true_iff.
  by rewrite IH, Hc.
Qed.

Lemma string_app_nil (a : string) : a +:+ "" = a.
Proof. induction a as [|c a IH]; [done|]. change (String c a +:+ "") with (String c (a +:+ "")). congruence. Qed.

Lemma string_app_assoc (a b c : string) : (a +:+ b) +:+ c = a +:+ b +:+ c.
Proof.
  induction a as [|x a IH]; [done|].
  change (String x ((a +:+ b) +:+ c) = String x (a +:+ b +:+ c)). by rewrite IH.
Qed.

Lemma hex_app a b n : hex (a + b) n = hex a (n / 16 ^ N.of_nat b) +:+ hex b n.
Proof.
  revert n. induction b as [|b IH]; intros n.
  - rewrite Nat.add_0_r, N.pow_0_r, N.div_1_r. cbn. by rewrite string_app_nil.
  - replace (a + S b)%nat with (S (a + b)) by lia. cbn. rewrite IH.
    rewrite N.Div0.div_div, <- N.pow_succ_r', <- Nat2N.inj_succ.
    by rewrite string_app_assoc.
Qed.

Lemma digits_step base ok acc c d s :
  digit_value c = Some d -> (d < base)%N -> digits base ok acc (String c s) = digits base true (acc * base + d) s.
Proof.
  intros Hc Hd. cbn. destruct (Ascii.eqb c "_") eqn:E.
  - apply Ascii.eqb_eq in E as ->. done.
  - rewrite Hc. by apply N.ltb_lt in Hd as ->.
Qed.

Lemma hex_digit_value n : (n < 16)%N -> exists c, hex_digit n = String c "" /\ digit_value c = Some n.
Proof.
  intros Hn. exists (match hex_digit n with String c _ => c | _ => " "%char end).
  assert (Hall : forallb (fun k => let n := N.of_nat k in
    match hex_digit n with String c "" => bool_decide (digit_value c = Some n) | _ => false end)
    (List.seq 0 16) = true) by reflexivity.
  rewrite forallb_forall in Hall. specialize (Hall (N.to_nat n)). rewrite N2Nat.id in Hall.
  cbn zeta in Hall. destruct (hex_digit n) as [|c [|]]; try (exfalso; cut (false = true); [done|]; apply Hall, in_seq; lia).
  split; [done|]. apply (bool_decide_eq_true_1 _), Hall, in_seq. lia.
Qed.

(** Reading hexadecimal digits gives the number they write. *)
Lemma digits_hex w n ok acc rest :
  digits 16 ok acc (hex (S w) n +:+ rest)
  = digits 16 true (acc * 16 ^ N.of_nat (S w) + n mod 16 ^ N.of_nat (S w)) rest.
Proof.
  revert n ok acc rest. induction w as [|w IH]; intros n ok acc rest.
  - destruct (hex_digit_value (n mod 16)) as (c & Hc & Hv); [apply N.mod_lt; lia|].
    change (hex 1 n) with (hex_digit (n mod 16)). rewrite Hc.
    change (String c "" +:+ rest) with (String c rest).
    rewrite (digits_step _ _ _ _ _ _ Hv) by (apply N.mod_lt; lia). done.
  - change (hex (S (S w)) n) with (hex (S w) (n / 16) +:+ hex_digit (n mod 16)).
    rewrite string_app_assoc, IH.
    destruct (hex_digit_value (n mod 16)) as (c & Hc & Hv); [apply N.mod_lt; lia|]. rewrite Hc.
    change (String c "" +:+ rest) with (String c rest).
    rewrite (digits_step _ _ _ _ _ _ Hv) by (apply N.mod_lt; lia). f_equal.
    rewrite (Nat2N.inj_succ (S w)), N.pow_succ_r', (N.Div0.mod_mul_r n 16) by lia. lia.
Qed.

Lemma lower_hex_not c d : is_lower_hex d = false -> is_lower_hex c = true -> Ascii.eqb c d = false.
Proof. intros Hd Hc. destruct (Ascii.eqb c d) eqn:E; [|done]. apply Ascii.eqb_eq in E as ->. congruence. Qed.

Lemma unsigned_hex s : str_forall is_lower_hex s = true -> unsigned 16 s = digits 16 false 0 s.
Proof.
  destruct s as [|z [|x rest]]; [done..|]. cbn [str_forall]. rewrite !andb_true_iff. intros (_ & Hx & _).
  unfold unsigned. by rewrite (lower_hex_not x "x"), (lower_hex_not x "X"), !andb_false_r.
Qed.

Lemma strip_clean s : str_forall (fun c => negb (is_space c)) s = true -> strip s = s.
Proof.
  intros Hs. unfold strip. replace (lstrip s) with s.
  2: { destruct s as [|c s]; [done|]. cbn in *. by destruct (is_space c). }
  induction s as [|c s IH]; [done|]. cbn in *. apply andb_true_iff in Hs as [Hc%negb_true_iff Hs].
  by rewrite (IH Hs), Hc.
Qed.

Lemma lower_hex_space c : is_lower_hex c = true -> negb (is_space c) = true.
Proof. destruct c as [[] [] [] [] [] [] [] []]; done. Qed.

Lemma py_int_hex w n : py_int 16 (hex (S w) n) = Some (Z.of_N (n mod 16 ^ N.of_nat (S w))).
Proof.
  destruct (hex_format (S w) n) as [Hlen Hhex]. unfold py_int.
  rewrite strip_clean by (eapply str_forall_impl, Hhex; apply lower_hex_space).
  destruct (hex (S w) n) as [|c rest] eqn:E; [done|].
  pose proof Hhex as Hc. cbn in Hc. apply andb_true_iff in Hc as [Hc _].
  rewrite !(lower_hex_not c) by done. rewrite unsigned_hex by done. rewrite <- E.
  rewrite <- (string_app_nil (hex _ _)), digits_hex. cbn. by rewrite N.add_0_l.
Qed.

Lemma py_len_ascii s : str_forall (fun c => (N_of_ascii c <? 128)%N) s = true -> py_len s = Z.of_nat (String.length s).
Proof.
  unfold py_len. intros Hs. f_equal. induction s as [|c s IH]; [done|].
  cbn [str_forall] in Hs. apply andb_true_iff in Hs as [Hc Hs]. cbn [utf8_points String.length].
  apply N.ltb_lt in Hc. replace (N_of_ascii c <? 194)%N with true by (symmetry; apply N.ltb_lt; lia).
  cbn [length]. by rewrite IH.
Qed.

(** A [UUID] survives being written and read again. *)
Lemma parse_uuid_str u : (u < 2 ^ 128)%N -> parse_uuid (uuid_str u) = Some u.
Proof.
  intros Hu.
  assert (Hclean : str_forall (fun c => is_lower_hex c || Ascii.eqb c "-") (uuid_str u) = true).
  { unfold uuid_str. rewrite !str_forall_app.
    assert (Hh : forall w n, str_forall (fun c => is_lower_hex c || Ascii.eqb c "-") (hex w n) = true).
    { intros w n. eapply str_forall_impl, hex_format. by intros c ->. }
    by rewrite !Hh. }
  assert (Hd : uuid_digits (uuid_str u) = hex 32 u).
  { unfold uuid_digits. rewrite (remove_from_absent "rn:" _ (fun c => is_lower_hex c || Ascii.eqb c "-")) by done.
    rewrite (remove_from_absent "uid:" _ (fun c => is_lower_hex c || Ascii.eqb c "-")) by done.
    assert (Hb : str_forall (fun c => negb (is_brace c)) (uuid_str u) = true).
    { eapply str_forall_impl, Hclean. intros [[] [] [] [] [] [] [] []]; done. }
    rewrite lstrip_braces_clean, rstrip_braces_clean by done. unfold uuid_str.
    assert (Hh : forall w n, remove_all "-" (hex w n) = hex w n).
    { intros w n. eapply (remove_from_absent _ _ is_lower_hex); [done|apply hex_format]. }
    rewrite !remove_dash_app, !Hh.
    change (hex 32 u) with (hex (8 + (4 + (4 + (4 + 12)))) u). by rewrite !hex_app. }
  unfold parse_uuid. rewrite Hd.
  destruct (hex_format 32 u) as [Hlen Hhex].
  rewrite py_len_ascii, Hlen by (eapply str_forall_impl, Hhex; intros [[] [] [] [] [] [] [] []]; done).
  change (negb (Z.of_nat 32 =? 32)) with false. cbv iota.
  rewrite py_int_hex, N.mod_small by done.
  replace (0 <=? Z.of_N u) with true by (symmetry; apply Z.leb_le; lia). by rewrite N2Z.id.
Qed.
