(* ===== verification/SocialTables.v ===== *)
(** * Social publishing: domain and tables

    The enumerations and records of [src/app/social/domain.py], and the tables
    of migrations 0036, 0037 and 0038 that [SqlSocialRepository] reads and
    writes, with the constraints an [INSERT] or [UPDATE] is checked against.
    Of [integration_event], [integration_delivery] and [outbox_event], which
    other parts share, the rows the social code writes are kept.  Columns that
    this code neither reads nor writes ([max_attempts], [locked_at],
    [provider_request_id], [duration_ms] and the like) are left out. *)

From Stdlib Require Import Ascii.
From S2P Require Import Prelude PyText Sha256 Txn PyTime PyUnicode PyParse.
Local Open Scope string_scope.
Local Open Scope Z_scope.

Module SocialTables.

(** ** Domain *)

Inductive ProviderName := DISABLED | POSTLY | HOOTSUITE.
Inductive SocialPostStatus :=
  | DRAFT | QUEUED | SCHEDULED | PUBLISHING | PUBLISHED | FAILED | CANCELLED | DELETED
  | REQUIRES_ACTION | UNKNOWN.
Inductive Capability :=
  | POST_CREATE | POST_UPDATE | POST_DELETE | POST_SCHEDULE | POST_CANCEL | POST_PUBLISH
  | MEDIA_UPLOAD | IMAGE_POST | VIDEO_POST | MULTI_IMAGE | COMMENT_READ | COMMENT_REPLY
  | MESSAGE_READ | MESSAGE_REPLY | ANALYTICS | WEBHOOK_EVENTS.
Inductive JobType :=
  | CREATE | SCHEDULE | PUBLISH | CANCEL | DELETE | UPLOAD_MEDIA | ACCOUNT_SYNC | ANALYTICS_SYNC
  | WEBHOOK_PROCESS.
Inductive SocialNetwork :=
  | FACEBOOK | INSTAGRAM | LINKEDIN | X | TIKTOK | YOUTUBE | PINTEREST | THREADS | GOOGLE_BUSINESS
  | OTHER.

#[export] Instance ProviderName_eq_dec : EqDecision ProviderName.
Proof. solve_decision. Defined.
#[export] Instance SocialPostStatus_eq_dec : EqDecision SocialPostStatus.
Proof. solve_decision. Defined.
#[export] Instance Capability_eq_dec : EqDecision Capability.
Proof. solve_decision. Defined.
#[export] Instance JobType_eq_dec : EqDecision JobType.
Proof. solve_decision. Defined.
#[export] Instance SocialNetwork_eq_dec : EqDecision SocialNetwork.
Proof. solve_decision. Defined.

(** A member's [.value]. *)
Definition provider_value (p : ProviderName) : string :=
  match p with DISABLED => "disabled" | POSTLY => "postly" | HOOTSUITE => "hootsuite" end.
Definition status_value (s : SocialPostStatus) : string :=
  match s with
  | DRAFT => "DRAFT" | QUEUED => "QUEUED" | SCHEDULED => "SCHEDULED" | PUBLISHING => "PUBLISHING"
  | PUBLISHED => "PUBLISHED" | FAILED => "FAILED" | CANCELLED => "CANCELLED" | DELETED => "DELETED"
  | REQUIRES_ACTION => "REQUIRES_ACTION" | UNKNOWN => "UNKNOWN"
  end.
Definition job_type_value (j : JobType) : string :=
  match j with
  | CREATE => "SOCIAL_POST_CREATE" | SCHEDULE => "SOCIAL_POST_SCHEDULE"
  | PUBLISH => "SOCIAL_POST_PUBLISH" | CANCEL => "SOCIAL_POST_CANCEL"
  | DELETE => "SOCIAL_POST_DELETE" | UPLOAD_MEDIA => "SOCIAL_MEDIA_UPLOAD"
  | ACCOUNT_SYNC => "SOCIAL_ACCOUNT_SYNC" | ANALYTICS_SYNC => "SOCIAL_ANALYTICS_SYNC"
  | WEBHOOK_PROCESS => "SOCIAL_WEBHOOK_PROCESS"
  end.
(** [action.name] *)
Definition job_type_name (j : JobType) : string :=
  match j with
  | CREATE => "CREATE" | SCHEDULE => "SCHEDULE" | PUBLISH => "PUBLISH" | CANCEL => "CANCEL"
  | DELETE => "DELETE" | UPLOAD_MEDIA => "MEDIA_UPLOAD" | ACCOUNT_SYNC => "ACCOUNT_SYNC"
  | ANALYTICS_SYNC => "ANALYTICS_SYNC" | WEBHOOK_PROCESS => "WEBHOOK_PROCESS"
  end.
Definition network_value (n : SocialNetwork) : string :=
  match n with
  | FACEBOOK => "facebook" | INSTAGRAM => "instagram" | LINKEDIN => "linkedin" | X => "x"
  | TIKTOK => "tiktok" | YOUTUBE => "youtube" | PINTEREST => "pinterest" | THREADS => "threads"
  | GOOGLE_BUSINESS => "google_business" | OTHER => "other"
  end.

Definition all_providers : list ProviderName := [DISABLED; POSTLY; HOOTSUITE].
Definition all_statuses : list SocialPostStatus :=
  [DRAFT; QUEUED; SCHEDULED; PUBLISHING; PUBLISHED; FAILED; CANCELLED; DELETED; REQUIRES_ACTION; UNKNOWN].
Definition all_job_types : list JobType :=
  [CREATE; SCHEDULE; PUBLISH; CANCEL; DELETE; UPLOAD_MEDIA; ACCOUNT_SYNC; ANALYTICS_SYNC; WEBHOOK_PROCESS].
Definition all_networks : list SocialNetwork :=
  [FACEBOOK; INSTAGRAM; LINKEDIN; X; TIKTOK; YOUTUBE; PINTEREST; THREADS; GOOGLE_BUSINESS; OTHER].

(** [Enum(value)]; [None] where it raises [ValueError]. *)
Definition by_value {E} (value : E -> string) (members : list E) (s : string) : option E :=
  List.find (fun m => bool_decide (value m = s)) members.
Definition parse_provider : string -> option ProviderName := by_value provider_value all_providers.
Definition parse_status : string -> option SocialPostStatus := by_value status_value all_statuses.
Definition parse_job_type : string -> option JobType := by_value job_type_value all_job_types.

(** [normalize_network] *)
Definition NETWORK_ALIASES : list (string * SocialNetwork) :=
  [("twitter", X); ("x/twitter", X); ("googlebusiness", GOOGLE_BUSINESS);
   ("google_business_profile", GOOGLE_BUSINESS)].
Fixpoint replace_char (a b : ascii) (s : string) : string :=
  match s with
  | EmptyString => ""
  | String c s' => String (if Ascii.eqb c a then b else c) (replace_char a b s')
  end.
Definition normalize_network (value : string) : SocialNetwork :=
  let normalized := replace_char " " "_" (replace_char "-" "_" (str_lower (strip value))) in
  match dict_get NETWORK_ALIASES normalized with
  | Some n => n
  | None => coalesce (by_value network_value all_networks normalized) OTHER
  end.

Definition object := list (string * json).

Record SocialPost := mkPost {
  tenant_id : uuid;
  provider : ProviderName;
  account_ids : list uuid;
  content : object;
  id : uuid;
  campaign_id : option uuid;
  provider_post_id : option string;
  status : SocialPostStatus;
  publish_at : option datetime;
  metadata : object;
  created_at : Z;
  updated_at : Z;
}.

Record ProviderResult := mkResult {
  r_provider_post_id : option string;
  r_status : SocialPostStatus;
}.

Record NormalizedEvent := mkNormalized {
  n_event_type : string;
  n_provider : ProviderName;
  n_subject_id : uuid;
  n_correlation_id : string;
  n_tenant_id : uuid;
  n_payload : object;
  n_event_id : uuid;
  n_event_version : Z;
  n_occurred_at : Z;
}.

(** ** Rows *)

Record account_row := mkAccountRow {
  ac_id : uuid;
  ac_tenant_id : uuid;
  ac_provider : string;
  ac_provider_account_id : string;
  ac_network : string;
  ac_external_profile_name : string;
  ac_external_profile_id : string;
  ac_connection_state : string;
  ac_capabilities : json;
  ac_metadata : object;
  ac_created_at : Z;
  ac_updated_at : Z;
  ac_last_sync_at : option Z;
}.

Record post_row := mkPostRow {
  po_id : uuid;
  po_tenant_id : uuid;
  po_campaign_id : option uuid;
  po_provider : string;
  po_provider_post_id : option string;
  po_status : string;
  po_content : object;
  po_publish_at : option Z;
  po_metadata : object;
  po_created_at : Z;
  po_updated_at : Z;
}.
#[export] Instance post_row_eta : Eta post_row := fun r =>
  mkPostRow (po_id r) (po_tenant_id r) (po_campaign_id r) (po_provider r) (po_provider_post_id r)
    (po_status r) (po_content r) (po_publish_at r) (po_metadata r) (po_created_at r) (po_updated_at r).

Record job_row := mkJobRow {
  jb_id : uuid;
  jb_tenant_id : uuid;
  jb_social_post_id : uuid;
  jb_provider : string;
  jb_job_type : string;
  jb_state : string;
  jb_attempt_count : Z;
  jb_correlation_id : string;
  jb_request_id : string;
  jb_idempotency_key : string;
  jb_next_attempt_at : option Z;
  jb_last_error_code : option string;
  jb_last_error_summary : option string;
  jb_created_at : Z;
  jb_updated_at : Z;
  jb_failed_at : option Z;
  jb_lease_owner : option string;
  jb_lease_expires_at : option Z;
  jb_fencing_token : Z;
  jb_result_certainty : string;
  jb_production_canary : bool;
  jb_production_account_id : option uuid;
  jb_content_approved_at : option Z;
}.
#[export] Instance job_row_eta : Eta job_row := fun r =>
  mkJobRow (jb_id r) (jb_tenant_id r) (jb_social_post_id r) (jb_provider r) (jb_job_type r)
    (jb_state r) (jb_attempt_count r) (jb_correlation_id r) (jb_request_id r) (jb_idempotency_key r)
    (jb_next_attempt_at r) (jb_last_error_code r) (jb_last_error_summary r) (jb_created_at r)
    (jb_updated_at r) (jb_failed_at r) (jb_lease_owner r) (jb_lease_expires_at r)
    (jb_fencing_token r) (jb_result_certainty r) (jb_production_canary r)
    (jb_production_account_id r) (jb_content_approved_at r).

Record attempt_row := mkAttemptRow {
  at_job_id : uuid;
  at_attempt_number : Z;
  at_result : string;
  at_error_code : option string;
  at_error_summary : option string;
  at_created_at : Z;
}.

(** The primary key [(tenant_id, action, subject_id, key_hash)] and the rest. *)
Definition idempotency_key : Type := uuid * string * uuid * string.
Record idempotency_row := mkIdempotencyRow {
  ir_request_hash : string;
  ir_social_post_id : uuid;
  ir_job_id : uuid;
}.

(** [social_idempotency_records], the latest first, and the record of a key. *)
Definition key_records : Type := list (idempotency_key * idempotency_row).
Definition find_key (key : idempotency_key) (t : key_records) : option idempotency_row :=
  snd <$> List.find (fun kr => bool_decide (kr.1 = key)) t.

Record audit_row := mkAuditRow {
  au_tenant_id : uuid;
  au_actor_id : string;
  au_action : string;
  au_social_post_id : option uuid;
  au_campaign_id : option uuid;
  au_provider : string;
  au_account_id : option uuid;
  au_correlation_id : string;
  au_request_id : string;
  au_job_id : option uuid;
  au_key_hash : option string;
  au_result : string;
  au_error_code : option string;
  au_metadata : object;
}.

Record webhook_row := mkWebhookRow {
  wh_provider : string;
  wh_provider_event_id : string;
  wh_payload_hash : string;
  wh_state : string;
  wh_correlation_id : string;
  wh_safe_payload : object;
  wh_normalized_event_type : string;
  wh_subject_id : uuid;
  wh_tenant_id : uuid;
  wh_received_at : Z;
}.

Record provider_event_row := mkProviderEventRow {
  pe_event_type : string;
  pe_event_version : Z;
  pe_occurred_at : Z;
  pe_correlation_id : string;
  pe_tenant_id : uuid;
  pe_provider : string;
  pe_subject_id : uuid;
  pe_payload : object;
}.

Record integration_row := mkIntegrationRow {
  ie_idempotency_key : string;
  ie_event_type : string;
  ie_original_event_id : string;
  ie_entity_key : string;
  ie_correlation_id : string;
  ie_payload : json;
  ie_payload_hash : string;
  ie_state : string;
}.

Record outbox_row := mkOutboxRow {
  ob_topic : string;
  ob_payload : json;
  ob_correlation_id : string;
  ob_status : string;
  ob_attempts : Z;
}.

Record db := mkDb {
  accounts : gmap uuid account_row;
  (** the keys of [social_campaigns] *)
  campaigns : gset uuid;
  posts : gmap uuid post_row;
  (** [social_post_accounts]: post and account, in the order of insertion *)
  post_accounts : list (uuid * uuid);
  jobs : gmap uuid job_row;
  attempts : gmap uuid attempt_row;
  idempotency : key_records;
  audits : gmap uuid audit_row;
  webhooks : gmap uuid webhook_row;
  provider_events : gmap uuid provider_event_row;
  (** [integration_event] and its next serial number *)
  events : gmap Z integration_row;
  next_event : Z;
  (** [integration_delivery]: the event and the target *)
  deliveries : gset (Z * string);
  outbox : gmap uuid outbox_row;
}.
#[export] Instance db_eta : Eta db := fun d =>
  mkDb (accounts d) (campaigns d) (posts d) (post_accounts d) (jobs d) (attempts d) (idempotency d)
    (audits d) (webhooks d) (provider_events d) (events d) (next_event d) (deliveries d) (outbox d).

(** ** Inserts and their constraints *)

Definition absent {K V} `{Countable K} (p : V -> bool) (t : gmap K V) : bool :=
  match select_where p t with [] => true | _ => false end.

Lemma social_absent_true {K V} `{Countable K} (p : V -> bool) (t : gmap K V) :
  absent p t = true <-> forall k v, t !! k = Some v -> p v = false.
Proof.
  unfold absent. destruct (select_where p t) as [|v l] eqn:E; split; try done.
  - intros _ k v Hv. destruct (p v) eqn:Hp; [|done]. exfalso.
    assert (Hin : v ∈ select_where p t) by (apply elem_of_select_where; eauto).
    rewrite E in Hin. by apply not_elem_of_nil in Hin.
  - intros Hall. assert (Hin : v ∈ select_where p t) by (rewrite E; left).
    apply elem_of_select_where in Hin as [Hp [k Hk]]. by rewrite (Hall k v Hk) in Hp.
Qed.

(** Every record of [t] is still found in [t']. *)
Definition keeps_keys (t t' : key_records) : Prop :=
  forall key r, find_key key t = Some r -> find_key key t' = Some r.

#[export] Instance keeps_keys_preorder : PreOrder keeps_keys.
Proof. split; [by intros t key r|]. intros t t' t'' H H' key r Hr. by apply H', H. Qed.

Lemma find_key_cons key r t : find_key key ((key, r) :: t) = Some r.
Proof. unfold find_key. cbn. by rewrite bool_decide_true. Qed.

Lemma keeps_keys_cons key r t : find_key key t = None -> keeps_keys t ((key, r) :: t).
Proof.
  intros Hn key' r' Hr. unfold find_key in *. cbn. case_bool_decide; [|done]. cbn in *. subst. congruence.
Qed.

Definition references {K V} `{Countable K} (key : option K) (t : gmap K V) : bool :=
  match key with Some k => negb (is_null (t !! k)) | None => true end.

(** The rows of [social_providers]. *)
Definition known_provider (p : string) : bool := str_in p ["postly"; "hootsuite"].

Definition same_reference (p ref : string) (r : post_row) : bool :=
  bool_decide (po_provider r = p) && bool_decide (po_provider_post_id r = Some ref).

Definition insert_post (r : post_row) (d : db) : option db :=
  if is_null (posts d !! po_id r)
     && match po_campaign_id r with Some c => bool_decide (c ∈ campaigns d) | None => true end
     && known_provider (po_provider r)
     && match po_provider_post_id r with
        | Some ref => absent (same_reference (po_provider r) ref) (posts d)
        | None => true
        end
  then Some (d <| posts ::= <[po_id r := r]> |>) else None.

Definition insert_post_account (post account : uuid) (d : db) : option db :=
  if references (Some post) (posts d) && references (Some account) (accounts d)
     && negb (bool_decide ((post, account) ∈ post_accounts d))
  then Some (d <| post_accounts ::= fun l => (l ++ [(post, account)])%list |>) else None.

Definition same_request (r x : job_row) : bool :=
  bool_decide (jb_tenant_id x = jb_tenant_id r) && bool_decide (jb_job_type x = jb_job_type r)
  && bool_decide (jb_social_post_id x = jb_social_post_id r)
  && bool_decide (jb_idempotency_key x = jb_idempotency_key r).

Definition insert_job (r : job_row) (d : db) : option db :=
  if is_null (jobs d !! jb_id r) && references (Some (jb_social_post_id r)) (posts d)
     && known_provider (jb_provider r) && absent (same_request r) (jobs d)
     && references (jb_production_account_id r) (accounts d)
  then Some (d <| jobs ::= <[jb_id r := r]> |>) else None.

Definition numbered (job : uuid) (n : Z) (x : attempt_row) : bool :=
  bool_decide (at_job_id x = job) && (at_attempt_number x =? n).

Definition insert_attempt (key : uuid) (r : attempt_row) (d : db) : option db :=
  if is_null (attempts d !! key) && references (Some (at_job_id r)) (jobs d)
     && absent (numbered (at_job_id r) (at_attempt_number r)) (attempts d)
  then Some (d <| attempts ::= <[key := r]> |>) else None.

Definition insert_audit (key : uuid) (r : audit_row) (d : db) : option db :=
  if is_null (audits d !! key) && references (au_social_post_id r) (posts d)
     && match au_campaign_id r with Some c => bool_decide (c ∈ campaigns d) | None => true end
     && references (au_account_id r) (accounts d)
  then Some (d <| audits ::= <[key := r]> |>) else None.

Definition insert_provider_event (key : uuid) (r : provider_event_row) (d : db) : option db :=
  if is_null (provider_events d !! key) && known_provider (pe_provider r)
  then Some (d <| provider_events ::= <[key := r]> |>) else None.

(** [varchar(n)] *)
Definition fits (n : Z) (s : string) : bool := py_len s <=? n.

Definition insert_event (r : integration_row) (d : db) : option db :=
  if fits 255 (ie_idempotency_key r) && fits 100 (ie_event_type r) && fits 128 (ie_original_event_id r)
     && fits 256 (ie_entity_key r) && fits 128 (ie_correlation_id r)
     && absent (fun x => bool_decide (ie_original_event_id x = ie_original_event_id r)) (events d)
  then Some (d <| events ::= <[next_event d := r]> |> <| next_event ::= Z.succ |>) else None.

Definition insert_outbox (key : uuid) (r : outbox_row) (d : db) : option db :=
  if is_null (outbox d !! key) && fits 128 (ob_correlation_id r)
  then Some (d <| outbox ::= <[key := r]> |>) else None.
End SocialTables.
