(* ===== verification/SocialRepo.v ===== *)
(** * Social publishing: the SQL repository

    Every method of [SqlSocialRepository] ([src/app/social/sql_repository.py])
    that the API and the worker call, as a transaction on the tables.  [now()]
    is the time of the transaction; [datetime.now()], which [fail_job] reads,
    is an argument.  A [jsonb] column keeps the members of an object; nothing
    depends on their order. *)

From Stdlib Require Import Ascii.
From S2P Require Import Prelude PyText Sha256 Txn PyTime PyUnicode PyParse SocialTables.
Import SocialTables.
Local Open Scope string_scope.
Local Open Scope Z_scope.

Module SocialRepo.

Definition ZERO_UUID : uuid := 0%N.

Definition sha256_text (s : string) : string := sha256_hex s.
(** [json.dumps(v, sort_keys=True)] *)
Definition json_sorted : json_style := JsonStyle true ", " ": ".

Definition opt_str (o : option string) : json := match o with Some s => JStr s | None => JNull end.

(** [SocialError(code, message, status_code=...)] *)
Definition social_error (code message : string) (status_code : Z) : exn :=
  SocialError code message false status_code false.

(** What [asyncpg] takes for a [timestamptz]: an aware datetime. *)
Definition timestamptz (t : option datetime) : exn + option Z :=
  match t with
  | None => inr None
  | Some t => if aware t then inr (Some (instant t)) else inl (RuntimeError "DataError")
  end.

(** ** Idempotency *)

(** [INSERT ... ON CONFLICT DO NOTHING], then the reserved row or the one that
    was there. *)
Definition reserve (key : idempotency_key) (r : idempotency_row) : M db (option idempotency_row) :=
  existing ← query (fun d => find_key key (idempotency d));
  match existing with
  | Some old => mret (Some old)
  | None => execute (fun d => d <| idempotency ::= cons (key, r) |>) ;; mret None
  end.

Definition conflict : exn :=
  social_error "SOCIAL_IDEMPOTENCY_CONFLICT" "Idempotency key was used with a different request" 409.

(** ** [_audit] *)
Definition audit (tenant : uuid) (action : string) (post : uuid) (campaign : option uuid)
    (p : ProviderName) (correlation request : string) (job : uuid) (key_hash result : string)
    (account : option uuid) : M db unit :=
  key ← uuid4;
  insert_or "social_audit_events" (insert_audit key
    (mkAuditRow tenant "codestra-social-api" action (Some post) campaign (provider_value p) account
       correlation request (Some job) (Some key_hash) result None [])).

Definition signal (job : uuid) (correlation : string) : M db unit :=
  key ← uuid4;
  insert_or "outbox_event" (insert_outbox key
    (mkOutboxRow "social.job.signal"
       (JObj [("job_id", JStr (uuid_str job)); ("correlation_id", JStr correlation)])
       correlation "pending" 0)).

(** ** [create_post_intent] *)
Record intent := mkIntent {
  in_tenant_id : uuid;
  in_provider : ProviderName;
  in_account_ids : list uuid;
  in_content : object;
  in_campaign_id : option uuid;
  in_publish_at : option datetime;
  in_metadata : object;
  in_idempotency_key : string;
  in_correlation_id : string;
  in_request_id : string;
  in_post_id : option uuid;
}.

Definition intent_action (i : intent) : JobType :=
  match in_publish_at i with Some _ => SCHEDULE | None => CREATE end.

Definition intent_hash (i : intent) : string :=
  sha256_text (json_dumps json_canonical (JObj
    [("accounts", JList ((fun a => JStr (uuid_str a)) <$> in_account_ids i));
     ("content", JObj (in_content i));
     ("campaign_id", opt_str (uuid_str <$> in_campaign_id i));
     ("publish_at", opt_str (isoformat <$> in_publish_at i));
     ("metadata", JObj (in_metadata i))])).

Definition intent_key (i : intent) : idempotency_key :=
  (in_tenant_id i, job_type_value (intent_action i), ZERO_UUID, sha256_text (in_idempotency_key i)).

(** A job as it is inserted: the other columns take their defaults. *)
Definition new_job (job tenant post : uuid) (p : ProviderName) (action : JobType)
    (correlation request key_hash : string) (account : option uuid) (canary : bool)
    (approved_at : option Z) (t : Z) : job_row :=
  mkJobRow job tenant post (provider_value p) (job_type_value action) "queued" 0 correlation request
    key_hash None None None t t None None None 0 "NOT_SENT" canary account approved_at.

(** The inserts behind a new idempotency record. *)
Definition store_intent (i : intent) (post job : uuid) : M db (uuid * uuid * bool) :=
  let key_hash := sha256_text (in_idempotency_key i) in
  t ← now;
  publish_at ← match timestamptz (in_publish_at i) with inr o => mret o | inl e => raise e end;
  insert_or "social_posts" (insert_post
    (mkPostRow post (in_tenant_id i) (in_campaign_id i) (provider_value (in_provider i)) None
       "QUEUED" (in_content i) publish_at (in_metadata i) t t)) ;;
  for_each (in_account_ids i) (fun account =>
    insert_or "social_post_accounts" (insert_post_account post account)) ;;
  insert_or "social_publish_jobs" (insert_job
    (new_job job (in_tenant_id i) post (in_provider i) (intent_action i) (in_correlation_id i)
       (in_request_id i) key_hash None false None t)) ;;
  audit (in_tenant_id i) "POST_CREATED" post (in_campaign_id i) (in_provider i)
    (in_correlation_id i) (in_request_id i) job key_hash "QUEUED" None ;;
  signal job (in_correlation_id i) ;;
  commit ;;
  mret (post, job, true).

Definition create_post_intent (i : intent) : M db (uuid * uuid * bool) :=
  post ← match in_post_id i with Some p => mret p | None => uuid4 end;
  job ← uuid4;
  existing ← reserve (intent_key i) (mkIdempotencyRow (intent_hash i) post job);
  match existing with
  | Some old =>
      guard_or (bool_decide (ir_request_hash old = intent_hash i)) conflict ;;
      rollback ;;
      mret (ir_social_post_id old, ir_job_id old, false)
  | None => store_intent i post job
  end.

(** ** [get_post], [list_accounts], [update_post] *)

Definition accounts_of (post : uuid) (d : db) : list uuid :=
  snd <$> List.filter (fun pa => bool_decide (pa.1 = post)) (post_accounts d).

Definition post_of_row (d : db) (r : post_row) : exn + SocialPost :=
  match parse_provider (po_provider r), parse_status (po_status r) with
  | Some p, Some st =>
      inr (mkPost (po_tenant_id r) p (accounts_of (po_id r) d) (po_content r) (po_id r)
             (po_campaign_id r) (po_provider_post_id r) st (utc <$> po_publish_at r)
             (po_metadata r) (po_created_at r) (po_updated_at r))
  | _, _ => inl (ValueError "not a valid member")
  end.

Definition post_not_found : exn :=
  social_error "SOCIAL_POST_NOT_FOUND" "Social post was not found" 404.

Definition get_post (post : uuid) : M db SocialPost :=
  row ← query (fun d => posts d !! post);
  row ← some_or row post_not_found;
  p ← query (fun d => post_of_row d row);
  match p with inr p => mret p | inl e => raise e end.

(** [metadata->>'classification'] with its default. *)
Definition classification (m : object) : string :=
  match json_get "classification" (JObj m) with
  | Some (JStr s) => s
  | Some (JBool b) => if b then "true" else "false"
  | Some (JInt n) => str_of_Z n
  | Some (JFloat r) => r
  | Some (JList _ as v) | Some (JObj _ as v) => json_dumps json_default v
  | Some JNull | None => "UNKNOWN"
  end.

Definition by_created {V} (created : V -> Z) (key : V -> uuid) (a b : V) : bool :=
  (created a <? created b) || ((created a =? created b) && (key a <=? key b)%N).

Definition list_accounts (account : option uuid) : M db (list (account_row * string)) :=
  query (fun d => (fun r => (r, classification (ac_metadata r))) <$>
    sort_by (by_created ac_created_at ac_id)
      (select_where (fun r => filter_eq account (ac_id r)) (accounts d))).

Definition editable (st : string) : bool := str_in st ["DRAFT"; "QUEUED"; "SCHEDULED"].

Definition update_post (post : uuid) (new_content new_metadata : option object)
    (correlation request : string) : M db SocialPost :=
  t ← now;
  row ← query (fun d => posts d !! post);
  let editable_row := match row with Some r => if editable (po_status r) then Some r else None | None => None end in
  match editable_row with
  | None =>
      raise (match row with
             | Some _ => social_error "SOCIAL_POST_NOT_EDITABLE" "Social post cannot be edited" 409
             | None => social_error "SOCIAL_POST_NOT_FOUND" "Social post cannot be edited" 404
             end)
  | Some r =>
      execute (fun d => d <| posts ::= <[post :=
        r <| po_content ::= coalesce new_content |> <| po_metadata ::= coalesce new_metadata |>
          <| po_updated_at := t |>]> |>) ;;
      key ← uuid4;
      insert_or "social_audit_events" (insert_audit key
        (mkAuditRow (po_tenant_id r) "codestra-social-api" "POST_UPDATED" (Some post)
           (po_campaign_id r) (po_provider r) None correlation request None None "UPDATED" None [])) ;;
      commit ;;
      get_post post
  end.

(** ** Accounts of a post *)

(** The join of [social_accounts] with [social_post_accounts], by account. *)
Definition joined_accounts (post : uuid) (d : db) : list account_row :=
  sort_by (fun a b => (ac_id a <=? ac_id b)%N)
    (omap (fun a => accounts d !! a) (accounts_of post d)).

(** [dict(row["metadata"]).get("classification") != "STAGING_SAFE"] *)
Definition staging_safe (r : account_row) : bool :=
  bool_decide (ac_connection_state r = "connected")
  && match json_get "classification" (JObj (ac_metadata r)) with
     | Some (JStr s) => bool_decide (s = "STAGING_SAFE")
     | _ => false
     end.

Definition staging_provider_account_refs (post : uuid) : M db (list string) :=
  found ← query (joined_accounts post);
  match found with
  | [] => raise (social_error "SOCIAL_ACCOUNT_NOT_FOUND" "No social account is assigned" 422)
  | _ =>
      guard_or (forallb staging_safe found)
        (social_error "SOCIAL_ACCOUNT_NOT_STAGING_SAFE"
           "All target accounts must be connected staging accounts" 403) ;;
      mret (ac_provider_account_id <$> found)
  end.

Record ProductionPublishContext := mkContext {
  cx_tenant_id : uuid;
  cx_campaign_id : option uuid;
  cx_account_id : uuid;
  cx_provider : ProviderName;
  cx_classification : string;
  cx_connection_state : string;
  cx_content_approved : bool;
}.

(** [str(dict(metadata).get("classification", "UNKNOWN"))]; the text of a list
    or of an object is not the constant it is compared with, whatever it is. *)
Definition classification_text (m : object) : string :=
  match json_get "classification" (JObj m) with
  | None => "UNKNOWN"
  | Some JNull => "None"
  | Some (JStr s) => s
  | Some (JBool b) => if b then "True" else "False"
  | Some (JInt n) => str_of_Z n
  | Some (JFloat r) => r
  | Some (JList _ as v) | Some (JObj _ as v) => json_dumps json_default v
  end.

Definition production_publish_context (post : SocialPost) (approved : bool) :
    M db ProductionPublishContext :=
  found ← query (joined_accounts (id post));
  match found with
  | [row] =>
      match parse_provider (ac_provider row) with
      | None => raise (ValueError "not a valid ProviderName")
      | Some p =>
          guard_or (bool_decide (p = provider post))
            (social_error "SOCIAL_PROVIDER_OWNERSHIP_MISMATCH"
               "Post and account providers do not match" 409) ;;
          mret (mkContext (tenant_id post) (campaign_id post) (ac_id row) (provider post)
                  (classification_text (ac_metadata row)) (ac_connection_state row) approved)
      end
  | _ => raise (social_error "SOCIAL_PRODUCTION_SINGLE_ACCOUNT_REQUIRED"
                  "Production canary requires exactly one account" 403)
  end.

Definition audit_production_dry_run (post : SocialPost) (cx : ProductionPublishContext)
    (correlation request idem_key : string) : M db unit :=
  key ← uuid4;
  insert_or "social_audit_events" (insert_audit key
    (mkAuditRow (tenant_id post) "codestra-social-api" "PRODUCTION_DRY_RUN_VALIDATED"
       (Some (id post)) (campaign_id post) (provider_value (provider post)) (Some (cx_account_id cx))
       correlation request None (Some (sha256_text idem_key)) "PASS" None [("dry_run", JBool true)])) ;;
  commit.

(** ** [enqueue_command] *)

Definition command_key (post : SocialPost) (action : JobType) (idem_key : string) : idempotency_key :=
  (tenant_id post, job_type_value action, id post, sha256_text idem_key).
Definition command_hash (post : SocialPost) (action : JobType) : string :=
  sha256_text (uuid_str (id post) +:+ ":" +:+ job_type_value action).

Definition enqueue_command (post : SocialPost) (action : JobType)
    (idem_key correlation request : string) (cx : option ProductionPublishContext) :
    M db (uuid * bool) :=
  job ← uuid4;
  let key_hash := sha256_text idem_key in
  let hash := command_hash post action in
  existing ← reserve (command_key post action idem_key) (mkIdempotencyRow hash (id post) job);
  match existing with
  | Some old =>
      guard_or (bool_decide (ir_request_hash old = hash)) conflict ;;
      rollback ;;
      mret (ir_job_id old, false)
  | None =>
      t ← now;
      let account := cx_account_id <$> cx in
      let approved := match cx with Some c => cx_content_approved c | None => false end in
      insert_or "social_publish_jobs" (insert_job
        (new_job job (tenant_id post) (id post) (provider post) action correlation request key_hash
           account (negb (is_null cx)) (if approved then Some t else None) t)) ;;
      audit (tenant_id post) ("POST_" +:+ job_type_name action +:+ "_REQUESTED") (id post)
        (campaign_id post) (provider post) correlation request job key_hash "QUEUED" account ;;
      signal job correlation ;;
      commit ;;
      mret (job, true)
  end.

(** ** Claims and recovery *)

Definition due (t : Z) (j : job_row) : bool :=
  str_in (jb_state j) ["queued"; "retry"]
  && (is_null (jb_next_attempt_at j) || null_le (jb_next_attempt_at j) t)
  && (is_null (jb_lease_expires_at j) || null_le (jb_lease_expires_at j) t).

Definition claimable (t : Z) (limit : nat) (d : db) : list job_row :=
  take limit (sort_by (by_created jb_created_at jb_id) (select_where (due t) (jobs d))).

Definition claim (worker : string) (lease_seconds t : Z) (j : job_row) : job_row :=
  j <| jb_state := "processing" |> <| jb_lease_owner := Some worker |>
    <| jb_lease_expires_at := Some (t + seconds lease_seconds) |>
    <| jb_fencing_token ::= Z.succ |> <| jb_updated_at := t |>.

Definition claim_jobs (worker : string) (limit : nat) (lease_seconds : Z) : M db (list job_row) :=
  t ← now;
  found ← query (claimable t limit);
  execute (fun d => d <| jobs ::=
    update_where (fun j => bool_decide (jb_id j ∈ (jb_id <$> found))) (claim worker lease_seconds t) |>) ;;
  commit ;;
  mret (claim worker lease_seconds t <$> found).

Definition stale (t : Z) (j : job_row) : bool :=
  bool_decide (jb_state j = "processing") && null_le (jb_lease_expires_at j) t.

Definition recover (t : Z) (j : job_row) : job_row :=
  j <| jb_state := "retry" |> <| jb_lease_owner := None |> <| jb_lease_expires_at := None |>
    <| jb_next_attempt_at := Some t |>
    <| jb_last_error_code ::= fun c => Some (coalesce c "SOCIAL_WORKER_LEASE_EXPIRED") |>
    <| jb_updated_at := t |>.

Definition recover_stale_jobs : M db (list (uuid * string)) :=
  t ← now;
  found ← query (fun d => select_where (stale t) (jobs d));
  execute (fun d => d <| jobs ::= update_where (stale t) (recover t) |>) ;;
  commit ;;
  mret ((fun j => (jb_id j, jb_correlation_id j)) <$> found).

Definition signalable_jobs (limit : nat) : M db (list (uuid * string)) :=
  t ← now;
  query (fun d => (fun j => (jb_id j, jb_correlation_id j)) <$> claimable t limit d).

(** ** [complete_job] and [fail_job]

    Both update the job only where it is still [processing] under the token
    that the claim gave. *)

Definition holds_lease (job : job_row) (j : job_row) : bool :=
  bool_decide (jb_state j = "processing") && (jb_fencing_token j =? jb_fencing_token job).

Definition update_leased (job : job_row) (f : job_row -> job_row) : M db bool :=
  current ← query (fun d => jobs d !! jb_id job);
  match current with
  | Some j =>
      if holds_lease job j then execute (fun d => d <| jobs ::= <[jb_id job := f j]> |>) ;; mret true
      else mret false
  | None => mret false
  end.

(** [provider_post_id=COALESCE(:provider_post_id,provider_post_id)], under the
    unique constraint of the reference. *)
Definition set_post_result (post : uuid) (ref : option string) (st : SocialPostStatus) (t : Z) (d : db) :
    option db :=
  match posts d !! post with
  | None => Some d
  | Some r =>
      let new_ref := match ref with Some _ => ref | None => po_provider_post_id r end in
      let r' := r <| po_provider_post_id := new_ref |> <| po_status := status_value st |>
                  <| po_updated_at := t |> in
      if match new_ref with
         | Some s => absent (fun x => same_reference (po_provider r) s x && negb (bool_decide (po_id x = post)))
                       (posts d)
         | None => true
         end
      then Some (d <| posts ::= <[post := r']> |>) else None
  end.

Definition completed (t : Z) (j : job_row) : job_row :=
  j <| jb_state := "completed" |> <| jb_result_certainty := "CONFIRMED" |> <| jb_lease_owner := None |>
    <| jb_lease_expires_at := None |> <| jb_updated_at := t |>.

Definition lease_lost : exn :=
  SocialError "SOCIAL_WORKER_LEASE_LOST" "Social job lease was lost before result persistence"
    false 409 true.

Definition result_payload (job : job_row) (event : uuid) (event_type : string) (st : SocialPostStatus) : json :=
  JObj [("event_id", JStr (uuid_str event)); ("event_type", JStr event_type); ("event_version", JInt 1);
        ("correlation_id", JStr (jb_correlation_id job)); ("tenant_id", JStr (uuid_str (jb_tenant_id job)));
        ("source", JStr "social"); ("provider", JStr (jb_provider job));
        ("subject_id", JStr (uuid_str (jb_social_post_id job)));
        ("payload", JObj [("status", JStr (status_value st))])].

(** [INSERT INTO integration_event ... RETURNING id], and the delivery to n8n. *)
Definition publish_event (n8n : bool) (r : integration_row) (middle : M db unit) : M db unit :=
  event ← query next_event;
  insert_or "integration_event" (insert_event r) ;;
  middle ;;
  if n8n then execute (fun d => d <| deliveries ::= fun s => {[(event, "n8n")]} ∪ s |>) else mret tt.

Definition worker_audit (job : job_row) (action result : string) (error : option string) (m : object) :
    M db unit :=
  if jb_production_canary job then
    key ← uuid4;
    insert_or "social_audit_events" (insert_audit key
      (mkAuditRow (jb_tenant_id job) "postly-social-01" action (Some (jb_social_post_id job)) None
         (jb_provider job) (jb_production_account_id job) (jb_correlation_id job) (jb_request_id job)
         (Some (jb_id job)) None result error m))
  else mret tt.

Definition complete_job (n8n : bool) (job : job_row) (ref : option string) (st : SocialPostStatus) :
    M db uuid :=
  event ← uuid4;
  t ← now;
  let event_type := "social.post." +:+ str_lower (status_value st) in
  ok ← update_leased job (completed t);
  if negb ok then rollback ;; raise lease_lost
  else
    insert_or "uq_social_post_provider_ref" (set_post_result (jb_social_post_id job) ref st t) ;;
    key ← uuid4;
    insert_or "social_publish_attempts" (insert_attempt key
      (mkAttemptRow (jb_id job) (jb_attempt_count job + 1) "SUCCESS" None None t)) ;;
    let payload := result_payload job event event_type st in
    publish_event n8n
      (mkIntegrationRow ("social:" +:+ uuid_str event) event_type (uuid_str event)
         ("social_post:" +:+ uuid_str (jb_social_post_id job)) (jb_correlation_id job) payload
         (sha256_text (json_dumps json_sorted payload)) "queued")
      (insert_or "social_provider_events" (insert_provider_event event
         (mkProviderEventRow event_type 1 t (jb_correlation_id job) (jb_tenant_id job) (jb_provider job)
            (jb_social_post_id job) [("status", JStr (status_value st))]))) ;;
    worker_audit job "POST_PUBLISHED" "PUBLISHED" None
      (match ref with
       | Some s => if bool_decide (s = "") then [] else [("provider_post_id", JStr s)]
       | None => []
       end) ;;
    commit ;;
    mret event.

(** The arguments that [fail_job] reads off the error. *)
Record failure := mkFailure {
  f_code : string;
  f_message : string;
  f_retryable : bool;
  f_unknown : bool;
}.

Definition failure_unknown (f : failure) : bool :=
  f_unknown f || bool_decide (f_code f = "SOCIAL_PROVIDER_UNKNOWN_RESULT").
Definition failure_dead (f : failure) (number max_attempts : Z) : bool :=
  failure_unknown f || negb (f_retryable f) || (max_attempts <=? number).

Definition failed (f : failure) (number max_attempts wall delay t : Z) (j : job_row) : job_row :=
  let dead := failure_dead f number max_attempts in
  j <| jb_state := (if dead then "dead_letter" else "retry") |>
    <| jb_attempt_count := number |>
    <| jb_result_certainty := (if failure_unknown f then "UNKNOWN_AFTER_SEND" else "FAILED_BEFORE_SEND") |>
    <| jb_last_error_code := Some (f_code f) |>
    <| jb_last_error_summary := Some (text_prefix 512 (f_message f)) |>
    <| jb_next_attempt_at := (if dead then None else Some (wall + delay)) |>
    <| jb_lease_owner := None |> <| jb_lease_expires_at := None |>
    <| jb_failed_at := (if dead then Some wall else None) |>
    <| jb_updated_at := t |>.

Definition fail_job (job : job_row) (f : failure) (max_attempts wall delay : Z) : M db string :=
  t ← now;
  let number := jb_attempt_count job + 1 in
  let dead := failure_dead f number max_attempts in
  ok ← update_leased job (failed f number max_attempts wall delay t);
  if negb ok then rollback ;; mret "lease_lost"
  else
    let result := if dead then "DEAD_LETTER" else "RETRY" in
    key ← uuid4;
    insert_or "social_publish_attempts" (insert_attempt key
      (mkAttemptRow (jb_id job) number result (Some (f_code f)) (Some (text_prefix 512 (f_message f))) t)) ;;
    worker_audit job "POST_FAILED" result (Some (f_code f)) [] ;;
    commit ;;
    mret (if dead then "dead_letter" else "retry").

(** ** [persist_webhook] *)

Definition same_webhook (p event : string) (r : webhook_row) : bool :=
  bool_decide (wh_provider r = p) && bool_decide (wh_provider_event_id r = event).

Definition webhook_payload (p : ProviderName) (correlation : string) (e : NormalizedEvent) (safe : object) : json :=
  JObj [("event_id", JStr (uuid_str (n_event_id e))); ("event_type", JStr (n_event_type e));
        ("event_version", JInt (n_event_version e));
        ("occurred_at", JStr (isoformat (utc (n_occurred_at e)))); ("correlation_id", JStr correlation);
        ("tenant_id", JStr (uuid_str (n_tenant_id e))); ("source", JStr "social");
        ("provider", JStr (provider_value p)); ("subject_id", JStr (uuid_str (n_subject_id e)));
        ("payload", JObj safe)].

Definition persist_webhook (n8n : bool) (p : ProviderName) (provider_event payload_hash correlation : string)
    (e : NormalizedEvent) (safe : object) : M db bool :=
  key ← uuid4;
  t ← now;
  is_new ← query (fun d : db => absent (same_webhook (provider_value p) provider_event) (webhooks d));
  if (is_new : bool) then
    insert_or "social_webhook_events" (fun d =>
      if is_null (webhooks d !! key) && known_provider (provider_value p)
      then Some (d <| webhooks ::= <[key := mkWebhookRow (provider_value p) provider_event payload_hash
             "accepted" correlation safe (n_event_type e) (n_subject_id e) (n_tenant_id e) t]> |>)
      else None) ;;
    insert_or "social_provider_events" (insert_provider_event (n_event_id e)
      (mkProviderEventRow (n_event_type e) (n_event_version e) (n_occurred_at e) correlation
         (n_tenant_id e) (provider_value p) (n_subject_id e) safe)) ;;
    let payload := webhook_payload p correlation e safe in
    publish_event n8n
      (mkIntegrationRow ("social-webhook:" +:+ provider_value p +:+ ":" +:+ provider_event)
         (n_event_type e) (uuid_str (n_event_id e)) ("social:" +:+ uuid_str (n_subject_id e)) correlation
         payload (sha256_text (json_dumps json_sorted payload)) "queued")
      (mret tt : M db unit) ;;
    commit ;;
    mret true
  else commit ;; mret false.
End SocialRepo.
