(* ===== verification/SocialPublish.v ===== *)
(** * Social publishing: policy, providers and worker

    [src/app/social/production.py], [providers.py], [adapters.py], [queue.py],
    [security.py], the client of [src/app/integrations/postiz/client.py] and
    the worker of [src/app/workers/social.py].  The network is an argument of
    the client: what [httpx] gives back for a request.  The secret files are
    read by [Settings] properties, whose outcome is a field.  Metrics are not
    modelled. *)

From Stdlib Require Import Ascii QArith Qround.
From S2P Require Import Prelude PyText Sha256 Txn PyTime PyUnicode PyParse SocialTables SocialRepo.
Import SocialTables SocialRepo.
Local Open Scope string_scope.
Local Open Scope Z_scope.

Module SocialPublish.

(** ** Settings *)
Record Settings := mkSettings {
  postiz_internal_base_url : string;
  postiz_api_key_file : string;
  (** the property [postiz_api_key], which reads the file *)
  postiz_api_key : exn + string;
  postiz_delivery_enabled : bool;
  postiz_publish_enabled : bool;
  postly_webhook_secret_file : string;
  (** the property [postly_webhook_verification_secret] *)
  postly_webhook_verification_secret : exn + string;
  hootsuite_client_id_file : string;
  hootsuite_client_secret_file : string;
  social_integration_enabled : bool;
  social_publish_enabled : bool;
  social_provider : string;
  social_n8n_events_enabled : bool;
  social_odoo_sync_enabled : bool;
  social_odoo_write_enabled : bool;
  social_sql_repository_enabled : bool;
  social_worker_enabled : bool;
  social_worker_id : string;
  social_worker_concurrency : Z;
  social_worker_lease_seconds : Z;
  social_job_max_attempts : Z;
  social_production_mode : bool;
  social_production_canary_enabled : bool;
  social_production_canary_account_ids : string;
  social_production_canary_tenant_ids : string;
  social_production_canary_campaign_ids : string;
  social_production_backup_gate_verified : bool;
  social_production_rollback_gate_verified : bool;
  social_production_webhook_gate_verified : bool;
  social_production_monitoring_gate_verified : bool;
  social_automatic_provider_failover_enabled : bool;
  social_automatic_dual_publish_enabled : bool;
  social_webhook_ttl_seconds : Z;
}.

Definition truthy (s : string) : bool := negb (bool_decide (s = "")).

(** The social part of [Settings.validate_safety]. *)
Definition validate_social_concurrency (c : Settings) : exn + unit :=
  check (social_worker_concurrency c =? 1)
    (ValueError "social worker concurrency must remain 1 in controlled staging").

Definition validate_social_switches (c : Settings) : exn + unit :=
  (if social_publish_enabled c || postiz_publish_enabled c then
     check (social_publish_enabled c && postiz_publish_enabled c)
       (ValueError "social and provider publish switches must agree") ;;
     check (social_production_mode c && social_integration_enabled c
            && social_production_canary_enabled c && social_production_backup_gate_verified c
            && social_production_rollback_gate_verified c && social_production_webhook_gate_verified c
            && social_production_monitoring_gate_verified c && social_sql_repository_enabled c
            && social_worker_enabled c && postiz_delivery_enabled c
            && truthy (strip (social_production_canary_account_ids c)))
       (ValueError "production social publishing requires every canary gate") ;;
     check (truthy (strip (postiz_internal_base_url c)) && truthy (strip (postiz_api_key_file c))
            && truthy (strip (postly_webhook_secret_file c)))
       (ValueError "production Postly secrets and endpoint are required") ;;
     postiz_api_key c ;;
     postly_webhook_verification_secret c ;;
     mret tt
   else mret tt) ;;
  check (negb (social_automatic_provider_failover_enabled c || social_automatic_dual_publish_enabled c))
    (ValueError "automatic provider failover and dual publishing are forbidden").

(** ** The production canary *)

Definition PRODUCTION_APPROVED : string := "PRODUCTION_APPROVED_CANARY".

Definition uuid_allowlist (value setting_name : string) : exn + list uuid :=
  match mapM parse_uuid (List.filter truthy (strip <$> split_comma value)) with
  | Some l => inr l
  | None => inl (social_error "SOCIAL_PRODUCTION_CONFIGURATION_INVALID"
                   (setting_name +:+ " contains an invalid UUID") 503)
  end.

Definition deny (code : string) : exn :=
  social_error code "Production social publish was denied" 403.

Definition in_allowlist (u : uuid) (l : list uuid) : bool := bool_decide (u ∈ l).

(** [ProductionCanaryPolicy(config).validate(context)] *)
Definition validate (c : Settings) (x : ProductionPublishContext) : exn + unit :=
  check (social_production_mode c && social_integration_enabled c && social_publish_enabled c
         && social_production_canary_enabled c && social_sql_repository_enabled c
         && social_worker_enabled c && social_production_backup_gate_verified c
         && social_production_rollback_gate_verified c && social_production_webhook_gate_verified c
         && social_production_monitoring_gate_verified c) (deny "SOCIAL_PRODUCTION_CANARY_DISABLED") ;;
  check (negb (social_automatic_provider_failover_enabled c)) (deny "SOCIAL_PROVIDER_FAILOVER_FORBIDDEN") ;;
  check (negb (social_automatic_dual_publish_enabled c)) (deny "SOCIAL_DUAL_PUBLISH_FORBIDDEN") ;;
  accounts ← uuid_allowlist (social_production_canary_account_ids c) "SOCIAL_PRODUCTION_CANARY_ACCOUNT_IDS";
  check (negb (bool_decide (accounts = [])) && in_allowlist (cx_account_id x) accounts)
    (deny "SOCIAL_PRODUCTION_ACCOUNT_DENIED") ;;
  tenants ← uuid_allowlist (social_production_canary_tenant_ids c) "SOCIAL_PRODUCTION_CANARY_TENANT_IDS";
  check (bool_decide (tenants = []) || in_allowlist (cx_tenant_id x) tenants)
    (deny "SOCIAL_PRODUCTION_TENANT_DENIED") ;;
  campaigns ← uuid_allowlist (social_production_canary_campaign_ids c) "SOCIAL_PRODUCTION_CANARY_CAMPAIGN_IDS";
  check (bool_decide (campaigns = [])
         || match cx_campaign_id x with Some k => in_allowlist k campaigns | None => false end)
    (deny "SOCIAL_PRODUCTION_CAMPAIGN_DENIED") ;;
  check (bool_decide (cx_classification x = PRODUCTION_APPROVED))
    (deny "SOCIAL_PRODUCTION_ACCOUNT_NOT_APPROVED") ;;
  check (bool_decide (cx_connection_state x = "connected")) (deny "SOCIAL_ACCOUNT_DISCONNECTED") ;;
  check (cx_content_approved x) (deny "SOCIAL_PRODUCTION_CONTENT_NOT_APPROVED").

(** The answer of [health_check]. *)
Record ProviderHealth := mkHealth {
  h_configured : bool;
  h_enabled : bool;
  h_reachable : option bool;
  h_status : string;
}.

Definition upper_char (c : ascii) : ascii :=
  if is_lower c then ascii_of_N (N_of_ascii c - 32) else c.
Fixpoint str_upper (s : string) : string :=
  match s with
  | EmptyString => EmptyString
  | String c s' => String (upper_char c) (str_upper s')
  end.

Definition require_provider_health (h : ProviderHealth) : exn + unit :=
  check (str_in (str_upper (h_status h)) ["AVAILABLE"; "HEALTHY"]
         && negb (bool_decide (h_reachable h = Some false)))
    (SocialError "SOCIAL_PROVIDER_UNAVAILABLE" "Production social provider is not healthy" true 503 false).

(** ** The adapter contract and the registry *)

Definition capability_name (c : Capability) : string :=
  match c with
  | POST_CREATE => "POST_CREATE" | POST_UPDATE => "POST_UPDATE" | POST_DELETE => "POST_DELETE"
  | POST_SCHEDULE => "POST_SCHEDULE" | POST_CANCEL => "POST_CANCEL" | POST_PUBLISH => "POST_PUBLISH"
  | MEDIA_UPLOAD => "MEDIA_UPLOAD" | IMAGE_POST => "IMAGE_POST" | VIDEO_POST => "VIDEO_POST"
  | MULTI_IMAGE => "MULTI_IMAGE" | COMMENT_READ => "COMMENT_READ" | COMMENT_REPLY => "COMMENT_REPLY"
  | MESSAGE_READ => "MESSAGE_READ" | MESSAGE_REPLY => "MESSAGE_REPLY" | ANALYTICS => "ANALYTICS"
  | WEBHOOK_EVENTS => "WEBHOOK_EVENTS"
  end.

Definition unsupported {A} (c : Capability) : exn + A :=
  inl (social_error "SOCIAL_PROVIDER_CAPABILITY_UNSUPPORTED"
         ("Provider capability Capability." +:+ capability_name c +:+ " is unsupported") 422).

Definition headers := list (string * string).

Record Adapter := mkAdapter {
  ad_name : ProviderName;
  get_capabilities : list Capability;
  health_check : exn + ProviderHealth;
  create_post : SocialPost -> list string -> string -> exn + ProviderResult;
  schedule_post : SocialPost -> string -> exn + ProviderResult;
  publish_post : SocialPost -> string -> exn + ProviderResult;
  cancel_post : SocialPost -> string -> exn + ProviderResult;
  delete_post : SocialPost -> string -> exn + ProviderResult;
  (** the body, the headers and [time.time()] in microseconds *)
  verify_webhook : string -> headers -> Z -> exn + unit;
  (** the event's identifier and time, the payload and the correlation *)
  normalize_webhook : uuid -> Z -> json -> string -> exn + NormalizedEvent;
}.

(** The defaults of the abstract class. *)
Definition abstract_adapter (name : ProviderName) (caps : list Capability)
    (health : exn + ProviderHealth) : Adapter :=
  mkAdapter name caps health (fun _ _ _ => unsupported POST_CREATE) (fun _ _ => unsupported POST_SCHEDULE)
    (fun _ _ => unsupported POST_PUBLISH) (fun _ _ => unsupported POST_CANCEL)
    (fun _ _ => unsupported POST_DELETE) (fun _ _ _ => unsupported WEBHOOK_EVENTS)
    (fun _ _ _ _ => unsupported WEBHOOK_EVENTS).

(** [_providers], the latest registration first. *)
Definition registry := list Adapter.

Definition register (a : Adapter) (r : registry) : exn + registry :=
  if bool_decide (ad_name a = DISABLED) then inl (ValueError "disabled is not an adapter")
  else inr (a :: r).

Definition registry_get (r : registry) (p : ProviderName) : exn + Adapter :=
  if bool_decide (p = DISABLED)
  then inl (social_error "SOCIAL_PROVIDER_DISABLED" "Social provider is disabled" 503)
  else match List.find (fun a => bool_decide (ad_name a = p)) r with
       | Some a => inr a
       | None => inl (social_error "SOCIAL_PROVIDER_NOT_CONFIGURED" "Social provider is not configured" 503)
       end.

Definition registry_lookup (r : registry) (name : string) : exn + Adapter :=
  match parse_provider name with
  | Some p => registry_get r p
  | None => inl (social_error "SOCIAL_PROVIDER_NOT_FOUND" "Unknown social provider" 404)
  end.

Definition registry_require (r : registry) (name : string) (c : Capability) : exn + Adapter :=
  a ← registry_lookup r name;
  if bool_decide (c ∈ get_capabilities a) then inr a else unsupported c.

(** ** The Postiz client *)

Record http_request := mkRequest {
  rq_method : string;
  rq_path : string;
  rq_json : option json;
  rq_correlation_id : string;
}.

Inductive http_body := EmptyBody | NotJson | Json (v : json).
Inductive http_outcome :=
  | ReadTimeout | ConnectTimeout | ConnectError | ReadError | WriteError | CloseError
  | OtherFailure (name : string)
  | Response (status : Z) (b : http_body).

Definition network := http_request -> http_outcome.

(** [rstrip("/")] *)
Fixpoint rstrip_slash (s : string) : string :=
  match s with
  | EmptyString => ""
  | String c s' =>
      let t := rstrip_slash s' in
      if Ascii.eqb c "/" && bool_decide (t = "") then "" else String c t
  end.

Definition decode (outcome : http_outcome) : exn + json :=
  match outcome with
  | ReadTimeout => inl (PostizError "unknown_result" false None true)
  | ConnectTimeout | ConnectError | ReadError | WriteError | CloseError =>
      inl (PostizError "temporary" true None false)
  | OtherFailure name => inl (TransportError name)
  | Response st b =>
      if st =? 429 then inl (PostizError "rate_limit" true (Some 429) false)
      else if (st =? 401) || (st =? 403) then inl (PostizError "authentication" false (Some st) false)
      else if 500 <=? st then inl (PostizError "temporary" true (Some st) false)
      else if 400 <=? st then inl (PostizError "provider_error" false (Some st) false)
      else match b with
           | EmptyBody => inr (JObj [])
           | Json v => inr v
           | NotJson => inl (PostizError "provider_error" false (Some st) false)
           end
  end.

Definition request (c : Settings) (net : network) (rq : http_request) : exn + json :=
  check (truthy (rstrip_slash (postiz_internal_base_url c))) (PostizError "not_configured" false None false) ;;
  key ← postiz_api_key c;
  check (truthy key) (PostizError "not_configured" false None false) ;;
  decode (net rq).

(** ** The Postly adapter *)

Definition POSTLY_CAPABILITIES : list Capability :=
  [POST_CREATE; POST_DELETE; POST_SCHEDULE; POST_CANCEL; POST_PUBLISH; MEDIA_UPLOAD; IMAGE_POST;
   VIDEO_POST; MULTI_IMAGE; ANALYTICS; WEBHOOK_EVENTS].

Definition STATUS_MAP : list (string * SocialPostStatus) :=
  [("draft", DRAFT); ("queued", QUEUED); ("scheduled", SCHEDULED); ("publishing", PUBLISHING);
   ("published", PUBLISHED); ("failed", FAILED); ("cancelled", CANCELLED); ("canceled", CANCELLED);
   ("deleted", DELETED); ("requires_action", REQUIRES_ACTION)].
Definition normalize_status (value : string) : SocialPostStatus :=
  coalesce (dict_get STATUS_MAP (str_lower (strip value))) UNKNOWN.

(** Other exceptions pass through the [except PostizError] clauses. *)
Definition postiz_mappings : list (string * (string * Z)) :=
  [("not_configured", ("SOCIAL_PROVIDER_NOT_CONFIGURED", 503));
   ("authentication", ("SOCIAL_PROVIDER_AUTH_FAILED", 502));
   ("rate_limit", ("SOCIAL_PROVIDER_RATE_LIMITED", 503));
   ("temporary", ("SOCIAL_PROVIDER_UNAVAILABLE", 503));
   ("unknown_result", ("SOCIAL_PROVIDER_UNKNOWN_RESULT", 503))].
Definition map_postiz_error (e : exn) : exn :=
  match e with
  | PostizError code retryable _ unknown =>
      let '(social, st) := coalesce (dict_get postiz_mappings code) ("SOCIAL_PUBLISH_FAILED", 502) in
      SocialError social "Social provider request failed" retryable st unknown
  | e => e
  end.

Definition mapped {A} (r : exn + A) : exn + A :=
  match r with inl e => inl (map_postiz_error e) | inr a => inr a end.

(** The text of a list or of an object, which nothing here looks into. *)
Class PyRepr := str_of_container : json -> string.

Section postly.
Context `{PyRepr} (c : Settings) (net : network).

(** [str(v)] of a decoded value *)
Definition str_of_json (v : json) : string :=
  match v with
  | JNull => "None"
  | JBool b => if b then "True" else "False"
  | JInt n => str_of_Z n
  | JFloat r => r
  | JStr s => s
  | v => str_of_container v
  end.

(** [raw.get(key)] *)
Definition raw_get (key : string) (raw : json) : exn + option json :=
  match raw with
  | JObj _ => inr (json_get key raw)
  | _ => inl (AttributeError "get")
  end.

Definition truthy_json (v : option json) : option json :=
  match v with Some j => if json_truthy j then Some j else None | None => None end.

Definition postly_health : exn + ProviderHealth :=
  if negb (truthy (postiz_internal_base_url c) && truthy (postiz_api_key_file c))
  then inr (mkHealth false false (Some false) "NOT_CONFIGURED")
  else if negb (postiz_delivery_enabled c) then inr (mkHealth true false None "DISABLED")
  else match request c net (mkRequest "GET" "integrations" None "social-health-check") with
       | inr _ => inr (mkHealth true true (Some true) "AVAILABLE")
       | inl (PostizError _ _ _ _) => inr (mkHealth true true (Some false) "UNAVAILABLE")
       | inl e => inl e
       end.

Definition payload (post : SocialPost) (refs : list string) (publish : bool) : json :=
  JObj [("content", coalesce (json_get "text" (JObj (content post))) (JStr ""));
        ("integration", JList (JStr <$> refs));
        ("date", opt_str (isoformat <$> publish_at post));
        ("type", JStr (match publish_at post with
                       | Some _ => "schedule"
                       | None => if publish then "now" else "draft"
                       end));
        ("settings", coalesce (json_get "provider" (JObj (metadata post))) (JObj []))].

Definition create_request (post : SocialPost) (refs : list string) (correlation : string) (publish : bool) :
    http_request :=
  mkRequest "POST" "posts" (Some (payload post refs publish)) correlation.

Definition create_ (post : SocialPost) (refs : list string) (correlation : string) (publish : bool) :
    exn + ProviderResult :=
  raw ← mapped (request c net (create_request post refs correlation publish));
  a ← raw_get "id" raw;
  b ← raw_get "postId" raw;
  let chosen := match truthy_json a with Some v => str_of_json v
                | None => match truthy_json b with Some v => str_of_json v | None => "" end end in
  let default := match publish_at post with
                 | Some _ => SCHEDULED
                 | None => if publish then PUBLISHED else DRAFT
                 end in
  st ← raw_get "status" raw;
  let ref := if truthy chosen then Some chosen else None in
  match truthy_json st with
  | None => inr (mkResult ref default)
  | Some (JStr s) => inr (mkResult ref (normalize_status s))
  | Some _ => inl (AttributeError "strip")
  end.

Definition postly_cancel (post : SocialPost) (correlation : string) : exn + ProviderResult :=
  match provider_post_id post with
  | Some ref =>
      if truthy ref then
        mapped (request c net (mkRequest "DELETE" ("posts/" +:+ ref) None correlation)) ;;
        inr (mkResult (Some ref) CANCELLED)
      else inl (social_error "SOCIAL_POST_NOT_SYNCHRONIZED" "Social post has no provider reference" 409)
  | None => inl (social_error "SOCIAL_POST_NOT_SYNCHRONIZED" "Social post has no provider reference" 409)
  end.

(** [headers.get(name, "")] *)
Definition header (h : headers) (name : string) : string := coalesce (dict_get h name) "".

Definition is_ascii (s : string) : bool := str_forall (fun x => (N_of_ascii x <? 128)%N) s.

(** [hmac.compare_digest] of two texts, which must be ASCII. *)
Definition compare_digest (a b : string) : exn + bool :=
  if is_ascii a && is_ascii b then inr (bool_decide (a = b))
  else inl (TypeError "comparing strings with non-ASCII characters is not supported").

Definition fresh_timestamp (timestamp : string) (ttl time : Z) : bool :=
  match py_int 10 timestamp with
  | Some ts => Z.abs (time - seconds ts) <=? seconds ttl
  | None => false
  end.

Definition postly_verify (body : string) (h : headers) (time : Z) : exn + unit :=
  secret ← postly_webhook_verification_secret c;
  check (truthy secret)
    (social_error "SOCIAL_PROVIDER_NOT_CONFIGURED" "Webhook verification is not configured" 503) ;;
  let timestamp := header h "x-postly-timestamp" in
  let signature := header h "x-postly-signature" in
  check (fresh_timestamp timestamp (social_webhook_ttl_seconds c) time)
    (social_error "SOCIAL_WEBHOOK_INVALID_SIGNATURE" "Webhook timestamp is invalid" 401) ;;
  let expected := hmac_hex (bytes_of secret) (timestamp +:+ "." +:+ body) in
  same ← compare_digest expected (removeprefix "sha256=" signature);
  check same (social_error "SOCIAL_WEBHOOK_INVALID_SIGNATURE" "Webhook signature is invalid" 401).

Definition event_map : list (string * string) :=
  [("post.published", "social.post.published"); ("post.failed", "social.post.failed");
   ("post.scheduled", "social.post.scheduled"); ("post.cancelled", "social.post.cancelled");
   ("account.connected", "social.account.connected");
   ("account.disconnected", "social.account.disconnected");
   ("comment.created", "social.comment.received"); ("message.created", "social.message.received")].

Definition safe_keys : list string := ["status"; "provider_post_id"; "metrics"].

Definition webhook_uuid (key : string) (p : json) : exn + uuid :=
  match json_get key p ≫= (fun v => parse_uuid (str_of_json v)) with
  | Some u => inr u
  | None => inl (social_error "SOCIAL_WEBHOOK_INVALID" "Webhook identifiers are invalid" 422)
  end.

Definition postly_normalize (event : uuid) (t : Z) (p : json) (correlation : string) :
    exn + NormalizedEvent :=
  kind ← raw_get "type" p;
  match dict_get event_map (str_of_json (coalesce kind (JStr ""))) with
  | None => inl (social_error "SOCIAL_WEBHOOK_EVENT_UNSUPPORTED" "Webhook event is unsupported" 422)
  | Some event_type =>
      subject ← webhook_uuid "codestra_subject_id" p;
      tenant ← webhook_uuid "tenant_id" p;
      let safe := omap (fun key => (fun v => (key, v)) <$> json_get key p) safe_keys in
      inr (mkNormalized event_type POSTLY subject correlation tenant safe event 1 t)
  end.

Definition PostlyProviderAdapter : Adapter :=
  mkAdapter POSTLY POSTLY_CAPABILITIES postly_health
    (fun post refs correlation => create_ post refs correlation false)
    (fun post correlation => create_ post [] correlation false)
    (fun post correlation => create_ post [] correlation true)
    postly_cancel postly_cancel postly_verify postly_normalize.

Definition HootsuiteProviderAdapter : Adapter :=
  let configured := truthy (hootsuite_client_id_file c) && truthy (hootsuite_client_secret_file c) in
  abstract_adapter HOOTSUITE []
    (inr (mkHealth configured false None (if configured then "DISABLED" else "NOT_CONFIGURED"))).

(** [build_registry]: registrations of names other than [disabled] succeed. *)
Definition build_registry : registry := [HootsuiteProviderAdapter; PostlyProviderAdapter].
End postly.

(** ** Machine signatures ([security.py]) *)

(** [seen_nonces] is the caller's set, extended when the request is accepted. *)
Definition verify_codestra_signature (body timestamp nonce signature secret : string) (ttl time : Z)
    (seen : gset string) : gset string * (exn + unit) :=
  let verdict :=
    check (truthy secret)
      (social_error "SOCIAL_PROVIDER_NOT_CONFIGURED" "Request verification is not configured" 503) ;;
    check (fresh_timestamp timestamp ttl time)
      (social_error "SOCIAL_WEBHOOK_INVALID_SIGNATURE" "Request timestamp is invalid" 401) ;;
    check (truthy nonce && negb (bool_decide (nonce ∈ seen)))
      (social_error "SOCIAL_WEBHOOK_REPLAYED" "Request nonce is invalid" 409) ;;
    same ← compare_digest (hmac_hex (bytes_of secret) (timestamp +:+ "." +:+ nonce +:+ "." +:+ body))
             (removeprefix "sha256=" signature);
    check same (social_error "SOCIAL_WEBHOOK_INVALID_SIGNATURE" "Request signature is invalid" 401) in
  (match verdict with inr _ => {[nonce]} ∪ seen | inl _ => seen end, verdict).

(** ** The queue ([queue.py]) *)

(** [uniform(0.5, 1.0)] is the draw [u]. *)
Definition retry_ceiling (attempt : Z) : Z := Z.min 300 (5 * 2 ^ (attempt - 1)).
Definition retry_delay (attempt : Z) (u : Q) : exn + Q :=
  if attempt <? 1 then inl (ValueError "attempt must be positive")
  else inr (inject_Z (retry_ceiling attempt) * u)%Q.

(** [timedelta(seconds=q)] in microseconds, to the nearest. *)
Definition timedelta (q : Q) : Z := Qfloor (q * 1000000 + (1 # 2))%Q.

Definition classify_failure (e : exn) : string :=
  match e with SocialError _ _ true _ _ => "retry" | _ => "dead_letter" end.

(** One Redis list. *)
Definition queue := list (uuid * string).
Definition enqueue (job : uuid) (correlation : string) (q : queue) : queue := (q ++ [(job, correlation)])%list.
Definition queue_claim (q : queue) : option (uuid * string) * queue :=
  match q with [] => (None, []) | x :: rest => (Some x, rest) end.

(** ** The worker *)

(** The provider operation that a job ends in. *)
Inductive call :=
  | CallPublish | CallSchedule | CallCancel | CallDelete | CallCreate (refs : list string).
#[global] Instance call_eq_dec : EqDecision call.
Proof. solve_decision. Defined.

Definition perform (a : Adapter) (post : SocialPost) (correlation : string) (k : call) : exn + ProviderResult :=
  match k with
  | CallPublish => publish_post a post correlation
  | CallSchedule => schedule_post a post correlation
  | CallCancel => cancel_post a post correlation
  | CallDelete => delete_post a post correlation
  | CallCreate refs => create_post a post refs correlation
  end.

Definition lift {A} (r : exn + A) : M db A := match r with inr a => mret a | inl e => raise e end.

Definition disabled (message : string) : exn := social_error "SOCIAL_PROVIDER_DISABLED" message 403.

(** The production part of the [PUBLISH] branch. *)
Definition authorize_production (c : Settings) (a : Adapter) (job : job_row) (post : SocialPost) : M db unit :=
  guard_or (jb_production_canary job)
    (social_error "SOCIAL_PRODUCTION_CANARY_REQUIRED" "Production publish job is not a canary" 403) ;;
  x ← production_publish_context post (negb (is_null (jb_content_approved_at job)));
  guard_or (bool_decide (Some (cx_account_id x) = jb_production_account_id job))
    (social_error "SOCIAL_PRODUCTION_ACCOUNT_CHANGED"
       "Production account ownership changed after validation" 409) ;;
  lift (validate c x) ;;
  health ← lift (health_check a);
  lift (require_provider_health health).

(** The body of the [try], up to the call of the adapter. *)
Definition authorize (c : Settings) (a : Adapter) (job : job_row) (post : SocialPost) : M db call :=
  action ← some_or (parse_job_type (jb_job_type job)) (ValueError "not a valid JobType");
  guard_or (negb (bool_decide (provider post = POSTLY) && negb (postiz_delivery_enabled c)))
    (disabled "Postly delivery is disabled") ;;
  match action with
  | PUBLISH =>
      guard_or (social_publish_enabled c
                && negb (bool_decide (provider post = POSTLY) && negb (postiz_publish_enabled c)))
        (disabled "Social publishing is disabled") ;;
      (if social_production_mode c then authorize_production c a job post else mret tt) ;;
      mret CallPublish
  | SCHEDULE => mret CallSchedule
  | CANCEL => mret CallCancel
  | DELETE => mret CallDelete
  | _ => refs ← staging_provider_account_refs (id post); mret (CallCreate refs)
  end.

(** [except SocialError] : the failure is recorded; other exceptions escape. *)
Definition settle_failure (c : Settings) (job : job_row) (u : Q) (wall : Z) (e : exn) : M db string :=
  match e with
  | SocialError code message retryable _ unknown =>
      delay ← lift (retry_delay (jb_attempt_count job + 1) u);
      fail_job job (mkFailure code message retryable unknown) (social_job_max_attempts c) wall (timedelta delay)
  | e => raise e
  end.

Definition settle_result (c : Settings) (job : job_row) (r : ProviderResult) : M db string :=
  complete_job (social_n8n_events_enabled c) job (r_provider_post_id r) (r_status r) ;;
  mret "completed".

Definition process_claimed_job (c : Settings) (r : registry) (job : job_row) (u : Q) (wall : Z) : M db string :=
  post ← get_post (jb_social_post_id job);
  a ← lift (registry_get r (provider post));
  try_except
    (k ← authorize c a job post;
     result ← lift (perform a post (jb_correlation_id job) k);
     settle_result c job result)
    (settle_failure c job u wall).

(** [{job_id: correlation_id ...}]: the first place, the last value. *)
Fixpoint dict_put (job : uuid) (correlation : string) (l : queue) : queue :=
  match l with
  | [] => [(job, correlation)]
  | (j, k) :: rest =>
      if bool_decide (j = job) then (j, correlation) :: rest else (j, k) :: dict_put job correlation rest
  end.
Definition unique (l : queue) : queue := foldl (fun acc x => dict_put x.1 x.2 acc) [] l.

Definition recover_and_signal : M db queue :=
  recovered ← recover_stale_jobs;
  signals ← signalable_jobs 100;
  mret (unique (recovered ++ signals)%list).

(** One turn of the loop of [run_forever], from the tables and the Redis list:
    each [async with session_factory()] is a session of its own. *)
Record turn_input := mkTurn {
  ti_recover_clock : nat -> Z;
  ti_claim_clock : nat -> Z;
  ti_uuids : nat -> uuid;
  ti_draw : Q;
  ti_wall : Z;
}.

Definition run_jobs (c : Settings) (r : registry) (i : turn_input) : M db (option string) :=
  found ← claim_jobs (social_worker_id c) 1 (social_worker_lease_seconds c);
  match found with
  | job :: _ => state ← process_claimed_job c r job (ti_draw i) (ti_wall i); mret (Some state)
  | [] => mret None
  end.

Definition worker_turn (c : Settings) (r : registry) (i : turn_input) (d : db) (q : queue) :
    db * queue * (exn + option string) :=
  match with_session (ti_recover_clock i) (ti_uuids i) recover_and_signal d with
  | (d1, inl e) => (d1, q, inl e)
  | (d1, inr signals) =>
      match queue_claim (q ++ signals)%list with
      | (None, q') => (d1, q', inr None)
      | (Some _, q') =>
          let '(d2, outcome) := with_session (ti_claim_clock i) (ti_uuids i) (run_jobs c r i) d1 in
          (d2, q', outcome)
      end
  end.

(** The checks before the loop. *)
Definition run_forever_start (c : Settings) : exn + unit :=
  check (social_worker_enabled c && social_sql_repository_enabled c)
    (RuntimeError "social worker and SQL repository must be enabled") ;;
  check (social_worker_concurrency c =? 1) (RuntimeError "social worker concurrency must equal 1").
End SocialPublish.
