(* ===== verification/SocialService.v ===== *)
(** * Social publishing: the in-memory service

    [SocialRepository] and [SocialPublishingService] of
    [src/app/social/service.py], the contract that stands in for the SQL
    repository while [social_sql_repository_enabled] is off.  Posts and jobs are
    objects held by the dictionaries, so a change through any reference is a
    change of the entry. *)

From Stdlib Require Import Ascii.
From S2P Require Import Prelude PyText Sha256 Txn PyTime PyUnicode PyParse SocialTables SocialRepo SocialPublish.
Import SocialTables SocialRepo SocialPublish.
Local Open Scope string_scope.
Local Open Scope Z_scope.

Module SocialService.

#[export] Instance SocialPost_eta : Eta SocialPost := fun p =>
  mkPost (tenant_id p) (provider p) (account_ids p) (content p) (id p) (campaign_id p)
    (provider_post_id p) (status p) (publish_at p) (metadata p) (created_at p) (updated_at p).

Record SocialPublishJob := mkJob {
  j_tenant_id : uuid;
  j_social_post_id : uuid;
  j_provider : ProviderName;
  j_job_type : JobType;
  j_correlation_id : string;
  j_request_id : string;
  j_idempotency_key : string;
  j_id : uuid;
  j_state : string;
  j_attempt_count : Z;
  j_last_error_code : option string;
}.
#[export] Instance SocialPublishJob_eta : Eta SocialPublishJob := fun j =>
  mkJob (j_tenant_id j) (j_social_post_id j) (j_provider j) (j_job_type j) (j_correlation_id j)
    (j_request_id j) (j_idempotency_key j) (j_id j) (j_state j) (j_attempt_count j)
    (j_last_error_code j).

Record audit_entry := mkAuditEntry {
  ae_action : string;
  ae_social_post_id : uuid;
  ae_campaign_id : option uuid;
  ae_provider : ProviderName;
  ae_correlation_id : string;
  ae_request_id : string;
  ae_job_id : uuid;
  ae_key_hash : string;
  ae_result : string;
  ae_created_at : Z;
}.

Record memory := mkMemory {
  (** [provider_account_id] by account *)
  m_accounts : gmap uuid string;
  m_posts : gmap uuid SocialPost;
  m_jobs : gmap uuid SocialPublishJob;
  m_idempotency : gmap idempotency_key (string * uuid);
  m_webhook_ids : gset string;
  m_audit : list audit_entry;
}.
#[export] Instance memory_eta : Eta memory := fun m =>
  mkMemory (m_accounts m) (m_posts m) (m_jobs m) (m_idempotency m) (m_webhook_ids m) (m_audit m).

Definition empty_memory : memory := mkMemory ∅ ∅ ∅ ∅ ∅ [].

(** A method: the new contents, and what it returns or raises. *)
Definition method (A : Type) : Type := memory -> memory * (exn + A).
#[export] Instance method_ret : MRet method := fun _ a m => (m, inr a).
#[export] Instance method_bind : MBind method := fun _ _ k p m =>
  match p m with (m', inr a) => k a m' | (m', inl e) => (m', inl e) end.
Definition fails {A} (e : exn) : method A := fun m => (m, inl e).
Definition reads {A} (f : memory -> A) : method A := fun m => (m, inr (f m)).
Definition writes (f : memory -> memory) : method unit := fun m => (f m, inr tt).
Definition pure {A} (r : exn + A) : method A := fun m => (m, r).
Definition needs {A} (o : option A) (e : exn) : method A := fun m => (m, match o with Some a => inr a | None => inl e end).

(** ** [SocialRepository] *)

Definition create_post_and_job (post : SocialPost) (job : SocialPublishJob) (action : string)
    (request_hash : string) (subject : option uuid) : method (SocialPost * SocialPublishJob * bool) :=
  let key := (tenant_id post, action, coalesce subject ZERO_UUID, j_idempotency_key job) in
  existing ← reads (fun m => m_idempotency m !! key);
  match existing with
  | Some (old_hash, old_job_id) =>
      pure (check (bool_decide (old_hash = request_hash)) conflict) ;;
      old_job ← reads (fun m => m_jobs m !! old_job_id);
      old_job ← needs old_job (LookupError "KeyError");
      old_post ← reads (fun m => m_posts m !! j_social_post_id old_job);
      old_post ← needs old_post (LookupError "KeyError");
      mret (old_post, old_job, false)
  | None =>
      writes (fun m => m <| m_posts ::= <[id post := post]> |> <| m_jobs ::= <[j_id job := job]> |>
                         <| m_idempotency ::= <[key := (request_hash, j_id job)]> |>) ;;
      mret (post, job, true)
  end.

(** [f"{post.id}:{action}"]: a member of a [(str, Enum)] class is formatted with
    the name of its class. *)
Definition service_command_hash (post : SocialPost) (action : JobType) : string :=
  sha256_text (uuid_str (id post) +:+ ":JobType." +:+ job_type_name action).

Definition enqueue_existing (post : SocialPost) (job : SocialPublishJob) (action : JobType) :
    method (SocialPublishJob * bool) :=
  r ← create_post_and_job post job (job_type_value action) (service_command_hash post action) (Some (id post));
  mret (r.1.2, r.2).

(** ** [SocialPublishingService] *)

Definition append_audit (t : Z) (action : string) (post : SocialPost) (job : SocialPublishJob) (result : string) :
    method unit :=
  writes (fun m => m <| m_audit ::= fun l => (l ++ [mkAuditEntry action (id post) (campaign_id post) (provider post)
    (j_correlation_id job) (j_request_id job) (j_id job) (sha256_text (j_idempotency_key job)) result t])%list |>).

Definition enabled (c : Settings) : exn + unit :=
  check (social_integration_enabled c)
    (social_error "SOCIAL_PROVIDER_DISABLED" "Social integration is disabled" 503).

(** [resolve_provider()] for a new post *)
Definition resolve_provider (c : Settings) : exn + ProviderName :=
  match parse_provider (social_provider c) with
  | Some p => inr p
  | None => inl (social_error "SOCIAL_PROVIDER_NOT_CONFIGURED" "Configured social provider is invalid" 503)
  end.

Definition service_hash (i : intent) : string :=
  sha256_text (json_dumps json_sorted (JObj
    [("accounts", JList ((fun a => JStr (uuid_str a)) <$> in_account_ids i));
     ("content", JObj (in_content i));
     ("campaign_id", JStr (match in_campaign_id i with Some k => uuid_str k | None => "None" end));
     ("publish_at", opt_str (isoformat <$> in_publish_at i));
     ("metadata", JObj (in_metadata i))])).

Section service.
Context `{PyRepr}.

Definition service_create_post (c : Settings) (r : registry) (i : intent) (fresh_post fresh_job : uuid) (t : Z) :
    method (SocialPost * SocialPublishJob * bool) :=
  pure (enabled c) ;;
  pure (check (negb (bool_decide (in_account_ids i = []))
               && truthy (strip (str_of_json (coalesce (json_get "text" (JObj (in_content i))) (JStr "")))))
          (social_error "SOCIAL_POST_INVALID" "Accounts and content text are required" 422)) ;;
  p ← pure (resolve_provider c);
  pure (registry_require r (provider_value p) POST_CREATE) ;;
  let post := mkPost (in_tenant_id i) p (in_account_ids i) (in_content i) (coalesce (in_post_id i) fresh_post)
                (in_campaign_id i) None QUEUED (in_publish_at i) (in_metadata i) t t in
  let job := mkJob (in_tenant_id i) (id post) p (intent_action i) (in_correlation_id i) (in_request_id i)
               (in_idempotency_key i) fresh_job "queued" 0 None in
  result ← create_post_and_job post job (job_type_value (intent_action i)) (service_hash i) None;
  (if (result.2 : bool) then append_audit t "POST_CREATED" post job "QUEUED" else mret tt) ;;
  mret result.

Definition command_capability (action : JobType) : exn + Capability :=
  match action with
  | PUBLISH => inr POST_PUBLISH
  | SCHEDULE => inr POST_SCHEDULE
  | CANCEL => inr POST_CANCEL
  | DELETE => inr POST_DELETE
  | _ => inl (LookupError "KeyError")
  end.

Definition service_command (c : Settings) (r : registry) (post_id : uuid) (action : JobType)
    (idem_key correlation request : string) (fresh_job : uuid) (t : Z) : method (SocialPublishJob * bool) :=
  pure (enabled c) ;;
  post ← reads (fun m => m_posts m !! post_id);
  post ← needs post post_not_found;
  cap ← pure (command_capability action);
  pure (registry_require r (provider_value (provider post)) cap) ;;
  pure (check (negb (bool_decide (action = PUBLISH) && negb (social_publish_enabled c)))
          (social_error "SOCIAL_PROVIDER_DISABLED" "Social publishing is disabled" 403)) ;;
  let job := mkJob (tenant_id post) (id post) (provider post) action correlation request idem_key fresh_job
               "queued" 0 None in
  stored ← enqueue_existing post job action;
  (if (stored.2 : bool)
   then append_audit t ("POST_" +:+ job_type_name action +:+ "_REQUESTED") post stored.1 "QUEUED"
   else mret tt) ;;
  mret stored.

(** [process_job] *)
Definition service_process_job (c : Settings) (r : registry) (job_id : uuid) (t : Z) : method SocialPost :=
  job ← reads (fun m => m_jobs m !! job_id);
  job ← needs job (LookupError "KeyError");
  post ← reads (fun m => m_posts m !! j_social_post_id job);
  post ← needs post (LookupError "KeyError");
  a ← pure (registry_get r (provider post));
  result ← match j_job_type job with
           | PUBLISH =>
               pure (check (social_publish_enabled c)
                       (social_error "SOCIAL_PROVIDER_DISABLED" "Social publishing is disabled" 403)) ;;
               pure (publish_post a post (j_correlation_id job))
           | SCHEDULE => pure (schedule_post a post (j_correlation_id job))
           | CANCEL => pure (cancel_post a post (j_correlation_id job))
           | DELETE => pure (delete_post a post (j_correlation_id job))
           | _ =>
               refs ← reads (fun m => omap (fun x => m_accounts m !! x) (account_ids post));
               pure (create_post a post refs (j_correlation_id job))
           end;
  let ref := match r_provider_post_id result with
             | Some s => if truthy s then Some s else provider_post_id post
             | None => provider_post_id post
             end in
  let post' := post <| provider_post_id := ref |> <| status := r_status result |> <| updated_at := t |> in
  writes (fun m => m <| m_posts ::= <[j_social_post_id job := post']> |>
                     <| m_jobs ::= alter (fun j => j <| j_state := "completed" |>) job_id |>) ;;
  append_audit t ("POST_SocialPostStatus." +:+ status_value (status post')) post' job "SUCCESS" ;;
  mret post'.
End service.
End SocialService.
