(* ===== verification/SocialApi.v ===== *)
(** * Social publishing: the HTTP handlers

    The routes of [src/app/api/v1/social.py].  A handler is a program on the
    SQL tables, the in-memory repository and the campaigns that the process
    holds; the setting [social_sql_repository_enabled] chooses between the
    first two.  A [SocialError] becomes the [HTTPException] of its status, whose
    detail is held as the error's code.  Health, the list of providers and the
    metrics are left out. *)

From Stdlib Require Import Ascii.
From S2P Require Import Prelude PyText Sha256 Txn PyTime PyUnicode PyParse SocialTables SocialRepo SocialPublish SocialService.
Import SocialTables SocialRepo SocialPublish SocialService.
Local Open Scope string_scope.
Local Open Scope Z_scope.

Module SocialApi.

(** ** Requests *)

Record Content := mkContent { ct_text : string; ct_media : list uuid }.
Record CreateSocialPost := mkCreate {
  cr_id : option uuid;
  cr_tenant_id : uuid;
  cr_campaign_id : option uuid;
  cr_accounts : list uuid;
  cr_content : Content;
  cr_publish_at : option datetime;
  cr_metadata : object;
}.

#[export] Instance CreateSocialPost_eta : Eta CreateSocialPost := fun b =>
  mkCreate (cr_id b) (cr_tenant_id b) (cr_campaign_id b) (cr_accounts b) (cr_content b) (cr_publish_at b)
    (cr_metadata b).

Definition valid_content (k : Content) : bool :=
  (1 <=? py_len (ct_text k)) && (py_len (ct_text k) <=? 10000) && (length (ct_media k) <=? 50)%nat.
Definition valid_key (key : string) : bool := (1 <=? py_len key) && (py_len key <=? 255).
Definition valid_create (b : CreateSocialPost) : bool :=
  (1 <=? length (cr_accounts b))%nat && (length (cr_accounts b) <=? 50)%nat && valid_content (cr_content b).

(** [content.model_dump(mode="json")] *)
Definition dump_content (k : Content) : object :=
  [("text", JStr (ct_text k));
   ("media", JList ((fun a => JObj [("asset_id", JStr (uuid_str a))]) <$> ct_media k))].

Definition unprocessable : exn := HTTPException 422 "validation error".

(** The headers the handlers read. *)
Record request_headers := mkHeaders {
  hd_correlation_id : option string;
  hd_request_id : option string;
  hd_permissions : option string;
  hd_idempotency_key : string;
  hd_content_approved : bool;
}.

Definition permissions (supplied : option string) : list string :=
  List.filter truthy (strip <$> split_comma (py_or supplied "")).

Definition require (permission : string) (supplied : option string) : exn + unit :=
  check (str_in permission (permissions supplied) || str_in "social.admin" (permissions supplied))
    (HTTPException 403 "SOCIAL_PERMISSION_DENIED").

Definition to_http (e : exn) : exn :=
  match e with SocialError code _ _ st _ => HTTPException st code | e => e end.

Definition as_http {A} (m : M db A) : M db A := try_except m (fun e => raise (to_http e)).

Definition header_or_uuid (h : option string) : M db string :=
  match h with
  | Some s => if truthy s then mret s else u ← uuid4; mret (uuid_str u)
  | None => u ← uuid4; mret (uuid_str u)
  end.

Definition ids (h : request_headers) : M db (string * string) :=
  correlation ← header_or_uuid (hd_correlation_id h);
  request ← header_or_uuid (hd_request_id h);
  mret (correlation, request).

Definition intent_of (b : CreateSocialPost) (p : ProviderName) (key correlation request : string) : intent :=
  mkIntent (cr_tenant_id b) p (cr_accounts b) (dump_content (cr_content b)) (cr_campaign_id b)
    (cr_publish_at b) (cr_metadata b) key correlation request (cr_id b).

(** ** The SQL side of the handlers *)

Section handlers.
Context `{PyRepr} (c : Settings) (r : registry).

Definition create_post_sql (b : CreateSocialPost) (h : request_headers) : M db (SocialPost * uuid * bool) :=
  lift (require "social.write" (hd_permissions h)) ;;
  i ← ids h;
  as_http (
    lift (enabled c) ;;
    p ← lift (resolve_provider c);
    lift (registry_require r (provider_value p) POST_CREATE) ;;
    created ← create_post_intent (intent_of b p (hd_idempotency_key h) i.1 i.2);
    post ← get_post created.1.1;
    mret (post, created.1.2, negb created.2)).

(** [except (KeyError, SocialError)] *)
Definition get_post_sql (post : uuid) (h : request_headers) : M db SocialPost :=
  lift (require "social.read" (hd_permissions h)) ;;
  try_except (get_post post) (fun e =>
    raise (match e with
           | SocialError _ _ _ _ _ | LookupError _ => HTTPException 404 "SOCIAL_POST_NOT_FOUND"
           | e => e
           end)).

Definition update_post_sql (post : uuid) (new_content : option Content) (new_metadata : option object)
    (h : request_headers) : M db SocialPost :=
  lift (require "social.write" (hd_permissions h)) ;;
  i ← ids h;
  as_http (update_post post (dump_content <$> new_content) new_metadata i.1 i.2).

Inductive command_response :=
  | DryRun (account : uuid)
  | Queued (job : uuid) (replay : bool).

Definition production_command (post : SocialPost) (approved : bool) : M db ProductionPublishContext :=
  x ← production_publish_context post approved;
  lift (validate c x) ;;
  a ← lift (registry_get r (provider post));
  health ← lift (health_check a);
  lift (require_provider_health health) ;;
  mret x.

Definition command_sql (post_id : uuid) (action : JobType) (permission : string) (dry_run approved : bool)
    (h : request_headers) : M db command_response :=
  lift (require permission (hd_permissions h)) ;;
  i ← ids h;
  as_http (
    guard_or (negb (dry_run && (negb (bool_decide (action = PUBLISH)) || negb (social_production_mode c)
                                || negb (social_sql_repository_enabled c))))
      (social_error "SOCIAL_PRODUCTION_CANARY_DISABLED"
         "Production dry-run requires SQL-backed production canary mode" 403) ;;
    lift (enabled c) ;;
    post ← get_post post_id;
    cap ← lift (command_capability action);
    lift (registry_require r (provider_value (provider post)) cap) ;;
    guard_or (negb (bool_decide (action = PUBLISH) && negb (social_publish_enabled c)))
      (social_error "SOCIAL_PROVIDER_DISABLED" "Social publishing is disabled" 403) ;;
    if bool_decide (action = PUBLISH) && social_production_mode c then
      x ← production_command post approved;
      if (dry_run : bool) then
        audit_production_dry_run post x i.1 i.2 (hd_idempotency_key h) ;;
        mret (DryRun (cx_account_id x))
      else
        queued ← enqueue_command post action (hd_idempotency_key h) i.1 i.2 (Some x);
        mret (Queued queued.1 (negb queued.2))
    else
      queued ← enqueue_command post action (hd_idempotency_key h) i.1 i.2 None;
      mret (Queued queued.1 (negb queued.2))).

(** The four routes. *)
Definition schedule (post : uuid) (h : request_headers) : M db command_response :=
  command_sql post SCHEDULE "social.schedule" false false h.
Definition publish (post : uuid) (dry_run : bool) (h : request_headers) : M db command_response :=
  command_sql post PUBLISH "social.publish" dry_run (hd_content_approved h) h.
Definition cancel (post : uuid) (h : request_headers) : M db command_response :=
  command_sql post CANCEL "social.cancel" false false h.
Definition delete (post : uuid) (h : request_headers) : M db command_response :=
  command_sql post DELETE "social.delete" false false h.

(** ** Webhooks *)

(** [json.loads] of the body: a value, [JSONDecodeError], or another
    [ValueError] (text that is no UTF-8). *)
Inductive loaded := Loaded (v : json) | BadJson | BadText.

Inductive webhook_response := Duplicate | Accepted (e : NormalizedEvent).

(** The handler up to the choice of the repository: the verified event and its
    provider's identifier of it. *)
Definition receive_webhook (provider_name body : string) (hs : headers) (parsed : loaded) (time : Z) :
    exn + (Adapter * string * json) :=
  a ← registry_require r provider_name WEBHOOK_EVENTS;
  verify_webhook a body hs time ;;
  v ← match parsed with
      | Loaded v => inr v
      | BadJson => inl (HTTPException 422 "SOCIAL_WEBHOOK_INVALID")
      | BadText => inl (ValueError "UnicodeDecodeError")
      end;
  e ← raw_get "id" v;
  let event_id := str_of_json (coalesce e (JStr "")) in
  check (truthy event_id) (social_error "SOCIAL_WEBHOOK_INVALID" "Webhook event ID is required" 422) ;;
  inr (a, event_id, v).

Definition webhook_sql (provider_name body : string) (hs : headers) (correlation : option string)
    (parsed : loaded) (time : Z) : M db webhook_response :=
  corr ← header_or_uuid correlation;
  as_http (
    got ← lift (receive_webhook provider_name body hs parsed time);
    let '(a, event_id, v) := got in
    event ← uuid4;
    e ← lift (normalize_webhook a event time v corr);
    created ← persist_webhook (social_n8n_events_enabled c) (n_provider e) event_id (sha256_text body) corr e
                (n_payload e);
    mret (if (created : bool) then Accepted e else Duplicate)).

(** ** The process: tables, memory and campaigns *)

Record campaign := mkCampaign {
  cp_id : uuid;
  cp_tenant_id : uuid;
  cp_name : string;
  cp_status : string;
  cp_metadata : object;
  cp_created_at : Z;
}.

Record app := mkApp {
  a_sql : db;
  a_memory : memory;
  a_campaigns : gmap uuid campaign;
}.

(** One request: the clock, the UUIDs it draws, and the tables, memory and
    campaigns it leaves. *)
Definition handler (A : Type) : Type := (nat -> Z) -> (nat -> uuid) -> app -> app * (exn + A).

Definition on_sql {A} (m : M db A) : handler A := fun clk us s =>
  let out := with_session clk us m (a_sql s) in (mkApp out.1 (a_memory s) (a_campaigns s), out.2).

Definition on_memory {A} (m : (nat -> Z) -> (nat -> uuid) -> method A) : handler A := fun clk us s =>
  let out := m clk us (a_memory s) in
  (mkApp (a_sql s) out.1 (a_campaigns s),
   match out.2 with inl e => inl (to_http e) | inr a => inr a end).

Definition text_or_uuid (h : option string) (u : uuid) : string := py_or h (uuid_str u).

Definition create_post_handler (b : CreateSocialPost) (h : request_headers) :
    handler (SocialPost * uuid * bool) :=
  if negb (valid_create b && valid_key (hd_idempotency_key h)) then fun _ _ s => (s, inl unprocessable)
  else if social_sql_repository_enabled c then on_sql (create_post_sql b h)
  else on_memory (fun clk us =>
    pure (require "social.write" (hd_permissions h)) ;;
    out ← service_create_post c r
            (intent_of b DISABLED (hd_idempotency_key h) (text_or_uuid (hd_correlation_id h) (us 0%nat))
               (text_or_uuid (hd_request_id h) (us 1%nat))) (us 2%nat) (us 3%nat) (clk 0%nat);
    mret (out.1.1, j_id out.1.2, negb out.2)).

Definition command_handler (post : uuid) (action : JobType) (permission : string) (dry_run approved : bool)
    (h : request_headers) : handler command_response :=
  if negb (valid_key (hd_idempotency_key h)) then fun _ _ s => (s, inl unprocessable)
  else if social_sql_repository_enabled c then on_sql (command_sql post action permission dry_run approved h)
  else on_memory (fun clk us =>
    pure (require permission (hd_permissions h)) ;;
    pure (check (negb dry_run) (social_error "SOCIAL_PRODUCTION_CANARY_DISABLED"
         "Production dry-run requires SQL-backed production canary mode" 403)) ;;
    out ← service_command c r post action (hd_idempotency_key h)
            (text_or_uuid (hd_correlation_id h) (us 0%nat)) (text_or_uuid (hd_request_id h) (us 1%nat))
            (us 2%nat) (clk 0%nat);
    mret (Queued (j_id out.1) (negb out.2))).

(** The in-memory [PATCH] edits the object in the dictionary. *)
Definition update_post_memory (post : uuid) (new_content : option Content) (new_metadata : option object)
    (t : Z) : method SocialPost :=
  p ← reads (fun m => m_posts m !! post);
  p ← needs p (HTTPException 404 "SOCIAL_POST_NOT_FOUND");
  pure (check (editable (status_value (status p))) (HTTPException 409 "SOCIAL_POST_NOT_EDITABLE")) ;;
  let p' := p <| content ::= coalesce (dump_content <$> new_content) |>
              <| metadata ::= coalesce new_metadata |> <| updated_at := t |> in
  writes (fun m => m <| m_posts ::= <[post := p']> |>) ;;
  mret p'.

Definition update_post_handler (post : uuid) (new_content : option Content) (new_metadata : option object)
    (h : request_headers) : handler SocialPost :=
  if negb (match new_content with Some k => valid_content k | None => true end)
  then fun _ _ s => (s, inl unprocessable)
  else if social_sql_repository_enabled c then on_sql (update_post_sql post new_content new_metadata h)
  else on_memory (fun clk us =>
    pure (require "social.write" (hd_permissions h)) ;;
    update_post_memory post new_content new_metadata (clk 0%nat)).

(** [GET /posts/{post_id}] *)
Definition get_post_handler (post : uuid) (h : request_headers) : handler SocialPost :=
  if social_sql_repository_enabled c then on_sql (get_post_sql post h)
  else on_memory (fun clk us =>
    pure (require "social.read" (hd_permissions h)) ;;
    p ← reads (fun m => m_posts m !! post);
    needs p (HTTPException 404 "SOCIAL_POST_NOT_FOUND")).

Definition webhook_handler (provider_name body : string) (hs : headers) (correlation : option string)
    (parsed : loaded) (time : Z) : handler webhook_response :=
  if social_sql_repository_enabled c
  then on_sql (webhook_sql provider_name body hs correlation parsed time)
  else on_memory (fun clk us =>
    got ← pure (receive_webhook provider_name body hs parsed time);
    let '(a, event_id, v) := got in
    seen ← reads (fun m => bool_decide (event_id ∈ m_webhook_ids m));
    if (seen : bool) then mret Duplicate
    else
      e ← pure (normalize_webhook a (us 1%nat) time v (text_or_uuid correlation (us 0%nat)));
      writes (fun m => m <| m_webhook_ids ::= fun s => {[event_id]} ∪ s |>) ;;
      mret (Accepted e)).

(** [POST /campaigns] and [GET /campaigns/{campaign_id}] *)
Definition create_campaign (tenant : uuid) (name : string) (m : object) (h : request_headers) :
    handler campaign := fun clk us s =>
  if negb ((1 <=? py_len name) && (py_len name <=? 255)) then (s, inl unprocessable)
  else match require "social.write" (hd_permissions h) with
       | inl e => (s, inl e)
       | inr _ =>
           let k := mkCampaign (us 0%nat) tenant name "DRAFT" m (clk 0%nat) in
           (mkApp (a_sql s) (a_memory s) (<[us 0%nat := k]> (a_campaigns s)), inr k)
       end.

Definition get_campaign (k : uuid) (h : request_headers) : handler campaign := fun _ _ s =>
  match require "social.read" (hd_permissions h) with
  | inl e => (s, inl e)
  | inr _ =>
      match a_campaigns s !! k with
      | Some v => (s, inr v)
      | None => (s, inl (HTTPException 404 "SOCIAL_CAMPAIGN_NOT_FOUND"))
      end
  end.
End handlers.
End SocialApi.
