(* ===== verification/SocialSystem.v ===== *)
(** * Social publishing: the system

    The tables with the workers that hold a claimed job and the log of the
    provider operations they called.  A step is one transaction of the API, of
    a worker or of the recovery scan, one call of a provider, or the end of a
    worker's process; the workers of several processes interleave freely.  The
    adapters of each step are arbitrary: what a provider answers is not
    assumed. *)

From Stdlib Require Import Ascii QArith.
From S2P Require Import Prelude PyText Sha256 Txn PyTime PyUnicode PyParse SocialTables SocialRepo SocialPublish SocialService SocialApi.
Import SocialTables SocialRepo SocialPublish SocialService SocialApi.
Local Open Scope string_scope.
Local Open Scope Z_scope.

Module SocialSystem.

(** ** [process_claimed_job] in two transactions

    Everything before the provider's answer, and the recording of it. *)

Definition begin_job (c : Settings) (r : registry) (job : job_row) : M db (SocialPost * Adapter * (exn + call)) :=
  post ← get_post (jb_social_post_id job);
  a ← lift (registry_get r (provider post));
  k ← try_except (k ← authorize c a job post; mret (inr k)) (fun e => mret (inl e));
  mret (post, a, k).

Definition finish_job (c : Settings) (job : job_row) (u : Q) (wall : Z) (answer : exn + ProviderResult) :
    M db string :=
  try_except (match answer with inr r => settle_result c job r | inl e => raise e end)
    (settle_failure c job u wall).

(** ** Worlds *)

Inductive phase := Claimed | Answered (answer : exn + ProviderResult).
Record worker := mkWorker { wk_job : job_row; wk_phase : phase }.

(** One call of a provider: the job as it was claimed, the post as it was read
    and the operation. *)
Record entry := mkEntry {
  en_job : job_row;
  en_post : SocialPost;
  en_call : call;
}.

Record world := mkWorld {
  w_db : db;
  (** the claims that are still worked on *)
  w_workers : gmap nat worker;
  w_log : list entry;
  (** the jobs that the recovery scan put back, once for each time *)
  w_recovered : list uuid;
}.
#[export] Instance world_eta : Eta world := fun w =>
  mkWorld (w_db w) (w_workers w) (w_log w) (w_recovered w).

Definition empty_db : db := mkDb ∅ ∅ ∅ [] ∅ ∅ [] ∅ ∅ ∅ ∅ 1 ∅ ∅.
Definition initial : world := mkWorld empty_db ∅ [] [].

(** A transaction at time [t], or at the times of a clock. *)
Definition run {A} (clk : nat -> Z) (us : nat -> uuid) (m : M db A) (d : db) : db * (exn + A) :=
  with_session clk us m d.
Arguments run : simpl never.

Inductive api_request :=
  | ApiCreate (b : CreateSocialPost) (h : request_headers)
  | ApiUpdate (post : uuid) (k : option Content) (m : option object) (h : request_headers)
  | ApiSchedule (post : uuid) (h : request_headers)
  | ApiPublish (post : uuid) (dry_run : bool) (h : request_headers)
  | ApiCancel (post : uuid) (h : request_headers)
  | ApiDelete (post : uuid) (h : request_headers)
  | ApiWebhook (provider_name body : string) (hs : headers) (correlation : option string)
      (parsed : loaded) (time : Z).

Section system.
Context `{PyRepr} (c : Settings).

Definition drop_body {A} (m : M db A) : M db unit := m ;; mret tt.

Definition serve_api (r : registry) (q : api_request) : M db unit :=
  match q with
  | ApiCreate b h => drop_body (create_post_sql c r b h)
  | ApiUpdate post k m h => drop_body (update_post_sql post k m h)
  | ApiSchedule post h => drop_body (schedule c r post h)
  | ApiPublish post dry h => drop_body (publish c r post dry h)
  | ApiCancel post h => drop_body (cancel c r post h)
  | ApiDelete post h => drop_body (delete c r post h)
  | ApiWebhook p body hs corr parsed time => drop_body (webhook_sql c r p body hs corr parsed time)
  end.

(** What a worker does with the outcome of [begin_job]: calls the provider, or
    goes on with the refusal. *)
Definition answer_of (job : job_row) (post : SocialPost) (a : Adapter) (k : exn + call) : exn + ProviderResult :=
  match k with inr k => perform a post (jb_correlation_id job) k | inl e => inl e end.
Definition log_of (job : job_row) (post : SocialPost) (k : exn + call) : list entry :=
  match k with inr k => [mkEntry job post k] | inl _ => [] end.

Inductive wstep : world -> world -> Prop :=
| w_api clk us r q w :
    wstep w (w <| w_db := (run clk us (serve_api r q) (w_db w)).1 |>)
(** accounts and campaigns are enrolled by operators *)
| w_enroll acc cps w :
    wstep w (w <| w_db := (w_db w) <| accounts := acc |> <| campaigns := cps |> |>)
| w_claim clk us n job rest w :
    (run clk us (claim_jobs (social_worker_id c) 1 (social_worker_lease_seconds c)) (w_db w)).2
      = inr (job :: rest) ->
    w_workers w !! n = None ->
    wstep w (w <| w_db := (run clk us (claim_jobs (social_worker_id c) 1 (social_worker_lease_seconds c))
                             (w_db w)).1 |>
               <| w_workers ::= <[n := mkWorker job Claimed]> |>)
| w_begin clk us r n job post a k w :
    w_workers w !! n = Some (mkWorker job Claimed) ->
    (run clk us (begin_job c r job) (w_db w)).2 = inr (post, a, k) ->
    wstep w (w <| w_workers ::= <[n := mkWorker job (Answered (answer_of job post a k))]> |>
               <| w_log ::= List.app (log_of job post k) |>)
| w_finish clk us n job answer u wall w :
    w_workers w !! n = Some (mkWorker job (Answered answer)) ->
    wstep w (w <| w_db := (run clk us (finish_job c job u wall answer) (w_db w)).1 |>
               <| w_workers ::= base.delete n |>)
(** an exception that nothing catches, or a crash *)
| w_die n w :
    wstep w (w <| w_workers ::= base.delete n |>)
| w_recover clk us found w :
    (run clk us recover_stale_jobs (w_db w)).2 = inr found ->
    wstep w (w <| w_db := (run clk us recover_stale_jobs (w_db w)).1 |>
               <| w_recovered ::= List.app (fst <$> found) |>).

Definition reachable (w : world) : Prop := rtc wstep initial w.
End system.

(** A request of the API leaves what its handler leaves. *)
Lemma social_run_drop_body {A} clk us (m : M db A) d : (run clk us (drop_body m) d).1 = (run clk us m d).1.
Proof. unfold run, with_session, drop_body, mbind, M_bind. by destruct (m _) as [s [e|a]]. Qed.
End SocialSystem.
