(* ===== verification/SocialSafety.v ===== *)
(** * Social publishing: what the tables and the workers guarantee

    How API transactions may change the tables ([api_evolves]), what each
    worker transaction does to its job, and the invariant of the system: the
    fence of the lease, the count of the attempts, and the number of provider
    calls a job can lead to. *)

From Stdlib Require Import Ascii QArith.
From S2P Require Import Prelude PyText Sha256 Txn PyTime PyUnicode PyParse SocialTables SocialRepo SocialPublish SocialService SocialApi SocialSystem.
Import SocialTables SocialRepo SocialPublish SocialService SocialApi SocialSystem.
Local Open Scope string_scope.
Local Open Scope Z_scope.

Module SocialSafety.

(** The two transactions of [begin_job] and [finish_job], one after the other,
    are [process_claimed_job]. *)
Lemma process_claimed_job_split c r job u wall s :
  process_claimed_job c r job u wall s
  = (out ← begin_job c r job;
     finish_job c job u wall (answer_of job out.1.1 out.1.2 out.2)) s.
Proof.
  unfold process_claimed_job, begin_job, finish_job. unfold mbind, M_bind, try_except.
  destruct (get_post _ s) as [s1 [e|post]]; [done|].
  destruct (lift _ s1) as [s2 [e|a]]; [done|].
  destruct (authorize c a job post s2) as [s3 [e|k]]; cbn; [done|].
  destruct (perform a post _ k) as [e|x]; cbn; done.
Qed.

(** ** What the API may change *)

(** The columns of a post that its creation fixes. *)
Definition ownership (r : post_row) : uuid * uuid * option uuid * string * option Z * Z :=
  (po_id r, po_tenant_id r, po_campaign_id r, po_provider r, po_publish_at r, po_created_at r).

Record new_job_row (k : uuid) (j : job_row) : Prop := mkNewJob {
  nj_id : jb_id j = k;
  nj_state : jb_state j = "queued";
  nj_attempts : jb_attempt_count j = 0;
  nj_token : jb_fencing_token j = 0;
  nj_certainty : jb_result_certainty j = "NOT_SENT";
}.

Record api_evolves (d d' : db) : Prop := mkApiEvolves {
  ae_jobs : jobs d ⊆ jobs d';
  ae_new : forall k j, jobs d' !! k = Some j -> jobs d !! k = None -> new_job_row k j;
  ae_attempts : attempts d' = attempts d;
  ae_idempotency : keeps_keys (idempotency d) (idempotency d');
  ae_posts : (ownership <$> posts d) ⊆ (ownership <$> posts d');
  ae_webhooks : webhooks d ⊆ webhooks d';
}.

#[export] Instance api_evolves_preorder : PreOrder api_evolves.
Proof.
  split; [intros d; split; try done; congruence|].
  intros d d' d'' [J N A I P W] [J' N' A' I' P' W']. split; try (by etrans).
  - intros k j Hj Hn. destruct (jobs d' !! k) as [j'|] eqn:E; [|by apply N'].
    replace j with j' by (apply (lookup_weaken _ _ _ _ E) in J'; congruence). by apply N.
Qed.

(** Solves the parts of [api_evolves] about tables that are not written. *)
Ltac unchanged := split; cbn; try done; try (intros; congruence).

Lemma insert_new {K V} `{Countable K} (m : gmap K V) k v : is_null (m !! k) = true -> m ⊆ <[k := v]> m.
Proof. intros E%is_null_true. by apply insert_subseteq. Qed.
Lemma insert_new_fmap {K V W} `{Countable K} (f : V -> W) (m : gmap K V) k v :
  is_null (m !! k) = true -> (f <$> m) ⊆ (f <$> <[k := v]> m).
Proof. intros E%is_null_true. rewrite fmap_insert. apply insert_subseteq. by rewrite lookup_fmap, E. Qed.
Lemma insert_same_fmap {K V W} `{Countable K} (f : V -> W) (m : gmap K V) k v v' :
  m !! k = Some v -> f v' = f v -> f <$> <[k := v']> m = f <$> m.
Proof. intros E Hf. rewrite fmap_insert. apply insert_id. by rewrite lookup_fmap, E; cbn; rewrite Hf. Qed.

Lemma evolves_insert_post r d d' : insert_post r d = Some d' -> api_evolves d d'.
Proof.
  unfold insert_post. destruct (is_null _) eqn:E; [|done]. case_match; [|done]. intros [= <-].
  unchanged. by apply insert_new_fmap.
Qed.
Lemma evolves_insert_post_account p a d d' : insert_post_account p a d = Some d' -> api_evolves d d'.
Proof. unfold insert_post_account. case_match; [|done]. intros [= <-]. unchanged. Qed.
Lemma evolves_insert_job r d d' :
  new_job_row (jb_id r) r -> insert_job r d = Some d' -> api_evolves d d'.
Proof.
  intros Hr. unfold insert_job. destruct (is_null _) eqn:E; [|done]. case_match; [|done]. intros [= <-].
  unchanged; [by apply insert_new|].
  intros k j Hj Hn. apply lookup_insert_Some in Hj as [[<- <-]|[_ ?]]; [done|congruence].
Qed.
Lemma evolves_insert_audit k r d d' : insert_audit k r d = Some d' -> api_evolves d d'.
Proof. unfold insert_audit. case_match; [|done]. intros [= <-]. unchanged. Qed.
Lemma evolves_insert_provider_event k r d d' : insert_provider_event k r d = Some d' -> api_evolves d d'.
Proof. unfold insert_provider_event. case_match; [|done]. intros [= <-]. unchanged. Qed.
Lemma evolves_insert_event r d d' : insert_event r d = Some d' -> api_evolves d d'.
Proof. unfold insert_event. case_match; [|done]. intros [= <-]. unchanged. Qed.
Lemma evolves_insert_outbox k r d d' : insert_outbox k r d = Some d' -> api_evolves d d'.
Proof. unfold insert_outbox. case_match; [|done]. intros [= <-]. unchanged. Qed.

Create HintDb social.
#[export] Hint Resolve evolves_insert_post evolves_insert_post_account evolves_insert_audit
  evolves_insert_provider_event evolves_insert_event evolves_insert_outbox : social.

Section evolution.
Context `{PyRepr} (d0 : db).
Notation follows := (keeps (api_evolves d0)).

Lemma social_follows_execute f : (forall d, api_evolves d (f d)) -> follows (execute f).
Proof. intros Hf. apply keeps_execute. intros d Hd. by etrans. Qed.
Lemma social_follows_insert c f : (forall d d', f d = Some d' -> api_evolves d d') -> follows (insert_or c f).
Proof. intros Hf. apply keeps_insert_or. intros d d' Hd E. etrans; [done|]. eauto. Qed.
Lemma social_follows_lift {A} (r : exn + A) : follows (lift r).
Proof. destruct r; [apply keeps_raise|apply keeps_ret]. Qed.

Ltac follow :=
  repeat match goal with
  | |- keeps _ (insert_or _ (insert_job _)) => apply social_follows_insert; intros ? ?; by apply evolves_insert_job
  | |- keeps _ (insert_or _ _) => apply social_follows_insert; solve [eauto with social]
  | |- keeps _ (lift _) => apply social_follows_lift
  | |- keeps _ (as_http _) => unfold as_http
  | |- keeps _ (try_except _ _) => apply keeps_try; [|intros ?]
  | _ => keeps_step
  end.

Lemma follows_reserve key row : follows (reserve key row).
Proof.
  intros s Hs. unfold reserve, mbind, M_bind, query. destruct (find_key key (idempotency (working s))) eqn:E; [done|].
  destruct Hs as [Hc Hw]. split; cbn; [done|]. etrans; [done|]. unchanged. by apply keeps_keys_cons.
Qed.
Lemma follows_get_post p : follows (get_post p).
Proof. unfold get_post. follow. Qed.
Lemma follows_audit tn ac po cp pr co rq jb kh rs acc : follows (audit tn ac po cp pr co rq jb kh rs acc).
Proof. unfold audit. follow. Qed.
Lemma follows_signal job co : follows (signal job co).
Proof. unfold signal. follow. Qed.
Lemma follows_context p b : follows (production_publish_context p b).
Proof. unfold production_publish_context. follow. Qed.
#[local] Hint Resolve follows_reserve follows_get_post follows_audit follows_signal follows_context : mw.

Lemma follows_create_post_intent i : follows (create_post_intent i).
Proof. unfold create_post_intent, store_intent. follow. Qed.
Lemma follows_enqueue_command p a k co rq x : follows (enqueue_command p a k co rq x).
Proof. unfold enqueue_command. follow. Qed.

(** An [UPDATE] of a row that was read in the same transaction. *)
Lemma follows_update_post p k m co rq : follows (update_post p k m co rq).
Proof.
  unfold update_post. apply keeps_bind; [apply keeps_now|]. intros t s Hs.
  unfold mbind at 1, M_bind, query. destruct (posts (working s) !! p) as [r|] eqn:E; [|done].
  cbv beta iota zeta. destruct (editable (po_status r)) eqn:Ed; [|done].
  set (r' := r <| po_content ::= _ |> <| po_metadata ::= _ |> <| po_updated_at := _ |>).
  unfold mbind at 1, M_bind, execute. eapply keeps_bind; [apply keeps_uuid4|intros key|].
  { follow. }
  destruct Hs as [Hc Hw]. split; cbn; [done|]. etrans; [done|]. unchanged.
  by rewrite (insert_same_fmap _ _ _ r).
Qed.
Lemma follows_dry_run p x co rq k : follows (audit_production_dry_run p x co rq k).
Proof. unfold audit_production_dry_run. follow. Qed.
#[local] Hint Resolve follows_create_post_intent follows_enqueue_command follows_update_post follows_dry_run : mw.

Lemma follows_publish_event n r m : follows m -> follows (publish_event n r m).
Proof. intros Hm. unfold publish_event. follow; try done. intros d Hd. etrans; [done|]. unchanged. Qed.
Lemma follows_persist_webhook n p e h co ev sf : follows (persist_webhook n p e h co ev sf).
Proof.
  unfold persist_webhook. follow.
  - intros d d' Hd. destruct (is_null _) eqn:E; [|done]. case_match; [|done].
    intros [= <-]. etrans; [done|]. unchanged. by apply insert_new.
  - apply follows_publish_event, keeps_ret.
Qed.

Lemma follows_header h : follows (header_or_uuid h).
Proof. unfold header_or_uuid. follow. Qed.
Lemma follows_ids h : follows (ids h).
Proof. unfold ids. follow; apply follows_header. Qed.
#[local] Hint Resolve follows_header follows_ids follows_persist_webhook : mw.
Lemma follows_command c r p a pm dry ap h : follows (command_sql c r p a pm dry ap h).
Proof. unfold command_sql, production_command. follow. Qed.

(** Whatever a request does, and however it ends. *)
Lemma follows_serve_api c r q : follows (serve_api c r q).
Proof.
  destruct q; unfold serve_api, drop_body; (apply keeps_bind; [|intros; apply keeps_ret]);
    try apply follows_command; unfold create_post_sql, update_post_sql, webhook_sql; follow.
Qed.
End evolution.

Lemma run_api_evolves `{PyRepr} c r clk us q d : api_evolves d (run clk us (serve_api c r q) d).1.
Proof. apply (keeps_with_session (api_evolves d)); [apply follows_serve_api|done]. Qed.
End SocialSafety.

(** * Social publishing: the fence of the lease

    What each transaction of a worker and of the recovery scan does to the
    tables, and the invariant of every reachable world: a worker whose claim is
    current holds the very row of the table, attempts are numbered without a
    gap in use, and a claim calls the provider at most once. *)

Import SocialTables SocialRepo SocialPublish SocialService SocialApi SocialSystem SocialSafety.
Module SocialFence.

(** ** Claims and recovery *)

(** The rows of a table under their own keys. *)
Definition keyed (d : db) : Prop := forall k j, jobs d !! k = Some j -> jb_id j = k.

Lemma update_where_one (m : gmap uuid job_row) j f :
  (forall k x, m !! k = Some x -> jb_id x = k) -> m !! jb_id j = Some j ->
  update_where (fun x => bool_decide (jb_id x ∈ [jb_id j])) f m = <[jb_id j := f j]> m.
Proof.
  intros Hk Hj. apply map_eq. intros k. rewrite lookup_update_where, lookup_insert.
  case_decide as E.
  - subst k. rewrite Hj. cbn. by rewrite bool_decide_true by by left.
  - destruct (m !! k) as [x|] eqn:Ex; [|done]. cbn. rewrite bool_decide_false; [done|].
    rewrite (Hk _ _ Ex), list_elem_of_singleton. congruence.
Qed.

Lemma claimable_in t n d j : j ∈ claimable t n d -> due t j = true /\ exists k, jobs d !! k = Some j.
Proof.
  unfold claimable. intros (i & Hi & _)%elem_of_take. apply list_elem_of_lookup_2 in Hi.
  rewrite sort_by_perm in Hi. by apply elem_of_select_where in Hi.
Qed.

(** A claim takes one due job and leaves the others. *)
Lemma run_claim_jobs clk us worker lease job rest d :
  keyed d -> (run clk us (claim_jobs worker 1 lease) d).2 = inr (job :: rest) ->
  exists j t, jobs d !! jb_id j = Some j /\ due t j = true /\ job = claim worker lease t j /\ rest = []
    /\ (run clk us (claim_jobs worker 1 lease) d).1 = d <| jobs ::= <[jb_id j := job]> |>.
Proof.
  intros Hk. set (t := clk 0%nat).
  change (run clk us (claim_jobs worker 1 lease) d) with
    (d <| jobs ::= update_where (fun j => bool_decide (jb_id j ∈ (jb_id <$> claimable t 1 d)))
                     (claim worker lease t) |>,
     (inr (claim worker lease t <$> claimable t 1 d) : exn + list job_row)). cbn [fst snd].
  destruct (claimable t 1 d) as [|j l] eqn:E; [done|].
  assert (l = []) as ->.
  { assert (Hlen : (length (claimable t 1 d) <= 1)%nat) by (unfold claimable; rewrite length_take; lia).
    rewrite E in Hlen. destruct l; [done|]. cbn in Hlen. lia. }
  cbn. intros [= <- <-]. exists j, t.
  destruct (claimable_in t 1 d j) as [Hd [k Hj]]; [rewrite E; by left|].
  pose proof (Hk _ _ Hj) as <-. repeat split; try done. unfold upd; cbn.
  by rewrite update_where_one.
Qed.

Lemma run_recover_stale clk us found d :
  (run clk us recover_stale_jobs d).2 = inr found ->
  exists t, found = (fun j => (jb_id j, jb_correlation_id j)) <$> select_where (stale t) (jobs d)
    /\ (run clk us recover_stale_jobs d).1 = d <| jobs ::= update_where (stale t) (recover t) |>.
Proof.
  change (run clk us recover_stale_jobs d) with
    (d <| jobs ::= update_where (stale (clk 0%nat)) (recover (clk 0%nat)) |>,
     (inr ((fun j => (jb_id j, jb_correlation_id j)) <$> select_where (stale (clk 0%nat)) (jobs d))
      : exn + list (uuid * string))). cbn [fst snd].
  intros [= <-]. by exists (clk 0%nat).
Qed.

(** ** Settling a job *)

(** The rows a worker's result leads to. *)
Inductive settled (c : Settings) (job j : job_row) : job_row -> attempt_row -> Prop :=
| settled_ok t :
    settled c job j (completed t j)
      (mkAttemptRow (jb_id job) (jb_attempt_count job + 1) "SUCCESS" None None t)
| settled_failed f wall delay t :
    settled c job j (failed f (jb_attempt_count job + 1) (social_job_max_attempts c) wall delay t j)
      (mkAttemptRow (jb_id job) (jb_attempt_count job + 1)
         (if failure_dead f (jb_attempt_count job + 1) (social_job_max_attempts c) then "DEAD_LETTER" else "RETRY")
         (Some (f_code f)) (Some (text_prefix 512 (f_message f))) t).

(** What a settled job leaves of the tables: its row, one more attempt, and
    the result on its post. *)
Record settles (c : Settings) (job : job_row) (d d' : db) : Prop := mkSettles {
  st_job : exists j j' key a, jobs d !! jb_id job = Some j /\ holds_lease job j = true
    /\ settled c job j j' a /\ jobs d' = <[jb_id job := j']> (jobs d)
    /\ attempts d !! key = None /\ attempts d' = <[key := a]> (attempts d);
  st_idempotency : idempotency d' = idempotency d;
  st_posts : ownership <$> posts d' = ownership <$> posts d;
  st_webhooks : webhooks d' = webhooks d;
}.

(** The tables that the worker's other inserts leave as they are. *)
Definition core (d : db) := (jobs d, attempts d, idempotency d, posts d, webhooks d).

Lemma core_insert_audit k r d d' : insert_audit k r d = Some d' -> core d' = core d.
Proof. unfold insert_audit. case_match; [|done]. by intros [= <-]. Qed.
Lemma core_insert_event r d d' : insert_event r d = Some d' -> core d' = core d.
Proof. unfold insert_event. case_match; [|done]. by intros [= <-]. Qed.
Lemma core_insert_provider_event k r d d' : insert_provider_event k r d = Some d' -> core d' = core d.
Proof. unfold insert_provider_event. case_match; [|done]. by intros [= <-]. Qed.

Lemma set_post_result_core p ref st t d d' : set_post_result p ref st t d = Some d' ->
  jobs d' = jobs d /\ attempts d' = attempts d /\ idempotency d' = idempotency d
  /\ webhooks d' = webhooks d /\ ownership <$> posts d' = ownership <$> posts d.
Proof.
  unfold set_post_result. destruct (posts d !! p) as [r|] eqn:E; [|by intros [= <-]].
  cbv zeta. intros Hd. case_match; [|done]. simplify_eq. cbn. by rewrite (insert_same_fmap _ _ _ r).
Qed.

Lemma insert_attempt_core k r d d' : insert_attempt k r d = Some d' ->
  attempts d !! k = None /\ d' = d <| attempts ::= <[k := r]> |>.
Proof.
  unfold insert_attempt. destruct (is_null _) eqn:E; [|done]. apply is_null_true in E.
  case_match; [|done]. by intros [= <-].
Qed.

Lemma wp_worker_audit job a rs e m Q s :
  (forall d', core d' = core (working s) -> forall us,
     Q (Session (committed s) d' (clock s) us) (inr tt)) ->
  (forall s', committed s' = committed s -> forall e, Q s' (inl (IntegrityError e))) ->
  wp (worker_audit job a rs e m) Q s.
Proof.
  intros Hok Hno. unfold worker_audit. destruct (jb_production_canary job).
  - wp_run; [|by apply Hno]. apply Hok. by eapply core_insert_audit.
  - apply wp_ret. destruct s. by apply Hok.
Qed.

(** The claim of [job] is still the current one. *)
Definition current (job : job_row) (d : db) : Prop :=
  exists j, jobs d !! jb_id job = Some j /\ holds_lease job j = true.

Lemma wp_update_leased job (f : job_row -> job_row) (Q : session db -> exn + bool -> Prop) s :
  (forall j, jobs (working s) !! jb_id job = Some j -> holds_lease job j = true ->
     Q (Session (committed s) ((working s) <| jobs ::= <[jb_id job := f j]> |>) (clock s) (supply s)) (inr true)) ->
  (~ current job (working s) -> Q s (inr false)) -> wp (update_leased job f) Q s.
Proof.
  intros Hok Hno. unfold update_leased. wp_run; try by eapply Hok.
  all: apply Hno; intros (j0 & Hj0 & Hl0); congruence.
Qed.

Lemma wp_publish_event n8n r m (Q : session db -> exn + unit -> Prop) s :
  (forall d, insert_event r (working s) = Some d ->
     wp m (fun s' x => match x with
                       | inl e => Q s' (inl e)
                       | inr _ => forall d', core d' = core (working s') ->
                                  Q (Session (committed s') d' (clock s') (supply s')) (inr tt)
                       end) (Session (committed s) d (clock s) (supply s))) ->
  (forall e, Q s (inl (IntegrityError e))) -> wp (publish_event n8n r m) Q s.
Proof.
  intros Hok Hno. unfold publish_event. wp_run; [|apply Hno].
  eapply wp_mono, Hok; [|done]. intros s' [e|[]] HQ; [done|]. wp_run; [by apply HQ|].
  destruct s'. by apply HQ.
Qed.

Lemma wp_complete_job c n8n job ref st s :
  clean s ->
  wp (complete_job n8n job ref st) (fun s' r =>
    match r with
    | inr _ => settles c job (committed s) (committed s')
    | inl e => committed s' = committed s
               /\ (e = lease_lost /\ clean s' /\ ~ current job (committed s) \/ exists k, e = IntegrityError k)
    end) s.
Proof.
  intros Hclean. unfold complete_job. do 4 wp_step. cbv zeta. apply wp_bind, wp_update_leased; wp_simpl.
  2: { intros Hno. cbn [negb]. wp_run. split; [done|]. left. by rewrite <- Hclean. }
  intros j Hj Hl. cbn [negb]. wp_step. wp_step; [|by eauto]. wp_step. wp_step. wp_step. wp_step; [|by eauto].
  wp_step. apply wp_publish_event; wp_simpl; [|by eauto].
  intros d3 E3. wp_step; [|by eauto]. intros d5 C5. wp_step. apply wp_worker_audit; wp_simpl; [|by eauto].
  intros d6 C6 us. wp_run. 
  apply set_post_result_core in H as (J1 & A1 & I1 & W1 & P1).
  apply insert_attempt_core in H0 as [Hk ->].
  apply core_insert_event in E3. apply core_insert_provider_event in H1. 
  rewrite C5, H1, E3 in C6. unfold core in C6. cbn in *. simplify_eq C6. intros J6 A6 I6 P6 W6.
  rewrite <- Hclean. split; try congruence.
  exists j, (completed (clock s 0%nat) j), (supply s 1%nat). eexists.
  split_and!; [done|done|apply settled_ok|congruence|congruence|by rewrite A6, A1].
Qed.

Lemma wp_fail_job c job f wall delay s :
  clean s ->
  wp (fail_job job f (social_job_max_attempts c) wall delay) (fun s' r =>
    match r with
    | inr state => settles c job (committed s) (committed s')
                     /\ state = (if failure_dead f (jb_attempt_count job + 1) (social_job_max_attempts c)
                                 then "dead_letter" else "retry")
                   \/ state = "lease_lost" /\ committed s' = committed s /\ ~ current job (committed s)
    | inl e => committed s' = committed s /\ exists k, e = IntegrityError k
    end) s.
Proof.
  intros Hclean. unfold fail_job. do 2 wp_step. cbv zeta. apply wp_bind, wp_update_leased; wp_simpl.
  2: { intros Hno. cbn [negb]. wp_run. right. by rewrite <- Hclean. }
  intros j Hj Hl. cbn [negb]. wp_step. wp_step. wp_step. wp_step; [|by eauto].
  wp_step. apply wp_worker_audit; wp_simpl; [|by eauto].
  intros d6 C6 us. wp_run. left. split; [|done].
  apply insert_attempt_core in H as [Hk ->]. unfold core in C6. cbn in *. simplify_eq C6. intros J6 A6 I6 P6 W6.
  rewrite <- Hclean. split; try congruence.
  eexists j, _, (supply s 0%nat), _.
  split_and!; [done|done|apply settled_failed|done|done|by rewrite A6].
Qed.

(** Recording the answer either settles the job of a current claim or leaves
    the tables as they are; a claim that is no longer current leaves them. *)
Definition finishes (c : Settings) (job : job_row) (d d' : db) : Prop :=
  (settles c job d d' \/ d' = d) /\ (~ current job d -> d' = d).

Lemma settles_current c job d d' : settles c job d d' -> current job d.
Proof. intros [(j & ? & ? & ? & ? & ? & _) _ _ _]. by exists j. Qed.
Lemma finishes_settles c job d d' : settles c job d d' -> finishes c job d d'.
Proof. intros Hs. split; [by left|]. intros []. by eapply settles_current. Qed.
Lemma finishes_same c job d : finishes c job d d.
Proof. split; [by right|done]. Qed.

Lemma wp_finish_job c job u wall answer s :
  clean s -> wp (finish_job c job u wall answer) (fun s' _ => finishes c job (committed s) (committed s')) s.
Proof.
  intros Hclean.
  assert (Hsame : forall s', committed s' = committed s -> finishes c job (committed s) (committed s'))
    by (intros s' ->; apply finishes_same).
  assert (Hfail : forall e s', clean s' -> committed s' = committed s ->
    wp (settle_failure c job u wall e) (fun s' _ => finishes c job (committed s) (committed s')) s').
  { intros e s' Hc Hd. unfold settle_failure. destruct e; try (apply wp_raise; by apply Hsame).
    apply wp_bind. unfold lift. destruct (retry_delay _ _) as [e|delay]; [apply wp_raise; by apply Hsame|].
    apply wp_ret. eapply wp_mono, (wp_fail_job c); [|done]. rewrite Hd.
    intros s2 [e|state]; [intros [? _]; by apply Hsame|].
    intros [[Hs _]|(_ & E & _)]; [by apply finishes_settles|by apply Hsame]. }
  unfold finish_job. apply wp_try. destruct answer as [e|r]; [apply wp_raise; by apply Hfail|].
  unfold settle_result. apply wp_bind. eapply wp_mono, (wp_complete_job c); [|done]. cbn.
  intros s' [e|x].
  - intros [Hd [(-> & Hc & _)|[k ->]]]; [by apply Hfail|]. apply wp_raise. by apply Hsame.
  - intros Hs. by apply finishes_settles.
Qed.

Lemma run_finish_job c clk us job u wall answer d :
  finishes c job d (run clk us (finish_job c job u wall answer) d).1.
Proof. by apply (wp_finish_job c job u wall answer (Session d d clk us)). Qed.
End SocialFence.
