(* ===== verification/SocialInvariant.v ===== *)
(** * Social publishing: the invariant of the system

    Every reachable world satisfies [world_inv]: the count of attempts, the
    fencing token and the recoveries of a job agree, a current claim is the row
    of the table, and a claim calls the provider at most once. *)

From Stdlib Require Import Ascii QArith.
From S2P Require Import Prelude PyText Sha256 Txn PyTime PyUnicode PyParse SocialTables SocialRepo SocialPublish SocialService SocialApi SocialSystem SocialSafety.
Import SocialTables SocialRepo SocialPublish SocialService SocialApi SocialSystem SocialSafety SocialFence.
Local Open Scope string_scope.
Local Open Scope Z_scope.

Module SocialInvariant.

(** ** Counting *)

Definition count_of (k : uuid) (l : list uuid) : Z :=
  Z.of_nat (length (List.filter (fun x => bool_decide (x = k)) l)).

Lemma count_of_app k l l' : count_of k (l ++ l') = count_of k l + count_of k l'.
Proof. unfold count_of. rewrite List.filter_app, length_app. lia. Qed.

Lemma count_of_absent k l : k ∉ l -> count_of k l = 0.
Proof.
  unfold count_of. induction l as [|x l IH]; cbn; [done|]. intros [Hx Hl]%not_elem_of_cons.
  rewrite bool_decide_false by congruence. by apply IH.
Qed.

Lemma count_of_once k l : NoDup l -> k ∈ l -> count_of k l = 1.
Proof.
  induction 1 as [|x l Hx Hl IH]; [by intros ?%not_elem_of_nil|]. intros [->|Hk]%elem_of_cons.
  - change (x :: l) with ([x] ++ l)%list. rewrite count_of_app, (count_of_absent x l) by done.
    unfold count_of. cbn. by rewrite bool_decide_true.
  - change (x :: l) with ([x] ++ l)%list. rewrite count_of_app, IH by done.
    rewrite (count_of_absent k [x]); [done|]. rewrite list_elem_of_singleton. congruence.
Qed.

Lemma list_filter_sublist {A} (p : A -> bool) l : sublist (List.filter p l) l.
Proof. induction l as [|x l IH]; cbn; [constructor|]. destruct (p x); by constructor. Qed.

Lemma fmap_sublist {A B} (f : A -> B) l l' : sublist l l' -> sublist (f <$> l) (f <$> l').
Proof. induction 1; cbn; by constructor. Qed.

(** The keys of the selected rows are distinct. *)
Lemma selected_NoDup p (m : gmap uuid job_row) :
  (forall k j, m !! k = Some j -> jb_id j = k) -> NoDup (jb_id <$> select_where p m).
Proof.
  intros Hk. eapply sublist_NoDup; [apply (NoDup_fst_map_to_list m)|].
  replace (fst <$> map_to_list m) with (jb_id <$> rows m).
  - apply fmap_sublist, list_filter_sublist.
  - unfold rows. rewrite <- list_fmap_compose. apply list_fmap_ext. intros i [k j] Hi. cbn.
    apply Hk, elem_of_map_to_list. by eapply list_elem_of_lookup_2.
Qed.

Lemma selected_count p (m : gmap uuid job_row) k j :
  (forall k j, m !! k = Some j -> jb_id j = k) -> m !! k = Some j ->
  count_of k (jb_id <$> select_where p m) = if p j then 1 else 0.
Proof.
  intros Hk Hj. destruct (p j) eqn:E.
  - apply count_of_once; [by apply selected_NoDup|]. rewrite <- (Hk k j Hj).
    apply list_elem_of_fmap_2, elem_of_select_where. eauto.
  - apply count_of_absent. intros (x & -> & Hx)%list_elem_of_fmap.
    apply elem_of_select_where in Hx as [Hp [k' Hk']]. rewrite (Hk _ _ Hk') in Hj. congruence.
Qed.

(** ** The invariant *)

(** How many failures a job may record before it is dead. *)
Definition bound (c : Settings) : Z := Z.max 1 (social_job_max_attempts c).

(** Not given up: its failures so far were retried. *)
Definition is_open (j : job_row) : bool := str_in (jb_state j) ["queued"; "retry"; "processing"; "completed"].
Definition busy (j : job_row) : Z := if str_in (jb_state j) ["processing"; "completed"] then 1 else 0.
Definition succeeded (j : job_row) : Z := if bool_decide (jb_state j = "completed") then 1 else 0.

Record job_inv (c : Settings) (atts : gmap uuid attempt_row) (recovered : list uuid) (k : uuid) (j : job_row) :
    Prop := mkJobInv {
  ji_id : jb_id j = k;
  ji_state : str_in (jb_state j) ["queued"; "retry"; "processing"; "completed"; "dead_letter"] = true;
  ji_attempts : 0 <= jb_attempt_count j <= bound c;
  ji_open : is_open j = true -> jb_attempt_count j < bound c;
  ji_unknown : jb_result_certainty j = "UNKNOWN_AFTER_SEND" -> jb_state j = "dead_letter";
  ji_token : jb_fencing_token j = jb_attempt_count j + count_of k recovered + busy j;
  ji_numbers : forall key a, atts !! key = Some a -> at_job_id a = k ->
    1 <= at_attempt_number a <= jb_attempt_count j + succeeded j;
}.

(** The row behind a claim: the token has not gone back, and while the claim is
    current the row is the claimed one. *)
Definition held (d : db) (job : job_row) : Prop :=
  exists j, jobs d !! jb_id job = Some j /\ 1 <= jb_fencing_token job <= jb_fencing_token j
    /\ (holds_lease job j = true -> j = job).

Definition tag (job : job_row) : uuid * Z := (jb_id job, jb_fencing_token job).

Record world_inv (c : Settings) (w : world) : Prop := mkWorldInv {
  wi_jobs : forall k j, jobs (w_db w) !! k = Some j -> job_inv c (attempts (w_db w)) (w_recovered w) k j;
  wi_attempts : forall key a, attempts (w_db w) !! key = Some a -> is_Some (jobs (w_db w) !! at_job_id a);
  wi_recovered : forall k, k ∈ w_recovered w -> is_Some (jobs (w_db w) !! k);
  wi_workers : forall n wk, w_workers w !! n = Some wk -> held (w_db w) (wk_job wk);
  wi_distinct : forall n m a b, w_workers w !! n = Some a -> w_workers w !! m = Some b ->
    tag (wk_job a) = tag (wk_job b) -> n = m;
  wi_log : forall e, e ∈ w_log w -> held (w_db w) (en_job e);
  wi_once : NoDup ((fun e => tag (en_job e)) <$> w_log w);
  wi_silent : forall n job e, w_workers w !! n = Some (mkWorker job Claimed) -> e ∈ w_log w ->
    tag (en_job e) <> tag job;
}.

Lemma inv_keyed c w : world_inv c w -> keyed (w_db w).
Proof. intros Hw k j Hj. by apply (ji_id _ _ _ _ _ (wi_jobs _ _ Hw k j Hj)). Qed.

(** ** Steps of a row *)

Definition row_step (j j' : job_row) : Prop :=
  j' = j \/ jb_fencing_token j < jb_fencing_token j'
  \/ jb_fencing_token j' = jb_fencing_token j /\ jb_state j' <> "processing".

Definition rows_step (d d' : db) : Prop :=
  forall k j, jobs d !! k = Some j -> exists j', jobs d' !! k = Some j' /\ row_step j j'.

Lemma held_step d d' job : rows_step d d' -> held d job -> held d' job.
Proof.
  intros Hs (j & Hj & Ht & He). destruct (Hs _ _ Hj) as (j' & Hj' & Hr). exists j'. split; [done|].
  destruct Hr as [->|[Hlt|[Heq Hst]]]; [done|split..]; [lia| |lia|];
    unfold holds_lease; intros H; bool_to_prop; [lia|done].
Qed.

Lemma rows_step_insert d d' k j j' :
  jobs d !! k = Some j -> jobs d' = <[k := j']> (jobs d) -> row_step j j' -> rows_step d d'.
Proof.
  intros Hj E Hr k0 j0 H0. rewrite E. destruct (decide (k0 = k)) as [->|Hne].
  - exists j'. rewrite lookup_insert_eq. split; [done|]. by simplify_eq.
  - exists j0. rewrite lookup_insert_ne by done. split; [done|by left].
Qed.

(** The parts about workers and log, when neither changes. *)
Lemma inv_same_workers c w d' rec' :
  world_inv c w -> rows_step (w_db w) d' ->
  (forall k j, jobs d' !! k = Some j -> job_inv c (attempts d') rec' k j) ->
  (forall key a, attempts d' !! key = Some a -> is_Some (jobs d' !! at_job_id a)) ->
  (forall k, k ∈ rec' -> is_Some (jobs d' !! k)) ->
  world_inv c (mkWorld d' (w_workers w) (w_log w) rec').
Proof.
  intros [J A R W D L O S] Hs HJ HA HR. split; cbn; try done.
  - intros n wk Hn. by eapply held_step, W.
  - intros e He. by eapply held_step, L.
Qed.

Lemma rows_step_some d d' k : rows_step d d' -> is_Some (jobs d !! k) -> is_Some (jobs d' !! k).
Proof. intros Hs [j Hj]. destruct (Hs _ _ Hj) as (j' & -> & _). eauto. Qed.

(** ** Preservation *)

Section steps.
Context (c : Settings).
Implicit Types (w : world) (d : db).

Lemma api_preserves w d' :
  world_inv c w -> api_evolves (w_db w) d' -> world_inv c (w <| w_db := d' |>).
Proof.
  intros Hw [J N A _ _ _]. assert (Hs : rows_step (w_db w) d').
  { intros k j Hj. exists j. split; [by eapply lookup_weaken|by left]. }
  apply inv_same_workers; [done..| | |].
  - rewrite A. intros k j Hj. destruct (jobs (w_db w) !! k) as [j0|] eqn:E.
    + apply (lookup_weaken _ _ _ _ E) in J. replace j with j0 by congruence. by eapply wi_jobs.
    + destruct (N k j Hj E) as [Hid Hst Hat Htk Hce]. split.
      * done.
      * by rewrite Hst.
      * rewrite Hat. unfold bound. lia.
      * rewrite Hat. unfold bound. lia.
      * by rewrite Hce.
      * unfold busy. rewrite Hst, Hat, Htk, (count_of_absent k); [done|]. intros Hin.
        apply (wi_recovered _ _ Hw) in Hin. rewrite E in Hin. by destruct Hin.
      * intros key a Ha <-. apply (wi_attempts _ _ Hw) in Ha. rewrite E in Ha. by destruct Ha.
  - rewrite A. intros key a Ha. eapply rows_step_some; [done|]. by eapply wi_attempts.
  - intros k Hk. eapply rows_step_some; [done|]. by eapply wi_recovered.
Qed.

Lemma other_job_inv atts rec k j key a :
  job_inv c atts rec k j -> at_job_id a <> k -> job_inv c (<[key := a]> atts) rec k j.
Proof.
  intros [I S A O U T N] Hne. split; try done. intros key' a' Ha' Hid.
  apply lookup_insert_Some in Ha' as [[_ <-]|[_ Ha']]; [done|]. by eapply N.
Qed.

Lemma due_state t j : due t j = true -> str_in (jb_state j) ["queued"; "retry"] = true.
Proof. unfold due. intros H. by bool_to_prop. Qed.

(** Being in one of the states of [l] decides what is asked of the state. *)
Lemma claim_job_inv atts rec k j worker lease t :
  job_inv c atts rec k j -> due t j = true -> job_inv c atts rec k (claim worker lease t j).
Proof.
  intros [I S A O U T N] Hd%due_state. unfold str_in in Hd. apply bool_decide_eq_true in Hd.
  assert (Hst : jb_state j = "queued" \/ jb_state j = "retry") by set_solver.
  assert (Hbusy : busy j = 0 /\ succeeded j = 0 /\ is_open j = true)
    by (unfold busy, succeeded, is_open; by destruct Hst as [-> | ->]).
  destruct Hbusy as (Hb & Hs & Ho). split; cbn; try done.
  - intros _. by apply O.
  - intros Hc. apply U in Hc. destruct Hst; congruence.
  - rewrite T, Hb. change (busy _) with 1. lia.
  - intros key a Ha Hid. specialize (N key a Ha Hid). rewrite Hs in N. change (succeeded _) with 0. lia.
Qed.

Lemma recover_job_inv atts rec ids k j t :
  job_inv c atts rec k j -> stale t j = true -> count_of k ids = 1 ->
  job_inv c atts (ids ++ rec) k (recover t j).
Proof.
  intros [I S A O U T N] Hst Hc. unfold stale in Hst. bool_to_prop.
  assert (Hb : busy j = 1 /\ succeeded j = 0 /\ is_open j = true)
    by (unfold busy, succeeded, is_open; by rewrite H).
  destruct Hb as (Hb & Hs & Ho). split; cbn; try done.
  - intros _. by apply O.
  - intros Hu. apply U in Hu. congruence.
  - rewrite T, Hb, count_of_app, Hc. change (busy _) with 0. lia.
  - intros key a Ha Hid. specialize (N key a Ha Hid). rewrite Hs in N. change (succeeded _) with 0. lia.
Qed.

Lemma settled_job_inv atts rec k j j' key a :
  job_inv c atts rec k j -> jb_state j = "processing" -> jb_id j = k -> settled c j j j' a ->
  job_inv c (<[key := a]> atts) rec k j'.
Proof.
  intros [I S A O U T N] Hst Hk Hset.
  assert (Hb : busy j = 1 /\ succeeded j = 0 /\ jb_attempt_count j < bound c).
  { unfold busy, succeeded. rewrite Hst. split_and!; [done..|]. apply O. unfold is_open. by rewrite Hst. }
  destruct Hb as (Hb & Hs & Ho).
  destruct Hset as [t|f wall delay t].
  - split; cbn; try done.
    + rewrite T, Hb. by change (busy _) with 1.
    + intros key' a' [[_ <-]|[_ Ha]]%lookup_insert_Some Hid; change (succeeded _) with 1; cbn; [lia|].
      specialize (N key' a' Ha Hid). lia.
  - set (n := jb_attempt_count j + 1). unfold failed. fold n.
    assert (Hn : forall s x, s = 0 -> <[key := x]> atts !! key = Some x -> at_attempt_number x = n ->
      forall key' a', <[key := x]> atts !! key' = Some a' -> at_job_id a' = k ->
      1 <= at_attempt_number a' <= n + s).
    { intros s x -> _ Hx key' a' [[_ <-]|[_ Ha]]%lookup_insert_Some Hid; [lia|].
      specialize (N key' a' Ha Hid). lia. }
    destruct (failure_dead f n (social_job_max_attempts c)) eqn:Ed; split; cbn; try done; try lia.
    + rewrite T, Hb. change (busy _) with 0. lia.
    + by eapply Hn; [|apply lookup_insert_eq|].
    + unfold failure_dead in Ed. bool_to_prop. intros _. unfold bound. lia.
    + unfold failure_dead in Ed. bool_to_prop. by destruct (failure_unknown f).
    + rewrite T, Hb. change (busy _) with 0. lia.
    + by eapply Hn; [|apply lookup_insert_eq|].
Qed.

(** ** The steps of the workers and of the recovery *)

Lemma claim_preserves w n j worker lease t :
  world_inv c w -> jobs (w_db w) !! jb_id j = Some j -> due t j = true -> w_workers w !! n = None ->
  world_inv c (w <| w_db := (w_db w) <| jobs ::= <[jb_id j := claim worker lease t j]> |> |>
                 <| w_workers ::= <[n := mkWorker (claim worker lease t j) Claimed]> |>).
Proof.
  intros Hw Hj Hd Hn. set (job := claim worker lease t j). set (d' := (w_db w) <| jobs ::= _ |>).
  assert (Hs : rows_step (w_db w) d').
  { eapply rows_step_insert; [exact Hj|done|]. right. left. cbn. lia. }
  assert (Hbase : world_inv c (mkWorld d' (w_workers w) (w_log w) (w_recovered w))).
  { apply inv_same_workers; [done..| | |].
    - cbn. intros k x [[<- <-]|[_ Hx]]%lookup_insert_Some; [|by eapply wi_jobs].
      apply claim_job_inv; [by eapply wi_jobs|done].
    - intros key a Ha. eapply rows_step_some; [done|]. by eapply wi_attempts.
    - intros k Hk. eapply rows_step_some; [done|]. by eapply wi_recovered. }
  assert (Hold : forall x, held (w_db w) x -> tag x <> tag job).
  { intros x (y & Hy & Ht & _) [= Hid Htok]. rewrite Hid in Hy. cbn in Htok. simplify_eq. lia. }
  destruct Hbase as [J A R W D L O S]. split; cbn in *; try done.
  - intros m wk [[<- <-]|[_ Hm]]%lookup_insert_Some; [|by eapply W].
    exists job. cbn. rewrite lookup_insert_eq. split; [done|]. split; [|done].
    pose proof (wi_jobs _ _ Hw _ _ Hj) as [_ _ [? _] _ _ Ht _].
    assert (0 <= busy j) by (unfold busy; destruct (str_in _ _); lia).
    assert (0 <= count_of (jb_id j) (w_recovered w)) by (unfold count_of; lia). lia.
  - intros m1 m2 a b [[<- <-]|[Hne1 H1]]%lookup_insert_Some [[<- <-]|[Hne2 H2]]%lookup_insert_Some Ht; try done.
    + cbn in Ht. exfalso. eapply Hold; [|by symmetry]. by eapply (wi_workers _ _ Hw).
    + cbn in Ht. exfalso. eapply Hold; [|done]. by eapply (wi_workers _ _ Hw).
    + by eapply D.
  - intros m x e [[<- [= <-]]|[_ Hm]]%lookup_insert_Some He; [|by eapply S].
    apply Hold. by eapply (wi_log _ _ Hw).
Qed.

Lemma recover_preserves w t :
  world_inv c w ->
  world_inv c (w <| w_db := (w_db w) <| jobs ::= update_where (stale t) (recover t) |> |>
                 <| w_recovered ::= List.app (jb_id <$> select_where (stale t) (jobs (w_db w))) |>).
Proof.
  intros Hw. set (d' := (w_db w) <| jobs ::= _ |>).
  assert (Hs : rows_step (w_db w) d').
  { intros k j Hj. exists (if stale t j then recover t j else j). cbn. rewrite lookup_update_where, Hj.
    split; [done|]. destruct (stale t j); [|by left]. right. by right. }
  pose proof (inv_keyed _ _ Hw) as Hk.
  apply (inv_same_workers c w d'); [done..| | |].
  - cbn. intros k j' (j & Hj & ->)%lookup_update_where_Some.
    pose proof (wi_jobs _ _ Hw _ _ Hj) as Hji. pose proof (selected_count (stale t) _ k j Hk Hj) as Hc.
    destruct (stale t j) eqn:E; [by apply recover_job_inv|].
    destruct Hji as [I S A O U T N]. split; try done. by rewrite count_of_app, Hc.
  - intros key a Ha. eapply rows_step_some; [done|]. by eapply wi_attempts.
  - intros k [Hin|Hin]%elem_of_app; eapply rows_step_some; try done; [|by eapply wi_recovered].
    apply list_elem_of_fmap in Hin as (j & -> & Hj). apply elem_of_select_where in Hj as [_ [k Hj]].
    rewrite (Hk _ _ Hj). eauto.
Qed.

Lemma die_preserves w n : world_inv c w -> world_inv c (w <| w_workers ::= base.delete n |>).
Proof.
  intros [J A R W D L O S]. split; cbn; try done.
  - intros m wk [_ Hm]%lookup_delete_Some. by eapply W.
  - intros m1 m2 a b [_ H1]%lookup_delete_Some [_ H2]%lookup_delete_Some. by eapply D.
  - intros m job e [_ Hm]%lookup_delete_Some. by eapply S.
Qed.

Lemma begin_preserves w n job answer l :
  world_inv c w -> w_workers w !! n = Some (mkWorker job Claimed) ->
  l = [] \/ (exists post k, l = [mkEntry job post k]) ->
  world_inv c (w <| w_workers ::= <[n := mkWorker job (Answered answer)]> |> <| w_log ::= List.app l |>).
Proof.
  intros [J A R W D L O S] Hn Hl. split; cbn; try done.
  - intros m wk [[<- <-]|[_ Hm]]%lookup_insert_Some; [by apply (W n _ Hn)|by eapply W].
  - intros m1 m2 a b [[<- <-]|[Hne1 H1]]%lookup_insert_Some [[<- <-]|[Hne2 H2]]%lookup_insert_Some Ht; try done.
    + by apply (D _ _ _ _ Hn H2).
    + by apply (D _ _ _ _ H1 Hn).
    + by apply (D _ _ _ _ H1 H2).
  - intros e [He|He]%elem_of_app; [|by apply L]. destruct Hl as [->|(post & k & ->)]; [by apply not_elem_of_nil in He|].
    apply list_elem_of_singleton in He as ->. by apply (W n _ Hn).
  - destruct Hl as [->|(post & k & ->)]; [done|]. cbn. constructor; [|done].
    intros (e & Ht & He)%list_elem_of_fmap. by apply (S n job e).
  - intros m x e [[_ ?]|[Hne Hm]]%lookup_insert_Some He; [done|].
    apply elem_of_app in He as [He|He]; [|by apply (S m x e)].
    destruct Hl as [->|(post & k & ->)]; [by apply not_elem_of_nil in He|].
    apply list_elem_of_singleton in He as ->. cbn. intros Ht. apply Hne. by apply (D _ _ _ _ Hn Hm).
Qed.

Lemma settles_preserves w n job answer d' :
  world_inv c w -> w_workers w !! n = Some (mkWorker job answer) -> settles c job (w_db w) d' ->
  world_inv c (w <| w_db := d' |>).
Proof.
  intros Hw Hn [(j & j' & key & a & Hj & Hl & Hset & Ej & Hkey & Ea) _ _ _].
  destruct (wi_workers _ _ Hw _ _ Hn) as (j0 & Hj0 & Ht & He). cbn in *. simplify_eq.
  specialize (He Hl) as ->. clear Ht. unfold holds_lease in Hl. bool_to_prop.
  assert (Hs : rows_step (w_db w) d').
  { eapply rows_step_insert; [exact Hj|done|]. right. right. destruct Hset; cbn; [done|].
    split; [done|]. by destruct (failure_dead _ _ _). }
  assert (Hid : at_job_id a = jb_id job) by by destruct Hset.
  apply inv_same_workers; [done..| | |].
  - rewrite Ej, Ea. intros k x [[<- <-]|[Hne Hx]]%lookup_insert_Some.
    + by eapply settled_job_inv; [by eapply wi_jobs|..].
    + apply other_job_inv; [by eapply wi_jobs|congruence].
  - rewrite Ea. intros key' a' [[_ <-]|[_ Ha']]%lookup_insert_Some; eapply rows_step_some; try done.
    + rewrite Hid, Hj. eauto.
    + by eapply wi_attempts.
  - intros k Hk. eapply rows_step_some; [done|]. by eapply wi_recovered.
Qed.

Lemma initial_inv : world_inv c initial.
Proof.
  split; cbn; try done.
  - intros k H. by apply not_elem_of_nil in H.
  - intros e H. by apply not_elem_of_nil in H.
  - constructor.
Qed.
End steps.

Lemma wstep_preserves `{PyRepr} c w w' : wstep c w w' -> world_inv c w -> world_inv c w'.
Proof.
  intros Hstep Hw. destruct Hstep as [clk us r q w|acc cps w|clk us n job rest w Hrun Hn|
    clk us r n job post a k w Hn Hrun|clk us n job answer u wall w Hn|n w|clk us found w Hrun].
  - apply api_preserves; [done|]. apply run_api_evolves.
  - apply api_preserves; [done|]. split; cbn; try done. congruence.
  - apply run_claim_jobs in Hrun as (j & t & Hj & Hd & -> & _ & ->); [|by eapply inv_keyed].
    by apply claim_preserves.
  - apply begin_preserves; [done..|]. destruct k; cbn; eauto.
  - change (world_inv c ((w <| w_db := (run clk us (finish_job c job u wall answer) (w_db w)).1 |>)
              <| w_workers ::= base.delete n |>)).
    apply die_preserves. destruct (run_finish_job c clk us job u wall answer (w_db w)) as [[Hs|E] _].
    + by eapply settles_preserves.
    + rewrite E. by destruct w.
  - by apply die_preserves.
  - apply run_recover_stale in Hrun as (t & -> & ->). rewrite <- list_fmap_compose. by apply recover_preserves.
Qed.

Lemma reachable_inv `{PyRepr} c w : reachable c w -> world_inv c w.
Proof.
  intros Hr. assert (Hi : world_inv c initial) by apply initial_inv. revert Hi.
  induction Hr as [|w1 w2 w3 Hs _ IH]; [done|]. intros Hi. by eapply IH, wstep_preserves.
Qed.
End SocialInvariant.
