(* ===== verification/SocialTheorems.v ===== *)
(** * Social publishing: theorems

    What holds in every reachable world, and of the single transactions. *)

From Stdlib Require Import Ascii QArith.
From S2P Require Import Prelude PyText Sha256 Txn PyTime PyUnicode PyParse SocialTables SocialRepo SocialPublish SocialService SocialApi SocialSystem SocialSafety SocialInvariant.
Import SocialTables SocialRepo SocialPublish SocialService SocialApi SocialSystem SocialSafety SocialFence SocialInvariant.
Local Open Scope string_scope.
Local Open Scope Z_scope.

Module SocialTheorems.

(** ** Provider calls *)

(** The provider calls that were made for a job. *)
Definition calls_of (k : uuid) (w : world) : list entry :=
  List.filter (fun e => bool_decide (jb_id (en_job e) = k)) (w_log w).

Lemma NoDup_bounded (l : list Z) n : NoDup l -> (forall x, x ∈ l -> 1 <= x <= n) -> Z.of_nat (length l) <= Z.max 0 n.
Proof.
  intros Hnd Hb. assert (Hincl : l ⊆ seqZ 1 (Z.max 0 n)).
  { intros x Hx. apply elem_of_seqZ. specialize (Hb x Hx). lia. }
  pose proof (submseteq_length _ _ (NoDup_submseteq _ _ Hnd Hincl)) as Hlen.
  rewrite length_seqZ in Hlen. lia.
Qed.

Lemma calls_tokens c w k : world_inv c w -> NoDup ((fun e => jb_fencing_token (en_job e)) <$> calls_of k w).
Proof.
  intros Hw. assert (Hnd : NoDup ((fun e => tag (en_job e)) <$> calls_of k w)).
  { eapply sublist_NoDup; [apply (wi_once _ _ Hw)|]. apply fmap_sublist, list_filter_sublist. }
  assert (Hk : forall e, e ∈ calls_of k w -> jb_id (en_job e) = k).
  { unfold calls_of. intros e He. apply list_elem_of_In, filter_In in He as [_ He]. by bool_to_prop. }
  revert Hnd Hk. induction (calls_of k w) as [|e l IH]; [constructor|]. cbn.
  intros [Hne Hnd]%NoDup_cons Hk. constructor; [|apply IH; [done|]; intros; apply Hk; by right].
  intros (e' & Ht & He')%list_elem_of_fmap. apply Hne, list_elem_of_fmap. exists e'. split; [|done].
  unfold tag. rewrite (Hk e) by by left. rewrite (Hk e') by by right. by rewrite Ht.
Qed.

(** C8. The provider is called for a job at most as often as the job may fail
    ([social_job_max_attempts], at least once) plus as often as the recovery
    scan took it back from a worker: a failure is retried a bounded number of
    times, and each call has a claim of its own. *)
Theorem provider_calls_bounded `{PyRepr} (c : Settings) (w : world) (k : uuid) :
  reachable c w ->
  Z.of_nat (length (calls_of k w)) <= Z.max 1 (social_job_max_attempts c) + count_of k (w_recovered w).
Proof.
  intros Hw%reachable_inv. pose proof (calls_tokens _ _ k Hw) as Hnd.
  rewrite <- (length_fmap (fun e => jb_fencing_token (en_job e))).
  assert (Hrec : 0 <= count_of k (w_recovered w)) by (unfold count_of; lia).
  assert (Hheld : forall e, e ∈ calls_of k w -> jb_id (en_job e) = k /\ held (w_db w) (en_job e)).
  { unfold calls_of. intros e He. apply list_elem_of_In, filter_In in He as [He Hk]. bool_to_prop.
    split; [done|]. by apply (wi_log _ _ Hw), list_elem_of_In. }
  etrans; [apply (NoDup_bounded _ (bound c + count_of k (w_recovered w))); [done|]|unfold bound; lia].
  intros x (e & -> & He)%list_elem_of_fmap. destruct (Hheld e He) as [Hid (j & Hj & Ht & _)].
  rewrite Hid in Hj. pose proof (wi_jobs _ _ Hw _ _ Hj) as [_ _ Ha Ho _ Htok _].
  unfold busy in Htok. destruct (str_in (jb_state j) _) eqn:E; [|lia]. split; [lia|].
  assert (jb_attempt_count j < bound c); [|lia]. apply Ho. unfold str_in in E. bool_to_prop.
  assert (Hst : jb_state j = "processing" \/ jb_state j = "completed") by set_solver.
  unfold is_open. by destruct Hst as [-> | ->].
Qed.

(** ** What no step takes back *)

Record lasts (d d' : db) : Prop := mkLasts {
  la_idempotency : keeps_keys (idempotency d) (idempotency d');
  la_posts : (ownership <$> posts d) ⊆ (ownership <$> posts d');
  la_webhooks : webhooks d ⊆ webhooks d';
}.

#[export] Instance lasts_preorder : PreOrder lasts.
Proof. split; [intros d; by split|]. intros d d' d'' [] []. split; by etrans. Qed.

Section runs.
Context `{PyRepr} (c : Settings).

Lemma wstep_lasts w w' : world_inv c w -> wstep c w w' -> lasts (w_db w) (w_db w').
Proof.
  intros Hw Hstep. destruct Hstep as [clk us r q w|acc cps w|clk us n job rest w Hrun Hn|
    clk us r n job post a k w Hn Hrun|clk us n job answer u wall w Hn|n w|clk us found w Hrun]; cbn; try done.
  - by destruct (run_api_evolves c r clk us q (w_db w)).
  - destruct (run_finish_job c clk us job u wall answer (w_db w)) as [[[_ Hi Hp Hwh]|E] _].
    + split; rewrite ?Hi, ?Hp, ?Hwh; done.
    + by rewrite E.
Qed.

Lemma wsteps_lasts w w' : world_inv c w -> rtc (wstep c) w w' -> lasts (w_db w) (w_db w').
Proof.
  intros Hw Hr. induction Hr as [|w1 w2 w3 Hs _ IH]; [done|].
  etrans; [by eapply wstep_lasts|]. by eapply IH, wstep_preserves.
Qed.

(** A settled row and what a step makes of it. *)
Definition finished (j : job_row) : bool := str_in (jb_state j) ["completed"; "dead_letter"].

Lemma due_unfinished t j : due t j = true -> finished j = false.
Proof.
  intros Hd%due_state. unfold str_in in Hd. bool_to_prop.
  assert (Hq : jb_state j = "queued" \/ jb_state j = "retry") by set_solver.
  unfold finished. by destruct Hq as [-> | ->].
Qed.
Lemma lease_unfinished job j : holds_lease job j = true -> finished j = false.
Proof. unfold holds_lease, finished. intros Hl. bool_to_prop. by rewrite H0. Qed.
Lemma stale_unfinished t j : stale t j = true -> finished j = false.
Proof. unfold stale, finished. intros Hl. bool_to_prop. by rewrite H0. Qed.

Lemma wstep_finished w w' k j :
  world_inv c w -> wstep c w w' -> jobs (w_db w) !! k = Some j -> finished j = true ->
  jobs (w_db w') !! k = Some j.
Proof.
  intros Hw Hstep Hj Hf. destruct Hstep as [clk us r q w|acc cps w|clk us n job rest w Hrun Hn|
    clk us r n job post a kk w Hn Hrun|clk us n job answer u wall w Hn|n w|clk us found w Hrun]; cbn; try done.
  - eapply lookup_weaken; [done|]. apply run_api_evolves.
  - apply run_claim_jobs in Hrun as (j0 & t & Hj0 & Hd & _ & _ & ->); [|by eapply inv_keyed].
    cbn. rewrite lookup_insert_ne; [done|]. intros <-. apply due_unfinished in Hd. congruence.
  - destruct (run_finish_job c clk us job u wall answer (w_db w)) as [[[Hs _ _ _]|E] _]; [|by rewrite E].
    destruct Hs as (j0 & j' & key & a & Hj0 & Hl & _ & -> & _ & _).
    rewrite lookup_insert_ne; [done|]. intros <-. apply lease_unfinished in Hl. congruence.
  - apply run_recover_stale in Hrun as (t & -> & ->). cbn. rewrite lookup_update_where, Hj. cbn.
    destruct (stale t j) eqn:E; [|done]. apply stale_unfinished in E. congruence.
Qed.

(** C22. A job that completed or was given up stays as it is for ever: no
    claim, recovery, late answer or API request changes its row again. *)
Theorem finished_for_ever (w w' : world) (k : uuid) (j : job_row) :
  reachable c w -> rtc (wstep c) w w' -> jobs (w_db w) !! k = Some j -> finished j = true ->
  jobs (w_db w') !! k = Some j.
Proof.
  intros Hw%reachable_inv Hr Hj Hf. induction Hr as [|w1 w2 w3 Hs _ IH]; [done|].
  apply IH; [by eapply wstep_preserves|by eapply wstep_finished].
Qed.

(** C16. A result that may have reached the provider is never sent again: a job
    whose certainty is [UNKNOWN_AFTER_SEND] is a dead letter, and stays the same
    row, so that no later claim can hand it to a worker. *)
Theorem unknown_result_never_retried (w w' : world) (k : uuid) (j : job_row) :
  reachable c w -> rtc (wstep c) w w' -> jobs (w_db w) !! k = Some j ->
  jb_result_certainty j = "UNKNOWN_AFTER_SEND" ->
  jobs (w_db w') !! k = Some j /\ jb_state j = "dead_letter" /\ (forall t n, j ∉ claimable t n (w_db w')).
Proof.
  intros Hw%reachable_inv Hr Hj Hu. pose proof (ji_unknown _ _ _ _ _ (wi_jobs _ _ Hw _ _ Hj) Hu) as Hst.
  split_and!; [|done|].
  - assert (Hf : finished j = true) by (unfold finished; by rewrite Hst).
    clear Hu Hst. induction Hr as [|w1 w2 w3 Hs _ IH]; [done|].
    apply IH; [by eapply wstep_preserves|by eapply wstep_finished].
  - intros t n [Hd _]%claimable_in. apply due_state in Hd. by rewrite Hst in Hd.
Qed.

(** The provider that owns a post, its tenant, campaign and schedule are
    fixed when it is created: whatever the API, the workers and the recovery do
    later, the post is still there with the same ones. *)
Theorem ownership_immutable (w w' : world) (k : uuid) (r : post_row) :
  reachable c w -> rtc (wstep c) w w' -> posts (w_db w) !! k = Some r ->
  exists r', posts (w_db w') !! k = Some r' /\ ownership r' = ownership r.
Proof.
  intros Hw%reachable_inv Hr Hp. destruct (wsteps_lasts _ _ Hw Hr) as [_ Hposts _].
  assert (E : (ownership <$> posts (w_db w')) !! k = Some (ownership r)).
  { eapply lookup_weaken; [|done]. by rewrite lookup_fmap, Hp. }
  apply lookup_fmap_Some in E as (r' & ? & ?). eauto.
Qed.

(** ** Idempotency *)

Lemma run_create_replay clk us i d old :
  find_key (intent_key i) (idempotency d) = Some old ->
  run clk us (create_post_intent i) d
  = (d, if bool_decide (ir_request_hash old = intent_hash i)
        then inr (ir_social_post_id old, ir_job_id old, false) else inl conflict).
Proof.
  intros E. unfold run, with_session, create_post_intent, reserve.
  unfold mbind, M_bind, query. destruct (in_post_id i); cbn; rewrite E; cbn; by case_bool_decide.
Qed.

Ltac idem_insert := repeat case_match; try done; by intros [= <-].
Lemma idem_insert_post r d d' : insert_post r d = Some d' -> idempotency d' = idempotency d.
Proof. unfold insert_post. idem_insert. Qed.
Lemma idem_insert_account p a d d' : insert_post_account p a d = Some d' -> idempotency d' = idempotency d.
Proof. unfold insert_post_account. idem_insert. Qed.
Lemma idem_insert_job r d d' : insert_job r d = Some d' -> idempotency d' = idempotency d.
Proof. unfold insert_job. idem_insert. Qed.
Lemma idem_insert_audit k r d d' : insert_audit k r d = Some d' -> idempotency d' = idempotency d.
Proof. unfold insert_audit. idem_insert. Qed.
Lemma idem_insert_outbox k r d d' : insert_outbox k r d = Some d' -> idempotency d' = idempotency d.
Proof. unfold insert_outbox. idem_insert. Qed.

Lemma wp_reserve key row (Q : session db -> exn + option idempotency_row -> Prop) s :
  (forall old, find_key key (idempotency (working s)) = Some old -> Q s (inr (Some old))) ->
  (find_key key (idempotency (working s)) = None ->
   Q (Session (committed s) ((working s) <| idempotency ::= cons (key, row) |>) (clock s) (supply s)) (inr None)) ->
  wp (reserve key row) Q s.
Proof. intros Hold Hnew. unfold reserve. wp_run; eauto. Qed.

Lemma wp_store_intent i post job s :
  wp (store_intent i post job) (fun s' r => match r with
    | inr x => x = (post, job, true) /\ idempotency (committed s') = idempotency (working s)
    | inl _ => True
    end) s.
Proof.
  unfold store_intent. cbv zeta. wp_step. wp_step. wp_step. destruct (timestamptz _) as [e|at_]; [by apply wp_raise|].
  apply wp_ret. wp_step. wp_step; [|done]. wp_step.
  apply (wp_for_each (fun _ s' => idempotency (working s') = idempotency (working s))).
  - intros pre x post_ s' _ Hs'. wp_step; wp_simpl; [|done]. etrans; [by eapply idem_insert_account|done].
  - cbn. by eapply idem_insert_post.
  - intros s' Hs'. wp_step. wp_step; [|done]. unfold audit, signal. wp_run; try done.
    split; [done|]. rewrite <- Hs'.
    repeat match goal with
    | E : insert_job _ _ = Some _ |- _ => apply idem_insert_job in E
    | E : insert_audit _ _ _ = Some _ |- _ => apply idem_insert_audit in E
    | E : insert_outbox _ _ _ = Some _ |- _ => apply idem_insert_outbox in E
    end. congruence.
Qed.

(** A creation leaves its idempotency record. *)
Lemma run_create_reserves clk us i d post job :
  (run clk us (create_post_intent i) d).2 = inr (post, job, true) ->
  find_key (intent_key i) (idempotency (run clk us (create_post_intent i) d).1)
  = Some (mkIdempotencyRow (intent_hash i) post job).
Proof.
  unfold run, with_session. set (s := Session d d clk us).
  enough (Hwp : wp (create_post_intent i) (fun s' r => r = inr (post, job, true) ->
    find_key (intent_key i) (idempotency (committed s')) = Some (mkIdempotencyRow (intent_hash i) post job)) s) by exact Hwp.
  unfold create_post_intent. wp_step. destruct (in_post_id i); wp_step; wp_step; wp_step; wp_step; apply wp_reserve; wp_simpl.
  all: try (intros old _; wp_run; done).
  all: intros _; eapply wp_mono, wp_store_intent.
  all: intros s' [e|x]; [done|]; intros [-> E] [= <- <-]; rewrite E; apply find_key_cons.
Qed.

(** An idempotency key answers for ever: after a creation was accepted, and
    whatever happened in between, a request with the same tenant, action and key
    changes nothing; it is given the same post and job when its body hashes
    alike, and refused as a conflict when it does not. *)
Theorem post_creation_idempotent (w w' : world) (clk clk' : nat -> Z) (us us' : nat -> uuid) (i i' : intent)
    (d : db) (post job : uuid) :
  run clk us (create_post_intent i) d = (w_db w, inr (post, job, true)) ->
  reachable c w -> rtc (wstep c) w w' -> intent_key i' = intent_key i ->
  run clk' us' (create_post_intent i') (w_db w')
  = (w_db w', if bool_decide (intent_hash i' = intent_hash i) then inr (post, job, false) else inl conflict).
Proof.
  intros Hrun Hw%reachable_inv Hr Hk. pose proof (run_create_reserves clk us i d post job) as Hres.
  rewrite Hrun in Hres. specialize (Hres eq_refl). cbn in Hres.
  destruct (wsteps_lasts _ _ Hw Hr) as [Hidem _ _].
  apply Hidem in Hres. rewrite <- Hk in Hres.
  rewrite (run_create_replay _ _ _ _ _ Hres). cbn. f_equal.
  by rewrite (bool_decide_ext _ (intent_hash i' = intent_hash i)).
Qed.

(** ** The fence *)

(** The answers that the worker records: a result, or an error of the provider
    boundary. *)
Definition recorded (answer : exn + ProviderResult) : Prop :=
  match answer with inr _ | inl (SocialError _ _ _ _ _) => True | _ => False end.

Lemma wp_fail_lost job f max wall delay s :
  clean s -> ~ current job (committed s) ->
  wp (fail_job job f max wall delay) (fun s' r => committed s' = committed s /\ r = inr "lease_lost") s.
Proof.
  intros Hc Hn. unfold fail_job. do 2 wp_step. cbv zeta. apply wp_bind, wp_update_leased; wp_simpl.
  - intros j Hj Hl. exfalso. apply Hn. exists j. by rewrite <- Hc.
  - intros _. cbn [negb]. by wp_run.
Qed.

Lemma wp_complete_lost n8n job ref st s :
  clean s -> ~ current job (committed s) ->
  wp (complete_job n8n job ref st)
    (fun s' r => clean s' /\ committed s' = committed s /\ r = inl lease_lost) s.
Proof.
  intros Hc Hn. unfold complete_job. do 4 wp_step. cbv zeta. apply wp_bind, wp_update_leased; wp_simpl.
  - intros j Hj Hl. exfalso. apply Hn. exists j. by rewrite <- Hc.
  - intros _. cbn [negb]. by wp_run.
Qed.

(** A worker that lost its lease cannot write: when the job was taken back,
    claimed again or finished by another worker, whatever the provider answered
    leaves every table as it is and ends as [lease_lost]. *)
Theorem lost_lease_changes_nothing (clk : nat -> Z) (us : nat -> uuid) (job : job_row) (answer : exn + ProviderResult)
    (u : Q) (wall : Z) (d : db) :
  0 <= jb_attempt_count job -> recorded answer ->
  (forall j, jobs d !! jb_id job = Some j ->
     jb_state j <> "processing" \/ jb_fencing_token j <> jb_fencing_token job) ->
  run clk us (finish_job c job u wall answer) d = (d, inr "lease_lost").
Proof.
  intros Ha Hrec Hlost. assert (Hn : ~ current job d).
  { intros (j & Hj & Hl). unfold holds_lease in Hl. bool_to_prop. by destruct (Hlost j Hj). }
  unfold run, with_session. set (s := Session d d clk us).
  enough (Hwp : wp (finish_job c job u wall answer) (fun s' r => committed s' = d /\ r = inr "lease_lost") s).
  { destruct Hwp as [E1 E2]. by rewrite E1, E2. }
  assert (Hfail : forall code m rt st un s', clean s' -> committed s' = d ->
    wp (settle_failure c job u wall (SocialError code m rt st un))
      (fun s' r => committed s' = d /\ r = inr "lease_lost") s').
  { intros code m rt st un s' Hc Hd. unfold settle_failure, retry_delay.
    replace (jb_attempt_count job + 1 <? 1) with false by (symmetry; apply Z.ltb_ge; lia).
    wp_step. apply wp_ret. rewrite <- Hd in *. by apply wp_fail_lost. }
  unfold finish_job. apply wp_try. destruct answer as [e|r].
  - destruct e; try done. apply wp_raise. by apply Hfail.
  - unfold settle_result. apply wp_bind. eapply wp_mono, wp_complete_lost; [|done..].
    intros s' x (Hc & Hd & ->). by apply Hfail.
Qed.

(** ** A failure of a current claim is recorded *)

(** While its claim is current, a worker's failure is always recorded, and
    under a number that no earlier attempt of the job has: the job goes back to
    the queue after the delay when the error is retryable, its result known and
    attempts are left, and becomes a dead letter otherwise. *)
Theorem current_failure_recorded (clk : nat -> Z) (us : nat -> uuid) (w : world) (n : nat) (job : job_row)
    (code message : string) (retryable unknown : bool) (status_code : Z) (u : Q) (wall : Z) :
  reachable c w ->
  w_workers w !! n = Some (mkWorker job (Answered (inl (SocialError code message retryable status_code unknown)))) ->
  current job (w_db w) -> jb_production_canary job = false -> attempts (w_db w) !! us 0%nat = None ->
  let f := mkFailure code message retryable unknown in
  let number := jb_attempt_count job + 1 in
  let out := run clk us (finish_job c job u wall (inl (SocialError code message retryable status_code unknown)))
               (w_db w) in
  let j' := failed f number (social_job_max_attempts c) wall
              (timedelta (inject_Z (retry_ceiling number) * u)) (clk 0%nat) job in
  out.2 = inr (jb_state j') /\ jobs out.1 = <[jb_id job := j']> (jobs (w_db w))
  /\ (forall key a, attempts (w_db w) !! key = Some a -> at_job_id a = jb_id job -> at_attempt_number a < number)
  /\ jb_state j' = (if negb retryable || unknown || bool_decide (code = "SOCIAL_PROVIDER_UNKNOWN_RESULT")
                       || (social_job_max_attempts c <=? number)
                    then "dead_letter" else "retry").
Proof.
  intros Hw%reachable_inv Hn (j & Hj & Hl) Hcan Hus. cbv zeta.
  destruct (wi_workers _ _ Hw _ _ Hn) as (j0 & Hj0 & _ & He). cbn [wk_job] in *.
  rewrite Hj in Hj0. injection Hj0 as <-.
  specialize (He Hl) as ->. pose proof (wi_jobs _ _ Hw _ _ Hj) as Hji.
  assert (Hst : jb_state job = "processing") by (unfold holds_lease in Hl; by bool_to_prop).
  assert (Hnum : forall key a, attempts (w_db w) !! key = Some a -> at_job_id a = jb_id job ->
    at_attempt_number a < jb_attempt_count job + 1).
  { intros key a Ha Hid. destruct (ji_numbers _ _ _ _ _ Hji key a Ha Hid) as [_ Hle].
    unfold succeeded in Hle. rewrite Hst, bool_decide_false in Hle by done. lia. }
  set (f := mkFailure code message retryable unknown). set (number := jb_attempt_count job + 1).
  set (j' := failed f number _ wall _ _ job).
  assert (Hst' : jb_state j' = if failure_dead f number (social_job_max_attempts c) then "dead_letter" else "retry")
    by done.
  enough (Hwp : wp (finish_job c job u wall (inl (SocialError code message retryable status_code unknown)))
    (fun s' r => r = inr (jb_state j') /\ jobs (committed s') = <[jb_id job := j']> (jobs (w_db w)))
    (Session (w_db w) (w_db w) clk us)).
  { destruct Hwp as [E1 E2]. split_and!; [exact E1|exact E2|done|]. rewrite Hst'. unfold failure_dead, failure_unknown.
    cbn. destruct retryable, unknown; cbn; rewrite ?orb_true_r; try done. by case_bool_decide. }
  unfold finish_job. apply wp_try, wp_raise. unfold settle_failure, retry_delay.
  pose proof (ji_attempts _ _ _ _ _ Hji).
  replace (jb_attempt_count job + 1 <? 1) with false by (symmetry; apply Z.ltb_ge; lia).
  wp_step. apply wp_ret. unfold fail_job. wp_step. wp_step. cbv zeta. fold f number.
  apply wp_bind, wp_update_leased; wp_simpl; [|intros Hno; exfalso; apply Hno; by exists job].
  intros j2 Hj2 _. simplify_eq. cbn [negb]. wp_step. wp_step. wp_step. wp_step.
  - wp_step. unfold worker_audit. rewrite Hcan. apply wp_ret. wp_run.
    match goal with E : insert_attempt _ _ _ = Some _ |- _ => apply insert_attempt_core in E as [_ ->] end. done.
  - exfalso. match goal with E : insert_attempt _ _ _ = None |- _ => revert E end.
    unfold insert_attempt. cbn. rewrite Hus, lookup_insert_eq. cbn.
    destruct (absent _ _) eqn:Eab; [done|]. intros _.
    assert (Hab : absent (numbered (jb_id job) number) (attempts (w_db w)) = true); [|congruence].
    apply social_absent_true. intros key a Ha. unfold numbered. case_bool_decide as Hid; [|done]. cbn.
    apply Z.eqb_neq. specialize (Hnum key a Ha Hid). unfold number. lia.
Qed.
End runs.
End SocialTheorems.
