(* ===== verification/SocialGates.v ===== *)
(** * Social publishing: gates, webhooks and progress

    What must hold before a worker calls a provider, what an accepted webhook
    proves, and that a turn of the worker takes up due work whatever Redis
    holds. *)

From Stdlib Require Import Ascii QArith.
From S2P Require Import Prelude PyText Sha256 Txn PyTime PyUnicode PyParse SocialTables SocialRepo SocialPublish SocialService SocialApi SocialSystem SocialSafety SocialInvariant SocialTheorems.
Import SocialTables SocialRepo SocialPublish SocialService SocialApi SocialSystem SocialSafety SocialFence SocialInvariant SocialTheorems.
Local Open Scope string_scope.
Local Open Scope Z_scope.

Module SocialGates.

Lemma wp_lift {A} (r : exn + A) (Q : session db -> exn + A -> Prop) s : Q s r -> wp (lift r) Q s.
Proof. by destruct r. Qed.

(** ** The canary policy *)

(** Every gate of the production canary is open. *)
Definition gates_open (c : Settings) : Prop :=
  social_production_mode c = true /\ social_integration_enabled c = true /\ social_publish_enabled c = true
  /\ social_production_canary_enabled c = true /\ social_sql_repository_enabled c = true
  /\ social_worker_enabled c = true /\ social_production_backup_gate_verified c = true
  /\ social_production_rollback_gate_verified c = true /\ social_production_webhook_gate_verified c = true
  /\ social_production_monitoring_gate_verified c = true
  /\ social_automatic_provider_failover_enabled c = false /\ social_automatic_dual_publish_enabled c = false.

(** Named in the allow list of a setting; an empty list of tenants or campaigns
    allows all. *)
Definition listed (value setting : string) (u : uuid) : Prop :=
  exists l, uuid_allowlist value setting = inr l /\ u ∈ l.
Definition listed_or_open (value setting : string) (u : option uuid) : Prop :=
  exists l, uuid_allowlist value setting = inr l /\ (l = [] \/ exists x, u = Some x /\ x ∈ l).

Record canary_allows (c : Settings) (x : ProductionPublishContext) : Prop := mkCanaryAllows {
  ca_gates : gates_open c;
  ca_account : listed (social_production_canary_account_ids c) "SOCIAL_PRODUCTION_CANARY_ACCOUNT_IDS"
                 (cx_account_id x);
  ca_tenant : listed_or_open (social_production_canary_tenant_ids c) "SOCIAL_PRODUCTION_CANARY_TENANT_IDS"
                (Some (cx_tenant_id x));
  ca_campaign : listed_or_open (social_production_canary_campaign_ids c)
                  "SOCIAL_PRODUCTION_CANARY_CAMPAIGN_IDS" (cx_campaign_id x);
  ca_classification : cx_classification x = PRODUCTION_APPROVED;
  ca_connected : cx_connection_state x = "connected";
  ca_approved : cx_content_approved x = true;
}.

Lemma validate_ok c x : validate c x = inr tt -> canary_allows c x.
Proof.
  unfold validate. rewrite check_bind_ok. intros [Hg H]. rewrite !check_bind_ok in H. destruct H as (Hf & Hd & H).
  apply exn_bind_ok in H as (accounts & Ea & H). rewrite check_bind_ok in H. destruct H as [Ha H].
  apply exn_bind_ok in H as (tenants & Et & H). rewrite check_bind_ok in H. destruct H as [Ht H].
  apply exn_bind_ok in H as (campaigns & Ec & H). rewrite !check_bind_ok, check_ok in H.
  destruct H as (Hc & Hcl & Hcon & Hap). unfold in_allowlist in *. bool_to_prop. split; try done.
  - by exists accounts.
  - exists tenants. split; [done|]. apply orb_true_iff in Ht as [Ht|Ht]; bool_to_prop; eauto.
  - exists campaigns. split; [done|]. apply orb_true_iff in Hc as [Hc|Hc]; bool_to_prop; [by left|right].
    destruct (cx_campaign_id x) as [k|]; [|done]. bool_to_prop. eauto.
Qed.

(** ** What authorises a call *)

(** What lets a job be published when the tables are [d]. *)
Record publish_allowed (c : Settings) (d : db) (job : job_row) (post : SocialPost) : Prop := mkPublishAllowed {
  pa_enabled : social_publish_enabled c = true;
  pa_postly : provider post = POSTLY -> postiz_delivery_enabled c = true /\ postiz_publish_enabled c = true;
  (** it publishes the post that is stored under the job *)
  pa_type : parse_job_type (jb_job_type job) = Some PUBLISH;
  pa_stored : exists row, posts d !! jb_social_post_id job = Some row /\ post_of_row d row = inr post;
  (** in production: an approved canary job, for the one account the post is
      linked to *)
  pa_canary : social_production_mode c = true ->
    gates_open c /\ jb_production_canary job = true /\ jb_content_approved_at job <> None
    /\ exists account, joined_accounts (id post) d = [account]
         /\ jb_production_account_id job = Some (ac_id account)
         /\ ac_connection_state account = "connected"
         /\ classification_text (ac_metadata account) = PRODUCTION_APPROVED
         /\ parse_provider (ac_provider account) = Some (provider post)
         /\ listed (social_production_canary_account_ids c) "SOCIAL_PRODUCTION_CANARY_ACCOUNT_IDS" (ac_id account)
         /\ listed_or_open (social_production_canary_tenant_ids c) "SOCIAL_PRODUCTION_CANARY_TENANT_IDS"
              (Some (tenant_id post))
         /\ listed_or_open (social_production_canary_campaign_ids c) "SOCIAL_PRODUCTION_CANARY_CAMPAIGN_IDS"
              (campaign_id post);
}.

(** The context of a post is that of its one linked account. *)
Lemma wp_production_context post approved (Q : session db -> exn + ProductionPublishContext -> Prop) s :
  (forall account, joined_accounts (id post) (working s) = [account] ->
     parse_provider (ac_provider account) = Some (provider post) ->
     Q s (inr (mkContext (tenant_id post) (campaign_id post) (ac_id account) (provider post)
                 (classification_text (ac_metadata account)) (ac_connection_state account) approved))) ->
  (forall e, Q s (inl e)) -> wp (production_publish_context post approved) Q s.
Proof.
  intros Hok Hno. unfold production_publish_context. apply wp_bind, wp_query.
  destruct (joined_accounts (id post) (working s)) as [|account [|]] eqn:Ej; [by apply Hno| |by apply Hno].
  destruct (parse_provider (ac_provider account)) as [p|] eqn:Ep; [|by apply Hno].
  apply wp_bind, wp_guard_or; [|by intros; apply Hno]. intros ->%bool_decide_eq_true. by apply wp_ret, Hok.
Qed.

(** The production part of the [PUBLISH] branch decides the canary gates. *)
Lemma wp_authorize_production c a job post s :
  wp (authorize_production c a job post) (fun s' r => s' = s /\ (r = inr tt ->
    (social_publish_enabled c = true /\
    (provider post = POSTLY -> postiz_delivery_enabled c = true /\ postiz_publish_enabled c = true) /\
    parse_job_type (jb_job_type job) = Some PUBLISH /\
    (exists row, posts (working s) !! jb_social_post_id job = Some row /\ post_of_row (working s) row = inr post)) ->
    publish_allowed c (working s) job post)) s.
Proof.
  unfold authorize_production. wp_step. wp_step; [|done]. wp_step.
  apply wp_production_context; [|done]. intros account Ej Ep. wp_step. wp_step; [|done]. wp_step. apply wp_lift.
  destruct (validate c _) as [e|[]] eqn:Ev; [done|]. wp_step. apply wp_lift.
  destruct (health_check a) as [e|h]; [done|]. apply wp_lift. split; [done|].
  intros _ (Hen & Hpo & Hty & Hst). bool_to_prop.
  apply validate_ok in Ev as [Hg Ha Ht Hc Hcl Hcon Hap]. cbn in *. split; [done..|]. intros _.
  split_and!; [done|done| |].
  - intros Hnone. by rewrite Hnone in Hap.
  - exists account. split_and!; done.
Qed.

(** The accounts of the post, all connected and classified as safe for staging. *)
Definition staging_refs (post : SocialPost) (d : db) (refs : list string) : Prop :=
  joined_accounts (id post) d <> [] /\ forallb staging_safe (joined_accounts (id post) d) = true
  /\ refs = ac_provider_account_id <$> joined_accounts (id post) d.

Lemma wp_staging_refs post s :
  wp (staging_provider_account_refs (id post)) (fun s' r => s' = s /\
    forall refs, r = inr refs -> staging_refs post (working s) refs) s.
Proof.
  unfold staging_provider_account_refs, staging_refs. wp_run; split; try done.
  intros refs [= <-]. split_and!; done.
Qed.

(** What allows a provider call, when the tables are [d]. *)
Definition call_allowed (c : Settings) (job : job_row) (post : SocialPost) (d : db) (k : call) : Prop :=
  (provider post = POSTLY -> postiz_delivery_enabled c = true)
  /\ match k with
     | CallPublish => publish_allowed c d job post
     | CallCreate refs => staging_refs post d refs
     | CallSchedule | CallCancel | CallDelete => True
     end.

Lemma wp_authorize c a job post s :
  (exists row, posts (working s) !! jb_social_post_id job = Some row /\ post_of_row (working s) row = inr post) ->
  wp (authorize c a job post) (fun s' r => s' = s /\
    forall k, r = inr k -> call_allowed c job post (working s) k) s.
Proof.
  intros Hst. unfold authorize. wp_step. wp_step; [|done]. wp_step. wp_step; [|done].
  assert (Hdel : provider post = POSTLY -> postiz_delivery_enabled c = true).
  { intros Hp. bool_to_prop. rewrite Hp, bool_decide_true in H0 by done. cbn in H0. by destruct (postiz_delivery_enabled c). }
  assert (Hok : forall k, match k with CallSchedule | CallCancel | CallDelete => True | _ => False end ->
    s = s /\ forall k', @inr exn call k = inr k' -> call_allowed c job post (working s) k').
  { intros k Hk. split; [done|]. intros k' [= <-]. by destruct k. }
  assert (Hcreate : wp (refs ← staging_provider_account_refs (id post); mret (CallCreate refs))
    (fun s' r => s' = s /\ forall k, r = inr k -> call_allowed c job post (working s) k) s).
  { wp_step. eapply wp_mono, wp_staging_refs. intros s' [e|refs] [-> Hr]; [done|]. apply wp_ret.
    split; [done|]. intros k [= <-]. split; [done|]. by apply Hr. }
  destruct a0; try exact Hcreate; try (apply wp_ret, Hok; exact I).
  wp_step. wp_step; [|done]. bool_to_prop.
  assert (Hpo : provider post = POSTLY -> postiz_delivery_enabled c = true /\ postiz_publish_enabled c = true).
  { intros Hp. split; [by apply Hdel|]. rewrite Hp, bool_decide_true in H2 by done. cbn in H2.
    by destruct (postiz_publish_enabled c). }
  wp_step. destruct (social_production_mode c) eqn:Em.
  - eapply wp_mono, wp_authorize_production. intros s' [e|[]] [-> Hr]; [done|]. apply wp_ret.
    split; [done|]. intros k [= <-]. split; [done|]. by apply Hr.
  - apply wp_ret. apply wp_ret. split; [done|]. intros k [= <-]. split; [done|]. split; [done..|congruence].
Qed.

Lemma wp_get_post p s :
  wp (get_post p) (fun s' r => s' = s /\ forall post, r = inr post ->
    exists row, posts (working s) !! p = Some row /\ post_of_row (working s) row = inr post) s.
Proof.
  unfold get_post. wp_step. wp_step. wp_step. wp_step; [|done]. wp_step. wp_step.
  destruct (post_of_row _ _) as [e|x] eqn:E; [by apply wp_raise|]. apply wp_ret. split; [done|].
  intros y [= <-]. eauto.
Qed.

(** The first transaction of a worker reads the post of the job as it is stored
    then, picks the adapter of the provider that owns it, and allows the call. *)
Lemma run_begin_job clk us c r job d post a k :
  (run clk us (begin_job c r job) d).2 = inr (post, a, inr k) ->
  call_allowed c job post d k /\ registry_get r (provider post) = inr a
  /\ exists row, posts d !! jb_social_post_id job = Some row /\ post_of_row d row = inr post.
Proof.
  enough (Hwp : wp (begin_job c r job) (fun _ out => out = inr (post, a, inr k) ->
    call_allowed c job post d k /\ registry_get r (provider post) = inr a
    /\ exists row, posts d !! jb_social_post_id job = Some row /\ post_of_row d row = inr post)
    (Session d d clk us)) by exact Hwp.
  unfold begin_job. apply wp_bind. eapply wp_mono, wp_get_post. intros s1 [e|p1] [-> Hp]; [done|].
  specialize (Hp _ eq_refl). apply wp_bind, wp_lift. destruct (registry_get r (provider p1)) as [e|a1] eqn:Er; [done|].
  apply wp_bind, wp_try, wp_bind. eapply wp_mono; [|by apply wp_authorize]. intros s2 [e|k1] [-> Hk].
  - apply wp_ret, wp_ret. done.
  - apply wp_ret, wp_ret. intros [= <- <- <-]. split_and!; [by apply Hk|done|done].
Qed.


(** ** Webhooks *)

Section webhooks.
Context `{PyRepr} (c : Settings) (net : network).

(** The signature of a Postly webhook, fresh at [time] (in microseconds). *)
Definition signed (body : string) (hs : headers) (time : Z) : Prop :=
  exists secret ts, postly_webhook_verification_secret c = inr secret /\ secret <> ""
    /\ py_int 10 (header hs "x-postly-timestamp") = Some ts
    /\ Z.abs (time - seconds ts) <= seconds (social_webhook_ttl_seconds c)
    /\ removeprefix "sha256=" (header hs "x-postly-signature")
       = hmac_hex (bytes_of secret) (header hs "x-postly-timestamp" +:+ "." +:+ body).

Lemma postly_verify_ok body hs time : postly_verify c body hs time = inr tt -> signed body hs time.
Proof.
  unfold postly_verify. intros (secret & Es & Hv)%exn_bind_ok. rewrite !check_bind_ok in Hv.
  destruct Hv as (Ht & Hf & Hv). unfold truthy, fresh_timestamp in *.
  destruct (py_int 10 (header hs "x-postly-timestamp")) as [ts|] eqn:Ets; [|done].
  apply exn_bind_ok in Hv as (same & Hc & ->%check_ok). unfold compare_digest in Hc. case_match; [|done].
  simplify_eq. bool_to_prop. exists secret, ts. split_and!; done.
Qed.

(** Only the Postly adapter of the registry supports webhooks. *)
Lemma require_webhooks name a :
  registry_require (build_registry c net) name WEBHOOK_EVENTS = inr a ->
  name = "postly" /\ a = PostlyProviderAdapter c net.
Proof.
  unfold registry_require, registry_lookup. intros (b & Hb & Ha)%exn_bind_ok.
  destruct (parse_provider name) as [p|] eqn:Ep; [|done].
  assert (provider_value p = name) as <-.
  { unfold parse_provider, by_value in Ep. apply find_some in Ep as [_ Hp]. by bool_to_prop. }
  destruct p; [done| |].
  - change (inr (PostlyProviderAdapter c net) = @inr exn _ b) in Hb. simplify_eq.
    change (inr (PostlyProviderAdapter c net) = @inr exn _ a) in Ha. by simplify_eq.
  - change (inr (HootsuiteProviderAdapter c) = @inr exn _ b) in Hb. by simplify_eq.
Qed.

Lemma wp_header_or_uuid h s :
  wp (header_or_uuid h) (fun s' r => committed s' = committed s /\ working s' = working s
    /\ clock s' = clock s /\ exists t, r = inr t) s.
Proof. unfold header_or_uuid. wp_run; eauto. Qed.

(** C33. A webhook is accepted, or taken for a duplicate, only when it came to
    the Postly route with a timestamp inside the window and the HMAC of the
    timestamp and the body under the configured secret; an accepted event holds
    nothing of the payload but its status, post reference and metrics. *)
Theorem accepted_webhook_signed (clk : nat -> Z) (us : nat -> uuid) (name body : string) (hs : headers)
    (correlation : option string) (parsed : loaded) (time : Z) (d : db) (answer : webhook_response) :
  (run clk us (webhook_sql c (build_registry c net) name body hs correlation parsed time) d).2 = inr answer ->
  name = "postly" /\ signed body hs time
  /\ match answer with
     | Accepted e => n_provider e = POSTLY /\ (n_payload e).*1 ⊆ safe_keys
     | Duplicate => True
     end.
Proof.
  set (P (r : exn + webhook_response) := r = inr answer -> name = "postly" /\ signed body hs time /\ match answer with
     | Accepted e => n_provider e = POSTLY /\ (n_payload e).*1 ⊆ safe_keys | Duplicate => True end).
  enough (Hwp : wp (webhook_sql c (build_registry c net) name body hs correlation parsed time)
    (fun _ r => P r) (Session d d clk us)) by exact Hwp.
  assert (Herr : forall e, P (inl e)) by done.
  unfold webhook_sql. apply wp_bind. eapply wp_mono, wp_header_or_uuid. intros s1 r1 (_ & _ & _ & co & ->).
  unfold as_http. apply wp_try, wp_bind, wp_lift.
  destruct (receive_webhook _ _ _ _ _ _) as [e|[[a ev] v]] eqn:Er; [apply wp_raise, Herr|].
  unfold receive_webhook in Er. apply exn_bind_ok in Er as (a1 & Ha & Er). apply require_webhooks in Ha as [-> ->].
  apply exn_bind_ok in Er as ([] & Hver%postly_verify_ok & Er).
  apply exn_bind_ok in Er as (v1 & _ & Er). apply exn_bind_ok in Er as (o & _ & Er).
  rewrite check_bind_ok in Er. destruct Er as [_ [= <- <- <-]].
  wp_step. wp_step. apply wp_bind, wp_lift.
  destruct (normalize_webhook _ _ _ _ _) as [e|e] eqn:En; [apply wp_raise, Herr|].
  apply wp_bind. unfold wp. destruct (persist_webhook _ _ _ _ _ _ _ _) as [s2 [x|created]]; [apply Herr|].
  cbn. intros [= <-]. split_and!; [done..|]. destruct created; [|done].
  change (postly_normalize (supply s1 0%nat) time v1 co = inr e) in En. unfold postly_normalize in En. apply exn_bind_ok in En as (kind & _ & En). case_match; [|done].
  apply exn_bind_ok in En as (sub & _ & En). apply exn_bind_ok in En as (ten & _ & En).
  apply (inj inr) in En. subst e.
  cbn [n_provider n_payload]. split; [done|].
  intros k (kv & -> & Hin)%list_elem_of_fmap. apply list_elem_of_omap in Hin as (k' & Hk' & Hg).
  destruct (json_get k' v1); [|done]. by simplify_eq/=.
Qed.

(** ** A webhook counts once *)

Lemma run_persist_duplicate clk us n8n p ev hash co e sf d key row :
  webhooks d !! key = Some row -> same_webhook (provider_value p) ev row = true ->
  run clk us (persist_webhook n8n p ev hash co e sf) d = (d, inr false).
Proof.
  intros Hr Hs. unfold run, with_session, persist_webhook. unfold mbind, M_bind, uuid4, now, query. cbn.
  destruct (absent _ _) eqn:E; [|done]. rewrite social_absent_true in E. specialize (E key row Hr). congruence.
Qed.

Lemma run_persist_stores clk us n8n p ev hash co e sf d :
  (run clk us (persist_webhook n8n p ev hash co e sf) d).2 = inr true ->
  exists key row, webhooks (run clk us (persist_webhook n8n p ev hash co e sf) d).1 !! key = Some row
    /\ same_webhook (provider_value p) ev row = true.
Proof.
  enough (Hwp : wp (persist_webhook n8n p ev hash co e sf) (fun s' r => r = inr true ->
    exists key row, webhooks (committed s') !! key = Some row /\ same_webhook (provider_value p) ev row = true)
    (Session d d clk us)) by exact Hwp.
  unfold persist_webhook. do 6 wp_step. wp_step; [|by wp_run]. wp_step. wp_step; [|done]. wp_step. wp_step; [|done].
  wp_step. apply wp_publish_event; wp_simpl; [|done]. intros d3 E3. apply wp_ret. intros d4 E4. wp_run. intros _.
  cbn [working] in E4. apply core_insert_event in E3. apply core_insert_provider_event in H1.
  rewrite E3, H1 in E4. apply (f_equal snd) in E4. cbn in E4. destruct (is_null _ && _); [|done]. simplify_eq H0.
  intros <-. rewrite E4. eexists (us 0%nat), _. split; [apply lookup_insert_eq|].
  unfold same_webhook. cbn. by rewrite !bool_decide_true.
Qed.

(** A provider event is processed once: after it was stored, and whatever
    happened in between, receiving it again changes nothing and is reported as a
    duplicate. *)
Theorem webhook_counted_once (w w' : world) (clk clk' : nat -> Z) (us us' : nat -> uuid) (d : db)
    (n8n : bool) (p : ProviderName) (ev hash hash' co co' : string) (e e' : NormalizedEvent) (sf sf' : object) :
  run clk us (persist_webhook n8n p ev hash co e sf) d = (w_db w, inr true) ->
  reachable c w -> rtc (wstep c) w w' ->
  run clk' us' (persist_webhook n8n p ev hash' co' e' sf') (w_db w') = (w_db w', inr false).
Proof.
  intros Hrun Hw%reachable_inv Hr. pose proof (run_persist_stores clk us n8n p ev hash co e sf d) as Hs.
  rewrite Hrun in Hs. destruct (Hs eq_refl) as (key & row & Hrow & Hsame). cbn in Hrow.
  destruct (wsteps_lasts _ _ _ Hw Hr) as [_ _ Hwh]. apply (lookup_weaken _ _ _ _ Hrow) in Hwh.
  by eapply run_persist_duplicate.
Qed.
End webhooks.

(** ** Progress *)

Lemma wp_begin_job c r job s : wp (begin_job c r job) (fun s' _ => s' = s) s.
Proof.
  unfold begin_job. apply wp_bind. eapply wp_mono, wp_get_post. intros s1 [e|p1] [-> Hp]; [done|].
  apply wp_bind, wp_lift. destruct (registry_get r (provider p1)) as [e|a1]; [done|].
  apply wp_bind, wp_try, wp_bind. eapply wp_mono; [|apply wp_authorize, (Hp _ eq_refl)]. by intros s2 [e|k1] [-> _].
Qed.

Lemma wp_process_claimed_job c r job u wall s :
  clean s -> wp (process_claimed_job c r job u wall) (fun s' _ => finishes c job (committed s) (committed s')) s.
Proof.
  intros Hc. unfold wp. rewrite process_claimed_job_split.
  enough (Hwp : wp (out ← begin_job c r job; finish_job c job u wall (answer_of job out.1.1 out.1.2 out.2))
    (fun s' _ => finishes c job (committed s) (committed s')) s) by exact Hwp.
  apply wp_bind. eapply wp_mono, wp_begin_job. intros s' [e|out] ->; [apply finishes_same|by apply wp_finish_job].
Qed.

(** A settled row keeps the token of its claim. *)
Lemma finishes_token c job d d' j :
  finishes c job d d' -> jobs d !! jb_id job = Some j ->
  exists j', jobs d' !! jb_id job = Some j' /\ jb_fencing_token j' = jb_fencing_token j.
Proof.
  intros [[[(j0 & j' & key & a & Hj0 & _ & Hset & -> & _) _ _ _]| ->] _] Hj; [|by eauto].
  exists j'. rewrite lookup_insert_eq. split; [done|]. simplify_eq. by destruct Hset.
Qed.

Lemma sort_by_nonempty {A} (le : A -> A -> bool) l x : x ∈ l -> sort_by le l <> [].
Proof. intros Hx E. pose proof (sort_by_perm le l) as Hp. rewrite E in Hp. apply Permutation_nil in Hp as ->. by apply not_elem_of_nil in Hx. Qed.

Lemma claimable_nonempty t n d k j :
  jobs d !! k = Some j -> due t j = true -> claimable t (S n) d <> [].
Proof.
  intros Hj Hd. unfold claimable.
  assert (Hin : j ∈ select_where (due t) (jobs d)) by (apply elem_of_select_where; eauto).
  apply (sort_by_nonempty (by_created jb_created_at jb_id)) in Hin. by destruct (sort_by _ _).
Qed.

Lemma dict_put_nonempty k co l : dict_put k co l <> [].
Proof. destruct l as [|[j c] l]; cbn; [done|]. by case_bool_decide. Qed.

Lemma unique_nonempty (l : queue) : l <> [] -> unique l <> [].
Proof.
  unfold unique. intros Hl. destruct l as [|x l _] using rev_ind; [done|].
  rewrite foldl_app. apply dict_put_nonempty.
Qed.

(** The first session of a turn. *)
Lemma run_recover_and_signal clk us d :
  with_session clk us recover_and_signal d
  = (d <| jobs ::= update_where (stale (clk 0%nat)) (recover (clk 0%nat)) |>,
     inr (unique (((fun j => (jb_id j, jb_correlation_id j)) <$> select_where (stale (clk 0%nat)) (jobs d))
           ++ ((fun j => (jb_id j, jb_correlation_id j)) <$>
                claimable (clk 1%nat) 100
                  (d <| jobs ::= update_where (stale (clk 0%nat)) (recover (clk 0%nat)) |>)))%list)).
Proof. reflexivity. Qed.

(** The second one, when a job is due. *)
Lemma wp_run_jobs c r i d clk us j l :
  claimable (clk 0%nat) 1 d = j :: l -> jobs d !! jb_id j = Some j ->
  wp (run_jobs c r i) (fun s' out => out <> inr None
    /\ exists j', jobs (committed s') !! jb_id j = Some j' /\ jb_fencing_token j' = jb_fencing_token j + 1)
    (Session d d clk us).
Proof.
  intros Ec Hj. unfold run_jobs. wp_step. unfold claim_jobs. do 8 wp_step. rewrite Ec. cbn [fmap list_fmap]. wp_step.
  set (job := claim _ _ _ j). wp_step. eapply wp_mono, wp_process_claimed_job; [|done]. wp_simpl.
  set (d' := upd jobs _ d). assert (Hj' : jobs d' !! jb_id job = Some job).
  { unfold d'. cbn. rewrite lookup_update_where, Hj. cbn. by rewrite bool_decide_true by by left. }
  intros s' [e|state] Hf; destruct (finishes_token _ _ _ _ _ Hf Hj') as (j' & H1 & H2); [|apply wp_ret];
    (split; [done|]; exists j'; split; [exact H1|]; rewrite H2; cbn; lia).
Qed.

(** C39. Work is never lost with Redis: whatever the Redis list holds, even
    nothing, a turn of the worker's loop claims a job as soon as one is due, and
    hands it to [process_claimed_job]. *)
Theorem due_job_taken (c : Settings) (r : registry) (i : turn_input) (d : db) (q : queue) (k : uuid) (j : job_row) :
  keyed d -> jobs d !! k = Some j ->
  due (ti_recover_clock i 1%nat) j = true -> due (ti_claim_clock i 0%nat) j = true ->
  let out := worker_turn c r i d q in
  out.2 <> inr None
  /\ exists k0 j0 j', jobs d !! k0 = Some j0 /\ jobs out.1.1 !! k0 = Some j'
       /\ jb_fencing_token j' = jb_fencing_token j0 + 1.
Proof.
  intros Hk Hj Hd1 Hd2. cbv zeta. unfold worker_turn. rewrite run_recover_and_signal.
  set (t := ti_recover_clock i 0%nat). set (d1 := d <| jobs ::= _ |>).
  assert (Hrow : forall k0 j1, jobs d1 !! k0 = Some j1 -> exists j0, jobs d !! k0 = Some j0
    /\ jb_id j1 = k0 /\ jb_fencing_token j1 = jb_fencing_token j0).
  { intros k0 j1 (j0 & H0 & ->)%lookup_update_where_Some. exists j0. specialize (Hk _ _ H0).
    by destruct (stale t j0). }
  assert (Hj1 : jobs d1 !! k = Some j).
  { unfold d1. cbn. rewrite lookup_update_where, Hj. cbn. destruct (stale t j) eqn:E; [|done].
    apply due_state in Hd1. unfold stale in E. bool_to_prop. by rewrite H in Hd1. }
  cbv zeta. set (signals := unique _).
  assert (Hsig : signals <> []).
  { apply unique_nonempty. intros [_ E]%app_eq_nil. apply fmap_nil_inv in E. by eapply claimable_nonempty in E. }
  destruct (queue_claim (q ++ signals)%list) as [[x|] q'] eqn:Eq.
  2: { destruct q; [destruct signals|]; done. }
  destruct (claimable (ti_claim_clock i 0%nat) 1 d1) as [|j1 l] eqn:Ec; [by eapply claimable_nonempty in Ec|].
  destruct (claimable_in (ti_claim_clock i 0%nat) 1 d1 j1) as [_ [k0 Hj0]]; [rewrite Ec; by left|].
  destruct (Hrow _ _ Hj0) as (j0 & H0 & <- & Htok).
  destruct (wp_run_jobs c r i d1 _ (ti_uuids i) _ _ Ec Hj0) as [Hne (j' & Hj' & Ht)].
  unfold with_session. split; [exact Hne|]. exists (jb_id j1), j0, j'. split; [done|]. split; [exact Hj'|congruence].
Qed.
End SocialGates.
