(* ===== verification/SocialDemo.v ===== *)
(** * Social publishing: runs

    A canary configuration, one post with its account, and the worlds that the
    API and a worker take it through: witnesses for the theorems about the
    system. *)

From Stdlib Require Import Ascii QArith.
From S2P Require Import Prelude PyText Sha256 Txn PyTime PyUnicode PyParse SocialTables SocialRepo SocialPublish SocialService SocialApi SocialSystem SocialSafety SocialInvariant SocialTheorems SocialGates.
Import SocialTables SocialRepo SocialPublish SocialService SocialApi SocialSystem SocialSafety SocialFence SocialInvariant SocialTheorems SocialGates.
Local Open Scope string_scope.
Local Open Scope Z_scope.

Module SocialDemo.

#[export] Instance demo_repr : PyRepr := fun _ => "[]".

(** Every canary gate open, for one account. *)
Definition demo : Settings :=
  mkSettings "http://postiz" "/run/key" (inr "key") true true "/run/hook" (inr "hook-secret") "" "" true true
    "postly" true false false true true "postly-social-01" 1 60 3 true true
    "00000000-0000-0000-0000-000000000005" "" "" true true true true false false 300.

Definition account (kind : string) : account_row :=
  mkAccountRow 5%N 1%N "postly" "ext-5" "x" "Codestra" "ext-5" "connected" (JList [])
    [("classification", JStr kind)] 0 0 None.
Definition enrolled (kind : string) : gmap uuid account_row := {[5%N := account kind]}.

(** What the adapter answers to each operation. *)
Definition answering (answer : exn + ProviderResult) : Adapter :=
  mkAdapter POSTLY POSTLY_CAPABILITIES (inr (mkHealth true true (Some true) "AVAILABLE")) (fun _ _ _ => answer)
    (fun _ _ => answer) (fun _ _ => answer) (fun _ _ => answer) (fun _ _ => answer) (fun _ _ _ => unsupported WEBHOOK_EVENTS)
    (fun _ _ _ _ => unsupported WEBHOOK_EVENTS).
Definition published : exn + ProviderResult := inr (mkResult (Some "post-1") PUBLISHED).
Definition timed_out : exn + ProviderResult := inl (map_postiz_error (PostizError "unknown_result" false None true)).
Definition works : registry := [answering published].

Definition ids_from (n : N) : nat -> uuid := fun k => (n + N.of_nat k)%N.
Definition at_ (s : Z) : nat -> Z := fun _ => seconds (1700000000 + s).

Definition all_permissions : request_headers := mkHeaders (Some "corr") (Some "req") (Some "social.admin") "key-1" true.
Definition body : CreateSocialPost := mkCreate None 1%N None [5%N] (mkContent "hi" []) None [].

(** ** A post is created *)

Definition w1 : world :=
  initial <| w_db := (w_db initial) <| accounts := enrolled PRODUCTION_APPROVED |> <| campaigns := ∅ |> |>.
Definition created := Eval vm_compute in run (at_ 1) (ids_from 100) (create_post_sql demo works body all_permissions) (w_db w1).
Lemma social_created_eq : run (at_ 1) (ids_from 100) (create_post_sql demo works body all_permissions) (w_db w1) = created.
Proof. vm_compute. reflexivity. Qed.
Definition w2 : world := w1 <| w_db := created.1 |>.

Lemma social_reach_w2 : reachable demo w2.
Proof.
  eapply rtc_l; [apply (w_enroll demo (enrolled PRODUCTION_APPROVED) ∅)|].
  unfold w2. rewrite <- social_created_eq, <- social_run_drop_body. apply rtc_once.
  exact (w_api demo (at_ 1) (ids_from 100) works (ApiCreate body all_permissions) w1).
Qed.

(** ** Its creation job is refused: the account is not for staging *)

Definition claimed_by (clk : nat -> Z) (w : world) :=
  run clk (ids_from 0) (claim_jobs (social_worker_id demo) 1 (social_worker_lease_seconds demo)) (w_db w).
Definition claim_w2 := Eval vm_compute in claimed_by (at_ 2) w2.
Lemma claim_w2_eq : claimed_by (at_ 2) w2 = claim_w2.
Proof. vm_compute. reflexivity. Qed.
Definition the_job (r : exn + list job_row) : job_row :=
  match r with inr (j :: _) => j | _ => new_job 0%N 0%N 0%N POSTLY CREATE "" "" "" None false None 0 end.
Definition create_job : job_row := Eval vm_compute in the_job claim_w2.2.
Definition w3 : world := w2 <| w_db := claim_w2.1 |> <| w_workers ::= <[0%nat := mkWorker create_job Claimed]> |>.
Definition refusal : exn + ProviderResult :=
  inl (social_error "SOCIAL_ACCOUNT_NOT_STAGING_SAFE" "All target accounts must be connected staging accounts" 403).
Definition w4 : world := w3 <| w_workers ::= <[0%nat := mkWorker create_job (Answered refusal)]> |>.
Definition refused := Eval vm_compute in run (at_ 4) (ids_from 200) (finish_job demo create_job 1 (seconds 1700000004) refusal) (w_db w4).
Lemma refused_eq : run (at_ 4) (ids_from 200) (finish_job demo create_job 1 (seconds 1700000004) refusal) (w_db w4) = refused.
Proof. vm_compute. reflexivity. Qed.
Definition w5 : world := w4 <| w_db := refused.1 |> <| w_workers ::= base.delete 0%nat |>.

Lemma social_step_w3 : wstep demo w2 w3.
Proof.
  unfold w3. rewrite <- claim_w2_eq. apply (w_claim demo (at_ 2) (ids_from 0) 0%nat create_job []); [|reflexivity].
  change ((claimed_by (at_ 2) w2).2 = inr [create_job]). rewrite claim_w2_eq. reflexivity.
Qed.
Definition begun (clk : nat -> Z) (r : registry) (job : job_row) (d : db) := run clk (ids_from 0) (begin_job demo r job) d.
Definition demo_post : SocialPost := Eval vm_compute in
  match (begun (at_ 3) works create_job (w_db w3)).2 with inr (p, _, _) => p | _ => mkPost 0%N POSTLY [] [] 0%N None None DRAFT None [] 0 0 end.
Lemma social_step_w4 : wstep demo w3 w4.
Proof.
  apply (w_begin demo (at_ 3) (ids_from 0) works 0%nat create_job demo_post (answering published)
    (inl (social_error "SOCIAL_ACCOUNT_NOT_STAGING_SAFE" "All target accounts must be connected staging accounts" 403)));
    vm_compute; reflexivity.
Qed.
Lemma social_step_w5 : wstep demo w4 w5.
Proof. unfold w5. rewrite <- refused_eq. apply w_finish. reflexivity. Qed.
Lemma w2_to_w4 : rtc (wstep demo) w2 w4.
Proof. eapply rtc_l; [exact social_step_w3|]. apply rtc_once, social_step_w4. Qed.
Lemma reach_w4 : reachable demo w4.
Proof. unfold reachable. etrans; [exact social_reach_w2|exact w2_to_w4]. Qed.
Lemma social_reach_w5 : reachable demo w5.
Proof. unfold reachable. eapply rtc_r; [exact reach_w4|exact social_step_w5]. Qed.

(** ** The post is published as a canary *)

Definition post_id : uuid := Eval vm_compute in id demo_post.
Definition commanded := Eval vm_compute in run (at_ 10) (ids_from 300) (publish demo works post_id false all_permissions) (w_db w5).
Lemma commanded_eq : run (at_ 10) (ids_from 300) (publish demo works post_id false all_permissions) (w_db w5) = commanded.
Proof. vm_compute. reflexivity. Qed.
Definition w6 : world := w5 <| w_db := commanded.1 |>.
Definition claim_w6 := Eval vm_compute in claimed_by (at_ 11) w6.
Lemma claim_w6_eq : claimed_by (at_ 11) w6 = claim_w6.
Proof. vm_compute. reflexivity. Qed.
Definition publish_job : job_row := Eval vm_compute in the_job claim_w6.2.
Definition w7 : world := w6 <| w_db := claim_w6.1 |> <| w_workers ::= <[0%nat := mkWorker publish_job Claimed]> |>.
Definition sent : entry := mkEntry publish_job demo_post CallPublish.
Definition w8 : world :=
  w7 <| w_workers ::= <[0%nat := mkWorker publish_job (Answered published)]> |> <| w_log ::= List.app [sent] |>.
Definition finished_run := Eval vm_compute in
  run (at_ 13) (ids_from 400) (finish_job demo publish_job 1 (seconds 1700000013) published) (w_db w8).
Lemma finished_eq : run (at_ 13) (ids_from 400) (finish_job demo publish_job 1 (seconds 1700000013) published) (w_db w8) = finished_run.
Proof. vm_compute. reflexivity. Qed.
Definition w9 : world := w8 <| w_db := finished_run.1 |> <| w_workers ::= base.delete 0%nat |>.

Lemma social_step_w6 : wstep demo w5 w6.
Proof.
  unfold w6. rewrite <- commanded_eq, <- social_run_drop_body.
  exact (w_api demo (at_ 10) (ids_from 300) works (ApiPublish post_id false all_permissions) w5).
Qed.
Lemma social_step_w7 : wstep demo w6 w7.
Proof.
  unfold w7. rewrite <- claim_w6_eq. apply (w_claim demo (at_ 11) (ids_from 0) 0%nat publish_job []); [|reflexivity].
  change ((claimed_by (at_ 11) w6).2 = inr [publish_job]). rewrite claim_w6_eq. reflexivity.
Qed.
Lemma social_step_w8 : wstep demo w7 w8.
Proof.
  apply (w_begin demo (at_ 12) (ids_from 0) works 0%nat publish_job demo_post (answering published) (inr CallPublish));
    vm_compute; reflexivity.
Qed.
Lemma step_w9 : wstep demo w8 w9.
Proof. unfold w9. rewrite <- finished_eq. apply w_finish. reflexivity. Qed.
Lemma w5_to_w9 : rtc (wstep demo) w5 w9.
Proof.
  eapply rtc_l; [exact social_step_w6|]. eapply rtc_l; [exact social_step_w7|]. eapply rtc_l; [exact social_step_w8|].
  apply rtc_once, step_w9.
Qed.
Lemma reach_w9 : reachable demo w9.
Proof. unfold reachable. etrans; [exact social_reach_w5|exact w5_to_w9]. Qed.
Lemma w2_to_w9 : rtc (wstep demo) w2 w9.
Proof. etrans; [exact w2_to_w4|]. eapply rtc_l; [exact social_step_w5|exact w5_to_w9]. Qed.

Example run_states :
  (jb_state <$> jobs (w_db w9) !! jb_id create_job, jb_state <$> jobs (w_db w9) !! jb_id publish_job,
   po_status <$> posts (w_db w9) !! post_id)
  = (Some "dead_letter", Some "completed", Some "PUBLISHED").
Proof. vm_compute. reflexivity. Qed.

(** ** Witnesses *)

Lemma provider_calls_bounded_witness :
  Z.of_nat (length (calls_of (jb_id publish_job) w9)) <= Z.max 1 3 + count_of (jb_id publish_job) (w_recovered w9).
Proof. exact (provider_calls_bounded demo w9 (jb_id publish_job) reach_w9). Defined.

Lemma finished_for_ever_witness :
  exists j, jobs (w_db w9) !! jb_id create_job = Some j /\ jb_state j = "dead_letter".
Proof.
  destruct (jobs (w_db w5) !! jb_id create_job) as [j|] eqn:E; [|by vm_compute in E].
  exists j. split; [|by vm_compute in E; simplify_eq E; intros <-].
  apply (finished_for_ever demo w5 w9 (jb_id create_job) j social_reach_w5 w5_to_w9 E).
  by vm_compute in E; simplify_eq E; intros <-.
Defined.

Lemma ownership_immutable_witness :
  exists r r', posts (w_db w2) !! post_id = Some r /\ posts (w_db w9) !! post_id = Some r'
    /\ ownership r' = ownership r /\ po_status r = "QUEUED" /\ po_status r' = "PUBLISHED".
Proof.
  destruct (posts (w_db w2) !! post_id) as [r|] eqn:E; [|by vm_compute in E].
  destruct (ownership_immutable demo w2 w9 post_id r social_reach_w2 w2_to_w9 E) as (r' & E' & Ho).
  exists r, r'. split_and!; try done.
  - by vm_compute in E; simplify_eq E; intros <-.
  - by vm_compute in E'; simplify_eq E'; intros <-.
Defined.

Definition demo_intent : intent := intent_of body POSTLY "key-1" "corr" "req".
Definition other_intent : intent := intent_of (body <| cr_content := mkContent "ho" [] |>) POSTLY "key-1" "corr" "req".
Definition create_job_id : uuid := Eval vm_compute in jb_id create_job.
Lemma creation_eq :
  run (at_ 1) (ids_from 100) (create_post_intent demo_intent) (w_db w1) = (w_db w2, inr (post_id, create_job_id, true)).
Proof. vm_compute. reflexivity. Qed.

Lemma post_creation_idempotent_witness :
  run (at_ 20) (ids_from 500) (create_post_intent demo_intent) (w_db w9)
  = (w_db w9, inr (post_id, create_job_id, false))
  /\ (run (at_ 20) (ids_from 500) (create_post_intent other_intent) (w_db w9)).1 = w_db w9.
Proof.
  split.
  - rewrite (post_creation_idempotent demo w2 w9 (at_ 1) (at_ 20) (ids_from 100) (ids_from 500) demo_intent demo_intent
      (w_db w1) post_id create_job_id creation_eq social_reach_w2 w2_to_w9 eq_refl).
    rewrite bool_decide_true; reflexivity.
  - rewrite (post_creation_idempotent demo w2 w9 (at_ 1) (at_ 20) (ids_from 100) (ids_from 500) demo_intent other_intent
      (w_db w1) post_id create_job_id creation_eq social_reach_w2 w2_to_w9 eq_refl).
    reflexivity.
Defined.

Lemma lost_lease_changes_nothing_witness :
  run (at_ 30) (ids_from 600) (finish_job demo publish_job 1 0 published) (w_db w9) = (w_db w9, inr "lease_lost").
Proof.
  apply (lost_lease_changes_nothing demo (at_ 30) (ids_from 600) publish_job published 1 0 (w_db w9)).
  - vm_compute. done.
  - exact I.
  - intros j Hj. left. by vm_compute in Hj; simplify_eq Hj; intros <-.
Defined.

Lemma current_failure_recorded_witness :
  exists out, run (at_ 4) (ids_from 200) (finish_job demo create_job 1 (seconds 1700000004) refusal) (w_db w4) = out
    /\ out.2 = inr "dead_letter".
Proof.
  eexists. split; [reflexivity|].
  destruct (current_failure_recorded demo (at_ 4) (ids_from 200) w4 0 create_job "SOCIAL_ACCOUNT_NOT_STAGING_SAFE"
    "All target accounts must be connected staging accounts" false false 403 1 (seconds 1700000004) reach_w4)
    as (E & _ & _ & Est); [reflexivity| |reflexivity|reflexivity|].
  - exists create_job. split; vm_compute; reflexivity.
  - unfold refusal, social_error. etrans; [exact E|]. by rewrite Est.
Defined.


(** ** A result that may have been sent *)

Definition b1 : world := w2 <| w_db := (w_db w2) <| accounts := enrolled "STAGING_SAFE" |> <| campaigns := ∅ |> |>.
Definition claim_b1 := Eval vm_compute in claimed_by (at_ 2) b1.
Definition b2 : world := b1 <| w_db := claim_b1.1 |> <| w_workers ::= <[0%nat := mkWorker create_job Claimed]> |>.
Definition b3 : world :=
  b2 <| w_workers ::= <[0%nat := mkWorker create_job (Answered timed_out)]> |>
     <| w_log ::= List.app [mkEntry create_job demo_post (CallCreate ["ext-5"])] |>.
Definition lost_run := Eval vm_compute in
  run (at_ 4) (ids_from 200) (finish_job demo create_job 1 (seconds 1700000004) timed_out) (w_db b3).
Definition b4 : world := b3 <| w_db := lost_run.1 |> <| w_workers ::= base.delete 0%nat |>.

Lemma w2_to_b4 : rtc (wstep demo) w2 b4.
Proof.
  assert (E1 : claimed_by (at_ 2) b1 = claim_b1) by (vm_compute; reflexivity).
  assert (E2 : run (at_ 4) (ids_from 200) (finish_job demo create_job 1 (seconds 1700000004) timed_out) (w_db b3) = lost_run)
    by (vm_compute; reflexivity).
  eapply rtc_l; [apply (w_enroll demo (enrolled "STAGING_SAFE") ∅)|].
  eapply (rtc_l _ _ b2).
  { unfold b2. rewrite <- E1. apply (w_claim demo (at_ 2) (ids_from 0) 0%nat create_job []); [|reflexivity].
    change ((claimed_by (at_ 2) b1).2 = inr [create_job]). rewrite E1. reflexivity. }
  eapply (rtc_l _ _ b3).
  { apply (w_begin demo (at_ 3) (ids_from 0) [answering timed_out] 0%nat create_job demo_post (answering timed_out)
      (inr (CallCreate ["ext-5"]))); vm_compute; reflexivity. }
  apply rtc_once. unfold b4. rewrite <- E2. apply w_finish. reflexivity.
Qed.
Lemma reach_b4 : reachable demo b4.
Proof. unfold reachable. etrans; [exact social_reach_w2|exact w2_to_b4]. Qed.

Lemma unknown_result_never_retried_witness :
  exists j, jobs (w_db b4) !! create_job_id = Some j /\ jb_state j = "dead_letter"
    /\ (forall t n, j ∉ claimable t n (w_db b4)).
Proof.
  destruct (jobs (w_db b4) !! create_job_id) as [j|] eqn:E; [|by vm_compute in E]. exists j.
  destruct (unknown_result_never_retried demo b4 b4 create_job_id j reach_b4 (rtc_refl _ _) E) as (? & ? & ?); [|done].
  by vm_compute in E; simplify_eq E; intros <-.
Defined.

(** ** A webhook *)

Definition no_net : network := fun _ => ReadTimeout.
Definition hook_body : string := "{}".
Definition hook_payload : json := JObj
  [("id", JStr "evt-1"); ("type", JStr "post.published");
   ("codestra_subject_id", JStr "00000000-0000-0000-0000-000000000064");
   ("tenant_id", JStr "00000000-0000-0000-0000-000000000001"); ("status", JStr "published"); ("token", JStr "secret")].
Definition hook_headers : headers := Eval vm_compute in
  [("x-postly-timestamp", "1700000000");
   ("x-postly-signature", "sha256=" +:+ hmac_hex (bytes_of "hook-secret") ("1700000000." +:+ hook_body))].
Definition hook_time : Z := seconds 1700000100.
Definition receive (us : nat -> uuid) (d : db) :=
  run (at_ 100) us (webhook_sql demo (build_registry demo no_net) "postly" hook_body hook_headers (Some "corr")
    (Loaded hook_payload) hook_time) d.
Definition hooked := Eval vm_compute in receive (ids_from 700) (w_db w2).
Lemma hooked_eq : receive (ids_from 700) (w_db w2) = hooked.
Proof. vm_compute. reflexivity. Qed.

Lemma accepted_webhook_signed_witness :
  signed demo hook_body hook_headers hook_time
  /\ exists e, hooked.2 = inr (Accepted e) /\ (n_payload e).*1 ⊆ safe_keys.
Proof.
  destruct hooked.2 as [e|[|e]] eqn:E; [by vm_compute in E|by vm_compute in E|].
  assert (Er : (receive (ids_from 700) (w_db w2)).2 = inr (Accepted e)) by by rewrite hooked_eq.
  destruct (accepted_webhook_signed demo no_net (at_ 100) (ids_from 700) "postly" hook_body hook_headers (Some "corr")
    (Loaded hook_payload) hook_time (w_db w2) (Accepted e) Er) as (_ & Hs & _ & Hk). eauto.
Defined.

Definition hook_event : NormalizedEvent := Eval vm_compute in
  match hooked.2 with inr (Accepted e) => e | _ => mkNormalized "" DISABLED 0%N "" 0%N [] 0%N 0 0 end.
Definition v1 : world := w2 <| w_db := hooked.1 |>.
Lemma reach_v1 : reachable demo v1.
Proof.
  unfold reachable. eapply rtc_r; [exact social_reach_w2|]. unfold v1. rewrite <- hooked_eq. unfold receive.
  rewrite <- social_run_drop_body.
  exact (w_api demo (at_ 100) (ids_from 700) (build_registry demo no_net)
    (ApiWebhook "postly" hook_body hook_headers (Some "corr") (Loaded hook_payload) hook_time) w2).
Qed.
Definition hook_hash : string := Eval vm_compute in sha256_text hook_body.

Lemma webhook_counted_once_witness :
  run (at_ 200) (ids_from 800) (persist_webhook true POSTLY "evt-1" "other" "corr-2" hook_event []) (w_db v1)
  = (w_db v1, inr false).
Proof.
  apply (webhook_counted_once demo v1 v1 (at_ 100) (at_ 200) (ids_from 701) (ids_from 800) (w_db w2) true POSTLY
    "evt-1" hook_hash "other" "corr" "corr-2" hook_event hook_event (n_payload hook_event) []).
  - vm_compute. reflexivity.
  - exact reach_v1.
  - apply rtc_refl.
Defined.

(** ** A turn of the worker with an empty Redis list *)

Definition turn : turn_input := mkTurn (at_ 50) (at_ 51) (ids_from 900) 1 (seconds 1700000051).

Lemma due_job_taken_witness : (worker_turn demo works turn (w_db w2) []).2 <> inr None.
Proof.
  destruct (jobs (w_db w2) !! create_job_id) as [j|] eqn:E; [|by vm_compute in E].
  apply (due_job_taken demo works turn (w_db w2) [] create_job_id j).
  - apply (inv_keyed demo w2), reachable_inv, social_reach_w2.
  - exact E.
  - by vm_compute in E; simplify_eq E; intros <-.
  - by vm_compute in E; simplify_eq E; intros <-.
Defined.
End SocialDemo.

(** * Social publishing: where the code and its documents part

    [docs/social/ARCHITECTURE.md] asks that an operation and its key lead to at
    most one provider call and that unknown results are not sent again; the
    theorems below are runs of the code that do otherwise, and two requests that
    cannot do what they are for. *)

Import SocialTables SocialRepo SocialPublish SocialService SocialApi SocialSystem SocialSafety SocialFence SocialInvariant SocialTheorems SocialGates.
Module SocialFindings.

(** ** A job sent again and again *)

(** Publishing and its gates are off; only the delivery switch is on. *)
Definition switched_off : Settings :=
  mkSettings "http://postiz" "/run/key" (inr "key") true false "/run/hook" (inr "hook-secret") "" "" true false
    "postly" false false false true true "postly-social-01" 1 60 3 true false "" "" "" false false false false
    false false 300.

Section again.
Context `{PyRepr}.

Definition supply_from (n : N) : nat -> uuid := fun k => (n + N.of_nat k)%N.
Definition clock_at (s : Z) : nat -> Z := fun _ => seconds s.
Definition the_account : gmap uuid account_row :=
  {[5%N := mkAccountRow 5%N 1%N "postly" "ext-5" "x" "Codestra" "ext-5" "connected" (JList []) [] 0 0 None]}.
Definition scheduled_post : CreateSocialPost :=
  mkCreate None 1%N None [5%N] (mkContent "hi" []) (Some (utc (seconds 1800000000))) [].
Definition operator : request_headers := mkHeaders (Some "corr") (Some "req") (Some "social.admin") "key-1" false.

(** The provider takes the post. *)
Definition accepting : Adapter :=
  let answer := inr (mkResult (Some "post-1") SCHEDULED) in
  mkAdapter POSTLY POSTLY_CAPABILITIES (inr (mkHealth true true (Some true) "AVAILABLE")) (fun _ _ _ => answer)
    (fun _ _ => answer) (fun _ _ => answer) (fun _ _ => answer) (fun _ _ => answer)
    (fun _ _ _ => unsupported WEBHOOK_EVENTS) (fun _ _ _ _ => unsupported WEBHOOK_EVENTS).

Definition start_db : db := empty_db <| accounts := the_account |> <| campaigns := ∅ |>.
Definition stored := Eval vm_compute in
  run (clock_at 0) (supply_from 100) (create_post_sql switched_off [accepting] scheduled_post operator) start_db.
Lemma stored_eq :
  run (clock_at 0) (supply_from 100) (create_post_sql switched_off [accepting] scheduled_post operator) start_db = stored.
Proof. vm_compute. reflexivity. Qed.

Definition first_row : job_row := Eval vm_compute in
  match map_to_list (jobs stored.1) with [(_, j)] => j | _ => new_job 0%N 0%N 0%N POSTLY CREATE "" "" "" None false None 0 end.
Definition read_post : SocialPost := Eval vm_compute in
  match (run (clock_at 0) (supply_from 0) (get_post 100%N) stored.1).2 with
  | inr p => p
  | inl _ => mkPost 0%N POSTLY [] [] 0%N None None DRAFT None [] 0 0
  end.

(** The times of the [n]th claim and of the recovery that follows it. *)
Definition claim_time (n : nat) : Z := 1000 * Z.of_nat (S n).
Definition recover_time (n : nat) : Z := 1000 * Z.of_nat (S n) + 100.

Fixpoint row (n : nat) : job_row :=
  match n with
  | O => first_row
  | S m => recover (seconds (recover_time m)) (claim "postly-social-01" 60 (seconds (claim_time m)) (row m))
  end.
Definition claimed_row (n : nat) : job_row := claim "postly-social-01" 60 (seconds (claim_time n)) (row n).

Fixpoint sent (n : nat) : list entry :=
  match n with O => [] | S m => mkEntry (claimed_row m) read_post CallSchedule :: sent m end.
Fixpoint taken_back (n : nat) : list uuid := match n with O => [] | S m => 101%N :: taken_back m end.

Definition with_job (j : job_row) : db := stored.1 <| jobs := {[101%N := j]} |>.
Definition round (n : nat) : world := mkWorld (with_job (row n)) ∅ (sent n) (taken_back n).

Lemma row_facts n :
  jb_id (row n) = 101%N /\ jb_social_post_id (row n) = 100%N /\ jb_job_type (row n) = "SOCIAL_POST_SCHEDULE"
  /\ jb_attempt_count (row n) = 0 /\ str_in (jb_state (row n)) ["queued"; "retry"] = true
  /\ jb_lease_expires_at (row n) = None
  /\ (jb_next_attempt_at (row n) = None \/ exists t, jb_next_attempt_at (row n) = Some t /\ t <= seconds (claim_time n)).
Proof.
  induction n as [|n (I1 & I2 & I3 & I4 & _)]; [split_and!; [reflexivity..|by left]|].
  cbn [row]. split_and!; try done. right. eexists. split; [reflexivity|]. unfold seconds, claim_time, recover_time. lia.
Qed.

Lemma row_due n : due (seconds (claim_time n)) (row n) = true.
Proof.
  destruct (row_facts n) as (_ & _ & _ & _ & Hst & Hl & Hn). unfold due. rewrite Hst, Hl.
  destruct Hn as [-> |(t & -> & Ht)]; [done|]. cbn. apply Z.leb_le in Ht. by rewrite Ht.
Qed.

Lemma select_singleton p k (j : job_row) :
  select_where p ({[k := j]} : gmap uuid job_row) = if p j then [j] else [].
Proof. unfold select_where, rows. rewrite map_to_list_singleton. cbn. by destruct (p j). Qed.
Lemma update_singleton p f k (j : job_row) :
  update_where p f ({[k := j]} : gmap uuid job_row) = {[k := if p j then f j else j]}.
Proof. unfold update_where. apply map_fmap_singleton. Qed.

Lemma run_claim_round n us :
  run (clock_at (claim_time n)) us (claim_jobs "postly-social-01" 1 60) (with_job (row n))
  = (with_job (claimed_row n), inr [claimed_row n]).
Proof.
  set (d := with_job (row n)). set (t := seconds (claim_time n)).
  assert (Ec : claimable t 1 d = [row n]).
  { unfold claimable, d, with_job. unfold upd at 1. cbn [jobs]. rewrite select_singleton.
    by replace (due t (row n)) with true by (symmetry; apply row_due). }
  change (run (clock_at (claim_time n)) us (claim_jobs "postly-social-01" 1 60) d) with
    (d <| jobs ::= update_where (fun j => bool_decide (jb_id j ∈ (jb_id <$> claimable t 1 d)))
                     (claim "postly-social-01" 60 t) |>,
     (inr (claim "postly-social-01" 60 t <$> claimable t 1 d) : exn + list job_row)).
  rewrite Ec. unfold d, with_job, upd. cbn [jobs]. rewrite update_singleton, bool_decide_true by by left. done.
Qed.

Lemma run_recover_round n us :
  run (clock_at (recover_time n)) us recover_stale_jobs (with_job (claimed_row n))
  = (with_job (row (S n)), inr [(101%N, jb_correlation_id (claimed_row n))]).
Proof.
  set (t := seconds (recover_time n)). set (d := with_job (claimed_row n)).
  change (run (clock_at (recover_time n)) us recover_stale_jobs d) with
    (d <| jobs ::= update_where (stale t) (recover t) |>,
     (inr ((fun j => (jb_id j, jb_correlation_id j)) <$> select_where (stale t) (jobs d)) : exn + list (uuid * string))).
  assert (Hs : stale t (claimed_row n) = true).
  { unfold stale, t. cbn -[seconds]. apply Z.leb_le. unfold seconds, claim_time, recover_time. lia. }
  unfold d, with_job, upd. cbn [jobs]. rewrite update_singleton, select_singleton, Hs. cbn.
  by rewrite (proj1 (row_facts n)).
Qed.

Lemma run_begin_round n us :
  (run (clock_at (claim_time n)) us (begin_job switched_off [accepting] (claimed_row n)) (with_job (claimed_row n))).2
  = inr (read_post, accepting, inr CallSchedule).
Proof.
  destruct (row_facts n) as (_ & Hp & Ht & _). unfold begin_job, authorize.
  assert (jb_social_post_id (claimed_row n) = 100%N) as -> by exact Hp.
  assert (jb_job_type (claimed_row n) = "SOCIAL_POST_SCHEDULE") as -> by exact Ht. vm_compute. reflexivity.
Qed.

Lemma round_step n : rtc (wstep switched_off) (round n) (round (S n)).
Proof.
  pose proof (run_claim_round n (supply_from 0)) as Ec. pose proof (run_recover_round n (supply_from 0)) as Er.
  set (held_world := mkWorld (with_job (claimed_row n)) {[0%nat := mkWorker (claimed_row n) Claimed]} (sent n) (taken_back n)).
  set (answer := answer_of (claimed_row n) read_post accepting (inr CallSchedule)).
  set (called := mkWorld (with_job (claimed_row n)) {[0%nat := mkWorker (claimed_row n) (Answered answer)]} (sent (S n)) (taken_back n)).
  set (crashed := mkWorld (with_job (claimed_row n)) ∅ (sent (S n)) (taken_back n)).
  eapply (rtc_l _ _ held_world).
  { pose proof (w_claim switched_off (clock_at (claim_time n)) (supply_from 0) 0%nat (claimed_row n) [] (round n)) as Hs.
    change (social_worker_id switched_off) with "postly-social-01" in Hs.
    change (social_worker_lease_seconds switched_off) with 60 in Hs.
    change (w_db (round n)) with (with_job (row n)) in Hs. rewrite Ec in Hs. by apply Hs. }
  eapply (rtc_l _ _ called).
  { replace called with (held_world <| w_workers ::= <[0%nat := mkWorker (claimed_row n) (Answered answer)]> |>
      <| w_log ::= List.app (log_of (claimed_row n) read_post (inr CallSchedule)) |>)
      by (unfold called, held_world, upd; cbn [w_db w_workers w_log w_recovered]; by rewrite insert_singleton_eq).
    apply (w_begin switched_off (clock_at (claim_time n)) (supply_from 0) [accepting]);
      [apply lookup_singleton_eq|apply run_begin_round]. }
  eapply (rtc_l _ _ crashed).
  { replace crashed with (called <| w_workers ::= base.delete 0%nat |>); [apply w_die|].
    unfold crashed, called, upd. cbn [w_db w_workers w_log w_recovered]. by rewrite delete_singleton_eq. }
  apply rtc_once. pose proof (w_recover switched_off (clock_at (recover_time n)) (supply_from 0)
    [(101%N, jb_correlation_id (claimed_row n))] crashed) as Hs.
  change (w_db crashed) with (with_job (claimed_row n)) in Hs. rewrite Er in Hs. by apply Hs.
Qed.

Lemma round_reachable n : reachable switched_off (round n).
Proof.
  unfold reachable. induction n as [|n IH]; [|by etrans; [|apply round_step]].
  eapply rtc_l; [apply (w_enroll switched_off the_account ∅)|]. apply rtc_once.
  replace (round 0) with (initial <| w_db := stored.1 |>) by (vm_compute; reflexivity).
  rewrite <- stored_eq, <- social_run_drop_body.
  exact (w_api switched_off (clock_at 0) (supply_from 100) [accepting] (ApiCreate scheduled_post operator)
    (initial <| w_db := start_db |>)).
Qed.

(** A job whose worker dies after the provider answered is sent again, any
    number of times: the recovery scan puts it back without counting an attempt
    or marking its result as unknown.  The job is the one of a scheduled post,
    and it is sent with publishing and every canary gate switched off. *)
Theorem lapsed_job_sent_without_bound (n : nat) :
  exists w j, reachable switched_off w /\ length (calls_of 101%N w) = n
    /\ jobs (w_db w) !! 101%N = Some j /\ jb_attempt_count j = 0 /\ jb_result_certainty j = "NOT_SENT"
    /\ social_publish_enabled switched_off = false /\ social_production_canary_enabled switched_off = false.
Proof.
  exists (round n), (row n). split_and!; [apply round_reachable| |apply lookup_singleton_eq|apply row_facts| |done..].
  - unfold calls_of. cbn. induction n as [|n IH]; [done|]. cbn.
    rewrite bool_decide_true by apply (row_facts n). cbn. by rewrite IH.
  - induction n; done.
Qed.
End again.

(** ** What a publish request says *)

(** The request that [publish_post] and [schedule_post] send names no account:
    the answer depends on the network only at a request whose list of
    integrations is empty. *)
Theorem publish_names_no_account `{PyRepr} (c : Settings) (net : network) (post : SocialPost) (correlation : string) :
  exists rq body, rq_json rq = Some body /\ json_get "integration" body = Some (JList [])
    /\ forall net', net' rq = net rq ->
       publish_post (PostlyProviderAdapter c net') post correlation
       = publish_post (PostlyProviderAdapter c net) post correlation.
Proof.
  exists (create_request post [] correlation true). eexists. split; [reflexivity|]. split; [reflexivity|].
  intros net' Hn. change (create_ c net' post [] correlation true = create_ c net post [] correlation true).
  unfold create_, request. by rewrite Hn.
Qed.

(** ** Answers that are not recorded *)

(** An exception that is no [SocialError] leaves the tables, and with them the
    job in [processing], as they are. *)
Theorem escaped_error_leaves_job c clk us job u wall d e :
  match e with SocialError _ _ _ _ _ => False | _ => True end ->
  run clk us (finish_job c job u wall (inl e)) d = (d, inl e).
Proof. by destruct e. Qed.

(** A provider that took the post and answers with a list leads there. *)
Lemma list_answer_escapes `{PyRepr} c net post correlation items st :
  truthy (rstrip_slash (postiz_internal_base_url c)) = true -> postiz_api_key c = inr "key" ->
  200 <= st < 300 -> (forall rq, net rq = Response st (Json (JList items))) ->
  publish_post (PostlyProviderAdapter c net) post correlation = inl (AttributeError "get").
Proof.
  intros Hu Hk Hst Hn. change (create_ c net post [] correlation true = inl (AttributeError "get")).
  unfold create_, request. rewrite Hu, Hk, Hn. cbn.
  replace (st =? 429) with false by (symmetry; apply Z.eqb_neq; lia).
  replace (st =? 401) with false by (symmetry; apply Z.eqb_neq; lia).
  replace (st =? 403) with false by (symmetry; apply Z.eqb_neq; lia).
  replace (500 <=? st) with false by (symmetry; apply Z.leb_gt; lia).
  replace (400 <=? st) with false by (symmetry; apply Z.leb_gt; lia). done.
Qed.

(** A connection that breaks while the answer is read, after the request was
    sent, is recorded as a failure before sending, and retried. *)
Lemma read_error_retried wall delay t j max :
  1 < max -> jb_attempt_count j = 0 ->
  match map_postiz_error (PostizError "temporary" true None false) with
  | SocialError code message retryable _ unknown =>
      let j' := failed (mkFailure code message retryable unknown) 1 max wall delay t j in
      decode ReadError = inl (PostizError "temporary" true None false)
      /\ jb_state j' = "retry" /\ jb_result_certainty j' = "FAILED_BEFORE_SEND"
  | _ => False
  end.
Proof.
  intros Hm _. cbn. unfold failed, failure_dead. cbn. apply Z.leb_gt in Hm. by rewrite Hm.
Qed.

(** ** Campaigns *)

(** The campaigns of the API live in the memory of the process, those that a
    post may refer to in a table that nothing fills: a post of a campaign is
    refused. *)
Theorem campaign_posts_refused clk us i d k :
  campaigns d = ∅ -> in_campaign_id i = Some k -> find_key (intent_key i) (idempotency d) = None ->
  exists e, run clk us (create_post_intent i) d = (d, inl e).
Proof.
  intros Hc Hi Hk.
  enough (Hwp : wp (create_post_intent i) (fun s' r => committed s' = d /\ exists e, r = inl e) (Session d d clk us)).
  { destruct Hwp as [Hd [e He]]. exists e. unfold run, with_session. rewrite Hd. f_equal. exact He. }
  unfold create_post_intent. wp_step.
  destruct (in_post_id i); wp_step; wp_step; wp_step; wp_step; apply wp_reserve; wp_simpl; try congruence;
    intros _; unfold store_intent; cbv zeta; wp_step; wp_step; wp_step;
    (destruct (timestamptz _) as [e|o]; [apply wp_raise; by eauto|]); apply wp_ret; wp_step; wp_step; try by eauto.
  all: match goal with E : insert_post _ _ = Some _ |- _ => unfold insert_post in E; cbn in E end.
  all: rewrite Hi, Hc in H; rewrite (bool_decide_false (k ∈ ∅)) in H by set_solver; by rewrite andb_false_r in H.
Qed.
End SocialFindings.
