(* ===== verification/CallbackTables.v ===== *)
(** * Callback management: tables and row-level security

    The tables of migrations 0051 and 0052 ([CallbackRecord], [CallbackEvent]
    and [CallbackDelivery] of [src/app/db/models.py]), the commands that
    reminders are queued as, and the policies that every statement on them is
    subject to.  Row-level security is forced, so what a statement sees and
    may store depends on the context that [set_callback_rls_context] sets for
    the transaction.  Every function of the component sets it once, before its
    first statement, and ends with its only commit: the context is an argument
    of the statements.

    Of the columns, [created_at], [updated_at], [occurred_at], [published_at]
    and the two attempt columns that no code of the component writes are left
    out. *)

From S2P Require Import Prelude PyText Txn.
Local Open Scope string_scope.
Local Open Scope Z_scope.

Module CallbackTables.

(** ** Rows *)

Record record := mkRecord {
  r_id : uuid;
  r_tenant_id : string;
  r_campaign_id : string;
  r_contact_id : option string;
  r_lead_id : option string;
  r_opportunity_id : option string;
  r_original_call_id : option string;
  r_original_linkedid : option string;
  r_assigned_agent_id : option string;
  r_assigned_user_id : option string;
  r_assigned_team_id : option string;
  r_supervisor_id : option string;
  r_phone_number : string;
  r_normalized_phone : string;
  r_scheduled_at : Z;
  r_customer_timezone : string;
  r_priority : string;
  r_reason : string;
  r_notes : string;
  r_state : string;
  r_desired_state : string;
  r_actual_state : string;
  r_reminder_email_enabled : bool;
  r_reminder_popup_enabled : bool;
  r_email_reminder_1_at : Z;
  r_email_reminder_2_at : Z;
  r_popup_reminder_at : Z;
  r_max_attempts : Z;
  r_next_attempt_at : Z;
  r_completed_at : option Z;
  r_cancelled_at : option Z;
  r_completion_disposition : option string;
  r_completion_notes : option string;
  r_correlation_id : string;
  r_idempotency_key : string;
  r_request_hash : string;
  r_version : Z;
  r_sync_state : string;
  r_compliance_json : json;
  r_context_json : json;
  r_created_by : string;
}.
#[export] Instance record_eta : Eta record := fun r =>
  mkRecord (r_id r) (r_tenant_id r) (r_campaign_id r) (r_contact_id r) (r_lead_id r) (r_opportunity_id r)
    (r_original_call_id r) (r_original_linkedid r) (r_assigned_agent_id r) (r_assigned_user_id r)
    (r_assigned_team_id r) (r_supervisor_id r) (r_phone_number r) (r_normalized_phone r) (r_scheduled_at r)
    (r_customer_timezone r) (r_priority r) (r_reason r) (r_notes r) (r_state r) (r_desired_state r)
    (r_actual_state r) (r_reminder_email_enabled r) (r_reminder_popup_enabled r) (r_email_reminder_1_at r)
    (r_email_reminder_2_at r) (r_popup_reminder_at r) (r_max_attempts r) (r_next_attempt_at r)
    (r_completed_at r) (r_cancelled_at r) (r_completion_disposition r) (r_completion_notes r)
    (r_correlation_id r) (r_idempotency_key r) (r_request_hash r) (r_version r) (r_sync_state r)
    (r_compliance_json r) (r_context_json r) (r_created_by r).

Record event := mkEvent {
  e_callback_id : uuid;
  e_tenant_id : string;
  e_campaign_id : string;
  e_event_type : string;
  e_version : Z;
  e_idempotency_key : string;
  e_correlation_id : string;
  e_actor_id : string;
  e_payload_json : json;
}.

Record delivery := mkDelivery {
  d_callback_id : uuid;
  d_callback_version : Z;
  d_channel : string;
  d_stage : string;
  d_idempotency_key : string;
  d_status : string;
  d_message_id : option uuid;
  d_provider_message_id : option string;
  d_attempt_count : Z;
  d_last_error_code : option string;
  d_next_attempt_at : option Z;
}.
#[export] Instance delivery_eta : Eta delivery := fun d =>
  mkDelivery (d_callback_id d) (d_callback_version d) (d_channel d) (d_stage d) (d_idempotency_key d)
    (d_status d) (d_message_id d) (d_provider_message_id d) (d_attempt_count d) (d_last_error_code d)
    (d_next_attempt_at d).

(** A [notification_command]: the columns that are not constants of the
    statement. *)
Record notification := mkNotification {
  c_command_id : string;
  c_idempotency_key : string;
  c_correlation_id : string;
  c_causation_id : string;
  c_organization_id : string;
  c_campaign_id : string;
  c_lead_id : option string;
  c_customer_id : string;
  c_template_id : string;
  c_sender_profile_id : string;
  c_destination_token : string;
  c_consent_evidence_id : string;
  c_policy_hash : string;
  c_requested_by : string;
  c_requested_at : Z;
  c_not_before : Z;
  c_expires_at : Z;
  c_timezone : string;
  c_payload_hash : string;
  c_template_variables : json;
}.

Record db := mkDb {
  records : gmap uuid record;
  events : gmap uuid event;
  deliveries : gmap uuid delivery;
  notifications : gmap uuid notification;
}.
#[export] Instance db_eta : Eta db := fun d => mkDb (records d) (events d) (deliveries d) (notifications d).

(** ** Statements *)

(** A statement that the database may refuse. *)
Definition statement (f : db -> exn + db) : M db unit :=
  r ← query f;
  match r with inr d => execute (fun _ => d) | inl e => raise e end.

Lemma keeps_statement (P : db -> Prop) f :
  (forall d d', P d -> f d = inr d' -> P d') -> keeps P (statement f).
Proof.
  intros Hf s [Hc Hw]. unfold statement, mbind, M_bind, query.
  destruct (f (working s)) as [e|d] eqn:E; split; cbn; eauto.
Qed.

(** What the driver raises for a value that its column cannot hold, and for a
    row that the policy of its table refuses; neither is an [IntegrityError]. *)
Definition DataError : exn := RuntimeError "DataError".
Definition ProgrammingError : exn := RuntimeError "ProgrammingError".

(** [varchar(n)] *)
Definition fits (n : Z) (s : string) : bool := py_len s <=? n.
Definition fits_opt (n : Z) (s : option string) : bool := match s with Some s => fits n s | None => true end.

(** No row satisfies [p]. *)
Definition absent {V} (p : V -> bool) (t : gmap uuid V) : bool := forallb (fun v => negb (p v)) (rows t).

Lemma cb_absent_spec {V} (p : V -> bool) (t : gmap uuid V) :
  absent p t = true <-> forall k v, t !! k = Some v -> p v = false.
Proof.
  unfold absent. rewrite forallb_forall. setoid_rewrite <- list_elem_of_In. setoid_rewrite elem_of_rows.
  split.
  - intros H k v Hk. apply negb_true_iff, H. eauto.
  - intros H v [k Hk]. apply negb_true_iff. eauto.
Qed.

(** ** Row-level security *)

Record rls := mkRls {
  app_tenant_id : string;
  app_campaign_ids : string;
  app_actor_id : string;
  app_role : string;
  app_team_ids : string;
}.

Definition nonempty (s : string) : bool := negb (bool_decide (s = "")).

(** [sorted({str(value) for value in values if value})] *)
Definition sorted_set (values : list string) : list string :=
  sorted_strings (remove_dups (List.filter nonempty values)).

Definition set_callback_rls_context (tenant : string) (campaign_ids : list string) (actor role : string)
    (team_ids : list string) : exn + rls :=
  let campaigns := sorted_set campaign_ids in
  let teams := sorted_set team_ids in
  check (nonempty tenant && negb (bool_decide (campaigns = [])) && nonempty actor && nonempty role)
    (ValueError "complete callback RLS context is required") ;;
  mret (mkRls tenant (join "," campaigns) actor role (join "," teams)).

(** [value = ANY(string_to_array(NULLIF(current_setting(...),''), ','))] *)
Definition any_of (value setting : string) : bool := nonempty setting && str_in value (split_comma setting).
Definition any_of_opt (value : option string) (setting : string) : bool :=
  match value with Some v => any_of v setting | None => false end.
(** [value = NULLIF(current_setting(...),'')] *)
Definition is_setting (value setting : string) : bool := nonempty setting && bool_decide (value = setting).
Definition is_setting_opt (value : option string) (setting : string) : bool :=
  match value with Some v => is_setting v setting | None => false end.

Definition unrestricted_roles : list string :=
  ["service"; "scheduler"; "supervisor"; "campaign_manager"; "call_center_admin"; "owner"; "qa"].

(** [callback_record_scope] *)
Definition visible (x : rls) (r : record) : bool :=
  is_setting (r_tenant_id r) (app_tenant_id x)
  && any_of (r_campaign_id r) (app_campaign_ids x)
  && (str_in (app_role x) unrestricted_roles
      || is_setting_opt (r_assigned_agent_id r) (app_actor_id x)
      || is_setting_opt (r_assigned_user_id r) (app_actor_id x)
      || any_of_opt (r_assigned_team_id r) (app_team_ids x)).

(** [callback_event_tenant] *)
Definition event_visible (x : rls) (e : event) : bool := is_setting (e_tenant_id e) (app_tenant_id x).

(** [callback_delivery_tenant]: the subquery on [callback_record] is subject to
    the policy of that table. *)
Definition delivery_visible (x : rls) (d : db) (v : delivery) : bool :=
  match records d !! d_callback_id v with Some r => visible x r | None => false end.

(** ** Inserts and updates *)

Definition record_fits (r : record) : bool :=
  fits 128 (r_tenant_id r) && fits 128 (r_campaign_id r) && fits_opt 128 (r_contact_id r)
  && fits_opt 128 (r_lead_id r) && fits_opt 128 (r_opportunity_id r) && fits_opt 128 (r_original_call_id r)
  && fits_opt 128 (r_original_linkedid r) && fits_opt 128 (r_assigned_agent_id r)
  && fits_opt 128 (r_assigned_user_id r) && fits_opt 128 (r_assigned_team_id r) && fits_opt 128 (r_supervisor_id r)
  && fits 32 (r_phone_number r) && fits 64 (r_customer_timezone r) && fits 16 (r_priority r)
  && fits 256 (r_reason r) && fits_opt 64 (r_completion_disposition r) && fits 128 (r_correlation_id r)
  && fits 128 (r_idempotency_key r) && fits 128 (r_created_by r).

(** [ck_callback_owner] and [ck_callback_counters] *)
Definition record_checks (r : record) : bool :=
  negb (is_null (r_assigned_agent_id r) && is_null (r_assigned_team_id r))
  && (1 <=? r_version r) && (1 <=? r_max_attempts r).

(** [uq_callback_tenant_idempotency] *)
Definition same_key (tenant key : string) (r : record) : bool :=
  bool_decide (r_tenant_id r = tenant) && bool_decide (r_idempotency_key r = key).

Definition insert_record (x : rls) (r : record) (d : db) : exn + db :=
  check (record_fits r) DataError ;;
  check (visible x r) ProgrammingError ;;
  check (record_checks r && is_null (records d !! r_id r)
         && absent (same_key (r_tenant_id r) (r_idempotency_key r)) (records d)) (IntegrityError "callback_record") ;;
  mret (d <| records ::= <[r_id r := r]> |>).

Definition event_fits (e : event) : bool :=
  fits 64 (e_event_type e) && fits 128 (e_idempotency_key e) && fits 128 (e_correlation_id e)
  && fits 128 (e_actor_id e).

(** [uq_callback_event_version_type] and [uq_callback_event_idempotency] *)
Definition same_version_type (e v : event) : bool :=
  bool_decide (e_callback_id v = e_callback_id e) && (e_version v =? e_version e)
  && bool_decide (e_event_type v = e_event_type e).
Definition same_event_key (tenant key : string) (v : event) : bool :=
  bool_decide (e_tenant_id v = tenant) && bool_decide (e_idempotency_key v = key).

Definition insert_event (x : rls) (k : uuid) (e : event) (d : db) : exn + db :=
  check (event_fits e) DataError ;;
  check (event_visible x e) ProgrammingError ;;
  check (is_null (events d !! k) && negb (is_null (records d !! e_callback_id e))
         && absent (same_version_type e) (events d)
         && absent (same_event_key (e_tenant_id e) (e_idempotency_key e)) (events d))
    (IntegrityError "callback_event") ;;
  mret (d <| events ::= <[k := e]> |>).

(** What the unit of work flushes for a changed callback: the row and the event
    of its new version. *)
Definition store_version (x : rls) (r : record) (k : uuid) (e : event) (d : db) : exn + db :=
  check (record_fits r) DataError ;;
  check (visible x r) ProgrammingError ;;
  check (record_checks r) (IntegrityError "callback_record") ;;
  insert_event x k e (d <| records ::= <[r_id r := r]> |>).

Definition delivery_fits (v : delivery) : bool :=
  fits 16 (d_channel v) && fits 32 (d_stage v) && fits 128 (d_idempotency_key v) && fits 32 (d_status v).

(** [uq_callback_delivery_stage] and the unique [idempotency_key] *)
Definition same_stage (v w : delivery) : bool :=
  bool_decide (d_callback_id w = d_callback_id v) && (d_callback_version w =? d_callback_version v)
  && bool_decide (d_channel w = d_channel v) && bool_decide (d_stage w = d_stage v).
Definition same_delivery_key (v w : delivery) : bool := bool_decide (d_idempotency_key w = d_idempotency_key v).

Definition insert_delivery (x : rls) (k : uuid) (v : delivery) (d : db) : exn + db :=
  check (delivery_fits v) DataError ;;
  check (delivery_visible x d v) ProgrammingError ;;
  check (is_null (deliveries d !! k) && absent (same_stage v) (deliveries d)
         && absent (same_delivery_key v) (deliveries d)) (IntegrityError "callback_delivery") ;;
  mret (d <| deliveries ::= <[k := v]> |>).

(** An [UPDATE] of the deliveries that the policy shows and [p] selects. *)
Definition update_deliveries (x : rls) (p : delivery -> bool) (f : delivery -> delivery) (d : db) : db :=
  d <| deliveries ::= update_where (fun v => delivery_visible x d v && p v) f |>.

(** [ck_notification_expiry], the unique command and the unique key of the
    organization. *)
Definition same_command (n m : notification) : bool :=
  bool_decide (c_command_id m = c_command_id n)
  || bool_decide (c_organization_id m = c_organization_id n) && bool_decide (c_idempotency_key m = c_idempotency_key n).

Definition notification_fits (n : notification) : bool :=
  fits 128 (c_template_id n) && fits 128 (c_sender_profile_id n) && fits 128 (c_requested_by n)
  && fits 64 (c_timezone n) && fits 128 (c_customer_id n).

Definition insert_notification (k : uuid) (n : notification) (d : db) : exn + db :=
  check (notification_fits n) DataError ;;
  check ((c_requested_at n <? c_expires_at n) && is_null (notifications d !! k)
         && absent (same_command n) (notifications d)) (IntegrityError "notification_command") ;;
  mret (d <| notifications ::= <[k := n]> |>).
End CallbackTables.
