(* ===== verification/CallbackApi.v ===== *)
(** * Callback management: the control API ([src/app/api/v1/callbacks.py])

    Every handler that changes state, and the two queues of the agents.  The
    handlers start from the principal that the bearer token was resolved to,
    and from bodies whose single fields the validation library has checked;
    its JSON dump, which the request hash is taken of, is the interface
    [CallbackModels].  The zone database is an argument.  [wall] is the reading
    of [datetime.now(UTC)]; no handler uses more than one. *)

From S2P Require Import Prelude PyText Sha256 Txn PyTime PyParse Machines Callbacks CallbackTables.
Import Callbacks CallbackTables.
Local Open Scope string_scope.
Local Open Scope Z_scope.

Module CallbackApi.

Record Principal := mkPrincipal {
  p_actor : string;
  p_tenant : string;
  p_campaigns : list string;
  p_role : string;
  p_teams : list string;
}.

Record Compliance := mkCompliance {
  consent : bool;
  dnc : bool;
  suppressed : bool;
  within_calling_hours : bool;
  campaign_allowed : bool;
}.

Record CreateCallback := mkCreate {
  b_tenant_id : string;
  b_campaign_id : string;
  b_contact_id : option string;
  b_lead_id : option string;
  b_opportunity_id : option string;
  b_original_call_id : option string;
  b_original_linkedid : option string;
  b_assigned_agent_id : option string;
  b_assigned_user_id : option string;
  b_reminder_recipient_token : option string;
  b_assigned_team_id : option string;
  b_supervisor_id : option string;
  b_phone_number : string;
  b_scheduled_at : datetime;
  b_customer_timezone : string;
  b_priority : string;
  b_reason : string;
  b_notes : string;
  b_reminder_email_enabled : bool;
  b_reminder_popup_enabled : bool;
  b_max_attempts : Z;
  b_compliance : Compliance;
  b_customer_context : json;
}.

Record Change := mkChange {
  expected_version : Z;
  ch_scheduled_at : option datetime;
  ch_customer_timezone : option string;
  ch_assigned_agent_id : option string;
  ch_assigned_team_id : option string;
  ch_reason : option string;
  ch_notes : option string;
  ch_completion_disposition : option string;
  ch_completion_notes : option string;
  ch_snooze_minutes : option Z;
}.

Record DeliveryResult := mkResult {
  re_callback_version : Z;
  re_channel : string;
  re_stage : string;
  re_status : string;
  re_message_id : option uuid;
  re_provider_message_id : option string;
  re_error_code : option string;
}.

Record Settings := mkSettings {
  callback_email_command_enabled : bool;
  callback_email_sender_profile_id : string;
  callback_email_template_id : string;
  callback_email_policy_hash : string;
}.

(** [body.model_dump(mode="json")] *)
Class CallbackModels := { model_dump : CreateCallback -> json }.

(** [if not value] for an optional text *)
Definition falsy (o : option string) : bool := match o with Some s => negb (nonempty s) | None => true end.

(** The validator [CreateCallback.owner]. *)
Definition owner (b : CreateCallback) : exn + unit :=
  check (negb (falsy (b_assigned_agent_id b) && falsy (b_assigned_team_id b)))
    (ValueError "assigned agent or team is required").

Definition lift {A} (r : exn + A) : M db A := match r with inr a => mret a | inl e => raise e end.

(** [except ValueError as exc: raise HTTPException(status, str(exc))] *)
Definition as_http {A} (status : Z) (r : exn + A) : exn + A :=
  match r with inl (ValueError msg) => inl (HTTPException status msg) | r => r end.

Definition _scope (p : Principal) (tenant campaign : string) : exn + unit :=
  check (bool_decide (tenant = p_tenant p) && str_in campaign (p_campaigns p))
    (HTTPException 403 "callback scope denied").

Definition _tenant_context (p : Principal) : exn + rls :=
  set_callback_rls_context (p_tenant p) (p_campaigns p) (p_actor p) (p_role p) (p_teams p).

Definition assignment_denied (p : Principal) (r : record) : bool :=
  bool_decide (p_role p = "agent") && negb (bool_decide (r_assigned_agent_id r = Some (p_actor p)))
  && negb match r_assigned_team_id r with Some t => str_in t (p_teams p) | None => false end.

Definition _load (x : rls) (callback_id : uuid) (p : Principal) : M db record :=
  found ← query (fun d => records d !! callback_id);
  match found with
  | Some row =>
      if visible x row then
        lift (_scope p (r_tenant_id row) (r_campaign_id row)) ;;
        guard_or (negb (assignment_denied p row)) (HTTPException 403 "callback assignment denied") ;;
        mret row
      else raise (HTTPException 404 "callback not found")
  | None => raise (HTTPException 404 "callback not found")
  end.

Definition _event (row : record) (kind key : string) (p : Principal) (payload : json) (correlation : string) :
    event :=
  mkEvent (r_id row) (r_tenant_id row) (r_campaign_id row) kind (r_version row) key correlation (p_actor p) payload.

Definition opt_json (o : option string) : json := match o with Some s => JStr s | None => JNull end.

(** ["callback:{row.id}:v{row.version}:..."] *)
Definition version_key (row : record) (suffix : string) : string :=
  "callback:" +:+ uuid_str (r_id row) +:+ ":v" +:+ str_of_Z (r_version row) +:+ ":" +:+ suffix.

Definition new_delivery (row : record) (channel stage suffix : string) (message : option uuid) (at_ : Z) : delivery :=
  mkDelivery (r_id row) (r_version row) channel stage (version_key row suffix) "QUEUED" message None 0 None (Some at_).

(** ** Creation *)

Definition email_variables (row : record) : json :=
  JObj [("callback_uuid", JStr (uuid_str (r_id row))); ("callback_version", JInt (r_version row));
        ("tenant", JStr (r_tenant_id row)); ("campaign", JStr (r_campaign_id row));
        ("assigned_agent", opt_json (r_assigned_agent_id row));
        ("scheduled_at", JStr (isoformat (utc (r_scheduled_at row))));
        ("customer_timezone", JStr (r_customer_timezone row)); ("reason", JStr (r_reason row));
        ("correlation_id", JStr (r_correlation_id row))].

Definition email_stages (row : record) : list (string * Z) :=
  [("REMINDER_24H", r_email_reminder_1_at row); ("REMINDER_1H", r_email_reminder_2_at row)].

Definition email_command (c : Settings) (row : record) (token : string) (p : Principal) (wall : Z) (id : uuid)
    (stage : string) (not_before : Z) : notification :=
  mkNotification ("callback-email-" +:+ uuid_str id) (version_key row ("email:" +:+ str_lower stage))
    (r_correlation_id row) (uuid_str (r_id row)) (r_tenant_id row) (r_campaign_id row) (r_lead_id row)
    (py_or (r_contact_id row) "INTERNAL") (callback_email_template_id c) (callback_email_sender_profile_id c)
    token ("callback:" +:+ uuid_str (r_id row) +:+ ":compliance") (callback_email_policy_hash c) (p_actor p)
    wall not_before (r_scheduled_at row + hours 1) (r_customer_timezone row)
    (sha256_hex (json_dumps json_canonical (email_variables row))) (email_variables row).

(** The commands of the stages, and the deliveries added to the session. *)
Fixpoint queue_stages (c : Settings) (row : record) (token : string) (p : Principal) (wall : Z)
    (stages : list (string * Z)) : M db (list (uuid * delivery)) :=
  match stages with
  | [] => mret []
  | (stage, not_before) :: rest =>
      notification_id ← uuid4;
      statement (insert_notification notification_id
        (email_command c row token p wall notification_id stage not_before)) ;;
      k ← uuid4;
      others ← queue_stages c row token p wall rest;
      mret ((k, new_delivery row "EMAIL" stage ("email:" +:+ str_lower stage) (Some notification_id) not_before)
              :: others)
  end.

Definition _queue_email_command (c : Settings) (row : record) (b : CreateCallback) (p : Principal) (wall : Z) :
    M db (list (uuid * delivery)) :=
  if negb (r_reminder_email_enabled row) || negb (callback_email_command_enabled c) then mret []
  else match b_reminder_recipient_token b with
       | None => raise (HTTPException 422 "internal reminder recipient identity required")
       | Some token =>
           guard_or (nonempty token) (HTTPException 422 "internal reminder recipient identity required") ;;
           guard_or (nonempty (callback_email_sender_profile_id c)
                     && (py_len (callback_email_policy_hash c) =? 64))
             (HTTPException 503 "COD callback email identity is not configured") ;;
           queue_stages c row token p wall (email_stages row)
       end.

Definition add_all (x : rls) (l : list (uuid * delivery)) : M db unit :=
  for_each l (fun kv => statement (insert_delivery x kv.1 kv.2)).

(** [except IntegrityError: rollback; raise HTTPException(409, message)] *)
Definition or_conflict {A} (message : string) (m : M db A) : M db A :=
  try_except m (fun e => match e with
                         | IntegrityError _ => rollback ;; raise (HTTPException 409 message)
                         | e => raise e
                         end).

(** The row of a new callback. *)
Definition new_record (id : uuid) (b : CreateCallback) (scheduled : datetime) (phone digest correlation key actor : string) :
    record :=
  let k := b_compliance b in
  let '(state, checks) :=
    compliance_state (consent k) (dnc k) (suppressed k) (within_calling_hours k) (campaign_allowed k) in
  let '(r1, r2, pop) := reminders scheduled in
  mkRecord id (b_tenant_id b) (b_campaign_id b) (b_contact_id b) (b_lead_id b) (b_opportunity_id b)
    (b_original_call_id b) (b_original_linkedid b) (b_assigned_agent_id b) (b_assigned_user_id b)
    (b_assigned_team_id b) (b_supervisor_id b) (b_phone_number b) phone (instant scheduled)
    (b_customer_timezone b) (b_priority b) (b_reason b) (b_notes b) state state state
    (b_reminder_email_enabled b) (b_reminder_popup_enabled b) (instant r1) (instant r2) (instant pop)
    (b_max_attempts b) (instant r1) None None None None correlation key digest 1 "PENDING"
    (JObj ((fun kv => (kv.1, JBool kv.2)) <$> checks)) (b_customer_context b) actor.

Section handlers.
Context `{CallbackModels} (ZoneInfo : zone_database) (c : Settings).

Definition _hash (b : CreateCallback) : string := sha256_hex (json_dumps json_canonical (model_dump b)).

Definition created_event (row : record) (key : string) (p : Principal) (correlation : string) : event :=
  _event row "callback.created" (key +:+ ":created") p
    (JObj [("state", JStr (r_state row)); ("scheduled_at", JStr (isoformat (utc (r_scheduled_at row))))]) correlation.

(** From the flush of the new row to the commit. *)
Definition store_callback (x : rls) (row : record) (b : CreateCallback) (p : Principal) (key correlation : string)
    (wall : Z) : M db record :=
  or_conflict "callback identity conflict" (statement (insert_record x row)) ;;
  event_id ← uuid4;
  emails ← _queue_email_command c row b p wall;
  popup ← (if r_reminder_popup_enabled row then
             k ← uuid4;
             mret [(k, new_delivery row "POPUP" "WARNING_15M" "popup:warning-15m" None (r_popup_reminder_at row))]
           else mret []);
  or_conflict "callback event identity conflict"
    (statement (insert_event x event_id (created_event row key p correlation)) ;; add_all x (emails ++ popup)%list) ;;
  commit ;;
  mret row.

Definition prior_of (x : rls) (tenant key : string) (d : db) : option record :=
  List.find (fun r => visible x r && same_key tenant key r) (rows (records d)).

Definition create (b : CreateCallback) (p : Principal) (key correlation : string) (wall : Z) : M db record :=
  lift (owner b) ;;
  lift (_scope p (b_tenant_id b) (b_campaign_id b)) ;;
  x ← lift (_tenant_context p);
  prior ← query (prior_of x (p_tenant p) key);
  match prior with
  | Some row =>
      guard_or (bool_decide (r_request_hash row = _hash b)) (HTTPException 409 "idempotency payload conflict") ;;
      mret row
  | None =>
      scheduled ← lift (as_http 422 (canonical_time ZoneInfo (b_scheduled_at b) (b_customer_timezone b)));
      phone ← lift (as_http 422 (normalized_phone (b_phone_number b)));
      id ← uuid4;
      store_callback x (new_record id b scheduled phone (_hash b) correlation key (p_actor p)) b p key correlation wall
  end.

(** ** Changes *)

Definition reassignment_roles : list string := ["supervisor"; "campaign_manager"; "call_center_admin"; "owner"].

(** The checks of a reassignment. *)
Definition reassignment_allowed (target : string) (b : Change) (p : Principal) : exn + unit :=
  if bool_decide (target = "REASSIGNED") then
    check (str_in (p_role p) reassignment_roles) (HTTPException 403 "reassignment role denied") ;;
    check (negb (is_null (ch_assigned_agent_id b) && is_null (ch_assigned_team_id b)))
      (HTTPException 422 "new agent or team is required") ;;
    check (negb match ch_assigned_team_id b with
                | Some t => bool_decide (p_role p = "supervisor") && negb (str_in t (p_teams p))
                | None => false
                end) (HTTPException 403 "reassignment team scope denied")
  else mret tt.

(** The new time of a snoozed or rescheduled callback. *)
Definition reschedule (target : string) (b : Change) (wall : Z) (row : record) : exn + record :=
  if bool_decide (target = "SNOOZED") then
    let m := match ch_snooze_minutes b with Some 0 | None => 5 | Some m => m end in
    mret (row <| r_scheduled_at := wall + minutes m |>)
  else if bool_decide (target = "RESCHEDULED") then
    match ch_scheduled_at b, ch_customer_timezone b with
    | Some t, Some tz =>
        check (nonempty tz) (HTTPException 422 "schedule and timezone required") ;;
        u ← as_http 422 (canonical_time ZoneInfo t tz);
        mret (row <| r_scheduled_at := instant u |> <| r_customer_timezone := tz |>)
    | _, _ => inl (HTTPException 422 "schedule and timezone required")
    end
  else mret row.

Definition may_move (current target : string) : exn + unit :=
  if str_in target ["REASSIGNED"; "UPDATED"] then mret tt else as_http 409 (transition current target).

Definition assign (target : string) (b : Change) (row : record) : record :=
  let reassigned := bool_decide (target = "REASSIGNED") in
  let row := match ch_assigned_agent_id b with
             | Some a =>
                 let row := row <| r_assigned_agent_id := Some a |> in
                 if reassigned then row <| r_assigned_team_id := ch_assigned_team_id b |> else row
             | None => row
             end in
  match ch_assigned_team_id b with
  | Some t =>
      let row := row <| r_assigned_team_id := Some t |> in
      if reassigned && is_null (ch_assigned_agent_id b) then row <| r_assigned_agent_id := None |> else row
  | None => row
  end.

Definition annotate (target : string) (b : Change) (row : record) : record :=
  let row := match ch_notes b with Some n => row <| r_notes := n |> | None => row end in
  let row := match ch_reason b with Some n => row <| r_reason := n |> | None => row end in
  if str_in target ["SNOOZED"; "RESCHEDULED"] then
    let '(r1, r2, pop) := reminders (utc (r_scheduled_at row)) in
    row <| r_email_reminder_1_at := instant r1 |> <| r_email_reminder_2_at := instant r2 |>
        <| r_popup_reminder_at := instant pop |>
  else row.

Definition waiting (v : delivery) : bool := str_in (d_status v) ["QUEUED"; "RETRY_PENDING"].
Definition cancel_delivery (v : delivery) : delivery :=
  v <| d_status := "STALE_CANCELLED" |> <| d_next_attempt_at := None |>.

(** The reminders of earlier versions that a change makes stale. *)
Definition stale_delivery (callback : uuid) (version : Z) (v : delivery) : bool :=
  bool_decide (d_callback_id v = callback) && (d_callback_version v <=? version) && waiting v.

Definition settles (target : string) : bool :=
  str_in target ["SNOOZED"; "RESCHEDULED"; "REASSIGNED"; "COMPLETED"; "CANCELLED"].

(** The state the change leads to, and the new version. *)
Definition finish_change (target : string) (b : Change) (wall : Z) (row : record) : record :=
  let row := if bool_decide (target = "COMPLETED")
             then row <| r_completed_at := Some wall |> <| r_completion_disposition := ch_completion_disposition b |>
                      <| r_completion_notes := ch_completion_notes b |>
             else row in
  let row := if bool_decide (target = "CANCELLED") then row <| r_cancelled_at := Some wall |> else row in
  let effective := if str_in target ["REASSIGNED"; "UPDATED"] then r_state row else target in
  row <| r_state := effective |> <| r_desired_state := effective |> <| r_actual_state := effective |>
      <| r_version ::= Z.succ |> <| r_sync_state := "PENDING" |>.

Definition assignment_json (row : record) : json :=
  JObj [("agent_id", opt_json (r_assigned_agent_id row)); ("team_id", opt_json (r_assigned_team_id row))].

Definition change_event (target : string) (b : Change) (before after : record) (key : string) (p : Principal)
    (correlation : string) : event :=
  _event after ("callback." +:+ str_lower target) key p
    (JObj ([("from_version", JInt (expected_version b)); ("state", JStr (r_state after))]
           ++ (if bool_decide (target = "REASSIGNED")
               then [("previous_assignment", assignment_json before); ("new_assignment", assignment_json after)]
               else []))%list)
    correlation.

Definition mutate (callback_id : uuid) (target : string) (b : Change) (key correlation : string) (p : Principal)
    (wall : Z) : M db record :=
  x ← lift (_tenant_context p);
  row ← _load x callback_id p;
  fresh_key ← query (fun d => absent (fun e => event_visible x e && same_event_key (p_tenant p) key e) (events d));
  if negb fresh_key then mret row
  else
    guard_or (r_version row =? expected_version b) (HTTPException 409 "stale callback version") ;;
    lift (reassignment_allowed target b p) ;;
    row1 ← lift (reschedule target b wall row);
    lift (may_move (r_state row) target) ;;
    let row2 := assign target b row1 in
    guard_or (negb (falsy (r_assigned_agent_id row2) && falsy (r_assigned_team_id row2)))
      (HTTPException 422 "callback cannot be orphaned") ;;
    let row3 := annotate target b row2 in
    (if settles target
     then execute (update_deliveries x (stale_delivery callback_id (expected_version b)) cancel_delivery)
     else mret tt) ;;
    let row4 := finish_change target b wall row3 in
    event_id ← uuid4;
    statement (store_version x row4 event_id (change_event target b row row4 key p correlation)) ;;
    commit ;;
    mret row4.

(** The routes. *)
Inductive action := Patch | Snooze | Reschedule | Cancel | Complete | Start | CallNow | Reassign.
Definition target_of (a : action) : string :=
  match a with
  | Patch => "UPDATED" | Snooze => "SNOOZED" | Reschedule => "RESCHEDULED" | Cancel => "CANCELLED"
  | Complete => "COMPLETED" | Start | CallNow => "IN_PROGRESS" | Reassign => "REASSIGNED"
  end.
Definition endpoint (a : action) (callback_id : uuid) (b : Change) (key correlation : string) (p : Principal)
    (wall : Z) : M db record := mutate callback_id (target_of a) b key correlation p wall.

(** ** Results of deliveries *)

Definition same_result (callback_id : uuid) (b : DeliveryResult) (v : delivery) : bool :=
  bool_decide (d_callback_id v = callback_id) && (d_callback_version v =? re_callback_version b)
  && bool_decide (d_channel v = re_channel b) && bool_decide (d_stage v = re_stage b).

Definition record_result (b : DeliveryResult) (wall : Z) (v : delivery) : delivery :=
  let v := v <| d_status := re_status b |> <| d_message_id := re_message_id b |>
             <| d_provider_message_id := re_provider_message_id b |> <| d_last_error_code := re_error_code b |> in
  if bool_decide (re_status b = "FAILED")
  then let n := d_attempt_count v + 1 in
       v <| d_attempt_count := n |> <| d_next_attempt_at := Some (wall + minutes (Z.min 60 (2 ^ n))) |>
  else v <| d_next_attempt_at := None |>.

Definition callback_result (callback_id : uuid) (b : DeliveryResult) (p : Principal) (wall : Z) : M db record :=
  guard_or (bool_decide (p_role p = "service")) (HTTPException 403 "service identity required") ;;
  x ← lift (_tenant_context p);
  row ← _load x callback_id p;
  guard_or (re_callback_version b =? r_version row) (HTTPException 409 "stale callback delivery result") ;;
  missing ← query (fun d => absent (fun v => delivery_visible x d v && same_result callback_id b v) (deliveries d));
  guard_or (negb missing) (HTTPException 404 "callback delivery not found") ;;
  execute (update_deliveries x (same_result callback_id b) (record_result b wall)) ;;
  commit ;;
  mret row.
End handlers.

(** ** The queues of the agents *)

Definition own_rows (p : Principal) (r : record) : bool :=
  negb (bool_decide (p_role p = "agent"))
  || bool_decide (r_assigned_agent_id r = Some (p_actor p))
  || match r_assigned_team_id r with Some t => str_in t (p_teams p) | None => false end.

Definition listed (p : Principal) (x : rls) (r : record) : bool :=
  visible x r && bool_decide (r_tenant_id r = p_tenant p) && str_in (r_campaign_id r) (p_campaigns p) && own_rows p r.

Definition by_time (a b : record) : bool :=
  (r_scheduled_at a <? r_scheduled_at b)
  || (r_scheduled_at a =? r_scheduled_at b) && (r_id a <=? r_id b)%N.

Definition due_callbacks (p : Principal) : M db (list record) :=
  x ← lift (_tenant_context p);
  query (fun d => take 100 (sort_by by_time
    (select_where (fun r => listed p x r && str_in (r_state r) ["DUE"; "MISSED"; "ESCALATED"]) (records d)))).

(** [ORDER BY priority DESC, scheduled_at]: priorities are compared as texts. *)
Definition by_priority (a b : record) : bool :=
  match String.compare (r_priority a) (r_priority b) with
  | Gt => true
  | Eq => by_time a b
  | Lt => false
  end.

Definition queue (states : list string) (due_before : option Z) (p : Principal) : M db (list record) :=
  x ← lift (_tenant_context p);
  query (fun d => take 500 (sort_by by_priority
    (select_where (fun r => listed p x r
       && (bool_decide (states = []) || str_in (r_state r) states)
       && match due_before with Some t => r_scheduled_at r <=? t | None => true end) (records d)))).
End CallbackApi.
