(* ===== verification/CallbackScheduler.v ===== *)
(** * Callback management: scheduler and popup worker

    [src/app/callback_scheduler.py], the cycle of
    [src/app/entrypoints/scheduler.py] and the popup worker of
    [src/app/workers/callback_realtime.py].  The rows that one call selects are
    locked until its commit; each call is one transaction.  The gateway is an
    argument: what [httpx] gives back for a document.  [now] is the reading of
    [datetime.now(UTC)] at the start of the call. *)

From Stdlib Require Import Ascii.
From S2P Require Import Prelude PyText Txn PyTime PyParse Callbacks CallbackTables CallbackApi Machines.
Import CallbackTables CallbackApi.
Local Open Scope string_scope.
Local Open Scope Z_scope.

Module CallbackScheduler.

Definition scheduler_context (tenant campaign actor : string) (message : string) : exn + rls :=
  check (nonempty tenant && nonempty campaign) (ValueError message) ;;
  set_callback_rls_context tenant [campaign] actor "scheduler" [].

Definition in_scope (x : rls) (tenant campaign : string) (r : record) : bool :=
  visible x r && bool_decide (r_tenant_id r = tenant) && bool_decide (r_campaign_id r = campaign).

(** [row.state = row.desired_state = row.actual_state = state; row.version += 1] *)
Definition move_to (state : string) (r : record) : record :=
  r <| r_state := state |> <| r_desired_state := state |> <| r_actual_state := state |> <| r_version ::= Z.succ |>.

Definition scheduler_event (row : record) (kind worker : string) (payload : json) : event :=
  mkEvent (r_id row) (r_tenant_id row) (r_campaign_id row) ("callback." +:+ kind) (r_version row)
    (version_key row kind) (r_correlation_id row) worker payload.

(** The new version of a row, its event and its popups. *)
Definition advance (x : rls) (row : record) (kind worker : string) (payload : json)
    (popups : list (string * string * Z)) : M db unit :=
  event_id ← uuid4;
  statement (store_version x row event_id (scheduler_event row kind worker payload)) ;;
  if r_reminder_popup_enabled row then
    for_each popups (fun popup =>
      k ← uuid4;
      statement (insert_delivery x k (new_delivery row "POPUP" popup.1.1 popup.1.2 None popup.2)))
  else mret tt.

(** ** Due callbacks *)

Definition due_states : list string := ["SCHEDULED"; "REMINDER_PENDING"; "READY"; "SNOOZED"; "RESCHEDULED"].

Definition due (now : Z) (r : record) : bool := str_in (r_state r) due_states && (r_scheduled_at r <=? now).

Definition due_popups (now : Z) : list (string * string * Z) :=
  [("DUE", "popup:due", now); ("AGENT_REMINDER_10M", "popup:agent-reminder", now + minutes 10)].

(** A claimed row. *)
Definition made_due (row : record) : record := move_to "DUE" row <| r_sync_state := "PENDING" |>.

Definition claim_due (worker : string) (limit : nat) (now : Z) (tenant campaign : string) : M db (list record) :=
  x ← lift (scheduler_context tenant campaign worker
              "tenant_id and campaign_id are required for callback scheduler RLS");
  found ← query (fun d => take limit (sort_by by_time
    (select_where (fun r => in_scope x tenant campaign r && due now r) (records d))));
  for_each found (fun row =>
    advance x (made_due row) "due" worker
      (JObj [("previous_state", JStr (r_state row))]) (due_popups now)) ;;
  commit ;;
  mret (made_due <$> found).

(** ** Missed and escalated callbacks *)

Definition missed (now grace : Z) (r : record) : bool :=
  bool_decide (r_state r = "DUE") && (r_scheduled_at r <=? now - minutes grace).

Definition mark_missed (worker : string) (grace now : Z) (tenant campaign : string) : M db Z :=
  x ← lift (scheduler_context tenant campaign worker
              "tenant_id and campaign_id are required for missed detection RLS");
  found ← query (fun d => select_where (fun r => in_scope x tenant campaign r && missed now grace r) (records d));
  for_each found (fun row =>
    advance x (move_to "MISSED" row) "missed" worker (JObj [("grace_minutes", JInt grace)])
      [("MISSED", "popup:missed", now)]) ;;
  commit ;;
  mret (Z.of_nat (length found)).

Definition overdue (now escalation : Z) (r : record) : bool :=
  bool_decide (r_state r = "MISSED") && (r_scheduled_at r <=? now - minutes escalation).

(** The statement names the campaign only; the policy adds the tenant. *)
Definition escalate_missed (worker : string) (escalation now : Z) (tenant campaign : string) : M db Z :=
  x ← lift (scheduler_context tenant campaign worker
              "tenant_id and campaign_id are required for escalation RLS");
  found ← query (fun d => select_where (fun r =>
    visible x r && overdue now escalation r && bool_decide (r_campaign_id r = campaign)) (records d));
  for_each found (fun row =>
    advance x (move_to "ESCALATED" row) "escalated" worker (JObj [("escalation_minutes", JInt escalation)])
      [("ESCALATED", "popup:escalated", now)]) ;;
  commit ;;
  mret (Z.of_nat (length found)).

(** ** Reconciliation *)

Record report := mkReport {
  orphan_assignments : Z;
  missing_current_version_events : Z;
  stale_deliveries_cancelled : Z;
  terminal_future_deliveries_cancelled : Z;
}.

Definition orphan (r : record) : bool := is_null (r_assigned_agent_id r) && is_null (r_assigned_team_id r).

Definition no_current_event (x : rls) (d : db) (r : record) : bool :=
  absent (fun e => event_visible x e && bool_decide (e_callback_id e = r_id r) && (e_version e =? r_version r))
    (events d).

(** The callback of a delivery, where the policy shows both. *)
Definition joined (x : rls) (d : db) (p : record -> delivery -> bool) (v : delivery) : bool :=
  match records d !! d_callback_id v with Some r => visible x r && p r v | None => false end.

Definition completed_future (tenant campaign : string) (r : record) (v : delivery) : bool :=
  bool_decide (r_tenant_id r = tenant) && bool_decide (r_campaign_id r = campaign)
  && str_in (r_state r) ["COMPLETED"; "CANCELLED"] && waiting v.

Definition outdated (r : record) (v : delivery) : bool := (d_callback_version v <? r_version r) && waiting v.

Definition reconcile (tenant campaign : string) : M db report :=
  x ← lift (scheduler_context tenant campaign "callback-reconciler"
              "tenant_id and campaign_id are required for callback reconciliation RLS");
  orphans ← query (fun d => count_where (fun r => in_scope x tenant campaign r && orphan r) (records d));
  missing ← query (fun d => count_where (fun r => in_scope x tenant campaign r && no_current_event x d r) (records d));
  future ← query (fun d => count_where (joined x d (completed_future tenant campaign)) (deliveries d));
  stale ← query (fun d => count_where (joined x d outdated) (deliveries d));
  execute (fun d => d <| deliveries ::= update_where
    (fun v => joined x d outdated v || joined x d (completed_future tenant campaign) v) cancel_delivery |>) ;;
  commit ;;
  mret (mkReport orphans missing stale future).

(** ** The cycle of the scheduler process *)

Record SchedulerSettings := mkSchedulerSettings {
  callback_scheduler_enabled : bool;
  callback_test_syn_enabled : bool;
  callback_allowed_tenant : string;
  callback_allowed_campaign : string;
}.

Inductive cycle_result :=
  | Maintenance
  | Disabled
  | AllowlistDenied
  | Cycle (due missed escalated : Z) (r : report).

(** Four sessions, one after the other, each with its own clock reading; an
    exception ends the cycle.  Without the switch of the callbacks the cycle does
    the maintenance of other tables, [Maintenance]. *)
Definition cycle (s : SchedulerSettings) (clk : nat -> Z) (us : nat -> nat -> uuid) (t1 t2 t3 : Z) (d : db) :
    db * (exn + cycle_result) :=
  let service := "middleware-scheduler" in
  if negb (callback_scheduler_enabled s) then (d, inr Maintenance)
  else if negb (callback_test_syn_enabled s) then (d, inr Disabled)
  else if negb (bool_decide (callback_allowed_tenant s = "COD") && bool_decide (callback_allowed_campaign s = "TEST_SYN"))
  then (d, inr AllowlistDenied)
  else match with_session clk (us 0%nat) (claim_due service 100 t1 "COD" "TEST_SYN") d with
  | (d1, inl e) => (d1, inl e)
  | (d1, inr due) =>
  match with_session clk (us 1%nat) (mark_missed service 15 t2 "COD" "TEST_SYN") d1 with
  | (d2, inl e) => (d2, inl e)
  | (d2, inr missed) =>
  match with_session clk (us 2%nat) (escalate_missed service 20 t3 "COD" "TEST_SYN") d2 with
  | (d3, inl e) => (d3, inl e)
  | (d3, inr escalated) =>
  match with_session clk (us 3%nat) (reconcile "COD" "TEST_SYN") d3 with
  | (d4, inl e) => (d4, inl e)
  | (d4, inr r) => (d4, inr (Cycle (Z.of_nat (length due)) missed escalated r))
  end end end end.

(** ** Popups *)

Definition STAGE_EVENTS : list (string * string) :=
  [("WARNING", "callback.warning"); ("WARNING_15M", "callback.warning"); ("DUE", "callback.due");
   ("MISSED", "callback.missed"); ("ESCALATED", "callback.escalated"); ("CANCELLED", "callback.cancelled");
   ("COMPLETED", "callback.completed"); ("RESCHEDULED", "callback.rescheduled")].

(** The last [n] characters. *)
Definition last_chars (n : nat) (s : string) : string := String.substring (String.length s - n) n s.

Definition _masked_phone (value : string) : string :=
  let digits := Callbacks.digits_of value in
  if nonempty digits then "***" +:+ last_chars 4 digits else "".

(** The stages are upper-case constants of the code, so [upper()] is the
    identity on them. *)
Definition _document (v : delivery) (r : record) (t : Z) : exn + json :=
  match dict_get STAGE_EVENTS (d_stage v) with
  | None => inl (ValueError "unsupported callback delivery stage")
  | Some event_type =>
      if falsy (r_assigned_user_id r) || falsy (r_assigned_agent_id r)
      then inl (ValueError "callback realtime target is incomplete")
      else inr (JObj
        [("event_id", JStr (d_idempotency_key v)); ("schema_version", JStr "1.0"); ("type", JStr event_type);
         ("correlation_id", JStr (r_correlation_id r)); ("timestamp", JStr (isoformat (utc t)));
         ("tenant_id", JStr (r_tenant_id r)); ("business_unit_id", JStr (r_tenant_id r));
         ("campaign_id", JStr (r_campaign_id r)); ("user_id", opt_json (r_assigned_user_id r));
         ("agent_id", opt_json (r_assigned_agent_id r)); ("call_id", opt_json (r_original_call_id r));
         ("sequence", JInt (r_version r));
         ("payload", JObj
            [("callback_id", JStr (uuid_str (r_id r))); ("callback_version", JInt (r_version r));
             ("state", JStr (r_state r)); ("scheduled_at", JStr (isoformat (utc (r_scheduled_at r))));
             ("customer_timezone", JStr (r_customer_timezone r)); ("priority", JStr (r_priority r));
             ("reason", JStr (r_reason r)); ("phone_masked", JStr (_masked_phone (r_phone_number r)));
             ("customer_context", if json_truthy (r_context_json r) then r_context_json r else JObj [])])])
  end.

(** What comes back for a document: accepted; refused, or failed with an error
    that the loop catches; or any other exception. *)
Inductive gateway_answer := Accepted | Failed | Crashed (e : exn).

Record popup_report := mkPopups {
  delivered : Z;
  retry_pending : Z;
  stale : Z;
  (** the documents that were posted, in order, with their delivery and callback *)
  posted : list (delivery * record * json);
}.

Definition mark_delivered (v : delivery) : delivery :=
  v <| d_status := "DELIVERED" |> <| d_provider_message_id := Some (d_idempotency_key v) |>
    <| d_next_attempt_at := None |>.

Definition retry_later (now : Z) (v : delivery) : delivery :=
  let n := d_attempt_count v + 1 in
  v <| d_attempt_count := n |> <| d_status := "RETRY_PENDING" |>
    <| d_last_error_code := Some "WEBSOCKET_DELIVERY_FAILED" |>
    <| d_next_attempt_at := Some (now + seconds (Z.min 300 (2 ^ Z.min n 8))) |>.

Definition set_delivery (k : uuid) (v : delivery) : M db unit := execute (fun d => d <| deliveries ::= <[k := v]> |>).

(** The body of the loop for one row. *)
Definition deliver_one (gateway : json -> gateway_answer) (now : Z) (t : uuid -> Z) (k : uuid) (v : delivery) (r : record)
    (acc : popup_report) : M db popup_report :=
  let '(mkPopups n_delivered n_retry n_stale log) := acc in
  if negb (d_callback_version v =? r_version r) then
    set_delivery k (cancel_delivery v) ;; mret (mkPopups n_delivered n_retry (n_stale + 1) log)
  else match _document v r (t k) with
       | inl _ => set_delivery k (retry_later now v) ;; mret (mkPopups n_delivered (n_retry + 1) n_stale log)
       | inr doc =>
           let log := (log ++ [(v, r, doc)])%list in
           match gateway doc with
           | Accepted => set_delivery k (mark_delivered v) ;; mret (mkPopups (n_delivered + 1) n_retry n_stale log)
           | Failed => set_delivery k (retry_later now v) ;; mret (mkPopups n_delivered (n_retry + 1) n_stale log)
           | Crashed e => raise e
           end
       end.

Fixpoint deliver_all (gateway : json -> gateway_answer) (now : Z) (t : uuid -> Z) (l : list (uuid * delivery * record))
    (acc : popup_report) : M db popup_report :=
  match l with
  | [] => mret acc
  | (k, v, r) :: rest => acc' ← deliver_one gateway now t k v r acc; deliver_all gateway now t rest acc'
  end.

Definition popup_due (tenant campaign : string) (now : Z) (r : record) (v : delivery) : bool :=
  bool_decide (r_tenant_id r = tenant) && bool_decide (r_campaign_id r = campaign)
  && bool_decide (d_channel v = "POPUP") && waiting v && null_le (d_next_attempt_at v) now.

Definition by_next_attempt (a b : uuid * delivery * record) : bool :=
  coalesce (d_next_attempt_at a.1.2) 0 <=? coalesce (d_next_attempt_at b.1.2) 0.

Definition popup_rows (x : rls) (tenant campaign : string) (now : Z) (limit : nat) (d : db) :
    list (uuid * delivery * record) :=
  take limit (sort_by by_next_attempt (omap (fun kv : uuid * delivery =>
    match records d !! d_callback_id kv.2 with
    | Some r => if joined x d (popup_due tenant campaign now) kv.2 then Some (kv.1, kv.2, r) else None
    | None => None
    end) (map_to_list (deliveries d)))).

(** [token] is what the token file holds, stripped; [t] gives the time at which
    the document of a delivery is made. *)
Definition deliver_callback_popups (gateway : json -> gateway_answer) (tenant campaign token : string) (limit : nat)
    (now : Z) (t : uuid -> Z) : M db popup_report :=
  guard_or (nonempty tenant && nonempty campaign)
    (ValueError "callback delivery requires tenant and campaign allowlists") ;;
  guard_or (nonempty token) (ValueError "WebSocket gateway token is empty") ;;
  x ← lift (set_callback_rls_context tenant [campaign] "callback-realtime-worker" "service" []);
  found ← query (popup_rows x tenant campaign now limit);
  result ← deliver_all gateway now t found (mkPopups 0 0 0 []);
  commit ;;
  mret result.
End CallbackScheduler.

(** * Callback management: the system

    The API, the scheduler and the popup worker on one set of tables.  A step
    is one request, with any clock and any UUIDs; [reachable] is the closure
    from empty tables. *)

Import Callbacks CallbackTables CallbackApi CallbackScheduler.
Module CallbackSystem.

Inductive request :=
  | Create (b : CreateCallback) (p : Principal) (key correlation : string) (wall : Z)
  | Endpoint (a : action) (callback_id : uuid) (b : Change) (key correlation : string) (p : Principal) (wall : Z)
  | Result (callback_id : uuid) (b : DeliveryResult) (p : Principal) (wall : Z)
  | ClaimDue (worker : string) (limit : nat) (now : Z) (tenant campaign : string)
  | MarkMissed (worker : string) (grace now : Z) (tenant campaign : string)
  | EscalateMissed (worker : string) (escalation now : Z) (tenant campaign : string)
  | Reconcile (tenant campaign : string)
  | Popups (gateway : json -> gateway_answer) (tenant campaign token : string) (limit : nat) (now : Z)
      (t : uuid -> Z).

Definition drop_body {A} (m : M db A) : M db unit := m ;; mret tt.

(** The context a request works in. *)
Definition context_of (q : request) : exn + rls :=
  match q with
  | Create _ p _ _ _ | Endpoint _ _ _ _ _ p _ | Result _ _ p _ => _tenant_context p
  | ClaimDue worker _ _ tenant campaign | MarkMissed worker _ _ tenant campaign
  | EscalateMissed worker _ _ tenant campaign => set_callback_rls_context tenant [campaign] worker "scheduler" []
  | Reconcile tenant campaign => set_callback_rls_context tenant [campaign] "callback-reconciler" "scheduler" []
  | Popups _ tenant campaign _ _ _ _ =>
      set_callback_rls_context tenant [campaign] "callback-realtime-worker" "service" []
  end.

Definition empty_db : db := mkDb ∅ ∅ ∅ ∅.

Definition run {A} (clk : nat -> Z) (us : nat -> uuid) (m : M db A) (d : db) : db * (exn + A) :=
  with_session clk us m d.
Arguments run : simpl never.

Section system.
Context `{CallbackModels} (ZoneInfo : zone_database) (c : Settings).

Definition serve (q : request) : M db unit :=
  match q with
  | Create b p key correlation wall => drop_body (create ZoneInfo c b p key correlation wall)
  | Endpoint a k b key correlation p wall => drop_body (endpoint ZoneInfo a k b key correlation p wall)
  | Result k b p wall => drop_body (callback_result k b p wall)
  | ClaimDue worker limit now tenant campaign => drop_body (claim_due worker limit now tenant campaign)
  | MarkMissed worker grace now tenant campaign => drop_body (mark_missed worker grace now tenant campaign)
  | EscalateMissed worker esc now tenant campaign => drop_body (escalate_missed worker esc now tenant campaign)
  | Reconcile tenant campaign => drop_body (reconcile tenant campaign)
  | Popups g tenant campaign token limit now t =>
      drop_body (deliver_callback_popups g tenant campaign token limit now t)
  end.

Inductive step (d : db) : db -> Prop :=
| step_serve q clk us : step d (run clk us (serve q) d).1.

Definition reachable (d : db) : Prop := rtc step empty_db d.
End system.

(** ** What a step may do *)

(** The columns that creation fixes. *)
Definition fixed (r : record) :=
  (r_id r, r_tenant_id r, r_campaign_id r, (r_contact_id r, r_lead_id r, r_opportunity_id r),
   (r_original_call_id r, r_original_linkedid r), (r_assigned_user_id r, r_supervisor_id r),
   (r_phone_number r, r_normalized_phone r), r_priority r, (r_correlation_id r, r_idempotency_key r, r_request_hash r),
   (r_compliance_json r, r_context_json r, r_created_by r, r_max_attempts r)).

(** A move of the diagram that the API and the scheduler use. *)
Definition reached_states : list string :=
  ["SNOOZED"; "RESCHEDULED"; "CANCELLED"; "COMPLETED"; "IN_PROGRESS"; "DUE"; "MISSED"; "ESCALATED"].
Definition moves (s s' : string) : Prop := can_move TRANSITIONS s s' /\ s' ∈ reached_states.

Record grown (r r' : record) : Prop := mkGrown {
  gr_fixed : fixed r' = fixed r;
  gr_version : r' = r \/ r_version r < r_version r';
  gr_state : rtc moves (r_state r) (r_state r');
}.

(** Callbacks are never deleted and only grow; events are only added. *)
Record evolves (d d' : db) : Prop := mkEvolves {
  ev_records : forall k r, records d !! k = Some r -> exists r', records d' !! k = Some r' /\ grown r r';
  ev_events : events d ⊆ events d';
}.

(** Only what the policy of the context shows is changed: before and after. *)
Record scoped (x : rls) (d d' : db) : Prop := mkScoped {
  sc_records : forall k, records d' !! k = records d !! k
    \/ (forall r, records d !! k = Some r -> visible x r = true)
       /\ exists r', records d' !! k = Some r' /\ visible x r' = true;
  sc_events : forall k e, events d' !! k = Some e -> events d !! k = Some e \/ event_visible x e = true;
  sc_deliveries : forall k, deliveries d' !! k = deliveries d !! k
    \/ exists v, deliveries d' !! k = Some v /\ delivery_visible x d' v = true;
}.

(** What a context may see, said without the policy: rows of its tenant and of
    its campaigns and, outside the leading and technical roles, rows assigned to
    the actor or to a team of the context. *)
Record in_reach (x : rls) (r : record) : Prop := mkInReach {
  reach_tenant : r_tenant_id r = app_tenant_id x;
  reach_campaign : r_campaign_id r ∈ split_comma (app_campaign_ids x);
  reach_assigned : app_role x ∈ unrestricted_roles
    \/ r_assigned_agent_id r = Some (app_actor_id x) \/ r_assigned_user_id r = Some (app_actor_id x)
    \/ exists t, r_assigned_team_id r = Some t /\ t ∈ split_comma (app_team_ids x);
}.

Definition terminal (r : record) : Prop := r_state r ∈ TERMINAL.

(** The invariant: every version of a callback has exactly one event, and a
    finished callback has no delivery that waits. *)
Record inv (d : db) : Prop := mkInv {
  inv_key : forall k r, records d !! k = Some r -> r_id r = k;
  inv_row : forall k r, records d !! k = Some r -> record_checks r = true;
  inv_unique : forall k k' r r', records d !! k = Some r -> records d !! k' = Some r' ->
    r_tenant_id r = r_tenant_id r' -> r_idempotency_key r = r_idempotency_key r' -> k = k';
  inv_event_of : forall k e, events d !! k = Some e ->
    exists r, records d !! e_callback_id e = Some r /\ 1 <= e_version e <= r_version r
      /\ e_tenant_id e = r_tenant_id r /\ e_campaign_id e = r_campaign_id r;
  inv_event_one : forall k k' e e', events d !! k = Some e -> events d !! k' = Some e' ->
    e_callback_id e = e_callback_id e' -> e_version e = e_version e' -> k = k';
  inv_event_all : forall k r n, records d !! k = Some r -> 1 <= n <= r_version r ->
    exists ke e, events d !! ke = Some e /\ e_callback_id e = k /\ e_version e = n;
  inv_delivery : forall k v, deliveries d !! k = Some v ->
    exists r, records d !! d_callback_id v = Some r /\ 1 <= d_callback_version v <= r_version r
      /\ (terminal r -> d_callback_version v < r_version r /\ waiting v = false);
}.

Record good (x : rls) (d d' : db) : Prop := mkGood {
  gd_inv : inv d';
  gd_evolves : evolves d d';
  gd_scoped : scoped x d d';
}.
End CallbackSystem.
