(* ===== verification/CallbackSafety.v ===== *)
(** * Callback management: every request keeps the invariant and its scope

    [serve_good]: on tables that satisfy the invariant, a request leaves tables
    that satisfy it, lets callbacks only grow along the state diagram, and
    touches only rows that the policies of its context show. *)

From S2P Require Import Prelude PyText Txn PyTime Machines Callbacks CallbackTables CallbackApi CallbackScheduler.
Import Callbacks CallbackTables CallbackApi CallbackScheduler CallbackSystem.
Local Open Scope string_scope.
Local Open Scope Z_scope.

Module CallbackSafety.

(** ** The relations are preorders *)

#[export] Instance grown_preorder : PreOrder grown.
Proof.
  split; [intros r; split; auto; apply rtc_refl|].
  intros r r' r'' [F V S] [F' V' S']. split; [congruence| |by etrans].
  destruct V as [->|], V' as [->|]; auto; right; lia.
Qed.

#[export] Instance evolves_preorder : PreOrder evolves.
Proof.
  split; [intros d; split; [|done]; intros k r Hr; by exists r|].
  intros d d' d'' [R E] [R' E']. split; [|by etrans].
  intros k r Hr. destruct (R k r Hr) as (r1 & Hr1 & G). destruct (R' k r1 Hr1) as (r2 & Hr2 & G').
  exists r2. split; [done|]. by etrans.
Qed.

Lemma visible_stays x d d' v :
  scoped x d d' -> delivery_visible x d v = true -> delivery_visible x d' v = true.
Proof.
  intros S. unfold delivery_visible. destruct (sc_records x d d' S (d_callback_id v)) as [->|[_ (r' & -> & ?)]]; done.
Qed.

#[export] Instance scoped_preorder x : PreOrder (scoped x).
Proof.
  split; [intros d; split; auto; intros; congruence|].
  intros d d' d'' S S'. split.
  - intros k. destruct (sc_records _ _ _ S k) as [E|[B (r' & Hr' & A)]], (sc_records _ _ _ S' k) as [E'|[B' A']].
    + left. congruence.
    + right. split; [|done]. intros r Hr. apply B'. congruence.
    + right. split; [done|]. exists r'. by rewrite E'.
    + by right.
  - intros k e He. destruct (sc_events _ _ _ S' k e He) as [He'|?]; [|by right]. by eapply sc_events.
  - intros k. destruct (sc_deliveries _ _ _ S' k) as [E'|?]; [|by right]. rewrite E'.
    destruct (sc_deliveries _ _ _ S k) as [E|(v & Hv & A)]; [left; congruence|].
    right. exists v. split; [done|]. by eapply visible_stays.
Qed.

Lemma good_refl_on x d : inv d -> good x d d.
Proof. by split. Qed.
Lemma good_trans x d d' d'' : good x d d' -> good x d' d'' -> good x d d''.
Proof. intros [I E S] [I' E' S']. split; [done|by etrans|by etrans]. Qed.

(** ** Statements *)

Lemma lookup_insert_record r d k :
  records (d <| records ::= <[r_id r := r]> |>) !! k = if decide (r_id r = k) then Some r else records d !! k.
Proof. cbn. apply lookup_insert. Qed.

Lemma insert_event_inr x k e d d' :
  insert_event x k e d = inr d' ->
  d' = d <| events ::= <[k := e]> |> /\ event_visible x e = true /\ events d !! k = None.
Proof.
  unfold insert_event. rewrite !check_bind_ok. intros (_ & Hv & Hc & [= <-]). bool_to_prop. done.
Qed.

(** What remains of a callback's deliveries when it moves on. *)
Definition settled (d : db) (r0 r : record) : Prop :=
  terminal r -> terminal r0 \/ forall k v, deliveries d !! k = Some v -> d_callback_id v = r_id r -> waiting v = false.

Record next_version (d : db) (r0 r : record) (e : event) : Prop := mkNext {
  nv_old : records d !! r_id r = Some r0;
  nv_grown : grown r0 r;
  nv_version : r_version r = r_version r0 + 1;
  nv_event : e_callback_id e = r_id r /\ e_version e = r_version r /\ e_tenant_id e = r_tenant_id r
    /\ e_campaign_id e = r_campaign_id r;
  nv_settled : settled d r0 r;
}.

Lemma inv_store_version r k e d d' r0 :
  inv d -> next_version d r0 r e -> record_checks r = true -> events d !! k = None ->
  d' = d <| records ::= <[r_id r := r]> |> <| events ::= <[k := e]> |> -> inv d'.
Proof.
  intros I [Old G V (Ec & Ev & Et & Ecp) St] Hc Hk ->.
  assert (Hfix : r_tenant_id r = r_tenant_id r0 /\ r_campaign_id r = r_campaign_id r0 /\ r_idempotency_key r = r_idempotency_key r0)
    by (destruct G as [F _ _]; unfold fixed in F; split_and!; congruence).
  destruct Hfix as (Ht & Hcp & Hkey).
  assert (H1 : 1 <= r_version r0).
  { pose proof (inv_row _ I _ _ Old) as Hr. unfold record_checks in Hr. bool_to_prop. lia. }
  split; cbn.
  - intros k' r'. rewrite lookup_insert. case_decide; [by intros [= <-]|apply (inv_key _ I)].
  - intros k' r'. rewrite lookup_insert. case_decide; [by intros [= <-]|apply (inv_row _ I)].
  - intros k1 k2 r1 r2. rewrite !lookup_insert. do 2 case_decide; subst; try done.
    + intros [= <-] H2 T K. apply (inv_unique _ I _ _ _ _ Old H2); congruence.
    + intros H2 [= <-] T K. apply (inv_unique _ I _ _ _ _ H2 Old); congruence.
    + apply (inv_unique _ I).
  - intros k' e'. rewrite lookup_insert. case_decide.
    + intros [= <-]. exists r. rewrite Ec, lookup_insert, decide_True by done. split_and!; done || lia.
    + intros He'. destruct (inv_event_of _ I _ _ He') as (r' & Hr' & Hv & T & C'). rewrite lookup_insert. case_decide as E.
      * rewrite <- E, Old in Hr'. injection Hr' as <-. exists r. split_and!; try done; lia || congruence.
      * by exists r'.
  - intros k1 k2 e1 e2. rewrite !lookup_insert.
    assert (Hno : forall k' e', events d !! k' = Some e' -> e_callback_id e' = r_id r -> e_version e' = r_version r -> False).
    { intros k' e' He' Hid Hve. destruct (inv_event_of _ I _ _ He') as (r' & Hr' & Hv & _).
      rewrite Hid, Old in Hr'. injection Hr' as <-. lia. }
    do 2 case_decide; subst; try done.
    + intros [= <-] H2 Hid Hve. exfalso. eapply Hno; eauto; congruence.
    + intros H2 [= <-] Hid Hve. exfalso. eapply Hno; eauto; congruence.
    + apply (inv_event_one _ I).
  - intros k' r' n. rewrite lookup_insert. case_decide as E.
    + intros [= <-] Hn. destruct (decide (n = r_version r)) as [->|].
      * exists k, e. rewrite lookup_insert, decide_True by done. naive_solver.
      * destruct (inv_event_all _ I (r_id r) r0 n Old ltac:(lia)) as (ke & e' & He' & ? & ?).
        exists ke, e'. rewrite lookup_insert, decide_False by congruence. naive_solver.
    + intros Hr' Hn. destruct (inv_event_all _ I k' r' n Hr' Hn) as (ke & e' & He' & ? & ?).
      exists ke, e'. rewrite lookup_insert, decide_False by congruence. naive_solver.
  - intros k' v Hv. destruct (inv_delivery _ I _ _ Hv) as (r' & Hr' & Hver & Hterm). rewrite lookup_insert.
    case_decide as E; [|by exists r'].
    rewrite <- E, Old in Hr'. injection Hr' as <-. exists r. split_and!; [done|lia|lia|].
    intros Ht'. split; [lia|]. destruct (St Ht') as [T0|Hw]; [by apply Hterm|by eapply Hw].
Qed.

Lemma store_version_good x r k e d d' r0 :
  inv d -> next_version d r0 r e -> visible x r0 = true -> store_version x r k e d = inr d' -> good x d d'.
Proof.
  intros I N Hv. unfold store_version. rewrite !check_bind_ok. intros (_ & Hr & Hc & He).
  apply insert_event_inr in He as (-> & Hev & Hk). cbn in Hk. pose proof N as [Old G _ _ _].
  split; [by eapply inv_store_version| |].
  - split; [|by apply insert_subseteq].
    intros k' r'. cbn. rewrite lookup_insert. case_decide as E; [|by exists r'].
    rewrite <- E, Old. intros [= <-]. by exists r.
  - split; cbn.
    + intros k'. rewrite lookup_insert. case_decide as E; [|by left]. right. rewrite <- E, Old.
      split; [by intros ? [= <-]|by exists r].
    + intros k' e'. rewrite lookup_insert. case_decide; [|by left]. intros [= <-]. by right.
    + by left.
Qed.

Lemma update_deliveries_good x p f d :
  inv d ->
  (forall k v r, deliveries d !! k = Some v -> records d !! d_callback_id v = Some r -> visible x r = true -> p v = true ->
     d_callback_id (f v) = d_callback_id v /\ d_callback_version (f v) = d_callback_version v
     /\ (terminal r -> waiting (f v) = false)) ->
  good x d (update_deliveries x p f d).
Proof.
  intros I Hf. unfold update_deliveries. split.
  - split; cbn; try apply I. intros k v' (v & Hv & ->)%lookup_update_where_Some.
    destruct (inv_delivery _ I _ _ Hv) as (r & Hr & Hver & Ht).
    destruct (_ && _) eqn:E; [|by exists r]. unfold delivery_visible in E. rewrite Hr in E. bool_to_prop.
    destruct (Hf k v r) as (-> & -> & Hw); auto. exists r. naive_solver.
  - split; [|done]. intros k r Hr. by exists r.
  - split; cbn; [by left|by left|]. intros k. rewrite lookup_update_where.
    destruct (deliveries d !! k) as [v|] eqn:Hv; [|by left]. cbn. destruct (_ && _) eqn:E; [|by left]. right.
    exists (f v). split; [done|]. bool_to_prop.
    destruct (inv_delivery _ I _ _ Hv) as (r & Hr & _).
    unfold delivery_visible in *. rewrite Hr in *. cbn.
    destruct (Hf k v r) as (-> & _); auto. by rewrite Hr.
Qed.

Lemma insert_delivery_good x k v d d' r :
  inv d -> records d !! d_callback_id v = Some r -> d_callback_version v = r_version r -> ~ terminal r ->
  insert_delivery x k v d = inr d' -> good x d d'.
Proof.
  intros I Hr Hver Ht. unfold insert_delivery. rewrite !check_bind_ok. intros (_ & Hv & Hc & [= <-]).
  assert (1 <= r_version r).
  { pose proof (inv_row _ I _ _ Hr) as Hrow. unfold record_checks in Hrow. bool_to_prop. lia. }
  split.
  - split; cbn; try apply I. intros k' v'. rewrite lookup_insert. case_decide; [|apply (inv_delivery _ I)].
    intros [= <-]. exists r. split_and!; done || lia.
  - split; [|done]. intros k' r' Hr'. by exists r'.
  - split; cbn; [by left|by left|]. intros k'. rewrite lookup_insert. case_decide; [|by left]. right. by exists v.
Qed.

(** ** Symbolic execution *)

Lemma cb_wp_lift {A} (r : exn + A) Q (s : session db) :
  (forall a, r = inr a -> Q s (inr a)) -> (forall e, r = inl e -> Q s (inl e)) -> wp (lift r) Q s.
Proof. destruct r; intros H1 H2; [by apply H2|by apply H1]. Qed.

Lemma wp_statement f Q (s : session db) :
  (forall d', f (working s) = inr d' -> Q (Session (committed s) d' (clock s) (supply s)) (inr tt)) ->
  (forall e, f (working s) = inl e -> Q s (inl e)) -> wp (statement f) Q s.
Proof.
  intros H1 H2. unfold wp, statement, mbind, M_bind, query. destruct (f (working s)) eqn:E; [by apply H2|by apply H1].
Qed.

Lemma wp_when (b : bool) (f : db -> db) (Q : session db -> exn + unit -> Prop) s :
  Q (Session (committed s) (if b then f (working s) else working s) (clock s) (supply s)) (inr tt) ->
  wp (if b then execute f else mret tt) Q s.
Proof. destruct b; [done|]. by destruct s. Qed.

Ltac wp_call :=
  lazymatch goal with
  | |- wp (lift _) _ _ => apply cb_wp_lift; wp_simpl; [intros ? ?|intros ? _]
  | |- wp (statement _) _ _ => apply wp_statement; wp_simpl; [intros ? ?|intros ? _]
  | |- _ => wp_step
  end.

(** ** Changes *)

(** What the code between the load and the last assignment of a change leaves
    alone. *)
Definition core (r : record) := (fixed r, r_state r, r_version r).

Lemma triple_inj {A B C} (a a' : A) (b b' : B) (c c' : C) : (a, b, c) = (a', b', c') -> a = a' /\ b = b' /\ c = c'.
Proof. by intros [= -> -> ->]. Qed.

Lemma reschedule_core ZoneInfo target b wall row row1 :
  reschedule ZoneInfo target b wall row = inr row1 -> core row1 = core row.
Proof.
  unfold reschedule. repeat case_bool_decide; [by intros [= <-]| |by intros [= <-]].
  repeat case_match; try done. rewrite check_bind_ok, exn_bind_ok. by intros (_ & u & _ & [= <-]).
Qed.
Lemma assign_core target b row : core (assign target b row) = core row.
Proof. unfold assign. repeat case_match; done. Qed.
Lemma annotate_core target b row : core (annotate target b row) = core row.
Proof. unfold annotate. repeat case_match; done. Qed.

Definition effective (a : action) (state : string) : string :=
  match a with Patch | Reassign => state | _ => target_of a end.

Lemma finish_change_core a b wall row :
  core (finish_change (target_of a) b wall row) = (fixed row, effective a (r_state row), r_version row + 1).
Proof. unfold finish_change. destruct a; cbn; reflexivity. Qed.

Definition changed (a : action) (b : Change) (wall : Z) (row1 : record) : record :=
  finish_change (target_of a) b wall (annotate (target_of a) b (assign (target_of a) b row1)).

Lemma changed_core ZoneInfo a b wall row row1 :
  reschedule ZoneInfo (target_of a) b wall row = inr row1 ->
  core (changed a b wall row1) = (fixed row, effective a (r_state row), r_version row + 1).
Proof.
  intros H%reschedule_core. unfold changed. rewrite finish_change_core.
  pose proof (annotate_core (target_of a) b (assign (target_of a) b row1)) as H1. rewrite assign_core, H in H1.
  by destruct (triple_inj _ _ _ _ _ _ H1) as (-> & -> & ->).
Qed.

Lemma effective_moves a state :
  may_move state (target_of a) = inr tt -> rtc moves state (effective a state).
Proof.
  unfold may_move. destruct a; cbn; try (intros _; apply rtc_refl).
  all: unfold transition; case_bool_decide as E; cbn; try done; intros _; apply rtc_once; split; [exact E|by_compute].
Qed.

Lemma changed_grown ZoneInfo a b wall row row1 :
  reschedule ZoneInfo (target_of a) b wall row = inr row1 -> may_move (r_state row) (target_of a) = inr tt ->
  let r := changed a b wall row1 in
  grown row r /\ r_version r = r_version row + 1 /\ r_state r = effective a (r_state row) /\ fixed r = fixed row.
Proof.
  intros H Hm r. destruct (triple_inj _ _ _ _ _ _ (changed_core _ _ b wall _ _ H)) as (Hf & Hs & Hv). fold r in Hf, Hs, Hv.
  split_and!; try done. split; [done|right; lia|]. rewrite Hs. by apply effective_moves.
Qed.

(** The tables after a part of a transaction on [d]. *)
Definition result (x : rls) (d : db) {A} (s : session db) (_ : exn + A) : Prop := good x d (committed s).

Lemma load_spec x k p (Q : session db -> exn + record -> Prop) s :
  (forall row, records (working s) !! k = Some row -> visible x row = true ->
     _scope p (r_tenant_id row) (r_campaign_id row) = inr tt -> assignment_denied p row = false -> Q s (inr row)) ->
  (forall e, Q s (inl e)) -> wp (_load x k p) Q s.
Proof.
  intros H1 H2. unfold _load. repeat wp_call; auto.
  match goal with u : unit |- _ => destruct u end. apply H1; auto. by apply negb_true_iff.
Qed.

(** Once a change settles the reminders of a callback, none of them waits. *)
Lemma cancelled_settled x d row :
  inv d -> records d !! r_id row = Some row -> visible x row = true ->
  forall k v, deliveries (update_deliveries x (stale_delivery (r_id row) (r_version row)) cancel_delivery d) !! k = Some v ->
  d_callback_id v = r_id row -> waiting v = false.
Proof.
  intros I Hr Hv k v'. unfold update_deliveries. cbn. intros (v & Hk & ->)%lookup_update_where_Some.
  destruct (inv_delivery _ I _ _ Hk) as (r & Hrec & Hver & _).
  destruct (_ && _) eqn:E; [done|]. intros Hid. rewrite Hid, Hr in Hrec. injection Hrec as <-.
  unfold delivery_visible in E. rewrite Hid, Hr, Hv in E. cbn in E. unfold stale_delivery in E.
  rewrite bool_decide_eq_true_2 in E by done. cbn in E. by rewrite (proj2 (Z.leb_le _ _)) in E by lia.
Qed.

Lemma cancel_keeps x d callback version : inv d -> good x d (update_deliveries x (stale_delivery callback version) cancel_delivery d).
Proof. intros I. by apply update_deliveries_good. Qed.

Lemma nonterminal_target a state : ~ (effective a state ∈ TERMINAL) \/ effective a state = state \/ settles (target_of a) = true.
Proof. destruct a; cbn; auto; left; by_compute. Qed.

Section changes.
Context (ZoneInfo : zone_database).

(** The last two statements of a change. *)
Lemma change_stored x a b wall row row1 d d1 d2 k e :
  inv d -> records d !! r_id row = Some row -> visible x row = true ->
  reschedule ZoneInfo (target_of a) b wall row = inr row1 -> may_move (r_state row) (target_of a) = inr tt ->
  d1 = (if settles (target_of a) then update_deliveries x (stale_delivery (r_id row) (r_version row)) cancel_delivery d else d) ->
  (e_callback_id e = r_id (changed a b wall row1) /\ e_version e = r_version (changed a b wall row1)
   /\ e_tenant_id e = r_tenant_id (changed a b wall row1) /\ e_campaign_id e = r_campaign_id (changed a b wall row1)) ->
  store_version x (changed a b wall row1) k e d1 = inr d2 -> good x d d2.
Proof.
  intros I Hr Hv Hre Hm Hd1 He Hst.
  destruct (changed_grown _ _ b wall _ _ Hre Hm) as (G & Hver & Hs & Hf). set (r := changed a b wall row1) in *.
  assert (Hid : r_id r = r_id row) by (unfold fixed in Hf; congruence).
  assert (G1 : good x d d1) by (subst d1; case_match; [by apply cancel_keeps|by apply good_refl_on]).
  eapply good_trans; [exact G1|].
  assert (Hr1 : records d1 !! r_id row = Some row) by (subst d1; by case_match).
  eapply (store_version_good _ _ _ _ _ _ row); [apply G1| |done|exact Hst].
  split; [by rewrite Hid|done|done|done|].
  intros Ht. unfold terminal in Ht. rewrite Hs in Ht.
  destruct (nonterminal_target a (r_state row)) as [|[E|E]]; [done|left; unfold terminal; congruence|].
  right. rewrite Hid. rewrite E in Hd1. subst d1. by apply cancelled_settled.
Qed.

Lemma endpoint_good x a k b key correlation p wall s :
  _tenant_context p = inr x -> inv (committed s) -> clean s ->
  wp (endpoint ZoneInfo a k b key correlation p wall) (result x (committed s)) s.
Proof.
  intros Hx I Hcl. red in Hcl. unfold result. assert (G0 : good x (committed s) (committed s)) by by apply good_refl_on.
  unfold endpoint, mutate. wp_step. wp_call; [|done]. replace a0 with x in * by congruence.
  wp_step. apply load_spec; [|done]. intros row Hrow Hvis _ _. rewrite Hcl in Hrow.
  pose proof (inv_key _ I _ _ Hrow) as <-.
  wp_step. wp_step. wp_step; [by wp_step|]. wp_step. wp_step; [|done].
  wp_step. wp_call; [|done]. wp_step. wp_call; [|done]. wp_step. wp_call; [|done]. wp_step. wp_step; [|done].
  repeat match goal with u : unit |- _ => destruct u end.
  assert (Hev : expected_version b = r_version row) by (bool_to_prop; done).
  cbv zeta. wp_step. apply wp_when. do 2 wp_step. wp_step. wp_call; [|done]. do 3 wp_step. wp_simpl.
  lazymatch goal with Hre : reschedule _ _ _ _ _ = inr ?r1, Hm : may_move _ _ = inr tt, Hst : store_version _ _ _ _ _ = inr _ |- _ =>
    rewrite ?Hcl, Hev in Hst; refine (change_stored x a b wall row r1 _ _ _ _ _ I Hrow Hvis Hre Hm eq_refl _ Hst)
  end. done.
Qed.
End changes.

(** ** Results of deliveries *)

Lemma callback_result_good x k b p wall s :
  _tenant_context p = inr x -> inv (committed s) -> clean s ->
  wp (callback_result k b p wall) (result x (committed s)) s.
Proof.
  intros Hx I Hcl. red in Hcl. unfold result. assert (G0 : good x (committed s) (committed s)) by by apply good_refl_on.
  unfold callback_result. wp_step. wp_step; [|done]. wp_step. wp_call; [|done]. replace a with x in * by congruence.
  wp_step. apply load_spec; [|done]. intros row Hrow Hvis _ _. rewrite Hcl in Hrow.
  wp_step. wp_step; [|done]. wp_step. wp_step. wp_step. wp_step; [|done]. do 4 wp_step. wp_step. wp_simpl. rewrite Hcl.
  apply update_deliveries_good; [done|]. intros kd v r Hkd Hr _ Hp.
  unfold same_result in Hp. bool_to_prop. split_and!; [unfold record_result; by case_match..|].
  intros Ht. exfalso. destruct (inv_delivery _ I _ _ Hkd) as (r' & Hr' & _ & T).
  rewrite Hr in Hr'. injection Hr' as <-. destruct (T Ht) as [Hlt _].
  replace r with row in * by congruence. lia.
Qed.

(** ** The scheduler *)

Lemma advance_spec x row0 row kind worker payload popups d (Q : session db -> exn + unit -> Prop) s :
  good x d (working s) -> records (working s) !! r_id row0 = Some row0 -> visible x row0 = true ->
  grown row0 row -> r_version row = r_version row0 + 1 -> ~ terminal row ->
  (forall s', committed s' = committed s -> good x d (working s') ->
     records (working s') = <[r_id row0 := row]> (records (working s)) -> Q s' (inr tt)) ->
  (forall e s', committed s' = committed s -> Q s' (inl e)) ->
  wp (advance x row kind worker payload popups) Q s.
Proof.
  intros G Hr Hv Hg Hver Hnt H1 H2. unfold advance.
  assert (Hid : r_id row = r_id row0) by (destruct Hg as [F _ _]; unfold fixed in F; congruence).
  do 2 wp_step. wp_step. wp_call; [|by apply H2].
  assert (G1 : good x (working s) d').
  { eapply (store_version_good _ _ _ _ _ _ row0); [apply G| |done|done]. split; [by rewrite Hid|done|done|done|]. by intros ?%Hnt. }
  assert (Hrec : records d' = <[r_id row0 := row]> (records (working s))).
  { rewrite <- Hid. unfold store_version in *. rewrite !check_bind_ok in *. destruct_and!.
    match goal with H : insert_event _ _ _ _ = _ |- _ => apply insert_event_inr in H as (-> & _) end. done. }
  case_match; [|apply wp_ret; wp_simpl; apply H1; wp_simpl; auto].
  - eapply (wp_for_each (fun _ s' => committed s' = committed s /\ good x d (working s') /\ records (working s') = records d')).
    + intros pre popup post s' _ (Hc & G' & Hr'). do 2 wp_step. wp_call; [|by apply H2].
      split_and!; [done| |].
      * eapply good_trans; [done|]. eapply insert_delivery_good; [apply G'| | | |done].
        -- rewrite Hr', Hrec. cbn. by rewrite Hid, lookup_insert, decide_True.
        -- done.
        -- done.
      * unfold insert_delivery in *. rewrite !check_bind_ok in *. destruct_and!.
        match goal with H : mret _ = inr d'0 |- _ => injection H as <- end. done.
    + split_and!; wp_simpl; try done. by eapply good_trans.
    + intros s' (Hc & G' & Hr'). apply H1; auto. by rewrite Hr'.
  - by eapply good_trans.
Qed.

(** The rows that a sweep selects: each once, and as they are stored. *)
Lemma filtered_rows_sublist {A} (p : A -> bool) l : List.filter p l `sublist_of` l.
Proof. induction l as [|a l IH]; cbn; [done|]. case_match; by constructor. Qed.

Lemma selected_ids d p : inv d -> NoDup (r_id <$> select_where p (records d)).
Proof.
  intros I. eapply sublist_NoDup; [|apply fmap_sublist, filtered_rows_sublist].
  unfold rows. rewrite <- list_fmap_compose.
  replace ((r_id ∘ snd) <$> map_to_list (records d)) with (map_to_list (records d)).*1; [apply NoDup_fst_map_to_list|].
  apply list_fmap_ext. intros i [k r] Hi. symmetry. apply (inv_key _ I). by apply elem_of_map_to_list, list_elem_of_lookup_2 with i.
Qed.

Lemma selected_taken_ids d p (le : record -> record -> bool) n : inv d -> NoDup (r_id <$> take n (sort_by le (select_where p (records d)))).
Proof.
  intros I. eapply sublist_NoDup; [|apply fmap_sublist, sublist_take]. rewrite sort_by_perm. by apply selected_ids.
Qed.

Definition sweepable (x : rls) (g : record -> record) (d : db) (row : record) : Prop :=
  records d !! r_id row = Some row /\ visible x row = true /\ grown row (g row)
  /\ r_version (g row) = r_version row + 1 /\ ~ terminal (g row).

Lemma sweep_spec x d (g : record -> record) kind worker payload popups found (Q : session db -> exn + unit -> Prop) s :
  good x d (working s) -> NoDup (r_id <$> found) -> (forall row, row ∈ found -> sweepable x g (working s) row) ->
  (forall s', committed s' = committed s -> good x d (working s') ->
     (forall k, records (working s') !! k = match List.find (fun row => bool_decide (r_id row = k)) found with
                                            | Some row => Some (g row)
                                            | None => records (working s) !! k
                                            end) -> Q s' (inr tt)) ->
  (forall e s', committed s' = committed s -> Q s' (inl e)) ->
  wp (for_each found (fun row => advance x (g row) kind worker (payload row) popups)) Q s.
Proof.
  revert s. induction found as [|row found IH]; intros s G Hnd Hall H1 H2; cbn.
  - apply wp_ret. by apply H1.
  - apply NoDup_cons in Hnd as [Hni Hnd]. destruct (Hall row) as (Hr & Hv & Hg & Hver & Hnt); [left|].
    wp_step. eapply (advance_spec x row); eauto. intros s' Hc G' Hsame. apply IH; auto.
    + intros row' Hin. destruct (Hall row') as (Hr' & ?); [by right|]. split; [|done].
      rewrite Hsame, lookup_insert_ne; [done|]. intros E. apply Hni. rewrite E. by apply list_elem_of_fmap_2.
    + intros s'' Hc' G'' Hrec. apply H1; [congruence|done|]. intros k. rewrite Hrec, Hsame. cbn.
      case_bool_decide as E; [|by rewrite lookup_insert_ne].
      destruct (List.find _ found) as [row'|] eqn:Ef; [|by rewrite E, lookup_insert, decide_True].
      apply find_some in Ef as [Hin Hk]. bool_to_prop. exfalso. apply Hni. rewrite E, <- Hk.
      by apply list_elem_of_fmap_2, list_elem_of_In.
    + intros e s'' Hc'. apply H2. congruence.
Qed.

Lemma moved_grown row state (f : record -> record) :
  moves (r_state row) state -> core (f (move_to state row)) = core (move_to state row) ->
  grown row (f (move_to state row)) /\ r_version (f (move_to state row)) = r_version row + 1
  /\ r_state (f (move_to state row)) = state.
Proof.
  intros Hm Hc. destruct (triple_inj _ _ _ _ _ _ Hc) as (Hf & Hs & Hv).
  split_and!; [|by rewrite Hv|by rewrite Hs]. split; [by rewrite Hf| |].
  - right. rewrite Hv. cbn. lia.
  - rewrite Hs. by apply rtc_once.
Qed.

Lemma due_moves now row : due now row = true -> moves (r_state row) "DUE".
Proof.
  unfold due, str_in. intros H. bool_to_prop. split; [|by_compute].
  assert (Hall : forallb (fun s => bool_decide ("DUE" ∈ successors TRANSITIONS s)) due_states = true) by (vm_compute; done).
  rewrite forallb_forall in Hall. eapply bool_decide_eq_true, Hall. by apply list_elem_of_In.
Qed.
Lemma missed_moves : moves "DUE" "MISSED".
Proof. split; [unfold can_move|]; by_compute. Qed.
Lemma overdue_moves : moves "MISSED" "ESCALATED".
Proof. split; [unfold can_move|]; by_compute. Qed.

Lemma scheduler_context_inr tenant campaign actor msg x :
  scheduler_context tenant campaign actor msg = inr x -> set_callback_rls_context tenant [campaign] actor "scheduler" [] = inr x.
Proof. unfold scheduler_context. rewrite check_bind_ok. by intros [_ ?]. Qed.

(** A sweep that moves the rows it found to [state], and its commit. *)
Definition swept {A} (found : list record) (g : record -> record) (a : A) (d : db) (s : session db) (r : exn + A) : Prop :=
  match r with
  | inr a' => a' = a /\ forall k, records (committed s) !! k = match List.find (fun row => bool_decide (r_id row = k)) found with
                                                              | Some row => Some (g row)
                                                              | None => records d !! k
                                                              end
  | inl _ => True
  end.

Lemma sweep_good {A} x state (f : record -> record) kind worker payload popups found (a : A) s :
  inv (committed s) -> working s = committed s -> NoDup (r_id <$> found) -> state ∉ TERMINAL ->
  (forall r, core (f r) = core r) ->
  (forall row, row ∈ found -> (exists k, records (committed s) !! k = Some row) /\ visible x row = true
     /\ moves (r_state row) state) ->
  wp (for_each found (fun row => advance x (f (move_to state row)) kind worker (payload row) popups) ;; commit ;; mret a)
    (fun s' r => result x (committed s) s' r /\ swept found (fun row => f (move_to state row)) a (committed s) s' r) s.
Proof.
  intros I Hcl Hnd Hst Hf Hall. unfold result.
  assert (G0 : good x (committed s) (committed s)) by by apply good_refl_on.
  wp_step. eapply (sweep_spec x (committed s) (fun row => f (move_to state row))); try (rewrite Hcl); [done|done| | |].
  - intros row Hin. destruct (Hall row Hin) as ([k Hk] & Hv & Hm).
    destruct (moved_grown row state f Hm (Hf _)) as (? & ? & E).
    split_and!; try done; [by rewrite (inv_key _ I _ _ Hk)|]. unfold terminal. by rewrite E.
  - intros s' Hc G Hrec. cbn. wp_run. split; [exact G|]. done.
  - intros e s' Hc. rewrite Hc. done.
Qed.

Lemma sweep_keeps {A} x state (f : record -> record) kind worker payload popups found (a : A) s :
  inv (committed s) -> working s = committed s -> NoDup (r_id <$> found) -> state ∉ TERMINAL ->
  (forall r, core (f r) = core r) ->
  (forall row, row ∈ found -> (exists k, records (committed s) !! k = Some row) /\ visible x row = true
     /\ moves (r_state row) state) ->
  wp (for_each found (fun row => advance x (f (move_to state row)) kind worker (payload row) popups) ;; commit ;; mret a)
    (result x (committed s)) s.
Proof. intros. eapply wp_mono; [|by apply sweep_good]. by intros ? ? [? _]. Qed.

Definition due_found (x : rls) (tenant campaign : string) (now : Z) (limit : nat) (d : db) : list record :=
  take limit (sort_by by_time (select_where (fun r => in_scope x tenant campaign r && due now r) (records d))).

Section sweeps.
Context (x : rls) (s : session db) (I : inv (committed s)) (Hcl : clean s).

Ltac open_sweep :=
  red in Hcl; assert (G0 : good x (committed s) (committed s)) by (by apply good_refl_on);
  wp_step; wp_call; [|first [exact G0|by split]];
  match goal with H : _ = inr ?y |- _ => apply scheduler_context_inr in H; replace y with x in * by congruence end;
  do 2 wp_step; rewrite Hcl.

Lemma claim_due_effect worker limit now tenant campaign :
  set_callback_rls_context tenant [campaign] worker "scheduler" [] = inr x ->
  wp (claim_due worker limit now tenant campaign)
    (fun s' r => result x (committed s) s' r
       /\ let found := due_found x tenant campaign now limit (committed s) in
          swept found made_due (made_due <$> found) (committed s) s' r) s.
Proof using All.
  intros Hx. unfold claim_due. open_sweep.
  refine (sweep_good x "DUE" (fun r => r <| r_sync_state := "PENDING" |>) "due" worker
    (fun row => JObj [("previous_state", JStr (r_state row))]) (due_popups now) _ _ s I Hcl _ _ _ _);
    [by apply selected_taken_ids|by_compute|done|].
  intros row (i & Hi & _)%elem_of_take. apply list_elem_of_lookup_2 in Hi. rewrite sort_by_perm in Hi.
  apply elem_of_select_where in Hi as [Hp ?]. unfold in_scope in Hp. bool_to_prop. split_and!; eauto using due_moves.
Qed.

Lemma claim_due_good worker limit now tenant campaign :
  set_callback_rls_context tenant [campaign] worker "scheduler" [] = inr x ->
  wp (claim_due worker limit now tenant campaign) (result x (committed s)) s.
Proof using All. intros Hx. eapply wp_mono; [|by apply claim_due_effect]. by intros ? ? [? _]. Qed.

Lemma mark_missed_good worker grace now tenant campaign :
  set_callback_rls_context tenant [campaign] worker "scheduler" [] = inr x ->
  wp (mark_missed worker grace now tenant campaign) (result x (committed s)) s.
Proof using All.
  intros Hx. unfold mark_missed. open_sweep.
  refine (sweep_keeps x "MISSED" (fun r => r) "missed" worker (fun _ => JObj [("grace_minutes", JInt grace)])
    [("MISSED", "popup:missed", now)] _ _ s I Hcl _ _ _ _); [by apply selected_ids|by_compute|done|].
  intros row Hi. apply elem_of_select_where in Hi as [Hp ?]. unfold in_scope, missed in Hp. bool_to_prop.
  split_and!; auto. replace (r_state row) with "DUE" by done. apply missed_moves.
Qed.

Lemma escalate_missed_good worker escalation now tenant campaign :
  set_callback_rls_context tenant [campaign] worker "scheduler" [] = inr x ->
  wp (escalate_missed worker escalation now tenant campaign) (result x (committed s)) s.
Proof using All.
  intros Hx. unfold escalate_missed. open_sweep.
  refine (sweep_keeps x "ESCALATED" (fun r => r) "escalated" worker (fun _ => JObj [("escalation_minutes", JInt escalation)])
    [("ESCALATED", "popup:escalated", now)] _ _ s I Hcl _ _ _ _); [by apply selected_ids|by_compute|done|].
  intros row Hi. apply elem_of_select_where in Hi as [Hp ?]. unfold overdue in Hp. bool_to_prop.
  split_and!; auto. replace (r_state row) with "MISSED" by done. apply overdue_moves.
Qed.
End sweeps.

(** ** Reconciliation and popups *)

Lemma reconcile_good x tenant campaign s :
  set_callback_rls_context tenant [campaign] "callback-reconciler" "scheduler" [] = inr x -> inv (committed s) -> clean s ->
  wp (reconcile tenant campaign) (result x (committed s)) s.
Proof.
  intros Hx I Hcl. red in Hcl. unfold result. assert (G0 : good x (committed s) (committed s)) by by apply good_refl_on.
  unfold reconcile. wp_step. wp_call; [|done].
  match goal with H : _ = inr ?y |- _ => apply scheduler_context_inr in H; replace y with x in * by congruence end.
  wp_run. wp_simpl. rewrite Hcl.
  assert (Hup : forall d, d <| deliveries ::= update_where (fun v => joined x d outdated v || joined x d (completed_future tenant campaign) v) cancel_delivery |>
    = update_deliveries x (fun v => joined x d outdated v || joined x d (completed_future tenant campaign) v) cancel_delivery d).
  { intros d. unfold update_deliveries. destruct d as [records0 events0 deliveries0 notifications0].
    apply (f_equal (fun t => mkDb records0 events0 t notifications0)). apply map_eq. intros k. cbn. rewrite !lookup_update_where.
    destruct (deliveries0 !! k) as [v|]; [|done]. cbn. unfold delivery_visible, joined. cbn.
    destruct (records0 !! d_callback_id v); [|done]. by destruct (visible x _). }
  rewrite Hup. by apply update_deliveries_good.
Qed.

Lemma set_delivery_good x k v v' d r :
  inv d -> deliveries d !! k = Some v -> records d !! d_callback_id v = Some r -> visible x r = true ->
  d_callback_id v' = d_callback_id v -> d_callback_version v' = d_callback_version v -> (terminal r -> waiting v' = false) ->
  good x d (d <| deliveries ::= <[k := v']> |>).
Proof.
  intros I Hk Hr Hv Hid Hver Hw. destruct (inv_delivery _ I _ _ Hk) as (r' & Hr' & Hn & Ht).
  replace r' with r in * by congruence. split.
  - split; cbn; try apply I. intros k' v''. rewrite lookup_insert. case_decide; [|apply (inv_delivery _ I)].
    intros [= <-]. exists r. rewrite Hid, Hver. split_and!; try done; try lia. naive_solver.
  - split; [|done]. intros k' r'' ?. by exists r''.
  - split; cbn; [by left|by left|]. intros k'. rewrite lookup_insert. case_decide; [|by left]. right.
    exists v'. split; [done|]. unfold delivery_visible. cbn. by rewrite Hid, Hr.
Qed.

(** The rows of the popup worker: distinct deliveries, with their callbacks. *)
Record popup_row (x : rls) (d : db) (kvr : uuid * delivery * record) : Prop := mkPopupRow {
  pr_delivery : deliveries d !! kvr.1.1 = Some kvr.1.2;
  pr_record : records d !! d_callback_id kvr.1.2 = Some kvr.2;
  pr_visible : visible x kvr.2 = true;
  pr_waiting : waiting kvr.1.2 = true;
}.

Lemma popup_rows_spec x tenant campaign now limit d :
  NoDup (popup_rows x tenant campaign now limit d).*1.*1
  /\ forall kvr, kvr ∈ popup_rows x tenant campaign now limit d -> popup_row x d kvr.
Proof.
  unfold popup_rows. set (g := fun kv : uuid * delivery => _). split.
  - eapply sublist_NoDup; [|apply fmap_sublist, fmap_sublist, sublist_take]. rewrite sort_by_perm.
    apply (sublist_NoDup _ (map_to_list (deliveries d)).*1); [apply NoDup_fst_map_to_list|].
    induction (map_to_list (deliveries d)) as [|[k v] l IH]; cbn; [done|].
    destruct (g (k, v)) as [y|] eqn:E; cbn; [|by apply sublist_cons, IH].
    replace y.1.1 with k; [by apply sublist_skip, IH|]. unfold g in E. cbn in E. repeat case_match; by simplify_eq.
  - intros kvr (i & Hi & _)%elem_of_take. apply list_elem_of_lookup_2 in Hi. rewrite sort_by_perm in Hi.
    apply list_elem_of_omap in Hi as ([k v] & Hin & Hg). unfold g in Hg. cbn in Hg.
    apply elem_of_map_to_list in Hin. destruct (records d !! d_callback_id v) as [r|] eqn:Hr; [|done].
    destruct (joined _ _ _ _) eqn:Hj; [|done]. injection Hg as <-. unfold joined in Hj. rewrite Hr in Hj.
    unfold popup_due in Hj. bool_to_prop. done.
Qed.

Lemma deliver_all_spec x gateway now t l acc d (Q : session db -> exn + popup_report -> Prop) s :
  inv d -> good x d (working s) -> NoDup l.*1.*1 -> (forall kvr, kvr ∈ l -> popup_row x (working s) kvr) ->
  (forall s' acc', committed s' = committed s -> good x d (working s') -> Q s' (inr acc')) ->
  (forall e s', committed s' = committed s -> Q s' (inl e)) ->
  wp (deliver_all gateway now t l acc) Q s.
Proof.
  intros I. revert s acc. induction l as [|[[k v] r] l IH]; intros s acc G Hnd Hall H1 H2; cbn [deliver_all].
  - apply wp_ret. by apply H1.
  - cbn in Hnd. apply NoDup_cons in Hnd as [Hni Hnd]. destruct (Hall (k, v, r)) as [Hk Hr Hv Hw]; [left|]. cbn in *.
    assert (Hnt : ~ terminal r).
    { intros Ht. destruct (inv_delivery _ (gd_inv _ _ _ G) _ _ Hk) as (r' & Hr' & _ & T).
      replace r' with r in * by congruence. destruct (T Ht). congruence. }
    assert (Hset : forall v' acc', d_callback_id v' = d_callback_id v -> d_callback_version v' = d_callback_version v ->
      wp (set_delivery k v' ;; mret acc') (fun s' r => match r with
         | inr acc'' => wp (deliver_all gateway now t l acc'') Q s' | inl e => Q s' (inl e) end) s).
    { intros v' acc' Hid Hver. unfold set_delivery. wp_run. wp_simpl.
      assert (G' : good x (working s) ((working s) <| deliveries ::= <[k := v']> |>))
        by (eapply (set_delivery_good x k v v' _ r); auto; [apply G|by intros ?%Hnt]).
      apply IH; wp_simpl; auto; [by eapply good_trans|].
      intros kvr Hin. destruct (Hall kvr) as [Hk' Hr' Hv' Hw']; [by right|]. split; [|done..].
      cbn. rewrite lookup_insert_ne; [done|]. intros ->. apply Hni. by do 2 apply list_elem_of_fmap_2. }
    wp_step. unfold deliver_one. destruct acc as [n1 n2 n3 log]. repeat case_match; try (by apply Hset). by apply wp_raise, H2.
Qed.

Lemma popups_good x gateway tenant campaign token limit now t s :
  set_callback_rls_context tenant [campaign] "callback-realtime-worker" "service" [] = inr x -> inv (committed s) -> clean s ->
  wp (deliver_callback_popups gateway tenant campaign token limit now t) (result x (committed s)) s.
Proof.
  intros Hx I Hcl. red in Hcl. unfold result. assert (G0 : good x (committed s) (committed s)) by by apply good_refl_on.
  unfold deliver_callback_popups. wp_step. wp_step; [|done]. wp_step. wp_step; [|done]. wp_step. wp_call; [|done].
  replace a with x in * by congruence. do 2 wp_step. rewrite Hcl.
  destruct (popup_rows_spec x tenant campaign now limit (committed s)) as [Hnd Hall].
  wp_step. apply (deliver_all_spec x _ _ _ _ _ (committed s)); try rewrite Hcl; [done..| |].
  - intros s' acc Hc G. wp_run. exact G.
  - intros e s' Hc. by rewrite Hc.
Qed.

(** ** Creation *)

Lemma wp_or_conflict {A} message (m : M db A) (Q : session db -> exn + A -> Prop) s :
  wp m (fun s' r => match r with
                    | inr a => Q s' (inr a)
                    | inl _ => forall s'' e', committed s'' = committed s' -> Q s'' (inl e')
                    end) s ->
  wp (or_conflict message m) Q s.
Proof.
  intros H. apply wp_try. eapply wp_mono; [|exact H]. intros s' [e|a] HQ; [|done].
  destruct e; wp_run; by apply HQ.
Qed.

(** The tables of two views that differ in notification commands only. *)
Definition same_callbacks (d d' : db) : Prop :=
  records d' = records d /\ events d' = events d /\ deliveries d' = deliveries d.

Definition for_callback (row : record) (l : list (uuid * delivery)) : Prop :=
  forall kv, kv ∈ l -> d_callback_id kv.2 = r_id row /\ d_callback_version kv.2 = r_version row.

Lemma queue_stages_spec c row token p wall stages (Q : session db -> exn + list (uuid * delivery) -> Prop) s :
  (forall s' l, committed s' = committed s -> same_callbacks (working s) (working s') -> for_callback row l -> Q s' (inr l)) ->
  (forall e s', committed s' = committed s -> Q s' (inl e)) ->
  wp (queue_stages c row token p wall stages) Q s.
Proof.
  revert Q s. induction stages as [|[stage at_] stages IH]; intros Q s H1 H2; cbn [queue_stages].
  - apply wp_ret. apply H1; [done|done|]. intros ? ?%elem_of_nil. done.
  - do 2 wp_step. wp_step. wp_call; [|by apply H2]. do 2 wp_step. wp_step.
    assert (Hd : same_callbacks (working s) d').
    { unfold insert_notification in *. rewrite !check_bind_ok in *. destruct_and!.
      match goal with H : mret _ = inr d' |- _ => injection H as <- end. done. }
    apply IH; wp_simpl.
    + intros s' l Hc Hs Hl. apply wp_ret. destruct Hd as (? & ? & ?), Hs as (? & ? & ?).
      apply H1; [done|split_and!; congruence|]. intros kv [->|Hin]%elem_of_cons; [done|by apply Hl].
    + intros e s' Hc. by apply H2.
Qed.

Lemma queue_email_spec c row b p wall (Q : session db -> exn + list (uuid * delivery) -> Prop) s :
  (forall s' l, committed s' = committed s -> same_callbacks (working s) (working s') -> for_callback row l -> Q s' (inr l)) ->
  (forall e s', committed s' = committed s -> Q s' (inl e)) ->
  wp (_queue_email_command c row b p wall) Q s.
Proof.
  intros H1 H2. unfold _queue_email_command. wp_step.
  - apply wp_ret. apply H1; [done|done|]. intros ? ?%elem_of_nil. done.
  - wp_step; [|by apply wp_raise, H2]. wp_step. wp_step; [|by apply H2]. wp_step. wp_step; [|by apply H2].
    by apply queue_stages_spec.
Qed.

Lemma created_good x row k e d d1 d2 d3 :
  inv d -> insert_record x row d = inr d1 -> same_callbacks d1 d2 -> insert_event x k e d2 = inr d3 -> r_version row = 1 ->
  e_callback_id e = r_id row -> e_version e = 1 -> e_tenant_id e = r_tenant_id row -> e_campaign_id e = r_campaign_id row ->
  good x d d3 /\ records d3 !! r_id row = Some row.
Proof.
  intros I Hd1 (R & E & D) (-> & Hev & Hk)%insert_event_inr Hver Ec Ev Et Ecp.
  unfold insert_record in Hd1. rewrite !check_bind_ok in Hd1. destruct Hd1 as (_ & Hv & Hc & [= <-]).
  cbn in R, E, D. rewrite E in Hk. bool_to_prop.
  assert (Hnew : records d !! r_id row = None) by done.
  assert (Hlook : records d2 !! r_id row = Some row) by (by rewrite R, lookup_insert, decide_True).
  split; [|done]. split.
  - split; cbn; rewrite ?R, ?E, ?D.
    + intros k' r'. rewrite lookup_insert. case_decide; [by intros [= <-]|apply (inv_key _ I)].
    + intros k' r'. rewrite lookup_insert. case_decide; [by intros [= <-]|apply (inv_row _ I)].
    + match goal with Ha : absent _ (records d) = true |- _ => rewrite cb_absent_spec in Ha;
        assert (Hone : forall k' r', records d !! k' = Some r' -> r_tenant_id r' = r_tenant_id row ->
          r_idempotency_key r' = r_idempotency_key row -> False)
          by (intros k' r' Hr' T K; specialize (Ha k' r' Hr'); unfold same_key in Ha;
              rewrite T, K, !bool_decide_eq_true_2 in Ha by done; done) end.
      intros k1 k2 r1 r2. rewrite !lookup_insert. do 2 case_decide; subst; try done;
        [intros [= <-] ? ? ?; exfalso; by eapply Hone|intros ? [= <-] ? ?; exfalso; by eapply Hone|apply (inv_unique _ I)].
    + intros k' e'. rewrite lookup_insert. case_decide.
      * intros [= <-]. exists row. rewrite Ec, lookup_insert, decide_True by done. split_and!; done || lia.
      * intros He'. destruct (inv_event_of _ I _ _ He') as (r' & Hr' & ?). exists r'.
        rewrite lookup_insert, decide_False by congruence. done.
    + intros k1 k2 e1 e2. rewrite !lookup_insert.
      assert (Hno : forall k' e', events d !! k' = Some e' -> e_callback_id e' = r_id row -> False).
      { intros k' e' He' Hid. destruct (inv_event_of _ I _ _ He') as (r' & Hr' & _). congruence. }
      do 2 case_decide; subst; try done; [intros [= <-] ? ? ?; exfalso; eapply Hno; eauto; congruence
        |intros ? [= <-] ? ?; exfalso; eapply Hno; eauto; congruence|apply (inv_event_one _ I)].
    + intros k' r' n. rewrite lookup_insert. case_decide.
      * intros [= <-] Hn. exists k, e. rewrite lookup_insert, decide_True by done. split_and!; [done|congruence|lia].
      * intros Hr' Hn. destruct (inv_event_all _ I k' r' n Hr' Hn) as (ke & e' & He' & ?).
        exists ke, e'. rewrite lookup_insert, decide_False by congruence. done.
    + intros k' v Hkv. destruct (inv_delivery _ I _ _ Hkv) as (r' & Hr' & ?). exists r'.
      rewrite lookup_insert, decide_False by congruence. done.
  - split; cbn; [|rewrite E; by apply insert_subseteq]. intros k' r' Hr'. exists r'. rewrite R, lookup_insert, decide_False by congruence.
    done.
  - split; cbn; rewrite ?R, ?E, ?D; [| |by left].
    + intros k'. rewrite lookup_insert. case_decide as Hd; [|by left]. right. split; [congruence|by exists row].
    + intros k' e'. rewrite lookup_insert. case_decide; [|by left]. intros [= <-]. by right.
Qed.

Lemma new_record_state id b scheduled phone digest correlation key actor :
  let r := new_record id b scheduled phone digest correlation key actor in
  r_version r = 1 /\ ~ terminal r.
Proof.
  unfold new_record, compliance_state. destruct (forallb _ _); cbn; (split; [done|]); unfold terminal; cbn; by_compute.
Qed.

Lemma add_all_spec x d row l (Q : session db -> exn + unit -> Prop) s :
  good x d (working s) -> records (working s) !! r_id row = Some row -> ~ terminal row -> for_callback row l ->
  (forall s', committed s' = committed s -> good x d (working s') -> records (working s') !! r_id row = Some row -> Q s' (inr tt)) ->
  (forall e s', committed s' = committed s -> Q s' (inl e)) ->
  wp (add_all x l) Q s.
Proof.
  intros G Hr Hnt Hl H1 H2. unfold add_all.
  apply (wp_for_each (fun _ s' => committed s' = committed s /\ good x d (working s') /\ records (working s') !! r_id row = Some row)).
  - intros pre kv post s' -> (Hc & G' & Hr'). destruct (Hl kv) as [Hid Hver]; [set_solver|].
    wp_call; [|by apply H2]. split_and!; [done| |].
    + eapply good_trans; [done|]. eapply (insert_delivery_good x _ _ _ _ row); [apply G'|by rewrite Hid|done|done|done].
    + unfold insert_delivery in *. rewrite !check_bind_ok in *. destruct_and!.
      match goal with H : mret _ = inr d' |- _ => injection H as <- end. done.
  - done.
  - intros s' (Hc & G' & Hr'). by apply H1.
Qed.

Section creation.
Context `{CallbackModels} (ZoneInfo : zone_database) (c : Settings).

(** A creation is refused, or stores the row. *)
Definition stored (x : rls) (row : record) (d : db) (s : session db) (r : exn + record) : Prop :=
  good x d (committed s)
  /\ match r with
     | inl _ => committed s = d
     | inr row' => row' = row /\ records (committed s) !! r_id row = Some row /\ exists d1, insert_record x row d = inr d1
     end.

Lemma store_callback_stored x row b p key correlation wall s :
  inv (committed s) -> working s = committed s -> r_version row = 1 -> ~ terminal row ->
  wp (store_callback c x row b p key correlation wall) (stored x row (committed s)) s.
Proof.
  intros I Hcl Hver Hnt. assert (G0 : good x (committed s) (committed s)) by by apply good_refl_on.
  assert (Gc : forall s' e, committed s' = committed s -> stored x row (committed s) s' (inl e)) by (by intros s' e E; split; rewrite E).
  unfold store_callback. wp_step. apply wp_or_conflict. wp_call; [|by intros s'' ? ?; apply Gc].
  rewrite Hcl in *. do 2 wp_step. wp_step. apply queue_email_spec; [|by intros e s' Hc; apply Gc].
  intros s1 emails Hc1 Hs1 Hl1. wp_simpl. cbn in Hc1, Hs1. wp_step.
  assert (Htail : forall popup s2, committed s2 = committed s -> same_callbacks d' (working s2) -> for_callback row popup ->
    wp (or_conflict "callback event identity conflict"
          (statement (insert_event x (supply s 0%nat) (created_event row key p correlation)) ;; add_all x (emails ++ popup)%list) ;;
        commit ;; mret row) (stored x row (committed s)) s2).
  { intros popup s2 Hc2 Hs2 Hl2. wp_step. apply wp_or_conflict. wp_step.
    wp_call; [|intros s'' ? E; apply Gc; cbn in E; congruence].
    match goal with Hi : insert_record _ _ _ = inr _, He : insert_event _ _ _ _ = inr _ |- _ =>
      destruct (created_good x row _ _ _ _ _ _ I Hi Hs2 He) as [G Hr]; try done end.
    apply (add_all_spec x (committed s) row); wp_simpl; [done|done|done| | |].
    - intros kv [Hin|Hin]%elem_of_app; [by apply Hl1|by apply Hl2].
    - intros s' Hc' G' Hr'. wp_run. split; [exact G'|]. split_and!; eauto.
    - intros e s' Hc' s'' e'' Hc''. apply Gc. congruence. }
  case_match.
  - do 3 wp_step. apply Htail; [done|done|]. intros kv ->%list_elem_of_singleton. done.
  - wp_step. apply Htail; [done|done|]. intros kv ?%elem_of_nil. done.
Qed.

Lemma store_callback_good x row b p key correlation wall s :
  inv (committed s) -> working s = committed s -> r_version row = 1 -> ~ terminal row ->
  wp (store_callback c x row b p key correlation wall) (result x (committed s)) s.
Proof. intros. eapply wp_mono; [|by apply store_callback_stored]. by intros ? ? [? _]. Qed.

Lemma create_good x b p key correlation wall s :
  _tenant_context p = inr x -> inv (committed s) -> clean s ->
  wp (create ZoneInfo c b p key correlation wall) (result x (committed s)) s.
Proof.
  intros Hx I Hcl. red in Hcl. unfold result. assert (G0 : good x (committed s) (committed s)) by by apply good_refl_on.
  unfold create. wp_step. wp_call; [|done]. wp_step. wp_call; [|done]. wp_step. wp_call; [|done].
  match goal with H : _tenant_context p = inr ?y |- _ => replace y with x in * by congruence end.
  do 2 wp_step. wp_step; [wp_step; wp_step; [by wp_step|done]|].
  wp_step. wp_call; [|done]. wp_step. wp_call; [|done]. do 2 wp_step.
  match goal with |- wp (store_callback _ _ ?row _ _ _ _ _) _ ?s' =>
    apply (store_callback_good x row b p key correlation wall s') end; [done|done| |]; apply new_record_state.
Qed.
End creation.

(** ** Every request *)

Lemma wp_drop_body {A} (m : M db A) (P : session db -> Prop) s :
  wp m (fun s' _ => P s') s -> wp (drop_body m) (fun s' _ => P s') s.
Proof. intros Hm. apply wp_bind. eapply wp_mono; [|exact Hm]. intros s' [e|a]; [done|]. intros HP. by apply wp_ret. Qed.

Section system.
Context `{CallbackModels} (ZoneInfo : zone_database) (c : Settings).

Theorem serve_good q x clk us d :
  inv d -> context_of q = inr x -> good x d (run clk us (serve ZoneInfo c q) d).1.
Proof.
  intros I Hx. change (wp (serve ZoneInfo c q) (fun s' _ => good x d (committed s')) (Session d d clk us)).
  set (s := Session d d clk us). change (wp (serve ZoneInfo c q) (fun s' _ => good x (committed s) (committed s')) s).
  destruct q; cbn [serve]; apply wp_drop_body; cbn in Hx;
    [apply create_good|apply endpoint_good|apply callback_result_good|apply claim_due_good|apply mark_missed_good
    |apply escalate_missed_good|apply reconcile_good|apply popups_good]; done.
Qed.

(** A request whose context is refused changes nothing. *)
Lemma serve_no_context q e clk us d :
  context_of q = inl e -> (run clk us (serve ZoneInfo c q) d).1 = d.
Proof.
  intros Hx. change (wp (serve ZoneInfo c q) (fun s' _ => committed s' = d) (Session d d clk us)).
  destruct q; cbn [serve]; apply wp_drop_body; cbn in Hx;
    unfold create, endpoint, mutate, callback_result, claim_due, mark_missed, escalate_missed, reconcile,
      deliver_callback_popups, scheduler_context;
    repeat first [rewrite Hx | wp_call; try done | apply cb_wp_lift; wp_simpl; intros; try congruence].
  all: try (rewrite exn_bind_ok in *; destruct_and?; naive_solver congruence).
Qed.

Lemma step_good d d' : inv d -> step ZoneInfo c d d' -> d' = d \/ exists x, good x d d'.
Proof.
  intros I [q clk us]. destruct (context_of q) as [e|x] eqn:Hx; [left; by eapply serve_no_context|].
  right. exists x. by apply serve_good.
Qed.

Lemma empty_inv : inv empty_db.
Proof. split; cbn; intros *; rewrite ?lookup_empty; done. Qed.

Lemma steps_evolve d d' : inv d -> rtc (step ZoneInfo c) d d' -> inv d' /\ evolves d d'.
Proof.
  intros I Hs. revert I. induction Hs as [|d d1 d2 Hst _ IH]; intros I; [done|].
  destruct (step_good _ _ I Hst) as [->|[x G]]; [auto|]. destruct (IH (gd_inv _ _ _ G)) as [I2 E].
  split; [done|]. etrans; [apply G|done].
Qed.

Lemma cb_reachable_inv d : reachable ZoneInfo c d -> inv d.
Proof. intros Hr. eapply steps_evolve; [apply empty_inv|exact Hr]. Qed.
End system.
End CallbackSafety.
