(* ===== verification/CallbackTheorems.v ===== *)
(** * Callback management: theorems

    What callers, agents and the scheduler may rely on, from any reachable
    tables and whatever happens in between. *)

From S2P Require Import Prelude PyText Txn PyTime Machines Callbacks CallbackTables CallbackApi CallbackScheduler CallbackSafety.
Import Callbacks CallbackTables CallbackApi CallbackScheduler CallbackSystem CallbackSafety.
Local Open Scope string_scope.
Local Open Scope Z_scope.

Module CallbackTheorems.

(** ** States *)

Lemma moves_diagram s s' : rtc moves s s' -> rtc (can_move TRANSITIONS) s s'.
Proof. induction 1 as [|s1 s2 s3 [Hm _] _ IH]; [done|]. by eapply rtc_l. Qed.

Lemma terminal_stays s s' : rtc moves s s' -> s ∈ TERMINAL -> s' = s.
Proof.
  intros Hr Ht. inversion Hr as [|? s2 ? [Hm _] _]; subst; [done|]. exfalso. unfold can_move in Hm.
  unfold TERMINAL in Ht. rewrite !elem_of_cons in Ht. destruct Ht as [->|[->|Hn]]; [revert Hm; by_compute..|].
  by apply elem_of_nil in Hn.
Qed.

Lemma blocked_stays s s' :
  rtc moves s s' -> s ∈ ["BLOCKED_COMPLIANCE"; "CANCELLED"] -> s' ∈ ["BLOCKED_COMPLIANCE"; "CANCELLED"].
Proof.
  induction 1 as [|s1 s2 s3 [Hm Hin] _ IH]; [done|]. intros Hs. apply IH.
  assert (Hall : forallb (fun s => forallb (fun t => bool_decide (t ∈ reached_states -> t ∈ ["BLOCKED_COMPLIANCE"; "CANCELLED"]))
    (successors TRANSITIONS s)) ["BLOCKED_COMPLIANCE"; "CANCELLED"] = true) by (vm_compute; done).
  rewrite forallb_forall in Hall. specialize (Hall s1 ltac:(by apply list_elem_of_In)).
  rewrite forallb_forall in Hall. specialize (Hall s2 ltac:(by apply list_elem_of_In)).
  by apply bool_decide_eq_true in Hall; apply Hall.
Qed.

(** ** The outcome of a change *)

(** An event of the tenant with this idempotency key. *)
Definition key_used (tenant key : string) (d : db) : Prop :=
  exists ke e, events d !! ke = Some e /\ e_tenant_id e = tenant /\ e_idempotency_key e = key.

Lemma key_used_later tenant key d d' : evolves d d' -> key_used tenant key d -> key_used tenant key d'.
Proof. intros [_ E] (ke & e & He & ?). exists ke, e. split; [by eapply lookup_weaken|done]. Qed.

Lemma context_tenant p x : _tenant_context p = inr x -> app_tenant_id x = p_tenant p /\ p_tenant p <> "".
Proof.
  unfold _tenant_context, set_callback_rls_context. rewrite check_bind_ok. intros [Hc [= <-]].
  unfold nonempty in Hc. bool_to_prop. done.
Qed.

Lemma fresh_key_spec x p key d :
  _tenant_context p = inr x ->
  absent (fun e => event_visible x e && same_event_key (p_tenant p) key e) (events d) = false <-> key_used (p_tenant p) key d.
Proof.
  intros [Ht Hne]%context_tenant. rewrite <- not_true_iff_false, cb_absent_spec. split.
  - intros Hn. destruct (decide (map_Forall (fun _ e => event_visible x e && same_event_key (p_tenant p) key e = false) (events d)))
      as [Hall|Hex]; [destruct Hn; exact Hall|].
    apply map_not_Forall in Hex as (ke & e & He & Hne'); [|apply _]. exists ke, e.
    apply not_false_is_true in Hne'. unfold same_event_key in Hne'. bool_to_prop. done.
  - intros (ke & e & He & T & K) Hall. specialize (Hall ke e He). unfold event_visible, is_setting, nonempty, same_event_key in Hall.
    rewrite T, K, Ht, (bool_decide_eq_false_2 (p_tenant p = "")), !bool_decide_eq_true_2 in Hall by done. done.
Qed.

(** A change either changes nothing, being refused or a repetition, or stores
    the next version of the callback under its key. *)
Definition change_outcome (k : uuid) (b : Change) (key : string) (p : Principal) (d d' : db) (r : exn + record) : Prop :=
  match r with
  | inl _ => d' = d
  | inr row =>
      records d' !! k = Some row
      /\ (d' = d /\ key_used (p_tenant p) key d
          \/ ~ key_used (p_tenant p) key d /\ exists row0, records d !! k = Some row0 /\ r_version row0 = expected_version b
               /\ r_version row = expected_version b + 1 /\ key_used (p_tenant p) key d')
  end.

Lemma endpoint_outcome ZoneInfo a k b key correlation p wall s :
  inv (committed s) -> clean s ->
  wp (endpoint ZoneInfo a k b key correlation p wall) (fun s' r => change_outcome k b key p (committed s) (committed s') r) s.
Proof.
  intros I Hcl. red in Hcl. unfold endpoint, mutate. wp_step. wp_call; [|done].
  match goal with H : _ = inr ?y |- _ => rename y into x, H into Hx end.
  wp_step. apply load_spec; [|done]. intros row Hrow Hvis Hsc _. rewrite Hcl in Hrow.
  assert (Ht : r_tenant_id row = p_tenant p).
  { unfold _scope, check in Hsc. destruct (bool_decide _) eqn:E; [|done]. by bool_to_prop. }
  pose proof (inv_key _ I _ _ Hrow) as Hid.
  wp_step. wp_step. wp_step.
  { wp_step. split; [done|]. left. split; [done|]. rewrite Hcl in *. apply (fresh_key_spec x); [done|]. by apply negb_true_iff. }
  wp_step. wp_step; [|done]. wp_step. wp_call; [|done]. wp_step. wp_call; [|done]. wp_step. wp_call; [|done].
  wp_step. wp_step; [|done]. cbv zeta. wp_step. apply wp_when. do 2 wp_step. wp_step. wp_call; [|done]. do 3 wp_step. wp_simpl.
  repeat match goal with u : unit |- _ => destruct u end.
  match goal with Hre : reschedule _ _ _ _ _ = inr ?r1, Hm : may_move _ _ = inr tt, Hst : store_version _ _ _ _ _ = inr _ |- _ =>
    destruct (changed_grown _ _ b wall _ _ Hre Hm) as (_ & Hver & _ & Hf);
    change (finish_change _ _ _ (annotate _ _ (assign _ _ r1))) with (changed a b wall r1) in *;
    set (row4 := changed a b wall r1) in *; revert Hst end.
  clearbody row4. assert (Hid4 : r_id row4 = k) by (unfold fixed in Hf; congruence).
  assert (Ht4 : r_tenant_id row4 = p_tenant p) by (unfold fixed in Hf; congruence).
  unfold store_version. rewrite !check_bind_ok. intros (_ & _ & _ & (-> & _)%insert_event_inr). bool_to_prop.
  split; cbn; [by rewrite Hid4, lookup_insert, decide_True|]. right.
  split; [rewrite <- (fresh_key_spec x) by done; rewrite <- Hcl; by apply not_false_iff_true|].
  exists row. split_and!; [done|done|lia|].
  eexists _, _. cbn. split; [by rewrite lookup_insert, decide_True|]. done.
Qed.

(** ** The outcome of a creation *)

Definition has_key (tenant key digest : string) (r : record) : Prop :=
  r_tenant_id r = tenant /\ r_idempotency_key r = key /\ r_request_hash r = digest.

(** The five checks of [compliance_state]. *)
Definition compliant (k : Compliance) : bool :=
  consent k && negb (dnc k) && negb (suppressed k) && within_calling_hours k && campaign_allowed k.

Definition create_outcome (digest : string) (b : CreateCallback) (p : Principal) (key : string) (d d' : db) (r : exn + record) : Prop :=
  match r with
  | inl _ => d' = d
  | inr row =>
      records d' !! r_id row = Some row /\ has_key (p_tenant p) key digest row
      /\ (d' = d
          \/ absent (same_key (p_tenant p) key) (records d) = true /\ records d !! r_id row = None
             /\ r_state row = (if compliant (b_compliance b) then "SCHEDULED" else "BLOCKED_COMPLIANCE"))
  end.

Lemma insert_record_inr x row d d' :
  insert_record x row d = inr d' ->
  records d !! r_id row = None /\ absent (same_key (r_tenant_id row) (r_idempotency_key row)) (records d) = true.
Proof. unfold insert_record. rewrite !check_bind_ok. intros (_ & _ & Hc & _). by bool_to_prop. Qed.

Lemma new_record_facts id b scheduled phone digest correlation key actor :
  let r := new_record id b scheduled phone digest correlation key actor in
  r_id r = id /\ has_key (b_tenant_id b) key digest r
  /\ r_state r = (if compliant (b_compliance b) then "SCHEDULED" else "BLOCKED_COMPLIANCE").
Proof.
  unfold new_record, compliance_state, has_key, compliant. destruct (b_compliance b) as [c1 c2 c3 c4 c5]. cbn.
  by destruct c1, c2, c3, c4, c5.
Qed.

Lemma create_outcome_ok `{CallbackModels} ZoneInfo c b p key correlation wall s :
  inv (committed s) -> clean s ->
  wp (create ZoneInfo c b p key correlation wall) (fun s' r => create_outcome (_hash b) b p key (committed s) (committed s') r) s.
Proof.
  intros I Hcl. red in Hcl. unfold create. wp_step. wp_call; [|done]. wp_step. wp_call; [|done]. wp_step. wp_call; [|done].
  match goal with H : _tenant_context p = inr ?y, Hs : _scope _ _ _ = inr _ |- _ => rename y into x, H into Hx, Hs into Hsc end.
  assert (Ht : b_tenant_id b = p_tenant p).
  { unfold _scope, check in Hsc. destruct (bool_decide _) eqn:E; [|done]. by bool_to_prop. }
  do 2 wp_step. rewrite Hcl. wp_step.
  - match goal with Hp : prior_of _ _ _ _ = Some ?row |- _ => apply find_some in Hp as [Hin Hp] end.
    apply list_elem_of_In, elem_of_rows in Hin as [k Hk]. unfold same_key in *. bool_to_prop.
    wp_step. wp_step; [|done]. wp_step. bool_to_prop. split_and!; try done; [by rewrite (inv_key _ I _ _ Hk)|by left].
  - wp_step. wp_call; [|done]. wp_step. wp_call; [|done]. do 2 wp_step.
    match goal with |- wp (store_callback _ _ ?row _ _ _ _ _) _ ?s' => set (row0 := row); set (s1 := s') end.
    assert (Hf : r_id row0 = supply s 0%nat /\ has_key (p_tenant p) key (_hash b) row0
      /\ r_state row0 = (if compliant (b_compliance b) then "SCHEDULED" else "BLOCKED_COMPLIANCE"))
      by (rewrite <- Ht; apply new_record_facts).
    eapply wp_mono; [|apply (store_callback_stored c x row0 b p key correlation wall s1); try apply new_record_state; done].
    intros s2 [e|row] [_ Ho]; [done|]. destruct Ho as (-> & Hr & d1 & Hi). apply insert_record_inr in Hi as [Hn Ha].
    clearbody row0. destruct Hf as (_ & Hk & Hst). pose proof Hk as (T & K & _). rewrite T, K in Ha.
    split_and!; [done|done..|]. by right.
Qed.

(** The tables after a request, as a program sees them. *)
Lemma run_endpoint_step `{CallbackModels} ZoneInfo c clk us a k b key correlation p wall d :
  step ZoneInfo c d (run clk us (endpoint ZoneInfo a k b key correlation p wall) d).1.
Proof.
  pose proof (step_serve ZoneInfo c d (Endpoint a k b key correlation p wall) clk us) as Hs.
  unfold run, with_session, serve, drop_body, mbind, M_bind in *. by destruct (endpoint _ _ _ _ _ _ _ _ _) as [s [e|x]].
Qed.

Lemma run_create_step `{CallbackModels} ZoneInfo c clk us b p key correlation wall d :
  step ZoneInfo c d (run clk us (create ZoneInfo c b p key correlation wall) d).1.
Proof.
  pose proof (step_serve ZoneInfo c d (Create b p key correlation wall) clk us) as Hs.
  unfold run, with_session, serve, drop_body, mbind, M_bind in *. by destruct (create _ _ _ _ _ _ _ _) as [s [e|x]].
Qed.

(** Running a program that satisfies a specification. *)
Lemma run_spec {A} (m : M db A) (Q : db -> exn + A -> Prop) clk us d :
  wp m (fun s r => Q (committed s) r) (Session d d clk us) -> Q (run clk us m d).1 (run clk us m d).2.
Proof. done. Qed.

(** ** Popups *)

Lemma deliver_all_log gateway now t l acc s :
  wp (deliver_all gateway now t l acc) (fun _ o => match o with
    | inr acc' => exists new, posted acc' = (posted acc ++ new)%list
        /\ forall v r doc, (v, r, doc) ∈ new -> exists k, (k, v, r) ∈ l /\ d_callback_version v = r_version r
             /\ _document v r (t k) = inr doc
    | inl _ => True
    end) s.
Proof.
  revert acc s. induction l as [|[[k v] r] l IH]; intros acc s; cbn [deliver_all].
  - apply wp_ret. exists []. rewrite app_nil_r. split; [done|]. intros v r doc ?%elem_of_nil. done.
  - assert (Hgo : forall new1 acc1 s1, posted acc1 = (posted acc ++ new1)%list ->
      (forall v' r' doc, (v', r', doc) ∈ new1 -> v' = v /\ r' = r /\ d_callback_version v = r_version r /\ _document v r (t k) = inr doc) ->
      wp (deliver_all gateway now t l acc1) (fun _ o => match o with
        | inr acc' => exists new, posted acc' = (posted acc ++ new)%list
            /\ forall v' r' doc, (v', r', doc) ∈ new -> exists k', (k', v', r') ∈ (k, v, r) :: l /\ d_callback_version v' = r_version r'
                 /\ _document v' r' (t k') = inr doc
        | inl _ => True end) s1).
    { intros new1 acc1 s1 E Hnew. eapply wp_mono; [|apply IH]. intros _ [e|acc']; [done|]. intros (new & E' & Hl).
      exists (new1 ++ new)%list. rewrite E', E, app_assoc. split; [done|].
      intros v' r' doc [Hin|Hin]%elem_of_app.
      - destruct (Hnew _ _ _ Hin) as (-> & -> & ? & ?). exists k. split; [left|done].
      - destruct (Hl _ _ _ Hin) as (k' & ? & ?). exists k'. split; [by right|done]. }
    wp_step. unfold deliver_one, set_delivery. destruct acc as [n1 n2 n3 log].
    destruct (d_callback_version v =? r_version r) eqn:Ev; cbn [negb]; [apply Z.eqb_eq in Ev|].
    2: { wp_run. apply (Hgo []); [by rewrite app_nil_r|]. intros ? ? ? ?%elem_of_nil. done. }
    destruct (_document v r (t k)) as [e|doc] eqn:Ed.
    { wp_run. apply (Hgo []); [by rewrite app_nil_r|]. intros ? ? ? ?%elem_of_nil. done. }
    destruct (gateway doc); wp_run; try done;
      (apply (Hgo [(v, r, doc)]); [done|]; intros ? ? ? [= -> -> ->]%list_elem_of_singleton; done).
Qed.

(** ** Reconciliation *)

Lemma count_where_none {V} (p : V -> bool) (m : gmap uuid V) : (forall k v, m !! k = Some v -> p v = false) -> count_where p m = 0.
Proof.
  intros Hp. unfold count_where. destruct (select_where p m) as [|v l] eqn:E; [done|]. exfalso.
  assert (Hin : v ∈ select_where p m) by (rewrite E; left). apply elem_of_select_where in Hin as [Hv [k Hk]].
  rewrite (Hp k v Hk) in Hv. done.
Qed.

Lemma no_orphan d k r : inv d -> records d !! k = Some r -> orphan r = false.
Proof. intros I Hk. pose proof (inv_row _ I k r Hk) as Hc. unfold record_checks in Hc. bool_to_prop. done. Qed.

Lemma current_event_there x d k r : inv d -> records d !! k = Some r -> visible x r = true -> no_current_event x d r = false.
Proof.
  intros I Hk Hv. pose proof (inv_row _ I k r Hk) as Hc. unfold record_checks in Hc. bool_to_prop.
  destruct (inv_event_all _ I k r (r_version r) Hk ltac:(lia)) as (ke & e & He & Hid & Hver).
  unfold no_current_event. apply not_true_iff_false. rewrite cb_absent_spec. intros Hall. specialize (Hall ke e He).
  destruct (inv_event_of _ I ke e He) as (r' & Hr' & _ & T & _). rewrite Hid, Hk in Hr'. injection Hr' as <-.
  unfold visible in Hv. apply andb_true_iff in Hv as [Hv _]. apply andb_true_iff in Hv as [Hv _].
  unfold event_visible in Hall. rewrite T, Hv, Hver, Z.eqb_refl, bool_decide_eq_true_2 in Hall; [done|].
  by rewrite Hid, (inv_key _ I _ _ Hk).
Qed.

Lemma no_future_delivery x tenant campaign d k v :
  inv d -> deliveries d !! k = Some v -> joined x d (completed_future tenant campaign) v = false.
Proof.
  intros I Hk. destruct (inv_delivery _ I k v Hk) as (r & Hrec & _ & T). unfold joined, completed_future. rewrite Hrec.
  destruct (visible x r); [|done]. cbn. destruct (str_in (r_state r) _) eqn:Est; [|by rewrite andb_false_r].
  unfold str_in in Est. bool_to_prop. destruct (T Est) as [_ ->]. by rewrite !andb_false_r.
Qed.

Lemma reconcile_spec x tenant campaign s :
  inv (committed s) -> clean s -> set_callback_rls_context tenant [campaign] "callback-reconciler" "scheduler" [] = inr x ->
  wp (reconcile tenant campaign) (fun s' o => match o with
    | inr rep => orphan_assignments rep = 0 /\ missing_current_version_events rep = 0 /\ terminal_future_deliveries_cancelled rep = 0
        /\ records (committed s') = records (committed s)
        /\ forall k v r, deliveries (committed s') !! k = Some v -> records (committed s) !! d_callback_id v = Some r ->
             visible x r = true -> waiting v = true -> d_callback_version v = r_version r
    | inl _ => True end) s.
Proof.
  intros I Hcl Hx. red in Hcl. unfold reconcile. wp_step. wp_call; [|done].
  match goal with H : _ = inr ?y |- _ => apply scheduler_context_inr in H; replace y with x in * by congruence end.
  wp_run. wp_simpl. rewrite Hcl. split_and!; [| | |done|].
  - apply count_where_none. intros k r Hk. by rewrite (no_orphan _ _ _ I Hk), andb_false_r.
  - apply count_where_none. intros k r Hk. unfold in_scope. destruct (visible x r) eqn:Hv; [|done].
    by rewrite (current_event_there _ _ _ _ I Hk Hv), andb_false_r.
  - apply count_where_none. intros k v Hk. by eapply no_future_delivery.
  - cbn. intros k v' r (v & Hk & ->)%lookup_update_where_Some. destruct (inv_delivery _ I k v Hk) as (r' & Hrec & Hn & _).
    destruct (_ || _) eqn:E; [done|]. rewrite Hrec. intros [= <-] Hv Hwt. apply orb_false_iff in E as [E _].
    unfold joined, outdated in E. rewrite Hrec, Hv, Hwt in E. cbn in E. rewrite andb_true_r in E. bool_to_prop. lia.
Qed.

(** ** Sorting *)

Lemma insert_by_sorted {A} (le : A -> A -> bool) (Htot : forall a b, le a b = true \/ le b a = true)
    (Htr : forall a b c, le a b = true -> le b c = true -> le a c = true) x l :
  StronglySorted (fun a b => le a b = true) l -> StronglySorted (fun a b => le a b = true) (insert_by le x l).
Proof.
  induction 1 as [|y l Hs IH Hall]; cbn; [by repeat constructor|]. destruct (le x y) eqn:E.
  - constructor; [by constructor|]. constructor; [done|]. eapply List.Forall_impl; [|exact Hall]. eauto.
  - constructor; [done|]. rewrite insert_by_perm. constructor; [|done]. destruct (Htot x y); congruence.
Qed.

Lemma sort_by_sorted {A} (le : A -> A -> bool) (Htot : forall a b, le a b = true \/ le b a = true)
    (Htr : forall a b c, le a b = true -> le b c = true -> le a c = true) l :
  StronglySorted (fun a b => le a b = true) (sort_by le l).
Proof. induction l; cbn; [constructor|]. by apply insert_by_sorted. Qed.

Lemma take_sorted {A} (le : A -> A -> bool) n l x y :
  StronglySorted (fun a b => le a b = true) l -> x ∈ l -> x ∉ take n l -> y ∈ take n l -> le y x = true /\ length (take n l) = n.
Proof.
  revert n y. induction l as [|z l IH]; intros n y Hs Hx Hnx Hy; [by apply elem_of_nil in Hx|].
  destruct n as [|n]; cbn in *; [by apply elem_of_nil in Hy|].
  apply StronglySorted_inv in Hs as [Hs Hall]. apply elem_of_cons in Hx as [->|Hx]; [destruct Hnx; left|].
  rewrite elem_of_cons in Hnx. apply Decidable.not_or in Hnx as [_ Hnx].
  rewrite List.Forall_forall in Hall. destruct (decide (n = 0%nat)) as [->|Hn0].
  - cbn. split; [|done]. cbn in Hy. apply list_elem_of_singleton in Hy as ->. by apply Hall, list_elem_of_In.
  - destruct l as [|w l]; [by apply elem_of_nil in Hx|]. destruct n as [|n]; [done|].
    destruct (IH (S n) w Hs Hx Hnx) as [Hwx Hlen]; [left|]. split; [|by rewrite Hlen].
    apply elem_of_cons in Hy as [->|Hy]; [by apply Hall, list_elem_of_In|by apply IH with (S n)].
Qed.

Lemma by_time_total a b : by_time a b = true \/ by_time b a = true.
Proof.
  unfold by_time. destruct (Z.ltb_spec (r_scheduled_at a) (r_scheduled_at b)), (Z.ltb_spec (r_scheduled_at b) (r_scheduled_at a)); auto.
  replace (r_scheduled_at a) with (r_scheduled_at b) by lia. rewrite Z.eqb_refl. cbn.
  destruct (N.leb_spec (r_id a) (r_id b)); auto. right. apply N.leb_le. lia.
Qed.
Lemma by_time_spec a b :
  by_time a b = true <-> r_scheduled_at a < r_scheduled_at b \/ r_scheduled_at a = r_scheduled_at b /\ (r_id a <= r_id b)%N.
Proof. unfold by_time. rewrite orb_true_iff, andb_true_iff, Z.ltb_lt, Z.eqb_eq, N.leb_le. done. Qed.
Lemma by_time_trans a b c : by_time a b = true -> by_time b c = true -> by_time a c = true.
Proof. rewrite !by_time_spec. lia. Qed.

(** What the claim leaves is scheduled no earlier than what it took. *)
Lemma not_taken limit l r :
  r ∈ l -> r ∉ take limit (sort_by by_time l) ->
  length (take limit (sort_by by_time l)) = limit
  /\ forall f, f ∈ take limit (sort_by by_time l) -> r_scheduled_at f <= r_scheduled_at r.
Proof.
  intros Hin Hnr. rewrite <- (sort_by_perm by_time) in Hin.
  pose proof (sort_by_sorted by_time by_time_total by_time_trans l) as Hs.
  assert (Hle : forall f, f ∈ take limit (sort_by by_time l) -> by_time f r = true /\ length (take limit (sort_by by_time l)) = limit)
    by (intros f Hf; by apply take_sorted).
  split; [|intros f [Hf _]%Hle; apply by_time_spec in Hf; lia].
  destruct (take limit (sort_by by_time l)) as [|f0 rest] eqn:Ef; [|by apply (Hle f0); left].
  destruct limit; [done|]. destruct (sort_by by_time l); [by apply elem_of_nil in Hin|done].
Qed.

Lemma visible_in_reach x r : visible x r = true -> in_reach x r.
Proof.
  unfold visible, is_setting_opt, any_of_opt, is_setting, any_of, str_in. intros Hv. bool_to_prop.
  match goal with H : (_ || _)%bool = true |- _ => rewrite !orb_true_iff in H; rename H into Ha end.
  split; [done|done|]. destruct Ha as [[[Ha|Ha]|Ha]|Ha]; [|destruct (r_assigned_agent_id r)|destruct (r_assigned_user_id r)
    |destruct (r_assigned_team_id r)]; bool_to_prop; naive_solver.
Qed.

Section theorems.
Context `{CallbackModels} (ZoneInfo : zone_database) (c : Settings).
Notation step := (step ZoneInfo c).
Notation reachable := (reachable ZoneInfo c).

(** C10. Every run follows the state diagram of [callbacks.py]: a callback is
    never deleted, what its creation fixed never changes, its version only
    grows, and grows with every change of the row; its state moves along
    [TRANSITIONS]; completed and cancelled are final. *)
Theorem callbacks_follow_diagram (d d' : db) (k : uuid) (r : record) :
  reachable d -> rtc step d d' -> records d !! k = Some r ->
  exists r', records d' !! k = Some r' /\ fixed r' = fixed r
    /\ (r' = r \/ r_version r < r_version r')
    /\ rtc (can_move TRANSITIONS) (r_state r) (r_state r')
    /\ (r_state r ∈ TERMINAL -> r_state r' = r_state r).
Proof.
  intros Hr Hs Hk. destruct (steps_evolve ZoneInfo c d d' (cb_reachable_inv _ _ _ Hr) Hs) as [_ [E _]].
  destruct (E k r Hk) as (r' & Hk' & [F V S]). exists r'. split_and!; auto using moves_diagram. by apply terminal_stays.
Qed.

(** C28. The event ledger of a callback is complete and without repetition: its
    events are numbered 1 to its version, one for each, all of its tenant and
    campaign, and once written they stay. *)
Theorem callback_ledger_exact (d d' : db) (k : uuid) (r : record) :
  reachable d -> rtc step d d' -> records d !! k = Some r ->
  (forall n, 1 <= n <= r_version r -> exists ke e, events d !! ke = Some e /\ events d' !! ke = Some e
     /\ e_callback_id e = k /\ e_version e = n
     /\ forall ke' e', events d !! ke' = Some e' -> e_callback_id e' = k -> e_version e' = n -> ke' = ke)
  /\ (forall ke e, events d !! ke = Some e -> e_callback_id e = k ->
        1 <= e_version e <= r_version r /\ e_tenant_id e = r_tenant_id r /\ e_campaign_id e = r_campaign_id r).
Proof.
  intros Hr Hs Hk. pose proof (cb_reachable_inv _ _ _ Hr) as I.
  destruct (steps_evolve ZoneInfo c d d' I Hs) as [_ [_ E]]. split.
  - intros n Hn. destruct (inv_event_all _ I k r n Hk Hn) as (ke & e & He & Hid & Hv).
    exists ke, e. split_and!; try done; [by eapply lookup_weaken|].
    intros ke' e' He' Hid' Hv'. eapply (inv_event_one _ I); eauto; congruence.
  - intros ke e He Hid. destruct (inv_event_of _ I ke e He) as (r' & Hr' & Hv & T & C). rewrite Hid in Hr'. naive_solver.
Qed.

(** C26. A request touches nothing outside its scope: whatever it does to
    callbacks, events and deliveries, the rows before and after are ones that
    the policies show to its context, so of its tenant and campaigns, and for an
    agent assigned to it or its teams. *)
Theorem requests_stay_in_scope (q : request) (x : rls) (clk : nat -> Z) (us : nat -> uuid) (d : db) :
  reachable d -> context_of q = inr x ->
  let d' := (run clk us (serve ZoneInfo c q) d).1 in
  scoped x d d'
  /\ forall k, records d' !! k <> records d !! k ->
       (forall r, records d !! k = Some r -> in_reach x r) /\ exists r', records d' !! k = Some r' /\ in_reach x r'.
Proof.
  intros Hr Hx d'. assert (S : scoped x d d') by (apply serve_good; [by eapply cb_reachable_inv|done]).
  split; [exact S|]. intros k Hk. destruct (sc_records _ _ _ S k) as [?|[Hb (r' & Hr' & Hv)]]; [done|].
  split; [|exists r']; eauto using visible_in_reach.
Qed.

(** C36. No lost update and no repetition: after a change of a callback was
    answered, whatever happened in between, a change with the same idempotency
    key changes nothing; and after one that changed the row, neither does a
    change that expects the same or an older version, whatever its key.  When
    such a change is answered at all it is with the callback as it is. *)
Theorem change_accepted_once (d d1 d2 : db) (clk clk' : nat -> Z) (us us' : nat -> uuid) (a a' : action) (k : uuid)
    (b b' : Change) (key key' correlation correlation' : string) (p p' : Principal) (wall wall' : Z) (r : record) :
  reachable d -> run clk us (endpoint ZoneInfo a k b key correlation p wall) d = (d1, inr r) ->
  rtc step d1 d2 -> p_tenant p' = p_tenant p ->
  key' = key \/ (records d1 !! k <> records d !! k /\ expected_version b' <= expected_version b) ->
  let out := run clk' us' (endpoint ZoneInfo a' k b' key' correlation' p' wall') d2 in
  out.1 = d2 /\ forall r', out.2 = inr r' -> records d2 !! k = Some r'.
Proof.
  intros Hr Hrun Hs Hp Hcase. pose proof (cb_reachable_inv _ _ _ Hr) as I.
  pose proof (run_endpoint_step ZoneInfo c clk us a k b key correlation p wall d) as Hst.
  pose proof (run_spec _ (change_outcome k b key p d) clk us d
    (endpoint_outcome ZoneInfo a k b key correlation p wall (Session d d clk us) I eq_refl)) as Ho.
  rewrite Hrun in Ho, Hst. cbn in Ho, Hst. destruct Ho as [Hk Ho].
  destruct (steps_evolve ZoneInfo c d d1 I (rtc_once _ _ Hst)) as [I1 _].
  destruct (steps_evolve ZoneInfo c d1 d2 I1 Hs) as [I2 E2].
  assert (Hkey : key_used (p_tenant p) key d2) by (eapply key_used_later; [done|]; naive_solver).
  destruct (ev_records _ _ E2 k r Hk) as (r2 & Hk2 & [_ V2 _]).
  pose proof (run_spec _ (change_outcome k b' key' p' d2) clk' us' d2
    (endpoint_outcome ZoneInfo a' k b' key' correlation' p' wall' (Session d2 d2 clk' us') I2 eq_refl)) as Ho2.
  intros out. fold out in Ho2. destruct out.2 as [e|r'] eqn:Eo; cbn in Ho2; [by split|].
  destruct Ho2 as [Hk' [[E _]|[Hn (row0 & Hr0 & Hv0 & _)]]].
  { split; [done|]. intros r'' [= <-]. by rewrite <- E. }
  exfalso.
  destruct Hcase as [->|[Hch Hle]]; [rewrite Hp in Hn; done|]. rewrite Hk2 in Hr0. injection Hr0 as <-.
  destruct Ho as [[-> _]|(_ & _ & _ & _ & Hv & _)]; [done|]. destruct V2 as [->|]; lia.
Qed.

(** An idempotency key of the tenant answers for one callback for ever:
    after a creation was answered, and whatever happened in between, a creation
    with the same key changes nothing, whoever of the tenant sends it; when it is
    answered its body hashes alike, and the answer is the same callback as it is
    by then. *)
Theorem callback_creation_once (d d1 d2 : db) (clk clk' : nat -> Z) (us us' : nat -> uuid) (b b' : CreateCallback)
    (p p' : Principal) (key correlation correlation' : string) (wall wall' : Z) (row : record) :
  reachable d -> run clk us (create ZoneInfo c b p key correlation wall) d = (d1, inr row) -> rtc step d1 d2 ->
  p_tenant p' = p_tenant p ->
  let out := run clk' us' (create ZoneInfo c b' p' key correlation' wall') d2 in
  out.1 = d2 /\ forall row', out.2 = inr row' -> _hash b' = _hash b /\ records d2 !! r_id row = Some row'.
Proof.
  intros Hr Hrun Hs Hp. pose proof (cb_reachable_inv _ _ _ Hr) as I.
  pose proof (run_create_step ZoneInfo c clk us b p key correlation wall d) as Hst.
  pose proof (run_spec _ (create_outcome (_hash b) b p key d) clk us d
    (create_outcome_ok ZoneInfo c b p key correlation wall (Session d d clk us) I eq_refl)) as Ho.
  rewrite Hrun in Ho, Hst. cbn in Ho, Hst. destruct Ho as (Hk & (T & K & Hh) & _).
  destruct (steps_evolve ZoneInfo c d d1 I (rtc_once _ _ Hst)) as [I1 _].
  destruct (steps_evolve ZoneInfo c d1 d2 I1 Hs) as [I2 E2].
  destruct (ev_records _ _ E2 _ _ Hk) as (r2 & Hk2 & [F2 _ _]).
  assert (H2 : has_key (p_tenant p) key (_hash b) r2) by (unfold fixed in F2; unfold has_key; split_and!; congruence).
  pose proof (run_spec _ (create_outcome (_hash b') b' p' key d2) clk' us' d2
    (create_outcome_ok ZoneInfo c b' p' key correlation' wall' (Session d2 d2 clk' us') I2 eq_refl)) as Ho2.
  intros out. fold out in Ho2. destruct out.2 as [e|row'] eqn:Eo; cbn in Ho2; [by split|].
  destruct Ho2 as (Hk' & (T' & K' & Hh') & [E|(Ha & _)]).
  - split; [done|]. intros r'' [= <-]. rewrite E in Hk'. destruct H2 as (T2 & K2 & Hh2).
    assert (Eid : r_id row' = r_id row) by (eapply (inv_unique _ I2); eauto; congruence).
    rewrite Eid, Hk2 in Hk'. injection Hk' as ->. split; [congruence|done].
  - exfalso. rewrite cb_absent_spec in Ha. specialize (Ha _ _ Hk2). destruct H2 as (T2 & K2 & _). unfold same_key in Ha.
    rewrite T2, K2, Hp, !bool_decide_eq_true_2 in Ha by done. done.
Qed.

(** A callback whose creation failed a compliance check is never called:
    whatever agents, supervisors and the scheduler do, it stays blocked or is
    cancelled. *)
Theorem blocked_callback_never_called (d d1 d2 : db) (clk : nat -> Z) (us : nat -> uuid) (b : CreateCallback) (p : Principal)
    (key correlation : string) (wall : Z) (row : record) :
  reachable d -> run clk us (create ZoneInfo c b p key correlation wall) d = (d1, inr row) ->
  records d !! r_id row = None -> compliant (b_compliance b) = false -> rtc step d1 d2 ->
  exists r, records d2 !! r_id row = Some r /\ r_state r ∈ ["BLOCKED_COMPLIANCE"; "CANCELLED"].
Proof.
  intros Hr Hrun Hn Hc Hs. pose proof (cb_reachable_inv _ _ _ Hr) as I.
  pose proof (run_create_step ZoneInfo c clk us b p key correlation wall d) as Hst.
  pose proof (run_spec _ (create_outcome (_hash b) b p key d) clk us d
    (create_outcome_ok ZoneInfo c b p key correlation wall (Session d d clk us) I eq_refl)) as Ho.
  rewrite Hrun in Ho, Hst. cbn in Ho, Hst. destruct Ho as (Hk & _ & [->|(_ & _ & Hstate)]); [congruence|]. rewrite Hc in Hstate.
  destruct (steps_evolve ZoneInfo c d d1 I (rtc_once _ _ Hst)) as [I1 _].
  destruct (steps_evolve ZoneInfo c d1 d2 I1 Hs) as [_ E2].
  destruct (ev_records _ _ E2 _ _ Hk) as (r2 & Hk2 & [_ _ S2]). exists r2. split; [done|].
  eapply blocked_stays; [exact S2|]. rewrite Hstate. by_compute.
Qed.

(** C25. A popup is posted only for what is current: its delivery waits, belongs
    to the tenant and campaign of the worker and to the version the callback has
    now, and the callback is neither completed nor cancelled; the document is the
    one of this callback. *)
Theorem popups_current_only (gateway : json -> gateway_answer) (tenant campaign token : string) (limit : nat) (now : Z)
    (t : uuid -> Z) (clk : nat -> Z) (us : nat -> uuid) (d d' : db) (rep : popup_report) (v : delivery) (r : record) (doc : json) :
  reachable d ->
  run clk us (deliver_callback_popups gateway tenant campaign token limit now t) d = (d', inr rep) ->
  (v, r, doc) ∈ posted rep ->
  exists k x, deliveries d !! k = Some v /\ records d !! d_callback_id v = Some r
    /\ set_callback_rls_context tenant [campaign] "callback-realtime-worker" "service" [] = inr x /\ visible x r = true
    /\ waiting v = true /\ d_callback_version v = r_version r /\ r_state r ∉ TERMINAL /\ _document v r (t k) = inr doc.
Proof.
  intros Hr Hrun Hin. pose proof (cb_reachable_inv _ _ _ Hr) as I.
  assert (Hw : wp (deliver_callback_popups gateway tenant campaign token limit now t) (fun _ o => match o with
    | inr rep => forall v r doc, (v, r, doc) ∈ posted rep -> exists k x,
        (k, v, r) ∈ popup_rows x tenant campaign now limit d /\ d_callback_version v = r_version r /\ _document v r (t k) = inr doc
        /\ set_callback_rls_context tenant [campaign] "callback-realtime-worker" "service" [] = inr x
    | inl _ => True end) (Session d d clk us)).
  { unfold deliver_callback_popups. wp_step. wp_step; [|done]. wp_step. wp_step; [|done]. wp_step. wp_call; [|done]. do 2 wp_step.
    wp_step. eapply wp_mono; [|apply deliver_all_log]. intros s' [e|rep']; [done|]. intros (new & E & Hl). wp_run.
    intros v' r' doc' Hin'. rewrite E in Hin'. destruct (Hl v' r' doc' Hin') as (k & ? & ? & ?). eauto 10. }
  unfold wp in Hw. unfold run, with_session in Hrun. destruct (deliver_callback_popups _ _ _ _ _ _ _ _) as [s o]. injection Hrun as _ ->.
  destruct (Hw v r doc Hin) as (k & x & Hrow & Hv & Hd & Hx). apply popup_rows_spec in Hrow as [Hk Hrec Hvis Hwait]. cbn in *.
  exists k, x. split_and!; try done. intros Ht.
  destruct (inv_delivery _ I _ _ Hk) as (r' & Hr' & _ & T). replace r' with r in * by congruence. destruct (T Ht). congruence.
Qed.

(** Reconciliation never finds anything to repair but outdated reminders:
    no callback without an owner, none without the event of its version, no
    waiting delivery of a finished callback; and it leaves no waiting delivery
    of an older version of a callback it sees. *)
Theorem reconcile_finds_outdated_only (tenant campaign : string) (clk : nat -> Z) (us : nat -> uuid) (d d' : db) (rep : report) (x : rls) :
  reachable d -> run clk us (reconcile tenant campaign) d = (d', inr rep) -> context_of (Reconcile tenant campaign) = inr x ->
  orphan_assignments rep = 0 /\ missing_current_version_events rep = 0 /\ terminal_future_deliveries_cancelled rep = 0
  /\ forall k v r, deliveries d' !! k = Some v -> records d' !! d_callback_id v = Some r -> visible x r = true ->
       waiting v = true -> d_callback_version v = r_version r.
Proof.
  intros Hr Hrun Hx. pose proof (cb_reachable_inv _ _ _ Hr) as I. cbn in Hx.
  pose proof (reconcile_spec x tenant campaign (Session d d clk us) I eq_refl Hx) as Hw. unfold wp in Hw.
  unfold run, with_session in Hrun. destruct (reconcile _ _ _) as [s o]. injection Hrun as <- ->.
  cbn in Hw. destruct Hw as (? & ? & ? & E & Hd). split_and!; try done. intros k v r Hk. rewrite E. by apply Hd with k.
Qed.

(** C27. No due callback is passed over: when the scheduler's claim succeeds,
    each callback that is due in its scope is [DUE] under the next version
    afterwards, unless the claim is full and took only callbacks scheduled no
    later; callbacks that it did not take are as they were. *)
Theorem due_callbacks_taken (worker : string) (limit : nat) (now : Z) (tenant campaign : string) (clk : nat -> Z) (us : nat -> uuid)
    (d d' : db) (taken : list record) (x : rls) :
  reachable d -> context_of (ClaimDue worker limit now tenant campaign) = inr x ->
  run clk us (claim_due worker limit now tenant campaign) d = (d', inr taken) ->
  (forall k r, records d !! k = Some r -> in_scope x tenant campaign r = true -> due now r = true ->
     (exists r', records d' !! k = Some r' /\ r_state r' = "DUE" /\ r_version r' = r_version r + 1)
     \/ (length taken = limit /\ forall f, f ∈ taken -> r_scheduled_at f <= r_scheduled_at r))
  /\ (forall k, (forall f, f ∈ taken -> r_id f <> k) -> records d' !! k = records d !! k).
Proof.
  intros Hr Hx Hrun. pose proof (cb_reachable_inv _ _ _ Hr) as I. cbn in Hx.
  pose proof (claim_due_effect x (Session d d clk us) I eq_refl worker limit now tenant campaign Hx) as [_ Hw].
  unfold run, with_session in Hrun. destruct (claim_due _ _ _ _ _ _) as [s o]. injection Hrun as <- ->. cbn in Hw.
  destruct Hw as [-> Hrec]. set (found := due_found x tenant campaign now limit d) in *. split.
  - intros k r Hk Hs Hd. assert (Hin : r ∈ select_where (fun r => in_scope x tenant campaign r && due now r) (records d))
      by (apply elem_of_select_where; rewrite Hs, Hd; eauto).
    destruct (decide (Exists (fun f => r_id f = k) found)) as [Hex|Hno].
    + left. rewrite Hrec. destruct (List.find _ found) as [f|] eqn:Ef.
      * exists (made_due f). apply find_some in Ef as [Hf Hid]. bool_to_prop. split_and!; [done|done|]. cbn.
        assert (f = r) as ->; [|done]. apply list_elem_of_In, elem_of_take in Hf as (i & Hi & _). apply list_elem_of_lookup_2 in Hi.
        rewrite sort_by_perm in Hi. apply elem_of_select_where in Hi as [_ [k' Hk']].
        rewrite (inv_key _ I _ _ Hk') in Hid. congruence.
      * exfalso. apply Exists_exists in Hex as (f & Hf & Hid). eapply find_none in Ef; [|by apply list_elem_of_In].
        cbn in Ef. by bool_to_prop.
    + right. rewrite length_fmap. setoid_rewrite list_elem_of_fmap. enough (length found = limit /\ forall f, f ∈ found -> r_scheduled_at f <= r_scheduled_at r) as [? Hle]
        by (split; [done|]; intros ? (f & -> & Hf); exact (Hle f Hf)).
      apply (not_taken _ _ r Hin). intros Hf. apply Hno, Exists_exists. exists r. split; [done|]. by apply (inv_key _ I).
  - intros k Hk. rewrite Hrec. destruct (List.find _ found) as [f|] eqn:Ef; [|done].
    apply find_some in Ef as [Hf Hid]. bool_to_prop. destruct (Hk (made_due f)); [|done].
    by apply list_elem_of_fmap_2, list_elem_of_In.
Qed.

(** The sessions of a cycle of the scheduler process are steps of the system. *)
Lemma run_serves {A} (q : request) (m : M db A) clk us d :
  serve ZoneInfo c q = drop_body m -> step d (run clk us m d).1.
Proof.
  intros E. pose proof (step_serve ZoneInfo c d q clk us) as Hs. rewrite E in Hs.
  unfold run, with_session, drop_body, mbind, M_bind in *. by destruct (m _) as [s [e|a]].
Qed.

Lemma session_reaches {A} (q : request) (m : M db A) clk us d0 d d' r :
  serve ZoneInfo c q = drop_body m -> with_session clk us m d = (d', r) -> rtc step d0 d -> rtc step d0 d'.
Proof.
  intros E Hr Hd. eapply rtc_r; [exact Hd|]. pose proof (run_serves q m clk us d E) as Hs. unfold run in Hs. by rewrite Hr in Hs.
Qed.

Lemma cycle_reaches (st : SchedulerSettings) clk us t1 t2 t3 d : rtc step d (cycle st clk us t1 t2 t3 d).1.
Proof.
  unfold cycle.
  repeat (case_match; [reflexivity|]).
  destruct (with_session _ _ (claim_due _ _ _ _ _) _) as [d1 o1] eqn:E1.
  eapply (session_reaches (ClaimDue _ _ _ _ _)) in E1; [|reflexivity|reflexivity]. destruct o1; [exact E1|].
  destruct (with_session _ _ (mark_missed _ _ _ _ _) _) as [d2 o2] eqn:E2.
  eapply (session_reaches (MarkMissed _ _ _ _ _)) in E2; [|reflexivity|exact E1]. destruct o2; [exact E2|].
  destruct (with_session _ _ (escalate_missed _ _ _ _ _) _) as [d3 o3] eqn:E3.
  eapply (session_reaches (EscalateMissed _ _ _ _ _)) in E3; [|reflexivity|exact E2]. destruct o3; [exact E3|].
  destruct (with_session _ _ (reconcile _ _) _) as [d4 o4] eqn:E4.
  eapply (session_reaches (Reconcile _ _)) in E4; [|reflexivity|exact E3]. by destruct o4.
Qed.
End theorems.
End CallbackTheorems.
