(* ===== verification/CallbackDemo.v ===== *)
(** * Callback management: concrete runs and limits of the code

    A callback of a tenant that a supervisor creates and changes and that the
    scheduler takes: witnesses for the theorems about the system.  Then what the
    code does that its readers may not expect. *)

From S2P Require Import Prelude PyText Txn PyTime Machines Callbacks CallbackTables CallbackApi CallbackScheduler CallbackSafety CallbackTheorems.
Import Callbacks CallbackTables CallbackApi CallbackScheduler CallbackSystem CallbackSafety CallbackTheorems.
Local Open Scope string_scope.
Local Open Scope Z_scope.

Module CallbackDemo.

Definition demo_models : CallbackModels :=
  {| model_dump b := JObj [("tenant_id", JStr (b_tenant_id b)); ("reason", JStr (b_reason b))] |}.
#[local] Existing Instance demo_models.

Definition cfg : Settings := mkSettings false "" "codestra.callback.agent-reminder.v1" "".
Definition supervisor : Principal := mkPrincipal "sam" "COD" ["TEST_SYN"] "supervisor" [].

Definition body (reason : string) (ok : bool) : CreateCallback :=
  mkCreate "COD" "TEST_SYN" None None None None None (Some "alice") (Some "user-1") None None None
    "+57 300 123 4567" (Datetime (hours 10) (Some (- hours 5))) "America/Bogota" "NORMAL" reason "" true true 3
    (mkCompliance ok false false true true) (JObj []).

Definition change (version : Z) : Change := mkChange version None None None None None (Some "note") None None None.

Definition clk (n : nat) : Z := 0.
Definition ids (base : N) (n : nat) : uuid := (base + N.of_nat n)%N.

(** The states of the run: created, annotated, due. *)
Definition s0 : db := empty_db.
Definition creation := create demo_zones cfg (body "call back" true) supervisor "key-1" "corr-1" 0.
Definition s1 : db := (run clk (ids 1%N) creation s0).1.
Definition annotation := endpoint demo_zones Patch 1%N (change 1) "key-2" "corr-2" supervisor 0.
Definition s2 : db := (run clk (ids 10%N) annotation s1).1.
Definition taking := claim_due "worker" 5 (hours 20) "COD" "TEST_SYN".
Definition s3 : db := (run clk (ids 20%N) taking s1).1.

Definition row_of (k : uuid) (d : db) : record :=
  coalesce (records d !! k) (new_record 0%N (body "" true) (utc 0) "" "" "" "" "").

Definition scheduler_rls : rls := mkRls "COD" "TEST_SYN" "worker" "scheduler" "".

Notation reaches := (rtc (step demo_zones cfg)).

Lemma cb_reach_1 : reachable demo_zones cfg s1.
Proof. apply rtc_once. apply run_create_step. Qed.
Lemma cb_step_2 : step demo_zones cfg s1 s2.
Proof. apply run_endpoint_step. Qed.
Lemma cb_step_3 : step demo_zones cfg s1 s3.
Proof.
  pose proof (step_serve demo_zones cfg s1 (ClaimDue "worker" 5 (hours 20) "COD" "TEST_SYN") clk (ids 20%N)) as Hs.
  unfold s3, taking, run, with_session, serve, drop_body, mbind, M_bind in *. by destruct (claim_due _ _ _ _ _ _) as [s [e|x]].
Qed.
Lemma cb_reach_3 : reachable demo_zones cfg s3.
Proof. eapply rtc_r; [apply cb_reach_1|apply cb_step_3]. Qed.

Lemma cb_creation_eq : run clk (ids 1%N) creation s0 = (s1, inr (row_of 1%N s1)).
Proof. vm_compute. reflexivity. Qed.
Lemma annotation_eq : run clk (ids 10%N) annotation s1 = (s2, inr (row_of 1%N s2)).
Proof. vm_compute. reflexivity. Qed.
Lemma row_1 : records s1 !! 1%N = Some (row_of 1%N s1).
Proof. vm_compute. reflexivity. Qed.
Lemma row_3 : records s3 !! 1%N = Some (row_of 1%N s3).
Proof. vm_compute. reflexivity. Qed.

Lemma callbacks_follow_diagram_witness :
  r_state (row_of 1%N s1) = "SCHEDULED" /\ r_state (row_of 1%N s3) = "DUE"
  /\ rtc (can_move TRANSITIONS) (r_state (row_of 1%N s1)) (r_state (row_of 1%N s3)).
Proof.
  split; [vm_compute; reflexivity|]. split; [vm_compute; reflexivity|].
  destruct (callbacks_follow_diagram demo_zones cfg s1 s3 1%N (row_of 1%N s1) cb_reach_1 (rtc_once _ _ cb_step_3) row_1)
    as (r' & Hr' & _ & _ & Hm & _).
  pose proof (eq_trans (eq_sym row_3) Hr') as E. injection E as <-. exact Hm.
Defined.

Lemma callback_ledger_exact_witness :
  r_version (row_of 1%N s3) = 2
  /\ exists ke e, events s3 !! ke = Some e /\ e_callback_id e = 1%N /\ e_version e = 2.
Proof.
  assert (Hv : r_version (row_of 1%N s3) = 2) by (vm_compute; reflexivity). split; [exact Hv|].
  destruct (callback_ledger_exact demo_zones cfg s3 s3 1%N (row_of 1%N s3) cb_reach_3 (rtc_refl _ _) row_3) as [Hall _].
  destruct (Hall 2) as (ke & e & He & _ & Hid & Hn & _); [rewrite Hv; lia|]. exists ke, e. auto.
Defined.

Lemma requests_stay_in_scope_witness :
  context_of (ClaimDue "worker" 5 (hours 20) "COD" "TEST_SYN") = inr scheduler_rls
  /\ scoped scheduler_rls s1 (run clk (ids 20%N) (serve demo_zones cfg (ClaimDue "worker" 5 (hours 20) "COD" "TEST_SYN")) s1).1
  /\ in_reach scheduler_rls (row_of 1%N s1).
Proof.
  split; [vm_compute; reflexivity|].
  destruct (requests_stay_in_scope demo_zones cfg (ClaimDue "worker" 5 (hours 20) "COD" "TEST_SYN") scheduler_rls clk (ids 20%N) s1
    cb_reach_1 ltac:(vm_compute; reflexivity)) as [Hs Hk]. split; [exact Hs|].
  refine (proj1 (Hk 1%N _) _ row_1). vm_compute. discriminate.
Defined.

Lemma annotation_changed : records s2 !! 1%N <> records s1 !! 1%N.
Proof. intros E. apply (f_equal (fmap r_version)) in E. revert E. vm_compute. discriminate. Qed.

Lemma change_accepted_once_witness :
  (run clk (ids 30%N) (endpoint demo_zones Cancel 1%N (change 1) "key-3" "corr-3" supervisor 0) s2).1 = s2.
Proof.
  apply (change_accepted_once demo_zones cfg s1 s2 s2 clk clk (ids 10%N) (ids 30%N) Patch Cancel 1%N (change 1) (change 1)
    "key-2" "key-3" "corr-2" "corr-3" supervisor supervisor 0 0 (row_of 1%N s2) cb_reach_1 annotation_eq
    (rtc_refl _ _) eq_refl (or_intror (conj annotation_changed (Z.le_refl _)))).
Defined.

Lemma callback_creation_once_witness :
  (run clk (ids 40%N) (create demo_zones cfg (body "call back" true) supervisor "key-1" "corr-9" 0) s3).1 = s3
  /\ (run clk (ids 40%N) (create demo_zones cfg (body "call back" true) supervisor "key-1" "corr-9" 0) s3).2 = inr (row_of 1%N s3).
Proof.
  split; [|vm_compute; reflexivity].
  apply (callback_creation_once demo_zones cfg s0 s1 s3 clk clk (ids 1%N) (ids 40%N) (body "call back" true) (body "call back" true)
    supervisor supervisor "key-1" "corr-1" "corr-9" 0 0 (row_of 1%N s1) (rtc_refl _ _) cb_creation_eq (rtc_once _ _ cb_step_3) eq_refl).
Defined.

(** A callback without consent. *)
Definition blocked_creation := create demo_zones cfg (body "call back" false) supervisor "key-1" "corr-1" 0.
Definition b1 : db := (run clk (ids 1%N) blocked_creation s0).1.

Lemma blocked_creation_eq : run clk (ids 1%N) blocked_creation s0 = (b1, inr (row_of 1%N b1)).
Proof. vm_compute. reflexivity. Qed.
Lemma blocked_new : records s0 !! r_id (row_of 1%N b1) = None.
Proof. vm_compute. reflexivity. Qed.

Lemma blocked_callback_never_called_witness :
  exists r, records b1 !! r_id (row_of 1%N b1) = Some r /\ r_state r ∈ ["BLOCKED_COMPLIANCE"; "CANCELLED"].
Proof.
  apply (blocked_callback_never_called demo_zones cfg s0 b1 b1 clk (ids 1%N) (body "call back" false) supervisor "key-1" "corr-1" 0
    (row_of 1%N b1) (rtc_refl _ _) blocked_creation_eq blocked_new eq_refl (rtc_refl _ _)).
Defined.

Definition accepting (doc : json) : gateway_answer := Accepted.
Definition popups := deliver_callback_popups accepting "COD" "TEST_SYN" "token" 5 (hours 20) (fun _ => 0).
Definition popup_run : db * (exn + popup_report) := run clk (ids 50%N) popups s3.
Definition popup_log : list (delivery * record * json) :=
  match popup_run.2 with inr rep => posted rep | inl _ => [] end.

Lemma popups_current_only_witness :
  exists v r doc, (v, r, doc) ∈ popup_log /\ d_stage v = "DUE" /\ d_callback_version v = r_version r /\ r_state r ∉ TERMINAL.
Proof.
  destruct popup_run as [d' [e|rep]] eqn:E; [exfalso; vm_compute in E; discriminate|].
  destruct (posted rep) as [|[[v r] doc] log] eqn:Ep; [exfalso; vm_compute in E; injection E as _ <-; vm_compute in Ep; discriminate|].
  assert (Hs : d_stage v = "DUE").
  { vm_compute in E. injection E as _ <-. vm_compute in Ep. injection Ep as <- _ _ _. vm_compute. reflexivity. }
  exists v, r, doc. split; [unfold popup_log; rewrite E; cbn; rewrite Ep; left|]. split; [exact Hs|].
  destruct (popups_current_only demo_zones cfg accepting "COD" "TEST_SYN" "token" 5 (hours 20) (fun _ => 0) clk (ids 50%N) s3 d' rep v r doc
    cb_reach_3 E ltac:(rewrite Ep; left)) as (k & x & _ & _ & _ & _ & _ & Hv & Ht & _). split; assumption.
Defined.

Definition reconciliation := reconcile "COD" "TEST_SYN".
Definition reconciled : db * (exn + report) := run clk (ids 60%N) reconciliation s3.

Lemma reconcile_finds_outdated_only_witness :
  reconciled.2 = inr (mkReport 0 0 1 0)
  /\ forall k v r, deliveries reconciled.1 !! k = Some v -> records reconciled.1 !! d_callback_id v = Some r ->
       visible (mkRls "COD" "TEST_SYN" "callback-reconciler" "scheduler" "") r = true -> waiting v = true ->
       d_callback_version v = r_version r.
Proof.
  split; [vm_compute; reflexivity|].
  apply (reconcile_finds_outdated_only demo_zones cfg "COD" "TEST_SYN" clk (ids 60%N) s3 reconciled.1 (mkReport 0 0 1 0)
    (mkRls "COD" "TEST_SYN" "callback-reconciler" "scheduler" "") cb_reach_3 ltac:(vm_compute; reflexivity) ltac:(vm_compute; reflexivity)).
Defined.

Lemma due_callbacks_taken_witness :
  exists r', records s3 !! 1%N = Some r' /\ r_state r' = "DUE" /\ r_version r' = r_version (row_of 1%N s1) + 1.
Proof.
  destruct (due_callbacks_taken demo_zones cfg "worker" 5 (hours 20) "COD" "TEST_SYN" clk (ids 20%N) s1 s3 [made_due (row_of 1%N s1)] scheduler_rls
    cb_reach_1 ltac:(vm_compute; reflexivity) ltac:(vm_compute; reflexivity)) as [Hall _].
  destruct (Hall 1%N (row_of 1%N s1) row_1 ltac:(vm_compute; reflexivity) ltac:(vm_compute; reflexivity)) as [H|[H _]]; [exact H|discriminate].
Defined.

(** ** Limits of the code *)

(** The key of a change is looked up for the tenant, not for the callback: a
    change of another callback under a key that was used is answered with the
    callback as it is and dropped. *)
Theorem reused_key_drops_change ZoneInfo a k b key correlation p wall x d row clk us :
  _tenant_context p = inr x -> records d !! k = Some row -> visible x row = true ->
  _scope p (r_tenant_id row) (r_campaign_id row) = inr tt -> assignment_denied p row = false -> key_used (p_tenant p) key d ->
  run clk us (endpoint ZoneInfo a k b key correlation p wall) d = (d, inr row).
Proof.
  intros Hx Hk Hv Hs Ha Hu%(fresh_key_spec x p key d Hx).
  enough (Hw : wp (endpoint ZoneInfo a k b key correlation p wall) (fun s' r => committed s' = d /\ r = inr row) (Session d d clk us)).
  { unfold wp in Hw. unfold run, with_session. destruct Hw as [-> ->]. done. }
  unfold endpoint, mutate, _load, lift, guard_or.
  repeat first [progress (rewrite ?Hx, ?Hk, ?Hv, ?Hs, ?Ha, ?Hu; cbn [negb]) | wp_step]. all: done.
Qed.

(** The agent reminder that the scheduler queues with every due callback has a
    stage that the popup worker does not know: it is retried and never posted. *)
Theorem agent_reminder_never_posted v r t : d_stage v = "AGENT_REMINDER_10M" -> exists msg, _document v r t = inl (ValueError msg).
Proof. intros E. unfold _document. rewrite E. by eexists. Qed.

(** A note on a callback makes its pending reminder stale: the version moves on
    and nothing queues the reminder again. *)
Theorem note_cancels_reminder :
  (run clk (ids 70%N) (deliver_callback_popups accepting "COD" "TEST_SYN" "token" 5 (hours 20) (fun _ => 0)) s1).2
    = inr (mkPopups 1 0 0 (match (run clk (ids 70%N) popups s1).2 with inr rep => posted rep | _ => [] end))
  /\ (run clk (ids 70%N) (deliver_callback_popups accepting "COD" "TEST_SYN" "token" 5 (hours 20) (fun _ => 0)) s2).2
    = inr (mkPopups 0 0 1 []).
Proof. split; vm_compute; reflexivity. Qed.

(** Event keys of the scheduler and of clients share one name space: a change
    sent with the key that the scheduler will need makes its claim fail, with
    everything else that was due. *)
Definition reserved := endpoint demo_zones Patch 1%N (change 1) (version_key ((row_of 1%N s1) <| r_version := 3 |>) "due") "corr-2" supervisor 0.
Definition t1 : db := (run clk (ids 10%N) reserved s1).1.
Theorem reserved_key_stops_scheduler : run clk (ids 20%N) taking t1 = (t1, inl (IntegrityError "callback_event")).
Proof. vm_compute. reflexivity. Qed.

(** The queue sorts priorities as texts: a callback of priority [HIGH] comes
    after one of priority [LOW]. *)
Theorem high_priority_last r :
  by_priority (r <| r_priority := "HIGH" |>) (r <| r_priority := "LOW" |>) = false
  /\ by_priority (r <| r_priority := "LOW" |>) (r <| r_priority := "HIGH" |>) = true.
Proof. by destruct r. Qed.
End CallbackDemo.
